(* ===== verification/_CoqProject ===== *)
-Q . S2P
Prelude.v
Kstring.v
Klib.v
Kalloc.v
KVector.v
Pipe.v
BufCache.v
Log.v
Cpath.v
Cgroup.v
CgroupTree.v
Vm.v
ObjDisk.v
Device.v
NativeFs.v
FsFile.v
FsLog.v
VfsFile.v
FileRefs.v
FileWrite.v
CpuAccount.v
Namespace.v
Proc.v
ProcInv.v
CgFile.v
Sched.v
Shell.v
