(* ===== verification/Prelude.v ===== *)
(** * Verification of the xv6-osw kernel and its shell's parser

    xv6-osw is a teaching kernel for x86 multiprocessors with control groups, namespaces, several file systems and a container
    tool.  This library models the parts of the kernel that keep state in data structures (paths are relative to src/) and the
    parser of the shell, as executable functions, and proves what they promise.

    ** How the code is modelled

    A routine that can stop is a function in the monad [M S A] over the state [S] of its component: it returns a value and a new
    state, or it stops with [Panic], with [Sleep] (it has to wait), or with [Fault] (an access through a null pointer or outside
    of an object, a division by zero).  Integers are kept in Z and wrapped to their width where the code wraps ([u32], [s32],
    [u8], [u64] and the notations of [xv6_scope]).  Pointers into a table are indices.  Memory that the code shares or casts is
    one function from addresses to bytes ([Kstring.mem]).  A critical section is one step; where the code gives up its lock in
    the middle, the steps on both sides are separate and a step relation interleaves them (pipes, the log, open files, control
    groups, processes).

    ** Files

    - Prelude: machine integers, the monad with its rules, lists and counting, the interface [ByteSink] of what a read fills.
    - Kstring (kernel/string.c), Klib (kernel/klib.c): bytes, strings, numbers as text.
    - Kalloc (kernel/kalloc.c): the free list inside the free pages, and reservations for control groups.
    - KVector (kernel/kvector.c): vectors of pages on the heap of Kalloc; an instance of [ByteSink].
    - Pipe (kernel/pipe.c): the ring, and the system of readers and writers.
    - BufCache (kernel/device/buf_cache.c, bio.c, the checks of ide.c): the LRU list, transfers, and the trace of block writes.
    - Log (kernel/fs/native_log.c): transactions on BufCache; crashes and recovery are runs on a prefix of the trace.
    - Cpath (format_path of kernel/cgroup.c, names of kernel/fs/cgfs.c): paths.
    - Cgroup, CgroupTree (kernel/cgroup.c): the table, and the invariants of the tree, of membership and of the controllers.
    - Vm (kernel/vm.c): page tables as words in the pages of Kalloc, with the memory that groups of Cgroup protect.
    - Device (kernel/device/device.c, ide_device.c, loop_device.c): the table of devices.
    - NativeFs (kernel/fs/native_fs.c): blocks, inodes, contents and directories over the class [BlockOps]; FsFile proves them
      from the laws [Blocks]; FsLog proves those laws of BufCache with Log.
    - VfsFile (kernel/fs/vfs_file.c, descriptors of kernel/sysfile.c, pipealloc, opening of cgroup files): open files over the
      class [InodeOps]; FileRefs proves the counts; FileWrite joins VfsFile, NativeFs, Log and BufCache.
    - CgFile (kernel/fs/cgfs.c): the text of the cgroup files and the writes that set limits, over VfsFile, Cgroup and Proc.
    - CpuAccount (kernel/cpu_account.c), Namespace (kernel/namespace.c, pid_ns.c, mount_ns.c), Proc (kernel/proc.c) over both
      and over Cgroup; ProcInv has its invariants, Sched the turn of the scheduler.
    - ObjDisk (kernel/device/obj_disk.c), Module Store: the object store, its table and objects as bytes of the storage.
    - Shell (user/sh.c): the parser.

    ** What the theorems show

    - Blocks and files: the cache is coherent, its list well formed, and the log atomic under crashes at every block write, also
      during recovery; any interleaving of operations refines durable transactions; files are sequences of bytes, allocation
      never hands out a block in use, and a long write through all layers is safe at every crash.
    - References: the counts of devices, open files, pipes, namespaces and their proxies are exact in every reachable state.
    - Processes: live pids are unique, the calls on the table have the outcomes of their contracts, the scheduler runs only what
      it may run and charges the time exactly.
    - Control groups: counters, membership and controllers agree with the tree in every reachable state; the cgroup files show
      that state, and what is written to them takes effect there.
    - Memory: a page has one owner; address spaces are isolated, grow by zeroed pages, and give back exactly their pages.
    - Objects: while there is room the object store answers as a map from names to contents and its objects never overlap.
    - Pipes refine a queue; format_path equals name-by-name resolution; the shell parses back what is printed.
    - Where the code does less than its comments say, a theorem states what it does (the size of the log that mkfs reserves, reads
      behind the text of a cgroup file, descriptors left by a failed open, a pid namespace that outlives its parent, objects that do not fit the store).

    ** Bounds and fuel

    Loops bounded by a size recurse on it.  Loops along a linked structure take fuel: the number of buffers for the LRU list, of
    pages for a vector or a range of addresses, of groups for a walk to the root, of bytes for a string or a command line.  No
    theorem holds because the fuel ran out: [NoFuel] is excluded, either by the invariant that bounds the structure or by a
    hypothesis on the length of the text.

    ** Not modelled

    - Hardware: port I/O, interrupt controllers, trap entry, context switch, page table register, boot (kernel/*.S, lapic.c,
      ioapic.c, picirq.c, mp.c, uart.c, kbd.c, console.c, main.c, trap.c), and the spin locks themselves.
    - The system calls that work on paths (kernel/sysfile.c in part, kernel/fs/vfs_fs.c), mounts (kernel/kmount.c, sysmount.c),
      /proc (kernel/fs/procfs.c), exec and loaduvm (kernel/exec.c): their calls on modelled parts appear there as arguments or
      recorded events.
    - The object file system above its store (kernel/fs/obj_fs.c) and its cache (kernel/device/obj_cache.c).
    - The user library, the user programs and pouch, which are system calls for the most part, mkfs.c and the tests.
    - Weak memory and preemption inside a critical section: the locks are taken to exclude each other. *)

From Stdlib Require Export ZArith Lia.
From stdpp Require Export base tactics gmap strings numbers.
From stdpp Require Export list.

#[global] Open Scope Z_scope.

(** ** Machine integers *)

(** [uint] arithmetic wraps modulo 2^32, [unsigned long long] modulo 2^64. *)
Definition u32 (z : Z) : Z := z mod 2 ^ 32.
Definition u64 (z : Z) : Z := z mod 2 ^ 64.
Definition u8 (z : Z) : Z := z mod 2 ^ 8.

(** [int] (and [char], signed on x86) as two's complement. *)
Definition s32 (z : Z) : Z := (z + 2 ^ 31) mod 2 ^ 32 - 2 ^ 31.
Definition s8 (z : Z) : Z := (z + 2 ^ 7) mod 2 ^ 8 - 2 ^ 7.

Declare Scope xv6_scope.
Delimit Scope xv6_scope with xv6.
Notation "x +u y" := (u32 (x + y)) (at level 50, left associativity) : xv6_scope.
Notation "x -u y" := (u32 (x - y)) (at level 50, left associativity) : xv6_scope.
Notation "x *u y" := (u32 (x * y)) (at level 40, left associativity) : xv6_scope.
Notation "x +i y" := (s32 (x + y)) (at level 50, left associativity) : xv6_scope.
Notation "x -i y" := (s32 (x - y)) (at level 50, left associativity) : xv6_scope.
#[global] Open Scope xv6_scope.

Definition is_u32 (z : Z) : Prop := 0 <= z < 2 ^ 32.
Definition is_s32 (z : Z) : Prop := - 2 ^ 31 <= z < 2 ^ 31.
Definition is_byte (z : Z) : Prop := 0 <= z < 256.

Create HintDb word.
Create Rewrite HintDb wrap.

Lemma u32_range z : is_u32 (u32 z).
Proof. apply Z.mod_pos_bound. lia. Qed.

Lemma u32_id z : is_u32 z -> u32 z = z.
Proof. intros H. apply Z.mod_small, H. Qed.

Lemma s32_range z : is_s32 (s32 z).
Proof.
  unfold is_s32, s32. pose proof (Z.mod_pos_bound (z + 2 ^ 31) (2 ^ 32)). lia.
Qed.

Lemma s32_id z : is_s32 z -> s32 z = z.
Proof. unfold is_s32, s32. intros H. rewrite Z.mod_small; lia. Qed.

Lemma u64_id z : 0 <= z < 2 ^ 64 -> u64 z = z.
Proof. intros H. apply Z.mod_small, H. Qed.

Lemma u8_id z : is_byte z -> u8 z = z.
Proof. intros H. apply Z.mod_small. exact H. Qed.

Lemma u8_range z : is_byte (u8 z).
Proof. apply Z.mod_pos_bound. lia. Qed.

Lemma u32_add_l a b : u32 (u32 a + b) = u32 (a + b).
Proof. apply Zplus_mod_idemp_l. Qed.

Lemma u32_add_r a b : u32 (a + u32 b) = u32 (a + b).
Proof. apply Zplus_mod_idemp_r. Qed.

Lemma u32_sub_l a b : u32 (u32 a - b) = u32 (a - b).
Proof. apply Zminus_mod_idemp_l. Qed.

Lemma u32_sub_r a b : u32 (a - u32 b) = u32 (a - b).
Proof. apply Zminus_mod_idemp_r. Qed.

Lemma s32_add_l a b : s32 (s32 a + b) = s32 (a + b).
Proof.
  unfold s32. f_equal. rewrite <- (Zplus_mod_idemp_l (a + b)).
  replace ((a + 2 ^ 31) mod 2 ^ 32 - 2 ^ 31 + b + 2 ^ 31) with ((a + 2 ^ 31) mod 2 ^ 32 + b) by lia.
  rewrite Zplus_mod_idemp_l, Zplus_mod_idemp_l. f_equal. lia.
Qed.

#[export] Hint Resolve u32_range s32_range u8_range : word.
#[export] Hint Rewrite u32_id s32_id u64_id u8_id using (unfold is_u32, is_s32, is_byte in *; lia) : wrap.

(** Normalises machine arithmetic that stays in range and calls [lia]. *)
Ltac word := unfold is_u32, is_s32, is_byte in *; autorewrite with wrap; try lia.

(** ** Outcomes of kernel code

    A kernel routine returns, calls [panic], goes to sleep on a channel nobody
    can signal in a sequential run, or traps (a null dereference, a division by
    zero).  [NoFuel] is not an outcome of the code: it says that the bound given
    to a loop was too small, and the theorems exclude it. *)
Inductive stop := Panic (msg : string) | Sleep | Fault | NoFuel.

Definition M (S A : Type) : Type := S -> stop + (A * S).

#[export] Instance M_ret S : MRet (M S) := fun A a s => inr (a, s).
#[export] Instance M_bind S : MBind (M S) := fun A B k m s =>
  match m s with inl e => inl e | inr (a, s') => k a s' end.

Definition panic {S A} (msg : string) : M S A := fun _ => inl (Panic msg).
Definition fault {S A} : M S A := fun _ => inl Fault.
Definition nofuel {S A} : M S A := fun _ => inl NoFuel.
Definition sleep_here {S A} : M S A := fun _ => inl Sleep.
Definition getS {S} : M S S := fun s => inr (s, s).
Definition putS {S} (s : S) : M S unit := fun _ => inr (tt, s).
Definition modS {S} (f : S -> S) : M S unit := fun s => inr (tt, f s).
Definition gets {S A} (f : S -> A) : M S A := fun s => inr (f s, s).

(** [x] or a fault when there is none: a pointer dereference. *)
Definition deref {S A} (x : option A) : M S A :=
  match x with Some a => mret a | None => fault end.

(** Runs the monad's own steps. *)
Ltac mrun :=
  cbv beta iota zeta delta
    [mbind M_bind mret M_ret getS putS modS gets deref panic fault nofuel sleep_here].

Lemma bind_inr {S A B} (m : M S A) (k : A -> M S B) s b s' :
  (m ≫= k) s = inr (b, s') <-> exists a s1, m s = inr (a, s1) /\ k a s1 = inr (b, s').
Proof.
  unfold mbind, M_bind. destruct (m s) as [e|[a s1]]; split.
  - discriminate.
  - intros (?&?&?&?). discriminate.
  - eauto.
  - intros (?&?&[= <- <-]&?). done.
Qed.

Lemma bind_run {S A B} (m : M S A) (k : A -> M S B) s a s' :
  m s = inr (a, s') -> (m ≫= k) s = k a s'.
Proof. unfold mbind, M_bind. intros ->. done. Qed.

Lemma bind_stop {S A B} (m : M S A) (k : A -> M S B) s e : m s = inl e -> (m ≫= k) s = inl e.
Proof. unfold mbind, M_bind. intros ->. done. Qed.

Lemma bind_assoc {S A B C} (m : M S A) (f : A -> M S B) (g : B -> M S C) s : ((m ≫= f) ≫= g) s = (m ≫= (fun a => f a ≫= g)) s.
Proof. unfold mbind, M_bind. by destruct (m s) as [?|[??]]. Qed.

Lemma deref_inr {S A} (x : option A) (s : S) a s' : deref x s = inr (a, s') -> x = Some a /\ s' = s.
Proof. destruct x; [|done]. by intros [= -> ->]. Qed.

Lemma modS_bind {S B} (f : S -> S) (k : unit -> M S B) s : (modS f ≫= k) s = k tt (f s).
Proof. done. Qed.

Lemma getS_run {S} (s : S) : getS s = inr (s, s).
Proof. done. Qed.

(** [m] returns from [s] with a result and a state that satisfy [Q]. *)
Definition wp {S A} (m : M S A) (s : S) (Q : A -> S -> Prop) : Prop := exists a s', m s = inr (a, s') /\ Q a s'.

Lemma wp_ret {S A} (a : A) (s : S) (Q : A -> S -> Prop) : Q a s -> wp (mret a) s Q.
Proof. intros H. by exists a, s. Qed.

Lemma wp_bind {S A B} (m : M S A) (k : A -> M S B) s Q : wp m s (fun a s' => wp (k a) s' Q) -> wp (m ≫= k) s Q.
Proof. intros (a & s1 & E & b & s2 & E2 & H). exists b, s2. by rewrite (bind_run _ _ _ _ _ E). Qed.

Lemma wp_mono {S A} (m : M S A) s (P Q : A -> S -> Prop) : wp m s P -> (forall a s', P a s' -> Q a s') -> wp m s Q.
Proof. intros (a & s' & E & H) HQ. exists a, s'. auto. Qed.

Lemma wp_getS {S} (s : S) Q : Q s s -> wp getS s Q.
Proof. intros H. by exists s, s. Qed.

Lemma wp_modS {S} f (s : S) (Q : unit -> S -> Prop) : Q tt (f s) -> wp (modS f) s Q.
Proof. intros H. by exists tt, (f s). Qed.

Lemma wp_deref {S A} (x : option A) a (s : S) Q : x = Some a -> Q a s -> wp (deref x) s Q.
Proof. intros -> H. by exists a, s. Qed.

Lemma wp_bind_eq {S A B} (m : M S A) (k : A -> M S B) s Q : wp (m ≫= k) s Q <-> wp m s (fun a s' => wp (k a) s' Q).
Proof.
  split; [|apply wp_bind]. intros (b & s2 & (a & s1 & E1 & E2)%bind_inr & H). exists a, s1. split; [done|]. by exists b, s2.
Qed.

(** [m] returns from [s] into [Q], or stops in a way [E] allows. *)
Definition okp {S A} (E : stop -> Prop) (m : M S A) (s : S) (Q : A -> S -> Prop) : Prop :=
  match m s with inl e => E e | inr (a, s') => Q a s' end.

Lemma okp_bind {S A B} E (m : M S A) (k : A -> M S B) s Q : okp E m s (fun a s' => okp E (k a) s' Q) -> okp E (m ≫= k) s Q.
Proof. unfold okp, mbind, M_bind. by destruct (m s) as [e|[a s']]. Qed.

Lemma okp_run {S A} E (m : M S A) s a s' Q : m s = inr (a, s') -> Q a s' -> okp E m s Q.
Proof. unfold okp. by intros ->. Qed.

Lemma okp_mono {S A} (E E' : stop -> Prop) (m : M S A) s (P Q : A -> S -> Prop) :
  okp E m s P -> (forall e, E e -> E' e) -> (forall a s', P a s' -> Q a s') -> okp E' m s Q.
Proof. unfold okp. destruct (m s) as [e|[a s']]; auto. Qed.

Lemma okp_modS {S} E f (s : S) (Q : unit -> S -> Prop) : Q tt (f s) -> okp E (modS f) s Q.
Proof. done. Qed.

Lemma okp_getS {S} E (s : S) (Q : S -> S -> Prop) : Q s s -> okp E getS s Q.
Proof. done. Qed.

Lemma okp_ret {S A} E (a : A) (s : S) (Q : A -> S -> Prop) : Q a s -> okp E (mret a) s Q.
Proof. done. Qed.

Lemma okp_deref {S A} E (x : option A) a (s : S) (Q : A -> S -> Prop) : x = Some a -> Q a s -> okp E (deref x) s Q.
Proof. by intros ->. Qed.
Lemma okp_total {S A} (m : M S A) s Q : okp (fun _ => False) m s Q -> exists r s', m s = inr (r, s') /\ Q r s'.
Proof. unfold okp. destruct (m s) as [e|[r s']]; [done|]. eauto. Qed.
Lemma okp_result {S A} E (m : M S A) s Q r s' : okp E m s Q -> m s = inr (r, s') -> Q r s'.
Proof. unfold okp. intros H E'. by rewrite E' in H. Qed.

(** One step of a run, with the equation of its first call. *)
Ltac step H := erewrite bind_run; [|exact H]; cbv beta zeta.

(** A count for each index, changed at one of them. *)
Definition plus_at (x : nat) (d : Z) (h : nat -> Z) (y : nat) : Z := if decide (y = x) then h y + d else h y.

(** ** Lists *)

Section lists.
Context {A : Type}.

(** The number of entries of a table that satisfy a test. *)
Definition count (P : A -> bool) (l : list A) : nat := length (List.filter P l).

Lemma count_nil P : count P [] = 0%nat.
Proof. done. Qed.

Lemma count_cons P x l : count P (x :: l) = ((if P x then 1 else 0) + count P l)%nat.
Proof. unfold count. simpl. destruct (P x); done. Qed.

Lemma count_app P l k : count P (l ++ k) = (count P l + count P k)%nat.
Proof. unfold count. rewrite List.filter_app, length_app. done. Qed.

Lemma count_insert P l i x y :
  l !! i = Some x ->
  (count P (<[i:=y]> l) + (if P x then 1 else 0) =
   count P l + (if P y then 1 else 0))%nat.
Proof.
  revert i. induction l as [|z l IH]; intros [|i] Hl; try discriminate Hl; simpl in *.
  - injection Hl as ->. rewrite !count_cons. lia.
  - rewrite !count_cons. specialize (IH i Hl). lia.
Qed.

Lemma count_le_length P l : (count P l <= length l)%nat.
Proof. unfold count. induction l; simpl; [lia|]. case_match; simpl; lia. Qed.

Lemma count_ext P Q l : (forall x, x ∈ l -> P x = Q x) -> count P l = count Q l.
Proof.
  induction l as [|x l IH]; intros H; [done|].
  rewrite !count_cons, (H x), IH by set_solver. done.
Qed.
Lemma count_all P l : (forall x, x ∈ l -> P x = true) -> count P l = length l.
Proof.
  induction l as [|x l IH]; intros H; [done|].
  rewrite count_cons, (H x), IH by set_solver. done.
Qed.

Lemma count_none P l : (forall x, x ∈ l -> P x = false) -> count P l = 0%nat.
Proof.
  induction l as [|x l IH]; intros H; [done|].
  rewrite count_cons, (H x), IH by set_solver. done.
Qed.
End lists.

Lemma alter_insert {A} (f : A -> A) (l : list A) i x : l !! i = Some x -> alter f i l = <[i := f x]> l.
Proof. intros H. rewrite list_insert_alter. apply list_alter_ext; [|done]. intros y Hy. congruence. Qed.

Lemma count_pos {A} (P : A -> bool) l : (0 < count P l)%nat -> exists i x, l !! i = Some x /\ P x = true.
Proof.
  induction l as [|x l IH]; [rewrite count_nil; lia|]. rewrite count_cons. destruct (P x) eqn:E; [by exists 0%nat, x|].
  intros H. destruct IH as (i & y & Hy & Py); [simpl in H; lia|]. by exists (S i), y.
Qed.

Lemma count_elem {A} (P : A -> bool) l i x : l !! i = Some x -> P x = true -> (0 < count P l)%nat.
Proof.
  revert i. induction l as [|y l IH]; intros [|i] Hi Hp; simplify_eq/=; rewrite count_cons; [rewrite Hp; lia|]. specialize (IH i Hi Hp). lia.
Qed.

(** ** Destinations of bytes *)

(** What the destination of a read offers: put a byte at an index, look at it. *)
Class ByteSink (V : Type) := {
  sink_put : V -> Z -> Z -> V;
  sink_get : V -> Z -> Z;
  sink_cap : V -> Z;
  sink_ok : V -> Prop;
  sink_put_ok v i b : sink_ok v -> is_byte b -> 0 <= i < sink_cap v -> sink_ok (sink_put v i b);
  sink_put_cap v i b : sink_cap (sink_put v i b) = sink_cap v;
  sink_get_put v i b : sink_ok v -> is_byte b -> 0 <= i < sink_cap v -> sink_get (sink_put v i b) i = b;
  sink_get_put_ne v i j b : sink_ok v -> is_byte b -> 0 <= i < sink_cap v -> 0 <= j < sink_cap v ->
    i <> j -> sink_get (sink_put v i b) j = sink_get v j
}.

(** A buffer of bytes. *)
#[export, refine] Instance list_sink : ByteSink (list Z) := {|
  sink_put l i b := <[Z.to_nat i := b]> l;
  sink_get l i := l !!! Z.to_nat i;
  sink_cap l := Z.of_nat (length l);
  sink_ok _ := True
|}.
Proof.
  - done.
  - intros l i b. by rewrite length_insert.
  - intros l i b _ _ Hi. apply list_lookup_total_insert_eq. lia.
  - intros l i j b _ _ Hi Hj Hne. apply list_lookup_total_insert_ne. lia.
Defined.
