(* ===== verification/Kstring.v ===== *)
(** * Byte-addressed kernel memory and the routines of kernel/string.c

    Memory is a function from addresses to bytes, so that source and
    destination of a copy may overlap.  A routine whose loop is bounded by its
    length argument recurses on that length; [strcmp] and [strlen], whose loops
    end at a NUL, take fuel and return [None] when it runs out; their theorems
    give the fuel that is enough. *)

From S2P Require Import Prelude.

Definition mem : Type := Z -> Z.

Definition st8 (m : mem) (p v : Z) : mem := fun a => if a =? p then u8 v else m a.

(** 32-bit little-endian loads and stores (x86 pointers and ints). *)
Definition ld32 (m : mem) (p : Z) : Z :=
  m p + 2 ^ 8 * m (p + 1) + 2 ^ 16 * m (p + 2) + 2 ^ 24 * m (p + 3).
Definition st32 (m : mem) (p v : Z) : mem :=
  st8 (st8 (st8 (st8 m p v) (p + 1) (v / 2 ^ 8)) (p + 2) (v / 2 ^ 16)) (p + 3) (v / 2 ^ 24).

Definition in_range (a p n : Z) : bool := (p <=? a) && (a <? p + n).

(** The string-store instructions [memset] runs on. *)
Definition stosb (m : mem) (addr data cnt : Z) : mem :=
  fun a => if in_range a addr cnt then u8 data else m a.
Definition stosl (m : mem) (addr data cnt : Z) : mem :=
  fun a => if in_range a addr (4 * cnt)
           then u8 (Z.shiftr data (8 * ((a - addr) mod 4))) else m a.

Definition memset (m : mem) (dst c n : Z) : mem :=
  if (Z.rem (s32 dst) 4 =? 0) && (n mod 4 =? 0) then
    let c := Z.land c 0xFF in
    stosl m dst (Z.lor (Z.lor (Z.lor (Z.shiftl c 24) (Z.shiftl c 16)) (Z.shiftl c 8)) c) (n / 4)
  else stosb m dst c n.

Fixpoint memcmp_loop (m : mem) (s1 s2 : Z) (n : nat) : Z :=
  match n with
  | O => 0
  | S n => if negb (m s1 =? m s2) then m s1 - m s2
           else memcmp_loop m (s1 + 1) (s2 + 1) n
  end.
Definition memcmp (m : mem) (v1 v2 n : Z) : Z := memcmp_loop m v1 v2 (Z.to_nat n).

Fixpoint memmove_down (m : mem) (d s : Z) (n : nat) : mem :=
  match n with
  | O => m
  | S n => let d := d - 1 in let s := s - 1 in memmove_down (st8 m d (m s)) d s n
  end.
Fixpoint memmove_up (m : mem) (d s : Z) (n : nat) : mem :=
  match n with
  | O => m
  | S n => memmove_up (st8 m d (m s)) (d + 1) (s + 1) n
  end.
Definition memmove (m : mem) (dst src n : Z) : mem :=
  if (src <? dst) && (dst <? src + n)
  then memmove_down m (dst + n) (src + n) (Z.to_nat n)
  else memmove_up m dst src (Z.to_nat n).
Definition memcpy (m : mem) (dst src n : Z) : mem := memmove m dst src n.

Fixpoint strncmp_loop (m : mem) (p q : Z) (n : nat) : Z :=
  match n with
  | O => 0
  | S n' => if negb (m p =? 0) && (m p =? m q) then strncmp_loop m (p + 1) (q + 1) n'
            else m p - m q
  end.
Definition strncmp (m : mem) (p q n : Z) : Z := strncmp_loop m p q (Z.to_nat n).

Fixpoint strcmp (fuel : nat) (m : mem) (p q : Z) : option Z :=
  match fuel with
  | O => None
  | S fuel => if negb (m p =? 0) && (m p =? m q) then strcmp fuel m (p + 1) (q + 1)
              else Some (m p - m q)
  end.

Fixpoint strncpy_pad (m : mem) (s : Z) (n : nat) : mem :=
  match n with O => m | S n => strncpy_pad (st8 m s 0) (s + 1) n end.
Fixpoint strncpy_loop (m : mem) (s t : Z) (n : nat) : mem :=
  match n with
  | O => m
  | S n => let c := m t in
           let m := st8 m s c in
           if c =? 0 then strncpy_pad m (s + 1) n else strncpy_loop m (s + 1) (t + 1) n
  end.
Definition strncpy (m : mem) (s t n : Z) : mem := strncpy_loop m s t (Z.to_nat n).

Fixpoint safestrcpy_loop (m : mem) (s t : Z) (n : nat) : mem :=
  match n with
  | O => st8 m s 0
  | S n => let c := m t in
           let m := st8 m s c in
           if c =? 0 then st8 m (s + 1) 0 else safestrcpy_loop m (s + 1) (t + 1) n
  end.
Definition safestrcpy (m : mem) (s t n : Z) : mem :=
  if n <=? 0 then m else safestrcpy_loop m s t (Z.to_nat (n - 1)).

Fixpoint strlen_loop (fuel : nat) (m : mem) (s n : Z) : option Z :=
  match fuel with
  | O => None
  | S fuel => if negb (m (s + n) =? 0) then strlen_loop fuel m s (n + 1) else Some n
  end.
Definition strlen (fuel : nat) (m : mem) (s : Z) : option Z := strlen_loop fuel m s 0.

(** ** Bytes and C strings held in memory *)

Definition wf_mem (m : mem) : Prop := forall a, is_byte (m a).

Definition bytes_at (m : mem) (p : Z) (l : list Z) : Prop :=
  forall (i : nat) c, l !! i = Some c -> m (p + Z.of_nat i) = c.

Definition cstr (m : mem) (p : Z) (l : list Z) : Prop :=
  bytes_at m p (l ++ [0]) /\ Forall (fun c => c <> 0) l.

(** The dictionary order on byte strings [strcmp] is documented to compute. *)
Fixpoint lex_lt (a b : list Z) : bool :=
  match a, b with
  | _, [] => false
  | [], _ :: _ => true
  | x :: a, y :: b => if x =? y then lex_lt a b else x <? y
  end.

Lemma in_range_true a p n : in_range a p n = true <-> p <= a < p + n.
Proof. unfold in_range. rewrite andb_true_iff, Z.leb_le, Z.ltb_lt. lia. Qed.

Lemma in_range_false a p n : in_range a p n = false <-> ~ (p <= a < p + n).
Proof. rewrite <- in_range_true. destruct (in_range a p n); naive_solver. Qed.

Ltac range_cases :=
  repeat match goal with
  | |- context [in_range ?a ?p ?n] =>
      let E := fresh "E" in destruct (in_range a p n) eqn:E;
      [apply in_range_true in E | apply in_range_false in E]
  end.

Ltac zcases :=
  repeat match goal with
  | |- context [?a =? ?b] => destruct (Z.eqb_spec a b)
  | |- context [?a <? ?b] => destruct (Z.ltb_spec a b)
  | |- context [?a <=? ?b] => destruct (Z.leb_spec a b)
  end.

Lemma st8_same m p v : st8 m p v p = u8 v.
Proof. unfold st8. rewrite Z.eqb_refl. done. Qed.

Lemma st8_other m p v a : a <> p -> st8 m p v a = m a.
Proof. unfold st8. intros. zcases; congruence. Qed.

Lemma st8_wf m p v : wf_mem m -> wf_mem (st8 m p v).
Proof. intros H a. unfold st8. zcases; auto with word. Qed.
#[export] Hint Resolve st8_wf : word.

Lemma st32_other m p v a : a < p \/ p + 4 <= a -> st32 m p v a = m a.
Proof. intros. unfold st32. rewrite !st8_other by lia. done. Qed.

Lemma ld32_st32 m p v : is_u32 v -> ld32 (st32 m p v) p = v.
Proof.
  intros Hv. unfold ld32, st32, st8.
  rewrite !Z.eqb_refl. zcases; try lia. unfold u8, is_u32 in *.
  change (2 ^ 8) with 256. change (2 ^ 16) with 65536. change (2 ^ 24) with 16777216.
  change (2 ^ 32) with 4294967296 in Hv.
  Z.div_mod_to_equations. lia.
Qed.

Lemma ld32_ext m m' p : (forall a, p <= a < p + 4 -> m a = m' a) -> ld32 m p = ld32 m' p.
Proof. intros H. unfold ld32. rewrite !H by lia. done. Qed.

Lemma ld32_range m p : wf_mem m -> is_u32 (ld32 m p).
Proof.
  intros H. unfold ld32.
  pose proof (H p); pose proof (H (p + 1)); pose proof (H (p + 2)); pose proof (H (p + 3)).
  unfold is_byte, is_u32 in *. lia.
Qed.

Lemma st32_wf m p v : wf_mem m -> wf_mem (st32 m p v).
Proof. intros. unfold st32. auto with word. Qed.
#[export] Hint Resolve ld32_range st32_wf : word.

(** ** memset *)

Lemma stosl_byte c k :
  0 <= k < 4 ->
  u8 (Z.shiftr (Z.lor (Z.lor (Z.lor (Z.shiftl (Z.land c 0xFF) 24) (Z.shiftl (Z.land c 0xFF) 16))
        (Z.shiftl (Z.land c 0xFF) 8)) (Z.land c 0xFF)) (8 * k)) = u8 c.
Proof.
  intros Hk. change 0xFF with (Z.ones 8). rewrite !Z.land_ones by lia.
  change (c mod 2 ^ 8) with (u8 c). pose proof (u8_range c) as Hb. revert Hb.
  generalize (u8 c). clear c. intros b Hb. unfold is_byte in Hb.
  assert (forallb (fun b => forallb (fun k => u8 (Z.shiftr (Z.lor (Z.lor (Z.lor (Z.shiftl b 24)
    (Z.shiftl b 16)) (Z.shiftl b 8)) b) (8 * k)) =? b) (seqZ 0 4)) (seqZ 0 256) = true) as H
    by (vm_compute; done).
  rewrite forallb_forall in H. specialize (H b). rewrite <- list_elem_of_In, elem_of_seqZ in H.
  specialize (H ltac:(lia)). rewrite forallb_forall in H. specialize (H k).
  rewrite <- list_elem_of_In, elem_of_seqZ in H. apply Z.eqb_eq, H. lia.
Qed.

(** The word-at-a-time path of [memset] fills the same bytes as the byte path. *)
Lemma memset_spec m dst c n a :
  0 <= n -> memset m dst c n a = if in_range a dst n then u8 c else m a.
Proof.
  intros Hn. unfold memset. destruct (_ && _) eqn:E; [|done].
  apply andb_true_iff in E as [_ E]. apply Z.eqb_eq in E.
  unfold stosl. replace (4 * (n / 4)) with n by (Z.div_mod_to_equations; lia).
  range_cases; [|done]. apply stosl_byte. apply Z.mod_pos_bound. lia.
Qed.

Lemma memset_wf m dst c n : 0 <= n -> wf_mem m -> wf_mem (memset m dst c n).
Proof. intros Hn H a. rewrite memset_spec by done. range_cases; auto with word. Qed.
#[export] Hint Resolve memset_wf : word.

(** ** memmove *)

Lemma memmove_up_spec n m d s :
  wf_mem m -> d <= s \/ s + Z.of_nat n <= d ->
  forall a, memmove_up m d s n a =
            if in_range a d (Z.of_nat n) then m (a - d + s) else m a.
Proof.
  revert m d s. induction n as [|n IH]; intros m d s Hm Hd a; simpl memmove_up.
  - range_cases; [lia|done].
  - rewrite IH by (auto with word || lia).
    range_cases; try lia; unfold st8; zcases; try lia;
      rewrite ?u8_id by apply Hm; f_equal; lia.
Qed.

Lemma memmove_down_spec n m d s :
  wf_mem m -> s < d ->
  forall a, memmove_down m d s n a =
            if in_range a (d - Z.of_nat n) (Z.of_nat n) then m (a - d + s) else m a.
Proof.
  revert m d s. induction n as [|n IH]; intros m d s Hm Hd a; simpl memmove_down.
  - range_cases; [lia|done].
  - rewrite IH by (auto with word || lia).
    range_cases; try lia; unfold st8; zcases; try lia;
      rewrite ?u8_id by apply Hm; f_equal; lia.
Qed.

Lemma memmove_spec m dst src n a :
  wf_mem m -> 0 <= n ->
  memmove m dst src n a = if in_range a dst n then m (a - dst + src) else m a.
Proof.
  intros Hm Hn. unfold memmove. destruct (_ && _) eqn:E.
  - rewrite memmove_down_spec, Z2Nat.id by lia || done.
    replace (dst + n - n) with dst by lia. range_cases; [f_equal; lia|done].
  - apply andb_false_iff in E. rewrite !Z.ltb_ge in E.
    rewrite memmove_up_spec, Z2Nat.id by (done || lia). done.
Qed.

Lemma memmove_wf m dst src n : 0 <= n -> wf_mem m -> wf_mem (memmove m dst src n).
Proof. intros Hn Hm a. rewrite memmove_spec by done. range_cases; apply Hm. Qed.
#[export] Hint Resolve memmove_wf : word.

(** [memmove] copies the bytes at [src] as they were before the call to
    [dst] and changes no other byte, however the two ranges overlap. *)
Lemma memmove_correct m dst src l :
  wf_mem m -> bytes_at m src l ->
  let m' := memmove m dst src (Z.of_nat (length l)) in
  bytes_at m' dst l /\
  (forall a, ~ (dst <= a < dst + Z.of_nat (length l)) -> m' a = m a).
Proof.
  intros Hm Hl m'. split.
  - intros i c Hi. unfold m'. rewrite memmove_spec by (done || lia).
    pose proof (lookup_lt_Some _ _ _ Hi). range_cases; [|lia].
    rewrite <- (Hl i c Hi). f_equal. lia.
  - intros a Ha. unfold m'. rewrite memmove_spec by (done || lia). range_cases; [lia|done].
Qed.

Lemma memmove_correct_witness :
  bytes_at (fun a => u8 a) 1 [1; 2; 3; 4; 5] /\
  bytes_at (memmove (fun a => u8 a) 3 1 5) 3 [1; 2; 3; 4; 5].
Proof.
  assert (bytes_at (fun a => u8 a) 1 [1; 2; 3; 4; 5]) as H.
  { intros i c Hi. do 5 (destruct i as [|i]; [injection Hi as <-; reflexivity|]). discriminate. }
  split; [exact H|].
  apply (memmove_correct (fun a => u8 a) 3 1 [1; 2; 3; 4; 5]); [intros a; apply u8_range|exact H].
Defined.

(** ** Walking a C string *)

Lemma bytes_at_cons m p c l : bytes_at m p (c :: l) <-> m p = c /\ bytes_at m (p + 1) l.
Proof.
  split.
  - intros H. split.
    + rewrite <- (H 0%nat c eq_refl). f_equal. lia.
    + intros i d Hi. rewrite <- (H (S i) d Hi). f_equal. lia.
  - intros [H1 H2] [|i] d Hi; simpl in Hi.
    + injection Hi as <-. rewrite <- H1. f_equal. lia.
    + rewrite <- (H2 i d Hi). f_equal. lia.
Qed.

Lemma bytes_at_nil m p : bytes_at m p [].
Proof. intros i c Hi. discriminate. Qed.

Lemma cstr_nil m p : cstr m p [] <-> m p = 0.
Proof.
  unfold cstr. simpl. rewrite bytes_at_cons. split; [intros [[? _] _]; done|].
  intros ?. auto using bytes_at_nil.
Qed.

Lemma cstr_cons m p c l : cstr m p (c :: l) <-> m p = c /\ c <> 0 /\ cstr m (p + 1) l.
Proof. unfold cstr. simpl. rewrite bytes_at_cons, Forall_cons_iff. naive_solver. Qed.

Lemma bytes_at_ext m m' p l :
  (forall a, p <= a < p + Z.of_nat (length l) -> m a = m' a) ->
  bytes_at m p l -> bytes_at m' p l.
Proof.
  intros Hext H i c Hi. rewrite <- (H i c Hi). symmetry. apply Hext.
  pose proof (lookup_lt_Some _ _ _ Hi). lia.
Qed.

Lemma cstr_ext m m' p l :
  (forall a, p <= a <= p + Z.of_nat (length l) -> m a = m' a) -> cstr m p l -> cstr m' p l.
Proof.
  intros Hext [H1 H2]. split; [|done]. eapply bytes_at_ext; [|exact H1].
  intros a. rewrite length_app. simpl. intros. apply Hext. lia.
Qed.

Lemma strlen_loop_spec fuel m p n l :
  cstr m (p + n) l -> (length l < fuel)%nat ->
  strlen_loop fuel m p n = Some (n + Z.of_nat (length l)).
Proof.
  revert fuel n. induction l as [|c l IH]; intros [|fuel] n Hs Hf; simpl in *; try lia.
  - apply cstr_nil in Hs. rewrite Hs. simpl. f_equal. lia.
  - apply cstr_cons in Hs as (Hc & Hc0 & Hs).
    rewrite Hc. destruct (Z.eqb_spec c 0) as [?|_]; [done|]. simpl.
    rewrite IH; [f_equal; lia| |lia]. replace (p + (n + 1)) with (p + n + 1) by lia. done.
Qed.

Lemma strlen_spec fuel m p l :
  cstr m p l -> (length l < fuel)%nat -> strlen fuel m p = Some (Z.of_nat (length l)).
Proof. intros. unfold strlen. rewrite (strlen_loop_spec fuel m p 0 l); rewrite ?Z.add_0_r; done. Qed.

(** On two C strings [strcmp] terminates (one step per common byte and one
    more suffice); its result is 0 exactly when the strings are equal and negative
    exactly when the first comes before the second in the byte dictionary order. *)
Lemma strcmp_correct m p q a b fuel :
  wf_mem m -> cstr m p a -> cstr m q b -> (length a < fuel)%nat ->
  exists r, strcmp fuel m p q = Some r /\ (r = 0 <-> a = b) /\ (r < 0 <-> lex_lt a b = true).
Proof.
  intros Hm. revert p q b fuel.
  induction a as [|x a IH]; intros p q [|y b] [|fuel] Ha Hb Hf; simpl in *; try lia.
  - apply cstr_nil in Ha, Hb. rewrite Ha, Hb. simpl. eexists; split; [done|]. naive_solver lia.
  - apply cstr_nil in Ha. apply cstr_cons in Hb as (Hy & Hy0 & _). rewrite Ha, Hy. simpl.
    pose proof (Hm q). unfold is_byte in *. eexists; split; [done|]. naive_solver lia.
  - apply cstr_nil in Hb. apply cstr_cons in Ha as (Hx & Hx0 & _). rewrite Hb, Hx.
    pose proof (Hm p). unfold is_byte in *.
    destruct (Z.eqb_spec x 0); [done|]. simpl. eexists; split; [done|]. naive_solver lia.
  - apply cstr_cons in Ha as (Hx & Hx0 & Ha), Hb as (Hy & Hy0 & Hb). rewrite Hx, Hy.
    destruct (Z.eqb_spec x 0); [done|]. simpl.
    destruct (Z.eqb_spec x y) as [->|Hne].
    + destruct (IH (p + 1) (q + 1) b fuel Ha Hb ltac:(lia)) as (r & -> & H0 & H1).
      exists r. naive_solver.
    + eexists; split; [done|]. destruct (Z.ltb_spec x y); naive_solver lia.
Qed.

(** Two strings placed in memory, for the witnesses. *)
Definition mem_of (p : Z) (l : list Z) : mem :=
  fun a => if in_range a p (Z.of_nat (length l)) then u8 (l !!! Z.to_nat (a - p)) else 0.

Lemma strcmp_correct_witness :
  exists r, strcmp 4 (mem_of 100 [97; 98; 0; 97; 99; 0]) 100 103 = Some r /\
  (r = 0 <-> [97; 98] = [97; 99]) /\ (r < 0 <-> lex_lt [97; 98] [97; 99] = true).
Proof.
  apply (strcmp_correct (mem_of 100 [97; 98; 0; 97; 99; 0]) 100 103 [97; 98] [97; 99] 4).
  - intros a. unfold mem_of. case_match; [apply u8_range|done].
  - repeat (apply cstr_cons; split; [reflexivity|split; [lia|]]). apply cstr_nil. reflexivity.
  - repeat (apply cstr_cons; split; [reflexivity|split; [lia|]]). apply cstr_nil. reflexivity.
  - simpl. lia.
Defined.

(** ** Copying C strings *)

Lemma strncpy_pad_spec n m s a :
  strncpy_pad m s n a = if in_range a s (Z.of_nat n) then 0 else m a.
Proof.
  revert m s. induction n as [|n IH]; intros m s; simpl strncpy_pad.
  - range_cases; [lia|done].
  - rewrite IH. range_cases; unfold st8; zcases; (done || lia).
Qed.

Lemma strncpy_loop_spec n m s t l :
  wf_mem m -> cstr m t l -> s + Z.of_nat n <= t \/ t + Z.of_nat (length l) < s ->
  forall a, strncpy_loop m s t n a =
            if in_range a s (Z.of_nat n) then default 0 (l !! Z.to_nat (a - s)) else m a.
Proof.
  revert m s t l. induction n as [|n IH]; intros m s t l Hm Hl Hd a; simpl strncpy_loop.
  - range_cases; [lia|done].
  - destruct l as [|c l]; simpl length in Hd.
    + apply cstr_nil in Hl. rewrite Hl, Z.eqb_refl, strncpy_pad_spec.
      range_cases; unfold st8; zcases; try lia; rewrite ?lookup_nil; done.
    + apply cstr_cons in Hl as (Hc & Hc0 & Hl). rewrite Hc.
      destruct (Z.eqb_spec c 0); [done|].
      rewrite (IH _ _ _ l); [|auto with word| |lia].
      2: { eapply cstr_ext; [|exact Hl]. intros b Hb. rewrite st8_other by lia. done. }
      range_cases; unfold st8; zcases; try lia.
      * replace (Z.to_nat (a - s)) with (S (Z.to_nat (a - (s + 1)))) by lia. done.
      * subst a. replace (s - s) with 0 by lia. simpl. rewrite <- Hc. apply u8_id, Hm.
Qed.

Lemma safestrcpy_loop_spec n m s t l :
  wf_mem m -> cstr m t l -> s + Z.of_nat n < t \/ t + Z.of_nat (length l) < s ->
  cstr (safestrcpy_loop m s t n) s (take n l) /\
  forall a, ~ (s <= a <= s + Z.of_nat n) -> safestrcpy_loop m s t n a = m a.
Proof.
  revert m s t l. induction n as [|n IH]; intros m s t l Hm Hl Hd; simpl safestrcpy_loop.
  - rewrite take_0. split; [apply cstr_nil, st8_same|].
    intros a Ha. apply st8_other. lia.
  - destruct l as [|c l]; simpl length in Hd.
    + apply cstr_nil in Hl. rewrite Hl, Z.eqb_refl. simpl. split.
      * apply cstr_nil. rewrite st8_other, st8_same by lia. done.
      * intros a Ha. rewrite !st8_other by lia. done.
    + apply cstr_cons in Hl as (Hc & Hc0 & Hl). rewrite Hc.
      destruct (Z.eqb_spec c 0); [done|]. simpl take.
      destruct (IH (st8 m s c) (s + 1) (t + 1) l) as [IH1 IH2].
      * auto with word.
      * eapply cstr_ext; [|exact Hl]. intros b Hb. rewrite st8_other by lia. done.
      * lia.
      * split.
        -- apply cstr_cons. split; [|split; [done|exact IH1]].
           rewrite IH2, st8_same by lia. rewrite <- Hc. apply u8_id, Hm.
        -- intros a Ha. rewrite IH2, st8_other by lia. done.
Qed.

(** Into a buffer of [n > 0] bytes that does not overlap its source,
    [safestrcpy] always leaves a NUL-terminated string, the longest prefix of the
    source that fits, and touches no byte outside the buffer, while [strncpy]
    fills the buffer with the source padded by NULs (unterminated when the
    source has [n] bytes or more). *)
Lemma bounded_copy_correct m s t n l :
  wf_mem m -> cstr m t l -> 0 < n -> s + n <= t \/ t + Z.of_nat (length l) < s ->
  cstr (safestrcpy m s t n) s (take (Z.to_nat (n - 1)) l) /\
  (forall i : nat, Z.of_nat i < n -> strncpy m s t n (s + Z.of_nat i) = default 0 (l !! i)) /\
  (forall a, ~ (s <= a < s + n) -> safestrcpy m s t n a = m a /\ strncpy m s t n a = m a).
Proof.
  intros Hm Hl Hn Hd. unfold safestrcpy, strncpy.
  destruct (Z.leb_spec n 0); [lia|].
  destruct (safestrcpy_loop_spec (Z.to_nat (n - 1)) m s t l Hm Hl) as [H1 H2]; [lia|].
  split; [done|split].
  - intros i Hi. rewrite (strncpy_loop_spec _ _ _ _ l) by (done || lia).
    range_cases; [|lia]. do 2 f_equal. lia.
  - intros a Ha. split; [apply H2; lia|].
    rewrite (strncpy_loop_spec _ _ _ _ l) by (done || lia). range_cases; [lia|done].
Qed.

Lemma bounded_copy_correct_witness :
  cstr (safestrcpy (mem_of 100 [97; 98; 99; 0]) 10 100 3) 10 [97; 98] /\
  strncpy (mem_of 100 [97; 98; 99; 0]) 10 100 3 12 = 99.
Proof.
  destruct (bounded_copy_correct (mem_of 100 [97; 98; 99; 0]) 10 100 3 [97; 98; 99])
    as (H1 & H2 & _).
  - intros a. unfold mem_of. case_match; [apply u8_range|done].
  - repeat (apply cstr_cons; split; [reflexivity|split; [lia|]]). apply cstr_nil. reflexivity.
  - lia.
  - left. lia.
  - split; [exact H1|exact (H2 2%nat ltac:(lia))].
Defined.

(** ** Comparing regions *)

Lemma memcmp_loop_zero n m p q :
  memcmp_loop m p q n = 0 <->
  forall i : nat, (i < n)%nat -> m (p + Z.of_nat i) = m (q + Z.of_nat i).
Proof.
  revert p q. induction n as [|n IH]; intros p q; simpl; [split; [lia|done]|].
  destruct (Z.eqb_spec (m p) (m q)) as [E|E]; simpl.
  - rewrite IH. split; intros H i Hi.
    + destruct i as [|i]; [rewrite !Z.add_0_r; done|].
      specialize (H i ltac:(lia)).
      replace (p + Z.of_nat (S i)) with (p + 1 + Z.of_nat i) by lia.
      replace (q + Z.of_nat (S i)) with (q + 1 + Z.of_nat i) by lia. done.
    + specialize (H (S i) ltac:(lia)).
      replace (p + 1 + Z.of_nat i) with (p + Z.of_nat (S i)) by lia.
      replace (q + 1 + Z.of_nat i) with (q + Z.of_nat (S i)) by lia. done.
  - split; [lia|]. intros H. specialize (H 0%nat ltac:(lia)). rewrite !Z.add_0_r in H. done.
Qed.

Lemma memcmp_zero m p q n :
  memcmp m p q n = 0 <-> forall i : nat, Z.of_nat i < n -> m (p + Z.of_nat i) = m (q + Z.of_nat i).
Proof.
  unfold memcmp. rewrite memcmp_loop_zero. split; intros H i Hi; apply H; lia.
Qed.
