(* ===== verification/Klib.v ===== *)
(** * Number and string conversions of kernel/klib.c

    [itoa] and [utoa] write into memory; [atoi] reads a C string.  The digit
    loops of [itoa], [utoa] and [intlen] divide a 32-bit number by ten and so end
    within the 32 rounds they are given; the theorems below fix their results. *)

From S2P Require Import Prelude Kstring.

Fixpoint atoi_loop (fuel : nat) (m : mem) (str i res : Z) : option Z :=
  match fuel with
  | O => None
  | S fuel =>
      let c := s8 (m (str + i)) in
      if c =? 0 then Some res
      else if (c <? 48) || (57 <? c) then Some (-1)
      else atoi_loop fuel m str (i + 1) (s32 (res * 10) +i c -i 48)
  end.
Definition atoi (fuel : nat) (m : mem) (str : Z) : option Z := atoi_loop fuel m str 0 0.

(** [while (m > 0) { length++; m /= 10; }] *)
Fixpoint count_digits (fuel : nat) (m length : Z) : Z :=
  match fuel with
  | O => length
  | S fuel => if 0 <? m then count_digits fuel (Z.quot m 10) (length + 1) else length
  end.

(** [for (int i = length; n > 0 && i > 0; i--) { buf[i - 1] = (n % 10) + '0'; n /= 10; }] *)
Fixpoint put_digits (i : nat) (m : mem) (buf n : Z) : mem :=
  match i with
  | O => m
  | S i => if 0 <? n
           then put_digits i (st8 m (buf + Z.of_nat i) (Z.rem n 10 + 48)) buf (Z.quot n 10)
           else m
  end.

Definition itoa (m : mem) (buf n : Z) : Z * mem :=
  let length := count_digits 32 n 0 in
  let '(m, length) := if n =? 0 then (st8 m buf 48, length + 1) else (m, length) in
  let m := put_digits (Z.to_nat length) m buf n in
  (length, st8 m (buf + length) 0).

Definition utoa (m : mem) (buf n : Z) : Z * mem :=
  let length := count_digits 32 n 0 in
  let '(m, length) := if n =? 0 then (st8 m buf 48, length + 1) else (m, length) in
  let m := put_digits (Z.to_nat length) m buf n in
  (length, st8 m (buf + length) 0).

Fixpoint intlen_loop (fuel : nat) (n len : Z) : Z :=
  match fuel with
  | O => len
  | S fuel => if negb (Z.quot n 10 =? 0) then intlen_loop fuel (Z.quot n 10) (len + 1) else len
  end.
Definition intlen (n : Z) : Z := intlen_loop 32 n 1.

(** ** Decimal notation *)

Definition is_digit (c : Z) : Prop := 48 <= c <= 57.
Definition dec_from (acc : Z) (l : list Z) : Z := foldl (fun v c => v * 10 + (c - 48)) acc l.

(** [l] is the decimal notation of [n], with no leading zero. *)
Definition decimal (n : Z) (l : list Z) : Prop :=
  Forall is_digit l /\ dec_from 0 l = n /\
  if n =? 0 then length l = 1%nat else 10 ^ (Z.of_nat (length l) - 1) <= n.

Lemma dec_from_snoc acc l c : dec_from acc (l ++ [c]) = dec_from acc l * 10 + (c - 48).
Proof. unfold dec_from. rewrite foldl_app. done. Qed.

Lemma dec_from_ge acc l : 0 <= acc -> Forall is_digit l -> acc <= dec_from acc l.
Proof.
  intros Ha Hl. revert acc Ha. induction Hl as [|c l Hc Hl IH]; intros acc Ha; [done|].
  unfold is_digit in Hc. change (acc <= dec_from (acc * 10 + (c - 48)) l).
  etrans; [|apply IH; lia]. lia.
Qed.

Lemma quot10_pow n k : 10 ^ (k + 1) <= n < 10 ^ (k + 2) -> 0 <= k -> 10 ^ k <= n / 10 < 10 ^ (k + 1).
Proof.
  intros [H1 H2] Hk. rewrite !Z.pow_add_r in * by lia.
  change (10 ^ 1) with 10 in *. change (10 ^ 2) with 100 in *. Z.div_mod_to_equations. lia.
Qed.

Lemma count_digits_spec fuel n len :
  0 < n < 2 ^ Z.of_nat fuel ->
  exists k, 0 <= k /\ count_digits fuel n len = len + k + 1 /\ 10 ^ k <= n < 10 ^ (k + 1).
Proof.
  revert n len. induction fuel as [|fuel IH]; intros n len Hn; [simpl in Hn; lia|].
  simpl count_digits. destruct (Z.ltb_spec 0 n); [|lia].
  rewrite Z.quot_div_nonneg by lia.
  rewrite Nat2Z.inj_succ, Z.pow_succ_r in Hn by lia.
  destruct (Z.eq_dec (n / 10) 0) as [E|E].
  - exists 0. rewrite E. split; [lia|]. split.
    + destruct fuel; simpl; lia.
    + change (10 ^ (0 + 1)) with 10. change (10 ^ 0) with 1. Z.div_mod_to_equations. lia.
  - destruct (IH (n / 10) (len + 1)) as (k & Hk & -> & H1 & H2).
    { Z.div_mod_to_equations. lia. }
    exists (k + 1). split; [lia|]. split; [lia|].
    rewrite !Z.pow_add_r in * by lia. change (10 ^ 1) with 10 in *. Z.div_mod_to_equations. lia.
Qed.

Lemma count_digits_neg fuel n len : n <= 0 -> count_digits fuel n len = len.
Proof. intros. destruct fuel; [done|]. cbn [count_digits]. destruct (Z.ltb_spec 0 n); [lia|done]. Qed.

Lemma put_digits_S i m buf n :
  put_digits (S i) m buf n =
  if 0 <? n then put_digits i (st8 m (buf + Z.of_nat i) (Z.rem n 10 + 48)) buf (Z.quot n 10) else m.
Proof. done. Qed.

Lemma put_digits_spec i m buf n :
  0 < n -> 10 ^ Z.of_nat i <= n < 10 ^ (Z.of_nat i + 1) ->
  (exists l, length l = S i /\ Forall is_digit l /\ dec_from 0 l = n /\
     bytes_at (put_digits (S i) m buf n) buf l) /\
  forall a, ~ (buf <= a <= buf + Z.of_nat i) -> put_digits (S i) m buf n a = m a.
Proof.
  revert m n. induction i as [|i IH]; intros m n Hn Hi.
  - change (10 ^ (Z.of_nat 0 + 1)) with 10 in Hi. simpl. destruct (Z.ltb_spec 0 n); [|lia].
    rewrite Z.rem_small, Z.add_0_r by lia. split.
    + exists [n + 48]. split; [done|]. split; [repeat constructor; lia|].
      split; [unfold dec_from; simpl; lia|].
      apply bytes_at_cons. rewrite st8_same, u8_id by (unfold is_byte; lia).
      auto using bytes_at_nil.
    + intros a Ha. apply st8_other. lia.
  - replace (Z.of_nat (S i)) with (Z.of_nat i + 1) in * by lia.
    rewrite <- Z.add_assoc in Hi. apply quot10_pow in Hi as Hq; [|lia].
    pose proof (Z.pow_pos_nonneg 10 (Z.of_nat i)).
    rewrite (put_digits_S (S i)). destruct (Z.ltb_spec 0 n); [|lia].
    rewrite Z.quot_div_nonneg, Z.rem_mod_nonneg by lia.
    pose proof (Z.mod_pos_bound n 10).
    destruct (IH (st8 m (buf + Z.of_nat (S i)) (n mod 10 + 48)) (n / 10)) as [(l & Hl & Hd & Hv & Hb) Hf];
      [lia|done|].
    split.
    + exists (l ++ [n mod 10 + 48]). split; [rewrite length_app; simpl; lia|].
      split; [apply Forall_app; split; [done|repeat constructor; lia]|].
      split; [rewrite dec_from_snoc, Hv; Z.div_mod_to_equations; lia|].
      intros j c Hj. apply lookup_app_Some in Hj as [Hj|[Hj1 Hj2]]; [by apply Hb|].
      destruct (j - length l)%nat eqn:Ej; [|done]. injection Hj2 as <-.
      rewrite Hf by lia. replace (Z.of_nat j) with (Z.of_nat (S i)) by lia.
      rewrite st8_same, u8_id by (unfold is_byte; lia). done.
    + intros a Ha. rewrite Hf, st8_other by lia. done.
Qed.

Lemma itoa_utoa m buf n : itoa m buf n = utoa m buf n.
Proof. done. Qed.

Lemma utoa_spec m buf n :
  is_u32 n ->
  exists l m', utoa m buf n = (Z.of_nat (length l), m') /\ decimal n l /\ cstr m' buf l /\
    forall a, ~ (buf <= a <= buf + Z.of_nat (length l)) -> m' a = m a.
Proof.
  unfold is_u32. intros Hn. destruct (Z.eqb_spec n 0) as [->|Hn0].
  - exists [48], (st8 (st8 m buf 48) (buf + 1) 0). split; [reflexivity|]. split; [|split].
    + repeat split; repeat constructor; unfold is_digit; lia.
    + apply cstr_cons. rewrite st8_other, st8_same by lia.
      split; [done|]. split; [lia|]. apply cstr_nil, st8_same.
    + intros a Ha. simpl in Ha. rewrite !st8_other by lia. done.
  - unfold utoa. destruct (Z.eqb_spec n 0); [done|].
    destruct (count_digits_spec 32 n 0) as (k & Hk & -> & Hb); [lia|].
    replace (0 + k + 1) with (Z.of_nat (S (Z.to_nat k))) by lia. rewrite Nat2Z.id.
    destruct (put_digits_spec (Z.to_nat k) m buf n) as [(l & Hl & Hd & Hv & Hm) Hf];
      [lia|rewrite Z2Nat.id by lia; done|].
    exists l. eexists. rewrite Hl. split; [reflexivity|]. split; [|split].
    + split; [done|]. split; [done|]. destruct (Z.eqb_spec n 0); [done|].
      rewrite Hl. replace (Z.of_nat (S (Z.to_nat k)) - 1) with k by lia. lia.
    + split; [|eapply Forall_impl; [exact Hd|unfold is_digit; simpl; lia]].
      intros j c Hj. apply lookup_app_Some in Hj as [Hj|[Hj1 Hj2]].
      * pose proof (lookup_lt_Some _ _ _ Hj). rewrite st8_other by lia. by apply Hm.
      * destruct (j - length l)%nat eqn:Ej; [|done]. injection Hj2 as <-.
        replace (Z.of_nat j) with (Z.of_nat (S (Z.to_nat k))) by lia. apply st8_same.
    + intros a Ha. rewrite st8_other, Hf by lia. done.
Qed.

Lemma atoi_loop_spec l fuel m p i acc :
  Forall is_digit l -> cstr m (p + i) l -> (length l < fuel)%nat ->
  0 <= acc -> dec_from acc l < 2 ^ 31 ->
  atoi_loop fuel m p i acc = Some (dec_from acc l).
Proof.
  intros Hl. revert fuel i acc. induction Hl as [|c l Hc Hl IH]; intros [|fuel] i acc Hs Hf Ha Hv;
    simpl length in Hf; try lia; simpl atoi_loop.
  - apply cstr_nil in Hs. rewrite Hs. done.
  - apply cstr_cons in Hs as (Hm & _ & Hs). rewrite Hm. unfold is_digit in Hc.
    change (dec_from acc (c :: l)) with (dec_from (acc * 10 + (c - 48)) l) in *.
    pose proof (dec_from_ge (acc * 10 + (c - 48)) l ltac:(lia) Hl) as Hge.
    assert (s8 c = c) as -> by (unfold s8; rewrite Z.mod_small; lia).
    destruct (Z.eqb_spec c 0), (Z.ltb_spec c 48), (Z.ltb_spec 57 c); try lia. simpl orb.
    rewrite s32_add_l. change (s32 (acc * 10 + c) - 48) with (s32 (acc * 10 + c) + - (48)).
    rewrite s32_add_l. replace (acc * 10 + c + - (48)) with (acc * 10 + (c - 48)) by lia.
    rewrite s32_id by word.
    apply IH; try lia. replace (p + (i + 1)) with (p + i + 1) by lia. done.
Qed.

Lemma intlen_loop_count fuel n len :
  0 < n < 2 ^ Z.of_nat fuel -> intlen_loop fuel n len = count_digits fuel n (len - 1).
Proof.
  revert n len. induction fuel as [|fuel IH]; intros n len Hn; [simpl in Hn; lia|].
  simpl. destruct (Z.ltb_spec 0 n); [|lia]. rewrite Z.quot_div_nonneg by lia.
  rewrite Nat2Z.inj_succ, Z.pow_succ_r in Hn by lia.
  destruct (Z.eqb_spec (n / 10) 0) as [->|E]; simpl.
  - destruct fuel; simpl; lia.
  - rewrite IH by (Z.div_mod_to_equations; lia). f_equal. lia.
Qed.

Lemma itoa_length m buf n : 0 <= n < 2 ^ 31 -> (itoa m buf n).1 = intlen n.
Proof.
  intros Hn. unfold itoa, intlen. destruct (Z.eqb_spec n 0) as [->|]; [done|].
  rewrite intlen_loop_count by lia. done.
Qed.

Lemma intlen_le n : 0 <= n < 2 ^ 31 -> intlen n <= 10.
Proof.
  intros Hn. destruct (Z.eq_dec n 0) as [->|]; [done|]. unfold intlen.
  rewrite intlen_loop_count by lia.
  destruct (count_digits_spec 32 n (1 - 1)) as (k & Hk & -> & Hb); [lia|].
  destruct (Z.le_gt_cases 10 k) as [Hge|]; [|lia].
  apply (Z.pow_le_mono_r 10) in Hge; lia.
Qed.

(** For every non-negative [int], [itoa] writes its decimal notation
    without leading zeros as a C string, returns the number of digits (which is
    also what [intlen] returns), touches nothing else, and [atoi] reads the
    number back. *)
Lemma itoa_atoi_roundtrip m buf n :
  0 <= n < 2 ^ 31 ->
  exists l m', itoa m buf n = (intlen n, m') /\ decimal n l /\ cstr m' buf l /\
    intlen n = Z.of_nat (length l) /\ atoi 11 m' buf = Some n /\
    forall a, ~ (buf <= a <= buf + intlen n) -> m' a = m a.
Proof.
  intros Hn. pose proof (itoa_length m buf n Hn) as Hlen. pose proof (intlen_le n Hn).
  destruct (utoa_spec m buf n) as (l & m' & E & Hd & Hs & Hf); [word|].
  rewrite <- itoa_utoa in E. rewrite E in *. simpl in Hlen. subst.
  exists l, m'. rewrite <- Hlen in *. split; [done|]. split; [done|]. split; [done|].
  split; [done|]. split; [|done]. destruct Hd as (Hd & Hv & _).
  rewrite <- Hv. apply atoi_loop_spec; rewrite ?Z.add_0_r; try done; lia.
Qed.

Lemma itoa_atoi_roundtrip_witness :
  exists l m', itoa (fun _ => 0) 0 2147483647 = (10, m') /\ decimal 2147483647 l /\
    atoi 11 m' 0 = Some 2147483647.
Proof.
  destruct (itoa_atoi_roundtrip (fun _ => 0) 0 2147483647) as (l & m' & H1 & H2 & _ & _ & H5 & _);
    [lia|]. exists l, m'. split; [exact H1|]. split; [exact H2|exact H5].
Defined.

(** [itoa] of a negative number writes the empty string and returns 0,
    so its result does not represent the number. *)
Lemma itoa_negative_empty m buf n :
  - 2 ^ 31 <= n < 0 -> itoa m buf n = (0, st8 m (buf + 0) 0).
Proof.
  intros Hn. unfold itoa. rewrite count_digits_neg by lia.
  destruct (Z.eqb_spec n 0); [lia|]. done.
Qed.

Lemma itoa_negative_empty_witness : itoa (fun _ => 7) 4 (-5) = (0, st8 (fun _ => 7) (4 + 0) 0).
Proof. apply itoa_negative_empty. lia. Defined.
