(* ===== verification/Kalloc.v ===== *)
(** * The physical page allocator, kernel/kalloc.c

    The free list is threaded through the free pages themselves: the first word
    of a free page is the address of the next one.  The state is the [kmem]
    record and the byte-addressed memory.  [end], the first address after the
    kernel image, comes from the linker script and is a parameter.  The spin lock
    [kmem.lock] brackets each operation, which is therefore one atomic step. *)

From S2P Require Import Prelude Kstring.

Definition PGSIZE : Z := 4096.
Definition KERNBASE : Z := 0x80000000.
Definition PHYSTOP : Z := 0xE000000.
Definition V2P (a : Z) : Z := a -u KERNBASE.
Definition P2V (a : Z) : Z := a +u KERNBASE.
Definition PGROUNDUP (sz : Z) : Z := Z.land (u32 (sz + PGSIZE - 1)) (Z.lnot (PGSIZE - 1)).
Definition PGROUNDDOWN (a : Z) : Z := Z.land a (Z.lnot (PGSIZE - 1)).

Record kmem := Kmem {
  use_lock : bool;
  page_cnt : Z;       (* int *)
  page_protect : Z;   (* int *)
  freelist : Z        (* struct run *, 0 for NULL *)
}.

(** What the allocator works on: [kmem] and the memory the pages live in. *)
Record kheap := Kheap { hp : kmem; hm : mem }.

Section kalloc.
Context (end_ : Z).

Definition kfree (v : Z) : M kheap unit := fun s =>
  if negb (v mod PGSIZE =? 0) || (v <? end_) || (PHYSTOP <=? V2P v) then inl (Panic "kfree")
  else
    let m := memset (hm s) v 1 PGSIZE in
    let m := st32 m v (freelist (hp s)) in
    inr (tt, Kheap (Kmem (use_lock (hp s)) (page_cnt (hp s) +i 1) (page_protect (hp s)) v) m).

(** The loop of [freerange] takes a page per round; [fuel] bounds the number of pages. *)
Fixpoint freerange_loop (fuel : nat) (p vend : Z) : M kheap unit :=
  match fuel with
  | O => mret tt
  | S fuel => if p + PGSIZE <=? vend
              then kfree p ;; freerange_loop fuel (p + PGSIZE) vend
              else mret tt
  end.
Definition freerange (vstart vend : Z) : M kheap unit :=
  freerange_loop (Z.to_nat (vend / PGSIZE)) (PGROUNDUP vstart) vend.

Definition kinit1 (vstart vend : Z) : M kheap unit :=
  modS (fun s => Kheap (Kmem false (page_cnt (hp s)) (page_protect (hp s)) (freelist (hp s))) (hm s)) ;;
  freerange vstart vend.

Definition kinit2 (vstart vend : Z) : M kheap unit :=
  freerange vstart vend ;;
  modS (fun s => Kheap (Kmem true (page_cnt (hp s)) 0 (freelist (hp s))) (hm s)).

Definition kalloc : M kheap Z := fun s =>
  let k := hp s in
  if page_cnt k <=? page_protect k then inr (0, s)
  else
    let r := freelist k in
    if negb (r =? 0)
    then inr (r, Kheap (Kmem (use_lock k) (page_cnt k -i 1) (page_protect k) (ld32 (hm s) r)) (hm s))
    else inr (r, s).

Definition decrese_protect_counter (num : Z) : M kheap Z := fun s =>
  let k := hp s in
  inr (0, Kheap (Kmem (use_lock k) (page_cnt k) (page_protect k -i num) (freelist k)) (hm s)).

Definition increse_protect_counter (num : Z) : M kheap Z := fun s =>
  if num <? 0 then decrese_protect_counter (s32 (num * -1)) s
  else
    let k := hp s in
    if num +i page_protect k <=? page_cnt k
    then inr (0, Kheap (Kmem (use_lock k) (page_cnt k) (page_protect k +i num) (freelist k)) (hm s))
    else inr (1, s).

Definition get_total_memory : M kheap Z := fun s => inr (u32 (page_cnt (hp s)), s).

(** [kmemtest] walks the list: [list_cnt] pages seen, [err_cnt] of them not filled with 1. *)
Definition page_err (m : mem) (r : Z) : Z :=
  if forallb (fun i => s8 (m (r + i)) =? 1) (seqZ 4 (PGSIZE - 4)) then 0 else 1.
Fixpoint kmemtest_loop (fuel : nat) (m : mem) (r list_cnt err_cnt : Z) : option (Z * Z) :=
  match fuel with
  | O => None
  | S fuel => if r =? 0 then Some (list_cnt, err_cnt)
              else kmemtest_loop fuel m (ld32 m r) (list_cnt + 1) (err_cnt + page_err m r)
  end.
Definition kmemtest (fuel : nat) (s : kheap) : option Z :=
  match kmemtest_loop fuel (hm s) (freelist (hp s)) 0 0 with
  | None => None
  | Some (list_cnt, err_cnt) =>
      Some (if (page_cnt (hp s) =? list_cnt) && (err_cnt =? 0) then 0 else -1)
  end.

End kalloc.

(** ** The free list and its invariant *)

Section kalloc_inv.
Context (end_ : Z).

Definition valid_page (v : Z) : Prop :=
  v mod PGSIZE = 0 /\ end_ <= v /\ KERNBASE <= v < KERNBASE + PHYSTOP.

(** The bytes of a free page after its link word still hold the junk [kfree] wrote. *)
Definition filled (m : mem) (v : Z) : Prop := forall a, v + 4 <= a < v + PGSIZE -> m a = 1.

Inductive free_chain (m : mem) : Z -> list Z -> Prop :=
| chain_nil : free_chain m 0 []
| chain_cons v l : valid_page v -> filled m v -> free_chain m (ld32 m v) l ->
    free_chain m v (v :: l).

Definition kinv (s : kheap) (l : list Z) : Prop :=
  free_chain (hm s) (freelist (hp s)) l /\ NoDup l /\
  page_cnt (hp s) = Z.of_nat (length l) /\ wf_mem (hm s).

Lemma kfree_guard v : is_u32 v ->
  negb (v mod PGSIZE =? 0) || (v <? end_) || (PHYSTOP <=? V2P v) = false <-> valid_page v.
Proof.
  intros Hv. unfold valid_page, V2P, is_u32, KERNBASE, PHYSTOP in *. set (b := v mod PGSIZE).
  rewrite !orb_false_iff, negb_false_iff, Z.eqb_eq, Z.ltb_ge, Z.leb_gt.
  unfold u32. destruct (Z.le_gt_cases 0x80000000 v).
  - rewrite Z.mod_small by lia. intuition lia.
  - replace (v - 0x80000000) with ((v + 0x80000000) + (-1) * 2 ^ 32) by lia.
    rewrite Z.mod_add, Z.mod_small by lia. intuition lia.
Qed.

Lemma chain_head m v l : free_chain m v l ->
  match l with [] => v = 0 | w :: _ => w = v /\ v <> 0 end.
Proof. intros []; [done|]. unfold valid_page, KERNBASE in *. split; [done|lia]. Qed.

Lemma chain_valid m v l : free_chain m v l -> Forall valid_page l.
Proof. induction 1; constructor; done. Qed.

Lemma pages_apart v w : valid_page v -> valid_page w -> v <> w -> v + PGSIZE <= w \/ w + PGSIZE <= v.
Proof.
  unfold valid_page, PGSIZE. intros (Hv & _) (Hw & _) Hne. Z.div_mod_to_equations. lia.
Qed.

(** A free list survives changes of memory outside its pages. *)
Lemma chain_ext m m' v l :
  (forall w a, w ∈ l -> w <= a < w + PGSIZE -> m a = m' a) ->
  free_chain m v l -> free_chain m' v l.
Proof.
  intros Hext Hc. induction Hc as [|v l Hv Hf Hc IH]; constructor; try done.
  - intros a Ha. rewrite <- (Hext v) by (set_solver || lia). by apply Hf.
  - rewrite <- (ld32_ext m m') by (intros; apply (Hext v); [set_solver|unfold PGSIZE; lia]).
    apply IH. intros w a Hw. apply Hext. set_solver.
Qed.

Lemma valid_pages_bound l : NoDup l -> Forall valid_page l -> Z.of_nat (length l) <= PHYSTOP / PGSIZE.
Proof.
  intros Hnd Hl.
  assert (NoDup ((fun v => (v - KERNBASE) / PGSIZE) <$> l)) as Hnd'.
  { apply NoDup_fmap_2_strong; [|done]. intros v w Hv Hw E.
    rewrite Forall_forall in Hl. apply Hl in Hv as (Hv & _), Hw as (Hw & _).
    unfold PGSIZE, KERNBASE in *. Z.div_mod_to_equations. lia. }
  assert (((fun v => (v - KERNBASE) / PGSIZE) <$> l) ⊆ seqZ 0 (PHYSTOP / PGSIZE)) as Hsub.
  { intros p Hp. apply list_elem_of_fmap in Hp as (v & -> & Hv). rewrite Forall_forall in Hl.
    apply Hl in Hv as (_ & _ & Hv). apply elem_of_seqZ.
    unfold PGSIZE, KERNBASE, PHYSTOP in *. Z.div_mod_to_equations. lia. }
  pose proof (submseteq_length _ _ (NoDup_submseteq _ _ Hnd' Hsub)) as Hlen.
  rewrite length_fmap, length_seqZ in Hlen. change (PHYSTOP / PGSIZE) with 57344 in *. lia.
Qed.

(** ** Behaviour of the operations *)

Lemma kfree_spec s l v :
  kinv s l -> valid_page v -> v ∉ l -> exists m',
  kfree end_ v s = inr (tt, Kheap (Kmem (use_lock (hp s)) (page_cnt (hp s) + 1)
                               (page_protect (hp s)) v) m') /\
  (forall a, ~ (v <= a < v + PGSIZE) -> m' a = hm s a) /\
  kinv (Kheap (Kmem (use_lock (hp s)) (page_cnt (hp s) + 1) (page_protect (hp s)) v) m') (v :: l).
Proof.
  intros (Hc & Hnd & Hcnt & Hwf) Hv Hl. unfold kfree.
  assert (is_u32 v) as Hu by (destruct Hv as (_ & _ & Hv); unfold KERNBASE, PHYSTOP in Hv; word).
  apply (kfree_guard v Hu) in Hv as Hg. rewrite Hg.
  pose proof (valid_pages_bound l Hnd (chain_valid _ _ _ Hc)) as Hb.
  change (PHYSTOP / PGSIZE) with 57344 in Hb.
  rewrite s32_id by (rewrite Hcnt; word).
  set (m' := st32 _ _ _). exists m'. split; [done|].
  assert (forall a, ~ (v <= a < v + PGSIZE) -> m' a = hm s a) as Hout.
  { intros a Ha. unfold m'. rewrite st32_other, memset_spec by (unfold PGSIZE in *; lia).
    range_cases; [lia|done]. }
  split; [exact Hout|]. split; [|split; [by constructor|split; [simpl; lia|]]]; simpl.
  - constructor; [done| |].
    + intros a Ha. unfold m'. rewrite st32_other, memset_spec by (unfold PGSIZE in *; lia).
      range_cases; [done|unfold PGSIZE in *; lia].
    + unfold m'. rewrite ld32_st32.
      * eapply chain_ext; [|exact Hc]. intros w a Hw Ha. symmetry. apply Hout.
        pose proof (chain_valid _ _ _ Hc) as Hall. rewrite Forall_forall in Hall.
        destruct (pages_apart v w Hv (Hall w Hw)); [set_solver|lia|lia].
      * apply chain_head in Hc as Hh. destruct l as [|w l]; [rewrite Hh; word|].
        destruct Hh as [-> _]. inversion Hc as [|? ? (_ & _ & Hr)]; subst.
        unfold KERNBASE, PHYSTOP in Hr. word.
  - unfold m'. apply st32_wf, memset_wf; [done|exact Hwf].
Qed.

Lemma kalloc_spec s l :
  kinv s l ->
  ((page_cnt (hp s) <= page_protect (hp s) \/ l = []) /\ kalloc s = inr (0, s)) \/
  exists v l', l = v :: l' /\ page_protect (hp s) < page_cnt (hp s) /\
    kalloc s = inr (v, Kheap (Kmem (use_lock (hp s)) (page_cnt (hp s) - 1)
                               (page_protect (hp s)) (ld32 (hm s) v)) (hm s)) /\
    kinv (Kheap (Kmem (use_lock (hp s)) (page_cnt (hp s) - 1)
                  (page_protect (hp s)) (ld32 (hm s) v)) (hm s)) l'.
Proof.
  intros Hi. pose proof Hi as (Hc & Hnd & Hcnt & Hwf). unfold kalloc. cbv zeta.
  destruct (Z.leb_spec (page_cnt (hp s)) (page_protect (hp s))); [left; split; [by left|done]|].
  inversion Hc as [E|v l' Hv Hf Hc' E]; subst.
  - left. split; [by right|done].
  - right. exists (freelist (hp s)), l'. apply NoDup_cons in Hnd as [_ Hnd].
    pose proof (valid_pages_bound l' Hnd (chain_valid _ _ _ Hc')) as Hb.
    change (PHYSTOP / PGSIZE) with 57344 in Hb. simpl length in Hcnt.
    apply chain_head in Hc as [_ Hne]. destruct (Z.eqb_spec (freelist (hp s)) 0); [done|].
    simpl. rewrite s32_id by word. split; [done|]. split; [lia|]. split; [done|].
    split; [done|]. split; [done|]. split; [simpl; lia|done].
Qed.

(** ** The allocator and its clients

    A run interleaves the operations of the allocator with its clients' writes
    to the pages they hold; [held] lists the pages handed out. *)
Inductive kstep : kheap * list Z -> kheap * list Z -> Prop :=
| ks_alloc s s' v held : kalloc s = inr (v, s') -> v <> 0 -> kstep (s, held) (s', v :: held)
| ks_nomem s s' held : kalloc s = inr (0, s') -> kstep (s, held) (s', held)
| ks_free s s' v h1 h2 : kfree end_ v s = inr (tt, s') -> kstep (s, h1 ++ v :: h2) (s', h1 ++ h2)
| ks_write k m m' held : wf_mem m' ->
    (forall a, (forall v, v ∈ held -> ~ (v <= a < v + PGSIZE)) -> m' a = m a) ->
    kstep (Kheap k m, held) (Kheap k m', held)
| ks_protect s s' num r held : 0 <= num <= 2 ^ 30 -> increse_protect_counter num s = inr (r, s') ->
    kstep (s, held) (s', held)
| ks_unprotect s s' num r held : 0 <= num <= page_protect (hp s) ->
    decrese_protect_counter num s = inr (r, s') -> kstep (s, held) (s', held).

(** Free and held pages together are distinct pages of the machine, and the
    pages reserved for cgroups are covered by free ones. *)
Definition kinv_all (total : nat) (x : kheap * list Z) : Prop :=
  exists l, kinv x.1 l /\ NoDup (l ++ x.2) /\ Forall valid_page x.2 /\
    0 <= page_protect (hp x.1) <= page_cnt (hp x.1) /\ (length l + length x.2 = total)%nat.

Lemma kinv_all_alloc total s s' v held :
  kinv_all total (s, held) -> kalloc s = inr (v, s') -> v <> 0 -> kinv_all total (s', v :: held).
Proof.
  intros (l & Hi & Hnd & Hv & Hp & Ht) E Hne. simpl in *.
  destruct (kalloc_spec s l Hi) as [[_ E']|(w & l' & -> & Hlt & E' & Hi')];
    rewrite E' in E; injection E as <- <-; [done|].
  exists l'. split; [exact Hi'|]. simpl.
  pose proof Hi as (Hc & _). apply chain_valid, Forall_cons in Hc as [Hw _].
  split; [|split; [by constructor|split; [lia|simpl in Ht; lia]]].
  rewrite <- Permutation_middle. exact Hnd.
Qed.

Lemma kinv_all_free total s s' v h1 h2 :
  kinv_all total (s, h1 ++ v :: h2) -> kfree end_ v s = inr (tt, s') -> kinv_all total (s', h1 ++ h2).
Proof.
  intros (l & Hi & Hnd & Hv & Hp & Ht) E. simpl in *.
  rewrite <- Permutation_middle in Hnd. rewrite <- Permutation_middle in Hnd.
  apply NoDup_cons in Hnd as [Hin Hnd]. apply Forall_app in Hv as [Hv1 Hv2].
  apply Forall_cons in Hv2 as [Hvv Hv2].
  destruct (kfree_spec s l v Hi Hvv) as (m' & E' & _ & Hi'); [set_solver|].
  rewrite E' in E. injection E as <-. exists (v :: l). split; [exact Hi'|]. simpl.
  split; [constructor; [exact Hin|exact Hnd]|]. split; [by apply Forall_app|]. split; [lia|].
  rewrite length_app in *. simpl in *. lia.
Qed.

Lemma kinv_all_write total k m m' held :
  wf_mem m' -> (forall a, (forall v, v ∈ held -> ~ (v <= a < v + PGSIZE)) -> m' a = m a) ->
  kinv_all total (Kheap k m, held) -> kinv_all total (Kheap k m', held).
Proof.
  intros Hwf Hm (l & (Hc & Hndl & Hcnt & _) & Hnd & Hv & Hp & Ht). exists l. simpl in *.
  split; [|done]. split; [|done]. simpl. eapply chain_ext; [|exact Hc].
  intros w a Hw Ha. symmetry. apply Hm. intros v Hvh Hva.
  apply chain_valid in Hc. rewrite Forall_forall in Hc, Hv.
  apply NoDup_app in Hnd as (_ & Hdisj & _).
  destruct (pages_apart v w (Hv v Hvh) (Hc w Hw)); [|lia|lia]. intros ->. by apply (Hdisj w).
Qed.

Lemma kinv_bound s l : kinv s l -> 0 <= page_cnt (hp s) <= 57344.
Proof.
  intros (Hc & Hnd & -> & _). pose proof (valid_pages_bound l Hnd (chain_valid _ _ _ Hc)) as Hb.
  change (PHYSTOP / PGSIZE) with 57344 in Hb. lia.
Qed.

Lemma kinv_all_step total x y : kstep x y -> kinv_all total x -> kinv_all total y.
Proof.
  intros Hs Hx. destruct Hs as [s s' v held E Hne|s s' held E|s s' v h1 h2 E|k m m' held Hwf Hm
    |s s' num r held Hn E|s s' num r held Hn E].
  - by eapply kinv_all_alloc.
  - pose proof Hx as (l & Hi & _). destruct (kalloc_spec s l Hi) as [[_ E']|(w & l' & -> & Hlt & E' & Hi')];
      rewrite E' in E; injection E; intros; subst; [done|].
    pose proof Hi as (Hc & _). apply chain_head in Hc as [E1 E2]. congruence.
  - by eapply kinv_all_free.
  - by eapply kinv_all_write.
  - destruct Hx as (l & Hi & Hnd & Hv & Hp & Ht). pose proof (kinv_bound s l Hi). simpl in *.
    unfold increse_protect_counter in E. destruct (Z.ltb_spec num 0); [lia|].
    cbv zeta in E. rewrite !s32_id in E by word.
    destruct (Z.leb_spec (num + page_protect (hp s)) (page_cnt (hp s))); injection E as <- <-;
      exists l; [|done]. simpl. split; [exact Hi|]. split; [done|]. split; [done|]. split; [lia|done].
  - destruct Hx as (l & Hi & Hnd & Hv & Hp & Ht). pose proof (kinv_bound s l Hi). simpl in *.
    unfold decrese_protect_counter in E. cbv zeta in E. rewrite s32_id in E by word.
    injection E as <- <-. exists l. simpl. split; [exact Hi|].
    split; [done|]. split; [done|]. split; [lia|done].
Qed.

Lemma kinv_all_reach total x y : rtc kstep x y -> kinv_all total x -> kinv_all total y.
Proof. induction 1; eauto using kinv_all_step. Qed.

Lemma page_err_filled m v : filled m v -> page_err m v = 0.
Proof.
  intros Hf. unfold page_err. rewrite (proj2 (forallb_forall _ _)); [done|].
  intros i Hi. apply list_elem_of_In, elem_of_seqZ in Hi. rewrite Hf by (unfold PGSIZE in *; lia).
  done.
Qed.

Lemma kmemtest_loop_spec m v l c :
  free_chain m v l ->
  kmemtest_loop (S (length l)) m v c 0 = Some (c + Z.of_nat (length l), 0).
Proof.
  intros Hc. revert c. induction Hc as [|v l Hv Hf Hc IH]; intros c.
  - simpl. rewrite Z.add_0_r. done.
  - cbn [kmemtest_loop length]. destruct (Z.eqb_spec v 0) as [->|].
    + destruct Hv as (_ & _ & Hv). unfold KERNBASE in Hv. lia.
    + rewrite page_err_filled by done. change (0 + 0) with 0.
      change (S (length l)) with (S (length l)) in IH. etrans; [apply IH|]. do 2 f_equal. lia.
Qed.

Lemma kmemtest_spec s l : kinv s l -> kmemtest (S (length l)) s = Some 0.
Proof.
  intros (Hc & _ & Hcnt & _). unfold kmemtest. rewrite (kmemtest_loop_spec _ _ l) by done.
  rewrite Hcnt, Z.add_0_l, Z.eqb_refl. done.
Qed.

(** ** Initialisation *)

Lemma PGROUNDUP_spec z : 0 <= z < 2 ^ 32 - PGSIZE ->
  PGROUNDUP z mod PGSIZE = 0 /\ z <= PGROUNDUP z < z + PGSIZE.
Proof.
  intros Hz. unfold PGROUNDUP. rewrite u32_id by (unfold PGSIZE in *; word).
  change (PGSIZE - 1) with (Z.ones 12). rewrite <- Z.ldiff_land, Z.ldiff_ones_r by lia.
  rewrite Z.shiftl_mul_pow2, Z.shiftr_div_pow2 by lia. change (2 ^ 12) with PGSIZE.
  rewrite Z.mod_mul by (unfold PGSIZE; lia). unfold PGSIZE in *.
  Z.div_mod_to_equations. lia.
Qed.

(** The pages [freerange] gives back, in the order it does. *)
Definition pages_from (p : Z) (n : nat) : list Z := (fun i => p + PGSIZE * Z.of_nat i) <$> seq 0 n.

Lemma pages_from_S p n : pages_from p (S n) = p :: pages_from (p + PGSIZE) n.
Proof.
  unfold pages_from. simpl. f_equal; [lia|]. rewrite <- fmap_S_seq, <- list_fmap_compose.
  apply list_fmap_ext. intros i x _. simpl. lia.
Qed.

Lemma elem_of_pages_from p n v : v ∈ pages_from p n <->
  exists i : nat, (i < n)%nat /\ v = p + PGSIZE * Z.of_nat i.
Proof.
  unfold pages_from. rewrite list_elem_of_fmap. split.
  - intros (i & -> & Hi). apply elem_of_seq in Hi. exists i. split; [lia|done].
  - intros (i & Hi & ->). exists i. split; [done|]. apply elem_of_seq. lia.
Qed.

Lemma freerange_loop_spec fuel p vend s l :
  kinv s l -> p mod PGSIZE = 0 -> end_ <= p -> KERNBASE <= p -> vend <= KERNBASE + PHYSTOP ->
  (Z.to_nat ((vend - p) / PGSIZE) <= fuel)%nat ->
  (forall v, v ∈ l -> v < p \/ vend <= v) ->
  exists s', freerange_loop end_ fuel p vend s = inr (tt, s') /\
    page_protect (hp s') = page_protect (hp s) /\
    kinv s' (reverse (pages_from p (Z.to_nat ((vend - p) / PGSIZE))) ++ l).
Proof.
  revert p s l. induction fuel as [|fuel IH]; intros p s l Hi Hp He Hk Hv Hf Hl.
  - replace (Z.to_nat _) with 0%nat by lia. exists s. done.
  - cbn [freerange_loop]. destruct (Z.leb_spec (p + PGSIZE) vend) as [Hle|Hgt].
    + destruct (kfree_spec s l p Hi) as (m' & E & Hm & Hi').
      { split; [done|]. unfold PGSIZE in *. lia. }
      { intros Hin. destruct (Hl p Hin); unfold PGSIZE in *; lia. }
      unfold mbind, M_bind. rewrite E.
      assert (Z.to_nat ((vend - p) / PGSIZE) = S (Z.to_nat ((vend - (p + PGSIZE)) / PGSIZE))) as En.
      { unfold PGSIZE in *. Z.div_mod_to_equations. lia. }
      destruct (IH (p + PGSIZE) _ _ Hi') as (s' & E' & Hpr & Hi2).
      * unfold PGSIZE in *. Z.div_mod_to_equations. lia.
      * unfold PGSIZE; lia.
      * unfold PGSIZE; lia.
      * done.
      * lia.
      * intros v [->|Hin]%elem_of_cons; [unfold PGSIZE; lia|]. destruct (Hl v Hin); unfold PGSIZE in *; lia.
      * exists s'. split; [done|]. split; [done|]. rewrite En, pages_from_S, reverse_cons, <- app_assoc. done.
    + replace (Z.to_nat ((vend - p) / PGSIZE)) with 0%nat.
      * exists s. done.
      * unfold PGSIZE in *. Z.div_mod_to_equations. lia.
Qed.

End kalloc_inv.

Lemma pages_exact end_ p vend v :
  p mod PGSIZE = 0 -> end_ <= p < end_ + PGSIZE -> KERNBASE <= end_ -> vend <= KERNBASE + PHYSTOP ->
  v ∈ pages_from p (Z.to_nat ((vend - p) / PGSIZE)) <-> valid_page end_ v /\ v + PGSIZE <= vend.
Proof.
  intros Hp He Hk Hv. rewrite elem_of_pages_from. unfold valid_page. split.
  - intros (i & Hi & ->). unfold PGSIZE in *. Z.div_mod_to_equations. lia.
  - intros ((Hvm & Hve & Hvk) & Hvv). exists (Z.to_nat ((v - p) / PGSIZE)).
    unfold PGSIZE in *. Z.div_mod_to_equations. lia.
Qed.

Lemma freerange_spec end_ vstart vend s l :
  kinv end_ s l -> end_ <= vstart -> KERNBASE <= vstart -> vend <= KERNBASE + PHYSTOP ->
  (forall v, v ∈ l -> v < vstart \/ vend <= v) -> vstart <= KERNBASE + PHYSTOP ->
  exists s', freerange end_ vstart vend s = inr (tt, s') /\
    page_protect (hp s') = page_protect (hp s) /\
    kinv end_ s' (reverse (pages_from (PGROUNDUP vstart)
                    (Z.to_nat ((vend - PGROUNDUP vstart) / PGSIZE))) ++ l).
Proof.
  intros Hi He Hk Hv Hl Hs. destruct (PGROUNDUP_spec vstart) as [Hm Hr].
  { unfold KERNBASE, PHYSTOP, PGSIZE in *. lia. }
  apply freerange_loop_spec; try done; try lia.
  - unfold KERNBASE, PGSIZE in *. Z.div_mod_to_equations. lia.
  - intros v Hin. destruct (Hl v Hin); lia.
Qed.

Lemma PGROUNDUP_aligned v : 0 <= v < 2 ^ 32 - PGSIZE -> v mod PGSIZE = 0 -> PGROUNDUP v = v.
Proof.
  intros Hv Hm. destruct (PGROUNDUP_spec v Hv) as [H1 H2]. unfold PGSIZE in *.
  Z.div_mod_to_equations. lia.
Qed.

(** The two-phase initialisation of [main] ([kinit1] up to [vmid], then
    [kinit2] up to [vend]) never panics and leaves an intact free list that holds
    exactly the whole pages between the end of the kernel and [vend], each once,
    with no page reserved and the lock in use. *)
Lemma kinit_frees_all end_ vmid vend s0 :
  freelist (hp s0) = 0 -> page_cnt (hp s0) = 0 -> page_protect (hp s0) = 0 -> wf_mem (hm s0) ->
  KERNBASE <= end_ <= vmid -> vmid mod PGSIZE = 0 -> vmid <= vend <= KERNBASE + PHYSTOP ->
  exists s l, (kinit1 end_ end_ vmid ;; kinit2 end_ vmid vend) s0 = inr (tt, s) /\
    kinv end_ s l /\ (forall v, v ∈ l <-> valid_page end_ v /\ v + PGSIZE <= vend) /\
    page_protect (hp s) = 0 /\ use_lock (hp s) = true.
Proof.
  intros Hf Hc Hp Hm He Hal Hv.
  set (s1 := Kheap (Kmem false (page_cnt (hp s0)) (page_protect (hp s0)) (freelist (hp s0))) (hm s0)).
  assert (kinv end_ s1 []) as Hi.
  { unfold kinv, s1. simpl. rewrite Hf, Hc. split; [constructor|]. split; [constructor|]. done. }
  destruct (freerange_spec end_ end_ vmid s1 [] Hi) as (s2 & E2 & P2 & I2);
    [lia|lia|lia|set_solver|lia|].
  assert (forall v, v ∈ pages_from (PGROUNDUP end_) (Z.to_nat ((vmid - PGROUNDUP end_) / PGSIZE)) <->
    valid_page end_ v /\ v + PGSIZE <= vmid) as X1.
  { intros v. apply pages_exact; unfold KERNBASE, PHYSTOP, PGSIZE in *; try lia;
      apply PGROUNDUP_spec; unfold PGSIZE; lia. }
  rewrite app_nil_r in I2.
  destruct (freerange_spec end_ vmid vend s2 _ I2) as (s3 & E3 & P3 & I3);
    [lia|lia|lia| |lia|].
  { intros v Hin. left. rewrite elem_of_reverse, X1 in Hin. unfold PGSIZE in *. lia. }
  eexists _, _. split.
  { rewrite (bind_run _ _ _ tt s2); [|exact E2]. unfold kinit2. rewrite (bind_run _ _ _ tt s3 E3). done. }
  split; [exact I3|].
  split; [|simpl; done].
  intros v. rewrite elem_of_app, !elem_of_reverse, X1.
  rewrite PGROUNDUP_aligned by (unfold KERNBASE, PHYSTOP, PGSIZE in *; lia || done).
  rewrite elem_of_pages_from. unfold valid_page, KERNBASE, PHYSTOP, PGSIZE in *. split.
  - intros [(i & Hi' & ->)|?]; [|lia]. Z.div_mod_to_equations. lia.
  - intros ((H1 & H2 & H3) & H4). destruct (Z.le_gt_cases (v + 4096) vmid); [right; lia|left].
    exists (Z.to_nat ((v - vmid) / 4096)). Z.div_mod_to_equations. lia.
Qed.

Lemma kinit_frees_all_witness :
  exists s l, (kinit1 0x80100000 0x80100000 0x80102000 ;; kinit2 0x80100000 0x80102000 0x80104000)
      (Kheap (Kmem false 0 0 0) (fun _ => 0)) = inr (tt, s) /\ kinv 0x80100000 s l.
Proof.
  destruct (kinit_frees_all 0x80100000 0x80102000 0x80104000 (Kheap (Kmem false 0 0 0) (fun _ => 0)))
    as (s & l & H1 & H2 & _); try reflexivity; try (unfold KERNBASE, PHYSTOP; lia).
  - intros a. simpl. unfold is_byte. lia.
  - exists s, l. split; [exact H1|exact H2].
Defined.


(** Two free pages, for the witness. *)
Definition two_pages : kheap :=
  Kheap (Kmem true 2 1 0x80101000)
    (fun a => if in_range a 0x80101000 4 then (if a =? 0x80101003 then 0x80 else if a =? 0x80101002 then 0x10 else 0)
              else if in_range a 0x80100000 4 then 0 else 1).

Lemma two_pages_inv : kinv_all 0x80100000 2 (two_pages, []).
Proof.
  exists [0x80101000; 0x80100000]. simpl. split; [|split; [|split; [constructor|split; [lia|done]]]].
  - split; [|split; [|split; [done|]]].
    + assert (ld32 (hm two_pages) 0x80101000 = 0x80100000) as E1 by reflexivity.
      assert (ld32 (hm two_pages) 0x80100000 = 0) as E2 by reflexivity.
      constructor; [|intros a Ha|rewrite E1; constructor; [|intros a Ha|rewrite E2; constructor]];
        simpl; unfold valid_page, PGSIZE, KERNBASE, PHYSTOP in *; try (split; [reflexivity|lia]);
        range_cases; try lia; done.
    + constructor; [set_solver|]. constructor; [set_solver|constructor].
    + intros a. simpl. range_cases; zcases; unfold is_byte; lia.
  - constructor; [set_solver|]. constructor; [set_solver|constructor].
Qed.

