(* ===== verification/KVector.v ===== *)
(** * The paged vector, kernel/kvector.c

    A vector is a doubly linked list of pages: two link words, then the
    elements.  Copies between kernel and user space in the file system and the
    system calls go through it.  The model runs on the allocator's heap
    ([Kalloc.kheap]); a [vector] is passed by value, as in the code. *)

From S2P Require Import Prelude Kstring Kalloc.

Record vector := Vector {
  vectorsize : Z;  (* unsigned int: number of elements *)
  typesize : Z;    (* unsigned int: bytes per element *)
  vhead : Z;
  vtail : Z;
  lastaccessed : Z;
  lastindexaccessed : Z;
  valid : Z
}.

Definition setprev (m : mem) (sgmnt prevpointer : Z) : mem := st32 m sgmnt prevpointer.
Definition setnext (m : mem) (sgmnt nextpointer : Z) : mem := st32 m (sgmnt + 4) nextpointer.
Definition getprev (m : mem) (sgmnt : Z) : Z := ld32 m sgmnt.
Definition getnext (m : mem) (sgmnt : Z) : Z := ld32 m (sgmnt + 4).

(** Page and offset of an element; [None] is the trap of a division by zero. *)
Definition getpageforindex (v : vector) (index : Z) : option (Z * Z) :=
  let pointersspace := 2 * 4 in
  if typesize v =? 0 then None
  else
    let elementsperpage := (PGSIZE - pointersspace) / typesize v in
    if elementsperpage =? 0 then None
    else Some (index / elementsperpage, index mod elementsperpage).

Definition countpages (v : vector) : option Z :=
  '(pg, _) ← getpageforindex v (vectorsize v -u 1); Some (pg +u 1).

Fixpoint countactualpages_loop (fuel : nat) (m : mem) (currentpage counter : Z) : option Z :=
  match fuel with
  | O => None
  | S fuel => if negb (currentpage =? 0)
              then countactualpages_loop fuel m (getnext m currentpage) (counter +u 1)
              else Some counter
  end.
Definition countactualpages (fuel : nat) (m : mem) (v : vector) : option Z :=
  countactualpages_loop fuel m (vhead v) 0.

(** [for (i = 0; i < pageindex; i++) currentpage = getnext(currentpage);] *)
Fixpoint nthpage (m : mem) (currentpage : Z) (pageindex : nat) : Z :=
  match pageindex with O => currentpage | S n => nthpage m (getnext m currentpage) n end.

Definition getelementpointer (v : vector) (index : Z) : M kheap Z :=
  if (valid v =? 1) && (index <? vectorsize v) then
    '(pageindex, pageoffset) ← deref (getpageforindex v index);
    s ← getS;
    mret (nthpage (hm s) (vhead v) (Z.to_nat pageindex) + (2 * 4 + pageoffset * typesize v))
  else mret 0.

(** The byte loop of [setelement] copies upwards, like the forward loop of [memmove]. *)
Definition setelement (v : vector) (index data : Z) : M kheap Z :=
  if negb (valid v =? 0) && negb (vectorsize v =? 0) && (index <? vectorsize v) then
    '(pageindex, pageoffset) ← deref (getpageforindex v index);
    s ← getS;
    let currentpage := nthpage (hm s) (vhead v) (Z.to_nat pageindex) in
    putS (Kheap (hp s) (memmove_up (hm s) (currentpage + (2 * 4 + pageoffset * typesize v)) data
                          (Z.to_nat (typesize v)))) ;;
    mret 1
  else mret 0.

Definition setbyte (v : vector) (index databyte : Z) : M kheap Z :=
  if negb (valid v =? 0) && (index <? (vectorsize v *u typesize v)) then
    let pointersspace := 2 * 4 in
    let bytesperpage := PGSIZE - pointersspace in
    let pageindex := index / bytesperpage in
    let pageoffset := index mod bytesperpage in
    s ← getS;
    let currentpage := nthpage (hm s) (vhead v) (Z.to_nat pageindex) in
    putS (Kheap (hp s) (st8 (hm s) (currentpage + (2 * 4 + pageoffset)) (hm s databyte))) ;;
    mret 1
  else mret 0.

(** One page of [constructarray]: link the fresh page [p] behind [tail]. *)
Definition link_page (currentpageindex : nat) (m : mem) (head tail p : Z) : mem * Z * Z :=
  let m := memset m p 0 PGSIZE in
  let '(m, head) :=
    match currentpageindex with
    | O => (setprev m p 0, p)
    | S _ => (setnext (setprev m p tail) tail p, head)
    end in
  (setnext m p 0, head, p).

(** [n] pages are still to be built; the result is (head, tail, error). *)
Fixpoint constructarray_loop (n currentpageindex : nat) (head tail : Z) : M kheap (Z * Z * Z) :=
  match n with
  | O => mret (head, tail, 0)
  | S n =>
      p ← kalloc;
      if negb (p =? 0) then
        s ← getS;
        let '(m, head, tail) := link_page currentpageindex (hm s) head tail p in
        putS (Kheap (hp s) m) ;;
        constructarray_loop n (S currentpageindex) head tail
      else mret (head, tail, 1)
  end.

Definition constructarray (head tail numberofelements elementsize : Z) : M kheap (Z * Z * Z) :=
  let pointersspace := 2 * 4 in
  if PGSIZE - pointersspace <? elementsize then panic "kvector element size is too big"
  else if elementsize =? 0 then fault
  else
    let elementsperpage := (PGSIZE - pointersspace) / elementsize in
    let requiredpages := numberofelements / elementsperpage +
                         (if negb (numberofelements mod elementsperpage =? 0) then 1 else 0) in
    constructarray_loop (Z.to_nat requiredpages) 0 head tail.

(** [head0] and [tail0] are what the stack holds in the fields [newvector] leaves unset. *)
Definition newvector (head0 tail0 size typesize : Z) : M kheap vector :=
  '(head, tail, error) ← constructarray head0 tail0 size typesize;
  mret (Vector size typesize head tail 0 (u32 (-1)) (if error =? 0 then 1 else 0)).

Section kvector.
Context (end_ : Z).

Fixpoint freevector_loop (fuel : nat) (currentpage : Z) : M kheap unit :=
  match fuel with
  | O => nofuel
  | S fuel =>
      if negb (currentpage =? 0) then
        s ← getS;
        let nextpage := getnext (hm s) currentpage in
        kfree end_ currentpage ;;
        freevector_loop fuel nextpage
      else mret tt
  end.
Definition freevector (fuel : nat) (v : vector) : M kheap vector :=
  freevector_loop fuel (vhead v) ;;
  mret (Vector (vectorsize v) (typesize v) 0 0 (lastaccessed v) (lastindexaccessed v) 0).
End kvector.

Fixpoint memmove_into_vector_bytes_loop (n : nat) (i : Z) (dstvec : vector) (dstbyteoffset src : Z)
    : M kheap unit :=
  match n with
  | O => mret tt
  | S n => _ ← setbyte dstvec (i +u dstbyteoffset) (src + i);
           memmove_into_vector_bytes_loop n (i + 1) dstvec dstbyteoffset src
  end.
Definition memmove_into_vector_bytes (dstvec : vector) (dstbyteoffset src size : Z) : M kheap unit :=
  memmove_into_vector_bytes_loop (Z.to_nat size) 0 dstvec dstbyteoffset src.

Fixpoint memmove_into_vector_elements_loop (n : nat) (i : Z) (dstvec : vector)
    (dstelementoffset src : Z) : M kheap unit :=
  match n with
  | O => mret tt
  | S n => _ ← setelement dstvec (i +u dstelementoffset) (src + (i *u typesize dstvec));
           memmove_into_vector_elements_loop n (i + 1) dstvec dstelementoffset src
  end.
Definition memmove_into_vector_elements (dstvec : vector) (dstelementoffset src size : Z)
    : M kheap unit :=
  memmove_into_vector_elements_loop (Z.to_nat size) 0 dstvec dstelementoffset src.

Fixpoint memmove_from_vector_loop (n : nat) (counter dst : Z) (vec : vector) (elementoffset : Z)
    : M kheap unit :=
  match n with
  | O => mret tt
  | S n =>
      p ← getelementpointer vec (elementoffset +u counter);
      modS (fun s => Kheap (hp s) (memmove (hm s) (dst + (counter *u typesize vec)) p (typesize vec))) ;;
      memmove_from_vector_loop n (counter + 1) dst vec elementoffset
  end.
Definition memmove_from_vector (dst : Z) (vec : vector) (elementoffset elementcount : Z)
    : M kheap unit :=
  memmove_from_vector_loop (Z.to_nat elementcount) 0 dst vec elementoffset.

(** The loop shared by [slicevector] and [copysubvector]. *)
Fixpoint copy_elements_loop (n : nat) (curindex : Z) (dst src : vector) (srcoffset : Z) : M kheap unit :=
  match n with
  | O => mret tt
  | S n => p ← getelementpointer src (srcoffset +u curindex);
           _ ← setelement dst curindex p;
           copy_elements_loop n (curindex + 1) dst src srcoffset
  end.

Definition slicevector (head0 tail0 : Z) (original : vector) (startfrom inclusiveend : Z)
    : M kheap vector :=
  let numberofelements := inclusiveend -u startfrom in
  result ← newvector head0 tail0 numberofelements (typesize original);
  copy_elements_loop (Z.to_nat numberofelements) 0 result original startfrom ;;
  mret original.

Fixpoint vectormemcmp_loop (n : nat) (i : Z) (v : vector) (m left_bytes : Z) : M kheap Z :=
  match n with
  | O => mret 0
  | S n =>
      if 0 <? left_bytes then
        let bytes_to_compare := if left_bytes <? typesize v then left_bytes else typesize v in
        p ← getelementpointer v i;
        s ← getS;
        let retval := memcmp (hm s) (m + (i *u typesize v)) p bytes_to_compare in
        if retval =? 0 then mret (u32 retval)
        else vectormemcmp_loop n (i + 1) v m (left_bytes -u bytes_to_compare)
      else mret 0
  end.
Definition vectormemcmp (v : vector) (m bytes : Z) : M kheap Z :=
  vectormemcmp_loop (Z.to_nat (vectorsize v)) 0 v m bytes.

(** Null vector pointers are [None]; the result is the code's return value and
    the destination descriptor. *)
Definition copysubvector (dstvector srcvector : option vector) (srcoffset count : Z)
    : M kheap (Z * option vector) :=
  match dstvector, srcvector with
  | Some dst, Some src =>
      if valid dst =? 0 then mret (0, dstvector)
      else if valid src =? 0 then mret (0, dstvector)
      else if vectorsize dst <? count then mret (0, dstvector)
      else
        copy_elements_loop (Z.to_nat count) 0 dst src srcoffset ;;
        mret (1, Some (Vector count (typesize dst) (vhead dst) (vtail dst) (lastaccessed dst)
                         (lastindexaccessed dst) (valid dst)))
  | _, _ => mret (0, dstvector)
  end.

(** ** The pages of a vector *)

(** [ps] is the list of pages from [p] on, doubly linked. *)
Inductive vchain (m : mem) : Z -> Z -> list Z -> Prop :=
| vchain_nil prev : vchain m prev 0 []
| vchain_cons prev p ps : getprev m p = prev -> vchain m p (getnext m p) ps ->
    vchain m prev p (p :: ps).

(** Number of elements on a page, and the pages [n] elements take. *)
Definition perpage (ts : Z) : Z := (PGSIZE - 8) / ts.
Definition needed (n ts : Z) : Z := n / perpage ts + (if n mod perpage ts =? 0 then 0 else 1).

Record vec_ok (end_ : Z) (m : mem) (v : vector) (ps : list Z) : Prop := {
  vo_chain : vchain m 0 (vhead v) ps;
  vo_tail : last ps = Some (vtail v);
  vo_nodup : NoDup ps;
  vo_pages : Forall (valid_page end_) ps;
  vo_size : is_u32 (vectorsize v) /\ 1 <= typesize v <= PGSIZE - 8;
  vo_len : Z.of_nat (length ps) = needed (vectorsize v) (typesize v);
  vo_valid : valid v = 1
}.

(** Where element [i] of a vector lives. *)
Definition elt (v : vector) (ps : list Z) (i : Z) : Z :=
  ps !!! Z.to_nat (i / perpage (typesize v)) + (8 + (i mod perpage (typesize v)) * typesize v).

Lemma perpage_pos ts : 1 <= ts <= PGSIZE - 8 -> 1 <= perpage ts.
Proof.
  intros H. unfold perpage. apply Z.div_le_lower_bound; lia.
Qed.

Lemma perpage_le ts : 1 <= ts -> perpage ts * ts <= PGSIZE - 8.
Proof. intros H. unfold perpage. rewrite Z.mul_comm. apply Z.mul_div_le. lia. Qed.

Lemma page_index_bound n ts i :
  1 <= ts <= PGSIZE - 8 -> 0 <= i < n -> 0 <= i / perpage ts < needed n ts.
Proof.
  intros Hts Hi. pose proof (perpage_pos ts Hts) as Hp. unfold needed.
  split; [apply Z.div_pos; lia|].
  destruct (Z.eqb_spec (n mod perpage ts) 0) as [E|E].
  - apply Z.div_lt_upper_bound; [lia|]. rewrite Z.add_0_r.
    pose proof (Z.div_mod n (perpage ts)). lia.
  - assert (i / perpage ts <= n / perpage ts) by (apply Z.div_le_mono; lia). lia.
Qed.

Lemma offset_bound ts i :
  1 <= ts <= PGSIZE - 8 ->
  8 <= 8 + (i mod perpage ts) * ts /\ 8 + (i mod perpage ts) * ts + ts <= PGSIZE.
Proof.
  intros Hts. pose proof (perpage_pos ts Hts). pose proof (perpage_le ts ltac:(lia)).
  pose proof (Z.mod_pos_bound i (perpage ts)). nia.
Qed.

Lemma getpageforindex_ok v i : 1 <= typesize v <= PGSIZE - 8 ->
  getpageforindex v i = Some (i / perpage (typesize v), i mod perpage (typesize v)).
Proof.
  intros H. pose proof (perpage_pos _ H). unfold getpageforindex, perpage in *.
  change (2 * 4) with 8. destruct (Z.eqb_spec (typesize v) 0); [lia|].
  destruct (Z.eqb_spec ((PGSIZE - 8) / typesize v) 0); [lia|done].
Qed.

Lemma nthpage_spec m prev p ps k : vchain m prev p ps -> (k < length ps)%nat ->
  nthpage m p k = ps !!! k.
Proof.
  intros Hc. revert k. induction Hc as [|prev p ps Hp Hc IH]; intros k Hk; simpl in Hk; [lia|].
  destruct k; [done|]. simpl. apply IH. lia.
Qed.

Lemma getelementpointer_spec end_ v ps i s :
  vec_ok end_ (hm s) v ps -> 0 <= i < vectorsize v ->
  getelementpointer v i s = inr (elt v ps i, s).
Proof.
  intros Hv Hi. destruct Hv as [Hc _ _ _ [Hn Hts] Hlen Hval].
  unfold getelementpointer. rewrite Hval. destruct (Z.ltb_spec i (vectorsize v)); [|lia]. simpl.
  rewrite getpageforindex_ok by done. mrun. unfold elt. do 3 f_equal.
  apply (nthpage_spec _ 0); [done|].
  pose proof (page_index_bound (vectorsize v) (typesize v) i Hts Hi). lia.
Qed.

Lemma setelement_spec end_ v ps i data s :
  vec_ok end_ (hm s) v ps -> 0 <= i < vectorsize v ->
  setelement v i data s = inr (1, Kheap (hp s) (memmove_up (hm s) (elt v ps i) data
                                      (Z.to_nat (typesize v)))).
Proof.
  intros Hv Hi. destruct Hv as [Hc _ _ _ [Hn Hts] Hlen Hval].
  unfold setelement. rewrite Hval. destruct (Z.ltb_spec i (vectorsize v)); [|lia].
  destruct (Z.eqb_spec (vectorsize v) 0); [lia|]. simpl.
  rewrite getpageforindex_ok by done. mrun. unfold elt. do 5 f_equal.
  apply (nthpage_spec _ 0); [done|].
  pose proof (page_index_bound (vectorsize v) (typesize v) i Hts Hi). lia.
Qed.

(** ** Element addresses *)

Lemma elt_in_page end_ m v ps i :
  vec_ok end_ m v ps -> 0 <= i < vectorsize v ->
  exists p, ps !! Z.to_nat (i / perpage (typesize v)) = Some p /\
    p + 8 <= elt v ps i /\ elt v ps i + typesize v <= p + PGSIZE.
Proof.
  intros Hv Hi. destruct Hv as [_ _ _ _ [_ Hts] Hlen _].
  pose proof (page_index_bound _ _ i Hts Hi) as Hb.
  destruct (lookup_lt_is_Some_2 ps (Z.to_nat (i / perpage (typesize v)))) as [p Hp]; [lia|].
  exists p. split; [done|]. unfold elt. rewrite (list_lookup_total_correct _ _ _ Hp).
  pose proof (offset_bound (typesize v) i Hts). lia.
Qed.

Lemma elt_apart end_ m v ps i j :
  vec_ok end_ m v ps -> 0 <= i < vectorsize v -> 0 <= j < vectorsize v -> i <> j ->
  elt v ps i + typesize v <= elt v ps j \/ elt v ps j + typesize v <= elt v ps i.
Proof.
  intros Hv Hi Hj Hne.
  destruct (elt_in_page _ _ _ _ i Hv Hi) as (p & Hp & Hp1 & Hp2).
  destruct (elt_in_page _ _ _ _ j Hv Hj) as (q & Hq & Hq1 & Hq2).
  pose proof Hv as [_ _ Hnd Hval [_ Hts] _ _]. pose proof (perpage_pos _ Hts) as Hpos.
  destruct (Z.eq_dec (i / perpage (typesize v)) (j / perpage (typesize v))) as [E|E].
  - unfold elt. rewrite E. set (k := perpage (typesize v)) in *.
    assert (i mod k <> j mod k).
    { intros Em. apply Hne. rewrite (Z.div_mod i k), (Z.div_mod j k) by lia. congruence. }
    nia.
  - assert (p <> q) as Hpq.
    { intros <-. apply E. pose proof (NoDup_lookup _ _ _ _ Hnd Hp Hq) as E'.
      assert (0 <= i / perpage (typesize v)) by (apply Z.div_pos; lia).
      assert (0 <= j / perpage (typesize v)) by (apply Z.div_pos; lia). lia. }
    rewrite Forall_lookup in Hval.
    destruct (pages_apart end_ p q (Hval _ _ Hp) (Hval _ _ Hq) Hpq); lia.
Qed.

Lemma vchain_ext m m' prev p ps :
  (forall q a, q ∈ ps -> q <= a < q + 8 -> m a = m' a) -> vchain m prev p ps -> vchain m' prev p ps.
Proof.
  intros Hext Hc. induction Hc as [|prev p ps Hp Hc IH]; [constructor|].
  assert (forall a, p <= a < p + 8 -> m a = m' a) as Hp8 by (intros; eapply Hext; [left|done]).
  assert (getnext m p = getnext m' p) as En by (apply ld32_ext; intros; apply Hp8; lia).
  constructor.
  - rewrite <- Hp. symmetry. apply ld32_ext. intros. apply Hp8. lia.
  - rewrite <- En. apply IH. intros q a Hq. apply Hext. by right.
Qed.

Lemma vec_ok_ext end_ m m' v ps :
  (forall q a, q ∈ ps -> q <= a < q + 8 -> m a = m' a) -> vec_ok end_ m v ps -> vec_ok end_ m' v ps.
Proof. intros Hext []. split; try done. by eapply vchain_ext. Qed.

Lemma setelement_frame end_ v ps i data s n :
  vec_ok end_ (hm s) v ps -> 0 <= i < vectorsize v -> wf_mem (hm s) ->
  n = Z.to_nat (typesize v) -> elt v ps i <= data \/ data + typesize v <= elt v ps i ->
  vec_ok end_ (memmove_up (hm s) (elt v ps i) data n) v ps.
Proof.
  intros Hv Hi Hm -> Hd. eapply vec_ok_ext; [|exact Hv]. intros q a Hq Ha.
  pose proof Hv as [_ _ Hnd Hval [_ Hts] _ _]. rewrite memmove_up_spec by (done || lia).
  range_cases; [|done]. exfalso.
  destruct (elt_in_page _ _ _ _ i Hv Hi) as (p & Hp & Hp1 & Hp2).
  rewrite Forall_forall in Hval. apply list_elem_of_lookup_2 in Hp.
  destruct (Z.eq_dec p q) as [->|Hpq]; [unfold PGSIZE in *; lia|].
  destruct (pages_apart end_ p q (Hval _ Hp) (Hval _ Hq) Hpq); unfold PGSIZE in *; lia.
Qed.

(** Storing an element and reading it back gives the stored bytes; every
    other element keeps its bytes, the vector stays well linked, the allocator's
    state is untouched and no byte outside the element changes. *)
Lemma setelement_getelement end_ v ps i data l s :
  vec_ok end_ (hm s) v ps -> wf_mem (hm s) -> 0 <= i < vectorsize v ->
  bytes_at (hm s) data l -> Z.of_nat (length l) = typesize v ->
  elt v ps i <= data \/ data + typesize v <= elt v ps i ->
  exists m', setelement v i data s = inr (1, Kheap (hp s) m') /\ vec_ok end_ m' v ps /\
    (exists p, getelementpointer v i (Kheap (hp s) m') = inr (p, Kheap (hp s) m') /\ bytes_at m' p l) /\
    (forall j p k, 0 <= j < vectorsize v -> j <> i -> bytes_at (hm s) p k ->
       getelementpointer v j s = inr (p, s) -> Z.of_nat (length k) = typesize v -> bytes_at m' p k) /\
    (forall a, ~ (elt v ps i <= a < elt v ps i + typesize v) -> m' a = hm s a).
Proof.
  intros Hv Hm Hi Hl Hlen Hd. pose proof (setelement_frame end_ v ps i data s _ Hv Hi Hm eq_refl Hd) as Hv'.
  pose proof (memmove_up_spec (Z.to_nat (typesize v)) (hm s) (elt v ps i) data Hm ltac:(lia)) as Hc.
  eexists. split; [by eapply setelement_spec|]. split; [done|]. rewrite Z2Nat.id in Hc by lia.
  split; [|split].
  - eexists. split; [by eapply getelementpointer_spec|].
    intros b c Hb. pose proof (lookup_lt_Some _ _ _ Hb). rewrite Hc. range_cases; [|lia].
    rewrite <- (Hl _ _ Hb). f_equal. lia.
  - intros j p k Hj Hne Hk E Hlk. rewrite (getelementpointer_spec end_ v ps j s Hv Hj) in E.
    injection E as <-. eapply bytes_at_ext; [|exact Hk]. intros a Ha. rewrite Hc. range_cases; [|done].
    destruct (elt_apart _ _ _ _ i j Hv Hi Hj ltac:(done)); lia.
  - intros a Ha. rewrite Hc. range_cases; [lia|done].
Qed.

(** ** Building and freeing *)

Lemma getnext_ext m m' q : (forall a, q + 4 <= a < q + 8 -> m a = m' a) -> getnext m q = getnext m' q.
Proof. intros H. apply ld32_ext. intros. apply H. lia. Qed.

Lemma getprev_ext m m' q : (forall a, q <= a < q + 4 -> m a = m' a) -> getprev m q = getprev m' q.
Proof. apply ld32_ext. Qed.

Lemma vchain_snoc m m' prev h ps t p :
  vchain m prev h ps -> NoDup ps -> last ps = Some t ->
  (forall q, q ∈ ps -> getprev m' q = getprev m q) ->
  (forall q, q ∈ ps -> q <> t -> getnext m' q = getnext m q) ->
  getnext m' t = p -> getprev m' p = t -> getnext m' p = 0 ->
  vchain m' prev h (ps ++ [p]).
Proof.
  intros Hc Hnd Hl Hpr Hnx Ht Hp Hp0. induction Hc as [|prev q ps Hq Hc IH]; [done|].
  apply NoDup_cons in Hnd as [Hnin Hnd]. destruct ps as [|r ps].
  - injection Hl as ->. simpl. constructor; [rewrite Hpr by set_solver; done|].
    rewrite Ht. constructor; [done|]. rewrite Hp0. constructor.
  - assert (q <> t) as Hqt.
    { intros ->. apply Hnin. apply last_Some in Hl as [l' E].
      destruct l' as [|? l']; [done|]. injection E as -> E. rewrite E. set_solver. }
    simpl. constructor; [rewrite Hpr by set_solver; done|].
    rewrite Hnx by set_solver. apply IH; [done|exact Hl| |].
    + intros x Hx. apply Hpr. by right.
    + intros x Hx. apply Hnx. by right.
Qed.

(** What linking a fresh page does to memory. *)
Lemma link_page_spec k m h t p m' h' t' :
  link_page k m h t p = (m', h', t') -> wf_mem m -> is_u32 p ->
  (k <> 0%nat -> is_u32 t /\ (p + PGSIZE <= t \/ t + PGSIZE <= p)) ->
  t' = p /\ h' = (if decide (k = 0%nat) then p else h) /\ wf_mem m' /\
  getnext m' p = 0 /\ getprev m' p = (if decide (k = 0%nat) then 0 else t) /\
  (k <> 0%nat -> getnext m' t = p) /\
  (forall a, p + 8 <= a < p + PGSIZE -> m' a = 0) /\
  (forall a, ~ (p <= a < p + PGSIZE) -> (k <> 0%nat -> ~ (t + 4 <= a < t + 8)) -> m' a = m a).
Proof.
  intros E Hm Hp Hd. unfold link_page, setprev, setnext, PGSIZE in *.
  assert (forall a, memset m p 0 4096 a = if in_range a p 4096 then 0 else m a) as Hs.
  { intros a. rewrite memset_spec by lia. done. }
  destruct k as [|k]; injection E as <- <- <-;
    (split; [done|]; split; [done|]; split; [repeat apply st32_wf; apply memset_wf; [lia|done]|];
     split; [unfold getnext; rewrite ld32_st32 by word; done|]).
  - unfold getprev. simpl. split; [|split; [done|split]].
    + erewrite ld32_ext; [rewrite (ld32_st32 (memset m p 0 4096) p 0) by word; done|].
      intros a Ha. rewrite st32_other by lia. done.
    + intros a Ha. rewrite !st32_other, Hs by lia. range_cases; [done|lia].
    + intros a Ha _. rewrite !st32_other, Hs by lia. range_cases; [lia|done].
  - specialize (Hd ltac:(done)) as [Ht Hd]. simpl. unfold getprev, getnext. split; [|split; [|split]].
    + erewrite ld32_ext; [rewrite (ld32_st32 (memset m p 0 4096) p t) by done; done|].
      intros a Ha. rewrite !st32_other by lia. done.
    + intros _. erewrite ld32_ext; [rewrite (ld32_st32 (st32 (memset m p 0 4096) p t) (t + 4) p) by done; done|].
      intros a Ha. rewrite st32_other by lia. done.
    + intros a Ha. rewrite !st32_other, Hs by lia. range_cases; [done|lia].
    + intros a Ha Hk. specialize (Hk ltac:(done)). rewrite !st32_other, Hs by lia. range_cases; [lia|done].
Qed.

(** The part of a vector [constructarray] has built after some rounds. *)
Record building (end_ : Z) (m : mem) (h t : Z) (ps : list Z) : Prop := {
  b_chain : ps <> [] -> vchain m 0 h ps;
  b_last : ps <> [] -> last ps = Some t;
  b_pages : Forall (valid_page end_) ps;
  b_zero : forall p a, p ∈ ps -> p + 8 <= a < p + PGSIZE -> m a = 0
}.

Lemma valid_page_u32 end_ v : valid_page end_ v -> is_u32 v.
Proof. intros (_ & _ & H). unfold KERNBASE, PHYSTOP in H. word. Qed.

Lemma building_step end_ m h t ps p m' h' t' :
  building end_ m h t ps -> NoDup (ps ++ [p]) -> valid_page end_ p -> wf_mem m ->
  link_page (length ps) m h t p = (m', h', t') -> building end_ m' h' t' (ps ++ [p]).
Proof.
  intros [Hc Hl Hv Hz] Hnd Hp Hm E. apply NoDup_app in Hnd as (Hnd & Hdisj & _).
  rewrite Forall_forall in Hv.
  assert (forall q, q ∈ ps -> p + PGSIZE <= q \/ q + PGSIZE <= p) as Hap.
  { intros q Hq. apply (pages_apart end_); [done|by apply Hv|]. intros ->. apply (Hdisj q Hq). set_solver. }
  assert (length ps <> 0%nat -> t ∈ ps) as Ht.
  { intros Hne. apply last_Some_elem_of, Hl. intros ->. done. }
  apply link_page_spec in E as (-> & Eh & Hm' & Hn & Hpr & Hnt & Hz' & Hout); try done;
    [|by eapply valid_page_u32|intros Hne; split; [eapply valid_page_u32, Hv, Ht, Hne|apply Hap, Ht, Hne]].
  split.
  - intros _. destruct (decide (length ps = 0%nat)) as [E0|E0].
    + apply nil_length_inv in E0. subst ps h'. simpl. constructor; [done|]. rewrite Hn. constructor.
    + subst h'. assert (ps <> []) as Hne by (intros ->; done).
      eapply (vchain_snoc m); try done; [by apply Hc|by apply Hl| | |by apply Hnt].
      * intros q Hq. symmetry. apply getprev_ext. intros a Ha.
        specialize (Hap q Hq) as Hq'. symmetry. apply Hout; [unfold PGSIZE in *; lia|].
        intros _. destruct (Z.eq_dec q t) as [->|Hqt]; [lia|].
        destruct (pages_apart end_ q t (Hv q Hq) (Hv t (Ht E0)) Hqt); unfold PGSIZE in *; lia.
      * intros q Hq Hqt. symmetry. apply getnext_ext. intros a Ha.
        specialize (Hap q Hq) as Hq'. symmetry. apply Hout; [unfold PGSIZE in *; lia|].
        intros _. destruct (pages_apart end_ q t (Hv q Hq) (Hv t (Ht E0)) Hqt); unfold PGSIZE in *; lia.
  - intros _. apply last_snoc.
  - apply Forall_app. split; [by apply Forall_forall|by constructor].
  - intros q a [Hq|Hq]%elem_of_app Ha; [|apply list_elem_of_singleton in Hq as ->; by apply Hz'].
    rewrite Hout; [by apply (Hz q)| |].
    + specialize (Hap q Hq). unfold PGSIZE in *. lia.
    + intros Hne. specialize (Ht Hne). destruct (Z.eq_dec q t) as [->|Hqt]; [lia|].
      destruct (pages_apart end_ q t (Hv q Hq) (Hv t Ht) Hqt); unfold PGSIZE in *; lia.
Qed.

(** Linking a page leaves the free list and all foreign memory alone. *)
Lemma link_page_frame end_ s p l ps h t m' h' t' :
  kinv end_ s l -> NoDup (ps ++ p :: l) -> Forall (valid_page end_) (ps ++ [p]) ->
  (ps <> [] -> last ps = Some t) -> link_page (length ps) (hm s) h t p = (m', h', t') ->
  kinv end_ (Kheap (hp s) m') l /\
  forall a, (forall q, q ∈ ps ++ [p] -> ~ (q <= a < q + PGSIZE)) -> m' a = hm s a.
Proof.
  intros (Hc & Hndl & Hcnt & Hm) Hnd Hv Hl E.
  apply Forall_app in Hv as [Hv Hp]. rewrite Forall_singleton in Hp.
  apply NoDup_app in Hnd as (Hnd & Hdisj & [Hpl _]%NoDup_cons). rewrite Forall_forall in Hv.
  assert (length ps <> 0%nat -> t ∈ ps) as Ht.
  { intros Hne. apply last_Some_elem_of, Hl. intros ->. done. }
  assert (forall q, q ∈ ps -> p + PGSIZE <= q \/ q + PGSIZE <= p) as Hap.
  { intros q Hq. apply (pages_apart end_); [done|by apply Hv|]. intros ->. apply (Hdisj q Hq). set_solver. }
  apply link_page_spec in E as (_ & _ & Hm' & _ & _ & _ & _ & Hout); try done;
    [|by eapply valid_page_u32|intros Hne; split; [eapply valid_page_u32, Hv, Ht, Hne|apply Hap, Ht, Hne]].
  assert (forall a, (forall q, q ∈ ps ++ [p] -> ~ (q <= a < q + PGSIZE)) -> m' a = hm s a) as Hout'.
  { intros a Ha. apply Hout; [apply Ha; set_solver|]. intros Hne.
    specialize (Ha t ltac:(set_solver)). unfold PGSIZE in *. lia. }
  split; [|exact Hout']. split; [|done]. simpl. eapply chain_ext; [|exact Hc].
  intros w a Hw Ha. symmetry. apply Hout'. intros q Hq Hqa.
  apply chain_valid in Hc. rewrite Forall_forall in Hc.
  assert (valid_page end_ q) as Hvq.
  { apply elem_of_app in Hq as [Hq|Hq]; [by apply Hv|by apply list_elem_of_singleton in Hq as ->]. }
  destruct (pages_apart end_ q w Hvq (Hc w Hw)) as [?|?]; [|lia|lia]. intros ->.
  apply elem_of_app in Hq as [Hq|Hq]; [apply (Hdisj w Hq); set_solver|].
  apply list_elem_of_singleton in Hq as ->. done.
Qed.

Lemma constructarray_loop_spec end_ n s l ps h t :
  kinv end_ s l -> building end_ (hm s) h t ps -> NoDup (ps ++ l) ->
  0 <= page_protect (hp s) <= page_cnt (hp s) ->
  let avail := Z.to_nat (page_cnt (hp s) - page_protect (hp s)) in
  let k := (n `min` avail)%nat in
  exists s' h' t',
    constructarray_loop n (length ps) h t s = inr ((h', t', if decide (n <= avail)%nat then 0 else 1), s') /\
    building end_ (hm s') h' t' (ps ++ take k l) /\ kinv end_ s' (drop k l) /\
    (forall a, (forall q, q ∈ ps ++ take k l -> ~ (q <= a < q + PGSIZE)) -> hm s' a = hm s a) /\
    (k = 0%nat -> h' = h) /\ page_protect (hp s') = page_protect (hp s).
Proof.
  revert s l ps h t. induction n as [|n IH]; intros s l ps h t Hi Hb Hnd Hp.
  - simpl. exists s, h, t. rewrite take_0, app_nil_r, drop_0.
    split_and!; done.
  - cbv zeta. cbn [constructarray_loop].
    destruct (kalloc_spec end_ s l Hi) as [[Hno E]|(p & l' & -> & Hlt & E & Hi')].
    + rewrite (bind_run _ _ _ _ _ E). simpl.
      assert (Z.to_nat (page_cnt (hp s) - page_protect (hp s)) = 0%nat) as ->.
      { destruct Hno as [?|Hno]; [lia|]. destruct Hi as (_ & _ & Hc & _). rewrite Hno in Hc. simpl in Hc. lia. }
      rewrite ?Nat.min_0_r. simpl. rewrite ?take_0, ?app_nil_r, ?drop_0. exists s, h, t.
      split_and!; done.
    + rewrite (bind_run _ _ _ _ _ E).
      pose proof Hi as (Hc & _ & Hcnt & Hm). apply chain_valid in Hc as Hv.
      apply Forall_cons in Hv as [Hvp _]. apply chain_head in Hc as [Ep Hne].
      assert (p <> 0) as Hp0 by congruence.
      destruct (Z.eqb_spec p 0); [done|]. cbn [negb].
      set (s1 := Kheap _ (hm s)) in *. mrun.
      destruct (link_page (length ps) (hm s1) h t p) as [[m' h'] t'] eqn:El.
      assert (NoDup (ps ++ [p])) as Hnd1.
      { rewrite cons_middle, app_assoc in Hnd. by apply NoDup_app in Hnd as (? & _). }
      pose proof (building_step end_ (hm s1) h t ps p m' h' t' Hb Hnd1 Hvp Hm El) as Hb'.
      destruct (link_page_frame end_ s1 p l' ps h t m' h' t' Hi' Hnd) as [Hi2 Hout];
        [apply Forall_app; split; [apply Hb|by constructor]|apply Hb|done|].
      destruct (IH (Kheap (hp s1) m') l' (ps ++ [p]) h' t' Hi2 Hb') as (s' & h2 & t2 & E2 & B2 & I2 & O2 & H2 & P2).
      { rewrite <- app_assoc. exact Hnd. }
      { simpl. lia. }
      rewrite length_app in E2. simpl in E2. rewrite Nat.add_1_r in E2. unfold s1 in *. cbn [hp hm page_cnt page_protect] in *.
      set (av := Z.to_nat (page_cnt (hp s) - page_protect (hp s))).
      replace (Z.to_nat (page_cnt (hp s) - 1 - page_protect (hp s))) with (av - 1)%nat in * by lia.
      replace (S n `min` av)%nat with (S (n `min` (av - 1)))%nat by lia.
      exists s', h2, t2. rewrite E2. cbn [take drop]. rewrite <- app_assoc in B2. simpl app in B2.
      split_and!; try done.
      * repeat case_decide; (done || lia).
      * intros a Ha. rewrite O2; [apply Hout|]; intros q Hq; apply Ha; set_solver.
Qed.

Lemma vchain_head m prev h ps : vchain m prev h ps -> match ps with [] => h = 0 | p :: _ => h = p end.
Proof. by intros []. Qed.

(** [freevector] gives the pages of a chain back one by one. *)
Lemma freevector_loop_spec end_ ps s l prev h fuel :
  kinv end_ s l -> vchain (hm s) prev h ps -> NoDup (ps ++ l) -> Forall (valid_page end_) ps ->
  (length ps < fuel)%nat ->
  exists s', freevector_loop end_ fuel h s = inr (tt, s') /\ kinv end_ s' (reverse ps ++ l) /\
    page_protect (hp s') = page_protect (hp s).
Proof.
  revert s l prev h fuel. induction ps as [|p ps IH]; intros s l prev h [|fuel] Hi Hc Hnd Hv Hf;
    simpl in Hf; try lia.
  - apply vchain_head in Hc as ->. exists s. done.
  - inversion Hc as [|? ? ? Hp Hc' E1 E2]; subst. apply Forall_cons in Hv as [Hvp Hv].
    simpl in Hnd. apply NoDup_cons in Hnd as [Hnin Hnd].
    destruct (kfree_spec end_ s l p Hi Hvp) as (m' & E & Hout & Hi'); [set_solver|].
    cbn [freevector_loop]. destruct (Z.eqb_spec p 0) as [->|].
    { destruct Hvp as (_ & _ & Hvp). unfold KERNBASE in Hvp. lia. }
    cbn [negb]. mrun. rewrite E.
    set (s1 := Kheap _ m') in *.
    destruct (IH s1 (p :: l) p (getnext (hm s) p) fuel Hi') as (s' & E' & Hi2 & Hp2).
    + eapply vchain_ext; [|exact Hc']. intros q a Hq Ha. symmetry. apply Hout.
      rewrite Forall_forall in Hv. destruct (pages_apart end_ p q Hvp (Hv q Hq));
        [intros ->; set_solver|unfold PGSIZE in *; lia|unfold PGSIZE in *; lia].
    + rewrite <- Permutation_middle. by constructor.
    + done.
    + lia.
    + exists s'. split; [exact E'|]. split; [|exact Hp2]. rewrite reverse_cons, <- app_assoc. exact Hi2.
Qed.

Lemma newvector_run end_ h0 t0 size ts s l :
  kinv end_ s l -> 0 <= page_protect (hp s) <= page_cnt (hp s) ->
  is_u32 size -> 1 <= ts <= PGSIZE - 8 ->
  let avail := page_cnt (hp s) - page_protect (hp s) in
  let k := Z.to_nat (Z.min (needed size ts) avail) in
  exists s' h t,
    newvector h0 t0 size ts s =
      inr (Vector size ts h t 0 (u32 (-1)) (if needed size ts <=? avail then 1 else 0), s') /\
    building end_ (hm s') h t (take k l) /\ kinv end_ s' (drop k l) /\
    (forall a, (forall q, q ∈ take k l -> ~ (q <= a < q + PGSIZE)) -> hm s' a = hm s a) /\
    (k = 0%nat -> h = h0) /\ page_protect (hp s') = page_protect (hp s).
Proof.
  intros Hi Hp Hsz Hts avail k. pose proof Hi as (_ & Hnd & Hcnt & _).
  pose proof (perpage_pos ts Hts) as Hpos.
  assert (0 <= needed size ts) as Hn0.
  { unfold needed. pose proof (Z.div_pos size (perpage ts)). case_match; unfold is_u32 in *; lia. }
  destruct (constructarray_loop_spec end_ (Z.to_nat (needed size ts)) s l [] h0 t0 Hi) as
    (s' & h & t & E & B & I & O & H & P); try done.
  { split; try done. set_solver. }
  exists s', h, t.
  replace (Z.to_nat (needed size ts) `min` Z.to_nat (page_cnt (hp s) - page_protect (hp s)))%nat
    with k in * by (unfold k, avail; lia).
  split; [|split_and!; try done].
  unfold newvector. assert (constructarray h0 t0 size ts s =
    inr ((h, t, if decide (Z.to_nat (needed size ts) <= Z.to_nat avail)%nat then 0 else 1), s')) as E'.
  { unfold avail. rewrite <- E. unfold constructarray. change (2 * 4) with 8.
    destruct (Z.ltb_spec (PGSIZE - 8) ts); [lia|]. destruct (Z.eqb_spec ts 0); [lia|].
    unfold needed, perpage. simpl length. by destruct (_ mod _ =? 0). }
  rewrite (bind_run _ _ _ _ _ E'). case_decide; destruct (Z.leb_spec (needed size ts) avail); (done || lia).
Qed.

Lemma needed_pos size ts : 0 < size -> 1 <= ts <= PGSIZE - 8 -> 0 < needed size ts.
Proof. intros Hs Hts. pose proof (page_index_bound size ts 0 Hts ltac:(lia)). lia. Qed.

(** A vector of [size > 0] elements can be built exactly when the pages it
    needs are free and not reserved; it is then well linked, on fresh pages, with
    every element zero.  Whether or not the construction succeeded, [freevector]
    returns every page that was taken: the free pages are the same as before. *)
Lemma newvector_freevector end_ h0 t0 size ts s l :
  kinv end_ s l -> 0 <= page_protect (hp s) < page_cnt (hp s) ->
  0 < size < 2 ^ 32 -> 1 <= ts <= PGSIZE - 8 ->
  exists v s1, newvector h0 t0 size ts s = inr (v, s1) /\
    (valid v = 1 <-> needed size ts <= page_cnt (hp s) - page_protect (hp s)) /\
    (valid v = 1 -> exists ps, vec_ok end_ (hm s1) v ps /\ ps ⊆ l /\
       page_cnt (hp s1) = page_cnt (hp s) - needed size ts /\
       forall i, 0 <= i < size -> forall a, elt v ps i <= a < elt v ps i + ts -> hm s1 a = 0) /\
    exists v' s2 l2, freevector end_ (S (length l)) v s1 = inr (v', s2) /\ valid v' = 0 /\
      kinv end_ s2 l2 /\ l2 ≡ₚ l /\ page_cnt (hp s2) = page_cnt (hp s).
Proof.
  intros Hi Hp Hsz Hts. pose proof (needed_pos size ts ltac:(lia) Hts) as Hn.
  destruct (newvector_run end_ h0 t0 size ts s l Hi) as (s1 & h & t & E & B & I & O & H & P);
    [lia|word|done|].
  set (avail := page_cnt (hp s) - page_protect (hp s)) in *.
  set (k := Z.to_nat (Z.min (needed size ts) avail)) in *.
  pose proof Hi as (Hc0 & Hnd & Hcnt & _). pose proof I as (_ & _ & Hcnt1 & _).
  assert (k <= length l)%nat as Hk by (unfold k; lia).
  assert (take k l <> []) as Hne.
  { intros E0. apply (f_equal length) in E0. rewrite length_take in E0. simpl in E0. lia. }
  pose proof (b_chain _ _ _ _ _ B Hne) as Hch. pose proof (b_pages _ _ _ _ _ B) as Hpg.
  eexists _, s1. split; [exact E|]. cbn [valid]. split; [|split].
  - destruct (Z.leb_spec (needed size ts) avail); lia.
  - intros Hv. destruct (Z.leb_spec (needed size ts) avail); [|lia].
    assert (vec_ok end_ (hm s1) (Vector size ts h t 0 (u32 (-1)) 1) (take k l)) as Hok.
    { split; try done; [by apply B| |split; [simpl; word|done]|].
      - rewrite <- (take_drop k l) in Hnd. by apply NoDup_app in Hnd as (? & _).
      - rewrite length_take. cbn [vectorsize typesize]. lia. }
    exists (take k l). split; [done|]. split; [by apply subseteq_take|]. split.
    + rewrite Hcnt1, length_drop. lia.
    + intros i Hi' a Ha. destruct (elt_in_page _ _ _ _ i Hok Hi') as (p & Hpl & Hp1 & Hp2).
      apply (b_zero _ _ _ _ _ B p); [by eapply list_elem_of_lookup_2|simpl in *; lia].
  - destruct (freevector_loop_spec end_ (take k l) s1 (drop k l) 0 h (S (length l)) I Hch) as (s2 & E2 & I2 & P2).
    + by rewrite take_drop.
    + done.
    + rewrite length_take. lia.
    + eexists _, s2, _. split; [unfold freevector; cbn [vhead]; by rewrite (bind_run _ _ _ _ _ E2)|].
      split; [done|]. split; [exact I2|].
      assert (reverse (take k l) ++ drop k l ≡ₚ l) as Hperm.
      { rewrite reverse_Permutation. by rewrite take_drop. }
      split; [done|]. destruct I2 as (_ & _ & -> & _). rewrite Hperm. lia.
Qed.

Lemma newvector_freevector_witness :
  exists v s1, newvector 7 7 10 4 two_pages = inr (v, s1) /\
    (exists v' s2 l2, freevector 0x80100000 3 v s1 = inr (v', s2) /\ valid v' = 0 /\
      kinv 0x80100000 s2 l2).
Proof.
  destruct two_pages_inv as (l & Hi & _ & _ & _ & Hl). rewrite Nat.add_0_r in Hl.
  destruct (newvector_freevector 0x80100000 7 7 10 4 two_pages l Hi) as
    (v & s1 & E & _ & _ & v' & s2 & l2 & E2 & V & I & _); [simpl; lia|lia|unfold PGSIZE; lia|].
  exists v, s1. split; [exact E|]. exists v', s2, l2. simpl in Hl. rewrite Hl in E2.
  split; [exact E2|]. split; [exact V|exact I].
Defined.

(** ** Byte vectors: copying in and out *)

Lemma setbyte_spec end_ v ps i p s :
  vec_ok end_ (hm s) v ps -> typesize v = 1 -> 0 <= i < vectorsize v ->
  setbyte v i p s = inr (1, Kheap (hp s) (st8 (hm s) (elt v ps i) (hm s p))).
Proof.
  intros Hv Ht Hi. pose proof Hv as [Hc _ _ _ [Hn Hts] Hlen Hval].
  unfold setbyte. rewrite Hval, Ht, Z.mul_1_r, u32_id by done.
  destruct (Z.ltb_spec i (vectorsize v)); [|lia]. cbn [negb Z.eqb andb]. mrun.
  unfold elt. rewrite Ht, Z.mul_1_r. change (perpage 1) with (PGSIZE - 2 * 4).
  do 6 f_equal. apply (nthpage_spec _ 0); [done|].
  pose proof (page_index_bound (vectorsize v) (typesize v) i Hts Hi) as Hb.
  rewrite Ht in *. change (perpage 1) with (PGSIZE - 2 * 4) in Hb. lia.
Qed.

Definition off_pages (ps : list Z) (p n : Z) : Prop :=
  forall q, q ∈ ps -> p + n <= q \/ q + PGSIZE <= p.

Lemma elt_off_pages end_ m v ps i p n a :
  vec_ok end_ m v ps -> 0 <= i < vectorsize v -> off_pages ps p n -> p <= a < p + n -> a <> elt v ps i.
Proof.
  intros Hv Hi Hoff Ha ->. destruct (elt_in_page _ _ _ _ i Hv Hi) as (q & Hq & H1 & H2).
  apply list_elem_of_lookup_2 in Hq. pose proof Hv as [_ _ _ _ [_ Hts] _ _].
  destruct (Hoff q Hq); lia.
Qed.

Lemma elt_inj end_ m v ps i j :
  vec_ok end_ m v ps -> 0 <= i < vectorsize v -> 0 <= j < vectorsize v -> elt v ps i = elt v ps j -> i = j.
Proof.
  intros Hv Hi Hj E. destruct (Z.eq_dec i j); [done|]. pose proof Hv as [_ _ _ _ [_ Hts] _ _].
  destruct (elt_apart _ _ _ _ i j Hv Hi Hj ltac:(done)); lia.
Qed.

Lemma into_bytes_spec end_ n i v ps off src s :
  vec_ok end_ (hm s) v ps -> wf_mem (hm s) -> typesize v = 1 -> 0 <= off -> 0 <= i ->
  off + i + Z.of_nat n <= vectorsize v -> off_pages ps src (i + Z.of_nat n) ->
  exists m', memmove_into_vector_bytes_loop n i v off src s = inr (tt, Kheap (hp s) m') /\
    vec_ok end_ m' v ps /\ wf_mem m' /\
    (forall j, i <= j < i + Z.of_nat n -> m' (elt v ps (off + j)) = hm s (src + j)) /\
    (forall a, (forall j, i <= j < i + Z.of_nat n -> a <> elt v ps (off + j)) -> m' a = hm s a).
Proof.
  revert i s. induction n as [|n IH]; intros i s Hv Hm Ht Ho Hi Hn Hoff.
  - exists (hm s). destruct s. split_and!; try done. lia.
  - pose proof Hv as [_ _ _ _ [Hu _] _ _]. cbn [memmove_into_vector_bytes_loop].
    rewrite u32_id by word.
    rewrite (bind_run _ _ _ _ _ (setbyte_spec end_ v ps (i + off) (src + i) s Hv Ht ltac:(lia))).
    rewrite (Z.add_comm i off). set (m1 := st8 (hm s) _ _).
    assert (vec_ok end_ m1 v ps) as Hv1.
    { eapply vec_ok_ext; [|exact Hv]. intros q a Hq Ha. unfold m1. rewrite st8_other; [done|].
      destruct (elt_in_page _ _ _ _ (off + i) Hv ltac:(lia)) as (p & Hp & H1 & H2). intros ->.
      apply list_elem_of_lookup_2 in Hp. pose proof (vo_pages _ _ _ _ Hv) as Hval.
      rewrite Forall_forall in Hval. destruct (Z.eq_dec p q) as [->|Hpq]; [lia|].
      destruct (pages_apart end_ p q (Hval p Hp) (Hval q Hq) Hpq); unfold PGSIZE in *; lia. }
    destruct (IH (i + 1) (Kheap (hp s) m1) Hv1) as (m' & E & Hv' & Hm' & H1 & H2); try done; try lia.
    { apply st8_wf, Hm. }
    { intros q Hq. destruct (Hoff q Hq); lia. }
    exists m'. split; [exact E|]. split; [done|]. split; [done|]. simpl in H1, H2.
    assert (forall j, i <= j < i + Z.of_nat (S n) -> m1 (src + j) = hm s (src + j)) as Hsrc.
    { intros j Hj. apply st8_other. eapply (elt_off_pages end_ _ _ _ _ src); [exact Hv|lia|exact Hoff|lia]. }
    split.
    + intros j Hj. destruct (Z.eq_dec j i) as [->|Hji].
      * rewrite H2. { unfold m1. rewrite st8_same. apply u8_id, Hm. }
        intros j Hj' E'. apply (elt_inj end_ (hm s)) in E'; [lia|done|lia|lia].
      * rewrite H1 by lia. apply Hsrc. lia.
    + intros a Ha. rewrite H2 by (intros j Hj; apply Ha; lia). apply st8_other. apply Ha. lia.
Qed.

Lemma from_vector_spec end_ n i v ps off dst s :
  vec_ok end_ (hm s) v ps -> wf_mem (hm s) -> typesize v = 1 -> 0 <= off -> 0 <= i ->
  off + i + Z.of_nat n <= vectorsize v -> off_pages ps dst (i + Z.of_nat n) ->
  exists m', memmove_from_vector_loop n i dst v off s = inr (tt, Kheap (hp s) m') /\ wf_mem m' /\
    (forall j, i <= j < i + Z.of_nat n -> m' (dst + j) = hm s (elt v ps (off + j))) /\
    (forall a, ~ (dst + i <= a < dst + i + Z.of_nat n) -> m' a = hm s a).
Proof.
  revert i s. induction n as [|n IH]; intros i s Hv Hm Ht Ho Hi Hn Hoff.
  - exists (hm s). destruct s. split_and!; try done. lia.
  - pose proof Hv as [_ _ _ _ [Hu _] _ _]. cbn [memmove_from_vector_loop].
    rewrite (u32_id (off + i)) by word.
    rewrite (bind_run _ _ _ _ _ (getelementpointer_spec end_ v ps (off + i) s Hv ltac:(lia))).
    rewrite Ht, Z.mul_1_r, u32_id by word. set (m1 := memmove (hm s) (dst + i) (elt v ps (off + i)) 1).
    rewrite (bind_run _ _ s tt (Kheap (hp s) m1)) by done.
    assert (forall a, m1 a = if in_range a (dst + i) 1 then hm s (elt v ps (off + i)) else hm s a) as Hm1.
    { intros a. unfold m1. rewrite memmove_spec by (done || lia). range_cases; [f_equal; lia|done]. }
    assert (vec_ok end_ m1 v ps) as Hv1.
    { eapply vec_ok_ext; [|exact Hv]. intros q a Hq Ha. rewrite Hm1. range_cases; [|done].
      destruct (Hoff q Hq); unfold PGSIZE in *; lia. }
    destruct (IH (i + 1) (Kheap (hp s) m1) Hv1) as (m' & E & Hm' & H1 & H2); try done; try lia.
    { apply memmove_wf; [lia|done]. }
    { intros q Hq. destruct (Hoff q Hq); lia. }
    exists m'. split; [exact E|]. split; [done|]. simpl in H1, H2. split.
    + intros j Hj. destruct (Z.eq_dec j i) as [->|Hji].
      * rewrite H2 by lia. rewrite Hm1. range_cases; [done|lia].
      * rewrite H1 by lia. rewrite Hm1. range_cases; [|done]. exfalso.
        eapply (elt_off_pages end_ _ v ps (off + j) dst _ (dst + i)); [exact Hv|lia|exact Hoff|lia|lia].
    + intros a Ha. rewrite H2 by lia. rewrite Hm1. range_cases; [lia|done].
Qed.

(** Bytes copied into a byte vector with [memmove_into_vector_bytes] and
    out again with [memmove_from_vector] arrive unchanged, for any length, offset
    and number of pages; this is how the kernel moves file and pipe data. *)
Lemma byte_vector_roundtrip end_ v ps off src dst l s :
  vec_ok end_ (hm s) v ps -> wf_mem (hm s) -> typesize v = 1 -> 0 <= off ->
  off + Z.of_nat (length l) <= vectorsize v -> bytes_at (hm s) src l ->
  off_pages ps src (Z.of_nat (length l)) -> off_pages ps dst (Z.of_nat (length l)) ->
  exists m', (memmove_into_vector_bytes v off src (Z.of_nat (length l)) ;;
              memmove_from_vector dst v off (Z.of_nat (length l))) s = inr (tt, Kheap (hp s) m') /\
    bytes_at m' dst l.
Proof.
  intros Hv Hm Ht Ho Hn Hl Hs Hd. unfold memmove_into_vector_bytes, memmove_from_vector.
  rewrite Nat2Z.id.
  destruct (into_bytes_spec end_ (length l) 0 v ps off src s Hv Hm Ht Ho) as (m1 & E1 & V1 & W1 & H1 & _);
    [lia|lia|by rewrite Z.add_0_l|].
  rewrite (bind_run _ _ _ _ _ E1).
  destruct (from_vector_spec end_ (length l) 0 v ps off dst (Kheap (hp s) m1) V1 W1 Ht Ho)
    as (m2 & E2 & _ & H2 & _); [lia|lia|by rewrite Z.add_0_l|].
  exists m2. split; [exact E2|]. intros i c Hi. pose proof (lookup_lt_Some _ _ _ Hi).
  rewrite H2 by lia. simpl. rewrite H1 by lia. by apply Hl.
Qed.

(** A one-page byte vector of ten elements, for the witnesses. *)
Definition small_heap : kheap :=
  Kheap (Kmem true 0 0 0) (fun a => if in_range a 0x80101000 PGSIZE then 0 else u8 a).
Definition small_vec : vector := Vector 10 1 0x80101000 0x80101000 0 (u32 (-1)) 1.

Lemma small_vec_ok : vec_ok 0x80100000 (hm small_heap) small_vec [0x80101000].
Proof.
  split; try reflexivity.
  - constructor; [reflexivity|]. change (getnext (hm small_heap) 0x80101000) with 0. constructor.
  - constructor; [set_solver|constructor].
  - constructor; [|constructor]. split; [reflexivity|]. unfold KERNBASE, PHYSTOP. lia.
  - split; [unfold is_u32|unfold PGSIZE]; simpl; lia.
Qed.

Lemma small_heap_wf : wf_mem (hm small_heap).
Proof. intros a. simpl. range_cases; [unfold is_byte; lia|apply u8_range]. Qed.

Lemma setelement_getelement_witness :
  exists m', setelement small_vec 3 5 small_heap = inr (1, Kheap (hp small_heap) m') /\
    exists p, getelementpointer small_vec 3 (Kheap (hp small_heap) m') = inr (p, Kheap (hp small_heap) m') /\
      bytes_at m' p [5].
Proof.
  destruct (setelement_getelement 0x80100000 small_vec [0x80101000] 3 5 [5] small_heap)
    as (m' & E & _ & H & _).
  - exact small_vec_ok.
  - exact small_heap_wf.
  - simpl. lia.
  - intros i c Hi. destruct i as [|i]; [injection Hi as <-; reflexivity|discriminate].
  - reflexivity.
  - right. vm_compute. discriminate.
  - exists m'. split; [exact E|exact H].
Defined.

Lemma byte_vector_roundtrip_witness :
  exists m', (memmove_into_vector_bytes small_vec 2 5 3 ;; memmove_from_vector 100 small_vec 2 3)
               small_heap = inr (tt, Kheap (hp small_heap) m') /\ bytes_at m' 100 [5; 6; 7].
Proof.
  apply (byte_vector_roundtrip 0x80100000 small_vec [0x80101000] 2 5 100 [5; 6; 7] small_heap).
  - exact small_vec_ok.
  - exact small_heap_wf.
  - reflexivity.
  - lia.
  - simpl. lia.
  - intros i c Hi. do 3 (destruct i as [|i]; [injection Hi as <-; reflexivity|]). discriminate.
  - intros q Hq%list_elem_of_singleton. subst q. simpl. lia.
  - intros q Hq%list_elem_of_singleton. subst q. simpl. lia.
Defined.

(** ** Copies between vectors *)

Lemma elts_apart end_ m1 m2 v w ps qs i j :
  vec_ok end_ m1 v ps -> vec_ok end_ m2 w qs -> (forall q, q ∈ ps -> q ∉ qs) ->
  0 <= i < vectorsize v -> 0 <= j < vectorsize w ->
  elt v ps i + typesize v <= elt w qs j \/ elt w qs j + typesize w <= elt v ps i.
Proof.
  intros Hv Hw Hd Hi Hj.
  destruct (elt_in_page _ _ _ _ i Hv Hi) as (p & Hp & Hp1 & Hp2).
  destruct (elt_in_page _ _ _ _ j Hw Hj) as (q & Hq & Hq1 & Hq2).
  apply list_elem_of_lookup_2 in Hp, Hq.
  pose proof (vo_pages _ _ _ _ Hv) as Hvp. pose proof (vo_pages _ _ _ _ Hw) as Hwp.
  rewrite Forall_forall in Hvp, Hwp.
  destruct (pages_apart end_ p q (Hvp p Hp) (Hwp q Hq)); [intros ->; by apply (Hd q)|lia|lia].
Qed.

Lemma elt_other_links end_ m1 m2 v w ps qs i q a :
  vec_ok end_ m1 v ps -> vec_ok end_ m2 w qs -> (forall q, q ∈ ps -> q ∉ qs) ->
  0 <= i < vectorsize v -> q ∈ qs -> q <= a < q + 8 -> ~ (elt v ps i <= a < elt v ps i + typesize v).
Proof.
  intros Hv Hw Hd Hi Hq Ha. destruct (elt_in_page _ _ _ _ i Hv Hi) as (p & Hp & Hp1 & Hp2).
  apply list_elem_of_lookup_2 in Hp.
  pose proof (vo_pages _ _ _ _ Hv) as Hvp. pose proof (vo_pages _ _ _ _ Hw) as Hwp.
  rewrite Forall_forall in Hvp, Hwp.
  destruct (pages_apart end_ p q (Hvp p Hp) (Hwp q Hq));
    [intros ->; by apply (Hd q)|unfold PGSIZE in *; lia|unfold PGSIZE in *; lia].
Qed.

Lemma copy_elements_spec end_ n cur d sv pd qs off s :
  vec_ok end_ (hm s) d pd -> vec_ok end_ (hm s) sv qs -> (forall q, q ∈ pd -> q ∉ qs) ->
  wf_mem (hm s) -> typesize sv = typesize d -> 0 <= cur -> 0 <= off ->
  cur + Z.of_nat n <= vectorsize d -> off + cur + Z.of_nat n <= vectorsize sv ->
  exists m', copy_elements_loop n cur d sv off s = inr (tt, Kheap (hp s) m') /\ wf_mem m' /\
    vec_ok end_ m' d pd /\ vec_ok end_ m' sv qs /\
    (forall j b, cur <= j < cur + Z.of_nat n -> 0 <= b < typesize d ->
       m' (elt d pd j + b) = hm s (elt sv qs (off + j) + b)) /\
    (forall a, (forall j, cur <= j < cur + Z.of_nat n -> ~ (elt d pd j <= a < elt d pd j + typesize d)) ->
       m' a = hm s a).
Proof.
  revert cur s. induction n as [|n IH]; intros cur s Hd Hs Hdis Hm Ht Hc Ho Hn1 Hn2.
  - exists (hm s). destruct s. split_and!; try done. lia.
  - pose proof Hs as [_ _ _ _ [Hu _] _ _]. pose proof Hd as [_ _ _ _ [_ Hts] _ _].
    cbn [copy_elements_loop]. rewrite u32_id by word.
    rewrite (bind_run _ _ _ _ _ (getelementpointer_spec end_ sv qs (off + cur) s Hs ltac:(lia))).
    rewrite (bind_run _ _ _ _ _ (setelement_spec end_ d pd cur (elt sv qs (off + cur)) s Hd ltac:(lia))).
    set (m1 := memmove_up _ _ _ _).
    assert (elt d pd cur + typesize d <= elt sv qs (off + cur) \/
            elt sv qs (off + cur) + typesize d <= elt d pd cur) as Hap.
    { rewrite <- Ht at 2. eapply elts_apart; try done; lia. }
    assert (forall a, m1 a = if in_range a (elt d pd cur) (typesize d)
                             then hm s (a - elt d pd cur + elt sv qs (off + cur)) else hm s a) as Hm1.
    { intros a. unfold m1. rewrite memmove_up_spec by (done || lia). by rewrite Z2Nat.id by lia. }
    assert (vec_ok end_ m1 d pd) as Hd1 by (apply (setelement_frame end_); (done || lia)).
    assert (vec_ok end_ m1 sv qs) as Hs1.
    { eapply vec_ok_ext; [|exact Hs]. intros q a Hq Ha. rewrite Hm1. range_cases; [|done]. exfalso.
      eapply (elt_other_links end_ _ _ d sv pd qs cur); try done; lia. }
    destruct (IH (cur + 1) (Kheap (hp s) m1) Hd1 Hs1) as (m' & E & Hm' & Hd' & Hs' & H1 & H2); try done; try lia.
    { intros a. rewrite Hm1. range_cases; apply Hm. }
    exists m'. split; [exact E|]. split; [done|]. split; [done|]. split; [done|]. simpl in H1, H2. split.
    + intros j b Hj Hb. destruct (Z.eq_dec j cur) as [->|Hjc].
      * rewrite H2. { rewrite Hm1. range_cases; [f_equal; lia|lia]. }
        intros k Hk. destruct (elt_apart _ _ _ _ cur k Hd ltac:(lia) ltac:(lia) ltac:(lia)); lia.
      * rewrite H1 by lia. rewrite Hm1. range_cases; [|done].
        destruct (elts_apart end_ _ _ d sv pd qs cur (off + j) Hd Hs Hdis); lia.
    + intros a Ha. rewrite H2 by (intros j Hj; apply Ha; lia). rewrite Hm1.
      range_cases; [|done]. exfalso. apply (Ha cur); lia.
Qed.

(** [copysubvector] between vectors of the same element size on distinct
    pages returns 1 and shrinks the destination to [count] elements, each of them
    byte for byte the source element [srcoffset] positions further on; it returns
    0 and changes nothing when a descriptor is missing or invalid or the
    destination is too small. *)
Lemma copysubvector_correct end_ d sv pd qs off count s :
  vec_ok end_ (hm s) d pd -> vec_ok end_ (hm s) sv qs -> (forall q, q ∈ pd -> q ∉ qs) ->
  wf_mem (hm s) -> typesize sv = typesize d -> 0 <= off -> 0 <= count ->
  (vectorsize d < count -> copysubvector (Some d) (Some sv) off count s = inr ((0, Some d), s)) /\
  copysubvector None (Some sv) off count s = inr ((0, None), s) /\
  (count <= vectorsize d -> off + count <= vectorsize sv ->
   exists d' m', copysubvector (Some d) (Some sv) off count s = inr ((1, Some d'), Kheap (hp s) m') /\
     vectorsize d' = count /\
     forall j, 0 <= j < count -> forall b, 0 <= b < typesize d ->
       m' (elt d' pd j + b) = hm s (elt sv qs (off + j) + b)).
Proof.
  intros Hd Hs Hdis Hm Ht Ho Hc. split; [|split; [done|]].
  - intros Hlt. unfold copysubvector. rewrite (vo_valid _ _ _ _ Hd), (vo_valid _ _ _ _ Hs).
    simpl. destruct (Z.ltb_spec (vectorsize d) count); [done|lia].
  - intros H1 H2.
    destruct (copy_elements_spec end_ (Z.to_nat count) 0 d sv pd qs off s Hd Hs Hdis Hm Ht)
      as (m' & E & _ & _ & _ & H & _); try lia.
    unfold copysubvector. rewrite (vo_valid _ _ _ _ Hd), (vo_valid _ _ _ _ Hs).
    cbn [Z.eqb]. destruct (Z.ltb_spec (vectorsize d) count); [lia|].
    rewrite (bind_run _ _ _ _ _ E). eexists _, m'. split; [done|]. split; [done|].
    intros j Hj b Hb. apply H; lia.
Qed.

(** A second vector on a page of its own, for the witnesses. *)
Definition other_heap : kheap :=
  Kheap (Kmem true 0 0 0) (fun a => if in_range a 0x80101000 8 || in_range a 0x80102000 8 then 0 else u8 a).
Definition other_vec : vector := Vector 6 1 0x80102000 0x80102000 0 (u32 (-1)) 1.

Lemma other_vecs_ok :
  vec_ok 0x80100000 (hm other_heap) small_vec [0x80101000] /\
  vec_ok 0x80100000 (hm other_heap) other_vec [0x80102000].
Proof.
  split; (split; try reflexivity;
    [constructor; [reflexivity|];
     match goal with |- vchain _ _ ?n _ => let x := eval vm_compute in n in change n with x end; constructor
    |constructor; [set_solver|constructor]
    |constructor; [split; [reflexivity|unfold KERNBASE, PHYSTOP; lia]|constructor]
    |split; [unfold is_u32|unfold PGSIZE]; simpl; lia]).
Qed.

Lemma other_heap_wf : wf_mem (hm other_heap).
Proof. intros a. simpl. destruct (_ || _); [unfold is_byte; lia|apply u8_range]. Qed.

Lemma copysubvector_correct_witness :
  exists d' m', copysubvector (Some other_vec) (Some small_vec) 4 5 other_heap
                  = inr ((1, Some d'), Kheap (hp other_heap) m') /\ vectorsize d' = 5.
Proof.
  destruct (copysubvector_correct 0x80100000 other_vec small_vec [0x80102000] [0x80101000] 4 5 other_heap)
    as (_ & _ & H).
  - apply other_vecs_ok.
  - apply other_vecs_ok.
  - set_solver.
  - exact other_heap_wf.
  - reflexivity.
  - lia.
  - lia.
  - destruct H as (d' & m' & E & Hd & _); [simpl; lia|simpl; lia|].
    exists d', m'. split; [exact E|exact Hd].
Defined.

(** [slicevector] builds the slice but returns the vector it was given, so
    the pages of the slice are lost. *)
Lemma slicevector_returns_original end_ h0 t0 v ps from to s l :
  vec_ok end_ (hm s) v ps -> kinv end_ s l -> NoDup (ps ++ l) ->
  0 <= from < to -> to <= vectorsize v -> 0 <= page_protect (hp s) ->
  needed (to - from) (typesize v) <= page_cnt (hp s) - page_protect (hp s) ->
  exists s', slicevector h0 t0 v from to s = inr (v, s') /\
    page_cnt (hp s') = page_cnt (hp s) - needed (to - from) (typesize v).
Proof.
  intros Hv Hi Hnd Hft Hto Hpp Hav. pose proof Hv as [_ _ _ _ [Hu Hts] _ _].
  pose proof (needed_pos (to - from) (typesize v) ltac:(lia) Hts) as Hn.
  destruct (newvector_run end_ h0 t0 (to - from) (typesize v) s l Hi) as
    (s1 & h & t & E & B & I & O & _ & _); [lia|word|done|].
  rewrite Z.min_l in * by lia. set (k := Z.to_nat (needed (to - from) (typesize v))) in *.
  pose proof Hi as (Hc0 & Hndl & Hcnt & _). pose proof I as (_ & _ & Hcnt1 & Hwf1).
  destruct (Z.leb_spec (needed (to - from) (typesize v)) (page_cnt (hp s) - page_protect (hp s))); [|lia].
  unfold slicevector. rewrite u32_id by word. rewrite (bind_run _ _ _ _ _ E).
  assert (take k l <> []) as Hne.
  { intros E0. apply (f_equal length) in E0. rewrite length_take in E0. simpl in E0. lia. }
  assert (vec_ok end_ (hm s1) (Vector (to - from) (typesize v) h t 0 (u32 (-1)) 1) (take k l)) as Hr.
  { split; try done; [by apply B|by apply B| |by apply B|split; [simpl; word|done]|].
    - rewrite <- (take_drop k l) in Hndl. by apply NoDup_app in Hndl as (? & _).
    - rewrite length_take. cbn [vectorsize typesize]. lia. }
  apply NoDup_app in Hnd as (_ & Hdis & _).
  assert (forall q, q ∈ take k l -> q ∉ ps) as Hdis'.
  { intros q Hq Hp. apply (Hdis q Hp). by apply subseteq_take in Hq. }
  assert (vec_ok end_ (hm s1) v ps) as Hv1.
  { eapply vec_ok_ext; [|exact Hv]. intros q a Hq Ha. symmetry. apply O. intros p Hp.
    pose proof (b_pages _ _ _ _ _ B) as Hpv. pose proof (vo_pages _ _ _ _ Hv) as Hqv.
    rewrite Forall_forall in Hpv, Hqv. destruct (pages_apart end_ p q (Hpv p Hp) (Hqv q Hq));
      [intros ->; by apply (Hdis' q)|unfold PGSIZE in *; lia|unfold PGSIZE in *; lia]. }
  destruct (copy_elements_spec end_ (Z.to_nat (to - from)) 0 _ v (take k l) ps from s1 Hr Hv1 Hdis' Hwf1)
    as (m' & E2 & _); try done; try (cbn [vectorsize]; lia).
  rewrite (bind_run _ _ _ _ _ E2). eexists. split; [done|]. simpl. rewrite Hcnt1, length_drop. lia.
Qed.

(** [other_vec]'s page next to the two free pages of [two_pages]. *)
Definition slice_heap : kheap :=
  Kheap (hp two_pages) (fun a => if in_range a 0x80102000 8 then 0 else hm two_pages a).

Lemma slicevector_returns_original_witness :
  exists s', slicevector 7 7 other_vec 1 4 slice_heap = inr (other_vec, s') /\ page_cnt (hp s') = 2 - 1.
Proof.
  destruct two_pages_inv as (l & Hi & _ & _ & _ & _).
  assert (free_chain 0x80100000 (hm two_pages) (freelist (hp two_pages)) [0x80101000; 0x80100000] /\
          wf_mem (hm two_pages)) as [Hc Hw].
  { destruct Hi as (Hc & _ & Hcnt & Hw). split; [|exact Hw]. simpl in Hc.
    inversion Hc as [|v1 l1 Hv1 Hf1 Hc1]; subst. simpl in Hcnt.
    change (ld32 (hm two_pages) 0x80101000) with 0x80100000 in Hc1.
    inversion Hc1 as [|v2 l2 Hv2 Hf2 Hc2]; subst.
    change (ld32 (hm two_pages) 0x80100000) with 0 in Hc2.
    apply chain_head in Hc2 as Hh. destruct l2; [exact Hc|destruct Hh as [_ Hh]; done]. }
  destruct (slicevector_returns_original 0x80100000 7 7 other_vec [0x80102000] 1 4 slice_heap
              [0x80101000; 0x80100000]) as (s' & E & Hp).
  - split; try reflexivity.
    + constructor; [reflexivity|].
      change (getnext (hm slice_heap) 0x80102000) with 0. constructor.
    + constructor; [set_solver|constructor].
    + constructor; [split; [reflexivity|unfold KERNBASE, PHYSTOP; lia]|constructor].
    + split; [unfold is_u32|unfold PGSIZE]; simpl; lia.
  - split; [|split; [|split; [reflexivity|]]].
    + eapply chain_ext; [|exact Hc]. intros w a Hw' Ha. simpl.
      destruct (in_range a 0x80102000 8) eqn:E; [|done]. apply in_range_true in E.
      unfold PGSIZE in Ha. set_unfold in Hw'. destruct Hw' as [->|[->|[]]]; lia.
    + constructor; [set_solver|]. constructor; [set_solver|constructor].
    + intros a. simpl. destruct (in_range a 0x80102000 8); [unfold is_byte; lia|apply Hw].
  - constructor; [set_solver|]. constructor; [set_solver|]. constructor; [set_solver|constructor].
  - lia.
  - simpl. lia.
  - simpl. lia.
  - vm_compute. discriminate.
  - exists s'. split; [exact E|exact Hp].
Defined.

Lemma vectormemcmp_loop_zero end_ n i v ps p left s :
  vec_ok end_ (hm s) v ps -> 0 <= i -> i + Z.of_nat n <= vectorsize v ->
  vectormemcmp_loop n i v p left s = inr (0, s).
Proof.
  intros Hv. revert i left. induction n as [|n IH]; intros i left Hi Hn; [done|].
  cbn [vectormemcmp_loop]. destruct (0 <? left); [|done].
  rewrite (bind_run _ _ _ _ _ (getelementpointer_spec end_ v ps i s Hv ltac:(lia))). mrun.
  destruct (Z.eqb_spec (memcmp (hm s) (p + (i *u typesize v)) (elt v ps i)
    (if left <? typesize v then left else typesize v)) 0) as [->|]; [done|].
  apply IH; lia.
Qed.

(** [vectormemcmp] returns 0 ("equal") for every well-formed vector, every
    memory region and every length, whatever the bytes are: its loop leaves on
    the first element that compares equal and otherwise falls through to 0. *)
Lemma vectormemcmp_always_equal end_ v ps p bytes s :
  vec_ok end_ (hm s) v ps -> vectormemcmp v p bytes s = inr (0, s).
Proof.
  intros Hv. pose proof Hv as [_ _ _ _ [Hu _] _ _]. unfold is_u32 in Hu.
  eapply vectormemcmp_loop_zero; [exact Hv|lia|lia].
Qed.

Lemma vectormemcmp_always_equal_witness :
  hm small_heap (elt small_vec [0x80101000] 0) <> hm small_heap 5 /\
  vectormemcmp small_vec 5 10 small_heap = inr (0, small_heap).
Proof.
  split; [vm_compute; discriminate|].
  apply (vectormemcmp_always_equal 0x80100000 small_vec [0x80101000] 5 10 small_heap).
  exact small_vec_ok.
Defined.

(** A vector of no elements is reported valid but its head is whatever the
    stack held; freeing it makes [kfree] panic unless that garbage happens to be
    NULL or a page address. *)
Lemma newvector_empty_garbage end_ h0 t0 ts fuel s :
  1 <= ts <= PGSIZE - 8 -> is_u32 h0 -> h0 <> 0 -> ~ valid_page end_ h0 ->
  exists v, newvector h0 t0 0 ts s = inr (v, s) /\ valid v = 1 /\ vhead v = h0 /\
    freevector end_ (S fuel) v s = inl (Panic "kfree").
Proof.
  intros Hts Hu Hne Hnv. exists (Vector 0 ts h0 t0 0 (u32 (-1)) 1). split; [|split; [done|split; [done|]]].
  - unfold newvector, constructarray. change (2 * 4) with 8.
    destruct (Z.ltb_spec (PGSIZE - 8) ts); [lia|]. destruct (Z.eqb_spec ts 0); [lia|].
    rewrite Z.div_0_l, Z.mod_0_l by (pose proof (perpage_pos ts Hts); unfold perpage in *; lia). done.
  - unfold freevector. cbn [vhead freevector_loop]. destruct (Z.eqb_spec h0 0); [done|]. cbn [negb]. mrun.
    unfold kfree. destruct (_ || _) eqn:E; [done|]. by apply kfree_guard in E.
Qed.

Lemma newvector_empty_garbage_witness :
  exists v, newvector 0xdeadbeef 0 0 1 small_heap = inr (v, small_heap) /\ valid v = 1 /\
    vhead v = 0xdeadbeef /\ freevector 0x80100000 8 v small_heap = inl (Panic "kfree").
Proof.
  apply (newvector_empty_garbage 0x80100000 0xdeadbeef 0 1 7 small_heap).
  - unfold PGSIZE. lia.
  - unfold is_u32. lia.
  - lia.
  - intros (H & _). discriminate H.
Defined.
