(* ===== verification/Pipe.v ===== *)
(** * Pipes, kernel/pipe.c

    A pipe is a ring of 512 bytes with two free-running 32-bit counters.
    [pipewrite] and [piperead] hold the pipe's lock from one sleep to the next, so
    each is modelled by the code it runs between taking the lock and either
    returning or going to sleep; a system of threads runs these pieces in any
    order.  What [piperead] stores its bytes into is known to it only through the
    interface [ByteSink]; [kernel/kvector.c] implements it. *)

From S2P Require Import Prelude Kstring Kalloc KVector.

Definition PIPESIZE : Z := 512.

Record pipe := Pipe {
  data : list Z;
  nread : Z;
  nwrite : Z;
  readopen : bool;
  writeopen : bool
}.

(** [p->data[p->nwrite++ % PIPESIZE] = b] *)
Definition pipe_put (p : pipe) (b : Z) : pipe :=
  Pipe (<[Z.to_nat (nwrite p mod PIPESIZE) := b]> (data p)) (nread p) (nwrite p +u 1)
       (readopen p) (writeopen p).

(** [current_read = p->data[p->nread++ % PIPESIZE]] *)
Definition pipe_get (p : pipe) : Z * pipe :=
  (data p !!! Z.to_nat (nread p mod PIPESIZE),
   Pipe (data p) (nread p +u 1) (nwrite p) (readopen p) (writeopen p)).

(** How a run of [pipewrite] under the lock ends. *)
Inductive wres :=
| WDone (n : Z)               (* wakeup(&p->nread), return n *)
| WErr                        (* return -1 *)
| WSleep (i : Z) (rest : list Z).  (* wakeup(&p->nread), sleep(&p->nwrite) *)

(** From the test of the inner loop for byte [i] on; [rest] are the bytes from [addr + i]. *)
Fixpoint pipewrite (killed : bool) (p : pipe) (i : Z) (rest : list Z) : pipe * wres :=
  match rest with
  | [] => (p, WDone i)
  | b :: rest' =>
      if nwrite p =? nread p +u PIPESIZE then
        if negb (readopen p) || killed then (p, WErr) else (p, WSleep i rest)
      else pipewrite killed (pipe_put p b) (i + 1) rest'
  end.

Inductive rres := RDone (i : Z) | RErr | RSleep.

Section piperead.
Context {V : Type} `{ByteSink V}.

(** The copy loop; [n] bytes are still wanted. *)
Fixpoint piperead_copy (p : pipe) (i : Z) (n : nat) (v : V) : pipe * Z * V :=
  match n with
  | O => (p, i, v)
  | S n =>
      if nread p =? nwrite p then (p, i, v)
      else let '(current_read, p) := pipe_get p in
           piperead_copy p (i + 1) n (sink_put v i current_read)
  end.

Definition piperead (killed : bool) (p : pipe) (n : Z) (v : V) : pipe * rres * V :=
  if (nread p =? nwrite p) && writeopen p then
    if killed then (p, RErr, v) else (p, RSleep, v)
  else let '(p, i, v) := piperead_copy p 0 (Z.to_nat n) v in (p, RDone i, v).
End piperead.

(** [pipeclose] without the allocator: the new pipe and whether its page is freed. *)
Definition pipeclose (p : pipe) (writable : bool) : pipe * bool :=
  let p := if writable then Pipe (data p) (nread p) (nwrite p) (readopen p) false
           else Pipe (data p) (nread p) (nwrite p) false (writeopen p) in
  (p, negb (readopen p) && negb (writeopen p)).

(** The fields [pipealloc] sets on the fresh page. *)
Definition pipe_init (garbage : list Z) : pipe := Pipe garbage 0 0 true true.

(** ** The ring as a queue *)

Definition pipe_count (p : pipe) : Z := nwrite p -u nread p.

Definition queue (p : pipe) : list Z :=
  (fun k => data p !!! Z.to_nat ((nread p + k) mod PIPESIZE)) <$> seqZ 0 (pipe_count p).

Record pipe_ok (p : pipe) : Prop := {
  po_len : length (data p) = Z.to_nat PIPESIZE;
  po_nr : is_u32 (nread p);
  po_nw : is_u32 (nwrite p);
  po_bytes : Forall is_byte (data p);
  po_count : 0 <= pipe_count p <= PIPESIZE
}.

Lemma queue_length p : pipe_ok p -> Z.of_nat (length (queue p)) = pipe_count p.
Proof. intros [_ _ _ _ Hc]. unfold queue. rewrite length_fmap, length_seqZ. lia. Qed.

Lemma full_spec p : pipe_ok p -> (nwrite p =? nread p +u PIPESIZE) = true <-> pipe_count p = PIPESIZE.
Proof.
  intros [_ Hr Hw _ Hc]. rewrite Z.eqb_eq. unfold pipe_count, PIPESIZE, u32, is_u32 in *.
  Z.div_mod_to_equations. lia.
Qed.

Lemma empty_spec p : pipe_ok p -> (nread p =? nwrite p) = true <-> pipe_count p = 0.
Proof.
  intros [_ Hr Hw _ Hc]. rewrite Z.eqb_eq. unfold pipe_count, PIPESIZE, u32, is_u32 in *.
  Z.div_mod_to_equations. lia.
Qed.

Lemma u32_mod512 z : u32 z mod PIPESIZE = z mod PIPESIZE.
Proof.
  unfold u32, PIPESIZE. change (2 ^ 32) with (512 * 8388608).
  rewrite Z.rem_mul_r by lia. rewrite Z.mul_comm, Z.mod_add, Z.mod_mod by lia. done.
Qed.

Lemma pipe_put_spec p b : pipe_ok p -> is_byte b -> pipe_count p < PIPESIZE ->
  pipe_ok (pipe_put p b) /\ queue (pipe_put p b) = queue p ++ [b].
Proof.
  intros Hp Hbyte Hlt. pose proof Hp as [Hl Hr Hw Hb Hc].
  assert (pipe_count (pipe_put p b) = pipe_count p + 1) as Ec.
  { unfold pipe_count in *. simpl. rewrite u32_sub_l.
    replace (nwrite p + 1 - nread p) with (nwrite p - nread p + 1) by lia.
    rewrite <- u32_add_l. apply u32_id. unfold PIPESIZE in *. word. }
  split.
  { split; [simpl; by rewrite length_insert|done|apply u32_range|by apply Forall_insert|rewrite Ec; lia]. }
  unfold queue. rewrite Ec, seqZ_app by lia. rewrite fmap_app. simpl. f_equal.
  - apply list_fmap_ext. intros i k Hk. apply lookup_seqZ in Hk as [-> Hk]. unfold pipe_put. simpl.
    rewrite list_lookup_total_insert_ne; [done|].
    unfold pipe_count, u32, is_u32, PIPESIZE in *. Z.div_mod_to_equations. lia.
  - unfold seqZ. simpl. f_equal. unfold pipe_put. simpl.
    replace (nread p + _) with (nread p + pipe_count p) by lia.
    replace ((nread p + pipe_count p) mod PIPESIZE) with (nwrite p mod PIPESIZE).
    + apply list_lookup_total_insert_eq. rewrite Hl. apply Z2Nat.inj_lt; try apply Z.mod_pos_bound; unfold PIPESIZE; lia.
    + unfold pipe_count. rewrite <- (u32_mod512 (_ + _)), u32_add_r, u32_mod512. f_equal. lia.
Qed.

Lemma pipe_get_spec p : pipe_ok p -> 0 < pipe_count p ->
  pipe_ok (pipe_get p).2 /\ queue p = (pipe_get p).1 :: queue (pipe_get p).2.
Proof.
  intros Hp Hlt. pose proof Hp as [Hl Hr Hw Hb Hc].
  assert (pipe_count (pipe_get p).2 = pipe_count p - 1) as Ec.
  { unfold pipe_count in *. simpl. rewrite u32_sub_r.
    replace (nwrite p - (nread p + 1)) with (nwrite p - nread p + - (1)) by lia.
    rewrite <- u32_add_l. rewrite u32_id; [lia|]. unfold PIPESIZE in *. word. }
  split.
  { split; [done|apply u32_range|done|done|rewrite Ec; lia]. }
  unfold queue. rewrite Ec. rewrite seqZ_cons by lia. simpl. f_equal.
  - by rewrite Z.add_0_r.
  - replace (seqZ _ (Z.pred (pipe_count p))) with (Z.add 1 <$> seqZ 0 (pipe_count p - 1))
      by (rewrite fmap_add_seqZ; f_equal; lia).
    rewrite <- list_fmap_compose. apply list_fmap_ext. intros i k _. simpl. do 2 f_equal.
    rewrite <- (Zplus_mod_idemp_l (u32 _)), u32_mod512, Zplus_mod_idemp_l. f_equal. lia.
Qed.

Lemma pipe_get_byte p : pipe_ok p -> is_byte (pipe_get p).1.
Proof.
  intros [Hl _ _ Hb _]. simpl. rewrite Forall_lookup in Hb. eapply Hb.
  apply list_lookup_lookup_total_lt. rewrite Hl.
  apply Z2Nat.inj_lt; try apply Z.mod_pos_bound; unfold PIPESIZE; lia.
Qed.

(** ** One run of a writer and of a reader *)

Definition same_ends (p p' : pipe) : Prop := readopen p' = readopen p /\ writeopen p' = writeopen p.

Lemma pipewrite_spec killed rest p i p' r :
  pipe_ok p -> Forall is_byte rest -> pipewrite killed p i rest = (p', r) ->
  pipe_ok p' /\ same_ends p p' /\ exists acc todo, rest = acc ++ todo /\ queue p' = queue p ++ acc /\
  match r with
  | WDone n => n = i + Z.of_nat (length rest) /\ todo = []
  | WErr => pipe_count p' = PIPESIZE /\ todo <> [] /\ (readopen p = false \/ killed = true)
  | WSleep j t => j = i + Z.of_nat (length acc) /\ t = todo /\ todo <> [] /\
                  pipe_count p' = PIPESIZE /\ readopen p = true /\ killed = false
  end.
Proof.
  revert p i. induction rest as [|b rest IH]; intros p i Hp Hb E; simpl in E.
  - injection E as <- <-. split; [done|]. split; [done|]. exists [], [].
    rewrite (app_nil_r (queue p)). split_and!; try done. simpl. lia.
  - apply Forall_cons in Hb as [Hb Hr]. destruct (nwrite p =? nread p +u PIPESIZE) eqn:Ef.
    + apply full_spec in Ef; [|done].
      destruct (readopen p) eqn:Ero, killed; simpl in E; injection E as <- <-;
        (split; [done|]; split; [done|]; exists [], (b :: rest); rewrite (app_nil_r (queue p));
         split_and!; try done; try (by left); try (by right); simpl; lia).
    + assert (pipe_count p < PIPESIZE) as Hlt.
      { pose proof (po_count p Hp). destruct (Z.eq_dec (pipe_count p) PIPESIZE) as [E0|]; [|lia].
        apply full_spec in E0; [congruence|done]. }
      destruct (pipe_put_spec p b Hp Hb Hlt) as [Hp1 Hq1].
      destruct (IH _ _ Hp1 Hr E) as (Hp' & Hse & acc & todo & -> & Hq & Hm).
      split; [done|]. split; [exact Hse|]. exists (b :: acc), todo.
      split; [done|]. split; [rewrite Hq, Hq1, <- app_assoc; done|].
      destruct r; simpl in *; naive_solver lia.
Qed.

Section reader.
Context {V : Type} `{ByteSink V}.

Lemma piperead_copy_spec n p i v p' i' v' :
  pipe_ok p -> sink_ok v -> 0 <= i -> i + Z.of_nat n <= sink_cap v ->
  piperead_copy p i n v = (p', i', v') ->
  pipe_ok p' /\ same_ends p p' /\ sink_ok v' /\ sink_cap v' = sink_cap v /\
  exists got, queue p = got ++ queue p' /\ i' = i + Z.of_nat (length got) /\
    (length got = n `min` length (queue p))%nat /\
    (forall k b, got !! k = Some b -> sink_get v' (i + Z.of_nat k) = b) /\
    (forall j, 0 <= j < i -> sink_get v' j = sink_get v j).
Proof.
  revert p i v. induction n as [|n IH]; intros p i v Hp Hv Hi Hn E; cbn [piperead_copy] in E.
  - injection E as <- <- <-. split_and!; try done. exists [].
    split_and!; try done; try (intros k b Hk; by rewrite lookup_nil in Hk); simpl; lia.
  - destruct (nread p =? nwrite p) eqn:Ee.
    + apply empty_spec in Ee; [|done]. injection E as <- <- <-. split_and!; try done.
      exists []. pose proof (queue_length p Hp).
      split_and!; try done; try (intros k b Hk; by rewrite lookup_nil in Hk); cbn [length]; lia.
    + assert (0 < pipe_count p) as Hlt.
      { pose proof (po_count p Hp). destruct (Z.eq_dec (pipe_count p) 0) as [E0|]; [|lia].
        apply empty_spec in E0; [congruence|done]. }
      destruct (pipe_get_spec p Hp Hlt) as [Hp1 Hq1]. pose proof (pipe_get_byte p Hp) as Hb.
      destruct (pipe_get p) as [b p1] eqn:Eg. simpl in Hp1, Hq1, Hb.
      assert (same_ends p p1) as Hse1 by (unfold pipe_get in Eg; by injection Eg as <- <-).
      destruct (IH p1 (i + 1) (sink_put v i b)) as (Hp' & Hse & Hv' & Hcap & got & Hq & Hi' & Hl & Hg & Hold);
        try done; try lia.
      { apply sink_put_ok; (done || lia). }
      { rewrite sink_put_cap. lia. }
      split; [done|]. split; [destruct Hse, Hse1; split; congruence|]. split; [done|].
      split; [by rewrite Hcap, sink_put_cap|].
      exists (b :: got). rewrite Hq1, Hq. split; [done|]. rewrite Hq in Hl. simpl length. split; [lia|].
      split; [simpl; lia|]. split.
      * intros [|k] c Hk; simpl in Hk.
        -- injection Hk as <-. rewrite Z.add_0_r, Hold by lia. apply sink_get_put; (done || lia).
        -- rewrite <- (Hg k c Hk). f_equal. lia.
      * intros j Hj. rewrite Hold by lia. apply sink_get_put_ne; (done || lia).
Qed.

Lemma piperead_spec killed p n v p' r v' :
  pipe_ok p -> sink_ok v -> 0 <= n <= sink_cap v -> piperead killed p n v = (p', r, v') ->
  pipe_ok p' /\ same_ends p p' /\
  match r with
  | RDone i => (queue p <> [] \/ writeopen p = false) /\ exists got, queue p = got ++ queue p' /\
      i = Z.of_nat (length got) /\ i = Z.min n (pipe_count p) /\
      forall k b, got !! k = Some b -> sink_get v' (Z.of_nat k) = b
  | RErr => p' = p /\ killed = true
  | RSleep => p' = p /\ queue p = [] /\ writeopen p = true /\ killed = false
  end.
Proof.
  intros Hp Hv Hn E. unfold piperead in E.
  pose proof (queue_length p Hp) as Hlen.
  destruct (nread p =? nwrite p) eqn:Ee; simpl in E.
  - apply empty_spec in Ee; [|done]. assert (queue p = []) as Eq by (apply nil_length_inv; lia).
    destruct (writeopen p) eqn:Ew; [destruct killed; injection E as <- <- <-; done|].
    destruct (piperead_copy p 0 (Z.to_nat n) v) as [[p1 i1] v1] eqn:Ec. injection E as <- <- <-.
    apply piperead_copy_spec in Ec as (H1 & H2 & _ & _ & got & H3 & H4 & H5 & H6 & _); try done; try lia.
    split; [done|]. split; [done|]. split; [by right|]. exists got. split; [done|]. split; [lia|]. split; [lia|].
    intros k b Hk. by apply H6.
  - assert (pipe_count p <> 0) as Hne by (intros E0; apply empty_spec in E0; [congruence|done]).
    destruct (piperead_copy p 0 (Z.to_nat n) v) as [[p1 i1] v1] eqn:Ec. injection E as <- <- <-.
    apply piperead_copy_spec in Ec as (H1 & H2 & _ & _ & got & H3 & H4 & H5 & H6 & _); try done; try lia.
    split; [done|]. split; [done|]. split; [left; intros E0; rewrite E0 in Hlen; simpl in Hlen; lia|].
    exists got. split; [done|]. split; [lia|]. split; [lia|]. intros k b Hk. by apply H6.
Qed.
End reader.

(** ** Threads sharing a pipe *)

Inductive thread :=
| TWriter (i : Z) (rest : list Z) (asleep : bool)
| TReader (n : Z) (asleep : bool)
| TDone.

(** [written] and [got] record all bytes accepted and delivered so far;
    [aborted] that some writer returned -1. *)
Record psys := Psys {
  ps_pipe : pipe;
  ps_threads : list thread;
  written : list Z;
  got : list Z;
  aborted : bool
}.

(** [wakeup(&p->nread)] and [wakeup(&p->nwrite)]. *)
Definition wake_readers (ts : list thread) : list thread :=
  (fun t => match t with TReader n _ => TReader n false | _ => t end) <$> ts.
Definition wake_writers (ts : list thread) : list thread :=
  (fun t => match t with TWriter i r _ => TWriter i r false | _ => t end) <$> ts.

Section system.
Context {V : Type} `{ByteSink V}.

Inductive pstep : psys -> psys -> Prop :=
| ps_start s t : match t with
                 | TWriter i rest a => i = 0 /\ a = false /\ Forall is_byte rest
                 | TReader n a => 0 <= n /\ a = false
                 | TDone => False
                 end ->
    pstep s (Psys (ps_pipe s) (ps_threads s ++ [t]) (written s) (got s) (aborted s))
| ps_write s k killed i rest p' r :
    ps_threads s !! k = Some (TWriter i rest false) ->
    pipewrite killed (ps_pipe s) i rest = (p', r) ->
    pstep s (Psys p'
      (match r with
       | WDone _ => <[k := TDone]> (wake_readers (ps_threads s))
       | WErr => <[k := TDone]> (ps_threads s)
       | WSleep j t => <[k := TWriter j t true]> (wake_readers (ps_threads s))
       end)
      (written s ++ take (Z.to_nat (nwrite p' -u nwrite (ps_pipe s))) rest)
      (got s)
      (aborted s || match r with WErr => true | _ => false end))
| ps_read s k killed n v p' r v' :
    ps_threads s !! k = Some (TReader n false) -> sink_ok v -> n <= sink_cap v ->
    piperead killed (ps_pipe s) n v = (p', r, v') ->
    pstep s (Psys p'
      (match r with
       | RDone _ => <[k := TDone]> (wake_writers (ps_threads s))
       | RErr => <[k := TDone]> (ps_threads s)
       | RSleep => <[k := TReader n true]> (ps_threads s)
       end)
      (written s)
      (got s ++ match r with RDone i => sink_get v' <$> seqZ 0 i | _ => [] end)
      (aborted s))
| ps_close s writable :
    pstep s (Psys (pipeclose (ps_pipe s) writable).1
      (if writable then wake_readers (ps_threads s) else wake_writers (ps_threads s))
      (written s) (got s) (aborted s))
| ps_kill s k i rest a : ps_threads s !! k = Some (TWriter i rest a) ->
    pstep s (Psys (ps_pipe s) (<[k := TWriter i rest false]> (ps_threads s)) (written s) (got s) (aborted s))
| ps_kill_reader s k n a : ps_threads s !! k = Some (TReader n a) ->
    pstep s (Psys (ps_pipe s) (<[k := TReader n false]> (ps_threads s)) (written s) (got s) (aborted s)).

(** A thread sleeps only while what it waits for has not happened. *)
Definition thread_ok (p : pipe) (ab : bool) (t : thread) : Prop :=
  match t with
  | TWriter _ rest a => Forall is_byte rest /\
      (a = true -> pipe_count p = PIPESIZE /\ readopen p = true)
  | TReader n a => 0 <= n /\ (a = true -> ab = true \/ queue p = [] /\ writeopen p = true)
  | TDone => True
  end.

Definition psys_ok (s : psys) : Prop :=
  pipe_ok (ps_pipe s) /\ written s = got s ++ queue (ps_pipe s) /\
  Forall (thread_ok (ps_pipe s) (aborted s)) (ps_threads s).

Lemma count_diff p p' acc : pipe_ok p -> pipe_ok p' -> nread p' = nread p ->
  queue p' = queue p ++ acc -> Z.to_nat (nwrite p' -u nwrite p) = length acc.
Proof.
  intros Hp Hp' En Eq. pose proof (queue_length p Hp) as H1. pose proof (queue_length p' Hp') as H2.
  rewrite Eq, length_app in H2. pose proof (po_count p Hp). pose proof (po_count p' Hp').
  destruct Hp as [_ Hr Hw _ _], Hp' as [_ Hr' Hw' _ _].
  unfold pipe_count, u32, is_u32, PIPESIZE in *. rewrite En in *. Z.div_mod_to_equations. lia.
Qed.

Lemma pipewrite_nread killed rest p i : nread (pipewrite killed p i rest).1 = nread p.
Proof.
  revert p i. induction rest as [|b rest IH]; intros p i; simpl; [done|].
  destruct (_ =? _); [destruct (_ || _); done|]. rewrite IH. done.
Qed.

Lemma sink_seq got (f : Z -> Z) :
  (forall (k : nat) b, got !! k = Some b -> f (Z.of_nat k) = b) ->
  f <$> seqZ 0 (Z.of_nat (length got)) = got.
Proof.
  intros Hf. apply list_eq. intros k. rewrite list_lookup_fmap.
  destruct (got !! k) as [b|] eqn:Ek.
  - rewrite lookup_seqZ_lt by (apply lookup_lt_Some in Ek; lia). cbn [fmap option_fmap option_map]. rewrite Z.add_0_l, (Hf k b Ek). done.
  - rewrite lookup_seqZ_ge; [done|]. apply lookup_ge_None in Ek. lia.
Qed.

Lemma Forall_wake_readers p p' ab ab' ts :
  Forall (thread_ok p ab) ts ->
  (forall i r a, thread_ok p ab (TWriter i r a) -> thread_ok p' ab' (TWriter i r a)) ->
  Forall (thread_ok p' ab') (wake_readers ts).
Proof.
  intros Hts Hw. apply Forall_fmap. eapply Forall_impl; [exact Hts|].
  intros [i r a|n a|] Ht; simpl in *; [by apply Hw|naive_solver|done].
Qed.

Lemma Forall_wake_writers p p' ab ab' ts :
  Forall (thread_ok p ab) ts ->
  (forall n a, thread_ok p ab (TReader n a) -> thread_ok p' ab' (TReader n a)) ->
  Forall (thread_ok p' ab') (wake_writers ts).
Proof.
  intros Hts Hw. apply Forall_fmap. eapply Forall_impl; [exact Hts|].
  intros [i r a|n a|] Ht; simpl in *; [naive_solver|by apply Hw|done].
Qed.

Lemma count_full p p' acc : pipe_ok p -> pipe_ok p' -> queue p' = queue p ++ acc ->
  pipe_count p = PIPESIZE -> pipe_count p' = PIPESIZE.
Proof.
  intros Hp Hp' Eq Hc. pose proof (queue_length p Hp). pose proof (queue_length p' Hp') as H2.
  rewrite Eq, length_app in H2. pose proof (po_count p' Hp'). lia.
Qed.

Lemma psys_ok_write s k killed i rest p' r :
  psys_ok s -> ps_threads s !! k = Some (TWriter i rest false) ->
  pipewrite killed (ps_pipe s) i rest = (p', r) ->
  psys_ok (Psys p'
      (match r with
       | WDone _ => <[k := TDone]> (wake_readers (ps_threads s))
       | WErr => <[k := TDone]> (ps_threads s)
       | WSleep j t => <[k := TWriter j t true]> (wake_readers (ps_threads s))
       end)
      (written s ++ take (Z.to_nat (nwrite p' -u nwrite (ps_pipe s))) rest)
      (got s)
      (aborted s || match r with WErr => true | _ => false end)).
Proof.
  intros (Hp & Hq & Hts) Hk E. pose proof (Forall_lookup_1 _ _ _ _ Hts Hk) as [Hb _].
  destruct (pipewrite_spec _ _ _ _ _ _ Hp Hb E) as (Hp' & [Ero Ewo] & acc & todo & -> & Eq & Hr).
  pose proof (pipewrite_nread killed (acc ++ todo) (ps_pipe s) i) as En. rewrite E in En. simpl in En.
  assert (forall ab ab' i r a, thread_ok (ps_pipe s) ab (TWriter i r a) ->
            thread_ok p' ab' (TWriter i r a)) as Hmono.
  { intros ab ab' j r' a [H1 H2]. split; [done|]. intros Ha. destruct (H2 Ha) as [H3 H4].
    split; [by apply (count_full (ps_pipe s) p' acc)|congruence]. }
  split; [done|]. split.
  - simpl. rewrite (count_diff (ps_pipe s) p' acc) by done.
    rewrite take_app_length, Hq, Eq, <- app_assoc. done.
  - simpl. destruct r as [n| |j t]; simpl.
    + apply Forall_insert; [|done]. eapply Forall_wake_readers; [exact Hts|]. apply Hmono.
    + rewrite orb_true_r. apply Forall_insert; [|done]. eapply Forall_impl; [exact Hts|].
      intros [j r' a|n a|] Ht; simpl in *; [by apply (Hmono (aborted s) true)|naive_solver|done].
    + destruct Hr as (-> & -> & _ & Hfull & Hro & _). apply Forall_insert.
      * eapply Forall_wake_readers; [exact Hts|]. apply Hmono.
      * simpl. apply Forall_app in Hb as [_ Hb]. split; [done|]. intros _. split; [done|congruence].
Qed.

Lemma psys_ok_read s k killed n v p' r v' :
  psys_ok s -> ps_threads s !! k = Some (TReader n false) -> sink_ok v -> n <= sink_cap v ->
  piperead killed (ps_pipe s) n v = (p', r, v') ->
  psys_ok (Psys p'
      (match r with
       | RDone _ => <[k := TDone]> (wake_writers (ps_threads s))
       | RErr => <[k := TDone]> (ps_threads s)
       | RSleep => <[k := TReader n true]> (ps_threads s)
       end)
      (written s)
      (got s ++ match r with RDone i => sink_get v' <$> seqZ 0 i | _ => [] end)
      (aborted s)).
Proof.
  intros (Hp & Hq & Hts) Hk Hv Hn E. pose proof (Forall_lookup_1 _ _ _ _ Hts Hk) as [Hn0 _].
  destruct (piperead_spec _ _ _ _ _ _ _ Hp Hv (conj Hn0 Hn) E) as (Hp' & [Ero Ewo] & Hr).
  split; [done|]. destruct r as [i| |]; simpl.
  - destruct Hr as (_ & g & Eq & -> & _ & Hg). rewrite (sink_seq g) by done. split.
    + rewrite Hq, Eq, app_assoc. done.
    + apply Forall_insert; [|done]. eapply Forall_wake_writers; [exact Hts|].
      intros m a [H1 H2]. split; [done|]. intros Ha. destruct (H2 Ha) as [?|[H3 H4]]; [by left|right].
      rewrite Eq in H3. apply app_nil in H3 as [_ H3]. split; [done|congruence].
  - destruct Hr as [-> _]. rewrite app_nil_r. split; [done|]. by apply Forall_insert.
  - destruct Hr as (-> & Hq0 & Hw & _). rewrite app_nil_r. split; [done|].
    apply Forall_insert; [done|]. split; [done|]. intros _. by right.
Qed.

Lemma psys_ok_close s writable : psys_ok s ->
  psys_ok (Psys (pipeclose (ps_pipe s) writable).1
      (if writable then wake_readers (ps_threads s) else wake_writers (ps_threads s))
      (written s) (got s) (aborted s)).
Proof.
  intros (Hp & Hq & Hts). unfold pipeclose. destruct writable; simpl; (split; [by destruct Hp|]; split; [done|]; simpl).
  - eapply Forall_wake_readers; [exact Hts|]. done.
  - eapply Forall_wake_writers; [exact Hts|]. done.
Qed.

Lemma psys_ok_step s s' : pstep s s' -> psys_ok s -> psys_ok s'.
Proof.
  intros Hs Hi. destruct Hs.
  - destruct Hi as (Hp & Hq & Hts). split; [done|]. split; [done|]. simpl.
    apply Forall_app. split; [done|]. constructor; [|done]. destruct t; simpl in *; naive_solver.
  - by eapply psys_ok_write.
  - by eapply psys_ok_read.
  - by apply psys_ok_close.
  - destruct Hi as (Hp & Hq & Hts). split; [done|]. split; [done|]. apply Forall_insert; [done|].
    apply (Forall_lookup_1 _ _ _ _ Hts) in H0 as [? _]. split; [done|]. done.
  - destruct Hi as (Hp & Hq & Hts). split; [done|]. split; [done|]. apply Forall_insert; [done|].
    apply (Forall_lookup_1 _ _ _ _ Hts) in H0 as [? _]. split; [done|]. done.
Qed.

Lemma psys_ok_reach s s' : rtc pstep s s' -> psys_ok s -> psys_ok s'.
Proof. induction 1; eauto using psys_ok_step. Qed.

Lemma pipe_init_ok garbage : length garbage = Z.to_nat PIPESIZE -> Forall is_byte garbage ->
  pipe_ok (pipe_init garbage) /\ queue (pipe_init garbage) = [].
Proof.
  intros Hl Hb. split; [|done].
  split; simpl; try done; unfold is_u32, PIPESIZE; try lia.
Qed.
End system.

(** ** kernel/kvector.c behind the interface *)

(** The call [memmove_into_vector_bytes] of [piperead] for byte [i], where [cell]
    is the address of [current_read] on the reader's kernel stack. *)
Definition vector_put (v : vector) (cell : Z) (s : kheap) (i b : Z) : kheap :=
  match memmove_into_vector_bytes v i cell 1 (Kheap (hp s) (st8 (hm s) cell b)) with
  | inr (_, s') => s'
  | inl _ => s
  end.

Section vector_sink.
Context (end_ : Z) (v : vector) (ps : list Z) (cell : Z).

Definition vector_sink_ok (s : kheap) : Prop :=
  vec_ok end_ (hm s) v ps /\ wf_mem (hm s) /\ typesize v = 1 /\ off_pages ps cell 1.

Lemma vector_put_spec s i b : vector_sink_ok s -> is_byte b -> 0 <= i < vectorsize v ->
  vector_sink_ok (vector_put v cell s i b) /\
  hm (vector_put v cell s i b) (elt v ps i) = b /\
  forall j, 0 <= j < vectorsize v -> j <> i ->
    hm (vector_put v cell s i b) (elt v ps j) = hm s (elt v ps j).
Proof.
  intros (Hv & Hm & Ht & Hoff) Hb Hi. unfold vector_put, memmove_into_vector_bytes.
  change (Z.to_nat 1) with 1%nat. set (s1 := Kheap (hp s) (st8 (hm s) cell b)).
  assert (vec_ok end_ (hm s1) v ps) as Hv1.
  { eapply vec_ok_ext; [|exact Hv]. intros q a Hq Ha. simpl. rewrite st8_other; [done|].
    destruct (Hoff q Hq); unfold PGSIZE in *; lia. }
  destruct (into_bytes_spec end_ 1 0 v ps i cell s1 Hv1) as (m' & E & Hv' & Hm' & H1 & H2);
    try done; try (simpl; lia); [by apply st8_wf|].
  rewrite E. split; [done|]. split.
  - specialize (H1 0 ltac:(simpl; lia)). rewrite !Z.add_0_r in H1. simpl. rewrite H1. simpl.
    rewrite st8_same. by apply u8_id.
  - intros j Hj Hne. simpl. rewrite H2.
    + simpl. apply st8_other. intros Ec. symmetry in Ec. revert Ec.
      eapply (elt_off_pages end_ _ v ps j cell 1); [exact Hv|done|exact Hoff|lia].
    + intros k Hk E'. apply (elt_inj end_ (hm s)) in E'; [simpl in Hk; lia|done|done|simpl in Hk; lia].
Qed.

#[export, refine] Instance vector_sink : ByteSink {s : kheap | vector_sink_ok s} := {|
  sink_put s i b := match decide (is_byte b /\ 0 <= i < vectorsize v) with
                    | left H => vector_put v cell (proj1_sig s) i b
                                  ↾ proj1 (vector_put_spec _ i b (proj2_sig s) (proj1 H) (proj2 H))
                    | right _ => s
                    end;
  sink_get s i := hm (proj1_sig s) (elt v ps i);
  sink_cap _ := vectorsize v;
  sink_ok _ := True
|}.
Proof.
  - done.
  - done.
  - intros s i b _ Hb Hi. case_decide; [|tauto]. simpl. apply vector_put_spec; [apply (proj2_sig s)|done|done].
  - intros s i j b _ Hb Hi Hj Hne. case_decide; [|tauto]. simpl.
    apply vector_put_spec; [apply (proj2_sig s)|done|done|done|done].
Defined.
End vector_sink.


Definition zeros512 : list Z := replicate 512 0.

