(* ===== verification/BufCache.v ===== *)
(** * The buffer cache and block I/O: kernel/device/buf_cache.c, bio.c, ide.c

    The cache is an array of [NBUF] buffers threaded on a circular doubly linked
    list through index fields, most recently used first; index [NBUF] is the list
    head.  [bread], [bwrite] and the drivers under them work on the same state,
    which also holds the devices' contents and the trace of writes made to them.

    The 24 bytes of a [union buf_id] are read as one little-endian number, so
    that the native file system's id of a block is its number.  [b->lock] is a
    sleep lock: taking it when it is held puts the caller to sleep.  The disk is
    idle when a request is made and reports no error. *)

From S2P Require Import Prelude.

Definition NBUF : nat := 200.
Definition BSIZE : Z := 1024.
Definition FSSIZE : Z := 2400.
Definition B_VALID : Z := 2.
Definition B_DIRTY : Z := 4.
Definition BUF_ALLOC_NO_CACHE : Z := 1.

Notation block := (list Z).

Record buf := Buf {
  flags : Z;
  alloc_flags : Z;
  dev : Z;           (* const struct device *, 0 for NULL *)
  id : Z;            (* union buf_id *)
  locked : bool;     (* lock.locked *)
  refcnt : Z;
  prev : nat;
  next : nat;
  cgroup_ : Z;       (* struct cgroup *, 0 for NULL *)
  bdata : block
}.

(** Calls to the memory statistics of a control group. *)
Inductive cg_event :=
| PgFault (cg : Z) | PgMajFault (cg : Z)
| FileDirtyIncr (cg : Z) | FileDirtyDecr (cg : Z) | FileDirtyAggregatedIncr (cg : Z).

Record bcache := Bcache {
  bufs : list buf;
  hprev : nat;
  hnext : nat;
  is_cache_enabled : bool;
  havedisk1 : bool;
  store : Z -> Z -> block;           (* device, block number *)
  wtrace : list (Z * Z * block);     (* writes that reached a device *)
  cg_events : list cg_event
}.

Definition upd_bufs (f : list buf -> list buf) (c : bcache) : bcache :=
  Bcache (f (bufs c)) (hprev c) (hnext c) (is_cache_enabled c) (havedisk1 c) (store c) (wtrace c) (cg_events c).
Definition upd_buf (i : nat) (f : buf -> buf) (c : bcache) : bcache := upd_bufs (alter f i) c.
Definition set_enabled (e : bool) (c : bcache) : bcache :=
  Bcache (bufs c) (hprev c) (hnext c) e (havedisk1 c) (store c) (wtrace c) (cg_events c).
Definition log_event (e : cg_event) (c : bcache) : bcache :=
  Bcache (bufs c) (hprev c) (hnext c) (is_cache_enabled c) (havedisk1 c) (store c) (wtrace c) (cg_events c ++ [e]).

Definition set_flags (v : Z) (b : buf) : buf :=
  Buf v (alloc_flags b) (dev b) (id b) (locked b) (refcnt b) (prev b) (next b) (cgroup_ b) (bdata b).
Definition set_locked (v : bool) (b : buf) : buf :=
  Buf (flags b) (alloc_flags b) (dev b) (id b) v (refcnt b) (prev b) (next b) (cgroup_ b) (bdata b).
Definition set_refcnt (v : Z) (b : buf) : buf :=
  Buf (flags b) (alloc_flags b) (dev b) (id b) (locked b) v (prev b) (next b) (cgroup_ b) (bdata b).
Definition set_bprev (v : nat) (b : buf) : buf :=
  Buf (flags b) (alloc_flags b) (dev b) (id b) (locked b) (refcnt b) v (next b) (cgroup_ b) (bdata b).
Definition set_bnext (v : nat) (b : buf) : buf :=
  Buf (flags b) (alloc_flags b) (dev b) (id b) (locked b) (refcnt b) (prev b) v (cgroup_ b) (bdata b).
Definition set_cgroup (v : Z) (b : buf) : buf :=
  Buf (flags b) (alloc_flags b) (dev b) (id b) (locked b) (refcnt b) (prev b) (next b) v (bdata b).
Definition set_bdata (v : block) (b : buf) : buf :=
  Buf (flags b) (alloc_flags b) (dev b) (id b) (locked b) (refcnt b) (prev b) (next b) (cgroup_ b) v.

(** The links of a list node, the head included. *)
Definition get_next (c : bcache) (i : nat) : nat :=
  if decide (i = NBUF) then hnext c else from_option next 0%nat (bufs c !! i).
Definition get_prev (c : bcache) (i : nat) : nat :=
  if decide (i = NBUF) then hprev c else from_option prev 0%nat (bufs c !! i).
Definition set_next (i v : nat) (c : bcache) : bcache :=
  if decide (i = NBUF)
  then Bcache (bufs c) (hprev c) v (is_cache_enabled c) (havedisk1 c) (store c) (wtrace c) (cg_events c)
  else upd_buf i (set_bnext v) c.
Definition set_prev (i v : nat) (c : bcache) : bcache :=
  if decide (i = NBUF)
  then Bcache (bufs c) v (hnext c) (is_cache_enabled c) (havedisk1 c) (store c) (wtrace c) (cg_events c)
  else upd_buf i (set_bprev v) c.

(** ** buf_cache.c *)

(** One round of the loop of [buf_cache_init]. *)
Definition init_buf (c : bcache) (b : nat) : bcache :=
  let c := upd_buf b (fun x => set_locked false (set_refcnt 0 (set_flags 0 x))) c in
  let c := set_next b (get_next c NBUF) c in
  let c := set_prev b NBUF c in
  let c := set_prev (get_next c NBUF) b c in
  set_next NBUF b c.
Definition buf_cache_init (c : bcache) : bcache :=
  let c := set_next NBUF NBUF (set_prev NBUF NBUF c) in
  set_enabled true (foldl init_buf c (seq 0 NBUF)).

(** [for (b = head.next; b != &head; b = b->next)] with an action on each buffer. *)
Fixpoint for_all_bufs (fuel : nat) (b : nat) (f : buf -> buf) (c : bcache) : stop + bcache :=
  match fuel with
  | O => inl NoFuel
  | S fuel => if decide (b = NBUF) then inr c
              else let c := upd_buf b f c in for_all_bufs fuel (get_next c b) f c
  end.

Definition has_flag (f : Z) (b : buf) : bool := negb (Z.land (flags b) f =? 0).

Definition buf_cache_invalidate_blocks (d : Z) (c : bcache) : stop + bcache :=
  for_all_bufs (S NBUF) (hnext c)
    (fun b => if dev b =? d then set_flags (Z.land (flags b) (Z.lnot (Z.lor B_VALID B_DIRTY))) b else b) c.

(** The searches of [buf_cache_get], along [next] or along [prev]. *)
Fixpoint scan (nx : buf -> nat) (P : buf -> bool) (fuel : nat) (bs : list buf) (b : nat) : stop + option nat :=
  match fuel with
  | O => inl NoFuel
  | S fuel =>
      if decide (b = NBUF) then inr None
      else match bs !! b with
           | None => inl Fault
           | Some x => if P x then inr (Some b) else scan nx P fuel bs (nx x)
           end
  end.

Definition lift {S A} (x : stop + A) : M S A := fun s => match x with inl e => inl e | inr a => inr (a, s) end.

Definition acquiresleep (i : nat) : M bcache unit :=
  c ← getS;
  b ← deref (bufs c !! i);
  if locked b then sleep_here else modS (upd_buf i (set_locked true)).

Definition releasesleep (i : nat) : M bcache unit := modS (upd_buf i (set_locked false)).

Definition holdingsleep (i : nat) : M bcache bool := gets (fun c => from_option locked false (bufs c !! i)).

Section cache.
Context (cg : Z).                       (* proc_get_cgroup() *)
Context (is_loop : Z -> bool).          (* getinodefordevice(dev) != 0 *)

Definition recycle (d i af : Z) (b : buf) : buf :=
  Buf 0 af d i (locked b) 1 (prev b) (next b) 0 (bdata b).

Definition buf_cache_get (d i af : Z) : M bcache nat :=
  c ← getS;
  hit ← lift (scan next (fun b => (dev b =? d) && (id b =? i)) (S NBUF) (bufs c) (hnext c));
  match hit with
  | Some b =>
      modS (upd_buf b (fun x => set_refcnt (refcnt x +u 1) x)) ;;
      acquiresleep b ;;
      modS (log_event (PgFault cg)) ;;
      mret b
  | None =>
      free ← lift (scan prev (fun b => (refcnt b =? 0) && negb (has_flag B_DIRTY b)) (S NBUF) (bufs c) (hprev c));
      match free with
      | Some b =>
          modS (upd_buf b (recycle d i af)) ;;
          acquiresleep b ;;
          modS (log_event (PgMajFault cg)) ;;
          mret b
      | None => panic "buf_cache_get: no buffers"
      end
  end.

(** Unlink a buffer and put it first or last. *)
Definition relink (b : nat) (insert_first : bool) (c : bcache) : bcache :=
  let c := set_prev (get_next c b) (get_prev c b) c in
  let c := set_next (get_prev c b) (get_next c b) c in
  if insert_first then
    let c := set_next b (get_next c NBUF) c in
    let c := set_prev b NBUF c in
    let c := set_prev (get_next c NBUF) b c in
    set_next NBUF b c
  else
    let c := set_prev b (get_prev c NBUF) c in
    let c := set_next b NBUF c in
    let c := set_next (get_prev c NBUF) b c in
    set_prev NBUF b c.

Definition buf_cache_release (b : nat) : M bcache unit :=
  h ← holdingsleep b;
  if negb h then panic "buf_cache_release"
  else
    releasesleep b ;;
    modS (upd_buf b (fun x => set_refcnt (refcnt x -u 1) x)) ;;
    c ← getS;
    x ← deref (bufs c !! b);
    if refcnt x =? 0 then
      if negb (is_cache_enabled c) then
        (if negb (has_flag B_DIRTY x)
         then modS (upd_buf b (fun x => set_flags (Z.land (flags x) (Z.lnot B_VALID)) x))
         else mret tt) ;;
        modS (relink b false)
      else modS (relink b (Z.land (alloc_flags x) BUF_ALLOC_NO_CACHE =? 0))
    else mret tt.

Definition buf_cache_is_cache_enabled : M bcache bool := gets is_cache_enabled.
Definition buf_cache_enable_cache : M bcache unit := modS (set_enabled true).
Definition buf_cache_disable_cache (c : bcache) : stop + bcache :=
  if is_cache_enabled c then
    match for_all_bufs (S NBUF) (hnext c)
            (fun b => if (refcnt b =? 0) && negb (has_flag B_DIRTY b)
                      then set_flags (Z.land (flags b) (Z.lnot B_VALID)) b else b) c with
    | inl e => inl e
    | inr c => inr (set_enabled false c)
    end
  else inr c.

(** ** Drivers and bio.c *)

(** A transfer between a buffer and its device: write when dirty, read otherwise;
    then [B_VALID] is set and [B_DIRTY] cleared. *)
Definition transfer (i : nat) : M bcache unit :=
  c ← getS;
  b ← deref (bufs c !! i);
  let blockno := u32 (id b) in
  (if has_flag B_DIRTY b
   then modS (fun c => Bcache (bufs c) (hprev c) (hnext c) (is_cache_enabled c) (havedisk1 c)
                (fun d n => if (d =? dev b) && (n =? blockno) then bdata b else store c d n)
                (wtrace c ++ [(dev b, blockno, bdata b)]) (cg_events c))
   else modS (upd_buf i (set_bdata (store c (dev b) blockno)))) ;;
  modS (upd_buf i (fun b => set_flags (Z.land (Z.lor (flags b) B_VALID) (Z.lnot B_DIRTY)) b)).

Definition devicerw (i : nat) : M bcache unit := transfer i.

Definition iderw (i : nat) : M bcache unit :=
  h ← holdingsleep i;
  c ← getS;
  b ← deref (bufs c !! i);
  if negb h then panic "iderw: buf not locked"
  else if Z.land (flags b) (Z.lor B_VALID B_DIRTY) =? B_VALID then panic "iderw: nothing to do"
  else if negb (dev b =? 0) && negb (havedisk1 c) then panic "iderw: ide disk 1 not present"
  else if FSSIZE <=? u32 (id b) then panic "incorrect blockno"
  else transfer i.

Definition brw (i : nat) : M bcache unit :=
  c ← getS;
  b ← deref (bufs c !! i);
  if is_loop (dev b) then devicerw i else iderw i.

Definition bread (d blockno : Z) : M bcache nat :=
  b ← buf_cache_get d blockno 0;
  c ← getS;
  x ← deref (bufs c !! b);
  (if Z.land (flags x) B_VALID =? 0 then brw b else mret tt) ;;
  mret b.

Definition bwrite (b : nat) : M bcache unit :=
  h ← holdingsleep b;
  if negb h then panic "bwrite"
  else modS (upd_buf b (fun x => set_flags (Z.lor (flags x) B_DIRTY) x)) ;; brw b.
End cache.

(** ** Circular lists as paths of a successor function *)

Definition fset (f : nat -> nat) (i v : nat) : nat -> nat := fun j => if decide (j = i) then v else f j.

(** From [x], [f] runs through [l] and then to [y]. *)
Fixpoint path (f : nat -> nat) (x : nat) (l : list nat) (y : nat) : Prop :=
  match l with [] => f x = y | z :: l => f x = z /\ path f z l y end.

Lemma path_app f x l1 z l2 y : path f x (l1 ++ z :: l2) y <-> path f x l1 z /\ path f z l2 y.
Proof. revert x. induction l1 as [|w l1 IH]; intros x; simpl; [done|]. rewrite IH. tauto. Qed.

Lemma path_ext f g x l y : (forall i, i ∈ x :: l -> f i = g i) -> path f x l y -> path g x l y.
Proof.
  revert x. induction l as [|z l IH]; intros x Hfg; simpl.
  - rewrite Hfg by set_solver. done.
  - rewrite Hfg by set_solver. intros [H1 H2]. split; [done|]. apply IH; [|done]. set_solver.
Qed.

Lemma path_fset f i v x l y : i ∉ x :: l -> path f x l y -> path (fset f i v) x l y.
Proof.
  intros Hi. apply path_ext. intros j Hj. unfold fset. case_decide; [subst; done|done].
Qed.

Lemma path_head f x l y : path f x l y -> f x = hd y l.
Proof. destruct l; simpl; naive_solver. Qed.

(** Entering a path through another node. *)
Lemma path_enter f b q l y : q ∉ l -> path f b l y -> path (fset f q (f b)) q l y.
Proof.
  intros Hq Hp. destruct l as [|z l]; simpl in *.
  - unfold fset. rewrite decide_True by done. done.
  - destruct Hp as [Hz Hp]. split; [unfold fset; rewrite decide_True by done; done|].
    apply path_fset; [done|exact Hp].
Qed.

Lemma path_remove f x l1 b l2 y q :
  NoDup (x :: l1 ++ b :: l2) -> last (x :: l1) = Some q -> path f x (l1 ++ b :: l2) y ->
  path (fset f q (f b)) x (l1 ++ l2) y.
Proof.
  intros Hnd Hq Hp. apply path_app in Hp as [H1 H2].
  destruct l1 as [|w l1' _] using rev_ind.
  - injection Hq as ->. simpl in *. apply NoDup_cons in Hnd as [Hx _].
    apply path_enter; [set_solver|done].
  - rewrite app_comm_cons, last_snoc in Hq. injection Hq as ->. rewrite <- app_assoc in *. simpl in *.
    apply path_app in H1 as [H1 H3]. apply path_app.
    apply NoDup_cons in Hnd as [Hx Hnd]. apply NoDup_app in Hnd as (_ & Hd & Hnd).
    apply NoDup_cons in Hnd as [Hq Hnd]. split.
    + apply path_fset; [|done]. intros [->|Hin]%elem_of_cons; [set_solver|]. apply (Hd q Hin). set_solver.
    + apply path_enter; [set_solver|done].
Qed.

Lemma path_push f g h l b :
  path f h l h -> path g h (reverse l) h -> b ∉ h :: l -> NoDup (h :: l) ->
  path (fset (fset f b (f h)) h b) h (b :: l) h /\
  path (fset (fset g b h) (f h) b) h (reverse l ++ [b]) h.
Proof.
  intros Hf Hg Hb Hnd. apply NoDup_cons in Hnd as [Hh Hnd]. split.
  - simpl. split; [unfold fset; rewrite decide_True by done; done|].
    assert (path (fset f b (f h)) b l h) as Hp by (apply path_enter; [set_solver|done]).
    eapply path_ext; [|exact Hp]. intros i Hi. unfold fset.
    destruct (decide (i = h)) as [->|]; [set_solver|done].
  - destruct l as [|z l].
    + simpl in *. rewrite Hf. unfold fset. rewrite !decide_True by done.
      destruct (decide (b = h)); [set_solver|]. split; [done|]. by rewrite decide_True.
    + rewrite reverse_cons in *. apply path_app in Hg as [Hg1 Hg2]. simpl in Hf. destruct Hf as [Hf _].
      rewrite Hf. apply path_app. split.
      * apply path_app. apply NoDup_cons in Hnd as [Hz Hnd]. split.
        -- apply path_fset; [rewrite elem_of_cons, elem_of_reverse; set_solver|].
           apply path_fset; [rewrite elem_of_cons, elem_of_reverse; set_solver|done].
        -- simpl. unfold fset. by rewrite decide_True.
      * simpl. unfold fset. destruct (decide (b = z)); [set_solver|]. by rewrite decide_True.
Qed.

(** ** Links and the other fields *)

Lemma get_next_set_next c i v j : length (bufs c) = NBUF -> (i <= NBUF)%nat ->
  get_next (set_next i v c) j = fset (get_next c) i v j.
Proof.
  intros Hl Hi. unfold get_next, set_next, fset.
  destruct (decide (i = NBUF)) as [->|Hn]; simpl; [by case_decide|].
  destruct (decide (j = NBUF)) as [->|Hj]; simpl; [by rewrite decide_False|].
  destruct (decide (j = i)) as [->|Hji].
  - rewrite list_lookup_alter_eq. destruct (lookup_lt_is_Some_2 (bufs c) i) as [x ->]; [lia|]. done.
  - by rewrite list_lookup_alter_ne.
Qed.

Lemma get_prev_set_prev c i v j : length (bufs c) = NBUF -> (i <= NBUF)%nat ->
  get_prev (set_prev i v c) j = fset (get_prev c) i v j.
Proof.
  intros Hl Hi. unfold get_prev, set_prev, fset.
  destruct (decide (i = NBUF)) as [->|Hn]; simpl; [by case_decide|].
  destruct (decide (j = NBUF)) as [->|Hj]; simpl; [by rewrite decide_False|].
  destruct (decide (j = i)) as [->|Hji].
  - rewrite list_lookup_alter_eq. destruct (lookup_lt_is_Some_2 (bufs c) i) as [x ->]; [lia|]. done.
  - by rewrite list_lookup_alter_ne.
Qed.

Lemma get_prev_set_next c i v j : get_prev (set_next i v c) j = get_prev c j.
Proof.
  unfold get_prev, set_next. destruct (decide (i = NBUF)); [done|]. case_decide; [done|].
  simpl. destruct (decide (i = j)) as [->|]; [|by rewrite list_lookup_alter_ne].
  rewrite list_lookup_alter_eq. by destruct (bufs c !! j).
Qed.

Lemma get_next_set_prev c i v j : get_next (set_prev i v c) j = get_next c j.
Proof.
  unfold get_next, set_prev. destruct (decide (i = NBUF)); [done|]. case_decide; [done|].
  simpl. destruct (decide (i = j)) as [->|]; [|by rewrite list_lookup_alter_ne].
  rewrite list_lookup_alter_eq. by destruct (bufs c !! j).
Qed.

Lemma length_set_next i v c : length (bufs (set_next i v c)) = length (bufs c).
Proof. unfold set_next. case_decide; [done|]. simpl. apply length_alter. Qed.

Lemma length_set_prev i v c : length (bufs (set_prev i v c)) = length (bufs c).
Proof. unfold set_prev. case_decide; [done|]. simpl. apply length_alter. Qed.

(** What a buffer holds besides its links. *)
Definition core (b : buf) : Z * Z * Z * Z * bool * Z * Z * block :=
  (flags b, alloc_flags b, dev b, id b, locked b, refcnt b, cgroup_ b, bdata b).

Lemma core_set_next i v c j : core <$> bufs (set_next i v c) !! j = core <$> bufs c !! j.
Proof.
  unfold set_next. case_decide; [done|]. simpl. destruct (decide (i = j)) as [->|].
  - rewrite list_lookup_alter_eq. by destruct (bufs c !! j).
  - by rewrite list_lookup_alter_ne.
Qed.

Lemma core_set_prev i v c j : core <$> bufs (set_prev i v c) !! j = core <$> bufs c !! j.
Proof.
  unfold set_prev. case_decide; [done|]. simpl. destruct (decide (i = j)) as [->|].
  - rewrite list_lookup_alter_eq. by destruct (bufs c !! j).
  - by rewrite list_lookup_alter_ne.
Qed.

Definition linked (c : bcache) (l : list nat) : Prop :=
  path (get_next c) NBUF l NBUF /\ path (get_prev c) NBUF (reverse l) NBUF.

Lemma last_hd_reverse (x : nat) l : last (x :: l) = Some (hd x (reverse l)).
Proof.
  destruct l as [|z l _] using rev_ind; [done|].
  rewrite app_comm_cons, last_snoc, reverse_app. done.
Qed.

Lemma hd_in_or (x : nat) l : hd x l ∈ x :: l.
Proof. destruct l; simpl; set_solver. Qed.

Lemma linked_ext c c' l :
  (forall i, get_next c i = get_next c' i) -> (forall i, get_prev c i = get_prev c' i) ->
  linked c l -> linked c' l.
Proof. intros Hn Hp [H1 H2]. split; (eapply path_ext; [|eassumption]); intros; auto. Qed.

(** Taking a buffer out of the list. *)
Lemma unlink_linked c l1 b l2 :
  length (bufs c) = NBUF -> NoDup (NBUF :: l1 ++ b :: l2) -> Forall (fun i => (i < NBUF)%nat) (l1 ++ b :: l2) ->
  linked c (l1 ++ b :: l2) ->
  let c1 := set_prev (get_next c b) (get_prev c b) c in
  linked (set_next (get_prev c1 b) (get_next c1 b) c1) (l1 ++ l2).
Proof.
  intros Hl Hnd Hlt [Hn Hp] c1.
  pose proof Hn as Hn'. apply path_app in Hn' as [_ Hnb]. apply path_head in Hnb.
  rewrite reverse_app, reverse_cons, <- app_assoc in Hp. simpl in Hp.
  pose proof Hp as Hp'. apply path_app in Hp' as [_ Hpb]. apply path_head in Hpb.
  set (nb := hd NBUF l2) in *. set (pb := hd NBUF (reverse l1)) in *.
  rewrite Forall_forall in Hlt.
  assert (nb <= NBUF /\ nb <> b)%nat as [Hnb1 Hnb2].
  { pose proof (hd_in_or NBUF l2) as Hin. fold nb in Hin. apply elem_of_cons in Hin as [->|Hin].
    - split; [lia|]. apply NoDup_cons in Hnd as [Hx _]. set_solver.
    - split; [apply Nat.lt_le_incl, Hlt; set_solver|].
      apply NoDup_cons in Hnd as [_ Hnd]. apply NoDup_app in Hnd as (_ & _ & [Hb _]%NoDup_cons). set_solver. }
  assert (pb <= NBUF)%nat as Hpb1.
  { pose proof (hd_in_or NBUF (reverse l1)) as Hin. fold pb in Hin. apply elem_of_cons in Hin as [->|Hin]; [lia|].
    apply Nat.lt_le_incl, Hlt. rewrite elem_of_reverse in Hin. set_solver. }
  assert (get_prev c1 b = pb) as Ep.
  { unfold c1. rewrite get_prev_set_prev, Hnb, Hpb by lia. unfold fset. by rewrite decide_False. }
  assert (get_next c1 b = nb) as En by (unfold c1; rewrite get_next_set_prev; done).
  rewrite Ep, En. split.
  - eapply path_ext; [|apply (path_remove (get_next c) NBUF l1 b l2 NBUF pb Hnd); [|exact Hn]].
    + intros i _. rewrite get_next_set_next by (unfold c1; rewrite ?length_set_prev; lia).
      unfold fset, c1. rewrite Hnb, get_next_set_prev. done.
    + rewrite last_hd_reverse. done.
  - rewrite reverse_app. eapply path_ext; [|apply (path_remove (get_prev c) NBUF (reverse l2) b (reverse l1) NBUF nb); [| |exact Hp]].
    + intros i _. rewrite get_prev_set_next. unfold c1. rewrite get_prev_set_prev by lia.
      rewrite Hnb, Hpb. done.
    + apply NoDup_cons. apply NoDup_cons in Hnd as [Hx Hnd].
      assert (reverse l2 ++ b :: reverse l1 ≡ₚ l1 ++ b :: l2) as Hperm.
      { rewrite !reverse_Permutation. rewrite (Permutation_app_comm l2). simpl. rewrite Permutation_middle. done. }
      rewrite Hperm. done.
    + rewrite last_hd_reverse, reverse_involutive. done.
Qed.

Lemma push_linked c l b :
  length (bufs c) = NBUF -> NoDup (NBUF :: l) -> b ∉ NBUF :: l -> (b < NBUF)%nat ->
  Forall (fun i => (i < NBUF)%nat) l -> linked c l ->
  let c1 := set_next b (get_next c NBUF) c in
  let c2 := set_prev b NBUF c1 in
  let c3 := set_prev (get_next c2 NBUF) b c2 in
  linked (set_next NBUF b c3) (b :: l).
Proof.
  intros Hl Hnd Hb Hlt Hall [Hn Hp] c1 c2 c3.
  assert (length (bufs c1) = NBUF) as L1 by (unfold c1; rewrite length_set_next; done).
  assert (length (bufs c2) = NBUF) as L2 by (unfold c2; rewrite length_set_prev; done).
  assert (length (bufs c3) = NBUF) as L3 by (unfold c3; rewrite length_set_prev; done).
  assert (get_next c2 NBUF = get_next c NBUF) as E2.
  { unfold c2. rewrite get_next_set_prev. unfold c1. rewrite get_next_set_next by lia.
    unfold fset. rewrite decide_False; [done|lia]. }
  assert (get_next c NBUF <= NBUF)%nat as Hnh.
  { rewrite (path_head _ _ _ _ Hn). pose proof (hd_in_or NBUF l) as Hin. rewrite Forall_forall in Hall.
    apply elem_of_cons in Hin as [->|Hin]; [lia|]. apply Nat.lt_le_incl, Hall, Hin. }
  destruct (path_push _ _ _ _ b Hn Hp Hb Hnd) as [H1 H2]. unfold linked. rewrite reverse_cons. split.
  - eapply path_ext; [|exact H1]. intros i _. rewrite get_next_set_next by lia. unfold c3, c2.
    unfold fset. rewrite !get_next_set_prev. unfold c1. rewrite get_next_set_next by lia. done.
  - eapply path_ext; [|exact H2]. intros i _. rewrite get_prev_set_next. unfold c3. rewrite E2.
    rewrite get_prev_set_prev by lia. unfold fset, c2. rewrite get_prev_set_prev by lia.
    unfold fset, c1. rewrite get_prev_set_next. done.
Qed.

Lemma push_back_linked c l b :
  length (bufs c) = NBUF -> NoDup (NBUF :: l) -> b ∉ NBUF :: l -> (b < NBUF)%nat ->
  Forall (fun i => (i < NBUF)%nat) l -> linked c l ->
  let c1 := set_prev b (get_prev c NBUF) c in
  let c2 := set_next b NBUF c1 in
  let c3 := set_next (get_prev c2 NBUF) b c2 in
  linked (set_prev NBUF b c3) (l ++ [b]).
Proof.
  intros Hl Hnd Hb Hlt Hall [Hn Hp] c1 c2 c3.
  assert (length (bufs c1) = NBUF) as L1 by (unfold c1; rewrite length_set_prev; done).
  assert (length (bufs c2) = NBUF) as L2 by (unfold c2; rewrite length_set_next; done).
  assert (length (bufs c3) = NBUF) as L3 by (unfold c3; rewrite length_set_next; done).
  assert (get_prev c2 NBUF = get_prev c NBUF) as E2.
  { unfold c2. rewrite get_prev_set_next. unfold c1. rewrite get_prev_set_prev by lia.
    unfold fset. rewrite decide_False; [done|lia]. }
  assert (get_prev c NBUF <= NBUF)%nat as Hnh.
  { rewrite (path_head _ _ _ _ Hp). pose proof (hd_in_or NBUF (reverse l)) as Hin. rewrite Forall_forall in Hall.
    apply elem_of_cons in Hin as [->|Hin]; [lia|]. rewrite elem_of_reverse in Hin. apply Nat.lt_le_incl, Hall, Hin. }
  rewrite <- (reverse_involutive l) in Hn.
  destruct (path_push _ _ _ _ b Hp Hn) as [H1 H2].
  { rewrite elem_of_cons, elem_of_reverse, <- elem_of_cons. done. }
  { rewrite reverse_Permutation. done. }
  rewrite reverse_involutive in H2. unfold linked. rewrite reverse_app. split.
  - eapply path_ext; [|exact H2]. intros i _. rewrite get_next_set_prev. unfold c3. rewrite E2.
    rewrite get_next_set_next by lia. unfold fset, c2. rewrite get_next_set_next by lia.
    unfold fset, c1. rewrite get_next_set_prev. done.
  - eapply path_ext; [|exact H1]. intros i _. rewrite get_prev_set_prev by lia. unfold c3, c2.
    unfold fset. rewrite !get_prev_set_next. unfold c1. rewrite get_prev_set_prev by lia. done.
Qed.

Lemma relink_linked c l1 b l2 first :
  length (bufs c) = NBUF -> NoDup (NBUF :: l1 ++ b :: l2) -> Forall (fun i => (i < NBUF)%nat) (l1 ++ b :: l2) ->
  linked c (l1 ++ b :: l2) ->
  linked (relink b first c) (if first then b :: l1 ++ l2 else (l1 ++ l2) ++ [b]).
Proof.
  intros Hl Hnd Hlt Hlk. pose proof (unlink_linked c l1 b l2 Hl Hnd Hlt Hlk) as Hu. cbv zeta in Hu.
  set (c2 := set_next _ _ _) in Hu.
  assert (length (bufs c2) = NBUF) as L2 by (unfold c2; rewrite length_set_next, length_set_prev; done).
  assert (NoDup (NBUF :: l1 ++ l2) /\ b ∉ NBUF :: l1 ++ l2) as [Hnd2 Hb].
  { rewrite <- Permutation_middle in Hnd. rewrite Permutation_swap in Hnd.
    apply NoDup_cons in Hnd as [? ?]. done. }
  rewrite Forall_app, Forall_cons in Hlt. destruct Hlt as (Hl1 & Hlb & Hl2).
  assert (Forall (fun i => (i < NBUF)%nat) (l1 ++ l2)) as Hall by (by apply Forall_app).
  unfold relink. fold c2. destruct first.
  - by apply push_linked.
  - by apply push_back_linked.
Qed.

(** ** The cache invariant *)

(** At most one buffer per block; a locked buffer is referenced; the list runs
    through every buffer exactly once. *)
Record bc_ok (c : bcache) (l : list nat) : Prop := {
  bo_len : length (bufs c) = NBUF;
  bo_perm : l ≡ₚ seq 0 NBUF;
  bo_linked : linked c l;
  bo_uniq : forall i j x y, bufs c !! i = Some x -> bufs c !! j = Some y ->
    dev x <> 0 -> dev x = dev y -> id x = id y -> i = j;
  bo_ref : forall i x, bufs c !! i = Some x -> is_u32 (refcnt x) /\ (locked x = true -> refcnt x <> 0)
}.

Lemma order_facts l : l ≡ₚ seq 0 NBUF ->
  NoDup (NBUF :: l) /\ Forall (fun i => (i < NBUF)%nat) l /\ length l = NBUF /\
  (forall i, (i < NBUF)%nat -> i ∈ l).
Proof.
  intros Hl. split; [|split; [|split]].
  - apply NoDup_cons. rewrite Hl. split; [rewrite elem_of_seq; lia|apply NoDup_seq].
  - apply Forall_forall. intros i Hi. rewrite Hl, elem_of_seq in Hi. lia.
  - rewrite Hl. apply length_seq.
  - intros i Hi. rewrite Hl, elem_of_seq. lia.
Qed.

Lemma lookup_upd_buf i f c j :
  bufs (upd_buf i f c) !! j = if decide (i = j) then f <$> bufs c !! j else bufs c !! j.
Proof.
  simpl. case_decide; subst; [apply list_lookup_alter_eq|by apply list_lookup_alter_ne].
Qed.

Lemma linked_upd i f c l : (forall x, next (f x) = next x /\ prev (f x) = prev x) ->
  linked c l -> linked (upd_buf i f c) l.
Proof.
  intros Hf. apply linked_ext; intros j.
  - unfold get_next. case_decide; [done|]. rewrite lookup_upd_buf. case_decide; [|done].
    destruct (bufs c !! j) as [x|]; simpl; [|done]. by rewrite (proj1 (Hf x)).
  - unfold get_prev. case_decide; [done|]. rewrite lookup_upd_buf. case_decide; [|done].
    destruct (bufs c !! j) as [x|]; simpl; [|done]. by rewrite (proj2 (Hf x)).
Qed.

(** Changing a buffer without touching its links or the block it stands for. *)
Lemma bc_ok_upd i f c l :
  (forall x, next (f x) = next x /\ prev (f x) = prev x /\ dev (f x) = dev x /\ id (f x) = id x) ->
  (forall x, bufs c !! i = Some x -> is_u32 (refcnt (f x)) /\ (locked (f x) = true -> refcnt (f x) <> 0)) ->
  bc_ok c l -> bc_ok (upd_buf i f c) l.
Proof.
  intros Hf Hr [H1 H2 H3 H4 H5]. split.
  - simpl. by rewrite length_alter.
  - done.
  - apply linked_upd; [|done]. intros x. destruct (Hf x) as (? & ? & _). done.
  - intros j k x y. rewrite !lookup_upd_buf.
    assert (forall m z, (if decide (i = m) then f <$> bufs c !! m else bufs c !! m) = Some z ->
      exists z', bufs c !! m = Some z' /\ dev z' = dev z /\ id z' = id z) as Hg.
    { intros m z. case_decide; [|intros; by exists z].
      destruct (bufs c !! m) as [z'|]; simpl; [|done]. intros [= <-]. exists z'.
      destruct (Hf z') as (_ & _ & ? & ?). done. }
    intros Hx Hy Hd0 Hd Hi. destruct (Hg _ _ Hx) as (x' & Hx' & E1 & E2).
    destruct (Hg _ _ Hy) as (y' & Hy' & E3 & E4). apply (H4 j k x' y'); congruence.
  - intros j x. rewrite lookup_upd_buf. case_decide as Hd; [|apply H5]. subst j.
    destruct (bufs c !! i) as [z|] eqn:Ez; simpl; [|done]. intros [= <-]. by apply Hr.
Qed.

Lemma bc_ok_same c c' l :
  bufs c' = bufs c -> hprev c' = hprev c -> hnext c' = hnext c -> bc_ok c l -> bc_ok c' l.
Proof.
  intros Eb Ep En [H1 H2 H3 H4 H5]. split; rewrite ?Eb; try done.
  eapply linked_ext; [| |exact H3]; intros i; unfold get_next, get_prev; rewrite Eb, ?Ep, ?En; done.
Qed.

(** ** Searching *)

Fixpoint first_match (P : buf -> bool) (bs : list buf) (l : list nat) : option nat :=
  match l with
  | [] => None
  | i :: l => match bs !! i with
              | Some x => if P x then Some i else first_match P bs l
              | None => first_match P bs l
              end
  end.

Lemma scan_spec (nx : buf -> nat) (f : nat -> nat) P bs l x fuel :
  (forall i y, bs !! i = Some y -> i <> NBUF -> f i = nx y) ->
  path f x l NBUF -> Forall (fun i => (i < NBUF)%nat) l -> length bs = NBUF -> (length l < fuel)%nat ->
  scan nx P fuel bs (f x) = inr (first_match P bs l).
Proof.
  intros Hf Hp Hl Hlen. revert x fuel Hp. induction Hl as [|z l Hz Hl IH]; intros x [|fuel] Hp Hfu;
    simpl in Hfu; try lia; simpl in Hp.
  - rewrite Hp. cbn [scan first_match]. by rewrite decide_True.
  - destruct Hp as [E Hp]. rewrite E. cbn [scan first_match]. rewrite decide_False by lia.
    destruct (lookup_lt_is_Some_2 bs z) as [y Hy]; [lia|]. rewrite Hy. destruct (P y); [done|].
    rewrite <- (Hf z y Hy) by lia. apply IH; [done|lia].
Qed.

Lemma scan_next_ok c l P : bc_ok c l -> scan next P (S NBUF) (bufs c) (hnext c) = inr (first_match P (bufs c) l).
Proof.
  intros [H1 H2 [H3 _] _ _]. destruct (order_facts l H2) as (_ & Hlt & Hlen & _).
  change (hnext c) with (get_next c NBUF). apply scan_spec; try done; [|lia].
  intros i y Hy Hn. unfold get_next. rewrite decide_False, Hy by done. done.
Qed.

Lemma scan_prev_ok c l P : bc_ok c l ->
  scan prev P (S NBUF) (bufs c) (hprev c) = inr (first_match P (bufs c) (reverse l)).
Proof.
  intros [H1 H2 [_ H3] _ _]. destruct (order_facts l H2) as (_ & Hlt & Hlen & _).
  change (hprev c) with (get_prev c NBUF). apply scan_spec; try done.
  - intros i y Hy Hn. unfold get_prev. rewrite decide_False, Hy by done. done.
  - by apply Forall_reverse.
  - rewrite length_reverse. lia.
Qed.

Lemma first_match_Some P bs l i : first_match P bs l = Some i ->
  exists x, bs !! i = Some x /\ P x = true /\ i ∈ l.
Proof.
  induction l as [|j l IH]; simpl; [done|]. destruct (bs !! j) as [y|] eqn:Ey.
  - destruct (P y) eqn:EP.
    + intros [= ->]. exists y. set_solver.
    + intros H. destruct (IH H) as (x & ? & ? & ?). exists x. set_solver.
  - intros H. destruct (IH H) as (x & ? & ? & ?). exists x. set_solver.
Qed.

Lemma first_match_None P bs l i x : first_match P bs l = None -> i ∈ l -> bs !! i = Some x -> P x = false.
Proof.
  induction l as [|j l IH]; simpl; intros Hn Hi Hx; [set_solver|].
  apply elem_of_cons in Hi as [->|Hi].
  - rewrite Hx in Hn. destruct (P x); [done|done].
  - apply IH; try done. destruct (bs !! j) as [y|]; [destruct (P y)|]; done.
Qed.

(** ** buf_cache_get and buf_cache_release *)

Definition key (d i : Z) (b : buf) : bool := (dev b =? d) && (id b =? i).
Definition is_free (b : buf) : bool := (refcnt b =? 0) && negb (has_flag B_DIRTY b).

Lemma key_true d i b : key d i b = true <-> dev b = d /\ id b = i.
Proof. unfold key. rewrite andb_true_iff, !Z.eqb_eq. done. Qed.

Lemma lookup_in_order c l i x : bc_ok c l -> bufs c !! i = Some x -> i ∈ l.
Proof.
  intros [H1 H2 _ _ _] Hx. apply lookup_lt_Some in Hx. apply (order_facts l H2). lia.
Qed.

Lemma find_hit c l d i b x : bc_ok c l -> d <> 0 -> bufs c !! b = Some x -> dev x = d -> id x = i ->
  first_match (key d i) (bufs c) l = Some b.
Proof.
  intros Hok Hd Hx Ed Ei. destruct (first_match (key d i) (bufs c) l) as [j|] eqn:E.
  - apply first_match_Some in E as (y & Hy & [Hyd Hyi]%key_true & _).
    f_equal. apply (bo_uniq _ _ Hok j b y x); congruence.
  - apply (first_match_None _ _ _ _ _ E (lookup_in_order _ _ _ _ Hok Hx)) in Hx.
    assert (key d i x = true) by (by apply key_true). congruence.
Qed.

Lemma acquiresleep_run i c x : bufs c !! i = Some x -> locked x = false ->
  acquiresleep i c = inr (tt, upd_buf i (set_locked true) c).
Proof. intros Hx Hl. unfold acquiresleep. mrun. rewrite Hx. by rewrite Hl. Qed.

Definition hit_state (cg : Z) (b : nat) (c : bcache) : bcache :=
  log_event (PgFault cg)
    (upd_buf b (set_locked true) (upd_buf b (fun x => set_refcnt (refcnt x +u 1) x) c)).
Definition miss_state (cg d i af : Z) (b : nat) (c : bcache) : bcache :=
  log_event (PgMajFault cg) (upd_buf b (set_locked true) (upd_buf b (recycle d i af) c)).

Lemma get_hit cg c l d i af b x :
  bc_ok c l -> d <> 0 -> bufs c !! b = Some x -> dev x = d -> id x = i -> locked x = false ->
  refcnt x + 1 < 2 ^ 32 ->
  buf_cache_get cg d i af c = inr (b, hit_state cg b c) /\ bc_ok (hit_state cg b c) l.
Proof.
  intros Hok Hd Hx Ed Ei Hlk Href. split.
  - unfold buf_cache_get. mrun. fold (key d i). rewrite (scan_next_ok _ _ _ Hok).
    rewrite (find_hit c l d i b x) by done. unfold lift.
    erewrite acquiresleep_run; [|rewrite lookup_upd_buf, decide_True, Hx by done; simpl; done|done]. done.
  - unfold hit_state. eapply (bc_ok_same (upd_buf b _ _)); try done.
    assert (is_u32 (refcnt x)) as Hu by (by apply (bo_ref _ _ Hok b x)).
    apply bc_ok_upd; [done| |apply bc_ok_upd; [done| |done]].
    + intros y. rewrite lookup_upd_buf, decide_True, Hx by done. intros [= <-]. simpl.
      rewrite u32_id by word. unfold is_u32 in *. lia.
    + intros y Hy. rewrite Hx in Hy. injection Hy as <-. simpl. rewrite u32_id by word.
      unfold is_u32 in *. lia.
Qed.

Lemma bc_ok_recycle c l d i af b :
  bc_ok c l -> first_match (key d i) (bufs c) l = None -> bc_ok (upd_buf b (recycle d i af) c) l.
Proof.
  intros Hok Hnone. pose proof Hok as [H1 H2 H3 H4 H5]. split.
  - simpl. by rewrite length_alter.
  - done.
  - by apply linked_upd.
  - assert (forall j y, bufs c !! j = Some y -> ~ (dev y = d /\ id y = i)) as Hno.
    { intros j y Hy [Hd Hi]. pose proof (first_match_None _ _ _ _ _ Hnone (lookup_in_order _ _ _ _ Hok Hy) Hy) as Hk.
      assert (key d i y = true) by (by apply key_true). congruence. }
    intros j k x y. rewrite !lookup_upd_buf. intros Hx Hy Hd0 Hd Hi.
    repeat case_decide; subst.
    + done.
    + destruct (bufs c !! k) as [y'|]; [|done]. injection Hy as <-. exfalso. by apply (Hno j x Hx).
    + destruct (bufs c !! j) as [x'|]; [|done]. injection Hx as <-. exfalso. by apply (Hno k y Hy).
    + by apply (H4 j k x y).
  - intros j x. rewrite lookup_upd_buf. case_decide; [|apply H5]. subst j.
    destruct (bufs c !! b) as [z|] eqn:Ez; simpl; [|done]. intros [= <-]. simpl. split; [word|done].
Qed.

Lemma get_miss cg c l d i af b x :
  bc_ok c l -> first_match (key d i) (bufs c) l = None ->
  first_match is_free (bufs c) (reverse l) = Some b -> bufs c !! b = Some x -> locked x = false ->
  buf_cache_get cg d i af c = inr (b, miss_state cg d i af b c) /\ bc_ok (miss_state cg d i af b c) l.
Proof.
  intros Hok Hnone Hfree Hx Hlk. split.
  - unfold buf_cache_get. mrun. fold (key d i). fold is_free.
    rewrite (scan_next_ok _ _ _ Hok), (scan_prev_ok _ _ _ Hok), Hnone, Hfree. unfold lift.
    erewrite acquiresleep_run; [|rewrite lookup_upd_buf, decide_True, Hx by done; simpl; done|done]. done.
  - unfold miss_state. eapply (bc_ok_same (upd_buf b _ _)); try done.
    apply bc_ok_upd; [done| |by apply bc_ok_recycle].
    intros y. rewrite lookup_upd_buf, decide_True, Hx by done. intros [= <-]. simpl. split; [word|done].
Qed.

Lemma get_full cg c l d i af :
  bc_ok c l -> first_match (key d i) (bufs c) l = None -> first_match is_free (bufs c) (reverse l) = None ->
  buf_cache_get cg d i af c = inl (Panic "buf_cache_get: no buffers").
Proof.
  intros Hok Hnone Hfree. unfold buf_cache_get. mrun. fold (key d i). fold is_free.
  rewrite (scan_next_ok _ _ _ Hok), (scan_prev_ok _ _ _ Hok), Hnone, Hfree. done.
Qed.

(** Only the links differ. *)
Lemma core_relink b first c j : core <$> bufs (relink b first c) !! j = core <$> bufs c !! j.
Proof.
  unfold relink. destruct first; repeat (rewrite core_set_next || rewrite core_set_prev); done.
Qed.

Lemma length_relink b first c : length (bufs (relink b first c)) = length (bufs c).
Proof.
  unfold relink. destruct first;
    repeat (rewrite length_set_next || rewrite length_set_prev); done.
Qed.

Lemma core_eq_fields x y : core x = core y ->
  flags x = flags y /\ alloc_flags x = alloc_flags y /\ dev x = dev y /\ id x = id y /\
  locked x = locked y /\ refcnt x = refcnt y /\ cgroup_ x = cgroup_ y /\ bdata x = bdata y.
Proof. unfold core. intros [=]. done. Qed.

Lemma bc_ok_relink c l1 b l2 first : bc_ok c (l1 ++ b :: l2) ->
  bc_ok (relink b first c) (if first then b :: l1 ++ l2 else (l1 ++ l2) ++ [b]).
Proof.
  intros [H1 H2 H3 H4 H5]. destruct (order_facts _ H2) as (Hnd & Hlt & _).
  assert (forall j x, bufs (relink b first c) !! j = Some x -> exists y, bufs c !! j = Some y /\ core x = core y) as Hcore.
  { intros j x Hx. pose proof (core_relink b first c j) as E. rewrite Hx in E. simpl in E.
    destruct (bufs c !! j) as [y|]; [|done]. injection E as E. exists y. split; [done|]. unfold core. congruence. }
  split.
  - by rewrite length_relink.
  - rewrite <- H2. destruct first; [by rewrite Permutation_middle|].
    rewrite <- Permutation_cons_append, Permutation_middle. done.
  - by apply relink_linked.
  - intros i j x y Hx Hy Hd0 Hd Hi.
    destruct (Hcore _ _ Hx) as (x' & Hx' & Ex%core_eq_fields). destruct (Hcore _ _ Hy) as (y' & Hy' & Ey%core_eq_fields).
    destruct Ex as (_ & _ & Ex1 & Ex2 & _), Ey as (_ & _ & Ey1 & Ey2 & _).
    apply (H4 i j x' y'); congruence.
  - intros i x Hx. destruct (Hcore _ _ Hx) as (x' & Hx' & (_ & _ & _ & _ & E1 & E2 & _)%core_eq_fields).
    rewrite E1, E2. by apply H5 with i.
Qed.

(** Everything of the state but the buffers and their order. *)
Definition same_devices (c c' : bcache) : Prop :=
  store c' = store c /\ wtrace c' = wtrace c /\ is_cache_enabled c' = is_cache_enabled c /\
  havedisk1 c' = havedisk1 c.

Lemma same_devices_set_next i v c : same_devices c (set_next i v c).
Proof. unfold set_next. case_decide; done. Qed.

Lemma same_devices_set_prev i v c : same_devices c (set_prev i v c).
Proof. unfold set_prev. case_decide; done. Qed.

Lemma same_devices_trans c1 c2 c3 : same_devices c1 c2 -> same_devices c2 c3 -> same_devices c1 c3.
Proof. unfold same_devices. intuition congruence. Qed.

Lemma same_devices_relink b first c : same_devices c (relink b first c).
Proof.
  unfold relink. cbv zeta.
  destruct first; repeat (eapply same_devices_trans; [|apply same_devices_set_next || apply same_devices_set_prev]);
    done.
Qed.

(** The buffer [buf_cache_release] leaves behind. *)
Definition released (enabled : bool) (x : buf) : buf :=
  let x := set_refcnt (refcnt x -u 1) (set_locked false x) in
  if (refcnt x =? 0) && negb enabled && negb (has_flag B_DIRTY x)
  then set_flags (Z.land (flags x) (Z.lnot B_VALID)) x else x.

Lemma released_run b c x :
  bufs c !! b = Some x -> locked x = true ->
  let x1 := set_refcnt (refcnt x -u 1) (set_locked false x) in
  let c1 := upd_buf b (fun x => set_refcnt (refcnt x -u 1) x) (upd_buf b (set_locked false) c) in
  buf_cache_release b c =
    inr (tt, if refcnt x1 =? 0 then
               if is_cache_enabled c then relink b (Z.land (alloc_flags x) BUF_ALLOC_NO_CACHE =? 0) c1
               else relink b false (if has_flag B_DIRTY x then c1
                    else upd_buf b (fun x => set_flags (Z.land (flags x) (Z.lnot B_VALID)) x) c1)
             else c1).
Proof.
  intros Hx Hl x1 c1. unfold buf_cache_release, holdingsleep, releasesleep. mrun.
  rewrite Hx. cbn [from_option]. rewrite Hl. cbn [negb].
  rewrite !lookup_upd_buf, !decide_True, Hx by done. cbn [fmap option_fmap option_map].
  cbn [is_cache_enabled upd_buf upd_bufs refcnt set_refcnt set_locked].
  fold c1. unfold x1. cbn [refcnt set_refcnt set_locked].
  destruct (refcnt x -u 1 =? 0); [|done]. destruct (is_cache_enabled c); cbn [negb]; [done|].
  unfold has_flag. cbn [flags set_refcnt set_locked]. destruct (Z.land (flags x) B_DIRTY =? 0); done.
Qed.

Lemma cg_events_relink b first c : cg_events (relink b first c) = cg_events c.
Proof.
  assert (forall i v c, cg_events (set_next i v c) = cg_events c) as H1 by (intros; unfold set_next; case_decide; done).
  assert (forall i v c, cg_events (set_prev i v c) = cg_events c) as H2 by (intros; unfold set_prev; case_decide; done).
  unfold relink. destruct first; repeat (rewrite H1 || rewrite H2); done.
Qed.

Lemma release_order c1 l b first : bc_ok c1 l -> (b < NBUF)%nat ->
  exists l1 l2, l = l1 ++ b :: l2 /\
    bc_ok (relink b first c1) (if first then b :: l1 ++ l2 else (l1 ++ l2) ++ [b]).
Proof.
  intros Hok Hb. assert (b ∈ l) as Hin by (by apply (order_facts l (bo_perm _ _ Hok))).
  apply list_elem_of_split in Hin as (l1 & l2 & ->). exists l1, l2. split; [done|]. by apply bc_ok_relink.
Qed.

Lemma release_spec b c l x :
  bc_ok c l -> bufs c !! b = Some x -> locked x = true ->
  exists c' l', buf_cache_release b c = inr (tt, c') /\ bc_ok c' l' /\ same_devices c c' /\
    cg_events c' = cg_events c /\
    (forall j, core <$> bufs c' !! j =
       core <$> if decide (j = b) then Some (released (is_cache_enabled c) x) else bufs c !! j) /\
    if refcnt x =? 1 then
      exists l1 l2, l = l1 ++ b :: l2 /\
        l' = if is_cache_enabled c && (Z.land (alloc_flags x) BUF_ALLOC_NO_CACHE =? 0)
             then b :: l1 ++ l2 else (l1 ++ l2) ++ [b]
    else l' = l.
Proof.
  intros Hok Hx Hl. rewrite (released_run b c x Hx Hl). cbv zeta.
  destruct (bo_ref _ _ Hok b x Hx) as [Hu Hne]. specialize (Hne Hl).
  cbn [refcnt set_refcnt]. change (refcnt (set_locked false x)) with (refcnt x).
  assert (refcnt x -u 1 = refcnt x - 1) as Er by (apply u32_id; word).
  set (c1 := upd_buf b (fun x => set_refcnt _ x) _).
  assert (bc_ok c1 l) as Hok1.
  { unfold c1. apply bc_ok_upd; [done| |apply bc_ok_upd; [done| |done]].
    - intros y. rewrite lookup_upd_buf, decide_True, Hx by done. intros [= <-]. split; [apply u32_range|done].
    - intros y Hy. rewrite Hx in Hy. injection Hy as <-. done. }
  assert (forall j, bufs c1 !! j = if decide (j = b) then Some (set_refcnt (refcnt x -u 1) (set_locked false x))
                                   else bufs c !! j) as Hl1.
  { intros j. unfold c1. rewrite !lookup_upd_buf. destruct (decide (b = j)) as [->|]; [|by rewrite decide_False].
    rewrite decide_True, Hx by done. done. }
  assert (b < NBUF)%nat as Hb by (rewrite <- (bo_len _ _ Hok); by eapply lookup_lt_Some).
  rewrite Er. unfold released. cbv zeta. cbn [refcnt set_refcnt].
  change (refcnt (set_locked false x)) with (refcnt x). rewrite Er.
  replace (refcnt x - 1 =? 0) with (refcnt x =? 1) by (zify; destruct (Z.eqb_spec (refcnt x) 1), (Z.eqb_spec (refcnt x - 1) 0); lia).
  destruct (refcnt x =? 1) eqn:E1.
  - destruct (is_cache_enabled c) eqn:Een; cbn [negb andb].
    + destruct (release_order c1 l b (Z.land (alloc_flags x) BUF_ALLOC_NO_CACHE =? 0) Hok1 Hb) as (l1 & l2 & -> & Hok2).
      eexists _, _. split; [done|]. split; [exact Hok2|]. split; [apply (same_devices_trans c c1); [done|apply same_devices_relink]|].
      split; [by rewrite cg_events_relink|]. split; [|by exists l1, l2].
      intros j. rewrite core_relink, Hl1. case_decide; [by rewrite Er|done].
    + change (has_flag B_DIRTY (set_refcnt (refcnt x - 1) (set_locked false x))) with (has_flag B_DIRTY x).
      set (c2 := if has_flag B_DIRTY x then c1 else _).
      assert (bc_ok c2 l) as Hok2.
      { unfold c2. destruct (has_flag B_DIRTY x); [done|]. apply bc_ok_upd; [done| |done].
        intros y Hy. rewrite Hl1, decide_True in Hy by done. injection Hy as <-. split; [apply u32_range|done]. }
      assert (same_devices c c2 /\ cg_events c2 = cg_events c) as [Hsd Hev] by (unfold c2; destruct (has_flag B_DIRTY x); done).
      destruct (release_order c2 l b false Hok2 Hb) as (l1 & l2 & -> & Hok3).
      eexists _, _. split; [done|]. split; [exact Hok3|].
      split; [eapply same_devices_trans; [exact Hsd|apply same_devices_relink]|].
      split; [by rewrite cg_events_relink|]. split; [|by exists l1, l2].
      intros j. rewrite core_relink. unfold c2.
      destruct (has_flag B_DIRTY x); cbn [negb]; [rewrite Hl1; case_decide; [by rewrite Er|done]|].
      rewrite lookup_upd_buf, Hl1. repeat case_decide; subst; try done. by rewrite Er.
  - exists c1, l. split; [done|]. split; [done|]. split; [done|]. split; [done|]. split; [|done].
    intros j. rewrite Hl1. cbn [andb]. case_decide; [by rewrite Er|done].
Qed.

(** ** Block I/O by one process at a time

    [d] is the device of a file system on the IDE disk.  Between system calls of
    a single process every referenced buffer is locked by it, and a clean valid
    buffer agrees with the device. *)
Section blockio.
Context (cg : Z) (is_loop : Z -> bool) (d : Z).

Record blk_ok (c : bcache) (l : list nat) : Prop := {
  bk_ok : bc_ok c l;
  bk_disk : havedisk1 c = true;
  bk_flags : forall i x, bufs c !! i = Some x -> flags x = 0 \/ flags x = B_VALID \/ flags x = Z.lor B_VALID B_DIRTY;
  bk_ref : forall i x, bufs c !! i = Some x -> refcnt x = if locked x then 1 else 0;
  bk_id : forall i x, bufs c !! i = Some x -> dev x = d -> is_u32 (id x);
  bk_locked : forall i x, bufs c !! i = Some x -> locked x = true -> flags x <> 0;
  bk_clean : forall i x, bufs c !! i = Some x -> dev x = d -> locked x = false -> flags x = B_VALID ->
    bdata x = store c d (id x)
}.

(** Buffer [i] holds valid data of block [b]. *)
Definition caches (c : bcache) (i : nat) (b : Z) (x : buf) : Prop :=
  bufs c !! i = Some x /\ dev x = d /\ id x = b /\ flags x <> 0.

#[global] Instance caches_dec b x : Decision (dev x = d /\ id x = b /\ flags x <> 0).
Proof. apply _. Defined.

(** The contents of a block as a reader of it sees them. *)
Definition view (c : bcache) (b : Z) : block :=
  match list_find (fun x => dev x = d /\ id x = b /\ flags x <> 0) (bufs c) with
  | Some (_, x) => bdata x
  | None => store c d b
  end.

Definition pinned (c : bcache) (b : Z) : Prop :=
  exists i x, caches c i b x /\ flags x = Z.lor B_VALID B_DIRTY.
Definition held (c : bcache) (h : nat) (b : Z) : Prop :=
  exists x, caches c h b x /\ locked x = true.

Definition busy (c : bcache) : nat := count (fun x => negb (is_free x)) (bufs c).

Lemma view_cached c l i b x : bc_ok c l -> d <> 0 -> caches c i b x -> view c b = bdata x.
Proof.
  intros Hok Hd (Hx & Hdev & Hid & Hf). unfold view.
  destruct (list_find _ _) as [[j y]|] eqn:E.
  - apply list_find_Some in E as (Hy & (Hdev' & Hid' & _) & _).
    assert (j = i) as -> by (apply (bo_uniq _ _ Hok j i y x); congruence). congruence.
  - apply list_find_None in E. rewrite Forall_lookup in E. exfalso. by apply (E i x Hx).
Qed.

Lemma view_uncached c b : (forall i x, ~ caches c i b x) -> view c b = store c d b.
Proof.
  intros H. unfold view. destruct (list_find _ _) as [[j y]|] eqn:E; [|done].
  apply list_find_Some in E as (Hy & Hc & _). exfalso. by apply (H j y).
Qed.

Lemma caches_unique c l i j b x y : bc_ok c l -> d <> 0 -> caches c i b x -> caches c j b y -> i = j /\ x = y.
Proof.
  intros Hok Hd (Hx & H1 & H2 & _) (Hy & H3 & H4 & _).
  assert (i = j) as <- by (apply (bo_uniq _ _ Hok i j x y); congruence). split; congruence.
Qed.

Lemma caches_dec_ex c b : (exists i x, caches c i b x) \/ (forall i x, ~ caches c i b x).
Proof.
  destruct (list_find (fun x => dev x = d /\ id x = b /\ flags x <> 0) (bufs c)) as [[j y]|] eqn:E.
  - left. apply list_find_Some in E as (Hy & Hc & _). exists j, y. done.
  - right. intros i x [Hx Hc]. apply list_find_None in E. rewrite Forall_lookup in E. by apply (E i x Hx).
Qed.

(** The transfer of a locked buffer whose contents are not valid: a read. *)
Lemma brw_read c i x :
  is_loop d = false -> havedisk1 c = true -> bufs c !! i = Some x -> dev x = d -> locked x = true ->
  flags x = 0 -> 0 <= id x < FSSIZE ->
  exists c', brw is_loop i c = inr (tt, c') /\
    c' = upd_buf i (fun b => set_flags (Z.land (Z.lor (flags b) B_VALID) (Z.lnot B_DIRTY)) b)
           (upd_buf i (set_bdata (store c d (id x))) c).
Proof.
  intros Hloop Hdisk Hx Hdev Hlk Hf Hid. eexists. split; [|done].
  unfold brw, iderw, transfer, holdingsleep. mrun. rewrite Hx, Hdev, Hloop. rewrite Hx. cbn [from_option].
  rewrite Hlk, Hf, Hdisk. cbn [negb]. simpl (Z.land 0 _ =? _).
  rewrite andb_false_r, u32_id by (unfold FSSIZE in Hid; word).
  destruct (Z.leb_spec FSSIZE (id x)); [lia|]. rewrite Hx. unfold has_flag. rewrite Hf, Hdev.
  simpl (negb _). cbv iota. rewrite u32_id by (unfold FSSIZE in Hid; word). done.
Qed.

(** The transfer of a locked dirty buffer: a write. *)
Lemma brw_write c i x :
  is_loop d = false -> havedisk1 c = true -> bufs c !! i = Some x -> dev x = d -> locked x = true ->
  flags x = Z.lor B_VALID B_DIRTY -> 0 <= id x < FSSIZE ->
  exists c', brw is_loop i c = inr (tt, c') /\
    c' = upd_buf i (fun b => set_flags (Z.land (Z.lor (flags b) B_VALID) (Z.lnot B_DIRTY)) b)
           (Bcache (bufs c) (hprev c) (hnext c) (is_cache_enabled c) (havedisk1 c)
                (fun d' n => if (d' =? d) && (n =? id x) then bdata x else store c d' n)
                (wtrace c ++ [(d, id x, bdata x)]) (cg_events c)).
Proof.
  intros Hloop Hdisk Hx Hdev Hlk Hf Hid. eexists. split; [|done].
  unfold brw, iderw, transfer, holdingsleep. mrun. rewrite Hx, Hdev, Hloop. rewrite Hx. cbn [from_option].
  rewrite Hlk, Hf, Hdisk. cbn [negb]. simpl (Z.land _ _ =? _).
  rewrite andb_false_r, u32_id by (unfold FSSIZE in Hid; word).
  destruct (Z.leb_spec FSSIZE (id x)); [lia|]. rewrite Hx. unfold has_flag. rewrite Hf, Hdev.
  simpl (negb _). cbv iota. rewrite u32_id by (unfold FSSIZE in Hid; word). by rewrite Hdisk.
Qed.
(** *** States that differ in one buffer *)

Definition changed (c c' : bcache) (h : nat) (x' : buf) : Prop :=
  forall j, core <$> bufs c' !! j = core <$> if decide (j = h) then Some x' else bufs c !! j.

Lemma changed_inv c c' h x' j y' : changed c c' h x' -> bufs c' !! j = Some y' ->
  exists y, (if decide (j = h) then Some x' else bufs c !! j) = Some y /\ core y' = core y.
Proof.
  intros Hch Hy. specialize (Hch j). rewrite Hy in Hch. simpl in Hch.
  destruct (if decide (j = h) then _ else _) as [y|]; [|done]. exists y. split; [done|]. by apply (inj Some).
Qed.

Lemma changed_fwd c c' h x' j y : changed c c' h x' ->
  (if decide (j = h) then Some x' else bufs c !! j) = Some y -> exists y', bufs c' !! j = Some y' /\ core y' = core y.
Proof.
  intros Hch Hy. specialize (Hch j). rewrite Hy in Hch. simpl in Hch.
  destruct (bufs c' !! j) as [y'|]; [|done]. exists y'. split; [done|]. by apply (inj Some).
Qed.

Lemma blk_ok_change c c' l l' h x x' :
  blk_ok c l -> bc_ok c' l' -> bufs c !! h = Some x -> changed c c' h x' -> havedisk1 c' = true ->
  (flags x' = 0 \/ flags x' = B_VALID \/ flags x' = Z.lor B_VALID B_DIRTY) ->
  refcnt x' = (if locked x' then 1 else 0) -> (dev x' = d -> is_u32 (id x')) ->
  (locked x' = true -> flags x' <> 0) ->
  (dev x' = d -> locked x' = false -> flags x' = B_VALID -> bdata x' = store c' d (id x')) ->
  (forall j y, j <> h -> bufs c !! j = Some y -> dev y = d -> store c' d (id y) = store c d (id y)) ->
  blk_ok c' l'.
Proof.
  intros [H1 H2 H3 H4 H5 H6 H7] Hok' Hx Hch Hd Hf Hr Hi Hlk Hcl Hst. split; [done|done|..];
    intros j y' Hy'; destruct (changed_inv _ _ _ _ _ _ Hch Hy') as (y & Hy & E%core_eq_fields);
    destruct E as (Ef & _ & Ed & Ei & El & Er & _ & Eb); rewrite ?Ef, ?Ed, ?Ei, ?El, ?Er, ?Eb;
    destruct (decide (j = h)) as [->|Hne]; try (injection Hy as <-; done); eauto.
  intros Hdev Hl Hfl. rewrite (Hst j y) by done. eauto.
Qed.

Lemma count_core (P : buf -> bool) l k : (forall x y, core x = core y -> P x = P y) ->
  core <$> l = core <$> k -> count P l = count P k.
Proof.
  intros HP. revert k. induction l as [|x l IH]; intros [|y k] E; try done.
  simpl in E. injection E. intros El. intros. rewrite !count_cons, (IH k El).
  rewrite (HP x y); [done|]. unfold core. congruence.
Qed.

Lemma changed_list c c' h x' : changed c c' h x' -> (h < length (bufs c))%nat ->
  core <$> bufs c' = core <$> <[h := x']> (bufs c).
Proof.
  intros Hch Hh. apply list_eq. intros j. rewrite !list_lookup_fmap, Hch.
  case_decide; subst; [by rewrite list_lookup_insert_eq|by rewrite list_lookup_insert_ne].
Qed.

Lemma busy_changed c c' h x x' : changed c c' h x' -> bufs c !! h = Some x ->
  (busy c' + (if is_free x then 0 else 1) = busy c + (if is_free x' then 0 else 1))%nat.
Proof.
  intros Hch Hx. unfold busy.
  rewrite (count_core _ (bufs c') (<[h := x']> (bufs c))).
  - pose proof (count_insert (fun x => negb (is_free x)) (bufs c) h x x' Hx) as H. simpl in H.
    destruct (is_free x), (is_free x'); simpl in *; lia.
  - intros y z (Ef & _ & _ & _ & _ & Er & _)%core_eq_fields. unfold is_free, has_flag. by rewrite Ef, Er.
  - apply changed_list; [done|]. by eapply lookup_lt_Some.
Qed.

Lemma caches_changed c c' h x' i b y : changed c c' h x' -> i <> h ->
  caches c i b y -> exists y', caches c' i b y' /\ core y' = core y.
Proof.
  intros Hch Hne (Hy & H1 & H2 & H3). destruct (changed_fwd c c' h x' i y Hch) as (y' & Hy' & E).
  { by rewrite decide_False. }
  exists y'. split; [|done]. apply core_eq_fields in E as (? & _ & ? & ? & _). split; [done|]. split_and!; congruence.
Qed.

Lemma caches_changed_inv c c' h x' i b y' : changed c c' h x' -> i <> h ->
  caches c' i b y' -> exists y, caches c i b y /\ core y' = core y.
Proof.
  intros Hch Hne (Hy & H1 & H2 & H3). destruct (changed_inv c c' h x' i y' Hch Hy) as (y & Hy' & E).
  rewrite decide_False in Hy' by done. exists y. split; [|done].
  apply core_eq_fields in E as (? & _ & ? & ? & _). split; [done|]. split_and!; congruence.
Qed.

(** Views of blocks the changed buffer does not stand for. *)
Lemma view_changed c c' l l' h x x' b :
  bc_ok c l -> bc_ok c' l' -> d <> 0 -> changed c c' h x' -> bufs c !! h = Some x ->
  ~ caches c h b x -> ~ (dev x' = d /\ id x' = b /\ flags x' <> 0) -> store c' d b = store c d b ->
  view c' b = view c b.
Proof.
  intros Hok Hok' Hd Hch Hx Hn Hn' Hst. destruct (caches_dec_ex c b) as [(i & y & Hy)|Hno].
  - assert (i <> h) as Hne.
    { intros ->. apply Hn. assert (y = x) as -> by (destruct Hy; congruence). done. }
    destruct (caches_changed c c' h x' i b y Hch Hne Hy) as (y' & Hy' & E).
    rewrite (view_cached c l i b y), (view_cached c' l' i b y') by done. by apply core_eq_fields in E as (_ & _ & _ & _ & _ & _ & _ & E).
  - rewrite (view_uncached c) by done. rewrite view_uncached; [done|].
    intros i y' Hy'. destruct (decide (i = h)) as [->|Hne].
    + destruct Hy' as (Hy' & H1 & H2 & H3). destruct (changed_inv _ _ _ _ _ _ Hch Hy') as (y & Hy & E).
      rewrite decide_True in Hy by done. injection Hy as <-. apply core_eq_fields in E as (E1 & _ & E2 & E3 & _).
      apply Hn'. split_and!; congruence.
    + destruct (caches_changed_inv c c' h x' i b y' Hch Hne Hy') as (y & Hy & _). by apply (Hno i y).
Qed.
(** *** bread *)

Hypothesis Hd : d <> 0.
Hypothesis Hloop : is_loop d = false.

Lemma bread_valid c c1 b h x1 :
  buf_cache_get cg d b 0 c = inr (h, c1) -> bufs c1 !! h = Some x1 -> Z.land (flags x1) B_VALID <> 0 ->
  bread cg is_loop d b c = inr (h, c1).
Proof.
  intros E Hx Hf. unfold bread. rewrite (bind_run _ _ _ _ _ E). mrun. rewrite Hx.
  destruct (Z.eqb_spec (Z.land (flags x1) B_VALID) 0); done.
Qed.

Lemma bread_invalid c c1 l b h x1 :
  buf_cache_get cg d b 0 c = inr (h, c1) -> bc_ok c1 l -> bufs c1 !! h = Some x1 -> flags x1 = 0 ->
  havedisk1 c1 = true -> dev x1 = d -> id x1 = b -> locked x1 = true -> 0 <= b < FSSIZE ->
  exists c2, bread cg is_loop d b c = inr (h, c2) /\ bc_ok c2 l /\ same_devices c1 c2 /\
    forall j, bufs c2 !! j = if decide (j = h) then Some (set_flags B_VALID (set_bdata (store c1 d b) x1))
                             else bufs c1 !! j.
Proof.
  intros E Hok Hx Hf Hdisk Hdev Hid Hlk Hb.
  destruct (brw_read c1 h x1) as (c2 & E2 & Ec2); try done; [by rewrite Hid|].
  exists c2. split; [|split; [|split]].
  - unfold bread. rewrite (bind_run _ _ _ _ _ E). mrun. rewrite Hx, Hf. simpl (Z.land 0 _ =? 0).
    cbv iota. rewrite E2. done.
  - rewrite Ec2. destruct (bo_ref _ _ Hok h x1 Hx) as [Hu Hne].
    apply bc_ok_upd; [done| |apply bc_ok_upd; [done| |done]].
    + intros y. rewrite lookup_upd_buf, decide_True, Hx by done. intros [= <-]. done.
    + intros y Hy. rewrite Hx in Hy. injection Hy as <-. done.
  - rewrite Ec2. done.
  - intros j. rewrite Ec2, !lookup_upd_buf. destruct (decide (h = j)) as [<-|]; [|by rewrite decide_False].
    rewrite decide_True, Hx by done. simpl. unfold set_flags. simpl. rewrite Hf, Hid. done.
Qed.

(** The buffer [bread] returns: what it was before and what it is after. *)
Lemma bread_run c l b :
  blk_ok c l -> 0 <= b < FSSIZE -> (forall h, ~ held c h b) -> (busy c < NBUF)%nat ->
  exists h x x' c', bread cg is_loop d b c = inr (h, c') /\ bc_ok c' l /\ same_devices c c' /\
    (forall j, bufs c' !! j = if decide (j = h) then Some x' else bufs c !! j) /\
    bufs c !! h = Some x /\ locked x = false /\
    dev x' = d /\ id x' = b /\ locked x' = true /\ refcnt x' = 1 /\ bdata x' = view c b /\
    (caches c h b x /\ flags x' = flags x \/
     ((forall i y, ~ caches c i b y) /\ is_free x = true /\ flags x' = B_VALID)).
Proof.
  intros Hbk Hb Hnh Hbusy. pose proof Hbk as [Hok Hdisk Hfl Href Hid Hlk Hcl].
  destruct (first_match (key d b) (bufs c) l) as [h|] eqn:Efm.
  - apply first_match_Some in Efm as (x & Hx & [Hdev Hxid]%key_true & _).
    assert (locked x = false) as Hxl.
    { destruct (locked x) eqn:E; [|done]. exfalso. apply (Hnh h). exists x.
      split; [|done]. split; [done|]. split; [done|]. split; [done|]. by apply (Hlk h x). }
    pose proof (Href h x Hx) as Hr. rewrite Hxl in Hr.
    destruct (get_hit cg c l d b 0 h x Hok Hd Hx Hdev Hxid Hxl) as [E1 Hok1]; [rewrite Hr; lia|].
    set (x1 := set_locked true (set_refcnt (refcnt x +u 1) x)).
    assert (forall j, bufs (hit_state cg h c) !! j = if decide (j = h) then Some x1 else bufs c !! j) as Hl1.
    { intros j. unfold hit_state, log_event. cbn [bufs]. rewrite !lookup_upd_buf.
      destruct (decide (h = j)) as [<-|]; [|by rewrite decide_False]. rewrite decide_True, Hx by done. done. }
    assert (bufs (hit_state cg h c) !! h = Some x1) as Hx1 by (rewrite Hl1, decide_True; done).
    assert (refcnt x1 = 1) as Hr1 by (unfold x1; simpl; rewrite Hr; done).
    destruct (Hfl h x Hx) as [Hf0|Hf1].
    + destruct (bread_invalid c _ l b h x1 E1 Hok1 Hx1) as (c2 & E2 & Hok2 & Hsd & Hl2); try done.
      exists h, x, (set_flags B_VALID (set_bdata (store (hit_state cg h c) d b) x1)), c2. split_and!; try done.
      * intros j. rewrite Hl2, Hl1. by case_decide.
      * simpl. symmetry. apply view_uncached. intros i y (Hy & Hy1 & Hy2 & Hy3).
        assert (i = h) as -> by (apply (bo_uniq _ _ Hok i h y x); congruence). congruence.
      * right. split; [|split; [|done]].
        -- intros i y (Hy & Hy1 & Hy2 & Hy3).
           assert (i = h) as -> by (apply (bo_uniq _ _ Hok i h y x); congruence). congruence.
        -- unfold is_free, has_flag. rewrite Hr, Hf0. done.
    + assert (caches c h b x) as Hca.
      { split; [done|]. split; [done|]. split; [done|]. destruct Hf1 as [-> | ->]; done. }
      exists h, x, x1, (hit_state cg h c).
      assert (Z.land (flags x1) B_VALID <> 0) as Hv by (simpl; destruct Hf1 as [-> | ->]; done).
      split_and!; try done.
      * by eapply bread_valid.
      * symmetry. exact (view_cached c l h b x Hok Hd Hca).
      * left. done.
  - assert (forall i y, ~ caches c i b y) as Hno.
    { intros i y (Hy & Hy1 & Hy2 & _).
      pose proof (first_match_None _ _ _ _ _ Efm (lookup_in_order _ _ _ _ Hok Hy) Hy) as Hk.
      assert (key d b y = true) by (by apply key_true). congruence. }
    destruct (first_match is_free (bufs c) (reverse l)) as [h|] eqn:Efree.
    + pose proof Efree as Efree'. apply first_match_Some in Efree' as (x & Hx & Hfr & _).
      assert (locked x = false) as Hxl.
      { destruct (locked x) eqn:E; [|done]. pose proof (Href h x Hx) as Hr. rewrite E in Hr.
        unfold is_free in Hfr. rewrite Hr in Hfr. done. }
      destruct (get_miss cg c l d b 0 h x Hok Efm Efree Hx Hxl) as [E1 Hok1].
      set (x1 := set_locked true (recycle d b 0 x)).
      assert (forall j, bufs (miss_state cg d b 0 h c) !! j = if decide (j = h) then Some x1 else bufs c !! j) as Hl1.
      { intros j. unfold miss_state, log_event. cbn [bufs]. rewrite !lookup_upd_buf.
        destruct (decide (h = j)) as [<-|]; [|by rewrite decide_False]. rewrite decide_True, Hx by done. done. }
      assert (bufs (miss_state cg d b 0 h c) !! h = Some x1) as Hx1 by (rewrite Hl1, decide_True; done).
      destruct (bread_invalid c _ l b h x1 E1 Hok1 Hx1) as (c2 & E2 & Hok2 & Hsd & Hl2); try done.
      exists h, x, (set_flags B_VALID (set_bdata (store (miss_state cg d b 0 h c) d b) x1)), c2. split_and!; try done.
      * intros j. rewrite Hl2, Hl1. by case_decide.
      * simpl. symmetry. by apply view_uncached.
      * right. done.
    + exfalso. assert (count (fun x => negb (is_free x)) (bufs c) = length (bufs c)) as Hall.
      { apply count_all. intros x Hx. apply list_elem_of_lookup in Hx as [i Hx].
        rewrite (first_match_None _ _ _ i x Efree); [done| |done].
        rewrite elem_of_reverse. by eapply lookup_in_order. }
      unfold busy in Hbusy. rewrite Hall, (bo_len _ _ Hok) in Hbusy. lia.
Qed.
(** *** Laws of the block layer, as its clients use them *)

Lemma changed_of_eq c c' h x' :
  (forall j, bufs c' !! j = if decide (j = h) then Some x' else bufs c !! j) -> changed c c' h x'.
Proof. intros H j. by rewrite H. Qed.

Lemma pinned_changed c c' h x' b : changed c c' h x' -> (forall x, bufs c !! h = Some x -> ~ (dev x = d /\ id x = b)) ->
  ~ (dev x' = d /\ id x' = b) -> pinned c' b <-> pinned c b.
Proof.
  intros Hch Hx Hx'. split; intros (i & y & Hy & Hf).
  - assert (i <> h) as Hne.
    { intros ->. destruct Hy as (Hy & Hy1 & Hy2 & _). destruct (changed_inv _ _ _ _ _ _ Hch Hy) as (z & Hz & E%core_eq_fields).
      rewrite decide_True in Hz by done. injection Hz as <-. destruct E as (_ & _ & E1 & E2 & _). apply Hx'. split; congruence. }
    destruct (caches_changed_inv c c' h x' i b y Hch Hne Hy) as (z & Hz & E%core_eq_fields).
    exists i, z. split; [done|]. destruct E; congruence.
  - assert (i <> h) as Hne by (intros ->; destruct Hy as (Hy & ? & ? & _); by apply (Hx y Hy)).
    destruct (caches_changed c c' h x' i b y Hch Hne Hy) as (z & Hz & E%core_eq_fields).
    exists i, z. split; [done|]. destruct E; congruence.
Qed.

Lemma held_changed c c' h x' k b : changed c c' h x' -> k <> h -> held c' k b <-> held c k b.
Proof.
  intros Hch Hne. split; intros (y & Hy & Hl).
  - destruct (caches_changed_inv c c' h x' k b y Hch Hne Hy) as (z & Hz & E%core_eq_fields).
    exists z. split; [done|]. destruct E as (_ & _ & _ & _ & E & _). congruence.
  - destruct (caches_changed c c' h x' k b y Hch Hne Hy) as (z & Hz & E%core_eq_fields).
    exists z. split; [done|]. destruct E as (_ & _ & _ & _ & E & _). congruence.
Qed.

Lemma held_self c c' h x' b : changed c c' h x' ->
  held c' h b <-> dev x' = d /\ id x' = b /\ flags x' <> 0 /\ locked x' = true.
Proof.
  intros Hch. split.
  - intros (y & (Hy & H1 & H2 & H3) & H4). destruct (changed_inv _ _ _ _ _ _ Hch Hy) as (z & Hz & E%core_eq_fields).
    rewrite decide_True in Hz by done. injection Hz as <-. destruct E as (E1 & _ & E2 & E3 & E4 & _).
    split_and!; congruence.
  - intros (H1 & H2 & H3 & H4). destruct (changed_fwd c c' h x' h x' Hch) as (y & Hy & E%core_eq_fields);
      [by rewrite decide_True|]. destruct E as (E1 & _ & E2 & E3 & E4 & _). exists y. split; [split|congruence]; [done|].
    split_and!; congruence.
Qed.

Lemma caches_self c c' h x' b : changed c c' h x' -> dev x' = d -> id x' = b -> flags x' <> 0 ->
  exists y, caches c' h b y /\ core y = core x'.
Proof.
  intros Hch H1 H2 H3. destruct (changed_fwd c c' h x' h x' Hch) as (y & Hy & E); [by rewrite decide_True|].
  exists y. split; [|done]. apply core_eq_fields in E as (E1 & _ & E2 & E3 & _). split; [done|]. split_and!; congruence.
Qed.

Lemma pinned_caches c l i b x : bc_ok c l -> caches c i b x -> pinned c b <-> flags x = Z.lor B_VALID B_DIRTY.
Proof.
  intros Hok Hx. split; [|intros H; by exists i, x].
  intros (j & y & Hy & Hf). destruct (caches_unique c l i j b x y Hok Hd Hx Hy) as [_ ->]. done.
Qed.

Definition same_views (c c' : bcache) : Prop := forall b, view c' b = view c b.

Lemma bread_law c l b :
  blk_ok c l -> 0 <= b < FSSIZE -> (forall h, ~ held c h b) -> (busy c < NBUF)%nat ->
  exists h x' c', bread cg is_loop d b c = inr (h, c') /\ blk_ok c' l /\ same_devices c c' /\ same_views c c' /\
    bufs c' !! h = Some x' /\ held c' h b /\ bdata x' = view c b /\
    (forall b', pinned c' b' <-> pinned c b') /\
    (forall k b', held c' k b' <-> held c k b' \/ k = h /\ b' = b) /\
    (pinned c b -> busy c' = busy c) /\ (~ pinned c b -> busy c' = S (busy c)).
Proof.
  intros Hbk Hb Hnh Hbusy.
  destruct (bread_run c l b Hbk Hb Hnh Hbusy) as
    (h & x & x' & c' & E & Hok' & Hsd & Hl & Hx & Hxl & Hdev & Hid & Hlk & Href & Hdata & Hcase).
  pose proof Hbk as [Hok Hdisk Hfl _ Hids _ _]. pose proof (changed_of_eq _ _ _ _ Hl) as Hch.
  assert (flags x' = B_VALID \/ flags x' = Z.lor B_VALID B_DIRTY) as Hf'.
  { destruct Hcase as [[(_ & _ & _ & Hne) ->]|(_ & _ & ->)]; [|by left].
    destruct (Hfl h x Hx) as [?|?]; [done|done]. }
  assert (flags x' <> 0) as Hf0 by (destruct Hf' as [-> | ->]; done).
  assert (is_free x' = false) as Hnf by (unfold is_free; rewrite Href; done).
  exists h, x', c'. split; [done|]. split_and!.
  - eapply (blk_ok_change c c' l l h x x'); try done.
    + destruct Hsd as (_ & _ & _ & ->). done.
    + by right.
    + by rewrite Hlk.
    + intros _. rewrite Hid. unfold FSSIZE in Hb. word.
    + rewrite Hlk. done.
    + intros. destruct Hsd as (-> & _). done.
  - done.
  - intros b'. destruct (Z.eq_dec b' b) as [->|Hne].
    + rewrite <- Hdata. destruct (caches_self c c' h x' b Hch Hdev Hid Hf0) as (y & Hy & Ey).
      rewrite (view_cached c' l h b y) by done. by apply core_eq_fields in Ey as (_ & _ & _ & _ & _ & _ & _ & Ey).
    + destruct Hcase as [[Hca _]|(Hno & Hfree & _)].
      * apply (view_changed c c' l l h x x'); try done; [intros (_ & _ & ? & _); destruct Hca as (_ & _ & ? & _); congruence|
          intros (_ & ? & _); congruence|destruct Hsd as (-> & _); done].
      * destruct (decide (dev x = d /\ id x = b' /\ flags x <> 0)) as [Hcx|Hcx].
        -- (* the recycled buffer held a clean copy of b' *)
           assert (caches c h b' x) as Hca by (split; done).
           rewrite (view_cached c l h b' x Hok Hd Hca). destruct Hcx as (Hx1 & Hx2 & Hx3).
           assert (flags x = B_VALID) as Hfx.
           { destruct (Hfl h x Hx) as [?|[?|Hd6]]; [done|done|]. unfold is_free, has_flag in Hfree. rewrite Hd6 in Hfree.
             rewrite andb_false_r in Hfree. done. }
           rewrite (bk_clean _ _ Hbk h x Hx Hx1 Hxl Hfx), Hx2. rewrite view_uncached; [destruct Hsd as (-> & _); done|].
           intros i y Hy. destruct (decide (i = h)) as [->|Hih].
           ++ destruct Hy as (Hy & _ & Hy2 & _). rewrite Hl, decide_True in Hy by done. injection Hy as <-. congruence.
           ++ destruct (caches_changed_inv c c' h x' i b' y Hch Hih Hy) as (z & Hz & _).
              destruct (caches_unique c l i h b' z x Hok Hd Hz Hca). done.
        -- apply (view_changed c c' l l h x x'); try done;
             [intros [_ ?]; done|intros (_ & ? & _); congruence|destruct Hsd as (-> & _); done].
  - rewrite Hl, decide_True by done. done.
  - apply (held_self c c' h x' b Hch). done.
  - done.
  - intros b'. destruct (Z.eq_dec b' b) as [->|Hne].
    + destruct (caches_self c c' h x' b Hch Hdev Hid Hf0) as (y & Hy & Ey%core_eq_fields).
      destruct Ey as (Ey & _). rewrite (pinned_caches c' l h b y) by done. rewrite Ey.
      destruct Hcase as [[Hca Hff]|(Hno & _ & Hff)].
      * rewrite (pinned_caches c l h b x) by done. by rewrite Hff.
      * rewrite Hff. split; [done|]. intros (i & z & Hz & _). by apply Hno in Hz.
    + destruct (decide (dev x = d /\ id x = b')) as [[Hx1 Hx2]|Hnx].
      * destruct Hcase as [[(_ & _ & ? & _) _]|(Hno & Hfree & _)]; [congruence|].
        split; intros (i & z & Hz & Hfz).
        -- destruct (decide (i = h)) as [->|Hih].
           { destruct Hz as (Hz & _ & Hz2 & _). rewrite Hl, decide_True in Hz by done. injection Hz as <-. congruence. }
           destruct (caches_changed_inv c c' h x' i b' z Hch Hih Hz) as (w & Hw & Ew%core_eq_fields).
           exists i, w. split; [done|]. destruct Ew; congruence.
        -- destruct (decide (i = h)) as [->|Hih].
           { exfalso. destruct Hz as (Hz & _). assert (z = x) as -> by congruence.
             unfold is_free, has_flag in Hfree. rewrite Hfz, andb_false_r in Hfree. done. }
           destruct (caches_changed c c' h x' i b' z Hch Hih Hz) as (w & Hw & Ew%core_eq_fields).
           exists i, w. split; [done|]. destruct Ew; congruence.
      * apply (pinned_changed c c' h x'); [done| |intros [_ ?]; congruence].
        intros z Hz. assert (z = x) as -> by congruence. done.
  - intros k b'. destruct (decide (k = h)) as [->|Hkh].
    + rewrite (held_self c c' h x' b' Hch). split.
      * intros (_ & ? & _). right. split; [done|congruence].
      * intros [(y & (Hy & _) & Hyl)|[_ ->]]; [congruence|done].
    + rewrite (held_changed c c' h x' k b' Hch Hkh). naive_solver.
  - intros (i & y & Hy & Hfy). destruct Hcase as [[Hca _]|(Hno & _)]; [|by apply Hno in Hy].
    destruct (caches_unique c l i h b y x Hok Hd Hy Hca) as [-> ->].
    pose proof (busy_changed c c' h x x' Hch Hx) as Hbz. rewrite Hnf in Hbz.
    assert (is_free x = false) as Hfx by (unfold is_free, has_flag; rewrite Hfy, andb_false_r; done).
    rewrite Hfx in Hbz. lia.
  - intros Hnp. pose proof (busy_changed c c' h x x' Hch Hx) as Hbz. rewrite Hnf in Hbz.
    assert (is_free x = true) as Hfx.
    { destruct Hcase as [[Hca _]|(_ & Hfree & _)]; [|done].
      unfold is_free, has_flag. rewrite (bk_ref _ _ Hbk h x Hx), Hxl.
      destruct (Hfl h x Hx) as [->|[->|Hd6]]; [done|done|].
      exfalso. apply Hnp. by exists h, x. }
    rewrite Hfx in Hbz. lia.
Qed.
(** A locked buffer changes its data or flags only. *)
Definition retouch (x x' : buf) : Prop :=
  dev x' = dev x /\ id x' = id x /\ locked x' = locked x /\ refcnt x' = refcnt x.

Lemma retouch_laws c c' l h b x x' :
  blk_ok c l -> bc_ok c' l -> changed c c' h x' -> caches c h b x -> locked x = true -> retouch x x' ->
  (flags x' = B_VALID \/ flags x' = Z.lor B_VALID B_DIRTY) -> havedisk1 c' = true ->
  (forall b', b' <> b -> store c' d b' = store c d b') ->
  blk_ok c' l /\ (forall k b', held c' k b' <-> held c k b') /\ busy c' = busy c /\
  (forall b', b' <> b -> view c' b' = view c b') /\ view c' b = bdata x' /\
  (forall b', b' <> b -> pinned c' b' <-> pinned c b') /\
  (pinned c' b <-> flags x' = Z.lor B_VALID B_DIRTY).
Proof.
  intros Hbk Hok' Hch Hca Hlk (Ed & Ei & El & Er) Hf Hdisk Hst.
  pose proof Hbk as [Hok _ _ Href Hids _ _]. pose proof Hca as (Hx & Hdev & Hid & Hf0).
  assert (flags x' <> 0) as Hf0' by (destruct Hf as [-> | ->]; done).
  assert (refcnt x = 1) as Hr by (rewrite (Href h x Hx), Hlk; done).
  destruct (caches_self c c' h x' b Hch ltac:(congruence) ltac:(congruence) Hf0') as (y & Hy & Ey).
  split; [|split; [|split; [|split; [|split; [|split]]]]].
  - eapply (blk_ok_change c c' l l h x x'); try done.
    + by right.
    + rewrite Er, El, Hlk. done.
    + rewrite Ei. intros _. by apply (Hids h x).
    + rewrite El, Hlk. done.
    + intros j z Hj Hz Hzd. apply Hst. intros Hzb. apply Hj.
      apply (bo_uniq _ _ Hok j h z x); congruence.
  - intros k b'. destruct (decide (k = h)) as [->|Hkh]; [|by apply (held_changed c c' h x')].
    rewrite (held_self c c' h x' b' Hch). rewrite Ed, Ei, El. split.
    + intros (_ & Hb' & _). exists x. split; [|done]. split; [done|]. split_and!; congruence.
    + intros (z & (Hz & H1 & H2 & H3) & H4). assert (z = x) as -> by congruence. done.
  - pose proof (busy_changed c c' h x x' Hch Hx) as Hb.
    assert (is_free x = false) as E1 by (unfold is_free; rewrite Hr; done).
    assert (is_free x' = false) as E2 by (unfold is_free; rewrite Er, Hr; done).
    rewrite E1, E2 in Hb. lia.
  - intros b' Hne. apply (view_changed c c' l l h x x'); try done.
    + intros (_ & _ & ? & _). congruence.
    + intros (_ & ? & _). congruence.
    + by apply Hst.
  - rewrite (view_cached c' l h b y) by done. by apply core_eq_fields in Ey as (_ & _ & _ & _ & _ & _ & _ & ?).
  - intros b' Hne. apply (pinned_changed c c' h x'); [done| |intros [_ ?]; congruence].
    intros z Hz [_ ?]. congruence.
  - rewrite (pinned_caches c' l h b y) by done. apply core_eq_fields in Ey as (-> & _). done.
Qed.

(** The same for a store into a field of the buffer. *)
Lemma retouch_upd c l h b x f :
  blk_ok c l -> caches c h b x -> locked x = true ->
  (forall y, next (f y) = next y /\ prev (f y) = prev y /\ dev (f y) = dev y /\ id (f y) = id y /\
    locked (f y) = locked y /\ refcnt (f y) = refcnt y) ->
  (flags (f x) = B_VALID \/ flags (f x) = Z.lor B_VALID B_DIRTY) ->
  let c' := upd_buf h f c in
  blk_ok c' l /\ same_devices c c' /\ caches c' h b (f x) /\ (forall k b', held c' k b' <-> held c k b') /\
  busy c' = busy c /\ (forall b', view c' b' = if decide (b' = b) then bdata (f x) else view c b') /\
  (forall b', b' <> b -> pinned c' b' <-> pinned c b') /\ (pinned c' b <-> flags (f x) = Z.lor B_VALID B_DIRTY).
Proof.
  intros Hbk Hca Hlk Hf Hfl c'. pose proof Hbk as [Hok Hdisk _ _ _ _ _]. pose proof Hca as (Hx & Hdev & Hid & Hf0).
  assert (forall j, bufs c' !! j = if decide (j = h) then Some (f x) else bufs c !! j) as Hl.
  { intros j. unfold c'. rewrite lookup_upd_buf. destruct (decide (h = j)) as [<-|]; [|by rewrite decide_False].
    rewrite decide_True, Hx by done. done. }
  destruct (Hf x) as (_ & _ & F1 & F2 & F3 & F4).
  assert (bc_ok c' l) as Hok'.
  { apply bc_ok_upd; [intros y; by destruct (Hf y) as (? & ? & ? & ? & _)| |done].
    intros y Hy. destruct (Hf y) as (_ & _ & _ & _ & -> & ->). by apply (bo_ref _ _ Hok h y). }
  destruct (retouch_laws c c' l h b x (f x)) as (H1 & H2 & H3 & H4 & H5 & H6 & H7); try done.
  { by apply changed_of_eq. }
  split; [done|]. split; [done|]. split.
  { split; [rewrite Hl, decide_True; done|]. rewrite F1, F2. split_and!; try done. by destruct Hfl as [-> | ->]. }
  split; [done|]. split; [done|]. split; [|done]. intros b'. case_decide; subst; [done|by apply H4].
Qed.

Lemma caches_flags c l h b x : blk_ok c l -> caches c h b x -> flags x = B_VALID \/ flags x = Z.lor B_VALID B_DIRTY.
Proof. intros Hbk (Hx & _ & _ & Hf). by destruct (bk_flags _ _ Hbk h x Hx). Qed.

(** Storing into the data of a locked buffer. *)
Lemma set_data_law c l h b x v :
  blk_ok c l -> caches c h b x -> locked x = true ->
  let c' := upd_buf h (set_bdata v) c in
  blk_ok c' l /\ same_devices c c' /\ caches c' h b (set_bdata v x) /\
  (forall b', view c' b' = if decide (b' = b) then v else view c b') /\
  (forall b', pinned c' b' <-> pinned c b') /\ (forall k b', held c' k b' <-> held c k b') /\ busy c' = busy c.
Proof.
  intros Hbk Hca Hlk c'.
  destruct (retouch_upd c l h b x (set_bdata v)) as (H1 & H2 & H3 & H4 & H5 & H6 & H7 & H8); try done.
  { by apply (caches_flags c l h b x). }
  split; [done|]. split; [done|]. split; [done|]. split; [done|]. split; [|done].
  intros b'. destruct (Z.eq_dec b' b) as [->|Hne]; [|by apply H7].
  unfold c'. rewrite H8, (pinned_caches c l h b x) by (done || apply Hbk). done.
Qed.

(** Storing into a field of a locked buffer that the cache does not look at. *)
Lemma set_cgroup_law c l h b x v :
  blk_ok c l -> caches c h b x -> locked x = true ->
  let c' := upd_buf h (set_cgroup v) c in
  blk_ok c' l /\ same_devices c c' /\ caches c' h b (set_cgroup v x) /\ same_views c c' /\
  (forall b', pinned c' b' <-> pinned c b') /\ (forall k b', held c' k b' <-> held c k b') /\ busy c' = busy c.
Proof.
  intros Hbk Hca Hlk c'.
  destruct (retouch_upd c l h b x (set_cgroup v)) as (H1 & H2 & H3 & H4 & H5 & H6 & H7 & H8); try done.
  { by apply (caches_flags c l h b x). }
  split; [done|]. split; [done|]. split; [done|]. split; [|split; [|done]].
  - intros b'. unfold c'. rewrite H6. case_decide; [subst|done]. symmetry. apply (view_cached c l h b x); [apply Hbk|done|done].
  - intros b'. destruct (Z.eq_dec b' b) as [->|Hne]; [|by apply H7].
    unfold c'. rewrite H8, (pinned_caches c l h b x) by (done || apply Hbk). done.
Qed.

(** [b->flags |= B_DIRTY] on a locked buffer. *)
Lemma pin_law c l h b x :
  blk_ok c l -> caches c h b x -> locked x = true ->
  let f := fun x => set_flags (Z.lor (flags x) B_DIRTY) x in
  let c' := upd_buf h f c in
  blk_ok c' l /\ same_devices c c' /\ caches c' h b (f x) /\ same_views c c' /\
  (forall b', pinned c' b' <-> pinned c b' \/ b' = b) /\
  (forall k b', held c' k b' <-> held c k b') /\ busy c' = busy c.
Proof.
  intros Hbk Hca Hlk f c'.
  assert (flags (f x) = Z.lor B_VALID B_DIRTY) as Hff.
  { unfold f. simpl. by destruct (caches_flags c l h b x Hbk Hca) as [-> | ->]. }
  destruct (retouch_upd c l h b x f) as (H1 & H2 & H3 & H4 & H5 & H6 & H7 & H8); try done; [by right|].
  split; [done|]. split; [done|]. split; [done|]. split; [|split; [|done]].
  - intros b'. unfold c'. rewrite H6. case_decide; [subst|done]. symmetry. apply (view_cached c l h b x); [apply Hbk|done|done].
  - intros b'. destruct (Z.eq_dec b' b) as [->|Hne].
    + unfold c'. rewrite H8. naive_solver.
    + unfold c'. rewrite H7 by done. naive_solver.
Qed.

Lemma bwrite_law c l h b x :
  blk_ok c l -> caches c h b x -> locked x = true -> 0 <= b < FSSIZE ->
  exists c' x', bwrite is_loop h c = inr (tt, c') /\ blk_ok c' l /\
    (forall b', store c' d b' = if decide (b' = b) then bdata x else store c d b') /\
    wtrace c' = wtrace c ++ [(d, b, bdata x)] /\ is_cache_enabled c' = is_cache_enabled c /\
    caches c' h b x' /\ locked x' = true /\ bdata x' = bdata x /\ cgroup_ x' = cgroup_ x /\ same_views c c' /\
    (forall b', pinned c' b' <-> pinned c b' /\ b' <> b) /\
    (forall k b', held c' k b' <-> held c k b') /\ busy c' = busy c.
Proof.
  intros Hbk Hca Hlk Hb. pose proof Hbk as [Hok Hdisk Hfl _ _ _ _]. pose proof Hca as (Hx & Hdev & Hid & Hf0).
  destruct (pin_law c l h b x Hbk Hca Hlk) as (Hbk1 & Hsd1 & Hca1 & _). cbv zeta in Hca1.
  set (f := fun x => set_flags (Z.lor (flags x) B_DIRTY) x) in *. set (c1 := upd_buf h f c) in *.
  assert (flags (f x) = Z.lor B_VALID B_DIRTY) as Hff.
  { unfold f. simpl. destruct (Hfl h x Hx) as [?|[-> | ->]]; done. }
  destruct (brw_write c1 h (f x)) as (c' & E & Ec'); try done; [apply Hca1|simpl; lia|].
  set (x' := set_flags B_VALID x).
  assert (forall j, bufs c' !! j = if decide (j = h) then Some x' else bufs c !! j) as Hl.
  { intros j. rewrite Ec'. rewrite lookup_upd_buf. cbn [bufs]. unfold c1. rewrite lookup_upd_buf.
    destruct (decide (h = j)) as [<-|]; [|by rewrite decide_False]. rewrite decide_True, Hx by done.
    cbn [fmap option_fmap option_map]. rewrite Hff. done. }
  assert (bc_ok c' l) as Hok'.
  { rewrite Ec'. apply bc_ok_upd; [done| |].
    - cbn [bufs]. intros y Hy. by apply (bo_ref _ _ (bk_ok _ _ Hbk1) h y).
    - by apply (bc_ok_same c1); [..|apply Hbk1]. }
  assert (forall b', store c' d b' = if decide (b' = b) then bdata x else store c d b') as Hst.
  { intros b'. rewrite Ec'. cbn [store upd_buf upd_bufs]. rewrite Z.eqb_refl. simpl. rewrite Hid.
    case_decide as Hbb; [subst b'; by rewrite Z.eqb_refl|]. by rewrite (proj2 (Z.eqb_neq _ _)). }
  destruct (retouch_laws c c' l h b x x') as (H1 & H2 & H3 & H4 & H5 & H6 & H7); try done.
  { by apply changed_of_eq. }
  { by left. }
  { rewrite Ec'. done. }
  { intros b' Hne. rewrite Hst. by rewrite decide_False. }
  exists c', x'. split.
  { unfold bwrite, holdingsleep. mrun. rewrite Hx. cbn [from_option]. rewrite Hlk. cbn [negb]. exact E. }
  split; [done|]. split; [done|]. split; [rewrite Ec'; simpl; rewrite Hid; done|]. split; [rewrite Ec'; done|].
  split; [split; [rewrite Hl, decide_True; done|done]|]. split; [done|]. split; [done|]. split; [done|].
  split; [|split; [|done]].
  - intros b'. destruct (Z.eq_dec b' b) as [->|Hne]; [|by apply H4].
    rewrite H5, (view_cached c l h b x) by done. done.
  - intros b'. destruct (Z.eq_dec b' b) as [->|Hne]; [|rewrite H6 by done; naive_solver].
    rewrite H7. simpl. naive_solver.
Qed.
(** A block nobody holds and nobody pinned is on the device as it is seen. *)
Lemma view_clean c l b : blk_ok c l -> ~ pinned c b -> (forall h, ~ held c h b) -> view c b = store c d b.
Proof.
  intros Hbk Hnp Hnh. destruct (caches_dec_ex c b) as [(i & x & Hca)|Hno]; [|by apply view_uncached].
  pose proof Hbk as [Hok _ Hfl _ _ _ Hcl]. pose proof Hca as (Hx & Hdev & Hid & Hf0).
  rewrite (view_cached c l i b x) by done. rewrite <- Hid. apply (Hcl i x); try done.
  - destruct (locked x) eqn:E; [|done]. exfalso. apply (Hnh i). by exists x.
  - destruct (Hfl i x Hx) as [?|[?|Hd6]]; [done|done|]. exfalso. apply Hnp. by exists i, x.
Qed.

Lemma released_flags enabled x : refcnt x = 1 ->
  flags x = B_VALID \/ flags x = Z.lor B_VALID B_DIRTY ->
  flags (released enabled x) = if enabled then flags x else if decide (flags x = B_VALID) then 0 else flags x.
Proof.
  intros Hr Hf. unfold released. cbv zeta. cbn [refcnt set_refcnt]. change (refcnt (set_locked false x)) with (refcnt x).
  rewrite Hr. change (1 -u 1 =? 0) with true. destruct enabled; [done|]. unfold has_flag.
  cbn [andb negb flags set_refcnt set_locked]. destruct Hf as [Hf|Hf]; rewrite Hf; [done|]. exact Hf.
Qed.

Lemma released_fields enabled x :
  dev (released enabled x) = dev x /\ id (released enabled x) = id x /\ locked (released enabled x) = false /\
  refcnt (released enabled x) = refcnt x -u 1 /\ bdata (released enabled x) = bdata x.
Proof. unfold released. cbv zeta. destruct (_ && _); done. Qed.

Lemma release_law c l h b x :
  blk_ok c l -> caches c h b x -> locked x = true -> (pinned c b \/ bdata x = store c d b) ->
  exists c' l', buf_cache_release h c = inr (tt, c') /\ blk_ok c' l' /\ same_devices c c' /\ same_views c c' /\
    cg_events c' = cg_events c /\
    (forall b', pinned c' b' <-> pinned c b') /\
    (forall k b', held c' k b' <-> held c k b' /\ k <> h) /\
    (pinned c b -> busy c' = busy c) /\ (~ pinned c b -> busy c = S (busy c')).
Proof.
  intros Hbk Hca Hlk Hclean. pose proof Hbk as [Hok Hdisk Hfl Href Hids _ _]. pose proof Hca as (Hx & Hdev & Hid & Hf0).
  assert (refcnt x = 1) as Hr by (rewrite (Href h x Hx), Hlk; done).
  destruct (release_spec h c l x Hok Hx Hlk) as (c' & l' & E & Hok' & Hsd & Hev & Hch & _).
  set (en := is_cache_enabled c) in *. set (x' := released en x) in *. change (changed c c' h x') in Hch.
  destruct (released_fields en x) as (F1 & F2 & F3 & F4 & F5). fold x' in F1, F2, F3, F4, F5.
  assert (flags x = B_VALID \/ flags x = Z.lor B_VALID B_DIRTY) as Hf by (destruct (Hfl h x Hx) as [?|?]; done).
  pose proof (released_flags en x Hr Hf) as Ff. fold x' in Ff.
  assert (store c' = store c) as Hst by apply Hsd.
  assert (pinned c b <-> flags x = Z.lor B_VALID B_DIRTY) as Hpin by (by apply (pinned_caches c l h b x)).
  exists c', l'. split; [done|]. split_and!; try done.
  - eapply (blk_ok_change c c' l l' h x x'); try done.
    + destruct Hsd as (_ & _ & _ & ->). done.
    + rewrite Ff. destruct en; [by right|]. case_decide; [by left|]. by right.
    + rewrite F4, F3, Hr. done.
    + rewrite F2. intros _. by apply (Hids h x).
    + rewrite F3. done.
    + rewrite F2, F5, Hst, Hid. intros _ _ Hfx'. destruct Hclean as [Hp|?]; [|done]. exfalso.
      apply Hpin in Hp. rewrite Ff, Hp in Hfx'. destruct en; done.
    + intros. by rewrite Hst.
  - intros b'. destruct (Z.eq_dec b' b) as [->|Hne].
    + rewrite (view_cached c l h b x) by done. destruct (decide (flags x' = 0)) as [Hz|Hnz].
      * rewrite view_uncached.
        { rewrite Hst. destruct Hclean as [Hp|?]; [|done]. apply Hpin in Hp. rewrite Ff, Hp in Hz. destruct en; done. }
        intros i y Hy. destruct (decide (i = h)) as [->|Hih].
        -- destruct Hy as (Hy & _ & _ & Hy3). destruct (changed_inv _ _ _ _ _ _ Hch Hy) as (z & Hz' & Ez%core_eq_fields).
           rewrite decide_True in Hz' by done. injection Hz' as <-. destruct Ez; congruence.
        -- destruct (caches_changed_inv c c' h x' i b y Hch Hih Hy) as (z & Hz' & _).
           destruct (caches_unique c l i h b z x Hok Hd Hz' Hca). done.
      * destruct (caches_self c c' h x' b Hch) as (y & Hy & Ey%core_eq_fields); [congruence|congruence|done|].
        rewrite (view_cached c' l' h b y) by done. rewrite <- F5. by destruct Ey as (_ & _ & _ & _ & _ & _ & _ & ?).
    + apply (view_changed c c' l l' h x x'); try done; [intros (_ & _ & ? & _); congruence|intros (_ & ? & _); congruence|by rewrite Hst].
  - intros b'. destruct (Z.eq_dec b' b) as [->|Hne].
    + rewrite Hpin. split.
      * intros (i & y & Hy & Hfy). destruct (decide (i = h)) as [->|Hih].
        -- destruct Hy as (Hy & _). destruct (changed_inv _ _ _ _ _ _ Hch Hy) as (z & Hz' & Ez%core_eq_fields).
           rewrite decide_True in Hz' by done. injection Hz' as <-. destruct Ez as (Ez & _).
           rewrite Ez, Ff in Hfy. destruct en; [done|]. case_decide; done.
        -- destruct (caches_changed_inv c c' h x' i b y Hch Hih Hy) as (z & Hz' & _).
           destruct (caches_unique c l i h b z x Hok Hd Hz' Hca). done.
      * intros Hfx. assert (flags x' = Z.lor B_VALID B_DIRTY) as Hfx'.
        { rewrite Ff, Hfx. destruct en; done. }
        destruct (caches_self c c' h x' b Hch) as (y & Hy & Ey%core_eq_fields); [congruence|congruence|rewrite Hfx'; done|].
        exists h, y. split; [done|]. destruct Ey as (-> & _). done.
    + apply (pinned_changed c c' h x'); [done| |intros [_ ?]; congruence]. intros z Hz [_ ?]. congruence.
  - intros k b'. destruct (decide (k = h)) as [->|Hkh].
    + rewrite (held_self c c' h x' b' Hch), F3. split; [intros (_ & _ & _ & ?); done|intros [_ ?]; done].
    + rewrite (held_changed c c' h x' k b' Hch Hkh). naive_solver.
  - intros Hp. apply Hpin in Hp. pose proof (busy_changed c c' h x x' Hch Hx) as Hb.
    assert (is_free x = false) as E1 by (unfold is_free; rewrite Hr; done).
    assert (is_free x' = false) as E2.
    { unfold is_free, has_flag. rewrite Ff, Hp. destruct en; rewrite andb_false_r; done. }
    rewrite E1, E2 in Hb. lia.
  - intros Hnp. pose proof (busy_changed c c' h x x' Hch Hx) as Hb.
    assert (is_free x = false) as E1 by (unfold is_free; rewrite Hr; done).
    assert (is_free x' = true) as E2.
    { unfold is_free, has_flag. rewrite F4, Hr, Ff. destruct Hf as [->|Hf]; [destruct en; done|tauto]. }
    rewrite E1, E2 in Hb. lia.
Qed.
End blockio.

(** ** Initialisation *)

Lemma init_buf_core c b j x : bufs (init_buf c b) !! j = Some x ->
  exists y, bufs c !! j = Some y /\ dev x = dev y /\ id x = id y /\
    (if decide (j = b) then flags x = 0 /\ refcnt x = 0 /\ locked x = false
     else flags x = flags y /\ refcnt x = refcnt y /\ locked x = locked y).
Proof.
  intros Hx. unfold init_buf in Hx. cbv zeta in Hx.
  assert (core <$> Some x = core <$> bufs (upd_buf b (fun x => set_locked false (set_refcnt 0 (set_flags 0 x))) c) !! j) as E.
  { rewrite <- Hx. repeat (rewrite core_set_next || rewrite core_set_prev). done. }
  rewrite lookup_upd_buf in E. destruct (decide (b = j)) as [<-|Hne].
  - destruct (bufs c !! b) as [y|]; [|done]. apply (inj Some), core_eq_fields in E as (E1 & _ & E2 & E3 & E4 & E5 & _).
    exists y. rewrite decide_True by done. done.
  - destruct (bufs c !! j) as [y|]; [|done]. apply (inj Some), core_eq_fields in E as (E1 & _ & E2 & E3 & E4 & E5 & _).
    exists y. rewrite decide_False by done. done.
Qed.

Lemma length_init_buf c b : length (bufs (init_buf c b)) = length (bufs c).
Proof.
  unfold init_buf. cbv zeta. rewrite length_set_next, !length_set_prev, length_set_next. simpl. apply length_alter.
Qed.

Lemma init_loop k c : (k <= NBUF)%nat -> length (bufs c) = NBUF -> linked c [] ->
  let c' := foldl init_buf c (seq 0 k) in
  length (bufs c') = NBUF /\ linked c' (reverse (seq 0 k)) /\
  forall j x, bufs c' !! j = Some x -> exists y, bufs c !! j = Some y /\ dev x = dev y /\ id x = id y /\
    ((j < k)%nat -> flags x = 0 /\ refcnt x = 0 /\ locked x = false).
Proof.
  intros Hk Hl Hlk. induction k as [|k IH]; cbv zeta.
  - split; [done|]. split; [done|]. intros j x Hx. exists x. split_and!; try done. lia.
  - destruct IH as (L & K & F); [lia|]. rewrite seq_S, foldl_app. simpl foldl.
    set (c1 := foldl init_buf c (seq 0 k)) in *. split; [by rewrite length_init_buf|]. split.
    + rewrite reverse_app. unfold init_buf. cbv zeta. apply push_linked.
      * simpl. by rewrite length_alter.
      * apply NoDup_cons. rewrite reverse_Permutation, elem_of_seq. split; [lia|apply NoDup_seq].
      * rewrite elem_of_cons, elem_of_reverse, elem_of_seq. lia.
      * lia.
      * apply Forall_reverse, Forall_seq. lia.
      * by apply linked_upd.
    + intros j x Hx. destruct (init_buf_core _ _ _ _ Hx) as (y & Hy & E1 & E2 & E3).
      destruct (F j y Hy) as (z & Hz & E4 & E5 & E6). exists z. split; [done|]. split; [congruence|]. split; [congruence|].
      intros Hj. destruct (decide (j = k)) as [->|]; [done|]. destruct E3 as (-> & -> & ->). apply E6. lia.
Qed.

Lemma bufs_set_enabled e c : bufs (set_enabled e c) = bufs c.
Proof. reflexivity. Qed.

Lemma is_set_enabled e c : is_cache_enabled (set_enabled e c) = e.
Proof. reflexivity. Qed.

Lemma linked_empty c : linked (set_next NBUF NBUF (set_prev NBUF NBUF c)) [].
Proof.
  unfold linked, set_next, set_prev. rewrite !decide_True by reflexivity. rewrite reverse_nil. cbn [path].
  unfold get_next, get_prev. rewrite !decide_True by reflexivity. split; reflexivity.
Qed.

Lemma init_finish c c1 :
  (forall j x, bufs c !! j = Some x -> dev x = 0) -> length (bufs c1) = NBUF -> linked c1 (reverse (seq 0 NBUF)) ->
  (forall j x, bufs c1 !! j = Some x -> exists y, bufs c !! j = Some y /\ dev x = dev y /\ id x = id y /\
    ((j < NBUF)%nat -> flags x = 0 /\ refcnt x = 0 /\ locked x = false)) ->
  bc_ok (set_enabled true c1) (reverse (seq 0 NBUF)) /\
  forall j x, bufs c1 !! j = Some x -> flags x = 0 /\ refcnt x = 0 /\ locked x = false.
Proof.
  intros Hd L K F.
  assert (forall j x, bufs c1 !! j = Some x -> dev x = 0 /\ flags x = 0 /\ refcnt x = 0 /\ locked x = false) as Hall.
  { intros j x Hx. destruct (F j x Hx) as (y & Hy & E1 & _ & E3). split; [rewrite E1; by apply (Hd j y)|].
    apply E3. rewrite <- L. by eapply lookup_lt_Some. }
  split.
  - eapply (bc_ok_same c1); [reflexivity|reflexivity|reflexivity|]. split; [done|apply reverse_Permutation|done|..].
    + intros i j x y Hx _ Hx0. exfalso. apply Hx0. by apply (Hall i x).
    + intros i x Hx. destruct (Hall i x Hx) as (_ & _ & -> & ->). split; [word|done].
  - intros j x Hx. by apply (Hall j x).
Qed.

(** Starting from a cache that stands for no block, [buf_cache_init] links every
    buffer into the list exactly once and leaves all of them clean, unlocked and
    unreferenced. *)
Lemma buf_cache_init_ok c :
  length (bufs c) = NBUF -> (forall j x, bufs c !! j = Some x -> dev x = 0) ->
  bc_ok (buf_cache_init c) (reverse (seq 0 NBUF)) /\ is_cache_enabled (buf_cache_init c) = true /\
  forall j x, bufs (buf_cache_init c) !! j = Some x -> flags x = 0 /\ refcnt x = 0 /\ locked x = false.
Proof.
  intros Hl Hd. pose proof (linked_empty c) as Hlk.
  assert (length (bufs (set_next NBUF NBUF (set_prev NBUF NBUF c))) = NBUF) as Hl0
    by (rewrite length_set_next, length_set_prev; exact Hl).
  destruct (init_loop NBUF _ (le_n NBUF) Hl0 Hlk) as (L & K & F).
  assert (forall j x, bufs (set_next NBUF NBUF (set_prev NBUF NBUF c)) !! j = Some x -> dev x = 0) as Hd0.
  { intros j x Hx. assert (core <$> Some x = core <$> bufs c !! j) as E
      by (rewrite <- Hx, core_set_next, core_set_prev; reflexivity).
    destruct (bufs c !! j) as [y|] eqn:Ey; [|done].
    apply (inj Some), core_eq_fields in E as (_ & _ & -> & _). exact (Hd j y Ey). }
  destruct (init_finish _ _ Hd0 L K F) as [H1 H2].
  unfold buf_cache_init. cbv zeta. rewrite bufs_set_enabled, is_set_enabled.
  split; [exact H1|]. split; [reflexivity|exact H2].
Qed.

(** A cache of [NBUF] unused buffers in front of zeroed devices. *)
Definition empty_buf : buf := Buf 0 0 0 0 false 0 0 0 0 [].
Definition boot_cache : bcache :=
  Bcache (replicate NBUF empty_buf) 0 0 false true (fun _ _ => replicate 1024%nat 0) [] [].

Lemma boot_cache_unused j x : bufs boot_cache !! j = Some x -> dev x = 0.
Proof. unfold boot_cache. cbn [bufs]. intros Hx. apply lookup_replicate in Hx as [-> _]. done. Qed.

Lemma boot_ok : bc_ok (buf_cache_init boot_cache) (reverse (seq 0 NBUF)).
Proof. apply (buf_cache_init_ok boot_cache); [apply length_replicate|exact boot_cache_unused]. Qed.

Lemma boot_clean j x : bufs (buf_cache_init boot_cache) !! j = Some x ->
  flags x = 0 /\ refcnt x = 0 /\ locked x = false.
Proof. apply (buf_cache_init_ok boot_cache); [apply length_replicate|exact boot_cache_unused]. Qed.

(** ** Correctness of the cache *)

Lemma first_match_split P bs l b : first_match P bs l = Some b ->
  exists l1 l2, l = l1 ++ b :: l2 /\ forall j x, j ∈ l1 -> bs !! j = Some x -> P x = false.
Proof.
  induction l as [|i l IH]; simpl; [done|]. destruct (bs !! i) as [y|] eqn:Ey.
  - destruct (P y) eqn:EP.
    + intros [= ->]. exists [], l. split; [done|]. set_solver.
    + intros (l1 & l2 & -> & Hl)%IH. exists (i :: l1), l2. split; [done|].
      intros j x [->|Hj]%elem_of_cons Hx; [congruence|eauto].
  - intros (l1 & l2 & -> & Hl)%IH. exists (i :: l1), l2. split; [done|].
    intros j x [->|Hj]%elem_of_cons Hx; [congruence|eauto].
Qed.




(** ** Loops over all buffers *)

Lemma for_all_bufs_spec f l x c fuel :
  (forall y, next (f y) = next y /\ prev (f y) = prev y) ->
  path (get_next c) x l NBUF -> Forall (fun i => (i < NBUF)%nat) l -> NoDup l -> (length l < fuel)%nat ->
  exists c', for_all_bufs fuel (get_next c x) f c = inr c' /\
    (forall i, get_next c' i = get_next c i) /\ (forall i, get_prev c' i = get_prev c i) /\
    same_devices c c' /\
    forall j, bufs c' !! j = if decide (j ∈ l) then f <$> bufs c !! j else bufs c !! j.
Proof.
  intros Hf. revert x c fuel. induction l as [|z l IH]; intros x c [|fuel] Hp Hlt Hnd Hfu; simpl in Hfu; try lia.
  - simpl in Hp. rewrite Hp. cbn [for_all_bufs]. rewrite decide_True by reflexivity. exists c.
    split_and!; try done.
  - destruct Hp as [E Hp]. rewrite E. apply Forall_cons in Hlt as [Hz Hlt]. apply NoDup_cons in Hnd as [Hzl Hnd].
    cbn [for_all_bufs]. rewrite decide_False by lia. set (c1 := upd_buf z f c).
    assert (forall i, get_next c1 i = get_next c i) as Hn1.
    { intros i. unfold get_next. case_decide; [done|]. unfold c1. rewrite lookup_upd_buf. case_decide; [|done].
      destruct (bufs c !! i) as [y|]; simpl; [|done]. apply Hf. }
    assert (forall i, get_prev c1 i = get_prev c i) as Hp1.
    { intros i. unfold get_prev. case_decide; [done|]. unfold c1. rewrite lookup_upd_buf. case_decide; [|done].
      destruct (bufs c !! i) as [y|]; simpl; [|done]. apply Hf. }
    destruct (IH z c1 fuel) as (c' & E' & Hn & Hpv & Hsd & Hl); try done; [|lia|].
    { eapply path_ext; [|exact Hp]. intros i _. by rewrite Hn1. }
    exists c'. split; [exact E'|]. split; [intros i; by rewrite Hn|]. split; [intros i; by rewrite Hpv|].
    split; [exact Hsd|]. intros j. rewrite Hl. unfold c1. rewrite lookup_upd_buf.
    destruct (decide (z = j)) as [<-|Hne].
    + rewrite decide_False by done. rewrite decide_True by set_solver. done.
    + destruct (decide (j ∈ l)); [rewrite decide_True by set_solver; done|rewrite decide_False by set_solver; done].
Qed.

Lemma for_all_bufs_ok f l c :
  (forall y, next (f y) = next y /\ prev (f y) = prev y /\ dev (f y) = dev y /\ id (f y) = id y /\
             refcnt (f y) = refcnt y /\ locked (f y) = locked y) ->
  bc_ok c l ->
  exists c', for_all_bufs (S NBUF) (hnext c) f c = inr c' /\ bc_ok c' l /\ same_devices c c' /\
    forall j, bufs c' !! j = f <$> bufs c !! j.
Proof.
  intros Hf Hok. pose proof Hok as [H1 H2 [H3 H3'] H4 H5].
  destruct (order_facts l H2) as ([_ Hnd]%NoDup_cons & Hlt & Hlen & Hin).
  destruct (for_all_bufs_spec f l NBUF c (S NBUF)) as (c' & E & Hn & Hp & Hsd & Hl); try done; [|lia|].
  { intros y. destruct (Hf y) as (? & ? & _). done. }
  assert (forall j, bufs c' !! j = f <$> bufs c !! j) as Hl'.
  { intros j. rewrite Hl. case_decide as Hj; [done|].
    destruct (bufs c !! j) as [y|] eqn:Ey; [|done]. exfalso. apply Hj, Hin. rewrite <- H1. by eapply lookup_lt_Some. }
  exists c'. split; [exact E|]. split; [|split; [done|done]]. split.
  - apply Nat.le_antisymm.
    + destruct (Nat.le_gt_cases (length (bufs c')) NBUF) as [|Hgt]; [done|].
      destruct (lookup_lt_is_Some_2 (bufs c') NBUF Hgt) as [y Hy]. rewrite Hl', lookup_ge_None_2 in Hy by lia. done.
    + destruct (Nat.le_gt_cases NBUF (length (bufs c'))) as [|Hgt]; [done|].
      pose proof (Hl' (length (bufs c'))) as E'. rewrite lookup_ge_None_2 in E' by lia.
      destruct (lookup_lt_is_Some_2 (bufs c) (length (bufs c'))) as [y Hy]; [lia|]. rewrite Hy in E'. done.
  - done.
  - eapply linked_ext; [| |exact (conj H3 H3')]; intros; auto.
  - intros i j x y Hx Hy. rewrite Hl' in Hx, Hy.
    destruct (bufs c !! i) as [x'|] eqn:Ex; [|done]. destruct (bufs c !! j) as [y'|] eqn:Ey; [|done].
    injection Hx as <-. injection Hy as <-. destruct (Hf x') as (_ & _ & -> & -> & _), (Hf y') as (_ & _ & -> & -> & _).
    by apply H4.
  - intros i x Hx. rewrite Hl' in Hx. destruct (bufs c !! i) as [x'|] eqn:Ex; [|done]. injection Hx as <-.
    destruct (Hf x') as (_ & _ & _ & _ & -> & ->). by apply (H5 i).
Qed.

(** ** The cache under concurrent use

    A process that finds its buffer locked has counted its reference and waits
    ([cs_wait]); it takes the lock once it is free ([cs_wake]). *)
Inductive cstep (is_loop : Z -> bool) : bcache -> bcache -> Prop :=
| cs_get cg d i af b c c' : d <> 0 -> (forall j x, bufs c !! j = Some x -> refcnt x + 1 < 2 ^ 32) ->
    buf_cache_get cg d i af c = inr (b, c') -> cstep is_loop c c'
| cs_wait b x c : bufs c !! b = Some x -> refcnt x + 1 < 2 ^ 32 ->
    cstep is_loop c (upd_buf b (fun x => set_refcnt (refcnt x +u 1) x) c)
| cs_wake b x c : bufs c !! b = Some x -> locked x = false -> refcnt x <> 0 ->
    cstep is_loop c (upd_buf b (set_locked true) c)
| cs_release b c c' : buf_cache_release b c = inr (tt, c') -> cstep is_loop c c'
| cs_brw b c c' : brw is_loop b c = inr (tt, c') -> cstep is_loop c c'
| cs_data b v c : cstep is_loop c (upd_buf b (set_bdata v) c)
| cs_dirty b c : cstep is_loop c (upd_buf b (fun x => set_flags (Z.lor (flags x) B_DIRTY) x) c)
| cs_enable c c' : buf_cache_enable_cache c = inr (tt, c') -> cstep is_loop c c'
| cs_disable c c' : buf_cache_disable_cache c = inr c' -> cstep is_loop c c'
| cs_invalidate d c c' : buf_cache_invalidate_blocks d c = inr c' -> cstep is_loop c c'.

Lemma bc_ok_quiet i f c l :
  (forall x, next (f x) = next x /\ prev (f x) = prev x /\ dev (f x) = dev x /\ id (f x) = id x /\
             refcnt (f x) = refcnt x /\ locked (f x) = locked x) ->
  bc_ok c l -> bc_ok (upd_buf i f c) l.
Proof.
  intros Hf Hok. apply bc_ok_upd; [| |done].
  - intros x. destruct (Hf x) as (? & ? & ? & ? & _). done.
  - intros x Hx. destruct (Hf x) as (_ & _ & _ & _ & -> & ->). by apply (bo_ref _ _ Hok i).
Qed.

Lemma transfer_ok i c c' l : bc_ok c l -> transfer i c = inr (tt, c') -> bc_ok c' l.
Proof.
  intros Hok. unfold transfer. mrun. destruct (bufs c !! i) as [b|]; [|done].
  destruct (has_flag B_DIRTY b); intros [= <-]; apply bc_ok_quiet; try done.
  - by apply (bc_ok_same c).
  - by apply bc_ok_quiet.
Qed.

Lemma brw_ok is_loop i c c' l : bc_ok c l -> brw is_loop i c = inr (tt, c') -> bc_ok c' l.
Proof.
  intros Hok. unfold brw, devicerw, iderw, holdingsleep.
  cbv beta iota zeta delta [mbind M_bind mret M_ret getS gets deref panic fault].
  destruct (bufs c !! i) as [b|] eqn:Eb; [|done]. destruct (is_loop (dev b)); [by apply transfer_ok|].
  rewrite Eb. cbn [from_option]. destruct (locked b); cbn [negb]; [|done].
  destruct (_ =? _); [done|]. destruct (_ && _); [done|]. destruct (_ <=? _); [done|]. by apply transfer_ok.
Qed.

Lemma cstep_ok is_loop c c' l : cstep is_loop c c' -> bc_ok c l -> exists l', bc_ok c' l'.
Proof.
  intros Hs Hok. destruct Hs as [cg d i af b c c' Hd Hr E|b x c Hx Hr|b x c Hx Hl Hr|b c c' E|b c c' E|b v c|b c|c c' E|c c' E|d c c' E].
  - exists l. destruct (first_match (key d i) (bufs c) l) as [j|] eqn:E1.
    + apply first_match_Some in E1 as (x & Hx & [Hdev Hid]%key_true & _).
      destruct (locked x) eqn:El.
      * exfalso. unfold buf_cache_get in E. revert E. mrun. fold (key d i).
        rewrite (scan_next_ok _ _ _ Hok), (find_hit c l d i j x) by done. unfold lift, acquiresleep. mrun.
        rewrite lookup_upd_buf, decide_True, Hx by done. simpl. rewrite El. done.
      * destruct (get_hit cg c l d i af j x Hok Hd Hx Hdev Hid El (Hr j x Hx)) as [E' Hok'].
        rewrite E' in E. by injection E as <- <-.
    + destruct (first_match is_free (bufs c) (reverse l)) as [j|] eqn:E2.
      * pose proof E2 as E2'. apply first_match_Some in E2' as (x & Hx & Hfr & _).
        assert (locked x = false) as Hlk.
        { destruct (locked x) eqn:El; [|done]. apply andb_true_iff in Hfr as [Hr0%Z.eqb_eq _].
          by destruct (proj2 (bo_ref _ _ Hok j x Hx) El). }
        destruct (get_miss cg c l d i af j x Hok E1 E2 Hx Hlk) as [E' Hok'].
        rewrite E' in E. by injection E as <- <-.
      * rewrite (get_full cg c l d i af Hok E1 E2) in E. done.
  - exists l. apply bc_ok_upd; [done| |done]. intros y Hy. rewrite Hx in Hy. injection Hy as <-.
    destruct (bo_ref _ _ Hok b x Hx) as [Hu _]. simpl. rewrite u32_id by word. split; [word|]. unfold is_u32 in *. lia.
  - exists l. apply bc_ok_upd; [done| |done]. intros y Hy. rewrite Hx in Hy. injection Hy as <-.
    destruct (bo_ref _ _ Hok b x Hx) as [Hu _]. done.
  - destruct (bufs c !! b) as [x|] eqn:Hx; [destruct (locked x) eqn:El|].
    + destruct (release_spec b c l x Hok Hx El) as (c2 & l' & E' & Hok' & _). exists l'.
      rewrite E' in E. by injection E as <-.
    + unfold buf_cache_release, holdingsleep in E. revert E. mrun. rewrite Hx. cbn [from_option]. rewrite El. done.
    + unfold buf_cache_release, holdingsleep in E. revert E. mrun. rewrite Hx. done.
  - exists l. by eapply brw_ok.
  - exists l. by apply bc_ok_quiet.
  - exists l. by apply bc_ok_quiet.
  - exists l. unfold buf_cache_enable_cache in E. revert E. mrun. intros [= <-]. by apply (bc_ok_same c).
  - exists l. unfold buf_cache_disable_cache in E. destruct (is_cache_enabled c); [|by injection E as <-].
    destruct (for_all_bufs_ok (fun b => if (refcnt b =? 0) && negb (has_flag B_DIRTY b)
      then set_flags (Z.land (flags b) (Z.lnot B_VALID)) b else b) l c) as (c1 & E1 & Hok1 & _); [|done|].
    { intros y. by destruct (_ && _). }
    rewrite E1 in E. injection E as <-. by apply (bc_ok_same c1).
  - exists l. unfold buf_cache_invalidate_blocks in E.
    destruct (for_all_bufs_ok (fun b => if dev b =? d then set_flags (Z.land (flags b) (Z.lnot (Z.lor B_VALID B_DIRTY))) b else b) l c)
      as (c1 & E1 & Hok1 & _); [|done|].
    { intros y. by destruct (_ =? _). }
    rewrite E1 in E. by injection E as <-.
Qed.

Lemma cstep_reach is_loop c c' l : rtc (cstep is_loop) c c' -> bc_ok c l -> exists l', bc_ok c' l'.
Proof.
  intros Hr. revert l. induction Hr as [c|c1 c2 c3 Hs Hr IH]; intros l Hok; [eauto|].
  destruct (cstep_ok _ _ _ _ Hs Hok) as [l' Hok']. eauto.
Qed.

(** C4: in every state the cache reaches from [buf_cache_init] by lookups,
    waits, releases, transfers, data updates and cache switches, no two buffers
    stand for the same block of a device, a locked buffer is referenced, and the
    list links every buffer exactly once in both directions. *)
Theorem cache_reachable_ok is_loop c0 c :
  length (bufs c0) = NBUF -> (forall j x, bufs c0 !! j = Some x -> dev x = 0) ->
  rtc (cstep is_loop) (buf_cache_init c0) c ->
  exists l, l ≡ₚ seq 0 NBUF /\ linked c l /\
    (forall i j x y, bufs c !! i = Some x -> bufs c !! j = Some y ->
       dev x <> 0 -> dev x = dev y -> id x = id y -> i = j) /\
    (forall i x, bufs c !! i = Some x -> locked x = true -> refcnt x <> 0).
Proof.
  intros Hl Hd Hr. destruct (buf_cache_init_ok c0 Hl Hd) as [Hok _].
  destruct (cstep_reach _ _ _ _ Hr Hok) as [l [H1 H2 H3 H4 H5]]. exists l. split_and!; try done.
  intros i x Hx. by apply (H5 i).
Qed.

Lemma cache_reachable_ok_witness :
  exists c, rtc (cstep (fun _ => false)) (buf_cache_init boot_cache) c /\
    exists x, bufs c !! 0%nat = Some x /\ key 1 33 x = true /\ locked x = true /\ refcnt x <> 0.
Proof.
  eexists. assert (rtc (cstep (fun _ => false)) (buf_cache_init boot_cache)
    (miss_state 7 1 33 0 0 (buf_cache_init boot_cache))) as Hr.
  { apply rtc_once. apply (cs_get _ 7 1 33 0 0%nat); [lia| |vm_compute; reflexivity].
    intros j x Hx. destruct (boot_clean j x Hx) as (_ & -> & _). lia. }
  split; [exact Hr|].
  destruct (cache_reachable_ok (fun _ => false) boot_cache _ (length_replicate _ _) boot_cache_unused Hr)
    as (l & _ & _ & _ & H).
  eexists. assert (bufs (miss_state 7 1 33 0 0 (buf_cache_init boot_cache)) !! 0%nat =
    Some (Buf 0 0 1 33 true 1 1 200 0 [])) as Hx by (vm_compute; reflexivity).
  split; [exact Hx|]. split; [reflexivity|]. split; [reflexivity|]. exact (H 0%nat _ Hx eq_refl).
Defined.

(** C3: a block written through the cache is on the device and is what the next
    reader gets; no other block changes, on the device or as seen through the
    cache, whatever was cached, dirty or evicted in between. *)
Theorem bread_bwrite_coherent cg is_loop d c l b v :
  blk_ok d c l -> d <> 0 -> is_loop d = false -> 0 <= b < FSSIZE ->
  (forall h, ~ held d c h b) -> (busy c < NBUF)%nat ->
  exists h c' x,
    (h ← bread cg is_loop d b;
     modS (upd_buf h (set_bdata v)) ;;
     bwrite is_loop h ;;
     buf_cache_release h ;;
     bread cg is_loop d b) c = inr (h, c') /\
    bufs c' !! h = Some x /\ bdata x = v /\ store c' d b = v /\ wtrace c' = wtrace c ++ [(d, b, v)] /\
    forall b', b' <> b -> view d c' b' = view d c b' /\ store c' d b' = store c d b'.
Proof.
  intros Hbk Hd Hloop Hb Hnh Hbusy.
  destruct (bread_law cg is_loop d Hd Hloop c l b Hbk Hb Hnh Hbusy) as
    (h & x & c1 & E1 & Hbk1 & Hsd1 & Hv1 & Hx1 & Hh1 & _ & Hp1 & Hhe1 & Hz1 & Hz1').
  rewrite (bind_run _ _ _ _ _ E1). destruct Hh1 as (y & Hca1 & Hl1).
  assert (y = x) as -> by (destruct Hca1; congruence).
  destruct (set_data_law d Hd c1 l h b x v Hbk1 Hca1 Hl1) as (Hbk2 & Hsd2 & Hca2 & Hv2 & Hp2 & Hhe2 & Hz2).
  rewrite (bind_run _ _ c1 tt (upd_buf h (set_bdata v) c1)) by done.
  set (c2 := upd_buf h (set_bdata v) c1) in *.
  destruct (bwrite_law is_loop d Hd Hloop c2 l h b _ Hbk2 Hca2 Hl1 Hb) as
    (c3 & x3 & E3 & Hbk3 & Hst3 & Hw3 & _ & Hca3 & Hl3 & Hd3 & _ & Hv3 & Hp3 & Hhe3 & Hz3).
  rewrite (bind_run _ _ _ _ _ E3).
  assert (~ pinned d c3 b) as Hnp3 by (rewrite Hp3; tauto).
  destruct (release_law d Hd c3 l h b x3 Hbk3 Hca3 Hl3) as
    (c4 & l4 & E4 & Hbk4 & Hsd4 & Hv4 & _ & Hp4 & Hhe4 & _ & Hz4).
  { right. rewrite Hd3, Hst3, decide_True; done. }
  rewrite (bind_run _ _ _ _ _ E4).
  destruct (bread_law cg is_loop d Hd Hloop c4 l4 b Hbk4 Hb) as
    (h5 & x5 & c5 & E5 & Hbk5 & Hsd5 & Hv5 & Hx5 & _ & Hdat5 & _).
  { intros k Hk. apply Hhe4 in Hk as [Hk Hkh]. apply Hhe3, Hhe2, Hhe1 in Hk as [Hk|[-> _]]; [|done]. by apply (Hnh k). }
  { specialize (Hz4 Hnp3). assert (busy c1 <= S (busy c))%nat by (destruct (caches_dec_ex d c b) as [(i & z & Hz)|Hno];
      [destruct (decide (flags z = Z.lor B_VALID B_DIRTY)) as [Hf|Hf];
        [rewrite (Hz1 (ex_intro _ i (ex_intro _ z (conj Hz Hf)))); lia|
         rewrite Hz1'; [lia|]; intros (j & w & Hw & Hfw); destruct (caches_unique d c l j i b w z (bk_ok _ _ _ Hbk) Hd Hw Hz) as [_ ->]; done]|
       rewrite Hz1'; [lia|]; intros (j & w & Hw & _); by apply (Hno j w)]). lia. }
  assert (view d c4 b = v) as Hvb by (rewrite Hv4, Hv3, Hv2, decide_True; done).
  destruct Hsd1 as (S1 & W1 & _), Hsd2 as (S2 & W2 & _), Hsd4 as (S4 & W4 & _), Hsd5 as (S5 & W5 & _).
  exists h5, c5, x5. split; [exact E5|]. split; [done|]. split; [congruence|].
  split; [rewrite S5, S4, Hst3, decide_True; done|]. split; [rewrite W5, W4, Hw3, W2, W1; done|].
  intros b' Hne. split.
  - rewrite Hv5, Hv4, Hv3, Hv2, decide_False, Hv1; done.
  - rewrite S5, S4, Hst3, decide_False, S2, S1; done.
Qed.

Lemma boot_blk_ok : blk_ok 1 (buf_cache_init boot_cache) (reverse (seq 0 NBUF)).
Proof.
  split; [exact boot_ok|vm_compute; reflexivity|..]; intros i x Hx; destruct (boot_clean i x Hx) as (Hf & Hr & Hl).
  - left. exact Hf.
  - by rewrite Hl.
  - intros Hdev. exfalso. revert i x Hx Hf Hr Hl Hdev.
    assert (forallb (fun x => negb (dev x =? 1)) (bufs (buf_cache_init boot_cache)) = true) as H by (vm_compute; reflexivity).
    generalize dependent (bufs (buf_cache_init boot_cache)). intros t H i x Hx _ _ _ Hdev. rewrite forallb_forall in H. specialize (H x). rewrite <- list_elem_of_In in H.
    specialize (H (list_elem_of_lookup_2 _ _ _ Hx)). rewrite Hdev in H. clear -H. discriminate H.
  - by rewrite Hl.
  - intros _ _ Hv. rewrite Hf in Hv. clear -Hv. discriminate Hv.
Qed.

Lemma boot_not_held h b : ~ held 1 (buf_cache_init boot_cache) h b.
Proof. intros (x & (Hx & _) & Hl). destruct (boot_clean h x Hx) as (_ & _ & ?). congruence. Qed.

Lemma boot_busy : busy (buf_cache_init boot_cache) = 0%nat.
Proof. vm_compute. reflexivity. Qed.

Lemma bread_bwrite_coherent_witness :
  exists h c' x,
    (h ← bread 7 (fun _ => false) 1 33;
     modS (upd_buf h (set_bdata [5])) ;;
     bwrite (fun _ => false) h ;;
     buf_cache_release h ;;
     bread 7 (fun _ => false) 1 33) (buf_cache_init boot_cache) = inr (h, c') /\
    bufs c' !! h = Some x /\ bdata x = [5] /\ store c' 1 33 = [5].
Proof.
  destruct (bread_bwrite_coherent 7 (fun _ => false) 1 (buf_cache_init boot_cache) (reverse (seq 0 NBUF)) 33 [5])
    as (h & c' & x & E & Hx & Hd & Hs & _).
  - exact boot_blk_ok.
  - lia.
  - reflexivity.
  - unfold FSSIZE. lia.
  - intros h. apply boot_not_held.
  - rewrite boot_busy. unfold NBUF. lia.
  - exists h, c', x. split; [exact E|]. split; [exact Hx|]. split; [exact Hd|exact Hs].
Defined.
