(* ===== verification/Log.v ===== *)
(** * The write-ahead log of the native file system, kernel/fs/native_log.c

    The log runs on the buffer cache of [BufCache].  A header block on disk
    holds the number of committed blocks and their home block numbers, as 32-bit
    little-endian words; the blocks themselves follow it.  A crash keeps the
    device as the last block write left it: writes of one block are atomic. *)

From S2P Require Import Prelude BufCache.

Definition MAXOPBLOCKS : Z := 10.
Definition LOGSIZE : Z := MAXOPBLOCKS * 3.

(** 32-bit words in a block. *)
Definition get32 (l : block) (off : nat) : Z :=
  l !!! off + 2 ^ 8 * l !!! (off + 1)%nat + 2 ^ 16 * l !!! (off + 2)%nat + 2 ^ 24 * l !!! (off + 3)%nat.
Definition put32 (l : block) (off : nat) (v : Z) : block :=
  <[(off + 3)%nat := u8 (v / 2 ^ 24)]> (<[(off + 2)%nat := u8 (v / 2 ^ 16)]>
    (<[(off + 1)%nat := u8 (v / 2 ^ 8)]> (<[off := u8 v]> l))).

Record log := LogS {
  start : Z;
  lsize : Z;
  outstanding : Z;
  committing : bool;
  ldev : Z;
  lh_n : Z;
  lh_block : list Z
}.

(** The log and the buffer cache it runs on. *)
Record lsys := Lsys { lg : log; bc : bcache }.

Definition onbc {A} (m : M bcache A) : M lsys A := fun s =>
  match m (bc s) with inl e => inl e | inr (a, c) => inr (a, Lsys (lg s) c) end.
Definition modlog (f : log -> log) : M lsys unit := modS (fun s => Lsys (f (lg s)) (bc s)).

Definition set_n (n : Z) (g : log) : log :=
  LogS (start g) (lsize g) (outstanding g) (committing g) (ldev g) n (lh_block g).
Definition set_blocks (bl : list Z) (g : log) : log :=
  LogS (start g) (lsize g) (outstanding g) (committing g) (ldev g) (lh_n g) bl.
Definition set_outstanding (n : Z) (g : log) : log :=
  LogS (start g) (lsize g) n (committing g) (ldev g) (lh_n g) (lh_block g).
Definition set_committing (b : bool) (g : log) : log :=
  LogS (start g) (lsize g) (outstanding g) b (ldev g) (lh_n g) (lh_block g).

Definition buf_at (b : nat) : M lsys buf := s ← getS; deref (bufs (bc s) !! b).

Section log.
Context (cg : Z) (is_loop : Z -> bool).

(** [tail] runs from 0 to [n]; [k] rounds are left. *)
Fixpoint install_trans_loop (k : nat) (tail : Z) : M lsys unit :=
  match k with
  | O => mret tt
  | S k =>
      s ← getS;
      let g := lg s in
      home ← deref (lh_block g !! Z.to_nat tail);
      lbuf ← onbc (bread cg is_loop (ldev g) (start g + tail + 1));
      dbuf ← onbc (bread cg is_loop (ldev g) home);
      lx ← buf_at lbuf;
      onbc (modS (upd_buf dbuf (set_bdata (bdata lx)))) ;;
      onbc (bwrite is_loop dbuf) ;;
      dx ← buf_at dbuf;
      onbc (modS (log_event (FileDirtyDecr (cgroup_ dx)))) ;;
      onbc (modS (log_event (FileDirtyAggregatedIncr (cgroup_ dx)))) ;;
      onbc (buf_cache_release lbuf) ;;
      onbc (buf_cache_release dbuf) ;;
      install_trans_loop k (tail + 1)
  end.
Definition install_trans : M lsys unit :=
  s ← getS; install_trans_loop (Z.to_nat (lh_n (lg s))) 0.

(** [for (i = 0; i < n; i++) log.lh.block[i] = lh->block[i];] *)
Fixpoint read_blocks (k i : nat) (hb : block) (bl : list Z) : list Z :=
  match k with
  | O => bl
  | S k => read_blocks k (S i) hb (<[i := get32 hb (4 + 4 * i)]> bl)
  end.

Definition read_head : M lsys unit :=
  s ← getS;
  b ← onbc (bread cg is_loop (ldev (lg s)) (start (lg s)));
  x ← buf_at b;
  let n := s32 (get32 (bdata x) 0) in
  if LOGSIZE <? n then fault
  else
    modlog (fun g => set_blocks (read_blocks (Z.to_nat n) 0 (bdata x) (lh_block g)) (set_n n g)) ;;
    onbc (buf_cache_release b).

(** [hb->n = n; for (i = 0; i < n; i++) hb->block[i] = log.lh.block[i];] *)
Fixpoint put_blocks (i : nat) (bl : list Z) (hb : block) : block :=
  match bl with
  | [] => hb
  | v :: bl => put_blocks (S i) bl (put32 hb (4 + 4 * i) v)
  end.

Definition write_head : M lsys unit :=
  s ← getS;
  let g := lg s in
  b ← onbc (bread cg is_loop (ldev g) (start g));
  x ← buf_at b;
  onbc (modS (upd_buf b (set_bdata
    (put_blocks 0 (take (Z.to_nat (lh_n g)) (lh_block g)) (put32 (bdata x) 0 (lh_n g)))))) ;;
  onbc (bwrite is_loop b) ;;
  onbc (buf_cache_release b).

Definition recover_from_log : M lsys unit :=
  read_head ;; install_trans ;; modlog (set_n 0) ;; write_head.

Definition initlog (logstart nlog d : Z) : M lsys unit :=
  modlog (fun g => LogS logstart nlog (outstanding g) (committing g) d (lh_n g) (lh_block g)) ;;
  recover_from_log.

Definition begin_op : M lsys unit :=
  s ← getS;
  if committing (lg s) then sleep_here
  else if LOGSIZE <? lh_n (lg s) + (outstanding (lg s) + 1) * MAXOPBLOCKS then sleep_here
  else modlog (fun g => set_outstanding (outstanding g + 1) g).

Fixpoint write_log_loop (k : nat) (tail : Z) : M lsys unit :=
  match k with
  | O => mret tt
  | S k =>
      s ← getS;
      let g := lg s in
      home ← deref (lh_block g !! Z.to_nat tail);
      to ← onbc (bread cg is_loop (ldev g) (start g + tail + 1));
      from ← onbc (bread cg is_loop (ldev g) home);
      fx ← buf_at from;
      onbc (modS (upd_buf to (set_bdata (bdata fx)))) ;;
      onbc (bwrite is_loop to) ;;
      onbc (buf_cache_release from) ;;
      onbc (buf_cache_release to) ;;
      write_log_loop k (tail + 1)
  end.
Definition write_log : M lsys unit :=
  s ← getS; write_log_loop (Z.to_nat (lh_n (lg s))) 0.

Definition commit : M lsys unit :=
  s ← getS;
  if 0 <? lh_n (lg s)
  then write_log ;; write_head ;; install_trans ;; modlog (set_n 0) ;; write_head
  else mret tt.

Definition end_op : M lsys unit :=
  modlog (fun g => set_outstanding (outstanding g - 1) g) ;;
  s ← getS;
  if committing (lg s) then panic "log.committing"
  else if outstanding (lg s) =? 0 then
    modlog (set_committing true) ;;
    commit ;;
    modlog (set_committing false)
  else mret tt.

(** [isloop]: [b->dev->type == DEVICE_TYPE_LOOP]. *)
Definition log_write (isloop : Z -> bool) (b : nat) : M lsys unit :=
  s ← getS;
  let g := lg s in
  if (LOGSIZE <=? lh_n g) || (lsize g - 1 <=? lh_n g) then panic "too big a transaction"
  else if outstanding g <? 1 then panic "log_write outside of trans"
  else
    x ← buf_at b;
    if isloop (dev x) then onbc (bwrite is_loop b)
    else
      let blockno := u32 (id x) in
      let i := match list_find (fun v => v = blockno) (take (Z.to_nat (lh_n g)) (lh_block g)) with
               | Some (i, _) => i
               | None => Z.to_nat (lh_n g)
               end in
      modlog (set_blocks (<[i := blockno]> (lh_block g))) ;;
      (if decide (i = Z.to_nat (lh_n g)) then
         modlog (set_n (lh_n g + 1)) ;;
         onbc (modS (upd_buf b (set_cgroup cg))) ;;
         onbc (modS (log_event (FileDirtyIncr cg)))
       else mret tt) ;;
      onbc (modS (upd_buf b (fun x => set_flags (Z.lor (flags x) B_DIRTY) x))).
End log.

(** ** Words in blocks *)

Lemma length_put32 l off v : length (put32 l off v) = length l.
Proof. unfold put32. by rewrite !length_insert. Qed.

Lemma get32_put32 l off v : is_u32 v -> (off + 3 < length l)%nat -> get32 (put32 l off v) off = v.
Proof.
  intros Hv Hl. unfold get32, put32.
  rewrite list_lookup_total_insert_ne, list_lookup_total_insert_ne, list_lookup_total_insert_ne by lia.
  rewrite list_lookup_total_insert_eq by lia.
  rewrite list_lookup_total_insert_ne, list_lookup_total_insert_ne by lia.
  rewrite list_lookup_total_insert_eq by (rewrite length_insert; lia).
  rewrite list_lookup_total_insert_ne by lia.
  rewrite list_lookup_total_insert_eq by (rewrite !length_insert; lia).
  rewrite list_lookup_total_insert_eq by (rewrite !length_insert; lia).
  unfold u8, is_u32 in *. change (2 ^ 8) with 256. change (2 ^ 16) with 65536. change (2 ^ 24) with 16777216.
  change (2 ^ 32) with 4294967296 in Hv. Z.div_mod_to_equations. lia.
Qed.

Lemma get32_put32_other l off v o : (o + 3 < off \/ off + 3 < o)%nat -> get32 (put32 l off v) o = get32 l o.
Proof.
  intros H. unfold get32, put32. rewrite !list_lookup_total_insert_ne by lia. done.
Qed.

Lemma length_put_blocks bl i hb : length (put_blocks i bl hb) = length hb.
Proof. revert i hb. induction bl as [|v bl IH]; intros; simpl; [done|]. by rewrite IH, length_put32. Qed.

Lemma put_blocks_below bl i hb o : (o + 3 < 4 + 4 * i)%nat -> get32 (put_blocks i bl hb) o = get32 hb o.
Proof.
  revert i hb. induction bl as [|v bl IH]; intros i hb Ho; cbn [put_blocks]; [done|].
  rewrite IH by lia. apply get32_put32_other. lia.
Qed.

Lemma put_blocks_get bl i hb j v : (4 + 4 * (i + length bl) <= length hb)%nat -> Forall is_u32 bl ->
  bl !! j = Some v -> get32 (put_blocks i bl hb) (4 + 4 * (i + j)) = v.
Proof.
  revert i hb j. induction bl as [|w bl IH]; intros i hb j Hl Hu Hj; [done|]. cbn [length] in Hl.
  apply Forall_cons in Hu as [Hw Hu]. destruct j as [|j]; cbn [put_blocks].
  - injection Hj as ->. rewrite put_blocks_below by lia. rewrite Nat.add_0_r. apply get32_put32; [done|lia].
  - rewrite <- (IH (S i) (put32 hb (4 + 4 * i) w) j); [f_equal; lia|rewrite length_put32; lia|done|done].
Qed.

Lemma read_blocks_spec k i hb bl j : (i + k <= length bl)%nat ->
  read_blocks k i hb bl !! j = if decide (i <= j < i + k)%nat then Some (get32 hb (4 + 4 * j)) else bl !! j.
Proof.
  revert i bl. induction k as [|k IH]; intros i bl Hl; cbn [read_blocks].
  - rewrite decide_False by lia. done.
  - rewrite IH by (rewrite length_insert; lia). destruct (decide (i = j)) as [->|Hne].
    + rewrite decide_False, decide_True by lia. apply list_lookup_insert_eq. lia.
    + rewrite list_lookup_insert_ne by done. repeat case_decide; (done || lia).
Qed.

Lemma length_read_blocks k i hb bl : length (read_blocks k i hb bl) = length bl.
Proof. revert i bl. induction k as [|k IH]; intros; cbn [read_blocks]; [done|]. by rewrite IH, length_insert. Qed.

(** ** Running the log on the cache *)

Lemma onbc_run {A} (m : M bcache A) g c a c' : m c = inr (a, c') -> onbc m (Lsys g c) = inr (a, Lsys g c').
Proof. unfold onbc. simpl. intros ->. done. Qed.

Lemma onbc_modS f g c : onbc (modS f) (Lsys g c) = inr (tt, Lsys g (f c)).
Proof. done. Qed.

Lemma buf_at_run b g c x : bufs c !! b = Some x -> buf_at b (Lsys g c) = inr (x, Lsys g c).
Proof. intros H. unfold buf_at. mrun. simpl. rewrite H. done. Qed.

(** ** Sequences of block writes *)

Definition dset (D : Z -> block) (a : Z) (v : block) : Z -> block := fun b => if decide (b = a) then v else D b.
Definition replay (D : Z -> block) (tr : list (Z * block)) : Z -> block := foldl (fun D p => dset D p.1 p.2) D tr.

Lemma replay_app D t1 t2 : replay D (t1 ++ t2) = replay (replay D t1) t2.
Proof. apply foldl_app. Qed.

Lemma replay_ext D D' tr : (forall b, D b = D' b) -> forall b, replay D tr b = replay D' tr b.
Proof.
  revert D D'. induction tr as [|[a v] tr IH]; intros D D' H b; [apply H|]. apply IH.
  intros b'. unfold dset. simpl. by rewrite H.
Qed.

Lemma replay_other D tr b : b ∉ tr.*1 -> replay D tr b = D b.
Proof.
  revert D. induction tr as [|[a v] tr IH]; intros D; [done|]. rewrite fmap_cons, not_elem_of_cons. intros [Hne Hni].
  change (replay (dset D a v) tr b = D b). rewrite IH by done. unfold dset. by rewrite decide_False.
Qed.

(** [P] holds of the disk before, between and after the writes: whenever the machine stops. *)
Definition always (D : Z -> block) (tr : list (Z * block)) (P : (Z -> block) -> Prop) : Prop :=
  forall j, P (replay D (take j tr)).

Lemma always_cons D a v tr P : P D -> always (dset D a v) tr P -> always D ((a, v) :: tr) P.
Proof. intros H0 H [|j]; [done|]. exact (H j). Qed.

Lemma always_app D t1 t2 P : always D t1 P -> always (replay D t1) t2 P -> always D (t1 ++ t2) P.
Proof.
  intros H1 H2 j. rewrite take_app. destruct (decide (j <= length t1)%nat) as [Hj|Hj].
  - replace (j - length t1)%nat with 0%nat by lia. rewrite take_0, app_nil_r. apply H1.
  - rewrite (take_ge t1) by lia. rewrite replay_app. apply H2.
Qed.

(** Writes that all carry the contents [V]. *)
Lemma replay_values D V tr b : Forall (fun p => p.2 = V p.1) tr ->
  replay D tr b = if decide (b ∈ tr.*1) then V b else D b.
Proof.
  revert D. induction tr as [|[a v] tr IH]; intros D Hf; [done|]. apply Forall_cons in Hf as [Hv Hf]. simpl in Hv.
  change (replay (dset D a v) tr b = if decide (b ∈ a :: tr.*1) then V b else D b). rewrite IH by done. unfold dset.
  repeat case_decide; subst; set_solver.
Qed.

(** The block writes of [write_log] and of [install_trans]: [V] gives the contents read, [pos] is the log block of the
    first of the home blocks. *)
Fixpoint log_writes (V : Z -> block) (pos : Z) (homes : list Z) : list (Z * block) :=
  match homes with [] => [] | h :: hs => (pos, V h) :: log_writes V (pos + 1) hs end.
Fixpoint install_writes (V : Z -> block) (pos : Z) (homes : list Z) : list (Z * block) :=
  match homes with [] => [] | h :: hs => (h, V pos) :: install_writes V (pos + 1) hs end.

Lemma log_writes_ext V V' pos hs : (forall h, h ∈ hs -> V h = V' h) -> log_writes V pos hs = log_writes V' pos hs.
Proof.
  revert pos. induction hs as [|h hs IH]; intros pos H; [done|]. cbn [log_writes].
  rewrite (H h), (IH (pos + 1)) by set_solver. done.
Qed.

Lemma install_writes_ext V V' pos hs :
  (forall p, pos <= p < pos + Z.of_nat (length hs) -> V p = V' p) -> install_writes V pos hs = install_writes V' pos hs.
Proof.
  revert pos. induction hs as [|h hs IH]; intros pos H; [done|]. cbn [install_writes length] in *.
  rewrite (H pos), (IH (pos + 1)); [done| |lia]. intros p Hp. apply H. lia.
Qed.

Lemma log_writes_dom V pos hs a : a ∈ (log_writes V pos hs).*1 -> pos <= a < pos + Z.of_nat (length hs).
Proof.
  revert pos. induction hs as [|h hs IH]; intros pos Ha; cbn in Ha; [by apply not_elem_of_nil in Ha|].
  apply elem_of_cons in Ha as [->|Ha]; cbn [length]; [lia|]. apply IH in Ha. lia.
Qed.

Lemma install_writes_dom V pos hs : (install_writes V pos hs).*1 = hs.
Proof. revert pos. induction hs as [|h hs IH]; intros pos; [done|]. cbn. f_equal. apply IH. Qed.

Lemma replay_log_writes W hs : forall D pos i h, hs !! i = Some h ->
  replay D (log_writes W pos hs) (pos + Z.of_nat i) = W h.
Proof.
  induction hs as [|h' hs IH]; intros D pos i h Hi; [done|]. cbn [log_writes].
  change (replay (dset D pos (W h')) (log_writes W (pos + 1) hs) (pos + Z.of_nat i) = W h).
  destruct i as [|i]; simpl in Hi.
  - injection Hi as ->. rewrite replay_other; [unfold dset; by rewrite decide_True by lia|].
    intros Ha. apply log_writes_dom in Ha. lia.
  - rewrite <- (IH (dset D pos (W h')) (pos + 1) i h Hi). f_equal. lia.
Qed.

Lemma install_writes_values W V hs : forall pos, (forall i h, hs !! i = Some h -> V h = W (pos + Z.of_nat i)) ->
  Forall (fun p => p.1 ∈ hs /\ p.2 = V p.1) (install_writes W pos hs).
Proof.
  induction hs as [|h hs IH]; intros pos H; cbn [install_writes]; constructor.
  - simpl. split; [by left|]. rewrite (H 0%nat h) by done. f_equal. lia.
  - apply (Forall_impl _ _ _ (IH (pos + 1) ltac:(intros i h' Hi; rewrite (H (S i) h' Hi); f_equal; lia))).
    intros p [? ?]. split; [by right|done].
Qed.

Section log_proofs.
Context (cg : Z) (is_loop : Z -> bool) (d : Z).
Hypothesis Hd : d <> 0.
Hypothesis Hloop : is_loop d = false.

(** No buffer of the device is in use and there is room for two more. *)
Definition quiet (c : bcache) : Prop :=
  exists l, blk_ok d c l /\ (forall h b, ~ held d c h b) /\ (busy c + 2 <= NBUF)%nat.

(** The two states agree on the devices, on the contents of every block and on what the log pins. *)
Definition same (c c' : bcache) : Prop :=
  same_devices c c' /\ same_views d c c' /\ (forall b, pinned d c' b <-> pinned d c b).

(** The block writes [tr] reached the device and the cache, in this order; nothing else changed. *)
Record wrote (c c' : bcache) (tr : list (Z * block)) : Prop := {
  w_store : forall b, store c' d b = replay (store c d) tr b;
  w_view : forall b, view d c' b = replay (view d c) tr b;
  w_pinned : forall b, pinned d c' b <-> pinned d c b /\ b ∉ tr.*1;
  w_trace : wtrace c' = wtrace c ++ ((fun p => (d, p.1, p.2)) <$> tr)
}.

Lemma same_trans c1 c2 c3 : same c1 c2 -> same c2 c3 -> same c1 c3.
Proof.
  intros (Ha & Hb & Hc) (Ha' & Hb' & Hc'). split; [by eapply same_devices_trans|]. split.
  - intros b. by rewrite Hb', Hb.
  - intros b. by rewrite Hc', Hc.
Qed.

Lemma wrote_nil c c' : same c c' -> wrote c c' [].
Proof.
  intros ((Hs & Ht & _) & Hv & Hp). split.
  - intros b. by rewrite Hs.
  - apply Hv.
  - intros b. rewrite Hp. split; [intros ?; split; [done|apply not_elem_of_nil]|naive_solver].
  - by rewrite Ht, app_nil_r.
Qed.

Lemma wrote_app c1 c2 c3 t1 t2 : wrote c1 c2 t1 -> wrote c2 c3 t2 -> wrote c1 c3 (t1 ++ t2).
Proof.
  intros [S1 V1 P1 T1] [S2 V2 P2 T2]. split.
  - intros b. rewrite S2, replay_app. by apply replay_ext.
  - intros b. rewrite V2, replay_app. by apply replay_ext.
  - intros b. rewrite P2, P1, fmap_app, not_elem_of_app. tauto.
  - by rewrite T2, T1, fmap_app, app_assoc.
Qed.

Lemma wrote_same_l c1 c2 c3 tr : same c1 c2 -> wrote c2 c3 tr -> wrote c1 c3 tr.
Proof. intros H. apply (wrote_app c1 c2 c3 []). by apply wrote_nil. Qed.

Lemma wrote_same_r c1 c2 c3 tr : wrote c1 c2 tr -> same c2 c3 -> wrote c1 c3 tr.
Proof. intros H Hs. rewrite <- (app_nil_r tr). eapply wrote_app; [done|by apply wrote_nil]. Qed.

Lemma same_event e c : same c (log_event e c).
Proof. done. Qed.

(** How many buffers a [bread] of the block takes out of the free ones. *)
Definition cost (c : bcache) (b : Z) (n : nat) : Prop := pinned d c b /\ n = 0%nat \/ ~ pinned d c b /\ n = 1%nat.

Lemma cost_ex c b l : blk_ok d c l -> exists n, cost c b n.
Proof.
  intros Hbk. destruct (caches_dec_ex d c b) as [(i & x & Hca)|Hno].
  - destruct (decide (flags x = Z.lor B_VALID B_DIRTY)) as [Hf|Hf].
    + exists 0%nat. left. split; [by exists i, x|done].
    + exists 1%nat. right. split; [|done]. by rewrite (pinned_caches d Hd c l i b x (bk_ok _ _ _ Hbk) Hca).
  - exists 1%nat. right. split; [|done]. intros (i & x & Hca & _). by apply (Hno i x).
Qed.

Lemma blk_ok_event e c l : blk_ok d c l -> blk_ok d (log_event e c) l.
Proof. intros [H1 H2 H3 H4 H5 H6 H7]. split; try done. by apply (bc_ok_same c). Qed.

(** A block whose contents are pinned or on the device: releasing it loses nothing. *)
Definition stable (c : bcache) (b : Z) : Prop := pinned d c b \/ view d c b = store c d b.

Lemma quiet_stable c b : quiet c -> stable c b.
Proof.
  intros (l & Hbk & Hnh & _). destruct (cost_ex c b l Hbk) as [n [[Hp _]|[Hp _]]]; [by left|right].
  by apply (view_clean d Hd c l).
Qed.

Lemma stable_same c c' b : same c c' -> stable c b -> stable c' b.
Proof. intros ((Hs & _) & Hv & Hp) [H|H]; [left; by apply Hp|right]. by rewrite Hv, Hs. Qed.

Lemma stable_wrote c c' a v b : wrote c c' [(a, v)] -> (b = a \/ stable c b) -> stable c' b.
Proof.
  intros [Hs Hv Hp _] H. unfold stable. rewrite Hv, Hs, Hp. cbn. unfold dset.
  case_decide as E; [by right|]. destruct H as [?|[?|?]]; [done| |by right].
  left. split; [done|]. by rewrite list_elem_of_singleton.
Qed.
(** Two blocks read one after the other: both are locked, in different buffers. *)
Lemma bread_two c a b :
  quiet c -> 0 <= a < FSSIZE -> 0 <= b < FSSIZE -> a <> b -> ~ pinned d c a ->
  exists h1 h2 c1 c2 l, bread cg is_loop d a c = inr (h1, c1) /\ bread cg is_loop d b c1 = inr (h2, c2) /\
    blk_ok d c2 l /\ same c c2 /\ held d c2 h1 a /\ held d c2 h2 b /\ h1 <> h2 /\
    (forall k b', held d c2 k b' -> k = h1 \/ k = h2) /\
    (forall n, cost c b n -> busy c2 = S (busy c + n)).
Proof.
  intros (l & Hbk & Hnh & Hbz) Ha Hb Hab Hnp.
  destruct (bread_law cg is_loop d Hd Hloop c l a Hbk Ha (fun h => Hnh h a)) as
    (h1 & y1 & c1 & E1 & Hbk1 & Hsd1 & Hv1 & Hy1 & Hh1 & Hdat1 & Hp1 & Hhe1 & _ & Hz1); [lia|].
  destruct (bread_law cg is_loop d Hd Hloop c1 l b Hbk1 Hb) as
    (h2 & y2 & c2 & E2 & Hbk2 & Hsd2 & Hv2 & Hy2 & Hh2 & Hdat2 & Hp2 & Hhe2 & Hz2 & Hz2').
  { intros h Hh. apply Hhe1 in Hh as [Hh|[_ ?]]; [by apply (Hnh h b)|done]. }
  { rewrite Hz1 by done. lia. }
  assert (held d c2 h1 a) as Hha by (apply Hhe2; by left).
  exists h1, h2, c1, c2, l. split; [done|]. split; [done|]. split; [done|].
  split; [by apply (same_trans _ c1)|]. split; [done|]. split; [done|].
  split.
  { intros ->. destruct Hha as (? & (? & _ & ? & _) & _), Hh2 as (? & (? & _ & ? & _) & _). congruence. }
  split.
  - intros k b' Hk. apply Hhe2 in Hk as [Hk|[? _]]; [|by right]. apply Hhe1 in Hk as [Hk|[? _]]; [|by left]. by apply Hnh in Hk.
  - intros n [[Hpb ->]|[Hpb ->]].
    + rewrite Hz2, Hz1 by (by rewrite ?Hp1). lia.
    + rewrite Hz2', Hz1 by (by rewrite ?Hp1). lia.
Qed.

Lemma write_held c l h b v :
  blk_ok d c l -> held d c h b -> 0 <= b < FSSIZE ->
  exists c', bwrite is_loop h (upd_buf h (set_bdata v) c) = inr (tt, c') /\ blk_ok d c' l /\ wrote c c' [(b, v)] /\
    (forall k b', held d c' k b' <-> held d c k b') /\ busy c' = busy c.
Proof.
  intros Hbk (x & Hca & Hlk) Hb.
  destruct (set_data_law d Hd c l h b x v Hbk Hca Hlk) as (Hbk1 & (Hs1 & Ht1 & _) & Hca1 & Hv1 & Hp1 & Hhe1 & Hz1).
  destruct (bwrite_law is_loop d Hd Hloop _ l h b _ Hbk1 Hca1) as
    (c' & x' & E & Hbk' & Hs & Ht & _ & _ & _ & _ & _ & Hv & Hp & Hhe & Hz); [done..|].
  exists c'. split; [done|]. split; [done|]. split; [split|].
  - intros b'. rewrite Hs, Hs1. done.
  - intros b'. rewrite Hv, Hv1. done.
  - intros b'. rewrite Hp, Hp1. cbn. by rewrite list_elem_of_singleton.
  - rewrite Ht, Ht1. done.
  - split; [|congruence]. intros k b'. by rewrite Hhe, Hhe1.
Qed.

Lemma release_held c l h b : blk_ok d c l -> held d c h b -> stable c b ->
  exists c' l', buf_cache_release h c = inr (tt, c') /\ blk_ok d c' l' /\ same c c' /\
    (forall k b', held d c' k b' <-> held d c k b' /\ k <> h) /\
    (forall n, cost c b n -> (busy c' + n = busy c)%nat).
Proof.
  intros Hbk (x & Hca & Hlk) Hst.
  destruct (release_law d Hd c l h b x Hbk Hca Hlk) as (c' & l' & E & Hbk' & Hsd & Hv & _ & Hp & Hhe & Hz & Hz').
  { destruct Hst as [?|Hst]; [by left|right]. rewrite <- Hst. symmetry. apply (view_cached d c l h); [apply Hbk|done|done]. }
  exists c', l'. split; [done|]. split; [done|]. split; [done|]. split; [done|].
  intros n [[Hpb ->]|[Hpb ->]]; [rewrite Hz by done; lia|]. rewrite (Hz' Hpb). lia.
Qed.

(** Releasing the only two blocks in use. *)
Lemma release_two c l h1 h2 a b n m : blk_ok d c l -> held d c h1 a -> held d c h2 b -> h1 <> h2 ->
  stable c a -> stable c b -> (forall k b', held d c k b' -> k = h1 \/ k = h2) -> cost c a n -> cost c b m ->
  (busy c + 2 <= NBUF + n + m)%nat ->
  exists c1 c', buf_cache_release h1 c = inr (tt, c1) /\ buf_cache_release h2 c1 = inr (tt, c') /\ quiet c' /\ same c c' /\
    (busy c' + n + m = busy c)%nat.
Proof.
  intros Hbk Ha Hb Hne Hsa Hsb Honly Hn Hm Hz.
  destruct (release_held c l h1 a Hbk Ha Hsa) as (c1 & l1 & E1 & Hbk1 & Hs1 & Hhe1 & Hz1).
  destruct (release_held c1 l1 h2 b Hbk1) as (c' & l' & E2 & Hbk2 & Hs2 & Hhe2 & Hz2).
  { apply Hhe1. done. } { by apply (stable_same c). }
  assert (cost c1 b m) as Hm1 by (unfold cost; by rewrite (proj2 (proj2 Hs1))).
  specialize (Hz1 n Hn). specialize (Hz2 m Hm1).
  exists c1, c'. split; [done|]. split; [done|]. split; [|split; [by apply (same_trans _ c1)|lia]].
  exists l'. split; [done|]. split; [|lia].
  intros k b' Hk. apply Hhe2 in Hk as [Hk ?]. apply Hhe1 in Hk as [Hk ?]. apply Honly in Hk as [?|?]; done.
Qed.

Definition in_log (g : log) (b : Z) : Prop := start g <= b < start g + lsize g.

(** The log area lies on the device and no block of it is pinned. *)
Record geom (g : log) : Prop := {
  g_dev : ldev g = d;
  g_start : 0 <= start g;
  g_size : 0 < lsize g;
  g_end : start g + lsize g <= FSSIZE;
  g_blocks : length (lh_block g) = Z.to_nat LOGSIZE
}.
Definition log_clean (g : log) (c : bcache) : Prop := forall b, in_log g b -> ~ pinned d c b.

Lemma write_log_step c g (i : Z) home k :
  geom g -> quiet c -> log_clean g c -> 0 <= i -> i + 1 < lsize g ->
  lh_block g !! Z.to_nat i = Some home -> 0 <= home < FSSIZE -> ~ in_log g home ->
  exists c', quiet c' /\ busy c' = busy c /\ wrote c c' [(start g + i + 1, view d c home)] /\
    write_log_loop cg is_loop (S k) i (Lsys g c) = write_log_loop cg is_loop k (i + 1) (Lsys g c').
Proof.
  intros [Hdev Hst Hsz Hend _] Hq Hlc Hi Hi' Hhome Hr Hnl. set (a := start g + i + 1).
  assert (in_log g a) as Hia by (unfold in_log, a; lia).
  destruct (bread_two c a home Hq) as (h1 & h2 & c1 & c2 & l & E1 & E2 & Hbk & Hs & Hh1 & Hh2 & Hne & Honly & Hz);
    [unfold a; lia|done|intros <-; done|by apply Hlc|].
  destruct (write_held c2 l h1 a (view d c home) Hbk Hh1) as (c3 & E3 & Hbk3 & Hw & Hhe & Hz3); [unfold a; lia|].
  assert (exists n, cost c home n) as [n Hn] by (destruct Hq as (l' & ? & _); by apply (cost_ex c home l')).
  assert (wrote c c3 [(a, view d c home)]) as Hw' by (by apply (wrote_same_l _ c2)).
  destruct (release_two c3 l h2 h1 home a n 1) as (c4 & c5 & E4 & E5 & Hq5 & Hs5 & Hz5); try done.
  { by apply Hhe. } { by apply Hhe. }
  { apply (stable_wrote c _ a (view d c home)); [done|]. right. by apply quiet_stable. }
  { apply (stable_wrote c _ a (view d c home)); [done|by left]. }
  { intros k' b' Hk. apply Hhe, Honly in Hk. tauto. }
  { unfold cost. rewrite (w_pinned _ _ _ Hw'). cbn. rewrite list_elem_of_singleton.
    assert (home <> a) by (intros ->; done). destruct Hn as [[? ->]|[? ->]]; [left|right]; tauto. }
  { right. rewrite (w_pinned _ _ _ Hw'). cbn. rewrite list_elem_of_singleton. tauto. }
  { rewrite Hz3, (Hz n Hn). destruct Hq as (? & _ & _ & ?). lia. }
  exists c5. split; [done|]. specialize (Hz n Hn). split; [lia|]. split; [by apply (wrote_same_r _ c3)|].
  destruct Hh2 as (x2 & Hca2 & _). cbn [write_log_loop].
  step (getS_run (Lsys g c)). cbn [lg]. rewrite Hhome, Hdev. step (eq_refl (deref (Some home) (Lsys g c))).
  step (onbc_run _ g _ _ _ E1). step (onbc_run _ g _ _ _ E2). step (buf_at_run h2 g c2 x2 (proj1 Hca2)).
  step (onbc_modS (upd_buf h1 (set_bdata (bdata x2))) g c2).
  rewrite <- (view_cached d c2 l h2 home x2 (bk_ok _ _ _ Hbk) Hd Hca2), (proj1 (proj2 Hs)).
  step (onbc_run _ g _ _ _ E3). step (onbc_run _ g _ _ _ E4). by step (onbc_run _ g _ _ _ E5).
Qed.

Lemma install_trans_step c g (i : Z) home k :
  geom g -> quiet c -> log_clean g c -> 0 <= i -> i + 1 < lsize g ->
  lh_block g !! Z.to_nat i = Some home -> 0 <= home < FSSIZE -> ~ in_log g home ->
  exists c', quiet c' /\ (pinned d c home -> S (busy c') = busy c) /\ wrote c c' [(home, view d c (start g + i + 1))] /\
    install_trans_loop cg is_loop (S k) i (Lsys g c) = install_trans_loop cg is_loop k (i + 1) (Lsys g c').
Proof.
  intros [Hdev Hst Hsz Hend _] Hq Hlc Hi Hi' Hhome Hr Hnl. set (a := start g + i + 1).
  assert (in_log g a) as Hia by (unfold in_log, a; lia).
  assert (home <> a) as Hha by (intros ->; done).
  destruct (bread_two c a home Hq) as (h1 & h2 & c1 & c2 & l & E1 & E2 & Hbk & Hs & Hh1 & Hh2 & Hne & Honly & Hz);
    [unfold a; lia|done|done|by apply Hlc|].
  destruct (write_held c2 l h2 home (view d c a) Hbk Hh2) as (c3 & E3 & Hbk3 & Hw & Hhe & Hz3); [done|].
  destruct (proj2 (Hhe h2 home) Hh2) as (x3 & Hca3 & _).
  set (c4 := log_event (FileDirtyAggregatedIncr (cgroup_ x3)) (log_event (FileDirtyDecr (cgroup_ x3)) c3)).
  assert (same c3 c4) as Hs4 by done.
  assert (exists n, cost c home n) as [n Hn] by (destruct Hq as (l' & ? & _); by apply (cost_ex c home l')).
  assert (wrote c c4 [(home, view d c a)]) as Hw'.
  { apply (wrote_same_r _ c3); [|done]. by apply (wrote_same_l _ c2). }
  destruct (release_two c4 l h1 h2 a home 1 1) as (c5 & c6 & E5 & E6 & Hq6 & Hs6 & Hz6); try done.
  { by apply blk_ok_event, blk_ok_event. }
  { by apply (proj2 (Hhe h1 a)). } { by apply (proj2 (Hhe h2 home)). }
  { apply (stable_wrote c _ home (view d c a)); [done|]. right. by apply quiet_stable. }
  { apply (stable_wrote c _ home (view d c a)); [done|by left]. }
  { intros k' b' Hk. apply (proj1 (Hhe k' b')), Honly in Hk. done. }
  { right. rewrite (w_pinned _ _ _ Hw'). split; [|done]. intros [Hp _]. by apply (Hlc a). }
  { right. rewrite (w_pinned _ _ _ Hw'). cbn. rewrite list_elem_of_singleton. tauto. }
  { change (busy c4) with (busy c3). rewrite Hz3, (Hz n Hn). destruct Hq as (? & _ & _ & ?), Hn as [[? ->]|[? ->]]; lia. }
  exists c6. split; [done|]. split.
  { intros Hp. destruct Hn as [[? ->]|[? _]]; [|done]. specialize (Hz 0%nat ltac:(by left)). change (busy c4) with (busy c3) in Hz6. lia. }
  split; [by apply (wrote_same_r _ c4)|].
  destruct Hh1 as (x1 & Hca1 & _). cbn [install_trans_loop].
  step (getS_run (Lsys g c)). cbn [lg]. rewrite Hhome, Hdev. step (eq_refl (deref (Some home) (Lsys g c))).
  step (onbc_run _ g _ _ _ E1). step (onbc_run _ g _ _ _ E2). step (buf_at_run h1 g c2 x1 (proj1 Hca1)).
  step (onbc_modS (upd_buf h2 (set_bdata (bdata x1))) g c2).
  rewrite <- (view_cached d c2 l h1 a x1 (bk_ok _ _ _ Hbk) Hd Hca1), (proj1 (proj2 Hs)).
  step (onbc_run _ g _ _ _ E3). step (buf_at_run h2 g c3 x3 (proj1 Hca3)).
  step (onbc_modS (log_event (FileDirtyDecr (cgroup_ x3))) g c3). step (onbc_modS (log_event (FileDirtyAggregatedIncr (cgroup_ x3))) g (log_event (FileDirtyDecr (cgroup_ x3)) c3)).
  step (onbc_run _ g _ _ _ E5). by step (onbc_run _ g _ _ _ E6).
Qed.

(** The home blocks from position [i] on. *)
Definition rest (g : log) (i : Z) : list Z := drop (Z.to_nat i) (take (Z.to_nat (lh_n g)) (lh_block g)).

Lemma rest_cons g i : 0 <= i < lh_n g -> lh_n g <= Z.of_nat (length (lh_block g)) ->
  exists home, lh_block g !! Z.to_nat i = Some home /\ rest g i = home :: rest g (i + 1).
Proof.
  intros Hi Hn. destruct (lookup_lt_is_Some_2 (lh_block g) (Z.to_nat i)) as [home Hh]; [lia|].
  exists home. split; [done|]. unfold rest. replace (Z.to_nat (i + 1)) with (S (Z.to_nat i)) by lia.
  apply drop_S. rewrite lookup_take_lt by lia. done.
Qed.

Definition homes (g : log) : list Z := take (Z.to_nat (lh_n g)) (lh_block g).

(** What the loops need of the log: its place, the number of blocks and where they go. *)
Record ready (g : log) : Prop := {
  r_geom : geom g;
  r_n : 0 <= lh_n g < lsize g;
  r_max : lh_n g <= LOGSIZE;
  r_homes : Forall (fun h => 0 <= h < FSSIZE /\ ~ in_log g h) (homes g);
  r_nodup : NoDup (homes g)
}.

Lemma length_homes g : ready g -> length (homes g) = Z.to_nat (lh_n g).
Proof. intros [[_ _ _ _ Hl] _ Hm _ _]. unfold homes. rewrite length_take, Hl. lia. Qed.

Lemma ready_at g i home : ready g -> 0 <= i < lh_n g -> lh_block g !! Z.to_nat i = Some home ->
  0 <= home < FSSIZE /\ ~ in_log g home.
Proof.
  intros [_ _ _ Hf _] Hi Hh. rewrite Forall_lookup in Hf. apply (Hf (Z.to_nat i)).
  unfold homes. by rewrite lookup_take_lt by lia.
Qed.

Lemma log_clean_wrote g c c' tr : log_clean g c -> wrote c c' tr -> log_clean g c'.
Proof. intros H Hw b Hb Hp. apply (w_pinned _ _ _ Hw) in Hp as [Hp _]. by apply (H b). Qed.

Lemma rest_nodup g i : ready g -> NoDup (rest g i).
Proof. intros Hg. eapply sublist_NoDup; [apply (r_nodup _ Hg)|apply sublist_drop]. Qed.

Lemma write_log_loop_run g : ready g -> forall k c i, quiet c -> log_clean g c -> 0 <= i -> Z.of_nat k = lh_n g - i ->
  exists c', write_log_loop cg is_loop k i (Lsys g c) = inr (tt, Lsys g c') /\ quiet c' /\ busy c' = busy c /\ log_clean g c' /\
    wrote c c' (log_writes (view d c) (start g + i + 1) (rest g i)).
Proof.
  intros Hg. pose proof Hg as [Hge Hn Hm _ _]. induction k as [|k IH]; intros c i Hq Hlc Hi Hk.
  - exists c. split; [done|]. split; [done|]. split; [done|]. split; [done|]. unfold rest.
    rewrite drop_ge by (rewrite length_take; lia). by apply wrote_nil.
  - destruct (rest_cons g i) as (home & Hh & Hrest); [lia|rewrite (g_blocks _ Hge); lia|].
    destruct (ready_at g i home Hg) as [Hr Hnl]; [lia|done|].
    destruct (write_log_step c g i home k) as (c1 & Hq1 & Hz1 & Hw1 & ->); try done; [lia|].
    assert (log_clean g c1) as Hlc1 by (by apply (log_clean_wrote g c c1 _ Hlc Hw1)).
    destruct (IH c1 (i + 1)) as (c' & E & Hq' & Hz' & Hlc' & Hw'); [done|done|lia|lia|].
    exists c'. split; [done|]. split; [done|]. split; [congruence|]. split; [done|]. rewrite Hrest. cbn [log_writes].
    apply (wrote_app c c1 c' [_]); [done|]. replace (start g + i + 1 + 1) with (start g + (i + 1) + 1) by lia.
    rewrite (log_writes_ext (view d c) (view d c1)); [done|]. intros h Hin. rewrite (w_view _ _ _ Hw1).
    symmetry. apply replay_other. cbn. rewrite list_elem_of_singleton. intros ->.
    assert (start g + i + 1 ∈ homes g) as Hin'.
    { apply (subseteq_drop (Z.to_nat i)). change (drop _ _) with (rest g i). rewrite Hrest. by right. }
    destruct (proj1 (Forall_forall _ _) (r_homes _ Hg) _ Hin') as [_ Hno]. apply Hno. unfold in_log. lia.
Qed.

Lemma install_trans_loop_run g : ready g -> forall k c i, quiet c -> log_clean g c -> 0 <= i -> Z.of_nat k = lh_n g - i ->
  exists c', install_trans_loop cg is_loop k i (Lsys g c) = inr (tt, Lsys g c') /\ quiet c' /\
    ((forall h, h ∈ rest g i -> pinned d c h) -> (busy c' + k = busy c)%nat) /\ log_clean g c' /\
    wrote c c' (install_writes (view d c) (start g + i + 1) (rest g i)).
Proof.
  intros Hg. pose proof Hg as [Hge Hn Hm _ _]. induction k as [|k IH]; intros c i Hq Hlc Hi Hk.
  - exists c. split; [done|]. split; [done|]. split; [lia|]. split; [done|]. unfold rest.
    rewrite drop_ge by (rewrite length_take; lia). by apply wrote_nil.
  - destruct (rest_cons g i) as (home & Hh & Hrest); [lia|rewrite (g_blocks _ Hge); lia|].
    destruct (ready_at g i home Hg) as [Hr Hnl]; [lia|done|].
    destruct (install_trans_step c g i home k) as (c1 & Hq1 & Hz1 & Hw1 & ->); try done; [lia|].
    assert (log_clean g c1) as Hlc1 by (by apply (log_clean_wrote g c c1 _ Hlc Hw1)).
    destruct (IH c1 (i + 1)) as (c' & E & Hq' & Hz' & Hlc' & Hw'); [done|done|lia|lia|].
    exists c'. split; [done|]. split; [done|]. rewrite Hrest. split.
    { intros Hp. rewrite <- Hz1 by (apply Hp; by left). rewrite <- Hz'; [lia|]. intros h Hin.
      apply (w_pinned _ _ _ Hw1). split; [apply Hp; by right|]. cbn. rewrite list_elem_of_singleton. intros ->.
      apply (rest_nodup g i) in Hg. rewrite Hrest in Hg. by apply NoDup_cons in Hg as [? _]. }
    split; [done|]. cbn [install_writes].
    apply (wrote_app c c1 c' [_]); [done|]. replace (start g + i + 1 + 1) with (start g + (i + 1) + 1) by lia.
    rewrite (install_writes_ext (view d c) (view d c1)); [done|]. intros p Hp. rewrite (w_view _ _ _ Hw1).
    symmetry. apply replay_other. cbn. rewrite list_elem_of_singleton. intros ->. apply Hnl.
    unfold rest in Hp. rewrite length_drop, length_take, (g_blocks _ Hge) in Hp. unfold in_log. lia.
Qed.

(** The block [write_head] leaves over the contents [hb]. *)
Definition head_block (g : log) (hb : block) : block := put_blocks 0 (homes g) (put32 hb 0 (lh_n g)).

Lemma write_head_run g c : geom g -> quiet c -> log_clean g c ->
  exists c', write_head cg is_loop (Lsys g c) = inr (tt, Lsys g c') /\ quiet c' /\ busy c' = busy c /\ log_clean g c' /\
    wrote c c' [(start g, head_block g (view d c (start g)))].
Proof.
  intros [Hdev Hst Hsz Hend _] Hq Hlc. pose proof Hq as (l & Hbk & Hnh & Hz).
  assert (~ pinned d c (start g)) as Hnp by (apply Hlc; unfold in_log; lia).
  destruct (bread_law cg is_loop d Hd Hloop c l (start g) Hbk) as
    (h & x & c1 & E1 & Hbk1 & Hsd1 & Hv1 & Hx & Hh1 & Hdat1 & Hp1 & Hhe1 & _ & Hz1); [lia|by intros ? ?%Hnh|lia|].
  destruct (write_held c1 l h (start g) (head_block g (view d c (start g))) Hbk1 Hh1) as
    (c2 & E2 & Hbk2 & Hw2 & Hhe2 & Hz2); [lia|].
  assert (wrote c c2 [(start g, head_block g (view d c (start g)))]) as Hw by (by apply (wrote_same_l _ c1)).
  destruct (release_held c2 l h (start g) Hbk2) as (c3 & l3 & E3 & Hbk3 & Hs3 & Hhe3 & Hz3).
  { by apply Hhe2. } { by eapply stable_wrote; [exact Hw|left]. }
  assert (busy c3 = busy c) as Hbz.
  { specialize (Hz1 Hnp). enough (cost c2 (start g) 1) as Hc by (specialize (Hz3 1%nat Hc); lia).
    right. split; [|done]. rewrite (w_pinned _ _ _ Hw). cbn. rewrite list_elem_of_singleton. tauto. }
  exists c3. split; [|split; [|split; [done|split]]].
  - unfold write_head. step (getS_run (Lsys g c)). cbn [lg]. rewrite Hdev. step (onbc_run _ g _ _ _ E1).
    step (buf_at_run h g c1 x Hx). rewrite Hdat1. fold (homes g).
    step (onbc_modS (upd_buf h (set_bdata (head_block g (view d c (start g))))) g c1).
    step (onbc_run _ g _ _ _ E2). exact (onbc_run _ g _ _ _ E3).
  - exists l3. split; [done|]. split; [|lia].
    intros k b Hk. apply Hhe3 in Hk as [Hk Hne]. apply Hhe2, Hhe1 in Hk as [Hk|[? _]]; [by apply Hnh in Hk|done].
  - apply (log_clean_wrote g c _ [(start g, head_block g (view d c (start g)))]); [done|]. by apply (wrote_same_r _ c2).
  - by apply (wrote_same_r _ c2).
Qed.

(** The number of committed blocks and their home blocks, as the header on the disk [D] has them. *)
Definition hdr_n (g : log) (D : Z -> block) : Z := s32 (get32 (D (start g)) 0).
Definition hdr_homes (g : log) (D : Z -> block) : list Z :=
  (fun i => get32 (D (start g)) (4 + 4 * i)) <$> seq 0 (Z.to_nat (hdr_n g D)).

Lemma read_head_run g c : geom g -> quiet c -> log_clean g c -> 0 <= hdr_n g (view d c) <= LOGSIZE ->
  exists c' bl, read_head cg is_loop (Lsys g c) =
    inr (tt, Lsys (set_blocks bl (set_n (hdr_n g (view d c)) g)) c') /\
    quiet c' /\ same c c' /\ length bl = length (lh_block g) /\ take (Z.to_nat (hdr_n g (view d c))) bl = hdr_homes g (view d c).
Proof.
  intros [Hdev Hst Hsz Hend Hlen] Hq Hlc Hn. pose proof Hq as (l & Hbk & Hnh & Hz).
  assert (~ pinned d c (start g)) as Hnp by (apply Hlc; unfold in_log; lia).
  destruct (bread_law cg is_loop d Hd Hloop c l (start g) Hbk) as
    (h & x & c1 & E1 & Hbk1 & Hsd1 & Hv1 & Hx & Hh1 & Hdat1 & Hp1 & Hhe1 & _ & Hz1); [lia|by intros ? ?%Hnh|lia|].
  assert (same c c1) as Hs1 by done.
  destruct (release_held c1 l h (start g) Hbk1 Hh1) as (c2 & l2 & E2 & Hbk2 & Hs2 & Hhe2 & Hz2).
  { apply (stable_same c); [done|]. by apply quiet_stable. }
  set (n := hdr_n g (view d c)) in *. exists c2, (read_blocks (Z.to_nat n) 0 (view d c (start g)) (lh_block g)).
  split; [|split; [|split; [by apply (same_trans _ c1)|split; [apply length_read_blocks|]]]].
  - unfold read_head. step (getS_run (Lsys g c)). cbn [lg]. rewrite Hdev. step (onbc_run _ g _ _ _ E1).
    step (buf_at_run h g c1 x Hx). rewrite Hdat1. fold (hdr_n g (view d c)). fold n.
    destruct (Z.ltb_spec LOGSIZE n) as [?|_]; [lia|]. unfold modlog. erewrite bind_run; [|done]. exact (onbc_run _ _ _ _ _ E2).
  - exists l2. split; [done|]. split.
    + intros k b Hk. apply Hhe2 in Hk as [Hk Hne]. apply Hhe1 in Hk as [Hk|[? _]]; [by apply Hnh in Hk|done].
    + specialize (Hz1 Hnp). enough (cost c1 (start g) 1) as Hc by (specialize (Hz2 1%nat Hc); lia). right. by rewrite Hp1.
  - apply list_eq. intros i. unfold hdr_homes. fold n. rewrite list_lookup_fmap.
    destruct (decide (i < Z.to_nat n)%nat).
    + rewrite lookup_take_lt, read_blocks_spec, decide_True, lookup_seq_lt by lia. done.
    + rewrite lookup_take_ge, lookup_seq_ge by lia. done.
Qed.

(** Recovery from the disk [D] leaves the contents [V] outside the log area: the committed blocks of the header have
    their contents in the log, every other block has them at home. *)
Record recovers (g : log) (D V : Z -> block) : Prop := {
  rc_len : length (D (start g)) = Z.to_nat BSIZE;
  rc_n : 0 <= hdr_n g D < lsize g;
  rc_max : hdr_n g D <= LOGSIZE;
  rc_nodup : NoDup (hdr_homes g D);
  rc_homes : Forall (fun h => 0 <= h < FSSIZE /\ ~ in_log g h) (hdr_homes g D);
  rc_log : forall i h, hdr_homes g D !! i = Some h -> V h = D (start g + Z.of_nat i + 1);
  rc_home : forall b, ~ in_log g b -> b ∉ hdr_homes g D -> V b = D b
}.

Lemma hdr_ext g D D' : D (start g) = D' (start g) -> hdr_n g D' = hdr_n g D /\ hdr_homes g D' = hdr_homes g D.
Proof. unfold hdr_homes, hdr_n. intros ->. done. Qed.

Lemma length_hdr_homes g D : length (hdr_homes g D) = Z.to_nat (hdr_n g D).
Proof. unfold hdr_homes. by rewrite length_fmap, length_seq. Qed.

Lemma in_log_at g D i h : 0 <= hdr_n g D < lsize g -> hdr_homes g D !! i = Some h ->
  in_log g (start g + Z.of_nat i + 1) /\ start g + Z.of_nat i + 1 <> start g.
Proof. intros Hn Hi. apply lookup_lt_Some in Hi. rewrite length_hdr_homes in Hi. unfold in_log. lia. Qed.

Lemma recovers_ext g D D' V : (forall b, D b = D' b) -> recovers g D V -> recovers g D' V.
Proof.
  intros He [H1 H2 H3 H4 H5 H6 H7]. destruct (hdr_ext g D D' (He _)) as [E1 E2].
  split; rewrite ?E1, ?E2; try done; [by rewrite <- He| |].
  - intros i h Hi. rewrite <- He. by apply H6.
  - intros b Hb Hn. rewrite <- He. by apply H7.
Qed.

(** The header is empty and every block is at home. *)
Definition recovered (g : log) (D V : Z -> block) : Prop :=
  length (D (start g)) = Z.to_nat BSIZE /\ hdr_n g D = 0 /\ (forall b, ~ in_log g b -> V b = D b).

Lemma recovered_recovers g D V : 0 < lsize g -> recovered g D V -> recovers g D V.
Proof.
  intros Hsz (H1 & H2 & H3). assert (hdr_homes g D = []) as E by (unfold hdr_homes; by rewrite H2).
  split; rewrite ?E, ?H2; unfold LOGSIZE, MAXOPBLOCKS; try done; try constructor. intros b Hb _. by apply H3.
Qed.

Lemma recovered_log_writes g D V W pos hs : start g < pos -> pos + Z.of_nat (length hs) <= start g + lsize g ->
  recovered g D V -> always D (log_writes W pos hs) (fun D' => recovered g D' V).
Proof.
  revert D pos. induction hs as [|h hs IH]; intros D pos Hp He Hr; [by intros []|].
  apply always_cons; [done|]. cbn [length] in He. apply IH; [lia|lia|]. destruct Hr as (H1 & H2 & H3).
  assert (dset D pos (W h) (start g) = D (start g)) as E by (unfold dset; rewrite decide_False by lia; done).
  split; [by rewrite E|]. split; [by rewrite (proj1 (hdr_ext g D (dset D pos (W h)) (eq_sym E)))|].
  intros b Hb. unfold dset. rewrite decide_False; [by apply H3|]. intros ->. apply Hb. unfold in_log. lia.
Qed.

Lemma recovers_install g D V tr : recovers g D V ->
  Forall (fun p => p.1 ∈ hdr_homes g D /\ p.2 = V p.1) tr -> always D tr (fun D' => recovers g D' V).
Proof.
  revert D. induction tr as [|[a v] tr IH]; intros D Hr Hf; [by intros []|].
  apply Forall_cons in Hf as [[Ha Hv] Hf]. simpl in Ha, Hv. apply always_cons; [done|].
  pose proof Hr as [H1 H2 H3 H4 H5 H6 H7]. destruct (proj1 (Forall_forall _ _) H5 a Ha) as [_ Hna].
  assert (dset D a v (start g) = D (start g)) as E.
  { unfold dset. rewrite decide_False; [done|]. intros <-. apply Hna. unfold in_log. lia. }
  destruct (hdr_ext g D (dset D a v) (eq_sym E)) as [E1 E2].
  apply IH; [|by rewrite E2]. split; rewrite ?E, ?E1, ?E2; try done.
  - intros i h Hi. unfold dset. rewrite decide_False; [by apply H6|]. intros <-. apply Hna. by apply (in_log_at g D i h).
  - intros b Hb Hn. unfold dset. rewrite decide_False; [by apply H7|]. by intros ->.
Qed.

Lemma hdr_head_block g D hb : ready g -> length hb = Z.to_nat BSIZE -> D (start g) = head_block g hb ->
  hdr_n g D = lh_n g /\ hdr_homes g D = homes g /\ length (D (start g)) = Z.to_nat BSIZE.
Proof.
  intros Hg Hl E. pose proof Hg as [Hge Hn Hm Hh _]. pose proof (length_homes g Hg) as Hlen.
  assert (is_u32 (lh_n g)) as Hu by (unfold is_u32, LOGSIZE, MAXOPBLOCKS in *; lia).
  assert (hdr_n g D = lh_n g) as En.
  { unfold hdr_n. rewrite E. unfold head_block. rewrite put_blocks_below, get32_put32 by (done || rewrite ?Hl; unfold BSIZE; lia).
    apply s32_id. unfold is_s32, LOGSIZE, MAXOPBLOCKS in *. lia. }
  split; [done|]. split; [|rewrite E; unfold head_block; by rewrite length_put_blocks, length_put32].
  apply list_eq. intros i. unfold hdr_homes. rewrite En, list_lookup_fmap, E. unfold head_block.
  destruct (homes g !! i) as [h|] eqn:Ei.
  - pose proof (lookup_lt_Some _ _ _ Ei) as Hi. rewrite lookup_seq_lt by lia. simpl. f_equal.
    rewrite <- (put_blocks_get (homes g) 0 (put32 hb 0 (lh_n g)) i h); [done| | |done].
    + rewrite length_put32, Hl, Hlen. unfold LOGSIZE, MAXOPBLOCKS, BSIZE in *. lia.
    + apply (Forall_impl _ _ _ Hh). unfold is_u32, FSSIZE. lia.
  - apply lookup_ge_None in Ei. rewrite lookup_seq_ge by lia. done.
Qed.

Lemma recovered_clear g D V hb : length hb = Z.to_nat BSIZE -> 0 < lsize g -> (forall b, ~ in_log g b -> V b = D b) ->
  recovered g (dset D (start g) (put32 hb 0 0)) V.
Proof.
  intros Hl Hs Hv. assert (dset D (start g) (put32 hb 0 0) (start g) = put32 hb 0 0) as E by (unfold dset; by rewrite decide_True).
  split; [by rewrite E, length_put32|]. split.
  - unfold hdr_n. rewrite E, get32_put32 by (unfold is_u32, BSIZE in *; lia). done.
  - intros b Hb. unfold dset. rewrite decide_False; [by apply Hv|]. intros ->. apply Hb. unfold in_log. lia.
Qed.

Lemma install_and_clear g D V tr hb : recovers g D V -> length hb = Z.to_nat BSIZE ->
  Forall (fun p => p.1 ∈ hdr_homes g D /\ p.2 = V p.1) tr -> tr.*1 = hdr_homes g D ->
  always D (tr ++ [(start g, put32 hb 0 0)]) (fun D' => recovers g D' V) /\
  recovered g (replay D (tr ++ [(start g, put32 hb 0 0)])) V.
Proof.
  intros Hr Hl Hf Hdom. pose proof (recovers_install g D V tr Hr Hf) as Ha. pose proof Hr as [_ Hn _ _ _ _ Hhome].
  assert (recovered g (replay D (tr ++ [(start g, put32 hb 0 0)])) V) as Hfin.
  { rewrite replay_app. apply recovered_clear; [done|lia|]. intros b Hb. rewrite (replay_values D V), Hdom.
    - case_decide; [done|by apply Hhome].
    - apply (Forall_impl _ _ _ Hf). by intros p [_ ?]. }
  split; [|done]. apply always_app; [done|]. apply always_cons.
  - specialize (Ha (length tr)). by rewrite take_ge in Ha by lia.
  - intros j. rewrite take_nil. rewrite replay_app in Hfin. apply recovered_recovers; [lia|exact Hfin].
Qed.

Lemma log_view g c b : quiet c -> log_clean g c -> in_log g b -> view d c b = store c d b.
Proof. intros Hq Hlc Hb. destruct (quiet_stable c b Hq) as [Hp|?]; [by apply Hlc in Hp|done]. Qed.

Lemma modlog_run f g c : modlog f (Lsys g c) = inr (tt, Lsys (f g) c).
Proof. done. Qed.

(** The second half of a commit, and all of a recovery after the header is read. *)
Lemma install_clear_run g c V : ready g -> quiet c -> log_clean g c -> recovers g (store c d) V ->
  hdr_homes g (store c d) = homes g ->
  exists c' tr, (install_trans cg is_loop ;; modlog (set_n 0) ;; write_head cg is_loop) (Lsys g c) =
      inr (tt, Lsys (set_n 0 g) c') /\
    quiet c' /\ ((forall h, h ∈ homes g -> pinned d c h) -> (busy c' + length (homes g) = busy c)%nat) /\
    log_clean g c' /\ wrote c c' tr /\ tr.*1 = homes g ++ [start g] /\
    always (store c d) tr (fun D => recovers g D V) /\ recovered g (store c' d) V.
Proof.
  intros Hg Hq Hlc Hr Hh. pose proof Hg as [Hge Hn Hm _ _].
  destruct (install_trans_loop_run g Hg (Z.to_nat (lh_n g)) c 0) as (c1 & E1 & Hq1 & Hz1 & Hlc1 & Hw1); [done|done|lia|lia|].
  destruct (write_head_run (set_n 0 g) c1) as (c2 & E2 & Hq2 & Hz2 & Hlc2 & Hw2); [by destruct Hge|done|done|].
  set (tr := install_writes (view d c) (start g + 0 + 1) (homes g)) in *. change (rest g 0) with (homes g) in Hw1. fold tr in Hw1.
  set (hb := view d c1 (start g)) in *. change (head_block _ _) with (put32 hb 0 0) in Hw2.
  assert (view d c (start g) = store c d (start g)) as Es by (apply (log_view g); [done|done|unfold in_log; lia]).
  assert (length hb = Z.to_nat BSIZE) as Hlb.
  { unfold hb. rewrite (w_view _ _ _ Hw1), replay_other, Es; [apply Hr|]. unfold tr. rewrite install_writes_dom, <- Hh.
    intros Hin. destruct (proj1 (Forall_forall _ _) (rc_homes _ _ _ Hr) _ Hin) as [_ Hno]. apply Hno. unfold in_log. lia. }
  assert (Forall (fun p => p.1 ∈ hdr_homes g (store c d) /\ p.2 = V p.1) tr) as Hf.
  { rewrite Hh. apply install_writes_values. intros i h Hi. rewrite <- Hh in Hi. rewrite (rc_log _ _ _ Hr i h Hi).
    destruct (in_log_at g (store c d) i h (rc_n _ _ _ Hr) Hi) as [Hin _].
    rewrite <- (log_view g c _ Hq Hlc Hin). f_equal. lia. }
  destruct (install_and_clear g (store c d) V tr hb Hr Hlb Hf) as [Ha Hfin]; [by rewrite Hh; apply install_writes_dom|].
  exists c2, (tr ++ [(start g, put32 hb 0 0)]). pose proof (wrote_app _ _ _ _ _ Hw1 Hw2) as Hw.
  split; [|split; [done|split; [intros Hp; rewrite (length_homes g Hg), Hz2; by apply Hz1|split; [done|split; [done|split; [|split; [done|]]]]]]].
  - unfold install_trans. rewrite (bind_run (getS ≫= _) _ _ tt (Lsys g c1)) by (rewrite (bind_run _ _ _ _ _ (getS_run _)); exact E1).
    step (modlog_run (set_n 0) g c1). exact E2.
  - rewrite fmap_app. unfold tr. by rewrite install_writes_dom.
  - destruct Hfin as (H1 & H2 & H3). pose proof (w_store _ _ _ Hw) as Hst. split; [by rewrite Hst|].
    split; [by rewrite (proj1 (hdr_ext g _ (store c2 d) (eq_sym (Hst _))))|]. intros b Hb. rewrite Hst. by apply H3.
Qed.

(** The commit point: with the log blocks written, the write of the header makes the new contents the recovered ones. *)
Lemma commit_point g D V hb : ready g -> length hb = Z.to_nat BSIZE ->
  (forall b, ~ in_log g b -> b ∉ homes g -> V b = D b) ->
  let D2 := replay D (log_writes V (start g + 0 + 1) (homes g) ++ [(start g, head_block g hb)]) in
  recovers g D2 V /\ hdr_homes g D2 = homes g.
Proof.
  intros Hg Hl Hv D2. pose proof Hg as [Hge Hn Hm Hhs Hnd]. pose proof (length_homes g Hg) as Hlen.
  assert (forall b, D2 b = dset (replay D (log_writes V (start g + 0 + 1) (homes g))) (start g) (head_block g hb) b) as E
    by (intros b; unfold D2; by rewrite replay_app).
  destruct (hdr_head_block g D2 hb Hg Hl) as (E1 & E2 & E3); [rewrite E; unfold dset; by rewrite decide_True|].
  split; [|done]. split; rewrite ?E1, ?E2; try done.
  - intros i h Hi. pose proof (lookup_lt_Some _ _ _ Hi). rewrite E. unfold dset. rewrite decide_False by lia.
    replace (start g + Z.of_nat i + 1) with (start g + 0 + 1 + Z.of_nat i) by lia. symmetry. by apply replay_log_writes.
  - intros b Hb Hni. rewrite E. unfold dset. rewrite decide_False by (intros ->; apply Hb; unfold in_log; lia).
    rewrite replay_other; [by apply Hv|]. intros Hin. apply log_writes_dom in Hin. apply Hb. unfold in_log. lia.
Qed.

Lemma commit_run g c : ready g -> 0 < lh_n g -> quiet c -> (forall b, pinned d c b <-> b ∈ homes g) ->
  recovered g (store c d) (store c d) ->
  exists c' tr k, commit cg is_loop (Lsys g c) = inr (tt, Lsys (set_n 0 g) c') /\
    quiet c' /\ (busy c' + length (homes g) = busy c)%nat /\ (forall b, ~ pinned d c' b) /\ wtrace c' = wtrace c ++ ((fun p => (d, p.1, p.2)) <$> tr) /\
    (forall b, store c' d b = replay (store c d) tr b) /\ recovered g (store c' d) (view d c) /\
    (forall j, recovers g (replay (store c d) (take j tr)) (if decide (j < k)%nat then store c d else view d c)).
Proof.
  intros Hg Hpos Hq Hpin Hrec. pose proof Hg as [Hge Hn Hm Hhs Hnd]. pose proof Hge as [_ _ Hsz _ _].
  assert (log_clean g c) as Hlc by (intros b Hb Hp; apply Hpin in Hp; by destruct (proj1 (Forall_forall _ _) Hhs b Hp)).
  destruct (write_log_loop_run g Hg (Z.to_nat (lh_n g)) c 0) as (c1 & E1 & Hq1 & Hz1 & Hlc1 & Hw1); [done|done|lia|lia|].
  change (rest g 0) with (homes g) in Hw1. set (t1 := log_writes (view d c) (start g + 0 + 1) (homes g)) in *.
  destruct (write_head_run g c1 Hge Hq1 Hlc1) as (c2 & E2 & Hq2 & Hz2 & Hlc2 & Hw2).
  set (hb := view d c1 (start g)) in *. pose proof (wrote_app _ _ _ _ _ Hw1 Hw2) as Hw12.
  pose proof (length_homes g Hg) as Hlen.
  assert (length hb = Z.to_nat BSIZE) as Hlb.
  { unfold hb. rewrite (w_view _ _ _ Hw1), replay_other, (log_view g c); [apply Hrec|done|done|unfold in_log; lia|].
    intros Hin. apply log_writes_dom in Hin. lia. }
  destruct (commit_point g (store c d) (view d c) hb Hg Hlb) as [Hr2 Hh2].
  { intros b _ Hni. destruct (quiet_stable c b Hq) as [Hp|?]; [by apply Hpin in Hp|done]. }
  fold t1 in Hr2, Hh2. set (t12 := t1 ++ [(start g, head_block g hb)]) in *.
  assert (forall b, replay (store c d) t12 b = store c2 d b) as Est by (intros b; symmetry; apply Hw12).
  destruct (install_clear_run g c2 (view d c) Hg Hq2 Hlc2) as (c3 & t3 & E3 & Hq3 & Hz3 & Hlc3 & Hw3 & Hdom & Ha3 & Hfin).
  { by apply (recovers_ext g (replay (store c d) t12)). }
  { rewrite <- Hh2. by apply hdr_ext. }
  pose proof (wrote_app _ _ _ _ _ Hw12 Hw3) as Hw. exists c3, (t12 ++ t3), (length t12).
  split; [|split; [done|split; [|split; [|split; [apply Hw|split; [apply Hw|split; [done|]]]]]]].
  - unfold commit. step (getS_run (Lsys g c)). cbn [lg]. destruct (Z.ltb_spec 0 (lh_n g)); [|lia].
    unfold write_log. rewrite (bind_run (getS ≫= _) _ _ tt (Lsys g c1)) by (rewrite (bind_run _ _ _ _ _ (getS_run _)); exact E1).
    step E2. exact E3.
  - rewrite <- Hz1, <- Hz2. apply Hz3. intros h Hh. apply (w_pinned _ _ _ Hw12). split; [by apply Hpin|].
    unfold t12. rewrite fmap_app, not_elem_of_app. cbn. rewrite list_elem_of_singleton.
    destruct (proj1 (Forall_forall _ _) Hhs h Hh) as [_ Hno].
    split; [intros Hin%log_writes_dom|intros ->]; apply Hno; unfold in_log; lia.
  - intros b Hb. apply (w_pinned _ _ _ Hw) in Hb as [Hp%Hpin Hni]. apply Hni. rewrite fmap_app, Hdom, !elem_of_app. tauto.
  - intros j. rewrite take_app. case_decide as Hj.
    + replace (j - length t12)%nat with 0%nat by lia. rewrite take_0, app_nil_r. unfold t12 in *. rewrite length_app in Hj. simpl in Hj.
      rewrite take_app_le by lia. apply recovered_recovers; [done|]. apply recovered_log_writes; [lia|lia|done].
    + rewrite (take_ge t12), replay_app by lia. apply (recovers_ext g (replay (store c2 d) (take (j - length t12) t3))); [|apply Ha3].
      intros b. by apply replay_ext.
Qed.

(** A freshly booted cache over the disk [D]. *)
Definition booted (c : bcache) (D : Z -> block) : Prop :=
  quiet c /\ (forall b, ~ pinned d c b) /\ (forall b, store c d b = D b).

Lemma recovers_layout g g' D V : start g = start g' -> lsize g = lsize g' -> recovers g D V -> recovers g' D V.
Proof. destruct g, g'. simpl. intros -> -> []. by split. Qed.

Lemma recover_run g c D V : geom g -> booted c D -> recovers g D V ->
  exists g' c' tr, recover_from_log cg is_loop (Lsys g c) = inr (tt, Lsys g' c') /\
    start g' = start g /\ lsize g' = lsize g /\ lh_n g' = 0 /\ outstanding g' = outstanding g /\ committing g' = committing g /\
    geom g' /\ quiet c' /\ (forall b, ~ pinned d c' b) /\ wtrace c' = wtrace c ++ ((fun p => (d, p.1, p.2)) <$> tr) /\
    always D tr (fun D' => recovers g D' V) /\ recovered g (store c' d) V.
Proof.
  intros Hge (Hq & Hnp & HD) Hr.
  assert (forall b, view d c b = D b) as HV by (intros b; rewrite <- HD; by destruct (quiet_stable c b Hq) as [?%Hnp|]).
  destruct (hdr_ext g D (view d c)) as [En Eh]; [done|]. pose proof Hr as [_ Hn Hm Hnd Hhs _ _].
  destruct (read_head_run g c Hge Hq) as (c1 & bl & E1 & Hq1 & Hs1 & Hlen & Htake); [by intros b _|rewrite En; lia|].
  rewrite En, Eh in *. set (g1 := set_blocks bl (set_n (hdr_n g D) g)) in *.
  assert (ready g1) as Hg1.
  { split; [|done|done| |].
    - destruct Hge as [? ? ? ? Hl]. split; try done. cbn. by rewrite Hlen.
    - unfold homes. cbn. by rewrite Htake.
    - unfold homes. cbn. by rewrite Htake. }
  assert (forall b, D b = store c1 d b) as Est by (intros b; by rewrite (proj1 (proj1 Hs1)), HD).
  destruct (install_clear_run g1 c1 V Hg1 Hq1) as (c2 & tr & E2 & Hq2 & _ & _ & Hw & _ & Ha & Hfin).
  { intros b _. rewrite (proj2 (proj2 Hs1)). apply Hnp. }
  { apply (recovers_ext g1 D); [done|]. by apply (recovers_layout g). }
  { unfold homes. cbn. rewrite Htake. by apply (hdr_ext g D). }
  exists (set_n 0 g1), c2, tr. split; [unfold recover_from_log; step E1; exact E2|].
  split; [done|]. split; [done|]. split; [done|]. split; [done|]. split; [done|].
  split; [by destruct Hg1 as [[] _ _ _ _]|]. split; [done|]. split; [|split; [|split]].
  - intros b Hp. apply (w_pinned _ _ _ Hw) in Hp as [Hp _]. apply (proj2 (proj2 Hs1)) in Hp. by apply Hnp in Hp.
  - rewrite (w_trace _ _ _ Hw). by rewrite (proj1 (proj2 (proj1 Hs1))).
  - intros j. apply (recovers_layout g1); [done|done|]. apply (recovers_ext g1 (replay (store c1 d) (take j tr))); [|apply Ha].
    intros b. by apply replay_ext.
  - done.
Qed.

(** ** Transactions *)

Section transactions.
Context (isloop : Z -> bool).
Hypothesis Hnl : isloop d = false.

(** A caller's update of a block, as the comment on [log_write] has it: read it, modify it, log it, release it. *)
Definition update (b : Z) (v : block) : M lsys unit :=
  h ← onbc (bread cg is_loop d b);
  onbc (modS (upd_buf h (set_bdata v))) ;;
  log_write cg is_loop isloop h ;;
  onbc (buf_cache_release h).

(** The log absorbs a second write of a block and appends a first one. *)
Definition logged (g : log) (b : Z) (g' : log) : Prop :=
  start g' = start g /\ lsize g' = lsize g /\ outstanding g' = outstanding g /\ committing g' = committing g /\ ldev g' = ldev g /\
  length (lh_block g') = length (lh_block g) /\
  (b ∈ homes g /\ lh_n g' = lh_n g /\ homes g' = homes g \/
   b ∉ homes g /\ lh_n g' = lh_n g + 1 /\ homes g' = homes g ++ [b]).

Lemma find_home g b : 0 <= lh_n g < Z.of_nat (length (lh_block g)) ->
  match list_find (fun v => v = b) (homes g) with
  | Some (i, _) => (i < Z.to_nat (lh_n g))%nat /\ b ∈ homes g /\ take (Z.to_nat (lh_n g)) (<[i := b]> (lh_block g)) = homes g
  | None => b ∉ homes g /\ take (Z.to_nat (lh_n g + 1)) (<[Z.to_nat (lh_n g) := b]> (lh_block g)) = homes g ++ [b]
  end.
Proof.
  intros Hn. destruct (list_find _ _) as [[i v]|] eqn:E.
  - apply list_find_Some in E as (Hi & -> & _). pose proof (lookup_lt_Some _ _ _ Hi) as Hlt.
    unfold homes in Hi, Hlt. rewrite length_take in Hlt. split; [lia|].
    split; [by eapply list_elem_of_lookup_2|]. rewrite take_insert_lt, list_insert_id by (done || lia). done.
  - apply list_find_None in E. rewrite Forall_forall in E. split; [intros Hin; by apply (E b)|].
    replace (Z.to_nat (lh_n g + 1)) with (S (Z.to_nat (lh_n g))) by lia.
    rewrite (take_S_r _ _ b) by (apply list_lookup_insert_eq; lia). by rewrite take_insert_ge by lia.
Qed.

Lemma log_write_run g c l h b x : blk_ok d c l -> caches d c h b x -> locked x = true ->
  length (lh_block g) = Z.to_nat LOGSIZE -> 0 <= lh_n g < LOGSIZE -> lh_n g < lsize g - 1 -> 1 <= outstanding g ->
  exists g' c' x', log_write cg is_loop isloop h (Lsys g c) = inr (tt, Lsys g' c') /\ logged g b g' /\
    blk_ok d c' l /\ same_devices c c' /\ caches d c' h b x' /\ locked x' = true /\ same_views d c c' /\
    (forall b', pinned d c' b' <-> pinned d c b' \/ b' = b) /\ (forall k b', held d c' k b' <-> held d c k b') /\
    busy c' = busy c.
Proof.
  intros Hbk Hca Hlk Hlen Hn Hsz Hout. pose proof Hca as (Hx & Hdev & Hid & _).
  assert (u32 (id x) = b) as Eb by (rewrite u32_id; [done|by apply (bk_id _ _ _ Hbk h x)]).
  pose proof (find_home g b ltac:(rewrite Hlen; lia)) as Hf. unfold log_write.
  rewrite (bind_run _ _ _ _ _ (getS_run _)). cbv zeta. cbn [lg].
  destruct (Z.leb_spec LOGSIZE (lh_n g)) as [?|_]; [lia|]. destruct (Z.leb_spec (lsize g - 1) (lh_n g)) as [?|_]; [lia|].
  destruct (Z.ltb_spec (outstanding g) 1) as [?|_]; [lia|]. cbn [orb].
  rewrite (bind_run _ _ _ _ _ (buf_at_run h g c x Hx)), Hdev, Hnl, Eb. fold (homes g).
  destruct (list_find _ (homes g)) as [[i v]|].
  - destruct Hf as (Hi & Hin & Ht). rewrite decide_False by lia.
    destruct (pin_law d Hd c l h b x Hbk Hca Hlk) as (H1 & H2 & H3 & H4 & H5 & H6 & H7).
    eexists _, _, _. split; [reflexivity|]. split; [|by split_and!].
    split_and!; try done; [apply length_insert|]. left. by split_and!.
  - destruct Hf as (Hin & Ht). rewrite decide_True by done.
    destruct (set_cgroup_law d Hd c l h b x cg Hbk Hca Hlk) as (H1 & H2 & H3 & H4 & H5 & H6 & H7).
    set (c1 := upd_buf h (set_cgroup cg) c) in *. set (c2 := log_event (FileDirtyIncr cg) c1).
    assert (caches d c2 h b (set_cgroup cg x)) as Hca2 by exact H3.
    destruct (pin_law d Hd c2 l h b (set_cgroup cg x) (blk_ok_event _ c1 l H1) Hca2 Hlk) as (G1 & G2 & G3 & G4 & G5 & G6 & G7).
    set (c3 := upd_buf h _ c2) in *. eexists _, c3, _. split; [reflexivity|]. split.
    + split_and!; try done; [apply length_insert|]. right. by split_and!.
    + split; [exact G1|]. split; [eapply same_devices_trans; [exact H2|exact G2]|]. split; [exact G3|]. split; [done|].
      split; [intros b'; rewrite G4; apply H4|]. split; [intros b'; rewrite G5; by rewrite <- (H5 b')|].
      split; [intros k b'; rewrite G6; by rewrite <- (H6 k b')|]. rewrite G7. exact H7.
Qed.

(** The state between two calls, with [ops] the number of blocks each outstanding operation has logged. *)
Record tinv (ops : list nat) (s : lsys) : Prop := {
  t_ready : ready (lg s);
  t_idle : committing (lg s) = false;
  t_out : outstanding (lg s) = Z.of_nat (length ops);
  t_budget : Forall (fun w => (w <= Z.to_nat MAXOPBLOCKS)%nat) ops;
  t_room : lh_n (lg s) + MAXOPBLOCKS * Z.of_nat (length ops) - Z.of_nat (sum_list ops) <= LOGSIZE;
  t_quiet : quiet (bc s);
  t_busy : Z.of_nat (busy (bc s)) = lh_n (lg s);
  t_pinned : forall b, pinned d (bc s) b <-> b ∈ homes (lg s);
  t_disk : recovered (lg s) (store (bc s) d) (store (bc s) d)
}.

(** What one [update] does when the log has room. *)
Definition updated (s s' : lsys) (b : Z) (v : block) : Prop :=
  logged (lg s) b (lg s') /\ quiet (bc s') /\ store (bc s') d = store (bc s) d /\ wtrace (bc s') = wtrace (bc s) /\
  (forall b', view d (bc s') b' = if decide (b' = b) then v else view d (bc s) b') /\
  (forall b', pinned d (bc s') b' <-> pinned d (bc s) b' \/ b' = b) /\
  (pinned d (bc s) b -> busy (bc s') = busy (bc s)) /\ (~ pinned d (bc s) b -> busy (bc s') = S (busy (bc s))).

Lemma update_run g c b v : quiet c -> (busy c + 3 <= NBUF)%nat -> 0 <= b < FSSIZE -> 1 <= outstanding g ->
  length (lh_block g) = Z.to_nat LOGSIZE -> 0 <= lh_n g < LOGSIZE ->
  (lh_n g < lsize g - 1 -> exists s', update b v (Lsys g c) = inr (tt, s') /\ updated (Lsys g c) s' b v) /\
  (lsize g - 1 <= lh_n g -> update b v (Lsys g c) = inl (Panic "too big a transaction")).
Proof.
  intros (l & Hbk & Hnh & Hz) Hz3 Hb Hout Hlen Hn.
  destruct (bread_law cg is_loop d Hd Hloop c l b Hbk Hb) as
    (h & x0 & c1 & E1 & Hbk1 & Hsd1 & Hv1 & _ & Hh1 & _ & Hp1 & Hhe1 & Hz1 & Hz1'); [by intros ? ?%Hnh|lia|].
  destruct Hh1 as (x & Hca & Hlk).
  destruct (set_data_law d Hd c1 l h b x v Hbk1 Hca Hlk) as (Hbk2 & Hsd2 & Hca2 & Hv2 & Hp2 & Hhe2 & Hz2).
  set (c2 := upd_buf h (set_bdata v) c1) in *.
  assert (forall r, log_write cg is_loop isloop h (Lsys g c2) = r -> update b v (Lsys g c) =
    match r with inl e => inl e | inr (_, s) => onbc (buf_cache_release h) s end) as Eup.
  { intros r <-. unfold update. step (onbc_run _ g _ _ _ E1). by step (onbc_modS (upd_buf h (set_bdata v)) g c1). }
  split; intros Hsz.
  2:{ apply (Eup (inl _)). unfold log_write. step (getS_run (Lsys g c2)). cbn [lg].
      rewrite (proj2 (Z.leb_le (lsize g - 1) (lh_n g)) Hsz), orb_true_r. done. }
  destruct (log_write_run g c2 l h b (set_bdata v x) Hbk2 Hca2 Hlk) as
    (g3 & c3 & x3 & E3 & Hlog & Hbk3 & Hsd3 & Hca3 & Hlk3 & Hv3 & Hp3 & Hhe3 & Hz3'); try done.
  destruct (release_held c3 l h b Hbk3) as (c4 & l4 & E4 & Hbk4 & (Hsd4 & Hv4 & Hp4) & Hhe4 & Hz4).
  { by exists x3. } { left. apply Hp3. by right. }
  specialize (Hz4 0%nat ltac:(left; split; [apply Hp3; by right|done])).
  pose proof (same_devices_trans _ _ _ (same_devices_trans _ _ _ Hsd1 Hsd2) (same_devices_trans _ _ _ Hsd3 Hsd4)) as (Hst & Htr & _).
  exists (Lsys g3 c4). split; [rewrite (Eup _ E3); exact (onbc_run _ g3 _ _ _ E4)|].
  assert (pinned d c b -> busy c4 = busy c) as B1 by (intros Hp; specialize (Hz1 Hp); lia).
  assert (~ pinned d c b -> busy c4 = S (busy c)) as B2 by (intros Hp; specialize (Hz1' Hp); lia).
  split; [done|]. split; [|split; [cbn; by rewrite Hst|split; [done|split; [|split; [|done]]]]].
  - exists l4. split; [done|]. split.
    + intros k b' Hk. apply Hhe4 in Hk as [Hk Hne]. apply Hhe3, Hhe2, Hhe1 in Hk as [Hk|[? _]]; [by apply Hnh in Hk|done].
    + cbn. destruct (cost_ex c b l Hbk) as [? [[Hp _]|[Hp _]]]; [rewrite B1 by done; lia|rewrite B2 by done; lia].
  - intros b'. cbn. rewrite Hv4, Hv3, Hv2. case_decide; [done|]. apply Hv1.
  - intros b'. cbn. rewrite Hp4, Hp3, Hp2, Hp1. done.
Qed.

(** The specification: the contents a crash brings back, those the operations see, and how many are running. *)
Record spec := Spec { durable : Z -> block; current : Z -> block; active : nat }.
Inductive ev := Begin | Update (i : nat) (b : Z) (v : block) | End_ (i : nat).
Definition spec_step (sp : spec) (e : ev) : spec :=
  match e with
  | Begin => Spec (durable sp) (current sp) (S (active sp))
  | Update _ b v => Spec (durable sp) (dset (current sp) b v) (active sp)
  | End_ _ => Spec (if decide (active sp = 1%nat) then current sp else durable sp) (current sp) (pred (active sp))
  end.

(** The code: any interleaving of operations, each with its own budget of [MAXOPBLOCKS] updates. *)
Inductive tstep : ev -> list nat * lsys -> list nat * lsys -> Prop :=
| t_begin ops s s' : begin_op s = inr (tt, s') -> tstep Begin (ops, s) (ops ++ [0%nat], s')
| t_update ops s s' i w b v : ops !! i = Some w -> (w < Z.to_nat MAXOPBLOCKS)%nat -> 0 <= b < FSSIZE -> ~ in_log (lg s) b ->
    update b v s = inr (tt, s') -> tstep (Update i b v) (ops, s) (<[i := S w]> ops, s')
| t_end ops s s' i w : ops !! i = Some w -> end_op cg is_loop s = inr (tt, s') -> tstep (End_ i) (ops, s) (delete i ops, s').
Inductive texec : list ev -> list nat * lsys -> list nat * lsys -> Prop :=
| texec_nil t : texec [] t t
| texec_snoc evs e t t' t'' : texec evs t t' -> tstep e t' t'' -> texec (evs ++ [e]) t t''.

Definition refines (sp : spec) (ops : list nat) (s : lsys) : Prop :=
  active sp = length ops /\
  (forall b, ~ in_log (lg s) b -> view d (bc s) b = current sp b /\ store (bc s) d b = durable sp b).

Lemma sum_list_insert (l : list nat) i w v : l !! i = Some w -> (sum_list (<[i := v]> l) + w = sum_list l + v)%nat.
Proof. revert i. induction l as [|x l IH]; intros [|i] H; simplify_eq/=; [lia|]. specialize (IH i H). lia. Qed.

Lemma sum_list_delete (l : list nat) i w : l !! i = Some w -> (sum_list (delete i l) + w = sum_list l)%nat.
Proof. revert i. induction l as [|x l IH]; intros [|i] H; simplify_eq/=; [lia|]. specialize (IH i H). lia. Qed.

Lemma length_delete_S {A} (l : list A) i x : l !! i = Some x -> S (length (delete i l)) = length l.
Proof. intros H. rewrite length_delete by done. pose proof (lookup_lt_Some _ _ _ H). lia. Qed.

Lemma sum_list_le (l : list nat) m : Forall (fun w => (w <= m)%nat) l -> (sum_list l <= m * length l)%nat.
Proof. induction 1; simpl; lia. Qed.

Lemma ready_same g g' : start g' = start g -> lsize g' = lsize g -> ldev g' = ldev g -> lh_n g' = lh_n g ->
  lh_block g' = lh_block g -> ready g -> ready g'.
Proof. destruct g, g'. simpl. intros -> -> -> -> -> [[] ? ? ? ?]. by split. Qed.

Lemma tinv_begin ops s s' : tinv ops s -> begin_op s = inr (tt, s') ->
  tinv (ops ++ [0%nat]) s' /\ bc s' = bc s /\ lg s' = set_outstanding (outstanding (lg s) + 1) (lg s).
Proof.
  intros [H1 H2 H3 H4 H5 H6 H7 H8 H9]. destruct s as [g c]. unfold begin_op. rewrite (bind_run _ _ _ _ _ (getS_run _)).
  cbn [lg bc] in *. rewrite H2. destruct (Z.ltb_spec LOGSIZE (lh_n g + (outstanding g + 1) * MAXOPBLOCKS)) as [?|Hr]; [done|].
  intros [= <-]. split; [|done]. split; cbn; try done.
  - by apply (ready_same g).
  - rewrite length_app. cbn. lia.
  - apply Forall_app. split; [done|]. constructor; [lia|constructor].
  - rewrite length_app. cbn [length]. lia.
Qed.

Lemma room_lt ops i w n : Forall (fun w => (w <= Z.to_nat MAXOPBLOCKS)%nat) ops -> ops !! i = Some w ->
  (w < Z.to_nat MAXOPBLOCKS)%nat -> n + MAXOPBLOCKS * Z.of_nat (length ops) - Z.of_nat (sum_list ops) <= LOGSIZE -> n < LOGSIZE.
Proof.
  intros Hf Hi Hw Hr. pose proof (sum_list_delete ops i w Hi) as Hs. pose proof (length_delete_S ops i w Hi) as Hl.
  pose proof (sum_list_le (delete i ops) _ (Forall_delete _ _ i Hf)) as Hle. unfold MAXOPBLOCKS in *. lia.
Qed.

Lemma tinv_update ops s s' i w b v : tinv ops s -> ops !! i = Some w -> (w < Z.to_nat MAXOPBLOCKS)%nat ->
  0 <= b < FSSIZE -> ~ in_log (lg s) b -> lh_n (lg s) < lsize (lg s) - 1 -> updated s s' b v -> tinv (<[i := S w]> ops) s'.
Proof.
  intros [H1 H2 H3 H4 H5 H6 H7 H8 H9] Hi Hw Hb Hnb Hsz (Hlog & Hq & Hst & _ & _ & Hp & B1 & B2).
  pose proof (sum_list_insert ops i w (S w) Hi) as Hsum. pose proof H1 as [Hge Hn Hm Hh Hnd].
  destruct s as [g c], s' as [g' c']. cbn [lg bc] in *. destruct Hlog as (L1 & L2 & L3 & L4 & L5 & L6 & Hcase).
  pose proof (room_lt ops i w (lh_n g) H4 Hi Hw H5) as Hlt.
  assert (Z.of_nat (busy c') = lh_n g' /\ lh_n g' <= lh_n g + 1 /\ 0 <= lh_n g') as (Hz & Hn' & Hn0).
  { destruct Hcase as [(Hin & -> & _)|(Hin & -> & _)].
    - rewrite B1 by (by apply H8). lia.
    - rewrite B2 by (by rewrite H8). lia. }
  split; cbn [lg bc]; rewrite ?length_insert; try done.
  - split.
    + destruct Hge. split; congruence.
    + lia.
    + lia.
    + assert (forall h, in_log g' h <-> in_log g h) as Hil by (intros h; unfold in_log; by rewrite L1, L2).
      destruct Hcase as [(_ & _ & ->)|(_ & _ & ->)]; [|apply Forall_app; split; [|constructor; [by rewrite Hil|constructor]]];
        apply (Forall_impl _ _ _ Hh); intros h; by rewrite Hil.
    + destruct Hcase as [(_ & _ & ->)|(Hin & _ & ->)]; [done|]. apply NoDup_app. split; [done|]. split; [set_solver|apply NoDup_singleton].
  - congruence.
  - congruence.
  - apply Forall_insert; [done|lia].
  - lia.
  - intros b'. rewrite Hp, H8. destruct Hcase as [(Hin & _ & ->)|(Hin & _ & ->)]; set_solver.
  - rewrite Hst. unfold recovered, hdr_n in *. rewrite L1. destruct H9 as (? & ? & _). done.
Qed.

Lemma tinv_bounds ops s : tinv ops s -> 0 <= lh_n (lg s) <= LOGSIZE /\ (busy (bc s) + 3 <= NBUF)%nat.
Proof. intros [[_ Hn Hm _ _] _ _ _ _ _ Hz _ _]. unfold LOGSIZE, MAXOPBLOCKS, NBUF in *. lia. Qed.

Lemma unpinned_view c b : quiet c -> ~ pinned d c b -> view d c b = store c d b.
Proof. intros Hq Hp. by destruct (quiet_stable c b Hq). Qed.

Lemma set_n_id g : lh_n g = 0 -> set_n 0 g = g.
Proof. destruct g. simpl. by intros ->. Qed.

(** The commit of the last operation, with the log busy and then idle again. *)
Lemma commit_idle g c : ready g -> quiet c -> (busy c + 3 <= NBUF)%nat -> Z.of_nat (busy c) = lh_n g ->
  (forall b, pinned d c b <-> b ∈ homes g) -> recovered g (store c d) (store c d) ->
  exists c', commit cg is_loop (Lsys g c) = inr (tt, Lsys (set_n 0 g) c') /\ quiet c' /\ busy c' = 0%nat /\
    (forall b, ~ pinned d c' b) /\ (forall b, ~ in_log g b -> view d c b = store c' d b) /\
    recovered g (store c' d) (store c' d).
Proof.
  intros Hg Hq Hz3 Hz Hp Hrec. pose proof Hg as [_ Hn _ _ _]. destruct (decide (lh_n g = 0)) as [E0|Hne].
  - exists c. split; [|split; [done|split; [lia|]]].
    + unfold commit. rewrite (bind_run _ _ _ _ _ (getS_run _)). cbn [lg]. rewrite set_n_id by done. by rewrite E0.
    + assert (homes g = []) as Eh by (unfold homes; by rewrite E0).
      assert (forall b, ~ pinned d c b) as Hnp by (intros b; rewrite Hp, Eh; apply not_elem_of_nil).
      split; [done|]. split; [|done]. intros b _. by apply unpinned_view.
  - destruct (commit_run g c Hg) as (c' & tr & k & E & Hq' & Hb & Hnp & _ & _ & Hrec' & _); [lia|done|done|done|].
    exists c'. split; [done|]. split; [done|]. rewrite (length_homes g Hg) in Hb. split; [lia|]. split; [done|].
    destruct Hrec' as (R1 & R2 & R3). by split.
Qed.

Lemma end_op_run ops s i w : tinv ops s -> ops !! i = Some w ->
  exists s', end_op cg is_loop s = inr (tt, s') /\ tinv (delete i ops) s' /\
    start (lg s') = start (lg s) /\ lsize (lg s') = lsize (lg s) /\
    (forall b, ~ in_log (lg s) b -> view d (bc s') b = view d (bc s) b /\
       store (bc s') d b = if decide (length ops = 1%nat) then view d (bc s) b else store (bc s) d b).
Proof.
  intros Ht Hi. pose proof (tinv_bounds ops s Ht) as [Hnb Hbz]. destruct Ht as [H1 H2 H3 H4 H5 H6 H7 H8 H9].
  destruct s as [g c]. cbn [lg bc] in *. pose proof (length_delete_S ops i w Hi) as Hl.
  pose proof (sum_list_delete ops i w Hi) as Hs. set (g1 := set_outstanding (outstanding g - 1) g).
  assert (Forall (fun w => (w <= Z.to_nat MAXOPBLOCKS)%nat) (delete i ops)) as F by (by apply Forall_delete).
  assert ((w <= Z.to_nat MAXOPBLOCKS)%nat) as Hw by (by apply (proj1 (Forall_lookup _ _) H4 i)).
  unfold end_op. rewrite (bind_run _ _ _ _ _ (modlog_run _ g c)). fold g1. rewrite (bind_run _ _ _ _ _ (getS_run _)).
  change (committing (lg (Lsys g1 c))) with (committing g). rewrite H2. cbn [lg]. change (outstanding g1) with (outstanding g - 1).
  destruct (Z.eqb_spec (outstanding g - 1) 0) as [E0|E0].
  - rewrite (bind_run _ _ _ _ _ (modlog_run _ g1 c)). set (g2 := set_committing true g1).
    destruct (commit_idle g2 c) as (c' & E & Hq' & Hz' & Hnp & Hv & Hrec'); try done; [by apply (ready_same g)|].
    rewrite (bind_run _ _ _ _ _ E). eexists. split; [reflexivity|]. split; [|split; [done|split; [done|]]].
    + assert (delete i ops = []) as -> by (apply nil_length_inv; lia). split; cbn; try done; try lia.
      * destruct H1 as [[] ? ? ? ?]. split; cbn; try done; try lia; try constructor; done.
      * intros b. split; [intros H; by apply Hnp in H|intros H; by apply not_elem_of_nil in H].
    + intros b Hb. cbn [bc]. rewrite unpinned_view, decide_True by (done || lia). by rewrite <- Hv by done.
  - eexists. split; [reflexivity|]. split; [|split; [done|split; [done|intros b _; by rewrite decide_False by lia]]].
    split; cbn; try done; try lia. by apply (ready_same g).
Qed.

Lemma tstep_refines e ops s ops' s' sp : tinv ops s -> refines sp ops s -> tstep e (ops, s) (ops', s') ->
  tinv ops' s' /\ refines (spec_step sp e) ops' s' /\ start (lg s') = start (lg s) /\ lsize (lg s') = lsize (lg s).
Proof.
  intros Ht [Ha Hr] Hst. inversion Hst as [? ? ? E|? ? ? i w b v Hi Hw Hb Hnb E|? ? ? i w Hi E]; subst.
  - destruct (tinv_begin ops s s' Ht E) as (Ht' & Eb & Eg). split; [done|]. rewrite Eg. split; [|done].
    split; [rewrite length_app; cbn; lia|]. rewrite Eb, Eg. exact Hr.
  - destruct (tinv_bounds ops s Ht) as [Hnn Hbz]. pose proof (t_ready _ _ Ht) as [Hge Hn Hm _ _]. destruct s as [g c].
    cbn [lg bc] in *. pose proof (lookup_lt_Some _ _ _ Hi) as Hlt.
    assert (1 <= outstanding g) as Hout by (pose proof (t_out _ _ Ht) as Ho; cbn in Ho; lia).
    pose proof (room_lt ops i w (lh_n g) (t_budget _ _ Ht) Hi Hw (t_room _ _ Ht)) as HnL.
    destruct (update_run g c b v) as [Hgood Hbad]; try done; [apply (t_quiet _ _ Ht)|apply Hge|lia|].
    destruct (decide (lh_n g < lsize g - 1)) as [Hsz|Hsz]; [|by rewrite Hbad in E by lia].
    destruct (Hgood Hsz) as (s'' & E' & Hup). assert (s'' = s') as -> by congruence.
    split; [by apply (tinv_update ops (Lsys g c) s' i w b v)|].
    destruct Hup as ((L1 & L2 & _) & _ & Hstore & _ & Hv & _). cbn [lg bc] in *. split; [|done].
    split; [by rewrite length_insert|]. intros b' Hb'. rewrite Hv, Hstore.
    destruct (Hr b') as [R1 R2]; [unfold in_log in *; by rewrite L1, L2 in Hb'|]. cbn. unfold dset. split; [|done]. by case_decide.
  - destruct (end_op_run ops s i w Ht Hi) as (s'' & E' & Ht' & Es & El & Hv). assert (s'' = s') as -> by congruence.
    split; [done|]. split; [|done]. pose proof (length_delete_S ops i w Hi) as Hl.
    split; [cbn; lia|]. intros b Hb. destruct (Hr b) as [R1 R2]; [unfold in_log in *; by rewrite Es, El in Hb|].
    destruct (Hv b) as [V1 V2]; [unfold in_log in *; by rewrite Es, El in Hb|]. rewrite V1, V2. cbn. rewrite Ha. split; [done|]. by case_decide.
Qed.

Lemma texec_app e1 e2 t1 t2 t3 : texec e1 t1 t2 -> texec e2 t2 t3 -> texec (e1 ++ e2) t1 t3.
Proof.
  intros H1 H2. induction H2 as [|evs e t t' t'' _ IH Hs]; [by rewrite app_nil_r|].
  rewrite app_assoc. eapply texec_snoc; [by apply IH|done].
Qed.

Lemma texec_refines evs ops s ops' s' sp : tinv ops s -> refines sp ops s -> texec evs (ops, s) (ops', s') ->
  tinv ops' s' /\ refines (foldl spec_step sp evs) ops' s' /\ start (lg s') = start (lg s) /\ lsize (lg s') = lsize (lg s).
Proof.
  intros Ht Hr Hex. remember (ops, s) as t eqn:E0. remember (ops', s') as t' eqn:E1. revert ops' s' E1.
  induction Hex as [t|evs e t [ops1 s1] t'' _ IH Hst]; intros ops' s' E1; subst.
  - injection E1 as -> ->. done.
  - destruct (IH eq_refl ops1 s1 eq_refl) as (Ht1 & Hr1 & E2 & E3). rewrite foldl_app.
    destruct (tstep_refines e ops1 s1 ops' s' _ Ht1 Hr1 Hst) as (? & ? & E4 & E5). split_and!; try done; congruence.
Qed.
End transactions.

(** The disk after a crash and any number of recoveries that were themselves cut short by a crash. *)
Inductive reboots (logstart nlog : Z) : (Z -> block) -> (Z -> block) -> Prop :=
| reboots_none D : reboots logstart nlog D D
| reboots_crash D D' c g s' tr j : booted c D -> length (lh_block g) = Z.to_nat LOGSIZE ->
    initlog cg is_loop logstart nlog d (Lsys g c) = inr (tt, s') ->
    wtrace (bc s') = wtrace c ++ ((fun p => (d, p.1, p.2)) <$> tr) ->
    reboots logstart nlog (replay D (take j tr)) D' -> reboots logstart nlog D D'.

(** [initlog] on a booted machine returns and leaves the contents [V]; so does every crash on the way. *)
Lemma initlog_run g0 g c D V : geom g -> length (lh_block g0) = Z.to_nat LOGSIZE -> booted c D -> recovers g D V ->
  exists g' c' tr, initlog cg is_loop (start g) (lsize g) d (Lsys g0 c) = inr (tt, Lsys g' c') /\
    start g' = start g /\ lsize g' = lsize g /\ lh_n g' = 0 /\ outstanding g' = outstanding g0 /\ committing g' = committing g0 /\
    geom g' /\ quiet c' /\ (forall b, ~ pinned d c' b) /\ wtrace c' = wtrace c ++ ((fun p => (d, p.1, p.2)) <$> tr) /\
    always D tr (fun D' => recovers g D' V) /\ recovered g (store c' d) V.
Proof.
  intros [Hdev Hs Hl He _] Hlen Hb Hr. unfold initlog.
  rewrite (bind_run _ _ _ _ _ (modlog_run _ g0 c)).
  set (g1 := LogS (start g) (lsize g) (outstanding g0) (committing g0) d (lh_n g0) (lh_block g0)).
  destruct (recover_run g1 c D V) as (g' & c' & tr & H); [by split|done|by apply (recovers_layout g)|].
  exists g', c', tr. destruct H as (E & E1 & E2 & E3 & E4 & E5 & E6 & E7 & E8 & E9 & Ha & Hrec). split_and!; try done.
  intros j. by apply (recovers_layout g1).
Qed.

Lemma reboots_recovers g D D' V : geom g -> reboots (start g) (lsize g) D D' -> recovers g D V -> recovers g D' V.
Proof.
  intros Hg Hrb. remember (start g) as a eqn:Ea. remember (lsize g) as n eqn:En.
  induction Hrb as [D|D D' c g0 s' tr j Hb Hlen E Ht _ IH]; intros Hr; [done|]. apply IH. subst.
  destruct (initlog_run g0 g c D V Hg Hlen Hb Hr) as (g' & c' & tr' & E' & _ & _ & _ & _ & _ & _ & _ & _ & Ht' & Ha & _).
  assert (s' = Lsys g' c') as -> by congruence. cbn [bc] in Ht. rewrite Ht' in Ht. apply app_inv_head in Ht.
  assert (tr = tr') as ->; [|apply Ha]. symmetry. revert Ht. apply list_fmap_eq_inj. intros [] []; simpl; congruence.
Qed.

(** C1: A commit is atomic under crashes.  [commit] returns, and leaves every block outside the log area with the contents
    the transaction gave it.  If the machine stops after any number [j] of the block writes of that commit, is rebooted,
    and even if recoveries are themselves cut short any number of times, then the recovery that completes returns and the
    disk has, outside the log area, either all of the old contents ([j] below the commit point [k]) or all of the new. *)
Theorem commit_crash_atomic g c :
  ready g -> 0 < lh_n g -> quiet c -> (forall b, pinned d c b <-> b ∈ homes g) -> recovered g (store c d) (store c d) ->
  exists c' tr k, commit cg is_loop (Lsys g c) = inr (tt, Lsys (set_n 0 g) c') /\
    wtrace c' = wtrace c ++ ((fun p => (d, p.1, p.2)) <$> tr) /\
    (forall b, ~ in_log g b -> store c' d b = view d c b) /\
    (forall j D c2 g2, reboots (start g) (lsize g) (replay (store c d) (take j tr)) D -> booted c2 D ->
      length (lh_block g2) = Z.to_nat LOGSIZE ->
      exists s', initlog cg is_loop (start g) (lsize g) d (Lsys g2 c2) = inr (tt, s') /\
        forall b, ~ in_log g b -> store (bc s') d b = if decide (j < k)%nat then store c d b else view d c b).
Proof.
  intros Hg Hn Hq Hp Hrec.
  destruct (commit_run g c Hg Hn Hq Hp Hrec) as (c' & tr & k & E & _ & _ & _ & Ht & _ & (_ & _ & Hfin) & Hall).
  exists c', tr, k. split; [done|]. split; [done|]. split; [intros b Hb; by rewrite Hfin|].
  intros j D c2 g2 Hrb Hb Hlen. pose proof (reboots_recovers g _ D _ (r_geom _ Hg) Hrb (Hall j)) as Hr.
  destruct (initlog_run g2 g c2 D _ (r_geom _ Hg) Hlen Hb Hr) as (g' & c3 & _ & E' & _ & _ & _ & _ & _ & _ & _ & _ & _ & _ & _ & _ & Hv).
  exists (Lsys g' c3). split; [done|]. intros b Hnb. cbn [bc]. rewrite <- Hv by done. by case_decide.
Qed.

(** C2: The log refines atomic durable transactions.  Operations of any number of processes interleave begin_op, updates
    of blocks through log_write, and end_op.  At every point every block reads as the updates so far left it; after a crash
    there, recovery (cut short any number of times before it completes) brings back exactly the contents of the last moment
    at which no operation was running: all updates of the operations before it and none of those after it. *)
Theorem log_refines_transactions isloop evs s0 ops s sp0 :
  isloop d = false -> tinv [] s0 -> refines sp0 [] s0 -> texec isloop evs ([], s0) (ops, s) ->
  let sp := foldl spec_step sp0 evs in
  (forall b, ~ in_log (lg s0) b -> view d (bc s) b = current sp b) /\
  (forall D c2 g2, reboots (start (lg s0)) (lsize (lg s0)) (store (bc s) d) D -> booted c2 D ->
    length (lh_block g2) = Z.to_nat LOGSIZE ->
    exists s', initlog cg is_loop (start (lg s0)) (lsize (lg s0)) d (Lsys g2 c2) = inr (tt, s') /\
      forall b, ~ in_log (lg s0) b -> store (bc s') d b = durable sp b).
Proof.
  intros Hnl Ht Hr Hex sp. destruct (texec_refines isloop Hnl evs [] s0 ops s sp0 Ht Hr Hex) as (Ht' & [_ Hr'] & Es & El).
  fold sp in Hr'. rewrite <- Es, <- El. pose proof (r_geom _ (t_ready _ _ Ht')) as Hg.
  assert (forall b, in_log (lg s0) b <-> in_log (lg s) b) as Hil by (intros b; unfold in_log; by rewrite Es, El).
  split; [intros b Hb; apply Hr'; by rewrite <- Hil|]. intros D c2 g2 Hrb Hb Hlen.
  pose proof (reboots_recovers (lg s) _ D _ Hg Hrb (recovered_recovers _ _ _ (g_size _ Hg) (t_disk _ _ Ht'))) as Hrec.
  destruct (initlog_run g2 (lg s) c2 D _ Hg Hlen Hb Hrec) as (g' & c3 & _ & E' & _ & _ & _ & _ & _ & _ & _ & _ & _ & _ & _ & _ & Hv).
  exists (Lsys g' c3). split; [done|]. intros b Hnb. rewrite Hil in Hnb. cbn [bc]. rewrite <- Hv by done. by apply Hr'.
Qed.

(** C6: An operation within its budget never stops the machine, when the log area is larger than [LOGSIZE].  In every
    state of the running log: an operation that has logged fewer than [MAXOPBLOCKS] blocks can log another one; the end of
    an operation returns; and [begin_op] returns exactly when the space left is enough for one more operation, and sleeps
    otherwise. *)
Theorem log_reservation_safe isloop ops s i w b v :
  isloop d = false -> tinv ops s -> LOGSIZE < lsize (lg s) -> ops !! i = Some w -> 0 <= b < FSSIZE ->
  ((w < Z.to_nat MAXOPBLOCKS)%nat -> exists s', update isloop b v s = inr (tt, s')) /\
  (exists s', end_op cg is_loop s = inr (tt, s')) /\
  (begin_op s = if LOGSIZE <? lh_n (lg s) + MAXOPBLOCKS * (Z.of_nat (length ops) + 1) then inl Sleep
     else inr (tt, Lsys (set_outstanding (Z.of_nat (length ops) + 1) (lg s)) (bc s))).
Proof.
  intros Hnl Ht Hsz Hi Hb. pose proof (tinv_bounds ops s Ht) as [Hn Hz]. pose proof (lookup_lt_Some _ _ _ Hi) as Hlt.
  split; [|split].
  - intros Hw. pose proof (room_lt ops i w _ (t_budget _ _ Ht) Hi Hw (t_room _ _ Ht)) as HnL.
    pose proof (t_out _ _ Ht) as Ho. destruct s as [g c]. cbn [lg bc] in *.
    destruct (update_run isloop Hnl g c b v) as [H _]; try done; try lia; [apply (t_quiet _ _ Ht)|apply (t_ready _ _ Ht)|].
    destruct H as (s' & E & _); [lia|]. by exists s'.
  - destruct (end_op_run ops s i w Ht Hi) as (s' & E & _). by exists s'.
  - destruct s as [g c]. unfold begin_op. rewrite (bind_run _ _ _ _ _ (getS_run _)). cbn [lg bc] in *.
    pose proof (t_idle _ _ Ht) as Hid. pose proof (t_out _ _ Ht) as Ho. cbn [lg] in Hid, Ho. rewrite Hid, Ho.
    replace ((Z.of_nat (length ops) + 1) * MAXOPBLOCKS) with (MAXOPBLOCKS * (Z.of_nat (length ops) + 1)) by lia.
    case_match; [done|]. unfold modlog. mrun. cbn. by rewrite Ho.
Qed.

Lemma budget_left ops : (sum_list ops < Z.to_nat MAXOPBLOCKS * length ops)%nat ->
  exists i w, ops !! i = Some w /\ (w < Z.to_nat MAXOPBLOCKS)%nat.
Proof.
  change (Z.to_nat MAXOPBLOCKS) with 10%nat.
  induction ops as [|w ops IH]; cbn; intros H; [lia|]. destruct (decide (w < 10)%nat) as [Hw|Hw].
  - by exists 0%nat, w.
  - destruct IH as (i & w' & Hi & Hw'); [lia|]. by exists (S i), w'.
Qed.

(** Updates of [k] fresh blocks from [base] on, by operations that still have budget. *)
Lemma fill isloop ops s base (k : nat) :
  isloop d = false -> tinv ops s -> (sum_list ops + k <= Z.to_nat MAXOPBLOCKS * length ops)%nat ->
  start (lg s) + lsize (lg s) <= base -> base + Z.of_nat k <= FSSIZE -> homes (lg s) = [] -> lh_n (lg s) = 0 ->
  Z.of_nat k < lsize (lg s) ->
  exists evs ops' s', texec isloop evs (ops, s) (ops', s') /\ tinv ops' s' /\ lh_n (lg s') = Z.of_nat k /\
    length ops' = length ops /\ (sum_list ops' = sum_list ops + k)%nat /\ start (lg s') = start (lg s) /\
    lsize (lg s') = lsize (lg s) /\ (forall b, b ∈ homes (lg s') -> b < base + Z.of_nat k).
Proof.
  intros Hnl Ht. induction k as [|k IH]; intros Hk Hs He Hh Hn Hsz.
  - exists [], ops, s. split; [constructor|]. split_and!; try done; try lia. rewrite Hh. set_solver.
  - destruct IH as (evs & ops1 & s1 & Hex & Ht1 & Hn1 & Hl1 & Hs1 & E1 & E2 & Hh1); try done; try lia.
    destruct (budget_left ops1) as (i & w & Hi & Hw); [lia|].
    pose proof (room_lt ops1 i w _ (t_budget _ _ Ht1) Hi Hw (t_room _ _ Ht1)) as HnL.
    pose proof (lookup_lt_Some _ _ _ Hi) as Hlt. pose proof (t_out _ _ Ht1) as Ho.
    destruct (tinv_bounds ops1 s1 Ht1) as [_ Hz]. pose proof (g_start _ (r_geom _ (t_ready _ _ Ht1))) as Hst.
    set (b := base + Z.of_nat k). assert (~ in_log (lg s1) b) as Hnb by (unfold in_log, b; lia).
    assert (b ∉ homes (lg s1)) as Hnh by (intros Hb%Hh1; lia).
    destruct s1 as [g c]. cbn [lg bc] in *.
    destruct (update_run isloop Hnl g c b []) as [H _]; try done; try lia; [apply (t_quiet _ _ Ht1)|apply (t_ready _ _ Ht1)|].
    destruct H as (s2 & E & Hup); [lia|].
    assert (tstep isloop (Update i b []) (ops1, Lsys g c) (<[i := S w]> ops1, s2)) as Hstep
      by (apply t_update; [done|done|lia|done|done]).
    exists (evs ++ [Update i b []]), (<[i := S w]> ops1), s2. split; [by eapply texec_snoc|].
    split; [apply (tinv_update isloop Hnl ops1 (Lsys g c) s2 i w b []); try done; cbn; lia|].
    destruct Hup as ((L1 & L2 & _ & _ & _ & _ & Hc) & _). cbn [lg] in *. destruct Hc as [(? & _)|(_ & Hn2 & Hh2)]; [done|].
    pose proof (sum_list_insert ops1 i w (S w) Hi) as Hsum. rewrite length_insert, Hn2, Hn1, L1, L2.
    split_and!; try done; try lia. rewrite Hh2. intros b' [Hb'|Hb']%elem_of_app; [apply Hh1 in Hb'; lia|].
    apply list_elem_of_singleton in Hb'. unfold b in Hb'. lia.
Qed.

Lemma begin_room isloop ops s : tinv ops s -> lh_n (lg s) + MAXOPBLOCKS * (Z.of_nat (length ops) + 1) <= LOGSIZE ->
  exists s', tstep isloop Begin (ops, s) (ops ++ [0%nat], s') /\ tinv (ops ++ [0%nat]) s' /\
    lh_n (lg s') = lh_n (lg s) /\ start (lg s') = start (lg s) /\ lsize (lg s') = lsize (lg s) /\ homes (lg s') = homes (lg s).
Proof.
  intros Ht Hr. assert (exists s', begin_op s = inr (tt, s')) as [s' E].
  { destruct s as [g c]. unfold begin_op. rewrite (bind_run _ _ _ _ _ (getS_run _)).
    pose proof (t_idle _ _ Ht) as Hid. pose proof (t_out _ _ Ht) as Ho. cbn [lg] in *. rewrite Hid, Ho.
    destruct (Z.ltb_spec LOGSIZE (lh_n g + (Z.of_nat (length ops) + 1) * MAXOPBLOCKS)); [lia|]. by eexists. }
  exists s'. split; [by constructor|]. destruct (tinv_begin ops s s' Ht E) as (Ht' & _ & ->). done.
Qed.

(** C7: With the log area mkfs makes, of exactly [LOGSIZE] blocks, the reservation of begin_op is one block too generous:
    from an idle log three operations are admitted, and after 29 updates one of them, still within its budget of
    [MAXOPBLOCKS], stops the machine in log_write. *)
Theorem log_reservation_overflow isloop s0 :
  isloop d = false -> tinv [] s0 -> lh_n (lg s0) = 0 -> lsize (lg s0) = LOGSIZE -> start (lg s0) + 2 * LOGSIZE <= FSSIZE ->
  exists evs ops s i w b v, texec isloop evs ([], s0) (ops, s) /\ ops !! i = Some w /\ (w < Z.to_nat MAXOPBLOCKS)%nat /\
    0 <= b < FSSIZE /\ ~ in_log (lg s) b /\ update isloop b v s = inl (Panic "too big a transaction").
Proof.
  intros Hnl Ht Hn Hsz Hst. assert (homes (lg s0) = []) as Hh by (unfold homes; by rewrite Hn).
  destruct (begin_room isloop [] s0 Ht) as (s1 & B1 & T1 & N1 & S1 & L1 & H1); [rewrite Hn; done|].
  destruct (begin_room isloop _ s1 T1) as (s2 & B2 & T2 & N2 & S2 & L2 & H2); [rewrite N1, Hn; done|].
  destruct (begin_room isloop _ s2 T2) as (s3 & B3 & T3 & N3 & S3 & L3 & H3); [rewrite N2, N1, Hn; done|].
  pose proof (texec_snoc _ _ _ _ _ _ (texec_snoc _ _ _ _ _ _ (texec_snoc _ _ _ _ _ _ (texec_nil _ _) B1) B2) B3) as X3.
  assert (0 <= start (lg s3)) as Hs0 by apply (r_geom _ (t_ready _ _ T3)).
  destruct (fill isloop _ s3 (start (lg s3) + LOGSIZE) 29 Hnl T3) as (evs & ops & s & Hex & T & N & Hlen & Hsum & S & L & _);
    try (cbn; unfold LOGSIZE, MAXOPBLOCKS, FSSIZE in *; lia); [congruence|].
  destruct (budget_left ops) as (i & w & Hi & Hw); [rewrite Hsum, Hlen; vm_compute; lia|].
  assert (texec isloop ([Begin; Begin; Begin] ++ evs) ([], s0) (ops, s)) as X by (by eapply texec_app).
  pose proof (lookup_lt_Some _ _ _ Hi) as Hlt. destruct (tinv_bounds ops s T) as [_ Hz]. pose proof (t_out _ _ T) as Ho.
  exists ([Begin; Begin; Begin] ++ evs), ops, s, i, w, (start (lg s) + LOGSIZE), []. split; [done|]. split; [done|]. split; [done|].
  split; [unfold LOGSIZE, MAXOPBLOCKS in *; lia|]. split; [unfold in_log; lia|]. destruct s as [g c]. cbn [lg bc] in *.
  destruct (update_run isloop Hnl g c (start g + LOGSIZE) []) as [_ H]; try done; try (unfold LOGSIZE, MAXOPBLOCKS in *; lia);
    [apply (t_quiet _ _ T)|apply (t_ready _ _ T)|]. apply H. unfold LOGSIZE, MAXOPBLOCKS in *. lia.
Qed.
End log_proofs.

(** ** A machine just booted: an empty log of [n] blocks from block 2 of device 1, whose disk is zeroed. *)

Definition boot_log (n : Z) : log := LogS 2 n 0 false 1 0 (replicate (Z.to_nat LOGSIZE) 0).
Definition boot_sys (n : Z) : lsys := Lsys (boot_log n) (buf_cache_init boot_cache).
Definition no_loop : Z -> bool := fun _ => false.

Lemma boot_store : store (buf_cache_init boot_cache) = fun _ _ => replicate 1024%nat 0.
Proof. vm_compute. reflexivity. Qed.

Lemma boot_quiet : quiet 1 (buf_cache_init boot_cache).
Proof.
  exists (reverse (seq 0 NBUF)). split; [exact boot_blk_ok|]. split; [exact boot_not_held|]. rewrite boot_busy. unfold NBUF. lia.
Qed.

Lemma clean_unpinned d c b : (forall i x, bufs c !! i = Some x -> flags x = 0) -> ~ pinned d c b.
Proof. intros H (i & x & (Hx & _ & _ & Hf) & _). rewrite (H i x Hx) in Hf. done. Qed.

Lemma boot_unpinned b : ~ pinned 1 (buf_cache_init boot_cache) b.
Proof. apply clean_unpinned. intros i x Hx. exact (proj1 (boot_clean i x Hx)). Qed.

Lemma boot_tinv n : 1 < n <= 2000 -> tinv 1 [] (boot_sys n).
Proof.
  intros Hn. split; cbn [boot_sys lg bc].
  - split; [split; cbn; unfold FSSIZE; try done; lia|cbn; lia|done|constructor|constructor].
  - done.
  - done.
  - constructor.
  - done.
  - exact boot_quiet.
  - by rewrite boot_busy.
  - intros b. split; [intros H; by apply boot_unpinned in H|intros H; by apply not_elem_of_nil in H].
  - rewrite boot_store. split; [done|]. split; [vm_compute; reflexivity|done].
Qed.

Definition boot_spec : spec := Spec (fun _ => replicate 1024%nat 0) (fun _ => replicate 1024%nat 0) 0.

Lemma boot_refines n : refines 1 boot_spec [] (boot_sys n).
Proof.
  split; [done|]. intros b _. cbn [boot_sys lg bc boot_spec current durable].
  rewrite (unpinned_view 1 ltac:(done)), boot_store by (exact boot_quiet || apply boot_unpinned). done.
Qed.

(** One operation with one update, block 50 set to [v]. *)
Lemma boot_one v : exists s, texec 7 no_loop 1 no_loop [Begin; Update 0 50 v] ([], boot_sys 40) ([1%nat], s) /\
  tinv 1 [1%nat] s /\ lh_n (lg s) = 1.
Proof.
  assert (tinv 1 [] (boot_sys 40)) as Ht by (apply boot_tinv; lia).
  destruct (begin_room 7 no_loop 1 no_loop [] _ Ht) as (s1 & B & T & N & S & L & H); [done|].
  pose proof (t_out _ _ _ T) as Ho. destruct (tinv_bounds 1 [0%nat] s1 T) as [_ Hz]. destruct s1 as [g c]. cbn [lg bc app length] in *.
  destruct (update_run 7 no_loop 1 ltac:(done) eq_refl no_loop eq_refl g c 50 v) as [Hg _];
    try done; try (rewrite ?N, ?Ho; done); [apply (t_quiet _ _ _ T)|apply (t_ready _ _ _ T)|].
  destruct Hg as (s' & E & Hup); [rewrite N, L; done|]. exists s'.
  assert (~ in_log g 50) as Hnl by (unfold in_log; rewrite S, L; cbn; lia).
  split; [|split].
  - apply (texec_snoc _ _ _ _ [Begin] _ _ ([0%nat], Lsys g c)); [exact (texec_snoc _ _ _ _ [] _ _ _ _ (texec_nil _ _ _ _ _) B)|].
    apply (t_update 7 no_loop 1 no_loop [0%nat] (Lsys g c) s' 0 0 50 v); [done|vm_compute; lia|done|done|done].
  - apply (tinv_update no_loop 1 ltac:(done) eq_refl no_loop eq_refl [0%nat] (Lsys g c) s' 0 0 50 v); try done; [vm_compute; lia|]. cbn. rewrite N, L. done.
  - destruct Hup as ((_ & _ & _ & _ & _ & _ & Hc) & _). cbn [lg] in Hc. rewrite N in Hc.
    destruct Hc as [(Hin & _)|(_ & -> & _)]; [|done]. rewrite H in Hin. by apply not_elem_of_nil in Hin.
Qed.

Lemma commit_crash_atomic_witness : exists g c c',
  lh_n g = 1 /\ commit 7 no_loop (Lsys g c) = inr (tt, Lsys (set_n 0 g) c') /\
  (forall b, ~ in_log g b -> store c' 1 b = view 1 c b).
Proof.
  destruct (boot_one [5]) as ([g c] & _ & T & N). cbn in N.
  destruct (commit_crash_atomic 7 no_loop 1 ltac:(done) eq_refl g c (t_ready _ _ _ T)) as (c' & tr & k & E & _ & Hv & _).
  - rewrite N. lia.
  - exact (t_quiet _ _ _ T).
  - exact (t_pinned _ _ _ T).
  - exact (t_disk _ _ _ T).
  - by exists g, c, c'.
Defined.

Lemma log_refines_transactions_witness : exists s,
  texec 7 no_loop 1 no_loop [Begin; Update 0 50 [5]] ([], boot_sys 40) ([1%nat], s) /\ view 1 (bc s) 50 = [5].
Proof.
  destruct (boot_one [5]) as (s & Hex & _). exists s. split; [exact Hex|].
  destruct (log_refines_transactions 7 no_loop 1 ltac:(done) eq_refl no_loop _ _ _ _ boot_spec eq_refl
    (boot_tinv 40 ltac:(lia)) (boot_refines 40) Hex) as [H _].
  rewrite H; [reflexivity|]. unfold in_log. cbn. lia.
Defined.

Lemma log_reservation_safe_witness : exists s s',
  tinv 1 [1%nat] s /\ update 7 no_loop 1 no_loop 51 [6] s = inr (tt, s').
Proof.
  destruct (boot_one [5]) as (s & Hex & T & N). exists s.
  destruct (texec_refines 7 no_loop 1 ltac:(done) eq_refl no_loop eq_refl _ _ _ _ _ boot_spec
    (boot_tinv 40 ltac:(lia)) (boot_refines 40) Hex) as (_ & _ & _ & L).
  destruct (log_reservation_safe 7 no_loop 1 ltac:(done) eq_refl no_loop [1%nat] s 0 1 51 [6] eq_refl T) as [H _].
  - rewrite L. done.
  - done.
  - done.
  - destruct H as [s' E]; [vm_compute; lia|]. by exists s'.
Defined.

Lemma log_reservation_overflow_witness : exists evs ops s i w b v,
  texec 7 no_loop 1 no_loop evs ([], boot_sys 30) (ops, s) /\ ops !! i = Some w /\ (w < Z.to_nat MAXOPBLOCKS)%nat /\
  0 <= b < FSSIZE /\ ~ in_log (lg s) b /\ update 7 no_loop 1 no_loop b v s = inl (Panic "too big a transaction").
Proof.
  apply (log_reservation_overflow 7 no_loop 1 ltac:(done) eq_refl no_loop (boot_sys 30) eq_refl (boot_tinv 30 ltac:(lia)));
    [reflexivity|reflexivity|vm_compute; discriminate].
Defined.
