(* ===== verification/Cpath.v ===== *)
(** * Paths of the cgroup file system: format_path (kernel/cgroup.c), get_base_name and get_dir_name (kernel/fs/cgfs.c)

    A C string is the list of its characters before the NUL.  The output buffer
    is written from left to right and cut back at "..", so it is kept reversed:
    its head is the character before [bufp].  Every caller gives a buffer of
    [MAX_PATH_LENGTH] bytes; [None] is an access outside of it. *)

From S2P Require Import Prelude.

Definition MAX_PATH_LENGTH : Z := 512.
Definition slash : Z := 47.
Definition dot : Z := 46.

(** *bufp++ = c; *)
Definition putc (c : Z) (out : list Z) : option (list Z) :=
  if Z.of_nat (length out) <? MAX_PATH_LENGTH then Some (c :: out) else None.

Fixpoint puts (cs : list Z) (out : list Z) : option (list Z) :=
  match cs with [] => Some out | c :: cs => out ← putc c out; puts cs out end.

(** The '/'s at the end of the path do not count; its first character always does. *)
Fixpoint trim (rp : list Z) : list Z :=
  match rp with c :: ((_ :: _) as rp') => if c =? slash then trim rp' else rp | _ => rp end.
Definition path_end (path : list Z) : list Z := rev (trim (rev path)).

(** bufp -= 2; while (bufp >= buf && *bufp != '/') bufp--; nothing when that leaves the buffer. *)
Fixpoint back (out : list Z) : option (list Z) :=
  match out with [] => None | c :: out' => if c =? slash then Some out else back out' end.

Definition at_end (p : list Z) : bool := match p with [] => true | c :: _ => c =? slash end.

Inductive copied := Copied (out : list Z) | Above | Overflow.

(** The copying loop: [Above] is its early return, with an empty result. *)
Fixpoint copy (p out : list Z) : copied :=
  match p with
  | [] => Copied out
  | c :: p1 =>
      let literally := match putc c out with Some out => copy p1 out | None => Overflow end in
      if match out with b :: _ => (b =? slash) && (c =? dot) | [] => false end then
        match p1 with
        | [] => Copied out
        | c1 :: p2 =>
            if c1 =? slash then copy p2 out
            else if (c1 =? dot) && at_end p2 then
              match back (tl out) with
              | None => Above
              | Some out => match p2 with [] => Copied out | _ :: p3 => copy p3 out end
              end
            else literally
        end
      else literally
  end.

Definition format_path (cwdp path : list Z) : option (list Z) :=
  out ← (if match path with c :: _ => c =? slash | [] => false end then Some []
         else out ← puts cwdp []; match out with [] => None | c :: _ => if c =? slash then Some out else putc slash out end);
  match copy (path_end path) out with
  | Overflow => None
  | Above => Some []
  | Copied out =>
      _ ← putc 0 out;
      Some (rev (match out with c :: ((_ :: _) as out') => if c =? slash then out' else out | _ => out end))
  end.

(** The index of the last '/', 0 when there is none, as the loop over the path finds it. *)
Fixpoint last_slash (s : list Z) (i found : nat) : nat :=
  match s with [] => found | c :: s => last_slash s (S i) (if c =? slash then i else found) end.

Definition get_base_name (cwdp path : list Z) : option (Z * list Z) :=
  f ← format_path cwdp path;
  let k := last_slash f 0 0 in
  if bool_decide (k = 0%nat) || bool_decide (Z.of_nat k = Z.of_nat (length f) - 1) then Some (-1, [])
  else Some (0, drop (S k) f).

Definition get_dir_name (cwdp path : list Z) : option (Z * list Z) :=
  f ← format_path cwdp path;
  let k := last_slash f 0 0 in
  if bool_decide (k = 0%nat) || bool_decide (Z.of_nat k = Z.of_nat (length f) - 1) then Some (-1, [])
  else Some (0, take k f).

(** ** Reference: resolving a list of names *)

(** A name of a path: not empty, without '/'. *)
Definition name_ok (n : list Z) : Prop := n <> [] /\ slash ∉ n.

(** The names from the root on after each of [ns] is followed from [st], kept reversed; [None] above the root. *)
Fixpoint resolve (ns : list (list Z)) (st : list (list Z)) : option (list (list Z)) :=
  match ns with
  | [] => Some st
  | n :: ns =>
      if decide (n = [dot]) then resolve ns st
      else if decide (n = [dot; dot]) then match st with [] => None | _ :: st => resolve ns st end
      else resolve ns (n :: st)
  end.

(** "/a/b" for the names a, b; "/" for none. *)
Definition join (ns : list (list Z)) : list Z := concat ((fun n => slash :: n) <$> ns).
Definition render (ns : list (list Z)) : list Z := match ns with [] => [slash] | _ => join ns end.

(** Names separated by '/', without one in front. *)
Fixpoint body (ns : list (list Z)) : list Z :=
  match ns with [] => [] | [n] => n | n :: ns => n ++ slash :: body ns end.

(** The buffer, reversed, after the names [st] and a '/'. *)
Fixpoint bufof (st : list (list Z)) : list Z :=
  match st with [] => [slash] | n :: st => slash :: rev n ++ bufof st end.

(** ** The copying loop follows the names *)

Lemma putc_ok c out : Z.of_nat (length out) < MAX_PATH_LENGTH -> putc c out = Some (c :: out).
Proof. intros H. unfold putc. by rewrite (proj2 (Z.ltb_lt _ _) H). Qed.

Lemma copy_plain c p out : (forall b o, out = b :: o -> b = slash -> c <> dot) -> Z.of_nat (length out) < MAX_PATH_LENGTH ->
  copy (c :: p) out = copy p (c :: out).
Proof.
  intros Hc Hl. simpl. rewrite putc_ok by done. destruct out as [|b o]; [done|].
  destruct (Z.eqb_spec b slash) as [->|]; [|done]. by destruct (Z.eqb_spec c dot) as [->|]; [destruct (Hc slash o eq_refl eq_refl)|].
Qed.

Lemma copy_inside cs p b o : b <> slash -> slash ∉ cs -> Z.of_nat (length cs + S (length o)) <= MAX_PATH_LENGTH ->
  copy (cs ++ p) (b :: o) = copy p (rev cs ++ b :: o).
Proof.
  revert b o. induction cs as [|c cs IH]; intros b o Hb Hcs Hl; [done|]. rewrite not_elem_of_cons in Hcs.
  destruct Hcs as [Hc Hcs]. cbn [length app] in *.
  rewrite copy_plain; [|intros ? ? [= <- <-] ?; done|cbn [length]; lia].
  rewrite IH by (done || cbn [length]; lia). simpl. by rewrite <- app_assoc.
Qed.

Lemma bufof_head st : exists o, bufof st = slash :: o.
Proof. destruct st; simpl; eauto. Qed.

Lemma copy_name n p st : name_ok n -> n <> [dot] -> n <> [dot; dot] ->
  Z.of_nat (length n + length (bufof st)) <= MAX_PATH_LENGTH ->
  copy (n ++ p) (bufof st) = copy p (rev n ++ bufof st).
Proof.
  intros [Hne Hns] H1 H2 Hl. destruct (bufof_head st) as [o Ho]. rewrite Ho in *.
  destruct n as [|c n]; [done|]. rewrite not_elem_of_cons in Hns. destruct Hns as [Hc Hns]. cbn [length] in Hl.
  assert (copy ((c :: n) ++ p) (slash :: o) = copy (n ++ p) (c :: slash :: o)) as ->.
  { destruct (decide (c = dot)) as [->|Hcd].
    2:{ cbn [app]. apply copy_plain; [intros ? ? [= <- <-] _; done|cbn [length]; lia]. }
    simpl. rewrite putc_ok by (cbn [length]; lia). destruct n as [|c1 n]; [done|]. rewrite not_elem_of_cons in Hns.
    destruct Hns as [Hc1 Hns]. simpl. destruct (Z.eqb_spec c1 slash) as [->|_]; [done|].
    destruct (Z.eqb_spec c1 dot) as [->|_]; [|done]. destruct n as [|c2 n]; [done|]. rewrite not_elem_of_cons in Hns.
    simpl. by destruct (Z.eqb_spec c2 slash) as [->|_]; [destruct Hns|]. }
  rewrite copy_inside by (done || cbn [length]; lia). simpl. by rewrite <- app_assoc.
Qed.

Lemma back_name n st : slash ∉ n -> back (rev n ++ bufof st) = Some (bufof st).
Proof.
  intros Hn. assert (slash ∉ rev n) as Hr by (by rewrite list_elem_of_In, <- in_rev, <- list_elem_of_In).
  induction (rev n) as [|c l IH]; simpl; [destruct st; done|]. rewrite not_elem_of_cons in Hr. destruct Hr as [Hc Hr].
  destruct (Z.eqb_spec c slash) as [->|_]; [done|]. by apply IH.
Qed.

(** The buffer holds the names [st], with or without a '/' at the end. *)
Definition holds (st : list (list Z)) (out : list Z) : Prop := out = bufof st \/ st <> [] /\ slash :: out = bufof st.

Lemma length_body_cons n ns : (length (body (n :: ns)) = length n + (if decide (ns = []) then 0 else S (length (body ns))))%nat.
Proof. destruct ns as [|m ns]; [simpl; lia|]. rewrite decide_False by done. cbn [body]. rewrite length_app. simpl. lia. Qed.

Lemma copy_names ns : forall st, Forall name_ok ns -> Forall name_ok st ->
  Z.of_nat (length (body ns) + length (bufof st)) < MAX_PATH_LENGTH ->
  match resolve ns st with
  | None => copy (body ns) (bufof st) = Above
  | Some st' => exists out, copy (body ns) (bufof st) = Copied out /\ holds st' out /\ (length out < Z.to_nat MAX_PATH_LENGTH)%nat
  end.
Proof.
  induction ns as [|n ns IH]; intros st Hns Hst Hl.
  { exists (bufof st). split; [done|]. split; [by left|]. simpl in Hl. unfold MAX_PATH_LENGTH in *. lia. }
  apply Forall_cons in Hns as [Hn Hns]. pose proof (length_body_cons n ns) as Hlen.
  assert (body (n :: ns) = n ++ match ns with [] => [] | _ => slash :: body ns end) as Eb
    by (destruct ns; cbn [body]; by rewrite ?app_nil_r).
  rewrite Eb. cbn [resolve]. destruct (bufof_head st) as [o Ho]. destruct (decide (n = [dot])) as [H1|H1]; [|destruct (decide (n = [dot; dot])) as [H2|H2]].
  - subst n. simpl app. rewrite Ho. destruct ns as [|m ns'].
    + exists (bufof st). rewrite Ho. simpl. split; [done|]. split; [by left|]. rewrite Ho in Hl. unfold MAX_PATH_LENGTH in *. cbn [length] in *. lia.
    + simpl copy. rewrite <- Ho. apply (IH st); [done|done|]. rewrite decide_False in Hlen by done. lia.
  - subst n. destruct st as [|m st].
    + destruct ns; done.
    + apply Forall_cons in Hst as [Hm Hst]. pose proof (back_name m st (proj2 Hm)) as Hbk. destruct ns as [|m' ns'].
      * exists (bufof st). simpl. rewrite Hbk. split; [done|]. split; [by left|].
        cbn [bufof] in Hl. rewrite length_cons, length_app in Hl. unfold MAX_PATH_LENGTH in *. lia.
      * simpl copy. rewrite Hbk. apply (IH st); [done|done|]. rewrite decide_False in Hlen by done.
        cbn [bufof] in Hl. rewrite length_cons, length_app in Hl. lia.
  - rewrite copy_name by (done || lia). destruct ns as [|m ns'].
    + exists (rev n ++ bufof st). split; [done|]. split; [by right|]. rewrite length_app, length_rev. simpl in *.
      unfold MAX_PATH_LENGTH in *. lia.
    + rewrite decide_False in Hlen by done. rewrite copy_plain; [|intros ? ? _ _; done|rewrite length_app, length_rev; lia].
      change (slash :: rev n ++ bufof st) with (bufof (n :: st)). apply IH; [done|by constructor|].
      cbn [bufof]. rewrite length_cons, length_app, length_rev. lia.
Qed.

(** ** The whole function *)

Lemma join_app ns ms : join (ns ++ ms) = join ns ++ join ms.
Proof. unfold join. by rewrite fmap_app, concat_app. Qed.

Lemma join_body ns : ns <> [] -> join ns = slash :: body ns.
Proof.
  induction ns as [|n ns IH]; intros H; [done|]. change (join (n :: ns)) with ((slash :: n) ++ join ns).
  destruct ns as [|m ns]; [by rewrite app_nil_r|]. rewrite IH by done. done.
Qed.

Lemma bufof_rev st : bufof st = slash :: rev (join (rev st)).
Proof.
  induction st as [|n st IH]; [done|]. cbn [bufof rev]. rewrite join_app, rev_app_distr, IH.
  unfold join at 2. simpl. by rewrite app_nil_r, <- app_assoc.
Qed.

Lemma puts_ok cs out : Z.of_nat (length cs + length out) <= MAX_PATH_LENGTH -> puts cs out = Some (rev cs ++ out).
Proof.
  revert out. induction cs as [|c cs IH]; intros out Hl; [done|]. cbn [puts length] in *.
  rewrite putc_ok by lia. simpl. rewrite IH by (simpl; lia). by rewrite <- app_assoc.
Qed.

Lemma trim_slashes k c l : c <> slash -> trim (replicate k slash ++ c :: l) = c :: l.
Proof.
  intros Hc. induction k as [|k IH]; simpl.
  - destruct l; [done|]. by destruct (Z.eqb_spec c slash).
  - destruct (replicate k slash ++ c :: l) eqn:E; [|done]. by apply app_nil in E as [_ ?].
Qed.

Lemma rev_replicate {A} k (x : A) : rev (replicate k x) = replicate k x.
Proof. induction k; simpl; [done|]. rewrite IHk. by rewrite <- replicate_cons_app. Qed.

Lemma body_last ns : Forall name_ok ns -> ns <> [] -> exists l c, body ns = l ++ [c] /\ c <> slash.
Proof.
  induction ns as [|n ns IH]; intros Hf Hne; [done|]. apply Forall_cons in Hf as [[Hn Hs] Hf]. destruct ns as [|m ns].
  - destruct (exists_last Hn) as (l & c & ->). exists l, c. split; [done|]. intros ->. apply Hs, elem_of_app. right. by left.
  - destruct IH as (l & c & E & Hc); [done|done|]. exists (n ++ slash :: l), c. split; [|done].
    change (body (n :: m :: ns)) with (n ++ slash :: body (m :: ns)). rewrite E. by rewrite <- app_assoc.
Qed.

Lemma path_end_body pre ns k : Forall name_ok ns -> ns <> [] -> path_end ((pre ++ body ns) ++ replicate k slash) = pre ++ body ns.
Proof.
  intros Hf Hne. destruct (body_last ns Hf Hne) as (l & c & E & Hc). unfold path_end.
  rewrite E, app_assoc, !rev_app_distr, rev_replicate. simpl rev. cbn [app]. rewrite trim_slashes by done.
  simpl. by rewrite rev_app_distr, !rev_involutive.
Qed.

Definition shown (r : option (list (list Z))) : list Z := match r with None => [] | Some st => render (rev st) end.

Definition finish (out : list Z) : list Z := rev (match out with c :: ((_ :: _) as out') => if c =? slash then out' else out | _ => out end).

Lemma finish_holds st out : Forall name_ok st -> holds st out -> finish out = render (rev st).
Proof.
  intros Hst Hh. destruct st as [|n st].
  { destruct Hh as [->|[? _]]; done. }
  assert (render (rev (n :: st)) = join (rev (n :: st))) as -> by (simpl; destruct (rev st); done).
  apply Forall_cons in Hst as [[Hn Hs] _]. assert (rev n ++ bufof st = rev (join (rev (n :: st)))) as E.
  { pose proof (bufof_rev (n :: st)) as H. cbn [bufof] in H. by injection H. }
  destruct (bufof_head st) as [o Ho]. rewrite <- (rev_involutive (join _)), <- E. unfold finish.
  destruct Hh as [->|[_ Hh]].
  - cbn [bufof]. destruct (rev n ++ bufof st) eqn:E'; [|done]. rewrite Ho in E'. by apply app_nil in E' as [_ ?].
  - cbn [bufof] in Hh. injection Hh as ->. destruct (exists_last Hn) as (l & c & ->). rewrite rev_app_distr. simpl.
    destruct (Z.eqb_spec c slash) as [->|_].
    + destruct Hs. apply elem_of_app. right. by left.
    + by case_match.
Qed.

Lemma resolve_ok ns : forall st st', Forall name_ok ns -> Forall name_ok st -> resolve ns st = Some st' -> Forall name_ok st'.
Proof.
  induction ns as [|n ns IH]; intros st st' Hns Hst; cbn [resolve]; [congruence|]. apply Forall_cons in Hns as [Hn Hns].
  repeat case_decide; [by apply IH| |apply IH; [done|by constructor]].
  destruct st as [|m st]; [done|]. apply Forall_cons in Hst as [_ Hst]. by apply IH.
Qed.

Lemma copy_finish ns st : Forall name_ok ns -> Forall name_ok st ->
  Z.of_nat (length (body ns) + length (bufof st)) < MAX_PATH_LENGTH ->
  match copy (body ns) (bufof st) with
  | Overflow => None
  | Above => Some []
  | Copied out => _ ← putc 0 out; Some (finish out)
  end = Some (shown (resolve ns st)).
Proof.
  intros Hns Hst Hl. pose proof (copy_names ns st Hns Hst Hl) as H. destruct (resolve ns st) as [st'|] eqn:E.
  - destruct H as (out & -> & Hh & Hlo). rewrite putc_ok by (unfold MAX_PATH_LENGTH in *; lia). simpl. f_equal.
    apply finish_holds; [by apply (resolve_ok ns st)|done].
  - by rewrite H.
Qed.

Lemma format_path_lemma cwd cs ns k :
  Forall name_ok cs -> Forall name_ok ns -> ns <> [] ->
  Z.of_nat (length (join cs) + length (join ns)) + 1 < MAX_PATH_LENGTH ->
  format_path cwd (join ns ++ replicate k slash) = Some (shown (resolve ns [])) /\
  format_path (render cs) (body ns ++ replicate k slash) = Some (shown (resolve ns (rev cs))).
Proof.
  intros Hcs Hns Hne Hl. pose proof (join_body ns Hne) as Ej. rewrite Ej in *. cbn [length] in Hl.
  assert (Z.of_nat (length (body ns)) + Z.of_nat (length (join cs)) + 2 < MAX_PATH_LENGTH) as Hl' by lia. split.
  - unfold format_path. cbn [app]. change (slash =? slash) with true. cbn [mbind option_bind].
    change (slash :: body ns ++ replicate k slash) with (([slash] ++ body ns) ++ replicate k slash).
    rewrite path_end_body by done. cbn [app].
    rewrite copy_plain; [|intros ? ? [=]|done]. apply (copy_finish ns []); [done|constructor|]. simpl. lia.
  - unfold format_path. pose proof (path_end_body [] ns k Hns Hne) as Ep. cbn [app] in Ep. rewrite Ep.
    assert (match body ns ++ replicate k slash with c :: _ => c =? slash | [] => false end = false) as ->.
    { destruct ns as [|n ns]; [done|]. apply Forall_cons in Hns as [[Hn Hs] _].
      destruct n as [|c n]; [done|]. rewrite not_elem_of_cons in Hs. by destruct ns; simpl; apply Z.eqb_neq; intros ->; destruct Hs. }
    assert ((out ← puts (render cs) []; match out with [] => None | c :: _ => if c =? slash then Some out else putc slash out end)
      = Some (bufof (rev cs))) as ->.
    { rewrite bufof_rev, rev_involutive. destruct cs as [|c cs]; [done|].
      rewrite puts_ok by (cbn [length render]; lia). cbn [mbind option_bind render]. rewrite app_nil_r.
      destruct (body_last (c :: cs) Hcs ltac:(done)) as (l & z & El & Hz). rewrite (join_body (c :: cs)) in * by done. rewrite El in *.
      simpl. rewrite rev_app_distr. simpl. destruct (Z.eqb_spec z slash); [done|].
      rewrite putc_ok; [done|]. cbn [length] in *. rewrite !length_app, length_rev in *. simpl in *. lia. }
    cbn [mbind option_bind]. apply copy_finish; [done|by apply Forall_rev|].
    rewrite bufof_rev, rev_involutive. cbn [length]. rewrite length_rev. lia.
Qed.


Definition word_of (s : string) : list Z := (fun c => Z.of_N (Ascii.N_of_ascii c)) <$> String.list_ascii_of_string s.


(** ** Directory and base name *)

Lemma resolve_plain ns : forall st, Forall (fun n => n <> [dot] /\ n <> [dot; dot]) ns -> resolve ns st = Some (rev ns ++ st).
Proof.
  induction ns as [|n ns IH]; intros st Hf; [done|]. apply Forall_cons in Hf as [[H1 H2] Hf]. cbn [resolve].
  rewrite !decide_False by done. rewrite IH by done. simpl. by rewrite <- app_assoc.
Qed.

Lemma last_slash_app s b : forall i found, slash ∉ b -> last_slash (s ++ slash :: b) i found = (i + length s)%nat.
Proof.
  induction s as [|c s IH]; intros i found Hb; simpl.
  - rewrite Nat.add_0_r. generalize i at 2 3. generalize (S i). intros j f. revert j.
    induction b as [|c b IHb]; intros j; [done|]. rewrite not_elem_of_cons in Hb. destruct Hb as [Hc Hb]. simpl.
    destruct (Z.eqb_spec c slash) as [->|_]; [done|]. by apply IHb.
  - rewrite IH by done. lia.
Qed.

(** Get_dir_name and get_base_name split a path.  The path of the names [ds] and [b], at least two and none of them "."
    or "..", splits into the path of [ds] and the name [b]; a path of a single name is refused. *)
Lemma dir_base_split cwd ds b k :
  Forall name_ok ds -> name_ok b -> Forall (fun n => n <> [dot] /\ n <> [dot; dot]) (ds ++ [b]) ->
  Z.of_nat (length (join (ds ++ [b]))) + 1 < MAX_PATH_LENGTH ->
  get_dir_name cwd (join (ds ++ [b]) ++ replicate k slash) = Some (if decide (ds = []) then (-1, []) else (0, join ds)) /\
  get_base_name cwd (join (ds ++ [b]) ++ replicate k slash) = Some (if decide (ds = []) then (-1, []) else (0, b)).
Proof.
  intros Hds Hb Hpl Hl.
  assert (format_path cwd (join (ds ++ [b]) ++ replicate k slash) = Some (join (ds ++ [b]))) as E.
  { destruct (format_path_lemma cwd [] (ds ++ [b]) k) as [-> _]; try done.
    - apply Forall_app. split; [done|]. by constructor.
    - by destruct ds.
    - rewrite resolve_plain by done. rewrite app_nil_r. simpl. rewrite rev_involutive. by destruct ds. }
  assert (join (ds ++ [b]) = join ds ++ slash :: b) as Ej by (rewrite join_app; unfold join at 2; simpl; by rewrite app_nil_r).
  unfold get_dir_name, get_base_name. rewrite E. cbn [mbind option_bind]. rewrite Ej, last_slash_app by apply Hb.
  rewrite Nat.add_0_l, length_app. cbn [length]. destruct Hb as [Hne _].
  assert (0 < length b)%nat by (destruct b; simpl; [done|lia]).
  rewrite (bool_decide_eq_false_2 (_ = _ - 1)) by lia. rewrite orb_false_r. destruct ds as [|n ds]; [done|].
  rewrite bool_decide_eq_false_2 by (change (join (n :: ds)) with ((slash :: n) ++ join ds); simpl; lia).
  rewrite decide_False by done. rewrite take_app_length. rewrite drop_app_ge by lia.
  replace (S _ - _)%nat with 1%nat by lia. done.
Qed.

Lemma dir_base_split_witness :
  get_dir_name [] (word_of "/a/b/c//") = Some (0, word_of "/a/b") /\ get_base_name [] (word_of "/a/b/c//") = Some (0, word_of "c").
Proof.
  assert (forall n, forallb (fun c => negb (c =? slash)) n && negb (bool_decide (n = [])) = true -> name_ok n) as Hok.
  { intros n [H1 H2]%andb_prop. split; [intros ->; done|]. intros Hin. rewrite forallb_forall in H1.
    apply list_elem_of_In, H1 in Hin. done. }
  apply (dir_base_split [] [word_of "a"; word_of "b"] (word_of "c") 2).
  - repeat (constructor; [apply Hok; reflexivity|]). constructor.
  - apply Hok. reflexivity.
  - repeat constructor; discriminate.
  - reflexivity.
Defined.
