(* ===== verification/Cgroup.v ===== *)
(** * Control groups, kernel/cgroup.c

    The table of control groups with the processes that belong to them.  A
    pointer to a control group is its index in the table, [None] for NULL; index
    0 is the root group.  A pointer to a process is its index in the process
    table.  The lock of the table is part of the state: taking it twice and
    releasing it when it is free stop the machine, as in spinlock.c. *)

From S2P Require Import Prelude Kstring Klib Kalloc Cpath.

Definition NPROC : nat := 64.
Definition NDEV : nat := 10.
Definition NCPU : Z := 8.
Definition MAX_DES_DEF : Z := 64.
Definition MAX_DEP_DEF : Z := 64.
Definition CGROUP_ACCOUNT_PERIOD_100MS : Z := 100 * 1000.
Definition MAX_CGROUP_FILE_NAME_LENGTH : Z := 64.
Definition DEVICE_NAME : Z := 17.

Inductive result_code :=
  RESULT_ERROR_OPERATION | RESULT_ERROR_ARGUMENT | RESULT_ERROR | RESULT_SUCCESS | RESULT_SUCCESS_OPERATION.

#[export] Instance result_code_eq_dec : EqDecision result_code.
Proof. solve_decision. Defined.

Record controllers := Controllers {
  cpu_controller_avalible : bool;
  cpu_controller_enabled : bool;
  pid_controller_avalible : bool;
  pid_controller_enabled : bool;
  set_controller_avalible : bool;
  set_controller_enabled : bool;
  mem_controller_avalible : bool;
  mem_controller_enabled : bool
}.

Record mem_acct := MemAcct {
  current_mem : Z;
  current_page : Z;
  mem_stat_file_dirty : Z;
  mem_stat_file_dirty_aggregated : Z;
  mem_stat_pgfault : Z;
  mem_stat_pgmajfault : Z;
  max_mem : Z;
  min_mem : Z;
  protected_mem : Z
}.

Record cpu_acct := CpuAcct {
  cpu_time : Z;
  cpu_period_time : Z;
  cpu_percent : Z;
  cpu_account_period : Z;
  cpu_time_limit : Z;
  cpu_account_frame : Z;
  cpu_nr_periods : Z;
  cpu_nr_throttled : Z;
  cpu_throttled_usec : Z;
  cpu_is_throttled_period : Z
}.

Record io_stat := IoStat { dev_name : list Z; major : Z; minor : Z; device_stats : list Z }.

Record cgroup := Cgroup {
  cgroup_dir_path : list Z;
  ref_count : Z;
  proc : list (option nat);
  num_of_procs : Z;
  parent : option nat;
  ctl : controllers;
  populated : bool;
  max_descendants_value : Z;
  max_depth_value : Z;
  depth : Z;
  nr_descendants : Z;
  nr_dying_descendants : Z;
  max_num_of_procs : Z;
  cpu_to_use : Z;
  is_frozen : Z;
  mem_ : mem_acct;
  cpu_ : cpu_acct;
  used_devices : Z;
  io_stats : list io_stat
}.

Definition with_cgroup_dir_path (v : list Z) (c : cgroup) : cgroup :=
  Cgroup v (ref_count c) (proc c) (num_of_procs c) (parent c) (ctl c) (populated c) (max_descendants_value c) (max_depth_value c) (depth c) (nr_descendants c) (nr_dying_descendants c) (max_num_of_procs c) (cpu_to_use c) (is_frozen c) (mem_ c) (cpu_ c) (used_devices c) (io_stats c).
Definition with_ref_count (v : Z) (c : cgroup) : cgroup :=
  Cgroup (cgroup_dir_path c) v (proc c) (num_of_procs c) (parent c) (ctl c) (populated c) (max_descendants_value c) (max_depth_value c) (depth c) (nr_descendants c) (nr_dying_descendants c) (max_num_of_procs c) (cpu_to_use c) (is_frozen c) (mem_ c) (cpu_ c) (used_devices c) (io_stats c).
Definition with_proc (v : list (option nat)) (c : cgroup) : cgroup :=
  Cgroup (cgroup_dir_path c) (ref_count c) v (num_of_procs c) (parent c) (ctl c) (populated c) (max_descendants_value c) (max_depth_value c) (depth c) (nr_descendants c) (nr_dying_descendants c) (max_num_of_procs c) (cpu_to_use c) (is_frozen c) (mem_ c) (cpu_ c) (used_devices c) (io_stats c).
Definition with_num_of_procs (v : Z) (c : cgroup) : cgroup :=
  Cgroup (cgroup_dir_path c) (ref_count c) (proc c) v (parent c) (ctl c) (populated c) (max_descendants_value c) (max_depth_value c) (depth c) (nr_descendants c) (nr_dying_descendants c) (max_num_of_procs c) (cpu_to_use c) (is_frozen c) (mem_ c) (cpu_ c) (used_devices c) (io_stats c).
Definition with_parent (v : option nat) (c : cgroup) : cgroup :=
  Cgroup (cgroup_dir_path c) (ref_count c) (proc c) (num_of_procs c) v (ctl c) (populated c) (max_descendants_value c) (max_depth_value c) (depth c) (nr_descendants c) (nr_dying_descendants c) (max_num_of_procs c) (cpu_to_use c) (is_frozen c) (mem_ c) (cpu_ c) (used_devices c) (io_stats c).
Definition with_ctl (v : controllers) (c : cgroup) : cgroup :=
  Cgroup (cgroup_dir_path c) (ref_count c) (proc c) (num_of_procs c) (parent c) v (populated c) (max_descendants_value c) (max_depth_value c) (depth c) (nr_descendants c) (nr_dying_descendants c) (max_num_of_procs c) (cpu_to_use c) (is_frozen c) (mem_ c) (cpu_ c) (used_devices c) (io_stats c).
Definition with_populated (v : bool) (c : cgroup) : cgroup :=
  Cgroup (cgroup_dir_path c) (ref_count c) (proc c) (num_of_procs c) (parent c) (ctl c) v (max_descendants_value c) (max_depth_value c) (depth c) (nr_descendants c) (nr_dying_descendants c) (max_num_of_procs c) (cpu_to_use c) (is_frozen c) (mem_ c) (cpu_ c) (used_devices c) (io_stats c).
Definition with_max_descendants_value (v : Z) (c : cgroup) : cgroup :=
  Cgroup (cgroup_dir_path c) (ref_count c) (proc c) (num_of_procs c) (parent c) (ctl c) (populated c) v (max_depth_value c) (depth c) (nr_descendants c) (nr_dying_descendants c) (max_num_of_procs c) (cpu_to_use c) (is_frozen c) (mem_ c) (cpu_ c) (used_devices c) (io_stats c).
Definition with_max_depth_value (v : Z) (c : cgroup) : cgroup :=
  Cgroup (cgroup_dir_path c) (ref_count c) (proc c) (num_of_procs c) (parent c) (ctl c) (populated c) (max_descendants_value c) v (depth c) (nr_descendants c) (nr_dying_descendants c) (max_num_of_procs c) (cpu_to_use c) (is_frozen c) (mem_ c) (cpu_ c) (used_devices c) (io_stats c).
Definition with_depth (v : Z) (c : cgroup) : cgroup :=
  Cgroup (cgroup_dir_path c) (ref_count c) (proc c) (num_of_procs c) (parent c) (ctl c) (populated c) (max_descendants_value c) (max_depth_value c) v (nr_descendants c) (nr_dying_descendants c) (max_num_of_procs c) (cpu_to_use c) (is_frozen c) (mem_ c) (cpu_ c) (used_devices c) (io_stats c).
Definition with_nr_descendants (v : Z) (c : cgroup) : cgroup :=
  Cgroup (cgroup_dir_path c) (ref_count c) (proc c) (num_of_procs c) (parent c) (ctl c) (populated c) (max_descendants_value c) (max_depth_value c) (depth c) v (nr_dying_descendants c) (max_num_of_procs c) (cpu_to_use c) (is_frozen c) (mem_ c) (cpu_ c) (used_devices c) (io_stats c).
Definition with_nr_dying_descendants (v : Z) (c : cgroup) : cgroup :=
  Cgroup (cgroup_dir_path c) (ref_count c) (proc c) (num_of_procs c) (parent c) (ctl c) (populated c) (max_descendants_value c) (max_depth_value c) (depth c) (nr_descendants c) v (max_num_of_procs c) (cpu_to_use c) (is_frozen c) (mem_ c) (cpu_ c) (used_devices c) (io_stats c).
Definition with_max_num_of_procs (v : Z) (c : cgroup) : cgroup :=
  Cgroup (cgroup_dir_path c) (ref_count c) (proc c) (num_of_procs c) (parent c) (ctl c) (populated c) (max_descendants_value c) (max_depth_value c) (depth c) (nr_descendants c) (nr_dying_descendants c) v (cpu_to_use c) (is_frozen c) (mem_ c) (cpu_ c) (used_devices c) (io_stats c).
Definition with_cpu_to_use (v : Z) (c : cgroup) : cgroup :=
  Cgroup (cgroup_dir_path c) (ref_count c) (proc c) (num_of_procs c) (parent c) (ctl c) (populated c) (max_descendants_value c) (max_depth_value c) (depth c) (nr_descendants c) (nr_dying_descendants c) (max_num_of_procs c) v (is_frozen c) (mem_ c) (cpu_ c) (used_devices c) (io_stats c).
Definition with_is_frozen (v : Z) (c : cgroup) : cgroup :=
  Cgroup (cgroup_dir_path c) (ref_count c) (proc c) (num_of_procs c) (parent c) (ctl c) (populated c) (max_descendants_value c) (max_depth_value c) (depth c) (nr_descendants c) (nr_dying_descendants c) (max_num_of_procs c) (cpu_to_use c) v (mem_ c) (cpu_ c) (used_devices c) (io_stats c).
Definition with_mem_ (v : mem_acct) (c : cgroup) : cgroup :=
  Cgroup (cgroup_dir_path c) (ref_count c) (proc c) (num_of_procs c) (parent c) (ctl c) (populated c) (max_descendants_value c) (max_depth_value c) (depth c) (nr_descendants c) (nr_dying_descendants c) (max_num_of_procs c) (cpu_to_use c) (is_frozen c) v (cpu_ c) (used_devices c) (io_stats c).
Definition with_cpu_ (v : cpu_acct) (c : cgroup) : cgroup :=
  Cgroup (cgroup_dir_path c) (ref_count c) (proc c) (num_of_procs c) (parent c) (ctl c) (populated c) (max_descendants_value c) (max_depth_value c) (depth c) (nr_descendants c) (nr_dying_descendants c) (max_num_of_procs c) (cpu_to_use c) (is_frozen c) (mem_ c) v (used_devices c) (io_stats c).
Definition with_used_devices (v : Z) (c : cgroup) : cgroup :=
  Cgroup (cgroup_dir_path c) (ref_count c) (proc c) (num_of_procs c) (parent c) (ctl c) (populated c) (max_descendants_value c) (max_depth_value c) (depth c) (nr_descendants c) (nr_dying_descendants c) (max_num_of_procs c) (cpu_to_use c) (is_frozen c) (mem_ c) (cpu_ c) v (io_stats c).
Definition with_io_stats (v : list io_stat) (c : cgroup) : cgroup :=
  Cgroup (cgroup_dir_path c) (ref_count c) (proc c) (num_of_procs c) (parent c) (ctl c) (populated c) (max_descendants_value c) (max_depth_value c) (depth c) (nr_descendants c) (nr_dying_descendants c) (max_num_of_procs c) (cpu_to_use c) (is_frozen c) (mem_ c) (cpu_ c) (used_devices c) v.
Definition with_current_mem (v : Z) (m : mem_acct) : mem_acct :=
  MemAcct v (current_page m) (mem_stat_file_dirty m) (mem_stat_file_dirty_aggregated m) (mem_stat_pgfault m) (mem_stat_pgmajfault m) (max_mem m) (min_mem m) (protected_mem m).
Definition with_current_page (v : Z) (m : mem_acct) : mem_acct :=
  MemAcct (current_mem m) v (mem_stat_file_dirty m) (mem_stat_file_dirty_aggregated m) (mem_stat_pgfault m) (mem_stat_pgmajfault m) (max_mem m) (min_mem m) (protected_mem m).
Definition with_mem_stat_file_dirty (v : Z) (m : mem_acct) : mem_acct :=
  MemAcct (current_mem m) (current_page m) v (mem_stat_file_dirty_aggregated m) (mem_stat_pgfault m) (mem_stat_pgmajfault m) (max_mem m) (min_mem m) (protected_mem m).
Definition with_mem_stat_file_dirty_aggregated (v : Z) (m : mem_acct) : mem_acct :=
  MemAcct (current_mem m) (current_page m) (mem_stat_file_dirty m) v (mem_stat_pgfault m) (mem_stat_pgmajfault m) (max_mem m) (min_mem m) (protected_mem m).
Definition with_mem_stat_pgfault (v : Z) (m : mem_acct) : mem_acct :=
  MemAcct (current_mem m) (current_page m) (mem_stat_file_dirty m) (mem_stat_file_dirty_aggregated m) v (mem_stat_pgmajfault m) (max_mem m) (min_mem m) (protected_mem m).
Definition with_mem_stat_pgmajfault (v : Z) (m : mem_acct) : mem_acct :=
  MemAcct (current_mem m) (current_page m) (mem_stat_file_dirty m) (mem_stat_file_dirty_aggregated m) (mem_stat_pgfault m) v (max_mem m) (min_mem m) (protected_mem m).
Definition with_max_mem (v : Z) (m : mem_acct) : mem_acct :=
  MemAcct (current_mem m) (current_page m) (mem_stat_file_dirty m) (mem_stat_file_dirty_aggregated m) (mem_stat_pgfault m) (mem_stat_pgmajfault m) v (min_mem m) (protected_mem m).
Definition with_min_mem (v : Z) (m : mem_acct) : mem_acct :=
  MemAcct (current_mem m) (current_page m) (mem_stat_file_dirty m) (mem_stat_file_dirty_aggregated m) (mem_stat_pgfault m) (mem_stat_pgmajfault m) (max_mem m) v (protected_mem m).
Definition with_protected_mem (v : Z) (m : mem_acct) : mem_acct :=
  MemAcct (current_mem m) (current_page m) (mem_stat_file_dirty m) (mem_stat_file_dirty_aggregated m) (mem_stat_pgfault m) (mem_stat_pgmajfault m) (max_mem m) (min_mem m) v.

(** The controllers, and their two flags. *)
Inductive controller := Cpu | Pid | CpuSet | Mem.
#[export] Instance controller_eq_dec : EqDecision controller.
Proof. solve_decision. Defined.

Definition avalible (k : controller) (c : cgroup) : bool :=
  match k with
  | Cpu => cpu_controller_avalible (ctl c) | Pid => pid_controller_avalible (ctl c)
  | CpuSet => set_controller_avalible (ctl c) | Mem => mem_controller_avalible (ctl c)
  end.
Definition enabled (k : controller) (c : cgroup) : bool :=
  match k with
  | Cpu => cpu_controller_enabled (ctl c) | Pid => pid_controller_enabled (ctl c)
  | CpuSet => set_controller_enabled (ctl c) | Mem => mem_controller_enabled (ctl c)
  end.
Definition with_avalible (k : controller) (v : bool) (c : cgroup) : cgroup :=
  let '(Controllers a1 e1 a2 e2 a3 e3 a4 e4) := ctl c in
  with_ctl (match k with
    | Cpu => Controllers v e1 a2 e2 a3 e3 a4 e4 | Pid => Controllers a1 e1 v e2 a3 e3 a4 e4
    | CpuSet => Controllers a1 e1 a2 e2 v e3 a4 e4 | Mem => Controllers a1 e1 a2 e2 a3 e3 v e4 end) c.
Definition with_enabled (k : controller) (v : bool) (c : cgroup) : cgroup :=
  let '(Controllers a1 e1 a2 e2 a3 e3 a4 e4) := ctl c in
  with_ctl (match k with
    | Cpu => Controllers a1 v a2 e2 a3 e3 a4 e4 | Pid => Controllers a1 e1 a2 v a3 e3 a4 e4
    | CpuSet => Controllers a1 e1 a2 e2 a3 v a4 e4 | Mem => Controllers a1 e1 a2 e2 a3 e3 a4 v end) c.

(** What the control groups use of a process. *)
Record cproc := Cproc { sz : Z; p_cgroup : option nat }.

Record cgs := Cgs {
  cgroups : list cgroup;    (* cgtable.cgroups *)
  cg_locked : bool;         (* cgtable.lock *)
  ptab : list cproc;        (* the process table *)
  kh : kheap                (* kmem, for its reservation counter *)
}.

Definition upd_cg (i : nat) (f : cgroup -> cgroup) (s : cgs) : cgs :=
  Cgs (alter f i (cgroups s)) (cg_locked s) (ptab s) (kh s).
Definition upd_all (f : nat -> cgroup -> cgroup) (s : cgs) : cgs :=
  Cgs (imap f (cgroups s)) (cg_locked s) (ptab s) (kh s).
Definition upd_proc (p : nat) (f : cproc -> cproc) (s : cgs) : cgs :=
  Cgs (cgroups s) (cg_locked s) (alter f p (ptab s)) (kh s).

Definition get_cg (i : nat) : M cgs cgroup := s ← getS; deref (cgroups s !! i).
Definition get_proc (p : nat) : M cgs cproc := s ← getS; deref (ptab s !! p).
Definition onkh {A} (m : M kheap A) : M cgs A := fun s =>
  match m (kh s) with inl e => inl e | inr (a, k) => inr (a, Cgs (cgroups s) (cg_locked s) (ptab s) k) end.

Definition cgroup_lock : M cgs unit :=
  s ← getS;
  if cg_locked s then panic "acquire" else putS (Cgs (cgroups s) true (ptab s) (kh s)).
Definition cgroup_unlock : M cgs unit :=
  s ← getS;
  if cg_locked s then putS (Cgs (cgroups s) false (ptab s) (kh s)) else panic "release".
Definition locked_call {A} (m : M cgs A) : M cgs A :=
  cgroup_lock ;; r ← m; cgroup_unlock ;; mret r.

Definition cgroup_root : nat := 0%nat.

(** [while (cgroup != 0) { ... cgroup = cgroup->parent; }] *)
Fixpoint up (fuel : nat) (f : cgroup -> cgroup) (i : option nat) : M cgs unit :=
  match fuel, i with
  | _, None => mret tt
  | O, _ => nofuel
  | S fuel, Some i =>
      c ← get_cg i;
      modS (upd_cg i f) ;;
      up fuel f (parent c)
  end.

Definition PGROUNDUP_int (n : Z) : Z := s32 (Z.land (n +i (PGSIZE - 1)) (Z.lnot (PGSIZE - 1))).

Section cgroup.
Context (cwdp : list Z).     (* myproc()->cwdp *)

Definition formatted (path : list Z) : M cgs (list Z) := deref (format_path cwdp path).

Definition unsafe_get_cgroup_by_path (path : list Z) : M cgs (option nat) :=
  fpath ← formatted path;
  s ← getS;
  mret (if decide (fpath = []) then None else fst <$> list_find (fun c => cgroup_dir_path c = fpath) (cgroups s)).

Definition unsafe_set_cgroup_dir_path (i : nat) (path : list Z) : M cgs unit :=
  fpath ← formatted path;
  if decide (fpath = []) then mret tt
  else modS (upd_cg i (with_cgroup_dir_path (take (Z.to_nat MAX_PATH_LENGTH) fpath))).

Definition set_cgroup_dir_path (i : nat) (path : list Z) : M cgs unit := locked_call (unsafe_set_cgroup_dir_path i path).
Definition get_cgroup_by_path (path : list Z) : M cgs (option nat) := locked_call (unsafe_get_cgroup_by_path path).

(** What leaving or joining a group changes in it and in each of its ancestors. *)
Definition leave (n : Z) (c : cgroup) : cgroup :=
  let c := with_num_of_procs (num_of_procs c -i 1) c in
  let c := with_mem_ (with_current_mem (current_mem (mem_ c) -u n) (mem_ c)) c in
  let c := with_mem_ (with_current_page (current_page (mem_ c) -u PGROUNDUP n / PGSIZE) (mem_ c)) c in
  if num_of_procs c =? 0 then with_populated false c else c.
Definition enter (n : Z) (c : cgroup) : cgroup :=
  let c := with_populated true (with_num_of_procs (num_of_procs c +i 1) c) in
  let c := with_mem_ (with_current_mem (current_mem (mem_ c) +u n) (mem_ c)) c in
  with_mem_ (with_current_page (current_page (mem_ c) +u PGROUNDUP n / PGSIZE) (mem_ c)) c.

Definition unsafe_cgroup_erase (i p : nat) : M cgs unit :=
  c ← get_cg i;
  match list_find (fun x => x = Some p) (proc c) with
  | None => mret tt
  | Some (k, _) =>
      x ← get_proc p;
      modS (upd_proc p (fun x => Cproc (sz x) (Some cgroup_root))) ;;
      modS (upd_cg i (fun c => with_proc (<[k := None]> (proc c)) c)) ;;
      up (S NPROC) (leave (sz x)) (Some i)
  end.
Definition cgroup_erase (i p : nat) : M cgs unit := locked_call (unsafe_cgroup_erase i p).

(** The two limits of every ancestor, the nearest first. *)
Fixpoint check_limits (fuel : nat) (n : Z) (i : option nat) : M cgs unit :=
  match fuel, i with
  | _, None => mret tt
  | O, _ => nofuel
  | S fuel, Some i =>
      c ← get_cg i;
      if max_depth_value c <=? n then cgroup_unlock ;; panic "cgroup_create: max depth allowed reached"
      else if max_descendants_value c =? nr_descendants c
      then cgroup_unlock ;; panic "cgroup_create: max number of descendants allowed reached"
      else check_limits fuel (n + 1) (parent c)
  end.

Definition set_max_descendants_value (i : nat) (v : Z) : M cgs unit := modS (upd_cg i (with_max_descendants_value v)).
Definition set_max_depth_value (i : nat) (v : Z) : M cgs unit := modS (upd_cg i (with_max_depth_value v)).
Definition set_nr_descendants (i : nat) (v : Z) : M cgs unit := modS (upd_cg i (with_nr_descendants v)).
Definition set_nr_dying_descendants (i : nat) (v : Z) : M cgs unit := modS (upd_cg i (with_nr_dying_descendants v)).

Definition set_max_procs (i : option nat) (limit : Z) : M cgs result_code :=
  match i with
  | None => mret RESULT_ERROR
  | Some i => if (0 <=? limit) && (limit <=? Z.of_nat NPROC)
              then modS (upd_cg i (with_max_num_of_procs limit)) ;; mret RESULT_SUCCESS_OPERATION
              else mret RESULT_SUCCESS
  end.
Definition set_cpu_id (i : option nat) (cpuid : Z) : M cgs result_code :=
  match i with
  | None => mret RESULT_ERROR
  | Some i => if (0 <=? cpuid) && (cpuid <=? NCPU + 1)
              then modS (upd_cg i (with_cpu_to_use (u8 cpuid))) ;; mret RESULT_SUCCESS_OPERATION
              else mret RESULT_SUCCESS
  end.
Definition frz_grp (i : option nat) (frz : Z) : M cgs result_code :=
  match i with
  | None => mret RESULT_ERROR
  | Some i => if (frz =? 1) || (frz =? 0)
              then modS (upd_cg i (with_is_frozen frz)) ;; mret RESULT_SUCCESS_OPERATION
              else mret RESULT_SUCCESS
  end.
Definition set_max_mem (i : option nat) (limit : Z) : M cgs result_code :=
  match i with
  | None => mret RESULT_ERROR
  | Some i =>
      c ← get_cg i;
      if (limit <=? KERNBASE) && (min_mem (mem_ c) <=? limit)
      then modS (upd_cg i (fun c => with_mem_ (with_max_mem limit (mem_ c)) c)) ;; mret RESULT_SUCCESS_OPERATION
      else mret RESULT_SUCCESS
  end.

Definition with_protected (v : Z) (c : cgroup) : cgroup := with_mem_ (with_protected_mem v (mem_ c)) c.

Definition set_protect_mem (i : nat) (pages : Z) : M cgs result_code :=
  c ← get_cg i;
  let protect := s32 (pages - current_page (mem_ c)) in
  if protect <=? 0 then
    (if 0 <? protected_mem (mem_ c)
     then onkh (decrese_protect_counter (s32 (protected_mem (mem_ c)))) ;; modS (upd_cg i (with_protected 0))
     else mret tt) ;;
    mret RESULT_SUCCESS
  else
    r ← onkh (increse_protect_counter (s32 (protect - protected_mem (mem_ c))));
    if r =? 0 then modS (upd_cg i (with_protected (u32 protect))) ;; mret RESULT_SUCCESS
    else mret RESULT_ERROR.
Definition set_min_mem (i : option nat) (limit : Z) : M cgs result_code :=
  match i with
  | None => mret RESULT_ERROR
  | Some i =>
      c ← get_cg i;
      if (limit <=? KERNBASE) && (limit <=? max_mem (mem_ c)) then
        r ← set_protect_mem i (PGROUNDUP limit / PGSIZE);
        if decide (r = RESULT_SUCCESS)
        then modS (upd_cg i (fun c => with_mem_ (with_min_mem limit (mem_ c)) c)) ;; mret RESULT_SUCCESS_OPERATION
        else mret RESULT_SUCCESS
      else mret RESULT_SUCCESS
  end.

Definition no_io : io_stat := IoStat (replicate 17%nat 0) 0 0 [].

Definition zero_stats (c : cgroup) : cgroup :=
  with_mem_ (MemAcct (current_mem (mem_ c)) (current_page (mem_ c)) 0 0 0 0 (max_mem (mem_ c)) (min_mem (mem_ c)) (protected_mem (mem_ c))) c.

Definition cgroup_initialize (i : nat) (path : list Z) (parent_cgroup : option nat) : M cgs unit :=
  match parent_cgroup with
  | None =>
      modS (upd_cg i (fun c =>
        with_depth 0 (with_parent None (with_cgroup_dir_path []
          (with_ctl (Controllers true true true true true false true true) c)))))
  | Some pi =>
      modS (upd_cg i (with_parent (Some pi))) ;;
      p ← get_cg pi;
      modS (upd_cg i (with_ctl (Controllers
        (cpu_controller_enabled (ctl p)) false (pid_controller_enabled (ctl p)) false
        (bool_decide (pi = cgroup_root) || set_controller_enabled (ctl p)) false
        (mem_controller_enabled (ctl p)) false))) ;;
      modS (upd_cg i (with_depth (depth p +u 1))) ;;
      unsafe_set_cgroup_dir_path i path
  end ;;
  modS (upd_cg i (with_ref_count 0)) ;;
  modS (upd_cg i (with_num_of_procs 0)) ;;
  modS (upd_cg i (with_populated false)) ;;
  modS (upd_cg i (fun c => with_mem_ (with_current_mem 0 (mem_ c)) c)) ;;
  set_max_descendants_value i MAX_DES_DEF ;;
  set_max_depth_value i MAX_DEP_DEF ;;
  set_nr_descendants i 0 ;;
  set_nr_dying_descendants i 0 ;;
  set_max_procs (Some i) (Z.of_nat NPROC) ;;
  set_cpu_id (Some i) 0 ;;
  frz_grp (Some i) 0 ;;
  modS (upd_cg i zero_stats) ;;
  match parent_cgroup with
  | None => set_max_mem (Some i) KERNBASE
  | Some pi => p ← get_cg pi; set_max_mem (Some i) (max_mem (mem_ p))
  end ;;
  set_min_mem (Some i) 0 ;;
  modS (upd_cg i (fun c => with_mem_ (with_current_page 0 (mem_ c)) c)) ;;
  modS (upd_cg i (with_protected 0)) ;;
  modS (upd_cg i (with_cpu_ (CpuAcct 0 0 0 CGROUP_ACCOUNT_PERIOD_100MS (u32 (-1)) 0 0 0 0 0))) ;;
  modS (upd_cg i (fun c => with_io_stats (<[0%nat := no_io]> (io_stats c)) c)) ;;
  modS (upd_cg i (with_used_devices 0)).

(** The first slot but the root's with no path and no reference. *)
Definition free_slot (t : list cgroup) : option nat :=
  (fun x => S x.1) <$> list_find (fun c => cgroup_dir_path c = [] /\ ref_count c = 0) (tl t).

Definition cgroup_create (path : list Z) : M cgs (option nat) :=
  fpath ← formatted path;
  dir ← deref (get_dir_name cwdp fpath);
  base ← deref (get_base_name cwdp fpath);
  if (dir.1 <? 0) || (base.1 <? 0) then mret None
  else
    cgroup_lock ;;
    parent_cgp ← unsafe_get_cgroup_by_path dir.2;
    match parent_cgp with
    | None => cgroup_unlock ;; mret None
    | Some pi =>
        check_limits (S NPROC) 0 (Some pi) ;;
        s ← getS;
        match free_slot (cgroups s) with
        | None => cgroup_unlock ;; panic "cgroup_create: no avalible cgroup slots"
        | Some new_cgp =>
            cgroup_initialize new_cgp fpath (Some pi) ;;
            up (S NPROC) (fun c => with_nr_descendants (nr_descendants c +u 1) c) (Some pi) ;;
            cgroup_unlock ;;
            mret (Some new_cgp)
        end
    end.

Inductive delete_type := Umount | Unlink.

Definition cgroup_delete (path : list Z) (type : delete_type) : M cgs result_code :=
  cgroup_lock ;;
  cgp ← unsafe_get_cgroup_by_path path;
  match cgp with
  | None => cgroup_unlock ;; mret RESULT_ERROR_ARGUMENT
  | Some i =>
      let is_root := bool_decide (i = cgroup_root) in
      if match type with Umount => negb is_root | Unlink => is_root end
      then cgroup_unlock ;; mret RESULT_ERROR_OPERATION
      else
        c ← get_cg i;
        if negb (nr_descendants c =? 0) || (negb (num_of_procs c =? 0) && negb is_root)
        then cgroup_unlock ;; mret RESULT_ERROR_OPERATION
        else
          (if negb is_root && enabled Mem c then set_min_mem (Some i) 0 ;; mret tt else mret tt) ;;
          modS (upd_cg i (with_cgroup_dir_path [])) ;;
          up (S NPROC) (fun c' =>
            let c' := with_nr_descendants (nr_descendants c' -u 1) c' in
            if 0 <? ref_count c then with_nr_dying_descendants (nr_dying_descendants c' +u 1) c' else c') (parent c) ;;
          cgroup_unlock ;;
          mret RESULT_SUCCESS
  end.

Definition calc_dec_dst_protect_pg (i : nat) (c : cgroup) (proc_pg : Z) : Z :=
  if negb (bool_decide (i = cgroup_root)) && enabled Mem c && (0 <? protected_mem (mem_ c)) then
    let used_pg := s32 (current_page (mem_ c) + proc_pg) in
    let need_protect := s32 (PGROUNDUP (min_mem (mem_ c)) / PGSIZE - used_pg) in
    if need_protect <=? 0 then s32 (protected_mem (mem_ c)) else s32 (protected_mem (mem_ c) - need_protect)
  else 0.
Definition calc_inc_src_protect_pg (i : nat) (c : cgroup) (proc_pg : Z) : Z :=
  if negb (bool_decide (i = cgroup_root)) && enabled Mem c then
    let used_pg := s32 (current_page (mem_ c) - proc_pg) in
    let need_protect := s32 (PGROUNDUP (min_mem (mem_ c)) / PGSIZE - used_pg) in
    if need_protect <=? 0 then 0 else s32 (need_protect - protected_mem (mem_ c))
  else 0.

Definition protect_memory (src dst : nat) (proc_size : Z) : M cgs result_code :=
  let proc_pg := Z.quot (PGROUNDUP_int proc_size) PGSIZE in
  d ← get_cg dst;
  c ← get_cg src;
  let dec := calc_dec_dst_protect_pg dst d proc_pg in
  let inc := calc_inc_src_protect_pg src c proc_pg in
  r ← onkh (increse_protect_counter (inc -i dec));
  if r =? 0 then
    modS (upd_cg dst (fun c => with_protected (protected_mem (mem_ c) -u dec) c)) ;;
    modS (upd_cg src (fun c => with_protected (protected_mem (mem_ c) +u inc) c)) ;;
    mret RESULT_SUCCESS
  else mret RESULT_ERROR.

(** The loop over the processes of a group: the first free slot, and whether the process is there.  The process is not
    looked for in the slot that is found free. *)
Fixpoint find_slot (ps : list (option nat)) (i : nat) (found : option nat) (p : nat) : bool * option nat :=
  match ps with
  | [] => (false, found)
  | x :: ps =>
      if bool_decide (found = None) && bool_decide (x = None) then find_slot ps (S i) (Some i) p
      else if decide (x = Some p) then (true, found) else find_slot ps (S i) found p
  end.

Definition unsafe_cgroup_insert (i p : nat) : M cgs result_code :=
  c ← get_cg i;
  x ← get_proc p;
  if enabled Pid c && (max_num_of_procs c <? num_of_procs c +i 1) then mret RESULT_ERROR
  else if enabled Mem c && (max_mem (mem_ c) <? current_mem (mem_ c) +u sz x) then mret RESULT_ERROR
  else
    match find_slot (proc c) 0 None p with
    | (true, _) => mret RESULT_SUCCESS
    | (false, None) => mret RESULT_ERROR
    | (false, Some index) =>
        r ← match p_cgroup x with
            | Some old =>
                r ← protect_memory old i (s32 (sz x));
                if decide (r = RESULT_SUCCESS) then unsafe_cgroup_erase old p ;; mret RESULT_SUCCESS else mret RESULT_ERROR
            | None => mret RESULT_SUCCESS
            end;
        if decide (r = RESULT_SUCCESS) then
          modS (upd_cg i (fun c => with_proc (<[index := Some p]> (proc c)) c)) ;;
          modS (upd_proc p (fun x => Cproc (sz x) (Some i))) ;;
          up (S NPROC) (enter (sz x)) (Some i) ;;
          mret RESULT_SUCCESS
        else mret RESULT_ERROR
    end.
Definition cgroup_insert (i p : nat) : M cgs result_code := locked_call (unsafe_cgroup_insert i p).

(** [for (i = 1; ...) if (cgroups[i].parent == cgroup) cgroups[i].<k>_controller_avalible = v;] *)
Definition set_children (k : controller) (i : nat) (v : bool) : M cgs unit :=
  modS (upd_all (fun j c => if negb (bool_decide (j = 0%nat)) && bool_decide (parent c = Some i) then with_avalible k v c else c)).

Definition child_enabled (k : controller) (i : nat) (t : list cgroup) : bool :=
  existsb (fun c => bool_decide (parent c = Some i) && enabled k c) (tl t).

(** The cpu, pid and cpu set controllers are switched by the same code. *)
Definition enable_controller (k : controller) (i : option nat) : M cgs result_code :=
  match i with
  | None => mret RESULT_ERROR
  | Some i =>
      c ← get_cg i;
      if populated c then mret RESULT_ERROR
      else if enabled k c then mret RESULT_SUCCESS
      else if avalible k c
      then modS (upd_cg i (with_enabled k true)) ;; set_children k i true ;; mret RESULT_SUCCESS
      else mret RESULT_SUCCESS
  end.
Definition disable_controller (k : controller) (i : option nat) : M cgs result_code :=
  match i with
  | None => mret RESULT_ERROR
  | Some i =>
      c ← get_cg i;
      if negb (enabled k c) then mret RESULT_SUCCESS
      else
        s ← getS;
        if child_enabled k i (cgroups s) then mret RESULT_ERROR
        else modS (upd_cg i (with_enabled k false)) ;; set_children k i false ;; mret RESULT_SUCCESS
  end.

Definition unsafe_enable_cpu_controller := enable_controller Cpu.
Definition enable_cpu_controller (i : option nat) : M cgs result_code := locked_call (unsafe_enable_cpu_controller i).
Definition unsafe_disable_cpu_controller := disable_controller Cpu.
Definition disable_cpu_controller (i : option nat) : M cgs result_code := locked_call (unsafe_disable_cpu_controller i).
Definition unsafe_enable_pid_controller := enable_controller Pid.
Definition enable_pid_controller (i : option nat) : M cgs result_code := locked_call (unsafe_enable_pid_controller i).
Definition unsafe_disable_pid_controller := disable_controller Pid.
Definition disable_pid_controller (i : option nat) : M cgs result_code := locked_call (unsafe_disable_pid_controller i).
Definition unsafe_enable_set_controller := enable_controller CpuSet.
Definition enable_set_controller (i : option nat) : M cgs result_code := locked_call (unsafe_enable_set_controller i).
Definition unsafe_disable_set_controller := disable_controller CpuSet.
Definition disable_set_controller (i : option nat) : M cgs result_code := locked_call (unsafe_disable_set_controller i).

Definition unsafe_enable_mem_controller (i : option nat) : M cgs result_code :=
  match i with
  | None => mret RESULT_ERROR
  | Some i =>
      c ← get_cg i;
      if populated c then mret RESULT_ERROR
      else if enabled Mem c then mret RESULT_SUCCESS
      else
        let protect := s32 (PGROUNDUP (min_mem (mem_ c)) / PGSIZE - current_page (mem_ c)) in
        r ← (if 0 <? protect then onkh (increse_protect_counter protect) else mret 0);
        if negb (r =? 0) then mret RESULT_ERROR
        else if avalible Mem c
        then modS (upd_cg i (with_enabled Mem true)) ;; set_children Mem i true ;; mret RESULT_SUCCESS
        else mret RESULT_SUCCESS
  end.
Definition unsafe_disable_mem_controller (i : option nat) : M cgs result_code :=
  match i with
  | None => mret RESULT_ERROR
  | Some i =>
      c ← get_cg i;
      if negb (enabled Mem c) then mret RESULT_SUCCESS
      else
        s ← getS;
        if child_enabled Mem i (cgroups s) then mret RESULT_ERROR
        else
          modS (upd_cg i (with_enabled Mem false)) ;;
          set_min_mem (Some i) 0 ;;
          set_max_mem (Some i) KERNBASE ;;
          set_children Mem i false ;;
          mret RESULT_SUCCESS
  end.
Definition enable_mem_controller (i : option nat) : M cgs result_code := locked_call (unsafe_enable_mem_controller i).
Definition disable_mem_controller (i : option nat) : M cgs result_code := locked_call (unsafe_disable_mem_controller i).

(** The names of the children are written every [MAX_CGROUP_FILE_NAME_LENGTH] bytes. *)
Fixpoint put_name (m : mem) (buf : Z) (s : list Z) : mem * Z :=
  match s with [] => (m, buf) | c :: s => put_name (st8 m buf c) (buf + 1) s end.
Fixpoint put_names (t : list cgroup) (ls : list cgroup) (path : list Z) (m : mem) (buf : Z) : option mem :=
  match ls with
  | [] => Some m
  | c :: ls =>
      if decide (cgroup_dir_path c = []) then put_names t ls path m buf
      else
        p ← parent c ≫= (fun i => t !! i);
        if decide (cgroup_dir_path p = path) then
          let child_name := drop (S (length path)) (cgroup_dir_path c) in
          let '(m, buf) := put_name m buf child_name in
          put_names t ls path m (buf + (MAX_CGROUP_FILE_NAME_LENGTH - Z.of_nat (length child_name)))
        else put_names t ls path m buf
  end.
Definition get_cgroup_names_at_path (m : mem) (buf : Z) (path : list Z) : M cgs mem :=
  if decide (path = []) then mret m else s ← getS; deref (put_names (cgroups s) (tl (cgroups s)) path m buf).

Fixpoint count_children (t ls : list cgroup) (path : list Z) (num : Z) : option Z :=
  match ls with
  | [] => Some num
  | c :: ls =>
      if decide (cgroup_dir_path c = []) then count_children t ls path num
      else
        p ← parent c ≫= (fun i => t !! i);
        count_children t ls path (if decide (cgroup_dir_path p = path) then num + 1 else num)
  end.
Definition cgorup_num_of_immidiate_children (i : nat) : M cgs Z :=
  c ← get_cg i;
  if decide (cgroup_dir_path c = []) then mret (-1)
  else s ← getS; deref (count_children (cgroups s) (cgroups s) (cgroup_dir_path c) 0).

Definition decrement_nr_dying_descendants (i : option nat) : M cgs unit :=
  up (S NPROC) (fun c => with_nr_dying_descendants (nr_dying_descendants c -u 1) c) i.

(** The statistics are kept of groups with processes, the root apart. *)
Definition on_stat (f : mem_acct -> mem_acct) (i : option nat) : M cgs unit :=
  match i with
  | None => mret tt
  | Some i =>
      if decide (i = cgroup_root) then mret tt
      else c ← get_cg i; if populated c then modS (upd_cg i (fun c => with_mem_ (f (mem_ c)) c)) else mret tt
  end.
Definition cgroup_mem_stat_file_dirty_incr := on_stat (fun m => with_mem_stat_file_dirty (mem_stat_file_dirty m +u 1) m).
Definition cgroup_mem_stat_file_dirty_decr := on_stat (fun m => with_mem_stat_file_dirty (mem_stat_file_dirty m -u 1) m).
Definition cgroup_mem_stat_file_dirty_aggregated_incr :=
  on_stat (fun m => with_mem_stat_file_dirty_aggregated (mem_stat_file_dirty_aggregated m +u 1) m).
Definition cgroup_mem_stat_pgfault_incr := on_stat (fun m => with_mem_stat_pgfault (mem_stat_pgfault m +u 1) m).
Definition cgroup_mem_stat_pgmajfault_incr := on_stat (fun m => with_mem_stat_pgmajfault (mem_stat_pgmajfault m +u 1) m).

(** The name of a device, "major:minor", in the zeroed local buffer at [buf]; the search for its end stays in the buffer. *)
Definition dev_id_to_name (m : mem) (maj min buf : Z) : option mem :=
  let m := (itoa m buf (s32 maj)).2 in
  len ← strlen (Z.to_nat DEVICE_NAME) m buf;
  let temp_ptr := buf + len in
  let m := st8 m temp_ptr 58 in
  Some (itoa m (temp_ptr + 1) (s32 min)).2.

Definition bytes_of (m : mem) (p : Z) (n : nat) : list Z := (fun i => m (p + i)) <$> seqZ 0 (Z.of_nat n).

Definition cgroup_add_io_device (i : option nat) (maj min : Z) : M cgs unit :=
  match i with
  | None => mret tt
  | Some i =>
      if decide (i = cgroup_root) then mret tt
      else
        c ← get_cg i;
        if populated c then
          if Z.of_nat NDEV <? used_devices c then panic "Can't add more IO devices to cgroup"
          else
            modS (upd_cg i (fun c => with_used_devices (used_devices c +u 1) c)) ;;
            m ← deref (dev_id_to_name (fun _ => 0) maj min 0);
            x ← deref (io_stats c !! 0%nat);
            modS (upd_cg i (fun c => with_io_stats
              (<[0%nat := IoStat (bytes_of m 0 (Z.to_nat DEVICE_NAME)) maj min (device_stats x)]> (io_stats c)) c))
        else mret tt
  end.

Definition remove_io (maj min : Z) (x : io_stat) : bool := (maj =? major x) && (min =? minor x).
Definition cgroup_remove_io_device (i : option nat) (maj min : Z) : M cgs unit :=
  match i with
  | None => mret tt
  | Some i =>
      if decide (i = cgroup_root) then mret tt
      else
        c ← get_cg i;
        if negb (populated c) then mret tt
        else if used_devices c =? 0 then panic "No available IO devices in cgroup to remove"
        else modS (upd_cg i (fun c =>
          with_used_devices (u32 (used_devices c - Z.of_nat (count (remove_io maj min) (io_stats c))))
            (with_io_stats ((fun x => if remove_io maj min x then no_io else x) <$> io_stats c) c)))
  end.
End cgroup.
