(* ===== verification/CgroupTree.v ===== *)
(** * The tree of control groups: counters, membership and controllers

    Invariants of the table of [Cgroup].  A group is live when it has a path,
    and the root always is; a group without a path is dead, even while open
    files still refer to it.  [descendants] and [members] are the reference for
    the counters the code keeps in every ancestor. *)

From S2P Require Import Prelude Kstring Klib Kalloc Cpath Cgroup.

(** ** Sums over the slots of the table *)

Definition total (f : nat -> nat) : nat := sum_list (f <$> seq 0 NPROC).

Lemma sum_seq_S (f : nat -> nat) a n : sum_list (f <$> seq a (S n)) = (f a + sum_list (f <$> seq (S a) n))%nat.
Proof. done. Qed.

Lemma sum_seq_ext (f g : nat -> nat) a n : (forall j, (a <= j < a + n)%nat -> f j = g j) ->
  sum_list (f <$> seq a n) = sum_list (g <$> seq a n).
Proof.
  revert a. induction n as [|n IH]; intros a H; [done|].
  rewrite !sum_seq_S, (H a), (IH (S a)); [done|intros; apply H; lia|lia].
Qed.

Lemma total_ext f g : (forall j, (j < NPROC)%nat -> f j = g j) -> total f = total g.
Proof. intros H. apply sum_seq_ext. intros j Hj. apply H. lia. Qed.

Lemma sum_seq_change (f g : nat -> nat) k a n : (forall j, j <> k -> f j = g j) -> (a <= k < a + n)%nat ->
  (sum_list (g <$> seq a n) + f k = sum_list (f <$> seq a n) + g k)%nat.
Proof.
  intros H. revert a. induction n as [|n IH]; intros a Hk; [lia|]. rewrite !sum_seq_S. destruct (decide (a = k)) as [->|Hne].
  - rewrite (sum_seq_ext g f) by (intros j Hj; symmetry; apply H; lia). lia.
  - rewrite (H a Hne). specialize (IH (S a) ltac:(lia)). lia.
Qed.

Lemma total_change f g k : (forall j, j <> k -> f j = g j) -> (k < NPROC)%nat -> (total g + f k = total f + g k)%nat.
Proof. intros H Hk. apply sum_seq_change; [done|lia]. Qed.

Lemma total_zero f k : total f = 0%nat -> (k < NPROC)%nat -> f k = 0%nat.
Proof.
  intros H Hk. pose proof (total_change f (fun j => if decide (j = k) then 0%nat else f j) k) as Hc.
  cbv beta in Hc. rewrite decide_True in Hc by done.
  enough (total (fun j => if decide (j = k) then 0%nat else f j) + f k = total f + 0)%nat by lia.
  apply Hc; [|done]. intros j Hj. by case_decide.
Qed.

(** ** Ancestors *)

Definition is_live (t : list cgroup) (i : nat) : bool :=
  match t !! i with Some c => bool_decide (i = 0%nat) || negb (bool_decide (cgroup_dir_path c = [])) | None => false end.

(** The group and its ancestors, nearest first. *)
Fixpoint ancestors (fuel : nat) (t : list cgroup) (i : nat) : list nat :=
  match fuel with
  | O => []
  | S fuel => i :: match t !! i ≫= parent with Some p => ancestors fuel t p | None => [] end
  end.

Inductive chain (t : list cgroup) : nat -> list nat -> Prop :=
| chain_root i c : t !! i = Some c -> parent c = None -> chain t i [i]
| chain_up i c p l : t !! i = Some c -> parent c = Some p -> chain t p l -> chain t i (i :: l).

Definition below (t : list cgroup) (i j : nat) : bool := is_live t j && bool_decide (i ∈ ancestors (S NPROC) t j).
Definition nprocs (t : list cgroup) (j : nat) : nat :=
  match t !! j with Some c => count (fun x => bool_decide (x <> None)) (proc c) | None => 0%nat end.

(** Live groups strictly below [i], and processes in [i] and below. *)
Definition descendants (t : list cgroup) (i : nat) : nat :=
  total (fun j => if below t i j && negb (bool_decide (j = i)) then 1%nat else 0%nat).
Definition members (t : list cgroup) (i : nat) : nat := total (fun j => if below t i j then nprocs t j else 0%nat).

Record tree_ok (t : list cgroup) : Prop := {
  to_len : length t = NPROC;
  to_root : exists r, t !! 0%nat = Some r /\ parent r = None /\ depth r = 0;
  to_parent : forall i c, t !! i = Some c -> i <> 0%nat -> is_live t i = true ->
    exists j p, parent c = Some j /\ t !! j = Some p /\ is_live t j = true /\ depth c = depth p + 1;
  to_depth : forall i c, t !! i = Some c -> is_live t i = true -> 0 <= depth c;
  to_desc : forall i c, t !! i = Some c -> is_live t i = true -> nr_descendants c = Z.of_nat (descendants t i);
  to_procs : forall i c, t !! i = Some c -> is_live t i = true ->
    num_of_procs c = Z.of_nat (members t i) /\ populated c = negb (bool_decide (members t i = 0%nat));
  to_plen : forall i c, t !! i = Some c -> length (proc c) = NPROC;
  to_dead : forall i c, t !! i = Some c -> is_live t i = false -> nprocs t i = 0%nat
}.

(** Two tables with the same tree: the same groups live, with the same parents. *)
Definition same_shape (t t' : list cgroup) : Prop :=
  length t' = length t /\ forall i c', t' !! i = Some c' -> exists c, t !! i = Some c /\
    parent c' = parent c /\ depth c' = depth c /\ (i = 0%nat \/ (cgroup_dir_path c' = [] <-> cgroup_dir_path c = [])).
Definition same_procs (t t' : list cgroup) : Prop := forall i c c', t !! i = Some c -> t' !! i = Some c' -> proc c' = proc c.

Lemma same_shape_fwd t t' i c : same_shape t t' -> t !! i = Some c -> exists c', t' !! i = Some c' /\
  parent c' = parent c /\ depth c' = depth c /\ (i = 0%nat \/ (cgroup_dir_path c' = [] <-> cgroup_dir_path c = [])).
Proof.
  intros [Hl H] Hc. destruct (lookup_lt_is_Some_2 t' i) as [c' Hc']; [rewrite Hl; by eapply lookup_lt_Some|].
  exists c'. split; [done|]. destruct (H i c' Hc') as (c0 & E & ?). assert (c0 = c) as -> by congruence. done.
Qed.

Lemma lookup_none_len {A B} (l : list A) (l' : list B) i : length l' = length l -> l !! i = None -> l' !! i = None.
Proof. intros E H. apply lookup_ge_None in H. apply lookup_ge_None. lia. Qed.

Lemma is_live_same t t' i : same_shape t t' -> is_live t' i = is_live t i.
Proof.
  intros Hs. unfold is_live. destruct (t !! i) as [c|] eqn:E.
  - destruct (same_shape_fwd t t' i c Hs E) as (c' & -> & _ & _ & [->|Hp]); [done|]. f_equal. f_equal. by apply bool_decide_ext.
  - by rewrite (lookup_none_len t t' i (proj1 Hs) E).
Qed.

Lemma ancestors_same t t' fuel : (forall i, t' !! i ≫= parent = t !! i ≫= parent) -> forall i, ancestors fuel t' i = ancestors fuel t i.
Proof. intros H. induction fuel as [|fuel IH]; intros i; [done|]. cbn. rewrite H. destruct (t !! i ≫= parent); [by rewrite IH|done]. Qed.

Lemma parent_same t t' i : same_shape t t' -> t' !! i ≫= parent = t !! i ≫= parent.
Proof.
  intros Hs. destruct (t !! i) as [c|] eqn:E.
  - destruct (same_shape_fwd t t' i c Hs E) as (c' & -> & Hp & _). done.
  - by rewrite (lookup_none_len t t' i (proj1 Hs) E).
Qed.

Lemma below_same t t' i j : same_shape t t' -> below t' i j = below t i j.
Proof.
  intros Hs. unfold below. rewrite (is_live_same t t') by done. by rewrite (ancestors_same t t') by (intros; by apply parent_same).
Qed.

Lemma nprocs_same t t' j : same_shape t t' -> (forall c c', t !! j = Some c -> t' !! j = Some c' -> proc c' = proc c) -> nprocs t' j = nprocs t j.
Proof.
  intros Hs Hp. unfold nprocs. destruct (t !! j) as [c|] eqn:E.
  - destruct (same_shape_fwd t t' j c Hs E) as (c' & E' & _). rewrite E', (Hp c c') by done. done.
  - by rewrite (lookup_none_len t t' j (proj1 Hs) E).
Qed.

Lemma descendants_same t t' i : same_shape t t' -> descendants t' i = descendants t i.
Proof. intros Hs. apply total_ext. intros j _. by rewrite (below_same t t'). Qed.

Lemma members_same t t' i : same_shape t t' -> same_procs t t' -> members t' i = members t i.
Proof. intros Hs Hp. apply total_ext. intros j _. by rewrite (below_same t t'), (nprocs_same t t' j Hs (Hp j)). Qed.

(** The part of the invariant that only looks at the shape. *)
Lemma shape_ok t t' : tree_ok t -> same_shape t t' -> length t' = NPROC /\
  (exists r, t' !! 0%nat = Some r /\ parent r = None /\ depth r = 0) /\
  (forall i c, t' !! i = Some c -> i <> 0%nat -> is_live t' i = true ->
    exists j p, parent c = Some j /\ t' !! j = Some p /\ is_live t' j = true /\ depth c = depth p + 1) /\
  (forall i c, t' !! i = Some c -> is_live t' i = true -> 0 <= depth c).
Proof.
  intros [H1 (r & R1 & R2 & R3) H3 H4 _ _ _ _] Hs. split; [by rewrite (proj1 Hs)|]. split; [|split].
  - destruct (same_shape_fwd t t' 0 r Hs R1) as (r' & ? & ? & ? & _). exists r'. split_and!; congruence.
  - intros i c' Hc' Hi Hl. destruct (proj2 Hs i c' Hc') as (c & E & Ep & Ed & _). rewrite (is_live_same t t') in Hl by done.
    destruct (H3 i c E Hi Hl) as (j & p & Hp & Hj & Hlj & Hd). destruct (same_shape_fwd t t' j p Hs Hj) as (p' & Hj' & _ & Ed' & _).
    exists j, p'. rewrite (is_live_same t t') by done. split_and!; congruence.
  - intros i c' Hc' Hl. destruct (proj2 Hs i c' Hc') as (c & E & _ & -> & _). rewrite (is_live_same t t') in Hl by done. by apply (H4 i).
Qed.

(** A change outside the tree and its counters. *)
Lemma tree_ok_frame t t' : tree_ok t -> same_shape t t' -> same_procs t t' ->
  (forall i c c', t !! i = Some c -> t' !! i = Some c' -> is_live t i = true ->
    nr_descendants c' = nr_descendants c /\ num_of_procs c' = num_of_procs c /\ populated c' = populated c) ->
  tree_ok t'.
Proof.
  intros Ht Hs Hpr Hc. destruct (shape_ok t t' Ht Hs) as (S1 & S2 & S3 & S4). pose proof Ht as [_ _ _ _ H5 H6 H7 H8].
  split; try done; intros i c' Hc'; destruct (proj2 Hs i c' Hc') as (c & E & _).
  - intros Hl. rewrite (is_live_same t t') in Hl by done.
    destruct (Hc i c c' E Hc' Hl) as (-> & _). rewrite (descendants_same t t') by done. by apply H5.
  - intros Hl. rewrite (is_live_same t t') in Hl by done.
    destruct (Hc i c c' E Hc' Hl) as (_ & -> & ->). rewrite (members_same t t') by done. by apply H6.
  - rewrite (Hpr i c c') by done. by apply (H7 i).
  - intros Hl. rewrite (is_live_same t t') in Hl by done. rewrite (nprocs_same t t' i Hs (Hpr i)). by apply (H8 i c).
Qed.

(** ** Chains of ancestors *)

Lemma chain_ancestors t i l : chain t i l -> forall fuel, (length l <= fuel)%nat -> ancestors fuel t i = l.
Proof.
  induction 1 as [i c Hc Hp|i c p l Hc Hp _ IH]; intros [|fuel] Hf; simpl in Hf; try lia; cbn [ancestors]; rewrite Hc; simpl; rewrite Hp.
  - done.
  - by rewrite IH by lia.
Qed.

Lemma chain_first t i l : chain t i l -> exists l', l = i :: l'.
Proof. destruct 1; eauto. Qed.

(** The chain of a live group: all its elements are live, of smaller depth than those before them. *)
Lemma live_chain t : tree_ok t -> forall n i c, t !! i = Some c -> is_live t i = true -> (Z.to_nat (depth c) < n)%nat ->
  exists l, chain t i l /\ NoDup l /\
    Forall (fun j => exists c', t !! j = Some c' /\ is_live t j = true /\ depth c' <= depth c /\ (j <> i -> depth c' < depth c)) l.
Proof.
  intros Ht. induction n as [|n IH]; intros i c Hc Hl Hn; [lia|]. destruct (decide (i = 0%nat)) as [->|Hi].
  - destruct (to_root _ Ht) as (r & R1 & R2 & R3). assert (r = c) as -> by congruence.
    exists [0%nat]. split; [by eapply chain_root|]. split; [apply NoDup_singleton|]. constructor; [|constructor]. exists c. split_and!; done || lia.
  - destruct (to_parent _ Ht i c Hc Hi Hl) as (j & p & Hp & Hj & Hlj & Hd). pose proof (to_depth _ Ht j p Hj Hlj) as Hdp.
    destruct (IH j p Hj Hlj) as (l & Hch & Hnd & Hf); [lia|]. exists (i :: l). split; [by eapply chain_up|].
    assert (Forall (fun j0 => exists c', t !! j0 = Some c' /\ is_live t j0 = true /\ depth c' < depth c) l) as Hf'.
    { apply (Forall_impl _ _ _ Hf). intros k (c' & ? & ? & ? & _). exists c'. split_and!; done || lia. }
    split.
    + apply NoDup_cons. split; [|done]. intros Hin. rewrite Forall_forall in Hf'. destruct (Hf' i Hin) as (c' & ? & _ & ?).
      assert (c' = c) as -> by congruence. lia.
    + constructor; [exists c; split_and!; done || lia|]. apply (Forall_impl _ _ _ Hf').
      intros k (c' & ? & ? & ?). exists c'. split_and!; done || lia.
Qed.

Lemma live_ancestors t i : tree_ok t -> is_live t i = true ->
  exists l, chain t i l /\ ancestors (S NPROC) t i = l /\ NoDup l /\ (length l <= NPROC)%nat /\ Forall (fun j => is_live t j = true) l.
Proof.
  intros Ht Hl. assert (exists c, t !! i = Some c) as [c Hc] by (unfold is_live in Hl; case_match; [by eexists|done]).
  destruct (live_chain t Ht _ i c Hc Hl (Nat.lt_succ_diag_r _)) as (l & Hch & Hnd & Hf).
  assert (length l <= NPROC)%nat as Hlen.
  { rewrite <- (to_len _ Ht), <- (length_seq (length t) 0). apply submseteq_length, NoDup_submseteq; [done|].
    intros j Hj. rewrite Forall_forall in Hf. destruct (Hf j Hj) as (c' & Hj' & _). apply elem_of_seq.
    apply lookup_lt_Some in Hj'. lia. }
  exists l. split; [done|]. split; [by apply (chain_ancestors t i l Hch); lia|]. split; [done|]. split; [done|].
  apply (Forall_impl _ _ _ Hf). by intros j (c' & _ & ? & _).
Qed.

Lemma below_self t i : is_live t i = true -> below t i i = true.
Proof. intros H. unfold below. rewrite H. apply bool_decide_eq_true. by left. Qed.

Lemma below_live t i j : below t i j = true -> is_live t j = true.
Proof. unfold below. by intros [? _]%andb_prop. Qed.

(** [up] changes exactly the group and its ancestors. *)
Lemma upd_all_one i f s : upd_cg i f s = upd_all (fun j c => if decide (j ∈ [i]) then f c else c) s.
Proof.
  unfold upd_cg, upd_all. f_equal. apply list_eq. intros j. rewrite list_lookup_imap, list_lookup_alter.
  case_decide as E.
  - subst. destruct (cgroups s !! j); [|done]. simpl. rewrite decide_True by (by left). done.
  - destruct (cgroups s !! j); [|done]. simpl. rewrite decide_False by (rewrite list_elem_of_singleton; congruence). done.
Qed.

Lemma upd_all_twice f g s : upd_all g (upd_all f s) = upd_all (fun j c => g j (f j c)) s.
Proof.
  unfold upd_all. simpl. f_equal. apply list_eq. intros j. rewrite !list_lookup_imap. by destruct (cgroups s !! j).
Qed.

Lemma upd_all_ext f g s : (forall j c, cgroups s !! j = Some c -> f j c = g j c) -> upd_all f s = upd_all g s.
Proof.
  intros H. unfold upd_all. f_equal. apply list_eq. intros j. rewrite !list_lookup_imap.
  destruct (cgroups s !! j) eqn:E; [|done]. simpl. by rewrite H.
Qed.

Lemma chain_same t t' i l : (forall i c, t !! i = Some c -> exists c', t' !! i = Some c' /\ parent c' = parent c) ->
  chain t i l -> chain t' i l.
Proof.
  intros H. induction 1 as [i c Hc Hp|i c p l Hc Hp _ IH]; destruct (H i c Hc) as (c' & Hc' & Ep).
  - apply (chain_root _ i c'); congruence.
  - apply (chain_up _ i c' p); congruence || done.
Qed.

Lemma up_run f l : (forall c, parent (f c) = parent c) -> forall s i fuel, chain (cgroups s) i l -> NoDup l -> (length l <= fuel)%nat ->
  up fuel f (Some i) s = inr (tt, upd_all (fun j c => if decide (j ∈ l) then f c else c) s).
Proof.
  intros Hf. induction l as [|k l IH]; intros s i fuel Hch Hnd Hfu; [inversion Hch|].
  destruct (chain_first _ _ _ Hch) as [l' [= -> ->]]. apply NoDup_cons in Hnd as [Hni Hnd].
  destruct fuel as [|fuel]; simpl in Hfu; [lia|]. cbn [up].
  assert (exists c, cgroups s !! i = Some c) as [c Hc] by (inversion Hch; eauto).
  assert (get_cg i s = inr (c, s)) as Eg by (unfold get_cg; mrun; by rewrite Hc).
  rewrite (bind_run _ _ _ _ _ Eg). rewrite (bind_run _ _ _ tt (upd_cg i f s)) by done.
  inversion Hch as [? c' Hc' Hp|? c' p ? Hc' Hp Hch']; subst; assert (c' = c) as -> by congruence; rewrite Hp.
  - destruct fuel; cbn [up]; mrun; by rewrite upd_all_one.
  - rewrite IH; [|eapply chain_same; [|exact Hch']|done|lia].
    + f_equal. f_equal. rewrite upd_all_one, upd_all_twice. apply upd_all_ext. intros j cj _.
      destruct (decide (j = i)) as [->|Hji].
      * rewrite (decide_True (P := i ∈ [i])) by (by left). rewrite decide_False by done. rewrite decide_True by (by left). done.
      * rewrite (decide_False (P := j ∈ [i])) by (rewrite list_elem_of_singleton; done).
        destruct (decide (j ∈ l')); [rewrite decide_True by (by right)|rewrite decide_False by (rewrite not_elem_of_cons; done)]; done.
    + intros j cj Hj. unfold upd_cg. simpl. rewrite list_lookup_alter. case_decide; subst; rewrite Hj; simpl; eauto.
Qed.

(** ** Processes join and leave *)

Lemma members_change t t' i a : same_shape t t' -> (i < NPROC)%nat ->
  (forall j c c', j <> i -> t !! j = Some c -> t' !! j = Some c' -> proc c' = proc c) ->
  (members t' a + (if below t a i then nprocs t i else 0) = members t a + (if below t a i then nprocs t' i else 0))%nat.
Proof.
  intros Hs Hi Hp.
  pose proof (total_change (fun j => if below t a j then nprocs t j else 0%nat) (fun j => if below t' a j then nprocs t' j else 0%nat) i) as H.
  cbv beta in H. rewrite (below_same t t' a i Hs) in H. apply H; [|done]. intros j Hj. rewrite (below_same t t' a j Hs).
  by rewrite (nprocs_same t t' j Hs) by (intros c c'; by apply Hp).
Qed.

Lemma below_chain t i l a : chain t i l -> (length l <= NPROC)%nat -> is_live t i = true -> below t a i = bool_decide (a ∈ l).
Proof. intros Hc Hl Hi. unfold below. by rewrite Hi, (chain_ancestors t i l Hc) by lia. Qed.

(** The processes of the live group [i] change by [n], and the counters of its ancestors follow. *)
Lemma tree_ok_procs t t' i l n : tree_ok t -> is_live t i = true -> chain t i l -> (length l <= NPROC)%nat -> same_shape t t' ->
  (forall j c c', t !! j = Some c -> t' !! j = Some c' ->
     (j <> i -> proc c' = proc c) /\ length (proc c') = length (proc c) /\ nr_descendants c' = nr_descendants c /\
     num_of_procs c' = (if decide (j ∈ l) then num_of_procs c + n else num_of_procs c) /\
     populated c' = (if decide (j ∈ l) then negb (num_of_procs c' =? 0) else populated c)) ->
  Z.of_nat (nprocs t' i) = Z.of_nat (nprocs t i) + n -> tree_ok t'.
Proof.
  intros Ht Hli Hch Hlen Hs Hj Hn. destruct (shape_ok t t' Ht Hs) as (S1 & S2 & S3 & S4). pose proof Ht as [H1 _ _ _ H5 H6 H7 H8].
  assert (i < NPROC)%nat as Hi.
  { unfold is_live in Hli. destruct (t !! i) eqn:E; [|done]. apply lookup_lt_Some in E. lia. }
  split; try done; intros j c' Hc'; destruct (proj2 Hs j c' Hc') as (c & E & _); destruct (Hj j c c' E Hc') as (P1 & P2 & P3 & P4 & P5).
  - intros Hl. rewrite (is_live_same t t') in Hl by done. rewrite P3, (descendants_same t t') by done. by apply H5.
  - intros Hl. rewrite (is_live_same t t') in Hl by done. destruct (H6 j c E Hl) as [Hnum Hpop].
    pose proof (members_change t t' i j Hs Hi ltac:(intros j' c1 c1' Hj' E1 E1'; by apply (Hj j' c1 c1'))) as Hm.
    rewrite (below_chain t i l j Hch Hlen Hli) in Hm. case_bool_decide as Hin.
    + rewrite decide_True in P4 by done. rewrite decide_True in P5 by done. split; [lia|]. clear Hpop. rewrite P5, P4. f_equal. rewrite Hnum.
      case_bool_decide; [apply Z.eqb_eq; lia|apply Z.eqb_neq; lia].
    + rewrite decide_False in P4 by done. rewrite decide_False in P5 by done. assert (members t' j = members t j) as -> by lia. by rewrite P4, P5.
  - rewrite P2. by apply (H7 j).
  - intros Hl. rewrite (is_live_same t t') in Hl by done. rewrite (nprocs_same t t' j Hs); [by apply (H8 j c)|].
    intros c1 c1' E1 E1'. apply (Hj j c1 c1'); try done. intros ->. congruence.
Qed.

Lemma members_bound t i : tree_ok t -> (members t i <= NPROC * NPROC)%nat.
Proof.
  intros Ht. unfold members, total. assert (forall a n, (sum_list ((fun j => if below t i j then nprocs t j else 0%nat) <$> seq a n) <= NPROC * n)%nat) as H.
  { intros a n. revert a. induction n as [|n IH]; intros a; [done|]. rewrite sum_seq_S. specialize (IH (S a)).
    assert (nprocs t a <= NPROC)%nat; [|destruct (below t i a); lia].
    unfold nprocs. destruct (t !! a) as [c|] eqn:E; [|lia]. rewrite <- (to_plen _ Ht a c E). apply count_le_length. }
  apply H.
Qed.

(** ** The invariant of the table with its processes *)

Record cg_ok (s : cgs) : Prop := {
  ok_tree : tree_ok (cgroups s);
  ok_member : forall i c k p, cgroups s !! i = Some c -> proc c !! k = Some (Some p) ->
    exists x, ptab s !! p = Some x /\ p_cgroup x = Some i;
  ok_unique : forall i c k k' p, cgroups s !! i = Some c -> proc c !! k = Some (Some p) -> proc c !! k' = Some (Some p) -> k = k';
  ok_group : forall p x i, ptab s !! p = Some x -> p_cgroup x = Some i ->
    i = 0%nat \/ exists c k, cgroups s !! i = Some c /\ proc c !! k = Some (Some p);
  ok_enabled : forall i c k, cgroups s !! i = Some c -> is_live (cgroups s) i = true -> enabled k c = true -> avalible k c = true;
  ok_avalible : forall i c j p k, cgroups s !! i = Some c -> i <> 0%nat -> is_live (cgroups s) i = true ->
    parent c = Some j -> cgroups s !! j = Some p -> k <> CpuSet \/ j <> 0%nat -> avalible k c = enabled k p
}.

(** The fields of a group that the tree, the paths and the controllers are made of. *)
Definition frame_of (c : cgroup) := (cgroup_dir_path c, ref_count c, parent c, ctl c, depth c, nr_descendants c).

Lemma leave_frame n c : frame_of (leave n c) = frame_of c /\ proc (leave n c) = proc c /\
  num_of_procs (leave n c) = num_of_procs c -i 1 /\
  populated (leave n c) = if num_of_procs c -i 1 =? 0 then false else populated c.
Proof. unfold leave. cbv zeta. cbn [num_of_procs with_mem_ with_num_of_procs]. case_match; done. Qed.

Lemma enter_frame n c : frame_of (enter n c) = frame_of c /\ proc (enter n c) = proc c /\
  num_of_procs (enter n c) = num_of_procs c +i 1 /\ populated (enter n c) = true.
Proof. done. Qed.

Lemma frame_fields c c' : frame_of c' = frame_of c -> cgroup_dir_path c' = cgroup_dir_path c /\ ref_count c' = ref_count c /\
  parent c' = parent c /\ ctl c' = ctl c /\ depth c' = depth c /\ nr_descendants c' = nr_descendants c.
Proof. unfold frame_of. intros [= -> -> -> -> -> ->]. done. Qed.

Lemma ctl_flags c c' k : ctl c' = ctl c -> enabled k c' = enabled k c /\ avalible k c' = avalible k c.
Proof. unfold enabled, avalible. intros ->. done. Qed.

(** Tables that differ in processes and counters only. *)
Definition framed (t t' : list cgroup) : Prop :=
  length t' = length t /\ forall j c', t' !! j = Some c' -> exists c, t !! j = Some c /\ frame_of c' = frame_of c.

Lemma framed_shape t t' : framed t t' -> same_shape t t'.
Proof.
  intros [Hl H]. split; [done|]. intros i c' Hc'. destruct (H i c' Hc') as (c & E & Hf). exists c.
  apply frame_fields in Hf as (-> & _ & -> & _ & -> & _). split_and!; try done. by right.
Qed.

Lemma framed_fwd t t' j c : framed t t' -> t !! j = Some c -> exists c', t' !! j = Some c' /\ frame_of c' = frame_of c.
Proof.
  intros [Hl H] Hc. destruct (lookup_lt_is_Some_2 t' j) as [c' Hc']; [rewrite Hl; by eapply lookup_lt_Some|].
  exists c'. split; [done|]. destruct (H j c' Hc') as (c0 & E & ?). assert (c0 = c) as -> by congruence. done.
Qed.

Lemma framed_ctl s s' : cg_ok s -> framed (cgroups s) (cgroups s') ->
  (forall i c k, cgroups s' !! i = Some c -> is_live (cgroups s') i = true -> enabled k c = true -> avalible k c = true) /\
  (forall i c j p k, cgroups s' !! i = Some c -> i <> 0%nat -> is_live (cgroups s') i = true ->
    parent c = Some j -> cgroups s' !! j = Some p -> k <> CpuSet \/ j <> 0%nat -> avalible k c = enabled k p).
Proof.
  intros Hok Hf. split.
  - intros i c' k Hc' Hl. destruct (proj2 Hf i c' Hc') as (c & E & (_ & _ & _ & Hc & _)%frame_fields).
    rewrite (is_live_same _ _ _ (framed_shape _ _ Hf)) in Hl. destruct (ctl_flags c c' k Hc) as [-> ->]. by apply (ok_enabled _ Hok i).
  - intros i c' j p' k Hc' Hi Hl Hp Hp' Hk. destruct (proj2 Hf i c' Hc') as (c & E & (_ & _ & Ep & Hc & _)%frame_fields).
    destruct (proj2 Hf j p' Hp') as (p & E' & (_ & _ & _ & Hcp & _)%frame_fields).
    rewrite (is_live_same _ _ _ (framed_shape _ _ Hf)) in Hl. destruct (ctl_flags c c' k Hc) as [_ ->], (ctl_flags p p' k Hcp) as [-> _].
    apply (ok_avalible _ Hok i c j p); congruence.
Qed.

Definition drop_proc (p : nat) (x : option nat) : option nat := if decide (x = Some p) then None else x.

Lemma drop_proc_insert p (l : list (option nat)) k : l !! k = Some (Some p) -> (forall k', l !! k' = Some (Some p) -> k' = k) ->
  <[k := None]> l = drop_proc p <$> l.
Proof.
  intros Hk Hu. apply list_eq. intros j. rewrite list_lookup_fmap. destruct (decide (j = k)) as [->|Hne].
  - rewrite list_lookup_insert_eq by (by eapply lookup_lt_Some). rewrite Hk. simpl. unfold drop_proc. by rewrite decide_True.
  - rewrite list_lookup_insert_ne by done. destruct (l !! j) as [x|] eqn:E; [|done]. simpl. unfold drop_proc.
    rewrite decide_False; [done|]. intros ->. by destruct (Hne (Hu j E)).
Qed.

Lemma drop_proc_none p (l : list (option nat)) : (forall k, l !! k <> Some (Some p)) -> drop_proc p <$> l = l.
Proof.
  intros H. apply list_eq. intros j. rewrite list_lookup_fmap. destruct (l !! j) as [x|] eqn:E; [|done]. simpl. unfold drop_proc.
  rewrite decide_False; [done|]. intros ->. by apply (H j).
Qed.

(** What erasing process [p] leaves. *)
Definition erased (p : nat) (x : cproc) (s s' : cgs) : Prop :=
  framed (cgroups s) (cgroups s') /\ cg_locked s' = cg_locked s /\ kh s' = kh s /\
  (forall j c c', cgroups s !! j = Some c -> cgroups s' !! j = Some c' -> proc c' = drop_proc p <$> proc c) /\
  (exists x', ptab s' !! p = Some x' /\ sz x' = sz x /\ p_cgroup x' = Some 0%nat) /\
  (forall q, q <> p -> ptab s' !! q = ptab s !! q).

Lemma live_in s i : cg_ok s -> is_live (cgroups s) i = true -> exists c, cgroups s !! i = Some c /\ (i < NPROC)%nat.
Proof.
  intros Hok H. unfold is_live in H. destruct (cgroups s !! i) as [c|] eqn:E; [|done]. exists c. split; [done|].
  rewrite <- (to_len _ (ok_tree _ Hok)). by eapply lookup_lt_Some.
Qed.

Lemma get_cg_run s i c : cgroups s !! i = Some c -> get_cg i s = inr (c, s).
Proof. intros H. unfold get_cg. mrun. by rewrite H. Qed.

Lemma get_proc_run s p x : ptab s !! p = Some x -> get_proc p s = inr (x, s).
Proof. intros H. unfold get_proc. mrun. by rewrite H. Qed.

(** The live group a process refers to. *)
Lemma p_cgroup_live s p x i : cg_ok s -> ptab s !! p = Some x -> p_cgroup x = Some i -> is_live (cgroups s) i = true.
Proof.
  intros Hok Hx Hi. destruct (ok_group _ Hok p x i Hx Hi) as [->|(c & k & Hc & Hk)].
  - destruct (to_root _ (ok_tree _ Hok)) as (r & Hr & _). unfold is_live. by rewrite Hr.
  - destruct (is_live (cgroups s) i) eqn:El; [done|]. pose proof (to_dead _ (ok_tree _ Hok) i c Hc El) as Hz.
    unfold nprocs in Hz. rewrite Hc in Hz. exfalso.
    pose proof (count_insert (fun x => bool_decide (x <> None)) (proc c) k (Some p) None Hk) as H.
    cbv beta in H. rewrite bool_decide_eq_true_2 in H by done. rewrite bool_decide_eq_false_2 in H by (intros []; done). lia.
Qed.

(** One process slot of a live group changes and its chain of ancestors is brought up to date with [f]. *)
Definition moved (i : nat) (ps : list (option nat)) (f : cgroup -> cgroup) (l : list nat) (j : nat) (c : cgroup) : cgroup :=
  let c := if decide (j = i) then with_proc ps c else c in if decide (j ∈ l) then f c else c.

Lemma moved_run s i c ps f : tree_ok (cgroups s) -> cgroups s !! i = Some c -> is_live (cgroups s) i = true ->
  (forall c, parent (f c) = parent c) ->
  exists l, chain (cgroups s) i l /\ (length l <= NPROC)%nat /\ NoDup l /\
    up (S NPROC) f (Some i) (upd_cg i (with_proc ps) s) = inr (tt, upd_all (moved i ps f l) s).
Proof.
  intros Hok Hc Hl Hf. destruct (live_ancestors _ i Hok Hl) as (l & Hch & _ & Hnd & Hlen & _).
  exists l. split; [done|]. split; [done|]. split; [done|].
  rewrite (up_run f l Hf); [|eapply chain_same; [|exact Hch]|done|lia].
  - rewrite upd_all_one, upd_all_twice. f_equal. f_equal. apply upd_all_ext. intros j cj _. unfold moved.
    destruct (decide (j = i)) as [->|Hne].
    + by rewrite (decide_True (P := i ∈ [i])) by (by left).
    + by rewrite (decide_False (P := j ∈ [i])) by (by rewrite list_elem_of_singleton).
  - intros j cj Hj. unfold upd_cg. simpl. rewrite list_lookup_alter. case_decide; subst; rewrite Hj; simpl; eauto.
Qed.

Lemma upd_cg_ext i c f g s : cgroups s !! i = Some c -> f c = g c -> upd_cg i f s = upd_cg i g s.
Proof.
  intros Hc E. unfold upd_cg. f_equal. apply list_eq. intros j. rewrite !list_lookup_alter. case_decide; [|done].
  subst. rewrite Hc. simpl. by rewrite E.
Qed.

Lemma lookup_upd_all f s j : cgroups (upd_all f s) !! j = f j <$> cgroups s !! j.
Proof. unfold upd_all. simpl. apply list_lookup_imap. Qed.

Lemma moved_framed i ps f l s : (forall c, frame_of (f c) = frame_of c) -> framed (cgroups s) (cgroups (upd_all (moved i ps f l) s)).
Proof.
  intros Hf. split; [unfold upd_all; simpl; apply length_imap|]. intros j c'. rewrite lookup_upd_all.
  destruct (cgroups s !! j) as [c|]; simpl; [|done]. intros [= <-]. exists c. split; [done|]. unfold moved.
  repeat case_decide; rewrite ?Hf; done.
Qed.

(** The tree after such a change of one slot from [y] to [z]. *)
Lemma moved_tree t s' i c k y z f l : tree_ok t -> t !! i = Some c -> is_live t i = true -> chain t i l -> (length l <= NPROC)%nat ->
  cgroups s' = imap (moved i (<[k := z]> (proc c)) f l) t -> proc c !! k = Some y ->
  let n := (if bool_decide (z <> None) then 1 else 0) - (if bool_decide (y <> None) then 1 else 0) in
  (forall c, frame_of (f c) = frame_of c /\ proc (f c) = proc c) ->
  (forall j c c0, t !! j = Some c -> j ∈ l -> num_of_procs c0 = num_of_procs c -> populated c0 = populated c ->
    num_of_procs (f c0) = num_of_procs c + n /\ populated (f c0) = negb (num_of_procs (f c0) =? 0)) ->
  tree_ok (cgroups s').
Proof.
  intros Ht Hc Hl Hch Hlen Es Hk n Hf Hnum.
  assert (forall j cj, t !! j = Some cj -> cgroups s' !! j = Some (moved i (<[k := z]> (proc c)) f l j cj)) as Hlk
    by (intros j cj Hj; rewrite Es, list_lookup_imap, Hj; done).
  assert (framed t (cgroups s')) as Hfr.
  { rewrite Es. split; [apply length_imap|]. intros j c'. rewrite list_lookup_imap. destruct (t !! j) as [cj|]; simpl; [|done].
    intros [= <-]. exists cj. split; [done|]. unfold moved. repeat case_decide; rewrite ?(proj1 (Hf _)); done. }
  assert (forall j cj, proc (moved i (<[k := z]> (proc c)) f l j cj) = if decide (j = i) then <[k := z]> (proc c) else proc cj) as Hpr.
  { intros j cj. unfold moved. repeat case_decide; rewrite ?(proj2 (Hf _)); done. }
  apply (tree_ok_procs t _ i l n); try done; [by apply framed_shape| |].
  - intros j cj c' Hj Hj'. rewrite (Hlk j cj Hj) in Hj'. injection Hj' as <-. rewrite Hpr.
    assert (frame_of (moved i (<[k := z]> (proc c)) f l j cj) = frame_of cj) as Hfj
      by (unfold moved; repeat case_decide; rewrite ?(proj1 (Hf _)); done).
    apply frame_fields in Hfj as (_ & _ & _ & _ & _ & ->). split; [intros Hne; by rewrite decide_False|].
    split; [case_decide; [subst; assert (cj = c) as -> by congruence; apply length_insert|done]|]. split; [done|].
    unfold moved. destruct (decide (j ∈ l)) as [Hin|Hin]; [|by case_decide]. apply (Hnum j cj); [done|done|by case_decide..].
  - unfold nprocs. rewrite (Hlk i c Hc), Hc, Hpr, decide_True by done.
    pose proof (count_insert (fun x => bool_decide (x <> None)) (proc c) k y z Hk) as H. cbv beta in H. unfold n.
    destruct (bool_decide (z <> None)), (bool_decide (y <> None)); lia.
Qed.

Lemma chain_members t i l j c : tree_ok t -> is_live t i = true -> chain t i l -> (length l <= NPROC)%nat -> j ∈ l -> t !! j = Some c ->
  num_of_procs c = Z.of_nat (members t j) /\ populated c = negb (bool_decide (members t j = 0%nat)) /\ (nprocs t i <= members t j <= NPROC * NPROC)%nat.
Proof.
  intros Ht Hl Hch Hlen Hj Hc. destruct (live_ancestors t i Ht Hl) as (l' & Hch' & E & _ & _ & Hf).
  rewrite (chain_ancestors t i l Hch) in E by lia. subst l'. rewrite Forall_forall in Hf.
  destruct (to_procs _ Ht j c Hc (Hf j Hj)) as [? ?]. split; [done|]. split; [done|]. split; [|by apply members_bound].
  assert (i < NPROC)%nat as Hi.
  { unfold is_live in Hl. destruct (t !! i) eqn:E; [|done]. apply lookup_lt_Some in E. by rewrite (to_len _ Ht) in E. }
  pose proof (total_change (fun k => if below t j k then nprocs t k else 0%nat)
    (fun k => if decide (k = i) then 0%nat else if below t j k then nprocs t k else 0%nat) i) as H'.
  cbv beta in H'. rewrite decide_True in H' by done. rewrite (below_chain t i l j Hch Hlen Hl), bool_decide_eq_true_2 in H' by done.
  fold (members t j) in H'. assert (H2 := fun A => H' A Hi). clear H'. enough (nprocs t i <= members t j + 0)%nat by lia.
  rewrite <- H2; [lia|]. intros k Hk. by rewrite decide_False.
Qed.

Lemma erased_ok p x s s' : cg_ok s -> tree_ok (cgroups s') -> erased p x s s' -> cg_ok s'.
Proof.
  intros Hok Ht (Hf & _ & _ & Hpr & (x' & Hx' & _ & Hx0) & Hq). destruct (framed_ctl s s' Hok Hf) as [C1 C2].
  assert (forall j c' k q, cgroups s' !! j = Some c' -> proc c' !! k = Some (Some q) ->
    q <> p /\ exists c, cgroups s !! j = Some c /\ proc c !! k = Some (Some q)) as Hback.
  { intros j c' k q Hj Hk. destruct (proj2 Hf j c' Hj) as (c & E & _). rewrite (Hpr j c c' E Hj), list_lookup_fmap in Hk.
    destruct (proc c !! k) as [y|] eqn:Ey; simpl in Hk; [|done]. unfold drop_proc in Hk. case_decide as Ep; [done|].
    injection Hk as ->. split; [congruence|]. by exists c. }
  split; try done.
  - intros j c' k q Hj Hk. destruct (Hback j c' k q Hj Hk) as (Hne & c & Hc & Hkc). rewrite Hq by done. by apply (ok_member _ Hok j c k).
  - intros j c' k k' q Hj Hk Hk'. destruct (Hback j c' k q Hj Hk) as (_ & c & Hc & Hkc), (Hback j c' k' q Hj Hk') as (_ & c0 & Hc0 & Hkc0).
    assert (c0 = c) as -> by congruence. by apply (ok_unique _ Hok j c k k' q).
  - intros q y i Hy Hyi. destruct (decide (q = p)) as [->|Hne]; [left; congruence|]. rewrite Hq in Hy by done.
    destruct (ok_group _ Hok q y i Hy Hyi) as [?|(c & k & Hc & Hk)]; [by left|right].
    destruct (framed_fwd _ _ i c Hf Hc) as (c' & Hc' & _). exists c', k. split; [done|].
    rewrite (Hpr i c c' Hc Hc'), list_lookup_fmap, Hk. simpl. unfold drop_proc. rewrite decide_False by congruence. done.
Qed.

Lemma erase_run s i p x : cg_ok s -> ptab s !! p = Some x -> p_cgroup x = Some i ->
  exists s', unsafe_cgroup_erase i p s = inr (tt, s') /\ cg_ok s' /\ erased p x s s'.
Proof.
  intros Hok Hx Hpi. pose proof (p_cgroup_live s p x i Hok Hx Hpi) as Hli. destruct (live_in s i Hok Hli) as (c & Hc & Hi).
  assert (forall j cj k, cgroups s !! j = Some cj -> proc cj !! k = Some (Some p) -> j = i) as Hat.
  { intros j cj k Hj Hk. destruct (ok_member _ Hok j cj k p Hj Hk) as (x' & ? & ?). congruence. }
  unfold unsafe_cgroup_erase. rewrite (bind_run _ _ _ _ _ (get_cg_run s i c Hc)).
  destruct (list_find _ (proc c)) as [[k y]|] eqn:E.
  - apply list_find_Some in E as (Hk & -> & _).
    rewrite (bind_run _ _ _ _ _ (get_proc_run s p x Hx)).
    rewrite (bind_run _ _ _ tt (upd_proc p (fun x => Cproc (sz x) (Some cgroup_root)) s)) by done.
    set (s1 := upd_proc p (fun x => Cproc (sz x) (Some cgroup_root)) s).
    rewrite (bind_run _ _ _ tt (upd_cg i (with_proc (<[k := None]> (proc c))) s1)) by (unfold modS; by rewrite (upd_cg_ext i c _ (with_proc (<[k := None]> (proc c))))).
    destruct (moved_run s1 i c (<[k := None]> (proc c)) (leave (sz x)) (ok_tree _ Hok) Hc Hli) as (l & Hch & Hlen & Hnd & ->).
    { intros c0. by destruct (leave_frame (sz x) c0) as [(_ & _ & ? & _)%frame_fields _]. }
    set (s' := upd_all (moved i (<[k := None]> (proc c)) (leave (sz x)) l) s1).
    assert (erased p x s s') as Her.
    { assert (framed (cgroups s) (cgroups s')) as Hfr by (apply (moved_framed i _ _ l s1); intros c0; apply leave_frame).
      split; [done|]. split; [done|]. split; [done|]. split; [|split].
      - intros j cj cj' Hj Hj'. unfold s' in Hj'. rewrite lookup_upd_all in Hj'. change (cgroups s1) with (cgroups s) in Hj'.
        rewrite Hj in Hj'. injection Hj' as <-. assert (forall c0, proc (leave (sz x) c0) = proc c0) as Hlp by (intros; apply leave_frame).
        unfold moved. destruct (decide (j = i)) as [->|Hne].
        + assert (cj = c) as -> by congruence. rewrite <- (drop_proc_insert p (proc c) k); [by case_decide; rewrite ?Hlp|done|].
          intros k' Hk'. by apply (ok_unique _ Hok i c k' k p).
        + rewrite drop_proc_none; [by case_decide; rewrite ?Hlp|]. intros k' Hk'. by destruct (Hne (Hat j cj k' Hj Hk')).
      - exists (Cproc (sz x) (Some 0%nat)). split; [|done]. unfold s', s1, upd_proc. simpl. by rewrite list_lookup_alter, decide_True, Hx.
      - intros q Hq. unfold s', s1, upd_proc. simpl. by rewrite list_lookup_alter, decide_False by congruence. }
    exists s'. split; [done|]. split; [|done]. apply (erased_ok p x s s' Hok); [|done].
    apply (moved_tree (cgroups s) s' i c k (Some p) None (leave (sz x)) l); try done; [apply ok_tree, Hok|intros c0; split; apply leave_frame|].
    intros j cj c0 Hj Hin En Ep. destruct (chain_members _ i l j cj (ok_tree _ Hok) Hli Hch Hlen Hin Hj) as (M1 & M2 & M3).
    assert (1 <= nprocs (cgroups s) i)%nat as Hn1.
    { unfold nprocs. rewrite Hc. pose proof (count_insert (fun x => bool_decide (x <> None)) (proc c) k (Some p) None Hk) as H.
      cbv beta in H. rewrite bool_decide_eq_true_2 in H by done. rewrite bool_decide_eq_false_2 in H by (intros []; done). lia. }
    destruct (leave_frame (sz x) c0) as (_ & _ & -> & ->). rewrite En, Ep, M2, M1. unfold NPROC in M3.
    rewrite s32_id by word. simpl bool_decide. split; [lia|]. rewrite bool_decide_eq_false_2 by lia.
    by destruct (_ =? 0).
  - apply list_find_None in E. rewrite Forall_lookup in E. exists s. split; [done|]. split; [done|].
    destruct (ok_group _ Hok p x i Hx Hpi) as [->|(c' & k & Hc' & Hk)].
    2:{ assert (c' = c) as -> by congruence. by destruct (E k (Some p) Hk). }
    split; [split; [done|eauto]|]. split; [done|]. split; [done|]. split; [|split; [eauto|done]].
    intros j cj cj' Hj Hj'. assert (cj' = cj) as -> by congruence. rewrite drop_proc_none; [done|]. intros k Hk.
    rewrite (Hat j cj k Hj Hk) in Hj. assert (cj = c) as -> by congruence. by apply (E k (Some p) Hk).
Qed.

(** ** Steps that leave the tree and its processes alone *)

Definition core_of (c : cgroup) := (frame_of c, proc c, num_of_procs c, populated c).

Definition inert (s s' : cgs) : Prop :=
  length (cgroups s') = length (cgroups s) /\ cg_locked s' = cg_locked s /\ ptab s' = ptab s /\
  forall j c', cgroups s' !! j = Some c' -> exists c, cgroups s !! j = Some c /\ core_of c' = core_of c.

Lemma inert_refl s : inert s s.
Proof. split_and!; eauto. Qed.

Lemma inert_trans s1 s2 s3 : inert s1 s2 -> inert s2 s3 -> inert s1 s3.
Proof.
  intros (L1 & K1 & P1 & H1) (L2 & K2 & P2 & H2). split_and!; try congruence.
  intros j c3 H3. destruct (H2 j c3 H3) as (c2 & E2 & F2). destruct (H1 j c2 E2) as (c1 & E1 & F1). exists c1. split; congruence.
Qed.

Lemma inert_upd i f s : (forall c, core_of (f c) = core_of c) -> inert s (upd_cg i f s).
Proof.
  intros Hf. split; [simpl; apply length_alter|]. split; [done|]. split; [done|]. intros j c'. simpl. rewrite list_lookup_alter.
  case_decide; [|eauto]. subst. destruct (cgroups s !! j) as [c|]; simpl; [|done]. intros [= <-]. eauto.
Qed.

Lemma inert_kh s k : inert s (Cgs (cgroups s) (cg_locked s) (ptab s) k).
Proof. split_and!; simpl; eauto. Qed.

Lemma core_fields c c' : core_of c' = core_of c -> frame_of c' = frame_of c /\ proc c' = proc c /\ num_of_procs c' = num_of_procs c /\
  populated c' = populated c.
Proof. unfold core_of. intros [= H1 H2 H3 H4 H5 H6 -> -> ->]. unfold frame_of. by rewrite H1, H2, H3, H4, H5, H6. Qed.

Lemma inert_framed s s' : inert s s' -> framed (cgroups s) (cgroups s').
Proof.
  intros (L & _ & _ & H). split; [done|]. intros j c' Hc'. destruct (H j c' Hc') as (c & E & (Hf & _)%core_fields). eauto.
Qed.

Lemma inert_fwd s s' j c : inert s s' -> cgroups s !! j = Some c -> exists c', cgroups s' !! j = Some c' /\ core_of c' = core_of c.
Proof.
  intros (L & _ & _ & H) Hc. destruct (lookup_lt_is_Some_2 (cgroups s') j) as [c' Hc']; [rewrite L; by eapply lookup_lt_Some|].
  exists c'. split; [done|]. destruct (H j c' Hc') as (c0 & E & F). congruence.
Qed.

Lemma inert_ok s s' : cg_ok s -> inert s s' -> cg_ok s'.
Proof.
  intros Hok Hi. pose proof (inert_framed s s' Hi) as Hf. pose proof Hi as (_ & _ & Ep & H).
  destruct (framed_ctl s s' Hok Hf) as [C1 C2]. split; try done.
  - apply (tree_ok_frame (cgroups s)); [apply Hok|by apply framed_shape| |].
    + intros i c c' Hc Hc'. destruct (H i c' Hc') as (c0 & E & (_ & ? & _)%core_fields). congruence.
    + intros i c c' Hc Hc' _. destruct (H i c' Hc') as (c0 & E & (Hfr & _ & ? & ?)%core_fields).
      apply frame_fields in Hfr as (_ & _ & _ & _ & _ & ?). split_and!; congruence.
  - intros i c' k p Hc' Hk. destruct (H i c' Hc') as (c & E & (_ & Epr & _)%core_fields). rewrite Epr in Hk. rewrite Ep. by apply (ok_member _ Hok i c k).
  - intros i c' k k' p Hc' Hk Hk'. destruct (H i c' Hc') as (c & E & (_ & Epr & _)%core_fields). rewrite Epr in Hk, Hk'. by apply (ok_unique _ Hok i c k k' p).
  - intros p x i Hx Hxi. rewrite Ep in Hx. destruct (ok_group _ Hok p x i Hx Hxi) as [?|(c & k & Hc & Hk)]; [by left|right].
    destruct (inert_fwd s s' i c Hi Hc) as (c' & Hc' & (_ & Epr & _)%core_fields). exists c', k. split; [done|]. by rewrite Epr.
Qed.

Lemma is_live_inert s s' i : inert s s' -> is_live (cgroups s') i = is_live (cgroups s) i.
Proof. intros H. apply is_live_same, framed_shape, inert_framed, H. Qed.

Lemma increse_total n h : exists r h', increse_protect_counter n h = inr (r, h').
Proof. unfold increse_protect_counter, decrese_protect_counter. repeat case_match; eauto. Qed.

Lemma onkh_inert {A} (m : M kheap A) s r h' : m (kh s) = inr (r, h') -> exists s', onkh m s = inr (r, s') /\ inert s s'.
Proof. intros E. unfold onkh. rewrite E. eexists. split; [done|]. apply inert_kh. Qed.

Lemma protect_memory_run s src dst n c d : cgroups s !! src = Some c -> cgroups s !! dst = Some d ->
  exists r s', protect_memory src dst n s = inr (r, s') /\ inert s s'.
Proof.
  intros Hc Hd. unfold protect_memory. rewrite (bind_run _ _ _ _ _ (get_cg_run s dst d Hd)), (bind_run _ _ _ _ _ (get_cg_run s src c Hc)).
  cbv zeta. set (k := _ -i _). destruct (increse_total k (kh s)) as (r & h' & E).
  destruct (onkh_inert _ s r h' E) as (s1 & E1 & I1). rewrite (bind_run _ _ _ _ _ E1). case_match.
  - eexists _, _. split; [reflexivity|]. eapply inert_trans; [exact I1|]. eapply inert_trans; apply inert_upd; done.
  - exists RESULT_ERROR, s1. done.
Qed.

Lemma find_slot_spec ps p : forall i found,
  match find_slot ps i found p with
  | (true, _) => exists k, ps !! k = Some (Some p)
  | (false, Some k) => (found = Some k \/ found = None /\ (i <= k)%nat /\ ps !! (k - i)%nat = Some None) /\ (forall k', ps !! k' <> Some (Some p))
  | (false, None) => found = None /\ Forall (fun x => x <> None) ps
  end.
Proof.
  induction ps as [|x ps IH]; intros i found; cbn [find_slot].
  - destruct found as [k|]; [|done]. split; [by left|]. done.
  - destruct (bool_decide (found = None) && bool_decide (x = None)) eqn:E.
    + apply andb_prop in E as [->%bool_decide_eq_true ->%bool_decide_eq_true]. specialize (IH (S i) (Some i)).
      destruct (find_slot ps (S i) (Some i) p) as [[] [k|]].
      * destruct IH as [k' ?]. by exists (S k').
      * destruct IH as [k' ?]. by exists (S k').
      * destruct IH as [[[= <-]|[? _]] Hn]; [|done]. split; [right|].
        -- split; [done|]. split; [lia|]. by rewrite Nat.sub_diag.
        -- intros [|k']; [done|]. apply Hn.
      * by destruct IH.
    + case_decide as Ex; [exists 0%nat; by rewrite Ex|]. specialize (IH (S i) found).
      destruct (find_slot ps (S i) found p) as [[] [k|]].
      * destruct IH as [k' ?]. by exists (S k').
      * destruct IH as [k' ?]. by exists (S k').
      * destruct IH as [Hf Hn]. split; [|intros [|k']; [simpl; congruence|apply Hn]].
        destruct Hf as [?|(? & ? & Hk)]; [by left|right]. split; [done|]. split; [lia|]. replace (k - i)%nat with (S (k - S i)) by lia. done.
      * destruct IH as [-> Hf]. split; [done|]. constructor; [|done]. intros ->. simpl in E. done.
Qed.

(** ** Joining a group *)

Definition absent (p : nat) (s : cgs) : Prop := forall j c k, cgroups s !! j = Some c -> proc c !! k <> Some (Some p).

Lemma join_run s i c p x k : cg_ok s -> is_live (cgroups s) i = true -> cgroups s !! i = Some c -> ptab s !! p = Some x ->
  absent p s -> proc c !! k = Some None -> forall n,
  exists s', (modS (upd_cg i (fun c => with_proc (<[k := Some p]> (proc c)) c)) ;;
              modS (upd_proc p (fun x => Cproc (sz x) (Some i))) ;; up (S NPROC) (enter n) (Some i)) s = inr (tt, s') /\
    cg_ok s' /\ cg_locked s' = cg_locked s /\ framed (cgroups s) (cgroups s') /\ ptab s' !! p = Some (Cproc (sz x) (Some i)) /\
    (exists c', cgroups s' !! i = Some c' /\ proc c' !! k = Some (Some p)).
Proof.
  intros Hok Hl Hc Hx Hab Hk n. set (ps := <[k := Some p]> (proc c)). set (s1 := upd_proc p (fun x => Cproc (sz x) (Some i)) s).
  rewrite (bind_run _ _ _ tt (upd_cg i (with_proc ps) s)) by (unfold modS; by rewrite (upd_cg_ext i c _ (with_proc ps))).
  rewrite (bind_run _ _ _ tt (upd_cg i (with_proc ps) s1)) by done.
  destruct (moved_run s1 i c ps (enter n) (ok_tree _ Hok) Hc Hl) as (l & Hch & Hlen & Hnd & ->); [done|].
  set (s' := upd_all (moved i ps (enter n) l) s1). exists s'. split; [done|].
  assert (framed (cgroups s) (cgroups s')) as Hf by (apply (moved_framed i ps (enter n) l s1); done).
  assert (forall j cj, cgroups s !! j = Some cj -> exists c', cgroups s' !! j = Some c' /\ proc c' = if decide (j = i) then ps else proc cj) as Hpr.
  { intros j cj Hj. exists (moved i ps (enter n) l j cj). split; [unfold s'; rewrite lookup_upd_all; simpl; by rewrite Hj|].
    unfold moved. repeat case_decide; done. }
  assert (ptab s' !! p = Some (Cproc (sz x) (Some i))) as Hx' by (simpl; by rewrite list_lookup_alter, decide_True, Hx).
  assert (forall q, q <> p -> ptab s' !! q = ptab s !! q) as Hq by (intros q Hq; simpl; by rewrite list_lookup_alter, decide_False).
  assert (forall j c' k' q, cgroups s' !! j = Some c' -> proc c' !! k' = Some (Some q) ->
    q = p /\ j = i /\ k' = k \/ q <> p /\ exists c0, cgroups s !! j = Some c0 /\ proc c0 !! k' = Some (Some q)) as Hback.
  { intros j c' k' q Hj Hk'. destruct (proj2 Hf j c' Hj) as (c0 & E & _). destruct (Hpr j c0 E) as (c1 & E1 & Ep).
    assert (c1 = c') as -> by congruence. rewrite Ep in Hk'. assert (proc c0 !! k' = Some (Some q) -> q <> p) as Hab'
      by (intros H ->; by apply (Hab j c0 k')). case_decide as Eji; [|right; eauto]. subst j. assert (c0 = c) as -> by congruence.
    unfold ps in Hk'. destruct (decide (k' = k)) as [->|Hne]; [left; rewrite list_lookup_insert_eq in Hk' by (by eapply lookup_lt_Some); split_and!; congruence|].
    rewrite list_lookup_insert_ne in Hk' by done. right. eauto. }
  destruct (framed_ctl s s' Hok Hf) as [C1 C2]. split; [split; try done|split; [done|split; [done|split; [done|]]]].
  - apply (moved_tree (cgroups s) s' i c k None (Some p) (enter n) l); try done; [apply Hok|].
    intros j cj c0 Hj Hin En Ep. destruct (chain_members _ i l j cj (ok_tree _ Hok) Hl Hch Hlen Hin Hj) as (M1 & M2 & M3).
    destruct (enter_frame n c0) as (_ & _ & -> & ->). rewrite En, M1. unfold NPROC in M3. rewrite s32_id by word.
    simpl bool_decide. split; [lia|]. symmetry. apply negb_true_iff, Z.eqb_neq. lia.
  - intros j c' k' q Hj Hk'. destruct (Hback j c' k' q Hj Hk') as [(-> & -> & _)|(Hne & c0 & Hc0 & Hk0)]; [eauto|].
    rewrite Hq by done. by apply (ok_member _ Hok j c0 k').
  - intros j c' k1 k2 q Hj H1 H2. destruct (Hback j c' k1 q Hj H1) as [(? & _ & ->)|(Hne & c0 & Hc0 & Hk0)],
      (Hback j c' k2 _ Hj H2) as [(? & _ & ->)|(Hne' & c0' & Hc0' & Hk0')]; try done.
    assert (c0' = c0) as -> by congruence. by apply (ok_unique _ Hok j c0 k1 k2 q).
  - intros q y j Hy Hyj. destruct (decide (q = p)) as [->|Hne].
    + assert (j = i) as -> by (rewrite Hx' in Hy; injection Hy as <-; simpl in Hyj; congruence). right. destruct (Hpr i c Hc) as (c' & Hc' & Ep).
      exists c', k. split; [done|]. rewrite Ep, decide_True by done. apply list_lookup_insert_eq. by eapply lookup_lt_Some.
    + rewrite Hq in Hy by done. destruct (ok_group _ Hok q y j Hy Hyj) as [?|(c0 & k0 & Hc0 & Hk0)]; [by left|right].
      destruct (Hpr j c0 Hc0) as (c' & Hc' & Ep). exists c', k0. split; [done|]. rewrite Ep. case_decide; [|done]. subst j.
      assert (c0 = c) as -> by congruence. unfold ps. rewrite list_lookup_insert_ne; [done|]. intros ->. congruence.
  - destruct (Hpr i c Hc) as (c' & Hc' & Ep). exists c'. split; [done|]. rewrite Ep, decide_True by done.
    apply list_lookup_insert_eq. by eapply lookup_lt_Some.
Qed.

(** What joining requires: the limits of the enabled controllers. *)
Definition admits (c : cgroup) (x : cproc) : bool :=
  negb (enabled Pid c && (max_num_of_procs c <? num_of_procs c +i 1)) && negb (enabled Mem c && (max_mem (mem_ c) <? current_mem (mem_ c) +u sz x)).

(** The outcome of an insertion, from the state [s] before it. *)
Definition inserted (i p : nat) (s : cgs) (r : result_code) (s' : cgs) : Prop :=
  cg_ok s' /\ cg_locked s' = cg_locked s /\ (r = RESULT_SUCCESS \/ r = RESULT_ERROR) /\ (r = RESULT_ERROR -> inert s s') /\
  (r = RESULT_SUCCESS -> exists x' c' k, ptab s' !! p = Some x' /\ p_cgroup x' = Some i /\ cgroups s' !! i = Some c' /\ proc c' !! k = Some (Some p)).

Lemma refused i p s s' : cg_ok s' -> inert s s' -> inserted i p s RESULT_ERROR s'.
Proof. intros Hok Hi. split; [done|]. split; [apply Hi|]. split; [by right|done]. Qed.

Lemma already i p s c k : cg_ok s -> cgroups s !! i = Some c -> proc c !! k = Some (Some p) -> inserted i p s RESULT_SUCCESS s.
Proof.
  intros Hok Hc Hk. destruct (ok_member _ Hok i c k p Hc Hk) as (x & Hx & Hi). split; [done|]. split; [done|]. split; [by left|]. split; [done|].
  intros _. by exists x, c, k.
Qed.

Lemma join_result s s1 i p k x1 c1 n : cg_ok s1 -> is_live (cgroups s1) i = true -> cgroups s1 !! i = Some c1 -> ptab s1 !! p = Some x1 ->
  absent p s1 -> proc c1 !! k = Some None -> cg_locked s1 = cg_locked s -> exists s',
  (modS (upd_cg i (fun c => with_proc (<[k := Some p]> (proc c)) c)) ;; modS (upd_proc p (fun x => Cproc (sz x) (Some i))) ;;
    up (S NPROC) (enter n) (Some i) ;; mret RESULT_SUCCESS) s1 = inr (RESULT_SUCCESS, s') /\ inserted i p s RESULT_SUCCESS s'.
Proof.
  intros Hok1 Hl1 Hc1 Hx1 Hab Hk1 Elk. destruct (join_run s1 i c1 p x1 k Hok1 Hl1 Hc1 Hx1 Hab Hk1 n) as (s' & E & Hok' & Elk' & _ & Hx' & (c' & Hc' & Hk')).
  exists s'. rewrite !modS_bind in E. rewrite !modS_bind. split; [by step E|]. split; [done|]. split; [congruence|]. split; [by left|]. split; [done|].
  intros _. eexists _, c', k. split_and!; done.
Qed.

Lemma insert_run s i p c x : cg_ok s -> is_live (cgroups s) i = true -> cgroups s !! i = Some c -> ptab s !! p = Some x ->
  exists r s', unsafe_cgroup_insert i p s = inr (r, s') /\ (admits c x = false -> r = RESULT_ERROR) /\ inserted i p s r s'.
Proof.
  intros Hok Hl Hc Hx. unfold unsafe_cgroup_insert.
  rewrite (bind_run _ _ _ _ _ (get_cg_run s i c Hc)), (bind_run _ _ _ _ _ (get_proc_run s p x Hx)). unfold admits.
  destruct (enabled Pid c && _) eqn:E1; [exists RESULT_ERROR, s; split_and!; try done; apply refused; [done|apply inert_refl]|].
  destruct (enabled Mem c && _) eqn:E2; [exists RESULT_ERROR, s; split_and!; try done; apply refused; [done|apply inert_refl]|].
  pose proof (find_slot_spec (proc c) p 0 None) as Hfs. destruct (find_slot (proc c) 0 None p) as [[] [k|]].
  - destruct Hfs as [k' Hk']. exists RESULT_SUCCESS, s. split_and!; try done. by apply (already i p s c k').
  - destruct Hfs as [k' Hk']. exists RESULT_SUCCESS, s. split_and!; try done. by apply (already i p s c k').
  - destruct Hfs as [[?|(_ & _ & Hk)] Hnp]; [done|]. rewrite Nat.sub_0_r in Hk.
    destruct (p_cgroup x) as [old|] eqn:Eo.
    + pose proof (p_cgroup_live s p x old Hok Hx Eo) as Hlo. destruct (live_in s old Hok Hlo) as (co & Hco & _).
      destruct (protect_memory_run s old i (s32 (sz x)) co c Hco Hc) as (r1 & s1 & Ep & Hi1).
      pose proof (inert_ok s s1 Hok Hi1) as Hok1. assert (ptab s1 !! p = Some x) as Hx1 by (by rewrite (proj1 (proj2 (proj2 Hi1)))).
      destruct (inert_fwd s s1 i c Hi1 Hc) as (c1 & Hc1 & (_ & Epr & _)%core_fields).
      destruct (decide (r1 = RESULT_SUCCESS)) as [->|Hr1].
      * destruct (erase_run s1 old p x Hok1 Hx1 Eo) as (s2 & Ee & Hok2 & (Hf2 & Elk2 & _ & Hpr2 & (x2 & Hx2 & _) & _)).
        rewrite (bind_run _ _ _ RESULT_SUCCESS s2) by (rewrite (bind_run _ _ _ _ _ Ep); rewrite decide_True by done; by rewrite (bind_run _ _ _ _ _ Ee)).
        rewrite decide_True by done. destruct (framed_fwd _ _ i c1 Hf2 Hc1) as (c2 & Hc2 & _).
        destruct (join_result s s2 i p k x2 c2 (sz x) Hok2) as (s' & E' & Hin'); try done; [..|by exists RESULT_SUCCESS, s'].
        -- rewrite (is_live_same _ _ i (framed_shape _ _ Hf2)), (is_live_inert s s1 i Hi1). done.
        -- intros j cj k' Hj Hk'. destruct (proj2 Hf2 j cj Hj) as (c0 & Hc0 & _). rewrite (Hpr2 j c0 cj Hc0 Hj), list_lookup_fmap in Hk'.
           destruct (proc c0 !! k') as [y|]; simpl in Hk'; [|done]. unfold drop_proc in Hk'. case_decide; congruence.
        -- rewrite (Hpr2 i c1 c2 Hc1 Hc2), list_lookup_fmap, Epr, Hk. done.
        -- destruct Hi1 as (_ & ? & _). congruence.
      * rewrite (bind_run _ _ _ RESULT_ERROR s1) by (rewrite (bind_run _ _ _ _ _ Ep); by rewrite decide_False).
        rewrite decide_False by done. exists RESULT_ERROR, s1. split_and!; try done. by apply refused.
    + rewrite (bind_run _ _ _ RESULT_SUCCESS s) by done. rewrite decide_True by done. destruct (join_result s s i p k x c (sz x) Hok Hl Hc Hx) as (s' & E' & Hin'); try done; [|by exists RESULT_SUCCESS, s'].
      intros j cj k' Hj Hk'. destruct (ok_member _ Hok j cj k' p Hj Hk') as (x' & ? & ?). congruence.
  - destruct Hfs as [_ Hfull]. exists RESULT_ERROR, s. split_and!; try done. apply refused; [done|apply inert_refl].
Qed.

(** ** Code that is inert on every table of [NPROC] groups *)

Definition inertM {A} (m : M cgs A) : Prop :=
  forall s, length (cgroups s) = NPROC -> exists a s', m s = inr (a, s') /\ inert s s'.

Lemma inertM_ret {A} (a : A) : inertM (mret a).
Proof. intros s _. exists a, s. split; [done|apply inert_refl]. Qed.

Lemma inertM_bind {A B} (m : M cgs A) (k : A -> M cgs B) : inertM m -> (forall a, inertM (k a)) -> inertM (m ≫= k).
Proof.
  intros Hm Hk s Hs. destruct (Hm s Hs) as (a & s1 & E & I1). rewrite (bind_run _ _ _ _ _ E).
  destruct (Hk a s1) as (b & s2 & E2 & I2); [by rewrite (proj1 I1)|]. exists b, s2. split; [done|]. by eapply inert_trans.
Qed.

Lemma inertM_mod j f : (forall c, core_of (f c) = core_of c) -> inertM (modS (upd_cg j f)).
Proof. intros Hf s _. eexists _, _. split; [reflexivity|]. by apply inert_upd. Qed.

Lemma inertM_get i : (i < NPROC)%nat -> inertM (get_cg i).
Proof.
  intros Hi s Hs. destruct (lookup_lt_is_Some_2 (cgroups s) i) as [c Hc]; [lia|].
  exists c, s. split; [by apply get_cg_run|apply inert_refl].
Qed.

Lemma inertM_kh {A} (m : M kheap A) : (forall h, exists r h', m h = inr (r, h')) -> inertM (onkh m).
Proof. intros H s _. destruct (H (kh s)) as (r & h' & E). destruct (onkh_inert m s r h' E) as (s' & ? & ?). by exists r, s'. Qed.

Lemma inertM_getS : inertM (@getS cgs).
Proof. intros s _. exists s, s. split; [done|apply inert_refl]. Qed.

Lemma decrese_total n h : exists r h', decrese_protect_counter n h = inr (r, h').
Proof. unfold decrese_protect_counter. eauto. Qed.

Create HintDb inert.
#[export] Hint Resolve inertM_ret inertM_get inertM_getS : inert.

(** Decomposes a call into inert steps. *)
Ltac inert_steps := repeat first
  [ solve [auto 2 with inert nocore] | apply inertM_bind; [|intros ?]
  | apply inertM_mod; done | apply inertM_kh; first [apply increse_total | apply decrese_total]
  | case_match | case_decide ].

Lemma set_max_mem_inert i n : (i < NPROC)%nat -> inertM (set_max_mem (Some i) n).
Proof. intros Hi. unfold set_max_mem. inert_steps. Qed.

Lemma set_protect_mem_inert i n : (i < NPROC)%nat -> inertM (set_protect_mem i n).
Proof. intros Hi. unfold set_protect_mem. inert_steps. Qed.

#[export] Hint Resolve set_max_mem_inert set_protect_mem_inert : inert.

Lemma set_min_mem_inert i n : (i < NPROC)%nat -> inertM (set_min_mem (Some i) n).
Proof. intros Hi. unfold set_min_mem. inert_steps. Qed.

Lemma set_limits_inert i n : inertM (set_max_procs (Some i) n) /\ inertM (set_cpu_id (Some i) n) /\ inertM (frz_grp (Some i) n).
Proof. unfold set_max_procs, set_cpu_id, frz_grp. split_and!; inert_steps. Qed.

#[export] Hint Resolve set_min_mem_inert : inert.
#[export] Hint Extern 1 (inertM (set_max_procs _ _)) => (apply set_limits_inert) : inert.
#[export] Hint Extern 1 (inertM (set_cpu_id _ _)) => (apply set_limits_inert) : inert.
#[export] Hint Extern 1 (inertM (frz_grp _ _)) => (apply set_limits_inert) : inert.

(** ** A new group *)

(** The core of slot [i] once it is initialised as a child of [pi], whose group is [p]. *)
Definition newborn (i pi : nat) (p c : cgroup) (path : list Z) : cgroup :=
  with_nr_descendants 0 (with_populated false (with_num_of_procs 0 (with_ref_count 0 (with_cgroup_dir_path path
    (with_depth (depth p +u 1) (with_ctl (Controllers
        (cpu_controller_enabled (ctl p)) false (pid_controller_enabled (ctl p)) false
        (bool_decide (pi = cgroup_root) || set_controller_enabled (ctl p)) false
        (mem_controller_enabled (ctl p)) false) (with_parent (Some pi) c))))))).

Lemma upd_cg_twice i f g s : upd_cg i g (upd_cg i f s) = upd_cg i (fun c => g (f c)) s.
Proof.
  unfold upd_cg. simpl. f_equal. revert i. induction (cgroups s) as [|c l IH]; intros [|i]; simpl; [done..|]. f_equal. apply IH.
Qed.

Lemma inert_pointwise i f g s : (forall c, core_of (g c) = core_of (f c)) -> inert (upd_cg i f s) (upd_cg i g s).
Proof.
  intros Hf. split; [simpl; by rewrite !length_alter|]. split; [done|]. split; [done|]. intros j c'. simpl. rewrite !list_lookup_alter.
  destruct (decide (i = j)); [|eauto]. destruct (cgroups s !! i) as [c|]; simpl; [|done]. intros [= <-]. eauto.
Qed.

Lemma inert_then {A} (m : M cgs A) s0 s : inertM m -> length (cgroups s) = NPROC -> inert s0 s ->
  exists a s', m s = inr (a, s') /\ inert s0 s' /\ length (cgroups s') = NPROC.
Proof.
  intros Hm Hl Hi. destruct (Hm s Hl) as (a & s' & E & I). exists a, s'. split; [done|]. split; [by eapply inert_trans|].
  by rewrite (proj1 I).
Qed.

(** The tail of [cgroup_initialize], after the parent's part. *)
Definition initialize_rest (i pi : nat) : M cgs unit :=
  set_nr_dying_descendants i 0 ;;
  set_max_procs (Some i) (Z.of_nat NPROC) ;;
  set_cpu_id (Some i) 0 ;;
  frz_grp (Some i) 0 ;;
  modS (upd_cg i zero_stats) ;;
  (p ← get_cg pi; set_max_mem (Some i) (max_mem (mem_ p))) ;;
  set_min_mem (Some i) 0 ;;
  modS (upd_cg i (fun c => with_mem_ (with_current_page 0 (mem_ c)) c)) ;;
  modS (upd_cg i (with_protected 0)) ;;
  modS (upd_cg i (with_cpu_ (CpuAcct 0 0 0 CGROUP_ACCOUNT_PERIOD_100MS (u32 (-1)) 0 0 0 0 0))) ;;
  modS (upd_cg i (fun c => with_io_stats (<[0%nat := no_io]> (io_stats c)) c)) ;;
  modS (upd_cg i (with_used_devices 0)).

Lemma initialize_rest_inert i pi : (i < NPROC)%nat -> (pi < NPROC)%nat -> inertM (initialize_rest i pi).
Proof. intros Hi Hp. unfold initialize_rest, set_nr_dying_descendants. inert_steps. Qed.

Lemma initialize_run cwdp i pi path fpath s p c : length (cgroups s) = NPROC -> cgroups s !! i = Some c -> cgroups s !! pi = Some p -> i <> pi ->
  format_path cwdp path = Some fpath -> fpath <> [] -> (length fpath <= Z.to_nat MAX_PATH_LENGTH)%nat ->
  exists s', cgroup_initialize cwdp i path (Some pi) s = inr (tt, s') /\ inert (upd_cg i (fun c => newborn i pi p c fpath) s) s'.
Proof.
  intros Hlen Hc Hp Hne Hf Hfne Hfl. pose proof (lookup_lt_Some _ _ _ Hc) as Hi. pose proof (lookup_lt_Some _ _ _ Hp) as Hpi.
  rewrite Hlen in Hi, Hpi. set (F := fun c => with_cgroup_dir_path fpath (with_depth (depth p +u 1) (with_ctl (Controllers
        (cpu_controller_enabled (ctl p)) false (pid_controller_enabled (ctl p)) false
        (bool_decide (pi = cgroup_root) || set_controller_enabled (ctl p)) false
        (mem_controller_enabled (ctl p)) false) (with_parent (Some pi) c)))).
  unfold cgroup_initialize. erewrite (bind_run _ _ s tt (upd_cg i F s)).
  2:{ assert (get_cg pi (upd_cg i (with_parent (Some pi)) s) = inr (p, upd_cg i (with_parent (Some pi)) s)) as Eg.
      { apply get_cg_run. simpl. by rewrite list_lookup_alter, decide_False. }
      rewrite (bind_run _ _ _ tt (upd_cg i (with_parent (Some pi)) s)) by done. rewrite (bind_run _ _ _ _ _ Eg).
      unfold unsafe_set_cgroup_dir_path, formatted. mrun. rewrite Hf. rewrite decide_False by done.
      rewrite take_ge by done. by rewrite !upd_cg_twice. }
  set (s1 := upd_cg i F s). assert (length (cgroups s1) = NPROC) as L1 by (simpl; by rewrite length_alter).
  unfold set_max_descendants_value, set_max_depth_value, set_nr_descendants.
  rewrite !modS_bind.
  set (s2 := upd_cg i (with_nr_descendants 0) _).
  assert (inert (upd_cg i (fun c => newborn i pi p c fpath) s) s2) as I2.
  { unfold s2, s1. rewrite !upd_cg_twice. apply inert_pointwise. done. }
  assert (length (cgroups s2) = NPROC) as L2 by (unfold s2; simpl; by rewrite !length_alter).
  destruct (inert_then _ _ s2 (initialize_rest_inert i pi Hi Hpi) L2 I2) as ([] & s3 & E3 & I3 & _).
  exists s3. split; [|done]. rewrite <- E3. reflexivity.
Qed.

(** ** Groups come and go *)

Lemma total_le f n : (forall j, f j <= n)%nat -> (total f <= NPROC * n)%nat.
Proof.
  intros H. unfold total. assert (forall a k, (sum_list (f <$> seq a k) <= k * n)%nat) as Hk; [|apply Hk].
  intros a k. revert a. induction k as [|k IH]; intros a; [done|]. rewrite sum_seq_S. specialize (IH (S a)). specialize (H a). lia.
Qed.

Lemma descendants_bound t i : (descendants t i <= NPROC)%nat.
Proof. etrans; [apply (total_le _ 1)|lia]. intros j. case_match; lia. Qed.

Lemma chain_depth t i l : tree_ok t -> chain t i l -> forall c, t !! i = Some c -> is_live t i = true -> depth c = Z.of_nat (length l) - 1.
Proof.
  intros Ht. induction 1 as [i c Hc Hp|i c p l Hc Hp _ IH]; intros c0 Hc0 Hl; assert (c0 = c) as -> by congruence.
  - destruct (decide (i = 0%nat)) as [->|Hi].
    + destruct (to_root _ Ht) as (r & R1 & _ & R3). assert (r = c) as -> by congruence. done.
    + destruct (to_parent _ Ht i c Hc Hi Hl) as (j & p & ? & _). congruence.
  - assert (i <> 0%nat) as Hi. { intros ->. destruct (to_root _ Ht) as (r & R1 & R2 & _). congruence. }
    destruct (to_parent _ Ht i c Hc Hi Hl) as (j & p' & Hj & Hp' & Hlp & Hd). assert (j = p) as -> by congruence.
    rewrite Hd, (IH p') by done. simpl. lia.
Qed.

Lemma dead_below t k j : tree_ok t -> is_live t k = false -> below t k j = false.
Proof.
  intros Ht Hk. unfold below. destruct (is_live t j) eqn:Hj; [|done]. cbn [andb]. apply bool_decide_eq_false. intros Hin.
  destruct (live_ancestors t j Ht Hj) as (l & _ & El & _ & _ & Hf). rewrite El in Hin. rewrite Forall_forall in Hf.
  specialize (Hf k Hin). congruence.
Qed.

(** Tables that agree, but for counters, on every group other than [k]. *)
Definition agree_off (k : nat) (t t' : list cgroup) : Prop :=
  length t' = length t /\ forall j c c', t !! j = Some c -> t' !! j = Some c' ->
    proc c' = proc c /\ (j <> k -> parent c' = parent c /\ depth c' = depth c /\ (j = 0%nat \/ (cgroup_dir_path c' = [] <-> cgroup_dir_path c = []))).

Lemma agree_fwd k t t' j c : agree_off k t t' -> t !! j = Some c -> exists c', t' !! j = Some c'.
Proof. intros [Hl _] Hc. apply lookup_lt_is_Some_2. rewrite Hl. by eapply lookup_lt_Some. Qed.

Lemma agree_bwd k t t' j c' : agree_off k t t' -> t' !! j = Some c' -> exists c, t !! j = Some c.
Proof. intros [Hl _] Hc. apply lookup_lt_is_Some_2. rewrite <- Hl. by eapply lookup_lt_Some. Qed.

Lemma agree_live k t t' j : agree_off k t t' -> j <> k -> is_live t' j = is_live t j.
Proof.
  intros Ha Hj. unfold is_live. destruct (t !! j) as [c|] eqn:E.
  - destruct (agree_fwd k t t' j c Ha E) as [c' E']. rewrite E'. destruct (proj2 Ha j c c' E E') as [_ [_ [_ [->|H]]]]; try done.
    f_equal. f_equal. by apply bool_decide_ext.
  - by rewrite (lookup_none_len t t' j (proj1 Ha) E).
Qed.

Lemma agree_nprocs k t t' j : agree_off k t t' -> nprocs t' j = nprocs t j.
Proof.
  intros Ha. unfold nprocs. destruct (t !! j) as [c|] eqn:E.
  - destruct (agree_fwd k t t' j c Ha E) as [c' E']. rewrite E'. by destruct (proj2 Ha j c c' E E') as [-> _].
  - by rewrite (lookup_none_len t t' j (proj1 Ha) E).
Qed.

Lemma agree_chain k t t' j l : agree_off k t t' -> k ∉ l -> chain t j l -> chain t' j l.
Proof.
  intros Ha Hk. induction 1 as [i c Hc Hp|i c p l Hc Hp _ IH]; destruct (agree_fwd k t t' i c Ha Hc) as [c' Hc'];
    destruct (proj2 Ha i c c' Hc Hc') as [_ Hs]; rewrite not_elem_of_cons in Hk; destruct Hs as [Ep _]; try (intros ->; tauto).
  - apply (chain_root _ i c'); congruence.
  - apply (chain_up _ i c' p); try congruence. apply IH; tauto.
Qed.

(** [below] on a table where [k] is dead, seen from one where it may be live. *)
Lemma agree_below k t t' a j : tree_ok t -> agree_off k t t' -> is_live t k = false -> j <> k -> below t' a j = below t a j.
Proof.
  intros Ht Ha Hk Hj. unfold below. rewrite (agree_live k t t') by done. destruct (is_live t j) eqn:El; [|done]. cbn [andb].
  destruct (live_ancestors t j Ht El) as (l & Hch & Ea & _ & Hlen & Hf). rewrite Ea, (chain_ancestors t' j l); [done| |lia].
  apply (agree_chain k t); try done. intros Hin. rewrite Forall_forall in Hf. specialize (Hf k Hin). congruence.
Qed.

Section Create.
Context (t t' : list cgroup) (k pi : nat) (l : list nat) (p ck : cgroup).
Hypothesis Ht : tree_ok t.
Hypothesis Hk : is_live t k = false.
Hypothesis Ha : agree_off k t t'.
Hypothesis Hpi : is_live t pi = true.
Hypothesis Hp : t !! pi = Some p.
Hypothesis Hl : chain t pi l.
Hypothesis Hck : t' !! k = Some ck.
Hypothesis Hck' : parent ck = Some pi /\ cgroup_dir_path ck <> [] /\ depth ck = depth p + 1 /\ nr_descendants ck = 0 /\
  num_of_procs ck = 0 /\ populated ck = false.

Lemma create_not_in : k ∉ l.
Proof.
  destruct (live_ancestors t pi Ht Hpi) as (l' & Hch & Ea & _ & Hlen & Hf). intros Hin.
  assert (l' = l) as ->. { rewrite <- (chain_ancestors t pi l' Hch (length l' + length l)), (chain_ancestors t pi l Hl) by lia. done. }
  rewrite Forall_forall in Hf. specialize (Hf k Hin). congruence.
Qed.

Lemma create_len : (length l <= NPROC)%nat.
Proof.
  destruct (live_ancestors t pi Ht Hpi) as (l' & Hch & Ea & _ & Hlen & Hf).
  rewrite <- (chain_ancestors t pi l Hl (length l' + length l)), (chain_ancestors t pi l' Hch) by lia. done.
Qed.

Lemma create_root : k <> 0%nat.
Proof. intros ->. destruct (to_root _ Ht) as (r & R1 & _). unfold is_live in Hk. by rewrite R1 in Hk. Qed.

Lemma create_live : is_live t' k = true.
Proof. unfold is_live. rewrite Hck. rewrite (bool_decide_eq_false_2 (cgroup_dir_path ck = [])) by apply Hck'. apply orb_true_r. Qed.

Lemma create_below a : below t' a k = bool_decide (a ∈ k :: l).
Proof.
  apply below_chain; [|simpl|apply create_live].
  - apply (chain_up _ k ck pi); [done|apply Hck'|]. apply (agree_chain k t); [done|apply create_not_in|done].
  - enough (length (k :: l) <= NPROC)%nat by done. destruct (live_ancestors t pi Ht Hpi) as (l' & Hch & Ea & Hnd & Hlen & Hf).
    assert (l' = l) as ->. { rewrite <- (chain_ancestors t pi l' Hch (length l' + length l)), (chain_ancestors t pi l Hl) by lia. done. }
    rewrite <- (to_len _ Ht), <- (length_seq (length t) 0). apply submseteq_length, NoDup_submseteq.
    + apply NoDup_cons. split; [apply create_not_in|done].
    + intros j Hj. apply elem_of_seq. split; [lia|]. simpl. apply elem_of_cons in Hj as [->|Hj].
      * destruct (agree_bwd k t t' k ck Ha Hck) as [c Hc]. by eapply lookup_lt_Some.
      * rewrite Forall_forall in Hf. specialize (Hf j Hj). unfold is_live in Hf. destruct (t !! j) eqn:E; [|done]. by eapply lookup_lt_Some.
Qed.

Lemma create_k : (k < NPROC)%nat.
Proof. rewrite <- (to_len _ Ht). destruct (agree_bwd k t t' k ck Ha Hck) as [c Hc]. by eapply lookup_lt_Some. Qed.

Lemma create_desc a : descendants t' a = (descendants t a + if decide (a ∈ l) then 1 else 0)%nat.
Proof.
  pose proof (total_change (fun j => if below t a j && negb (bool_decide (j = a)) then 1%nat else 0%nat)
    (fun j => if below t' a j && negb (bool_decide (j = a)) then 1%nat else 0%nat) k) as H. cbv beta in H.
  fold (descendants t a) (descendants t' a) in H. rewrite create_below in H. unfold below at 3 in H. rewrite Hk in H. simpl in H.
  assert (forall x y : nat, (x + 0 = y + (if bool_decide (a ∈ k :: l) && negb (bool_decide (k = a)) then 1 else 0))%nat ->
    x = (y + if decide (a ∈ l) then 1 else 0)%nat) as Hx.
  { pose proof create_not_in as Hn. intros x y. destruct (decide (a ∈ l)) as [Hin|Hout].
    - rewrite bool_decide_eq_true_2 by (by right). rewrite bool_decide_eq_false_2 by (intros ->; done). simpl. lia.
    - case_bool_decide as H1; [|simpl; lia]. apply elem_of_cons in H1 as [->|?]; [|done].
      rewrite bool_decide_eq_true_2 by done. simpl. lia. }
  apply Hx, H; [|apply create_k]. intros j Hj. by rewrite (agree_below k t t' a j).
Qed.

Lemma create_members a : members t' a = members t a.
Proof.
  apply total_ext. intros j _. destruct (decide (j = k)) as [->|Hj]; [|by rewrite (agree_below k t t'), (agree_nprocs k t t')].
  rewrite (agree_nprocs k t t') by done. destruct (agree_bwd k t t' k ck Ha Hck) as [c Hc].
  rewrite (to_dead _ Ht k c Hc Hk). by destruct (below t' a k), (below t a k).
Qed.

Lemma create_none : descendants t k = 0%nat /\ members t k = 0%nat.
Proof.
  assert (forall n, total (fun _ => n) = (NPROC * n)%nat) as E by (intros; vm_compute; lia).
  split; (etrans; [|apply (E 0%nat)]); apply total_ext; intros j _; by rewrite (dead_below t k j).
Qed.

Hypothesis Hcnt : forall j c c', j <> k -> t !! j = Some c -> t' !! j = Some c' -> num_of_procs c' = num_of_procs c /\ populated c' = populated c /\
  nr_descendants c' = if decide (j ∈ l) then nr_descendants c + 1 else nr_descendants c.

Lemma create_tree : tree_ok t'.
Proof.
  pose proof create_root as Hr. destruct create_none as [Hd0 Hm0]. split.
  - rewrite (proj1 Ha). apply Ht.
  - destruct (to_root _ Ht) as (r & R1 & R2 & R3). destruct (agree_fwd k t t' 0 r Ha R1) as [r' R']. exists r'.
    destruct (proj2 Ha 0%nat r r' R1 R') as [_ (? & ? & _)]; [done|]. split_and!; congruence.
  - intros i c' Hc' Hi Hli. destruct (decide (i = k)) as [->|Hik].
    + assert (c' = ck) as -> by congruence. assert (pi <> k) as Hne by (intros ->; congruence).
      destruct (agree_fwd k t t' pi p Ha Hp) as [p' Hp']. destruct (proj2 Ha pi p p' Hp Hp') as [_ (_ & Ed & _)]; [done|].
      exists pi, p'. rewrite (agree_live k t t') by done. rewrite Ed. destruct Hck' as (? & _ & ? & _). done.
    + rewrite (agree_live k t t') in Hli by done. destruct (agree_bwd k t t' i c' Ha Hc') as [c Hc].
      destruct (proj2 Ha i c c' Hc Hc') as [_ (Ep & Ed & _)]; [done|]. destruct (to_parent _ Ht i c Hc Hi Hli) as (j & q & Hj & Hq & Hlq & Hdq).
      assert (j <> k) as Hne by (intros ->; congruence). destruct (agree_fwd k t t' j q Ha Hq) as [q' Hq'].
      destruct (proj2 Ha j q q' Hq Hq') as [_ (_ & Edq & _)]; [done|]. exists j, q'. rewrite (agree_live k t t') by done. split_and!; congruence.
  - intros i c' Hc' Hli. destruct (decide (i = k)) as [->|Hik].
    + assert (c' = ck) as -> by congruence. pose proof (to_depth _ Ht pi p Hp Hpi). destruct Hck' as (_ & _ & -> & _). lia.
    + rewrite (agree_live k t t') in Hli by done. destruct (agree_bwd k t t' i c' Ha Hc') as [c Hc].
      destruct (proj2 Ha i c c' Hc Hc') as [_ (_ & -> & _)]; [done|]. by apply (to_depth _ Ht i).
  - intros i c' Hc' Hli. rewrite create_desc. destruct (decide (i = k)) as [->|Hik].
    + assert (c' = ck) as -> by congruence. rewrite decide_False by apply create_not_in. rewrite Hd0. apply Hck'.
    + rewrite (agree_live k t t') in Hli by done. destruct (agree_bwd k t t' i c' Ha Hc') as [c Hc].
      destruct (Hcnt i c c' Hik Hc Hc') as (_ & _ & ->). rewrite (to_desc _ Ht i c Hc Hli). case_decide; lia.
  - intros i c' Hc' Hli. rewrite create_members. destruct (decide (i = k)) as [->|Hik].
    + assert (c' = ck) as -> by congruence. rewrite Hm0. destruct Hck' as (_ & _ & _ & _ & -> & ->). done.
    + rewrite (agree_live k t t') in Hli by done. destruct (agree_bwd k t t' i c' Ha Hc') as [c Hc].
      destruct (Hcnt i c c' Hik Hc Hc') as (-> & -> & _). by apply (to_procs _ Ht i).
  - intros i c' Hc'. destruct (agree_bwd k t t' i c' Ha Hc') as [c Hc]. destruct (proj2 Ha i c c' Hc Hc') as [-> _]. by apply (to_plen _ Ht i).
  - intros i c' Hc' Hli. assert (i <> k) as Hik by (intros ->; rewrite create_live in Hli; done). rewrite (agree_live k t t') in Hli by done.
    destruct (agree_bwd k t t' i c' Ha Hc') as [c Hc]. rewrite (agree_nprocs k t t') by done. by apply (to_dead _ Ht i c).
Qed.

End Create.

Section Delete.
Context (t t' : list cgroup) (k pi : nat) (l : list nat) (c0 ck : cgroup).
Hypothesis Ht : tree_ok t.
Hypothesis Hlk : is_live t k = true.
Hypothesis Hk0 : k <> 0%nat.
Hypothesis Ha : agree_off k t t'.
Hypothesis Hc0 : t !! k = Some c0.
Hypothesis Hpi : parent c0 = Some pi.
Hypothesis Hl : chain t pi l.
Hypothesis Hck : t' !! k = Some ck.
Hypothesis Hck' : parent ck = Some pi /\ cgroup_dir_path ck = [].

Lemma delete_k : (k < NPROC)%nat.
Proof. rewrite <- (to_len _ Ht). by eapply lookup_lt_Some. Qed.

Lemma delete_dead : is_live t' k = false.
Proof. unfold is_live. rewrite Hck. rewrite bool_decide_eq_false_2 by done. by rewrite bool_decide_eq_true_2 by apply Hck'. Qed.

Lemma delete_below a j : j <> k -> below t' a j = below t a j.
Proof.
  intros Hj. unfold below. rewrite (agree_live k t t') by done. rewrite (ancestors_same t t'); [done|]. intros i.
  destruct (t !! i) as [c|] eqn:E.
  - destruct (agree_fwd k t t' i c Ha E) as [c' E']. rewrite E'. simpl. destruct (decide (i = k)) as [->|Hik].
    + assert (c = c0) as -> by congruence. assert (c' = ck) as -> by congruence. destruct Hck' as [-> _]. done.
    + by destruct (proj2 Ha i c c' E E') as [_ (-> & _)].
  - by rewrite (lookup_none_len t t' i (proj1 Ha) E).
Qed.

Lemma delete_chain : chain t k (k :: l) /\ NoDup (k :: l) /\ (length (k :: l) <= NPROC)%nat /\ Forall (fun j => is_live t j = true) l.
Proof.
  assert (chain t k (k :: l)) as Hch by (by apply (chain_up _ k c0 pi)). destruct (live_ancestors t k Ht Hlk) as (l' & Hch' & _ & Hnd & Hlen & Hf).
  assert (l' = k :: l) as ->. { rewrite <- (chain_ancestors t k l' Hch' (length l' + length (k :: l))), (chain_ancestors t k _ Hch) by lia. done. }
  split_and!; try done. by apply Forall_inv_tail in Hf.
Qed.

Lemma delete_desc a : (descendants t' a + (if decide (a ∈ l) then 1 else 0) = descendants t a)%nat.
Proof.
  destruct delete_chain as (Hch & Hnd & Hlen & _). apply NoDup_cons in Hnd as [Hni _].
  pose proof (total_change (fun j => if below t a j && negb (bool_decide (j = a)) then 1%nat else 0%nat)
    (fun j => if below t' a j && negb (bool_decide (j = a)) then 1%nat else 0%nat) k) as H. cbv beta in H.
  fold (descendants t a) (descendants t' a) in H. rewrite (below_chain t k _ a Hch Hlen Hlk) in H. unfold below at 3 in H.
  rewrite delete_dead in H. cbn [andb] in H.
  assert (forall x y : nat, (x + (if bool_decide (a ∈ k :: l) && negb (bool_decide (k = a)) then 1 else 0) = y + 0)%nat ->
    (x + if decide (a ∈ l) then 1 else 0)%nat = y) as Hx.
  { intros x y. destruct (decide (a ∈ l)) as [Hin|Hout].
    - rewrite bool_decide_eq_true_2 by (by right). rewrite bool_decide_eq_false_2 by (intros ->; done). simpl. lia.
    - case_bool_decide as H1; [|simpl; lia]. apply elem_of_cons in H1 as [->|?]; [|done].
      rewrite bool_decide_eq_true_2 by done. simpl. lia. }
  apply Hx, H; [|apply delete_k]. intros j Hj. by rewrite delete_below.
Qed.

Hypothesis Hnone : descendants t k = 0%nat /\ members t k = 0%nat.

Lemma delete_leaf j : j <> k -> below t k j = false.
Proof.
  intros Hj. destruct (below t k j) eqn:E; [|done]. pose proof (total_zero _ j (proj1 Hnone)) as H. cbv beta in H.
  rewrite E, bool_decide_eq_false_2 in H by done. simpl in H. destruct (decide (j < NPROC)%nat) as [Hlt|Hge]; [by specialize (H Hlt)|].
  apply below_live in E. unfold is_live in E. destruct (t !! j) eqn:E'; [|done]. apply lookup_lt_Some in E'. rewrite (to_len _ Ht) in E'. lia.
Qed.

Lemma delete_procs : nprocs t k = 0%nat.
Proof.
  pose proof (total_zero _ k (proj2 Hnone) delete_k) as H. cbv beta in H. by rewrite below_self in H by done.
Qed.

Lemma delete_members a : members t' a = members t a.
Proof.
  apply total_ext. intros j _. rewrite (agree_nprocs k t t') by done. destruct (decide (j = k)) as [->|Hj]; [|by rewrite delete_below].
  rewrite delete_procs. by destruct (below t' a k), (below t a k).
Qed.

Hypothesis Hcnt : forall j c c', j <> k -> t !! j = Some c -> t' !! j = Some c' -> num_of_procs c' = num_of_procs c /\ populated c' = populated c /\
  nr_descendants c' = if decide (j ∈ l) then nr_descendants c - 1 else nr_descendants c.

Lemma delete_tree : tree_ok t'.
Proof.
  pose proof delete_dead as Hd.
  assert (forall i c', t' !! i = Some c' -> is_live t' i = true -> i <> k /\ is_live t i = true /\ exists c, t !! i = Some c) as Hback.
  { intros i c' Hc' Hli. assert (i <> k) as Hik by (intros ->; congruence). rewrite (agree_live k t t') in Hli by done.
    destruct (agree_bwd k t t' i c' Ha Hc') as [c Hc]. eauto. }
  split.
  - rewrite (proj1 Ha). apply Ht.
  - destruct (to_root _ Ht) as (r & R1 & R2 & R3). destruct (agree_fwd k t t' 0 r Ha R1) as [r' R']. exists r'.
    destruct (proj2 Ha 0%nat r r' R1 R') as [_ (? & ? & _)]; [done|]. split_and!; congruence.
  - intros i c' Hc' Hi Hli. destruct (Hback i c' Hc' Hli) as (Hik & Hli0 & c & Hc).
    destruct (proj2 Ha i c c' Hc Hc') as [_ (Ep & Ed & _)]; [done|]. destruct (to_parent _ Ht i c Hc Hi Hli0) as (j & q & Hj & Hq & Hlq & Hdq).
    assert (j <> k) as Hne.
    { intros ->. pose proof (delete_leaf i Hik) as Hb. unfold below in Hb. rewrite Hli0 in Hb. apply bool_decide_eq_false in Hb. apply Hb.
      cbn [ancestors]. rewrite Hc. simpl. rewrite Hj. right. by left. }
    destruct (agree_fwd k t t' j q Ha Hq) as [q' Hq'].
    destruct (proj2 Ha j q q' Hq Hq') as [_ (_ & Edq & _)]; [done|]. exists j, q'. rewrite (agree_live k t t') by done. split_and!; congruence.
  - intros i c' Hc' Hli. destruct (Hback i c' Hc' Hli) as (Hik & Hli0 & c & Hc).
    destruct (proj2 Ha i c c' Hc Hc') as [_ (_ & -> & _)]; [done|]. by apply (to_depth _ Ht i).
  - intros i c' Hc' Hli. destruct (Hback i c' Hc' Hli) as (Hik & Hli0 & c & Hc).
    destruct (Hcnt i c c' Hik Hc Hc') as (_ & _ & ->). pose proof (delete_desc i) as Hdd. rewrite (to_desc _ Ht i c Hc Hli0).
    destruct (decide (i ∈ l)); lia.
  - intros i c' Hc' Hli. destruct (Hback i c' Hc' Hli) as (Hik & Hli0 & c & Hc).
    destruct (Hcnt i c c' Hik Hc Hc') as (-> & -> & _). rewrite delete_members. by apply (to_procs _ Ht i).
  - intros i c' Hc'. destruct (agree_bwd k t t' i c' Ha Hc') as [c Hc]. destruct (proj2 Ha i c c' Hc Hc') as [-> _]. by apply (to_plen _ Ht i).
  - intros i c' Hc' Hli. rewrite (agree_nprocs k t t') by done. destruct (decide (i = k)) as [->|Hik]; [apply delete_procs|].
    rewrite (agree_live k t t') in Hli by done. destruct (agree_bwd k t t' i c' Ha Hc') as [c Hc]. by apply (to_dead _ Ht i c).
Qed.

End Delete.

(** ** The state after a group is made or removed *)

(** The table [s'] is that of [s] with [f] applied to the core of the groups, and the rest the same. *)
Definition cored (f : nat -> cgroup -> cgroup) (s s' : cgs) : Prop :=
  length (cgroups s') = length (cgroups s) /\ ptab s' = ptab s /\
  forall j c', cgroups s' !! j = Some c' -> exists c, cgroups s !! j = Some c /\ core_of c' = core_of (f j c).

Lemma cored_fwd f s s' j c : cored f s s' -> cgroups s !! j = Some c -> exists c', cgroups s' !! j = Some c' /\ core_of c' = core_of (f j c).
Proof.
  intros (Hl & _ & H) Hc. destruct (lookup_lt_is_Some_2 (cgroups s') j) as [c' Hc']; [rewrite Hl; by eapply lookup_lt_Some|].
  exists c'. split; [done|]. destruct (H j c' Hc') as (c0 & E & F). congruence.
Qed.

Lemma core_all c c' : core_of c' = core_of c -> cgroup_dir_path c' = cgroup_dir_path c /\ ref_count c' = ref_count c /\
  parent c' = parent c /\ ctl c' = ctl c /\ depth c' = depth c /\ nr_descendants c' = nr_descendants c /\ proc c' = proc c /\
  num_of_procs c' = num_of_procs c /\ populated c' = populated c.
Proof. intros (Hf & ? & ? & ?)%core_fields. apply frame_fields in Hf as (? & ? & ? & ? & ? & ?). done. Qed.

(** Membership only looks at [proc] and at the process table. *)
Lemma members_ok f s s' : cg_ok s -> cored f s s' -> (forall j c, proc (f j c) = proc c) ->
  (forall i c k p, cgroups s' !! i = Some c -> proc c !! k = Some (Some p) -> exists x, ptab s' !! p = Some x /\ p_cgroup x = Some i) /\
  (forall i c k k' p, cgroups s' !! i = Some c -> proc c !! k = Some (Some p) -> proc c !! k' = Some (Some p) -> k = k') /\
  (forall p x i, ptab s' !! p = Some x -> p_cgroup x = Some i -> i = 0%nat \/ exists c k, cgroups s' !! i = Some c /\ proc c !! k = Some (Some p)).
Proof.
  intros Hok Hc Hf. pose proof Hc as (_ & Ep & H). rewrite Ep. split_and!.
  - intros i c' k p Hi. destruct (H i c' Hi) as (c & E & (_ & -> & _)%core_fields). rewrite Hf. by apply (ok_member _ Hok).
  - intros i c' k k' p Hi. destruct (H i c' Hi) as (c & E & (_ & -> & _)%core_fields). rewrite Hf. by apply (ok_unique _ Hok i).
  - intros p x i Hp Hx. destruct (ok_group _ Hok p x i Hp Hx) as [?|(c & k & Hi & Hk)]; [by left|right].
    destruct (cored_fwd f s s' i c Hc Hi) as (c' & E & (_ & Epr & _)%core_fields). exists c', k. rewrite Epr, Hf. done.
Qed.

Definition incr_descendants (c : cgroup) : cgroup := with_nr_descendants (nr_descendants c +u 1) c.

Lemma depth_step t i c : tree_ok t -> t !! i = Some c -> is_live t i = true -> depth c +u 1 = depth c + 1.
Proof.
  intros Ht Hc Hl. destruct (live_ancestors t i Ht Hl) as (l & Hch & _ & _ & Hlen & _). pose proof (chain_depth t i l Ht Hch c Hc Hl) as Hd.
  pose proof (to_depth _ Ht i c Hc Hl). unfold NPROC in Hlen. word.
Qed.

Section Created.
Context (s s' : cgs) (k pi : nat) (p : cgroup) (path : list Z) (l : list nat).
Hypothesis Hok : cg_ok s.
Hypothesis Hk : is_live (cgroups s) k = false.
Hypothesis Hp : cgroups s !! pi = Some p.
Hypothesis Hlp : is_live (cgroups s) pi = true.
Hypothesis Hl : chain (cgroups s) pi l.
Hypothesis Hpath : path <> [].
Hypothesis Hkl : (k < NPROC)%nat.
Definition created (j : nat) (c : cgroup) : cgroup :=
  let c := if decide (j = k) then newborn k pi p c path else c in if decide (j ∈ l) then incr_descendants c else c.
Hypothesis Hc : cored created s s'.

Lemma created_off j c : j <> k -> core_of (created j c) = core_of (if decide (j ∈ l) then incr_descendants c else c).
Proof. intros H. unfold created. by rewrite (decide_False (P := j = k)) by done. Qed.

Lemma created_at c : core_of (created k c) = core_of (newborn k pi p c path).
Proof.
  unfold created. rewrite (decide_True (P := k = k)) by done. rewrite decide_False; [done|].
  apply (create_not_in (cgroups s) k pi l (ok_tree _ Hok) Hk Hlp Hl).
Qed.

Lemma created_proc j c : proc (created j c) = proc c.
Proof. unfold created. by destruct (decide (j = k)), (decide (j ∈ l)). Qed.

Lemma created_agree : agree_off k (cgroups s) (cgroups s').
Proof.
  split; [apply Hc|]. intros j c c' E E'. destruct (proj2 (proj2 Hc) j c' E') as (c1 & E1 & F). assert (c1 = c) as -> by congruence.
  split; [apply core_fields in F as (_ & -> & _); apply created_proc|]. intros Hj. rewrite created_off in F by done.
  apply core_all in F as (-> & _ & -> & _ & -> & _). destruct (decide (j ∈ l)); split_and!; try done; by right.
Qed.

Lemma created_slot : exists ck, cgroups s' !! k = Some ck /\ cgroup_dir_path ck = path /\ ref_count ck = 0 /\ parent ck = Some pi /\
  (forall c, ctl ck = ctl (newborn k pi p c path)) /\ depth ck = depth p + 1 /\ nr_descendants ck = 0 /\ num_of_procs ck = 0 /\ populated ck = false.
Proof.
  destruct (lookup_lt_is_Some_2 (cgroups s) k) as [c Ec]; [by rewrite (to_len _ (ok_tree _ Hok))|].
  destruct (cored_fwd _ s s' k c Hc Ec) as (ck & E & F). rewrite created_at in F. exists ck. split; [done|].
  apply core_all in F as (-> & -> & -> & Ectl & -> & -> & _ & -> & ->). split_and!; try done.
  apply (depth_step (cgroups s) pi); [apply Hok|done|done].
Qed.

Lemma created_tree : tree_ok (cgroups s').
Proof.
  destruct created_slot as (ck & Hck & E1 & _ & E2 & _ & E3 & E4 & E5 & E6).
  apply (create_tree (cgroups s) (cgroups s') k pi l p ck (ok_tree _ Hok) Hk created_agree Hlp Hp Hl Hck).
  - split_and!; congruence.
  - intros j c c' Hj E E'. destruct (proj2 (proj2 Hc) j c' E') as (c1 & E1' & F). assert (c1 = c) as -> by congruence.
    rewrite created_off in F by done. apply core_all in F as (_ & _ & _ & _ & _ & -> & _ & -> & ->).
    destruct (decide (j ∈ l)); split_and!; try done. simpl. assert (is_live (cgroups s) j = true) as Hlj.
    { destruct (live_ancestors _ pi (ok_tree _ Hok) Hlp) as (l' & Hch & _ & _ & _ & Hf).
      assert (l' = l) as ->. { rewrite <- (chain_ancestors _ pi l' Hch (length l' + length l)), (chain_ancestors _ pi l Hl) by lia. done. }
      rewrite Forall_forall in Hf. by apply Hf. }
    rewrite (to_desc _ (ok_tree _ Hok) j c E Hlj). pose proof (descendants_bound (cgroups s) j). unfold NPROC in *. word.
Qed.

Lemma created_ok : cg_ok s'.
Proof.
  destruct (members_ok _ s s' Hok Hc created_proc) as (M1 & M2 & M3). destruct created_slot as (ck & Hck & Hckp & _ & E2 & E3 & _).
  assert (forall j c', cgroups s' !! j = Some c' -> j <> k -> exists c, cgroups s !! j = Some c /\ ctl c' = ctl c /\ parent c' = parent c) as Hold.
  { intros j c' E' Hj. destruct (proj2 (proj2 Hc) j c' E') as (c & E & F). exists c. split; [done|]. rewrite created_off in F by done.
    apply core_all in F as (_ & _ & -> & -> & _). by destruct (decide (j ∈ l)). }
  assert (pi <> k) as Hpk by (intros ->; congruence).
  split; [apply created_tree|done|done|done| |].
  - intros i c' q Hi Hli. destruct (decide (i = k)) as [->|Hik].
    + assert (c' = ck) as -> by congruence. unfold enabled. rewrite (E3 p). by destruct q.
    + destruct (Hold i c' Hi Hik) as (c & E & Ectl & _). rewrite (agree_live k (cgroups s)) in Hli by (done || apply created_agree).
      destruct (ctl_flags c c' q Ectl) as [-> ->]. by apply (ok_enabled _ Hok i).
  - intros i c' j q x Hi Hi0 Hli Hpar Hq Hx. destruct (decide (i = k)) as [->|Hik].
    + assert (c' = ck) as -> by congruence. assert (j = pi) as -> by congruence. destruct (Hold pi q Hq Hpk) as (p' & Ep & Ectl & _).
      assert (p' = p) as -> by congruence. destruct (ctl_flags p q x Ectl) as [-> _]. unfold avalible. rewrite (E3 p). unfold enabled.
      destruct x; simpl; try done. destruct Hx as [?|Hx]; [done|]. by rewrite bool_decide_eq_false_2.
    + destruct (Hold i c' Hi Hik) as (c & E & Ectl & Epar). rewrite (agree_live k (cgroups s)) in Hli by (done || apply created_agree).
      assert (j <> k) as Hjk. { intros ->. destruct (to_parent _ (ok_tree _ Hok) i c E Hi0 Hli) as (j & ? & ? & ? & ? & _). congruence. }
      destruct (Hold j q Hq Hjk) as (q0 & Eq & Ectlq & _). destruct (ctl_flags c c' x Ectl) as [_ ->], (ctl_flags q0 q x Ectlq) as [-> _].
      apply (ok_avalible _ Hok i c j q0); congruence.
Qed.

End Created.

(** ** Making a group *)

(** Every group of [l], the nearest first, has room for another one [n] levels below. *)
Fixpoint limits (t : list cgroup) (n : Z) (l : list nat) : bool :=
  match l with
  | [] => true
  | j :: l => match t !! j with
              | Some c => (n <? max_depth_value c) && negb (max_descendants_value c =? nr_descendants c) && limits t (n + 1) l
              | None => false
              end
  end.

Lemma check_limits_run s i l : cg_locked s = true -> chain (cgroups s) i l -> forall fuel n, (length l <= fuel)%nat ->
  if limits (cgroups s) n l then check_limits fuel n (Some i) s = inr (tt, s)
  else exists msg, check_limits fuel n (Some i) s = inl (Panic msg).
Proof.
  intros Hlk. induction 1 as [i c Hc Hp|i c p l Hc Hp _ IH]; intros [|fuel] n Hf; simpl in Hf; try lia;
    cbn [check_limits limits]; rewrite Hc, (bind_run _ _ _ _ _ (get_cg_run s i c Hc));
    rewrite (Z.ltb_antisym (max_depth_value c) n); destruct (max_depth_value c <=? n);
    try (eexists; unfold cgroup_unlock; mrun; rewrite Hlk; done); cbn [negb andb];
    destruct (max_descendants_value c =? nr_descendants c); try (eexists; unfold cgroup_unlock; mrun; rewrite Hlk; done); cbn [negb andb]; rewrite Hp.
  - by destruct fuel.
  - apply IH. lia.
Qed.

Lemma finish_length out : (length (finish out) <= length out)%nat.
Proof. unfold finish. rewrite length_rev. destruct out as [|c [|d out]]; try done. case_match; simpl; lia. Qed.

Lemma format_path_length cwdp path f : format_path cwdp path = Some f -> (length f <= Z.to_nat MAX_PATH_LENGTH)%nat.
Proof.
  unfold format_path. intros (out & _ & H)%bind_Some. destruct (copy _ out) as [o| |]; [|by injection H as <-; simpl; lia|done].
  apply bind_Some in H as (x & Hx & [= <-]). unfold putc in Hx. destruct (Z.ltb_spec (Z.of_nat (length o)) MAX_PATH_LENGTH); [|done].
  pose proof (finish_length o) as Hfl. unfold finish in Hfl. lia.
Qed.

Lemma base_nonempty cwdp path b : get_base_name cwdp path = Some b -> 0 <= b.1 -> exists f, format_path cwdp path = Some f /\ f <> [].
Proof. unfold get_base_name. intros (f & Hf & H)%bind_Some Hb. exists f. split; [done|]. intros ->. simpl in H. injection H as <-. simpl in Hb. lia. Qed.

Lemma free_slot_dead s k : free_slot (cgroups s) = Some k -> is_live (cgroups s) k = false /\ (k < length (cgroups s))%nat /\
  exists c, cgroups s !! k = Some c /\ ref_count c = 0.
Proof.
  unfold free_slot. intros ([i c] & (Hi & [Hc Hr] & _)%list_find_Some & ->)%fmap_Some. simpl.
  destruct (cgroups s) as [|r t]; [done|]. simpl in *. unfold is_live. simpl. rewrite Hi. split; [by rewrite bool_decide_eq_true_2|].
  split; [|eauto]. apply lookup_lt_Some in Hi. lia.
Qed.

Lemma found_live t f i c : f <> [] -> list_find (fun c => cgroup_dir_path c = f) t = Some (i, c) -> t !! i = Some c /\ cgroup_dir_path c = f /\ is_live t i = true.
Proof.
  intros Hf (Hi & Hc & _)%list_find_Some. split_and!; try done. unfold is_live. rewrite Hi. rewrite (bool_decide_eq_false_2 (cgroup_dir_path c = [])) by congruence.
  apply orb_true_r.
Qed.

(** The group a formatted path names. *)
Definition named (t : list cgroup) (f : list Z) : option nat :=
  if decide (f = []) then None else fst <$> list_find (fun c => cgroup_dir_path c = f) t.

Lemma named_live t f i : named t f = Some i -> exists c, t !! i = Some c /\ cgroup_dir_path c = f /\ is_live t i = true.
Proof.
  unfold named. case_decide; [done|]. intros ([j c] & Hf & ->)%fmap_Some. exists c. by apply found_live.
Qed.

Lemma by_path_run cwdp path f s : format_path cwdp path = Some f -> unsafe_get_cgroup_by_path cwdp path s = inr (named (cgroups s) f, s).
Proof. intros Hf. unfold unsafe_get_cgroup_by_path, formatted. mrun. by rewrite Hf. Qed.

Definition set_locked (b : bool) (s : cgs) : cgs := Cgs (cgroups s) b (ptab s) (kh s).

Lemma set_locked_same s b : cg_locked s = b -> set_locked b s = s.
Proof. intros <-. by destruct s. Qed.

Lemma lock_run s : cg_locked s = false -> cgroup_lock s = inr (tt, set_locked true s).
Proof. intros H. unfold cgroup_lock. mrun. by rewrite H. Qed.

Lemma unlock_run s : cg_locked s = true -> cgroup_unlock s = inr (tt, set_locked false s).
Proof. intros H. unfold cgroup_unlock. mrun. by rewrite H. Qed.

(** The slot [k] taken for a group at [path] under [pi], on a state that is locked. *)
Lemma make_run cwdp s fp path k pi p : cg_ok s -> is_live (cgroups s) k = false -> (k < NPROC)%nat -> cgroups s !! pi = Some p -> is_live (cgroups s) pi = true ->
  format_path cwdp fp = Some path -> path <> [] ->
  exists s' l, chain (cgroups s) pi l /\ (cgroup_initialize cwdp k fp (Some pi) ;; up (S NPROC) incr_descendants (Some pi)) s = inr (tt, s') /\
    cored (created k pi p path l) s s' /\ cg_locked s' = cg_locked s.
Proof.
  intros Hok Hk Hkl Hp Hlp Hf Hne. destruct (lookup_lt_is_Some_2 (cgroups s) k) as [c Hc]; [by rewrite (to_len _ (ok_tree _ Hok))|].
  destruct (initialize_run cwdp k pi fp path s p c) as (s1 & E1 & I1); try done.
  { apply Hok. } { intros ->. congruence. } { by eapply format_path_length. }
  destruct (live_ancestors _ pi (ok_tree _ Hok) Hlp) as (l & Hch & _ & Hnd & Hlen & _).
  assert (k ∉ l) as Hkn by (apply (create_not_in (cgroups s) k pi l (ok_tree _ Hok) Hk Hlp Hch)).
  assert (forall j c', cgroups s1 !! j = Some c' -> exists c0, cgroups s !! j = Some c0 /\ core_of c' = core_of (if decide (j = k) then newborn k pi p c0 path else c0)) as H1.
  { intros j c' Hj. destruct (proj2 (proj2 (proj2 I1)) j c' Hj) as (c1 & Hc1 & F). simpl in Hc1. rewrite list_lookup_alter in Hc1.
    destruct (decide (k = j)) as [->|Hkj].
    - rewrite Hc in Hc1. injection Hc1 as <-. exists c. by rewrite decide_True.
    - exists c1. by rewrite decide_False by congruence. }
  assert (length (cgroups s1) = length (cgroups s)) as Hl1 by (rewrite (proj1 I1); simpl; by rewrite length_alter).
  assert (chain (cgroups s1) pi l) as Hch1.
  { apply (agree_chain k (cgroups s)); [|done|done]. split; [done|]. intros j c0 c' Hj Hj'. destruct (H1 j c' Hj') as (c2 & Hc2 & F).
    assert (c2 = c0) as -> by congruence. apply core_all in F as (E2 & _ & E3 & _ & E4 & _ & E5 & _). split; [rewrite E5; by destruct (decide (j = k))|].
    intros Hjk. rewrite decide_False in E2, E3, E4 by done. rewrite E2, E3, E4. split_and!; try done. by right. }
  exists (upd_all (fun j c => if decide (j ∈ l) then incr_descendants c else c) s1), l. split; [done|].
  rewrite (bind_run _ _ _ _ _ E1), (up_run incr_descendants l) by (done || lia). split; [done|]. split; [|simpl; by rewrite (proj1 (proj2 I1))].
  split; [simpl; by rewrite length_imap|]. split; [simpl; by rewrite (proj1 (proj2 (proj2 I1)))|]. intros j c' Hj. simpl in Hj. rewrite list_lookup_imap in Hj.
  destruct (cgroups s1 !! j) as [c1|] eqn:Ec1; [|done]. simpl in Hj. injection Hj as <-. destruct (H1 j c1 Ec1) as (c0 & Hc0 & F).
  exists c0. split; [done|]. unfold created. destruct (decide (j ∈ l)); [|done]. apply core_all in F as (F1 & F2 & F3 & F4 & F5 & F6 & F7 & F8 & F9).
  unfold core_of, frame_of, incr_descendants. simpl. congruence.
Qed.

Lemma cg_ok_locked b s : cg_ok s -> cg_ok (set_locked b s).
Proof. by intros [? ? ? ? ? ?]; split. Qed.

(** The parent a new group at the formatted path [fp] would have. *)
Definition parent_of (t : list cgroup) (d b : Z * list Z) (dp : list Z) : option nat :=
  if (d.1 <? 0) || (b.1 <? 0) then None else named t dp.

Lemma create_run cwdp path s fp d b dp f : cg_ok s -> cg_locked s = false -> format_path cwdp path = Some fp ->
  get_dir_name cwdp fp = Some d -> get_base_name cwdp fp = Some b -> format_path cwdp d.2 = Some dp -> format_path cwdp fp = Some f ->
  match parent_of (cgroups s) d b dp with
  | None => cgroup_create cwdp path s = inr (None, s)
  | Some pi =>
      match (if limits (cgroups s) 0 (ancestors (S NPROC) (cgroups s) pi) then free_slot (cgroups s) else None) with
      | None => exists msg, cgroup_create cwdp path s = inl (Panic msg)
      | Some k => exists s' p l, cgroup_create cwdp path s = inr (Some k, s') /\ cg_locked s' = false /\ cg_ok s' /\
          cgroups s !! pi = Some p /\ chain (cgroups s) pi l /\ is_live (cgroups s) k = false /\ cored (created k pi p f l) s s'
      end
  end.
Proof.
  intros Hok Hlk Hfp Hd Hb Hdp Hf. unfold cgroup_create, parent_of.
  assert (forall x y, format_path cwdp x = Some y -> formatted cwdp x s = inr (y, s)) as Hfm by (intros x y E; unfold formatted; mrun; by rewrite E).
  rewrite (bind_run _ _ _ _ _ (Hfm _ _ Hfp)). rewrite Hd, Hb. unfold deref. rewrite (bind_run _ _ s d s), (bind_run _ _ s b s) by done.
  destruct ((d.1 <? 0) || (b.1 <? 0)) eqn:Eneg; [done|]. apply orb_false_elim in Eneg as [_ Hb0%Z.ltb_ge].
  rewrite (bind_run _ _ _ _ _ (lock_run s Hlk)), (bind_run _ _ _ _ _ (by_path_run cwdp d.2 dp (set_locked true s) Hdp)).
  change (cgroups (set_locked true s)) with (cgroups s). destruct (named (cgroups s) dp) as [pi|] eqn:En.
  2:{ rewrite (bind_run _ _ _ _ _ (unlock_run (set_locked true s) eq_refl)). unfold mret, M_ret. f_equal. f_equal. by apply (set_locked_same s false). }
  destruct (named_live _ _ _ En) as (p & Hp & _ & Hlp). destruct (live_ancestors _ pi (ok_tree _ Hok) Hlp) as (l0 & Hch0 & -> & _ & Hlen0 & _).
  pose proof (check_limits_run (set_locked true s) pi l0 eq_refl Hch0 (S NPROC) 0 ltac:(lia)) as Hcl. cbn [set_locked cgroups] in Hcl.
  destruct (limits (cgroups s) 0 l0).
  2:{ destruct Hcl as [msg E]. exists msg. by apply bind_stop. }
  rewrite (bind_run _ _ _ _ _ Hcl). rewrite (bind_run getS _ _ (set_locked true s) (set_locked true s)) by done.
  change (cgroups (set_locked true s)) with (cgroups s). destruct (free_slot (cgroups s)) as [k|] eqn:Efs.
  2:{ eexists. rewrite (bind_run _ _ _ _ _ (unlock_run (set_locked true s) eq_refl)). done. }
  destruct (free_slot_dead s k Efs) as (Hk & Hkl & _). rewrite (to_len _ (ok_tree _ Hok)) in Hkl.
  destruct (base_nonempty _ _ _ Hb Hb0) as (f' & Hf' & Hne). assert (f' = f) as -> by congruence.
  destruct (make_run cwdp (set_locked true s) fp f k pi p (cg_ok_locked true s Hok) Hk Hkl Hp Hlp Hf Hne) as (s' & l & Hch & E & Hc & Hlk').
  exists (set_locked false s'), p, l. split.
  { rewrite <- bind_assoc. step E. step (unlock_run s' Hlk'). done. }
  split; [done|]. split; [|done]. apply cg_ok_locked.
  by apply (created_ok (set_locked true s) s' k pi p f l (cg_ok_locked true s Hok)).
Qed.

Lemma create_step cwdp path s r s' : cg_ok s -> cg_locked s = false -> cgroup_create cwdp path s = inr (r, s') -> cg_ok s' /\ cg_locked s' = false.
Proof.
  intros Hok Hlk H. pose proof H as H0. unfold cgroup_create in H.
  apply bind_inr in H as (fp & s1 & (Hfp & ->)%deref_inr & H). apply bind_inr in H as (d & s2 & (Hd & ->)%deref_inr & H).
  apply bind_inr in H as (b & s3 & (Hb & ->)%deref_inr & H). destruct ((d.1 <? 0) || (b.1 <? 0)) eqn:En; [by injection H as <- <-|].
  apply bind_inr in H as (u & s4 & _ & H). apply bind_inr in H as (o & s5 & Ho & _). unfold unsafe_get_cgroup_by_path in Ho.
  apply bind_inr in Ho as (dp & s6 & (Hdp & ->)%deref_inr & _). apply orb_false_elim in En as [_ Hb0%Z.ltb_ge].
  destruct (base_nonempty _ _ _ Hb Hb0) as (f & Hf & _). pose proof (create_run cwdp path s fp d b dp f Hok Hlk Hfp Hd Hb Hdp Hf) as Hrun.
  destruct (parent_of _ _ _ _) as [pi|]; [|rewrite Hrun in H0; by injection H0 as <- <-]. destruct (if limits _ _ _ then _ else _) as [k|].
  - destruct Hrun as (s'' & p & l & E & ? & ? & _). rewrite E in H0. by injection H0 as <- <-.
  - destruct Hrun as [msg E]. congruence.
Qed.

(** ** Removing a group *)

Definition decr_descendants (dying : bool) (c : cgroup) : cgroup :=
  let c := with_nr_descendants (nr_descendants c -u 1) c in
  if dying then with_nr_dying_descendants (nr_dying_descendants c +u 1) c else c.

Definition removed (k : nat) (l : list nat) (dying : bool) (j : nat) (c : cgroup) : cgroup :=
  let c := if decide (j = k) then with_cgroup_dir_path [] c else c in if decide (j ∈ l) then decr_descendants dying c else c.

Lemma removed_core k l dying j c : let c' := removed k l dying j c in
  proc c' = proc c /\ ctl c' = ctl c /\ parent c' = parent c /\ depth c' = depth c /\ num_of_procs c' = num_of_procs c /\ populated c' = populated c /\
  cgroup_dir_path c' = (if decide (j = k) then [] else cgroup_dir_path c) /\
  nr_descendants c' = if decide (j ∈ l) then nr_descendants c -u 1 else nr_descendants c.
Proof. unfold removed, decr_descendants. by destruct (decide (j = k)), (decide (j ∈ l)), dying. Qed.

Section Removed.
Context (s s' : cgs) (k : nat) (l : list nat) (dying : bool) (c0 : cgroup).
Hypothesis Hok : cg_ok s.
Hypothesis Hc0 : cgroups s !! k = Some c0.
Hypothesis Hlk : is_live (cgroups s) k = true.
Hypothesis Hl : match parent c0 with Some pi => chain (cgroups s) pi l | None => l = [] end.
Hypothesis Hnone : k <> 0%nat -> nr_descendants c0 = 0 /\ num_of_procs c0 = 0.
Hypothesis Hc : cored (removed k l dying) s s'.

Lemma removed_at j c' : cgroups s' !! j = Some c' -> exists c, cgroups s !! j = Some c /\
  proc c' = proc c /\ ctl c' = ctl c /\ parent c' = parent c /\ depth c' = depth c /\ num_of_procs c' = num_of_procs c /\ populated c' = populated c /\
  cgroup_dir_path c' = (if decide (j = k) then [] else cgroup_dir_path c) /\
  nr_descendants c' = if decide (j ∈ l) then nr_descendants c -u 1 else nr_descendants c.
Proof.
  intros Hj. destruct (proj2 (proj2 Hc) j c' Hj) as (c & E & F). exists c. split; [done|].
  apply core_all in F as (-> & _ & -> & -> & -> & -> & -> & -> & ->). apply (removed_core k l dying j c).
Qed.

Lemma removed_agree : agree_off k (cgroups s) (cgroups s').
Proof.
  split; [apply Hc|]. intros j c c' E E'. destruct (removed_at j c' E') as (c1 & E1 & -> & _ & -> & -> & _ & _ & -> & _).
  assert (c1 = c) as -> by congruence. split; [done|]. intros Hj. rewrite decide_False by done. split_and!; try done. by right.
Qed.

Lemma removed_live j : is_live (cgroups s') j = true -> is_live (cgroups s) j = true.
Proof.
  intros H. destruct (decide (j = k)) as [->|Hj]; [done|]. by rewrite (agree_live k (cgroups s)) in H by (done || apply removed_agree).
Qed.

Lemma removed_tree : tree_ok (cgroups s').
Proof.
  destruct (cored_fwd _ s s' k c0 Hc Hc0) as (ck & Hck & _). destruct (removed_at k ck Hck) as (c1 & E1 & _ & _ & Ep & Ed & _ & _ & Epath & _).
  assert (c1 = c0) as -> by congruence. rewrite decide_True in Epath by done. pose proof Hl as El. destruct (decide (k = 0%nat)) as [Hk0|Hk0].
  - destruct (to_root _ (ok_tree _ Hok)) as (r & R1 & R2 & _). assert (r = c0) as -> by congruence. rewrite R2 in El.
    apply (tree_ok_frame (cgroups s)); [apply Hok| | |].
    + split; [apply Hc|]. intros j c' E'. destruct (removed_at j c' E') as (c & E & _ & _ & -> & -> & _ & _ & -> & _).
      exists c. split_and!; try done. destruct (decide (j = k)); [left; congruence|by right].
    + intros j c c' E E'. destruct (removed_at j c' E') as (c1 & E1' & -> & _). congruence.
    + intros j c c' E E' _. destruct (removed_at j c' E') as (c1 & E1' & _ & _ & _ & _ & -> & -> & _ & ->). rewrite El.
      rewrite decide_False by apply not_elem_of_nil. assert (c1 = c) as -> by congruence. done.
  - destruct (to_parent _ (ok_tree _ Hok) k c0 Hc0 Hk0 Hlk) as (pi & p & Hpi & _). rewrite Hpi in El. destruct (Hnone Hk0) as [N1 N2].
    rewrite (to_desc _ (ok_tree _ Hok) k c0 Hc0 Hlk) in N1. rewrite (proj1 (to_procs _ (ok_tree _ Hok) k c0 Hc0 Hlk)) in N2.
    assert (descendants (cgroups s) k = 0%nat /\ members (cgroups s) k = 0%nat) as Hz by lia.
    apply (delete_tree (cgroups s) (cgroups s') k pi l c0 ck (ok_tree _ Hok) Hlk Hk0 removed_agree Hc0 Hpi El Hck); [split; congruence|done|].
    intros j c c' Hj E E'. destruct (removed_at j c' E') as (c1 & E1' & _ & _ & _ & _ & -> & -> & _ & ->). assert (c1 = c) as -> by congruence.
    split_and!; try done. destruct (decide (j ∈ l)) as [Hin|]; [|done].
    pose proof (delete_desc (cgroups s) (cgroups s') k pi l c0 ck (ok_tree _ Hok) Hlk Hk0 removed_agree Hc0 Hpi El Hck (conj (eq_trans Ep Hpi) Epath) j) as Hdd.
    rewrite decide_True in Hdd by done.
    destruct (delete_chain (cgroups s) k pi l c0 (ok_tree _ Hok) Hlk Hk0 Hc0 Hpi El) as (_ & _ & _ & Hf). rewrite Forall_forall in Hf.
    rewrite (to_desc _ (ok_tree _ Hok) j c E (Hf j Hin)). pose proof (descendants_bound (cgroups s) j). unfold NPROC in *. word.
Qed.

Lemma removed_ok : cg_ok s'.
Proof.
  destruct (members_ok _ s s' Hok Hc (fun j c => proj1 (removed_core k l dying j c))) as (M1 & M2 & M3).
  split; [apply removed_tree|done|done|done| |].
  - intros i c' q Hi Hli. destruct (removed_at i c' Hi) as (c & E & _ & Ectl & _). destruct (ctl_flags c c' q Ectl) as [-> ->].
    apply (ok_enabled _ Hok i); [done|by apply removed_live].
  - intros i c' j q x Hi Hi0 Hli Hpar Hq Hx. destruct (removed_at i c' Hi) as (c & E & _ & Ectl & Epar & _).
    destruct (removed_at j q Hq) as (q0 & Eq & _ & Ectlq & _). destruct (ctl_flags c c' x Ectl) as [_ ->], (ctl_flags q0 q x Ectlq) as [-> _].
    apply (ok_avalible _ Hok i c j q0); try done; [by apply removed_live|congruence].
Qed.

End Removed.

(** The part of a removal after the checks, on a state that is locked. *)
Lemma remove_run s k c l dying : cg_ok s -> cgroups s !! k = Some c -> is_live (cgroups s) k = true ->
  match parent c with Some pi => chain (cgroups s) pi l | None => l = [] end -> NoDup l -> (length l <= NPROC)%nat -> k ∉ l -> forall s1, inert s s1 ->
  exists s', (modS (upd_cg k (with_cgroup_dir_path [])) ;; up (S NPROC) (decr_descendants dying) (parent c)) s1 = inr (tt, s') /\
    cored (removed k l dying) s s' /\ cg_locked s' = cg_locked s.
Proof.
  intros Hok Hc Hlk Hl Hnd Hlen Hkl s1 Hi. set (s2 := upd_cg k (with_cgroup_dir_path []) s1). rewrite modS_bind. fold s2.
  assert (forall j c', cgroups s2 !! j = Some c' -> exists c, cgroups s !! j = Some c /\ core_of c' = core_of (if decide (j = k) then with_cgroup_dir_path [] c else c)) as H2.
  { intros j c'. unfold s2. simpl. rewrite list_lookup_alter. destruct (decide (k = j)) as [->|Hkj].
    - destruct (cgroups s1 !! j) as [c1|] eqn:E; simpl; [|done]. intros [= <-].
      destruct (proj2 (proj2 (proj2 Hi)) j c1 E) as (cj & Ej & F). exists cj. split; [done|]. rewrite decide_True by done.
      apply core_all in F as (F1 & F2 & F3 & F4 & F5 & F6 & F7 & F8 & F9). unfold core_of, frame_of. simpl. congruence.
    - intros E. destruct (proj2 (proj2 (proj2 Hi)) j c' E) as (cj & Ej & F). exists cj. by rewrite decide_False by congruence. }
  assert (length (cgroups s2) = length (cgroups s)) as Hlen2 by (unfold s2; simpl; rewrite length_alter; apply (proj1 Hi)).
  assert (match parent c with Some pi => up (S NPROC) (decr_descendants dying) (Some pi) s2 | None => up (S NPROC) (decr_descendants dying) None s2 end =
    inr (tt, upd_all (fun j c => if decide (j ∈ l) then decr_descendants dying c else c) s2)) as Eup.
  { destruct (parent c) as [pi|].
    - apply (up_run (decr_descendants dying) l); [by intros c1; unfold decr_descendants; destruct dying| |done|lia].
      eapply (chain_same (cgroups s)); [|exact Hl]. intros j cj Ej. destruct (lookup_lt_is_Some_2 (cgroups s2) j) as [c' E']; [rewrite Hlen2; by eapply lookup_lt_Some|].
      exists c'. split; [done|]. destruct (H2 j c' E') as (c1 & E1 & (_ & _ & -> & _)%core_all). assert (c1 = cj) as -> by congruence. by destruct (decide (j = k)).
    - subst l. cbn [up]. unfold mret, M_ret. f_equal. f_equal. transitivity (upd_all (fun _ c => c) s2).
      + destruct s2 as [t lk pt h]. unfold upd_all. f_equal. apply list_eq. intros j. simpl. rewrite list_lookup_imap. by destruct (t !! j).
      + apply upd_all_ext. intros j cj _. by rewrite decide_False by apply not_elem_of_nil. }
  eexists. split; [destruct (parent c); exact Eup|]. split; [|simpl; apply (proj1 (proj2 Hi))].
  split; [simpl; by rewrite length_imap|]. split; [simpl; apply (proj1 (proj2 (proj2 Hi)))|]. intros j c' Hj. cbn [upd_all cgroups] in Hj. rewrite list_lookup_imap in Hj.
  destruct (cgroups s2 !! j) as [c2|] eqn:E2; [|done]. simpl in Hj. injection Hj as <-. destruct (H2 j c2 E2) as (cj & Ej & F). exists cj. split; [done|].
  unfold removed. destruct (decide (j ∈ l)); [|done]. apply core_all in F as (F1 & F2 & F3 & F4 & F5 & F6 & F7 & F8 & F9).
  unfold core_of, frame_of, decr_descendants. destruct dying; simpl; congruence.
Qed.

Definition can_delete (type : delete_type) (i : nat) (c : cgroup) : bool :=
  (nr_descendants c =? 0) &&
  match type with Umount => bool_decide (i = cgroup_root) | Unlink => negb (bool_decide (i = cgroup_root)) && (num_of_procs c =? 0) end.

(** The groups above a live one. *)
Lemma above s i c : cg_ok s -> cgroups s !! i = Some c -> is_live (cgroups s) i = true ->
  exists l, match parent c with Some pi => chain (cgroups s) pi l | None => l = [] end /\ NoDup l /\ (length l <= NPROC)%nat /\ i ∉ l.
Proof.
  intros Hok Hc Hl. destruct (live_ancestors _ i (ok_tree _ Hok) Hl) as (l & Hch & _ & Hnd & Hlen & _).
  inversion Hch as [? c' Hc' Hp|? c' p l' Hc' Hp Hch']; subst; assert (c' = c) as -> by congruence; rewrite Hp.
  - exists []. split_and!; try done; [constructor|simpl; lia|apply not_elem_of_nil].
  - exists l'. apply NoDup_cons in Hnd as [? ?]. split_and!; try done. simpl in Hlen. lia.
Qed.

Lemma delete_run cwdp path type s f : cg_ok s -> cg_locked s = false -> format_path cwdp path = Some f ->
  match named (cgroups s) f with
  | None => cgroup_delete cwdp path type s = inr (RESULT_ERROR_ARGUMENT, s)
  | Some i => exists c, cgroups s !! i = Some c /\
      if can_delete type i c
      then exists s' l, cgroup_delete cwdp path type s = inr (RESULT_SUCCESS, s') /\ cg_ok s' /\ cg_locked s' = false /\
             cored (removed i l (0 <? ref_count c)) s s'
      else cgroup_delete cwdp path type s = inr (RESULT_ERROR_OPERATION, s)
  end.
Proof.
  intros Hok Hlk Hf. unfold cgroup_delete. set (s0 := set_locked true s).
  assert (forall (r : result_code), (cgroup_unlock ;; mret r) s0 = inr (r, s)) as Hout.
  { intros r. step (unlock_run s0 eq_refl). unfold mret, M_ret. f_equal. f_equal. by apply (set_locked_same s false). }
  step (lock_run s Hlk). step (by_path_run cwdp path f s0 Hf). change (cgroups s0) with (cgroups s).
  destruct (named (cgroups s) f) as [i|] eqn:En; [|apply Hout]. destruct (named_live _ _ _ En) as (c & Hc & _ & Hl). exists c. split; [done|].
  unfold can_delete. set (rt := bool_decide (i = cgroup_root)).
  assert (cgroups s0 !! i = Some c) as Hc0 by done. destruct (match type with Umount => negb rt | Unlink => rt end) eqn:Et.
  { replace (_ && _) with false; [apply Hout|]. by destruct type, rt, (nr_descendants c =? 0). }
  step (get_cg_run s0 i c Hc0). destruct (_ || _) eqn:Ecnt.
  { replace (_ && _) with false; [apply Hout|]. by destruct type, rt, (nr_descendants c =? 0), (num_of_procs c =? 0). }
  replace (_ && _) with true by (by destruct type, rt, (nr_descendants c =? 0), (num_of_procs c =? 0)).
  destruct (above s i c Hok Hc Hl) as (l & Hch & Hnd & Hlen & Hil).
  assert (exists s1, (if negb rt && enabled Mem c then set_min_mem (Some i) 0 ;; mret tt else mret tt) s0 = inr (tt, s1) /\ inert s0 s1) as (s1 & E1 & I1).
  { assert (i < NPROC)%nat as Hi by (rewrite <- (to_len _ (ok_tree _ Hok)); by eapply lookup_lt_Some).
    destruct (negb rt && enabled Mem c); [|exists s0; split; [done|apply inert_refl]].
    destruct (set_min_mem_inert i 0 Hi s0 (to_len _ (ok_tree _ Hok))) as (r & s1 & E & I). exists s1. split; [by step E|done]. }
  step E1. destruct (remove_run s0 i c l (0 <? ref_count c) (cg_ok_locked true s Hok) Hc Hl Hch Hnd Hlen Hil s1 I1) as (s2 & E2 & Hcr & Hlk2).
  exists (set_locked false s2), l. split; [rewrite <- bind_assoc; step E2; by step (unlock_run s2 Hlk2)|].
  split; [|done]. apply cg_ok_locked. apply (removed_ok s0 s2 i l (0 <? ref_count c) c (cg_ok_locked true s Hok) Hc Hl Hch); [|done].
  intros Hi0. subst rt. rewrite (bool_decide_eq_false_2 (i = cgroup_root)) in Ecnt by done.
  destruct (Z.eqb_spec (nr_descendants c) 0), (Z.eqb_spec (num_of_procs c) 0); done.
Qed.

(** ** Switching controllers *)

Lemma enabled_with_enabled k k' v c : enabled k' (with_enabled k v c) = if decide (k' = k) then v else enabled k' c.
Proof. unfold enabled, with_enabled. destruct (ctl c) as [? ? ? ? ? ? ? ?] eqn:E. by destruct k, k'; simpl; rewrite ?E. Qed.
Lemma avalible_with_enabled k k' v c : avalible k' (with_enabled k v c) = avalible k' c.
Proof. unfold avalible, with_enabled. destruct (ctl c) as [? ? ? ? ? ? ? ?] eqn:E. by destruct k, k'; simpl; rewrite ?E. Qed.
Lemma enabled_with_avalible k k' v c : enabled k' (with_avalible k v c) = enabled k' c.
Proof. unfold enabled, with_avalible. destruct (ctl c) as [? ? ? ? ? ? ? ?] eqn:E. by destruct k, k'; simpl; rewrite ?E. Qed.
Lemma avalible_with_avalible k k' v c : avalible k' (with_avalible k v c) = if decide (k' = k) then v else avalible k' c.
Proof. unfold avalible, with_avalible. destruct (ctl c) as [? ? ? ? ? ? ? ?] eqn:E. by destruct k, k'; simpl; rewrite ?E. Qed.

Definition child_switch (k : controller) (i : nat) (v : bool) (j : nat) (c : cgroup) : cgroup :=
  if negb (bool_decide (j = 0%nat)) && bool_decide (parent c = Some i) then with_avalible k v c else c.
Definition switch (k : controller) (i : nat) (v : bool) (j : nat) (c : cgroup) : cgroup :=
  child_switch k i v j (if decide (j = i) then with_enabled k v c else c).

(** Everything but the flags is left alone. *)
Lemma switch_fields k i v j c : let c' := switch k i v j c in
  cgroup_dir_path c' = cgroup_dir_path c /\ parent c' = parent c /\ depth c' = depth c /\ nr_descendants c' = nr_descendants c /\
  proc c' = proc c /\ num_of_procs c' = num_of_procs c /\ populated c' = populated c.
Proof.
  assert (forall c, let c' := child_switch k i v j c in cgroup_dir_path c' = cgroup_dir_path c /\ parent c' = parent c /\ depth c' = depth c /\
    nr_descendants c' = nr_descendants c /\ proc c' = proc c /\ num_of_procs c' = num_of_procs c /\ populated c' = populated c) as H.
  { intros c1. unfold child_switch, with_avalible. destruct (ctl c1). by destruct (_ && _). }
  unfold switch. destruct (decide (j = i)); [|apply H]. destruct (H (with_enabled k v c)) as (-> & -> & -> & -> & -> & -> & ->).
  unfold with_enabled. by destruct (ctl c).
Qed.

Lemma switch_enabled k i v j c q : enabled q (switch k i v j c) = if decide (q = k /\ j = i) then v else enabled q c.
Proof.
  unfold switch, child_switch. assert (forall c1, enabled q (if negb (bool_decide (j = 0%nat)) && bool_decide (parent c1 = Some i) then with_avalible k v c1 else c1) = enabled q c1) as ->.
  { intros c1. destruct (_ && _); [apply enabled_with_avalible|done]. }
  destruct (decide (j = i)) as [->|Hj]; [|by rewrite decide_False by tauto]. rewrite enabled_with_enabled.
  destruct (decide (q = k)); [by rewrite decide_True|by rewrite decide_False by tauto].
Qed.

Lemma switch_avalible k i v j c q : avalible q (switch k i v j c) = if decide (q = k /\ j <> 0%nat /\ parent c = Some i) then v else avalible q c.
Proof.
  unfold switch, child_switch. set (c1 := if decide (j = i) then with_enabled k v c else c).
  assert (parent c1 = parent c /\ avalible q c1 = avalible q c) as [-> Ea].
  { unfold c1. destruct (decide (j = i)); [|done]. split; [|apply avalible_with_enabled]. unfold with_enabled. by destruct (ctl c). }
  destruct (negb (bool_decide (j = 0%nat)) && bool_decide (parent c = Some i)) eqn:E.
  - apply andb_prop in E as [E1%negb_true_iff%bool_decide_eq_false E2%bool_decide_eq_true]. rewrite avalible_with_avalible, Ea.
    destruct (decide (q = k)); [by rewrite decide_True|by rewrite decide_False by tauto].
  - rewrite decide_False; [done|]. intros (_ & E1 & E2). by rewrite bool_decide_eq_false_2, bool_decide_eq_true_2 in E.
Qed.

Lemma switched_ok s s' k i v c : cg_ok s -> cgroups s !! i = Some c -> (v = true -> avalible k c = true) ->
  (v = false -> child_enabled k i (cgroups s) = false) -> cored (switch k i v) s s' -> cg_ok s'.
Proof.
  intros Hok Hc Ht Hf Hcr. destruct (members_ok _ s s' Hok Hcr) as (M1 & M2 & M3); [intros j c1; apply switch_fields|].
  assert (forall j c', cgroups s' !! j = Some c' -> exists c1, cgroups s !! j = Some c1 /\ core_of c' = core_of (switch k i v j c1) /\
    (forall q, enabled q c' = enabled q (switch k i v j c1) /\ avalible q c' = avalible q (switch k i v j c1))) as H.
  { intros j c' E'. destruct (proj2 (proj2 Hcr) j c' E') as (c1 & E & F). exists c1. split_and!; try done.
    intros q. apply ctl_flags. apply core_all in F as (_ & _ & _ & -> & _). done. }
  assert (same_shape (cgroups s) (cgroups s')) as Hs.
  { split; [apply Hcr|]. intros j c' E'. destruct (H j c' E') as (c1 & E & (-> & _ & -> & _ & -> & _)%core_all & _). exists c1.
    destruct (switch_fields k i v j c1) as (-> & -> & -> & _). split_and!; try done. by right. }
  split; [|done|done|done| |].
  - apply (tree_ok_frame (cgroups s)); [apply Hok|done| |].
    + intros j c1 c' E E'. destruct (H j c' E') as (c2 & E2 & (_ & _ & _ & _ & _ & _ & -> & _)%core_all & _). assert (c2 = c1) as -> by congruence.
      apply switch_fields.
    + intros j c1 c' E E' _. destruct (H j c' E') as (c2 & E2 & (_ & _ & _ & _ & _ & -> & _ & -> & ->)%core_all & _).
      assert (c2 = c1) as -> by congruence. destruct (switch_fields k i v j c1) as (_ & _ & _ & -> & _ & -> & ->). done.
  - intros j c' q E' Hl. destruct (H j c' E') as (c1 & E & _ & Hq). destruct (Hq q) as [-> ->]. rewrite (is_live_same _ _ _ Hs) in Hl.
    rewrite switch_enabled, switch_avalible. intros Hen. destruct (decide (q = k /\ j <> 0%nat /\ parent c1 = Some i)) as [(-> & Hj & Hp)|Hno].
    + destruct v; [done|]. specialize (Hf eq_refl). destruct (decide (k = k /\ j = i)); [done|]. exfalso.
      unfold child_enabled in Hf. apply not_true_iff_false in Hf. apply Hf, existsb_exists. exists c1. split; [|by rewrite bool_decide_eq_true_2].
      apply list_elem_of_In. destruct (cgroups s) as [|r t]; [done|]. destruct j; [done|]. simpl in *. by eapply list_elem_of_lookup_2.
    + destruct (decide (q = k /\ j = i)) as [[-> ->]|_]; [subst v; assert (c1 = c) as -> by congruence; by apply Ht|by apply (ok_enabled _ Hok j)].
  - intros j c' p q' x E' Hj Hl Hpar Hp' Hx. destruct (H j c' E') as (c1 & E & (_ & _ & Epar & _)%core_all & Hq). destruct (Hq x) as [_ ->].
    destruct (H p q' Hp') as (p1 & Ep & _ & Hqp). destruct (Hqp x) as [-> _]. rewrite switch_avalible, switch_enabled. rewrite (is_live_same _ _ _ Hs) in Hl.
    destruct (switch_fields k i v j c1) as (_ & Epar' & _). pose proof (ok_avalible _ Hok j c1 p p1 x E Hj Hl) as Hav.
    rewrite Epar' in Epar. rewrite Epar in Hpar. specialize (Hav Hpar Ep Hx).
    destruct (decide (x = k /\ p = i)) as [[-> ->]|Hn]; [by rewrite decide_True|]. rewrite decide_False; [done|]. intros (-> & _ & ?). apply Hn. split; congruence.
Qed.

Lemma cored_inert f s s1 s2 : cored f s s1 -> inert s1 s2 -> cored f s s2.
Proof.
  intros (L1 & P1 & H1) (L2 & _ & P2 & H2). split; [congruence|]. split; [congruence|]. intros j c2 E2.
  destruct (H2 j c2 E2) as (c1 & E1 & F1). destruct (H1 j c1 E1) as (c & E & F). exists c. split; congruence.
Qed.

Lemma cored_upd f g s s1 : (forall j c c', core_of c' = core_of c -> core_of (g j c') = core_of (g j c)) -> cored f s s1 ->
  cored (fun j c => g j (f j c)) s (upd_all g s1).
Proof.
  intros Hg (L & P & H). split; [simpl; by rewrite length_imap|]. split; [done|]. intros j c' E. cbn [upd_all cgroups] in E.
  rewrite list_lookup_imap in E. destruct (cgroups s1 !! j) as [c1|] eqn:E1; [|done]. injection E as <-. destruct (H j c1 E1) as (c & Ec & F).
  exists c. split; [done|]. by apply Hg.
Qed.

Lemma cored_id s : cored (fun _ c => c) s s.
Proof. split; [done|]. split; [done|]. eauto. Qed.

Lemma child_switch_core k i v j c c' : core_of c' = core_of c -> core_of (child_switch k i v j c') = core_of (child_switch k i v j c).
Proof.
  intros F. pose proof F as (F1 & F2 & F3 & F4 & F5 & F6 & F7 & F8 & F9)%core_all. unfold child_switch. rewrite F3. destruct (_ && _); [|done].
  unfold with_avalible. rewrite F4. destruct (ctl c). unfold core_of, frame_of. simpl. congruence.
Qed.

Lemma with_enabled_core k v c c' : core_of c' = core_of c -> core_of (with_enabled k v c') = core_of (with_enabled k v c).
Proof.
  intros F. pose proof F as (F1 & F2 & F3 & F4 & F5 & F6 & F7 & F8 & F9)%core_all.
  unfold with_enabled. rewrite F4. destruct (ctl c). unfold core_of, frame_of. simpl. congruence.
Qed.

(** The flag of the group is set, inert steps follow, and the children are told. *)
Lemma switch_run k i v s s1 : inert (upd_cg i (with_enabled k v) s) s1 ->
  exists s', (set_children k i v ;; mret RESULT_SUCCESS) s1 = inr (RESULT_SUCCESS, s') /\ cored (switch k i v) s s' /\ cg_locked s' = cg_locked s.
Proof.
  intros I. eexists. split; [reflexivity|]. split; [|simpl; apply (proj1 (proj2 I))].
  apply (cored_upd (fun j c => if decide (j = i) then with_enabled k v c else c) (child_switch k i v)); [intros j c c'; apply child_switch_core|].
  eapply cored_inert; [|exact I]. rewrite upd_all_one.
  destruct (cored_upd (fun _ c => c) (fun j c => if decide (j ∈ [i]) then with_enabled k v c else c) s s) as (L & P & H); [|apply cored_id|].
  - intros j c c' F. destruct (decide (j ∈ [i])); [by apply with_enabled_core|done].
  - split; [done|]. split; [done|]. intros j c' E. destruct (H j c' E) as (c & Ec & F). exists c. split; [done|]. rewrite F.
    destruct (decide (j = i)) as [->|Hj]; [by rewrite decide_True by (by left)|by rewrite decide_False by (by rewrite list_elem_of_singleton)].
Qed.

(** What switching the controller [k] of group [i] on or off does. *)
Definition enables (k : controller) (i : nat) (c : cgroup) (r : result_code) (s s' : cgs) : Prop :=
  if populated c then r = RESULT_ERROR /\ s' = s
  else if avalible k c && negb (enabled k c) then (r = RESULT_SUCCESS /\ cored (switch k i true) s s') \/ (k = Mem /\ r = RESULT_ERROR /\ inert s s')
  else (r = RESULT_SUCCESS /\ inert s s') \/ (k = Mem /\ r = RESULT_ERROR /\ inert s s').
Definition disables (k : controller) (i : nat) (c : cgroup) (r : result_code) (s s' : cgs) : Prop :=
  if negb (enabled k c) then r = RESULT_SUCCESS /\ s' = s
  else if child_enabled k i (cgroups s) then r = RESULT_ERROR /\ s' = s
  else r = RESULT_SUCCESS /\ cored (switch k i false) s s'.

Lemma enables_ok k i c r s s' : cg_ok s -> cgroups s !! i = Some c -> enables k i c r s s' -> cg_ok s'.
Proof.
  intros Hok Hc. unfold enables. destruct (populated c); [by intros [_ ->]|]. destruct (avalible k c && negb (enabled k c)) eqn:E.
  - apply andb_prop in E as [E _]. intros [[_ H]|(_ & _ & H)]; [by apply (switched_ok s s' k i true c)|by apply (inert_ok s)].
  - intros [[_ H]|(_ & _ & H)]; by apply (inert_ok s).
Qed.

Lemma disables_ok k i c r s s' : cg_ok s -> cgroups s !! i = Some c -> disables k i c r s s' -> cg_ok s'.
Proof.
  intros Hok Hc. unfold disables. destruct (negb (enabled k c)); [by intros [_ ->]|].
  destruct (child_enabled k i (cgroups s)) eqn:E; [by intros [_ ->]|]. intros [_ H]. by apply (switched_ok s s' k i false c).
Qed.

Lemma enable_run k i s c : cgroups s !! i = Some c ->
  exists r s', enable_controller k (Some i) s = inr (r, s') /\ cg_locked s' = cg_locked s /\ enables k i c r s s'.
Proof.
  intros Hc. unfold enable_controller, enables. step (get_cg_run s i c Hc). destruct (populated c); [by exists RESULT_ERROR, s|].
  pose proof (inert_refl s) as Hr. destruct (enabled k c); [exists RESULT_SUCCESS, s; rewrite andb_false_r; auto|]. rewrite andb_true_r.
  destruct (avalible k c); [|exists RESULT_SUCCESS, s; auto]. rewrite modS_bind.
  destruct (switch_run k i true s _ (inert_refl _)) as (s' & E & H & L). exists RESULT_SUCCESS, s'. auto.
Qed.

Lemma disable_run k i s c : cgroups s !! i = Some c ->
  exists r s', disable_controller k (Some i) s = inr (r, s') /\ cg_locked s' = cg_locked s /\ disables k i c r s s'.
Proof.
  intros Hc. unfold disable_controller, disables. step (get_cg_run s i c Hc). destruct (negb (enabled k c)); [by exists RESULT_SUCCESS, s|].
  step (getS_run s). destruct (child_enabled k i (cgroups s)); [by exists RESULT_ERROR, s|]. rewrite modS_bind.
  destruct (switch_run k i false s _ (inert_refl _)) as (s' & E & H & L). exists RESULT_SUCCESS, s'. auto.
Qed.

Lemma enable_mem_run i s c : cgroups s !! i = Some c ->
  exists r s', unsafe_enable_mem_controller (Some i) s = inr (r, s') /\ cg_locked s' = cg_locked s /\ enables Mem i c r s s'.
Proof.
  intros Hc. unfold unsafe_enable_mem_controller, enables. step (get_cg_run s i c Hc). destruct (populated c); [by exists RESULT_ERROR, s|].
  pose proof (inert_refl s) as Hr. destruct (enabled Mem c); [exists RESULT_SUCCESS, s; rewrite andb_false_r; auto|]. rewrite andb_true_r. cbv zeta.
  set (protect := s32 _).
  assert (exists r s1, (if 0 <? protect then onkh (increse_protect_counter protect) else mret 0) s = inr (r, s1) /\ inert s s1) as (r & s1 & E & I).
  { destruct (0 <? protect); [|by exists 0, s]. destruct (increse_total protect (kh s)) as (r & h & E). exists r.
    by apply (onkh_inert _ s r h). }
  step E. pose proof (proj1 (proj2 I)) as EL. destruct (negb (r =? 0)).
  - exists RESULT_ERROR, s1. split; [done|]. split; [done|]. destruct (avalible Mem c); right; auto.
  - destruct (avalible Mem c); [|exists RESULT_SUCCESS, s1; auto 6]. rewrite modS_bind.
    destruct (switch_run Mem i true s1 _ (inert_refl _)) as (s' & E' & (L' & P' & H') & L). exists RESULT_SUCCESS, s'.
    split; [done|]. split; [congruence|]. left. split; [done|]. destruct I as (L1 & _ & P1 & H1). split; [congruence|]. split; [congruence|].
    intros j c' Ej. destruct (H' j c' Ej) as (c1 & E1 & F). destruct (H1 j c1 E1) as (c0 & E0 & F0). exists c0. split; [done|]. rewrite F.
    unfold switch. apply child_switch_core. destruct (decide (j = i)); [by apply with_enabled_core|done].
Qed.

Lemma disable_mem_run i s c : length (cgroups s) = NPROC -> cgroups s !! i = Some c ->
  exists r s', unsafe_disable_mem_controller (Some i) s = inr (r, s') /\ cg_locked s' = cg_locked s /\ disables Mem i c r s s'.
Proof.
  intros Hlen Hc. unfold unsafe_disable_mem_controller, disables. step (get_cg_run s i c Hc).
  destruct (negb (enabled Mem c)); [by exists RESULT_SUCCESS, s|].
  step (getS_run s). destruct (child_enabled Mem i (cgroups s)); [by exists RESULT_ERROR, s|]. rewrite modS_bind.
  assert (i < NPROC)%nat as Hi by (rewrite <- Hlen; by eapply lookup_lt_Some).
  set (s1 := upd_cg i _ s). assert (length (cgroups s1) = NPROC) as L1 by (simpl; by rewrite length_alter).
  destruct (inert_then _ s1 s1 (set_min_mem_inert i 0 Hi) L1 (inert_refl s1)) as (r2 & s2 & E2 & I2 & L2). step E2.
  destruct (inert_then _ s1 s2 (set_max_mem_inert i KERNBASE Hi) L2 I2) as (r3 & s3 & E3 & I3 & L3). step E3.
  destruct (switch_run Mem i false s s3 I3) as (s' & E & H & L). exists RESULT_SUCCESS, s'. auto.
Qed.

(** ** Every other call is inert when it returns *)

Definition inertR {A} (m : M cgs A) : Prop := forall s a s', m s = inr (a, s') -> inert s s'.

Lemma inertR_ret {A} (a : A) : inertR (mret a).
Proof. intros s b s' [= _ <-]. apply inert_refl. Qed.
Lemma inertR_bind {A B} (m : M cgs A) (k : A -> M cgs B) : inertR m -> (forall a, inertR (k a)) -> inertR (m ≫= k).
Proof. intros Hm Hk s b s' (a & s1 & E1 & E2)%bind_inr. eapply inert_trans; [by eapply Hm|by eapply Hk]. Qed.
Lemma inertR_mod j f : (forall c, core_of (f c) = core_of c) -> inertR (modS (upd_cg j f)).
Proof. intros Hf s a s' [= _ <-]. by apply inert_upd. Qed.
Lemma inertR_deref {A} (x : option A) : inertR (deref x).
Proof. intros s a s' (_ & ->)%deref_inr. apply inert_refl. Qed.
Lemma inertR_getS : inertR (@getS cgs).
Proof. intros s a s' [= _ <-]. apply inert_refl. Qed.
Lemma inertR_panic {A} msg : inertR (@panic cgs A msg).
Proof. by intros s a s'. Qed.
Lemma inertR_nofuel {A} : inertR (@nofuel cgs A).
Proof. by intros s a s'. Qed.
Lemma inertR_kh {A} (m : M kheap A) : inertR (onkh m).
Proof. intros s a s'. unfold onkh. destruct (m (kh s)) as [|[? k]]; [done|]. intros [= _ <-]. apply inert_kh. Qed.
Lemma inertR_get i : inertR (get_cg i).
Proof. unfold get_cg. apply inertR_bind; [apply inertR_getS|intros; apply inertR_deref]. Qed.

Create HintDb inertr.
#[export] Hint Resolve inertR_ret inertR_deref inertR_getS inertR_panic inertR_nofuel inertR_kh inertR_get : inertr.

Ltac inertr := repeat first
  [ solve [auto 2 with inertr nocore] | apply inertR_bind; [|intros ?] | apply inertR_mod; done | case_match | case_decide ].

Lemma up_inert f : (forall c, core_of (f c) = core_of c) -> forall fuel i, inertR (up fuel f i).
Proof. intros Hf. induction fuel as [|fuel IH]; intros [i|]; cbn [up]; inertr. Qed.

Lemma set_max_mem_inertR i n : inertR (set_max_mem i n).
Proof. unfold set_max_mem. inertr. Qed.
Lemma set_protect_mem_inertR i n : inertR (set_protect_mem i n).
Proof. unfold set_protect_mem. inertr. Qed.
#[export] Hint Resolve set_max_mem_inertR set_protect_mem_inertR : inertr.
Lemma set_min_mem_inertR i n : inertR (set_min_mem i n).
Proof. unfold set_min_mem. inertr. Qed.
Lemma on_stat_inertR f i : inertR (on_stat f i).
Proof. unfold on_stat. inertr. Qed.
Lemma add_io_inertR i maj min : inertR (cgroup_add_io_device i maj min).
Proof. unfold cgroup_add_io_device. inertr. Qed.
Lemma remove_io_inertR i maj min : inertR (cgroup_remove_io_device i maj min).
Proof. unfold cgroup_remove_io_device. inertr. Qed.
Lemma dying_inertR i : inertR (decrement_nr_dying_descendants i).
Proof. by apply up_inert. Qed.

(** The calls that only set limits and statistics. *)
Inductive setting : M cgs unit -> Prop :=
| se_descendants i v : setting (set_max_descendants_value i v)
| se_depth i v : setting (set_max_depth_value i v)
| se_procs i v : setting (set_max_procs i v ;; mret tt)
| se_cpu i v : setting (set_cpu_id i v ;; mret tt)
| se_frz i v : setting (frz_grp i v ;; mret tt)
| se_max_mem i v : setting (set_max_mem i v ;; mret tt)
| se_min_mem i v : setting (set_min_mem i v ;; mret tt)
| se_dirty i : setting (cgroup_mem_stat_file_dirty_incr i)
| se_clean i : setting (cgroup_mem_stat_file_dirty_decr i)
| se_aggregated i : setting (cgroup_mem_stat_file_dirty_aggregated_incr i)
| se_pgfault i : setting (cgroup_mem_stat_pgfault_incr i)
| se_pgmajfault i : setting (cgroup_mem_stat_pgmajfault_incr i)
| se_add_io i maj min : setting (cgroup_add_io_device i maj min)
| se_remove_io i maj min : setting (cgroup_remove_io_device i maj min)
| se_dying i : setting (decrement_nr_dying_descendants i).

#[export] Hint Resolve set_min_mem_inertR on_stat_inertR add_io_inertR remove_io_inertR dying_inertR : inertr.

Lemma setting_inert m : setting m -> inertR m.
Proof.
  destruct 1; unfold set_max_descendants_value, set_max_depth_value, set_max_procs, set_cpu_id, frz_grp,
    cgroup_mem_stat_file_dirty_incr, cgroup_mem_stat_file_dirty_decr, cgroup_mem_stat_file_dirty_aggregated_incr,
    cgroup_mem_stat_pgfault_incr, cgroup_mem_stat_pgmajfault_incr; inertr.
Qed.

(** ** Changes of the root's path and of the reference counts *)

Lemma shape_kept_ok f s s' : cg_ok s -> cored f s s' ->
  (forall j c, ctl (f j c) = ctl c /\ parent (f j c) = parent c /\ depth (f j c) = depth c /\ nr_descendants (f j c) = nr_descendants c /\
    proc (f j c) = proc c /\ num_of_procs (f j c) = num_of_procs c /\ populated (f j c) = populated c /\
    (j = 0%nat \/ cgroup_dir_path (f j c) = cgroup_dir_path c)) -> cg_ok s'.
Proof.
  intros Hok Hc Hf. destruct (members_ok f s s' Hok Hc (fun j c => proj1 (proj2 (proj2 (proj2 (proj2 (Hf j c))))))) as (M1 & M2 & M3).
  assert (forall j c', cgroups s' !! j = Some c' -> exists c, cgroups s !! j = Some c /\ ctl c' = ctl c /\ parent c' = parent c /\ depth c' = depth c /\
    nr_descendants c' = nr_descendants c /\ proc c' = proc c /\ num_of_procs c' = num_of_procs c /\ populated c' = populated c /\
    (j = 0%nat \/ cgroup_dir_path c' = cgroup_dir_path c)) as H.
  { intros j c' E'. destruct (proj2 (proj2 Hc) j c' E') as (c & E & F). exists c. split; [done|].
    apply core_all in F as (-> & _ & -> & -> & -> & -> & -> & -> & ->). apply Hf. }
  assert (same_shape (cgroups s) (cgroups s')) as Hs.
  { split; [apply Hc|]. intros j c' E'. destruct (H j c' E') as (c & E & _ & Ep & Ed & _ & _ & _ & _ & Epath). exists c. split_and!; try done.
    destruct Epath as [?| ->]; [by left|by right]. }
  split; [|done|done|done| |].
  - apply (tree_ok_frame (cgroups s)); [apply Hok|done| |].
    + intros j c c' E E'. destruct (H j c' E') as (c1 & E1 & _ & _ & _ & _ & -> & _). congruence.
    + intros j c c' E E' _. destruct (H j c' E') as (c1 & E1 & _ & _ & _ & -> & _ & -> & -> & _). assert (c1 = c) as -> by congruence. done.
  - intros j c' q E' Hl. destruct (H j c' E') as (c & E & Ectl & _). rewrite (is_live_same _ _ _ Hs) in Hl.
    destruct (ctl_flags c c' q Ectl) as [-> ->]. by apply (ok_enabled _ Hok j).
  - intros j c' p q x E' Hj Hl Hpar Hq Hx. destruct (H j c' E') as (c & E & Ectl & Epar & _). destruct (H p q Hq) as (q0 & Eq & Ectlq & _).
    rewrite (is_live_same _ _ _ Hs) in Hl. destruct (ctl_flags c c' x Ectl) as [_ ->], (ctl_flags q0 q x Ectlq) as [-> _].
    apply (ok_avalible _ Hok j c p q0); congruence.
Qed.

Lemma upd_one_cored i g s : cored (fun j c => if decide (i = j) then g c else c) s (upd_cg i g s).
Proof.
  split; [simpl; apply length_alter|]. split; [done|]. intros j c'. simpl. rewrite list_lookup_alter. destruct (decide (i = j)) as [->|]; [|eauto].
  destruct (cgroups s !! j) as [c|]; simpl; [|done]. intros [= <-]. eauto.
Qed.

Lemma mount_ok cwdp path s s' : cg_ok s -> unsafe_set_cgroup_dir_path cwdp cgroup_root path s = inr (tt, s') -> cg_ok s'.
Proof.
  intros Hok. unfold unsafe_set_cgroup_dir_path. intros (f & s1 & [_ ->]%deref_inr & H)%bind_inr. case_decide; [by injection H as <-|].
  injection H as <-. apply (shape_kept_ok _ _ _ Hok (upd_one_cored _ _ _)). intros j c. destruct (decide (cgroup_root = j)) as [<-|]; split_and!; auto.
Qed.

Lemma ref_ok i v s : cg_ok s -> cg_ok (upd_cg i (with_ref_count v) s).
Proof.
  intros Hok. apply (shape_kept_ok _ _ _ Hok (upd_one_cored _ _ _)). intros j c. destruct (decide (i = j)); split_and!; auto.
Qed.

(** ** Reachable states *)

(** The calls of the rest of the kernel on the control groups, and what it does between them: files of a group are opened
    and closed, a slot of the process table outside every group is reused, and the size of a process changes. *)
Inductive cg_step (s : cgs) : cgs -> Prop :=
| st_create cwdp path r s' : cgroup_create cwdp path s = inr (r, s') -> cg_step s s'
| st_delete cwdp path type r s' : cgroup_delete cwdp path type s = inr (r, s') -> cg_step s s'
| st_insert i p r s' : is_live (cgroups s) i = true -> cgroup_insert i p s = inr (r, s') -> cg_step s s'
| st_erase i p x s' : ptab s !! p = Some x -> p_cgroup x = Some i -> cgroup_erase i p s = inr (tt, s') -> cg_step s s'
| st_enable k i r s' : k <> Mem -> (i < NPROC)%nat -> locked_call (enable_controller k (Some i)) s = inr (r, s') -> cg_step s s'
| st_disable k i r s' : k <> Mem -> (i < NPROC)%nat -> locked_call (disable_controller k (Some i)) s = inr (r, s') -> cg_step s s'
| st_enable_mem i r s' : (i < NPROC)%nat -> enable_mem_controller (Some i) s = inr (r, s') -> cg_step s s'
| st_disable_mem i r s' : (i < NPROC)%nat -> disable_mem_controller (Some i) s = inr (r, s') -> cg_step s s'
| st_mount cwdp path s' : set_cgroup_dir_path cwdp cgroup_root path s = inr (tt, s') -> cg_step s s'
| st_open i v : cg_step s (upd_cg i (with_ref_count v) s)
| st_setting m s' : setting m -> m s = inr (tt, s') -> cg_step s s'
| st_size p n : cg_step s (upd_proc p (fun x => Cproc n (p_cgroup x)) s)
| st_spawn p n : absent p s -> cg_step s (upd_proc p (fun _ => Cproc n None) s).

Lemma locked_inr {A} (m : M cgs A) s r s' : locked_call m s = inr (r, s') ->
  cg_locked s = false /\ exists s1, m (set_locked true s) = inr (r, s1) /\ s' = set_locked false s1.
Proof.
  unfold locked_call. intros (u & s0 & E0 & H)%bind_inr. apply bind_inr in H as (a & s1 & E1 & H). apply bind_inr in H as (u' & s2 & E2 & [= -> ->]).
  revert E0. unfold cgroup_lock. mrun. destruct (cg_locked s) eqn:El; [done|]. intros [= <- <-]. split; [done|]. exists s1. split; [done|].
  revert E2. unfold cgroup_unlock. mrun. destruct (cg_locked s1); [|done]. by intros [= _ <-].
Qed.

Lemma upd_proc_ok s p f : cg_ok s -> (forall x, ptab s !! p = Some x -> p_cgroup (f x) = p_cgroup x \/ absent p s /\ p_cgroup (f x) = None) ->
  cg_ok (upd_proc p f s).
Proof.
  intros Hok Hf. pose proof Hok as [H1 H2 H3 H4 H5 H6]. split; try done; cbn [upd_proc cgroups ptab].
  - intros i c k q Hc Hk. destruct (H2 i c k q Hc Hk) as (x & Hx & Hi). rewrite list_lookup_alter. destruct (decide (p = q)) as [->|]; [|eauto].
    rewrite Hx. exists (f x). split; [done|]. destruct (Hf x Hx) as [->|[Hab _]]; [done|]. by destruct (Hab i c k Hc).
  - intros q x i. rewrite list_lookup_alter. destruct (decide (p = q)) as [->|]; [|apply H4]. destruct (ptab s !! q) as [y|] eqn:Ey; simpl; [|done].
    intros [= <-] Hi. destruct (Hf y eq_refl) as [E|[_ E]]; rewrite E in Hi; [by apply (H4 q y)|done].
Qed.

Lemma delete_step cwdp path type s r s' : cg_ok s -> cg_locked s = false -> cgroup_delete cwdp path type s = inr (r, s') -> cg_ok s' /\ cg_locked s' = false.
Proof.
  intros Hok Hlk H. pose proof H as H0. unfold cgroup_delete in H. apply bind_inr in H as (u & s4 & _ & H). apply bind_inr in H as (o & s5 & Ho & _).
  unfold unsafe_get_cgroup_by_path in Ho. apply bind_inr in Ho as (f & s6 & (Hf & ->)%deref_inr & _).
  pose proof (delete_run cwdp path type s f Hok Hlk Hf) as Hrun. destruct (named (cgroups s) f) as [i|].
  - destruct Hrun as (c & Hc & Hrun). destruct (can_delete type i c).
    + destruct Hrun as (s'' & l & E & ? & ? & _). rewrite E in H0. by injection H0 as <- <-.
    + rewrite Hrun in H0. by injection H0 as <- <-.
  - rewrite Hrun in H0. by injection H0 as <- <-.
Qed.

Lemma insert_proc i p s r s' : unsafe_cgroup_insert i p s = inr (r, s') -> exists x, ptab s !! p = Some x.
Proof.
  unfold unsafe_cgroup_insert. intros (c & s1 & E1 & E)%bind_inr. apply bind_inr in E as (x & s2 & E2 & _).
  apply bind_inr in E1 as (t & s3 & [= <- <-] & [_ ->]%deref_inr). apply bind_inr in E2 as (t & s4 & [= <- <-] & [Hx _]%deref_inr). eauto.
Qed.

Lemma cg_step_ok s s' : cg_ok s -> cg_locked s = false -> cg_step s s' -> cg_ok s' /\ cg_locked s' = false.
Proof.
  intros Hok Hlk Hst. assert (forall i, (i < NPROC)%nat -> exists c, cgroups s !! i = Some c) as Hget.
  { intros i Hi. apply lookup_lt_is_Some_2. by rewrite (to_len _ (ok_tree _ Hok)). }
  pose proof (cg_ok_locked true s Hok) as Hok0.
  destruct Hst as [cwdp path r s' E|cwdp path type r s' E|i p r s' Hl E|i p x s' Hx Hi E|k i r s' _ Hi E|k i r s' _ Hi E|i r s' Hi E|i r s' Hi E|cwdp path s' E|i v|m s' Hm E|p n|p n Hab].
  - exact (create_step cwdp path s r s' Hok Hlk E).
  - exact (delete_step cwdp path type s r s' Hok Hlk E).
  - apply locked_inr in E as (_ & s1 & E & ->). destruct (live_in s i Hok Hl) as (c & Hc & _). split; [|done]. apply cg_ok_locked.
    destruct (insert_proc _ _ _ _ _ E) as [x Hx].
    destruct (insert_run (set_locked true s) i p c x Hok0 Hl Hc Hx) as (r' & s2 & E' & _ & H & _). congruence.
  - apply locked_inr in E as (_ & s1 & E & ->). split; [|done]. apply cg_ok_locked.
    destruct (erase_run (set_locked true s) i p x Hok0 Hx Hi) as (s2 & E' & H & _). congruence.
  - apply locked_inr in E as (_ & s1 & E & ->). split; [|done]. apply cg_ok_locked. destruct (Hget i Hi) as [c Hc].
    destruct (enable_run k i (set_locked true s) c Hc) as (r' & s2 & E' & _ & H). assert (s2 = s1) as -> by congruence. exact (enables_ok _ i c _ _ _ Hok0 Hc H).
  - apply locked_inr in E as (_ & s1 & E & ->). split; [|done]. apply cg_ok_locked. destruct (Hget i Hi) as [c Hc].
    destruct (disable_run k i (set_locked true s) c Hc) as (r' & s2 & E' & _ & H). assert (s2 = s1) as -> by congruence. exact (disables_ok _ i c _ _ _ Hok0 Hc H).
  - apply locked_inr in E as (_ & s1 & E & ->). split; [|done]. apply cg_ok_locked. destruct (Hget i Hi) as [c Hc].
    destruct (enable_mem_run i (set_locked true s) c Hc) as (r' & s2 & E' & _ & H). assert (s2 = s1) as -> by congruence. exact (enables_ok _ i c _ _ _ Hok0 Hc H).
  - apply locked_inr in E as (_ & s1 & E & ->). split; [|done]. apply cg_ok_locked. destruct (Hget i Hi) as [c Hc].
    destruct (disable_mem_run i (set_locked true s) c (to_len _ (ok_tree _ Hok)) Hc) as (r' & s2 & E' & _ & H). assert (s2 = s1) as -> by congruence. exact (disables_ok _ i c _ _ _ Hok0 Hc H).
  - apply locked_inr in E as (_ & s1 & E & ->). split; [|done]. apply cg_ok_locked. by apply (mount_ok cwdp path (set_locked true s)).
  - split; [by apply ref_ok|done].
  - apply (setting_inert m Hm) in E. split; [by apply (inert_ok s)|]. by rewrite (proj1 (proj2 E)).
  - split; [|done]. apply upd_proc_ok; [done|]. by left.
  - split; [|done]. apply upd_proc_ok; [done|]. by right.
Qed.


(** ** The table when [userinit] has initialised the root group *)

Definition zero_cgroup : cgroup :=
  Cgroup [] 0 (replicate NPROC None) 0 None (Controllers false false false false false false false false) false
    0 0 0 0 0 0 0 0 (MemAcct 0 0 0 0 0 0 0 0 0) (CpuAcct 0 0 0 0 0 0 0 0 0 0) 0 (replicate NDEV no_io).
Definition boot_table (h : kheap) : cgs := Cgs (replicate NPROC zero_cgroup) false (replicate NPROC (Cproc 0 None)) h.
Definition booted (h : kheap) : cgs :=
  match cgroup_initialize [] cgroup_root [] None (boot_table h) with inr (_, s) => s | inl _ => boot_table h end.

Definition boot_root : cgroup := default zero_cgroup (cgroups (booted (Kheap (Kmem false 0 0 0) (fun _ => 0))) !! 0%nat).

Lemma booted_table h : booted h = Cgs (boot_root :: replicate (pred NPROC) zero_cgroup) false (replicate NPROC (Cproc 0 None)) h.
Proof. vm_compute. reflexivity. Qed.

Lemma boot_slot h i c : cgroups (booted h) !! i = Some c -> i = 0%nat /\ c = boot_root \/ i <> 0%nat /\ c = zero_cgroup.
Proof.
  rewrite booted_table. cbn [cgroups]. destruct i as [|i]; cbn [lookup list_lookup]; [intros [= <-]; by left|].
  intros [-> _]%lookup_replicate_1. by right.
Qed.

Section Boot.
Context (s : cgs).
Hypothesis Hslot : forall i c, cgroups s !! i = Some c -> i = 0%nat /\ c = boot_root \/ i <> 0%nat /\ c = zero_cgroup.
Hypothesis Hroot : length (cgroups s) = NPROC /\ cgroups s !! 0%nat = Some boot_root.
Hypothesis Hnone : descendants (cgroups s) 0 = 0%nat /\ members (cgroups s) 0 = 0%nat.
Hypothesis Hproc : forall p x, ptab s !! p = Some x -> p_cgroup x = None.

Lemma boot_live i c : cgroups s !! i = Some c -> is_live (cgroups s) i = true -> i = 0%nat /\ c = boot_root.
Proof.
  intros Hc. unfold is_live. rewrite Hc. destruct (Hslot i c Hc) as [?|[Hi ->]]; [done|]. by rewrite bool_decide_eq_false_2.
Qed.

Lemma boot_procs i c : cgroups s !! i = Some c -> proc c = replicate NPROC None.
Proof. intros Hc. by destruct (Hslot i c Hc) as [[_ ->]|[_ ->]]. Qed.

Lemma boot_tree : tree_ok (cgroups s).
Proof.
  destruct Hroot as [Hl H0], Hnone as [Hd Hm]. split; [done|by exists boot_root| | | | | |]; intros i c Hc.
  - intros Hi Hli. destruct (boot_live i c Hc Hli). done.
  - intros Hli. by destruct (boot_live i c Hc Hli) as [_ ->].
  - intros Hli. destruct (boot_live i c Hc Hli) as [-> ->]. by rewrite Hd.
  - intros Hli. destruct (boot_live i c Hc Hli) as [-> ->]. by rewrite Hm.
  - by rewrite (boot_procs i c Hc).
  - intros _. unfold nprocs. by rewrite Hc, (boot_procs i c Hc).
Qed.

Lemma boot_cg_ok : cg_ok s.
Proof.
  split; [apply boot_tree| | | | |].
  - intros i c k p Hc Hk. rewrite (boot_procs i c Hc) in Hk. by apply lookup_replicate_1 in Hk as [? _].
  - intros i c k k' p Hc Hk. rewrite (boot_procs i c Hc) in Hk. by apply lookup_replicate_1 in Hk as [? _].
  - intros p x i Hx. by rewrite (Hproc p x Hx).
  - intros i c k Hc Hl. destruct (boot_live i c Hc Hl) as [_ ->]. by destruct k.
  - intros i c j p k Hc Hi Hl. by destruct (boot_live i c Hc Hl).
Qed.

End Boot.

Lemma booted_ok h : cg_ok (booted h).
Proof.
  apply boot_cg_ok; [exact (boot_slot h)| | |]; rewrite booted_table.
  - split; vm_compute; reflexivity.
  - split; vm_compute; reflexivity.
  - intros p x [-> _]%lookup_replicate_1. reflexivity.
Qed.

Lemma reachable_inv h s : rtc cg_step (booted h) s -> cg_ok s /\ cg_locked s = false.
Proof.
  intros H. assert (forall s0, rtc cg_step s0 s -> cg_ok s0 -> cg_locked s0 = false -> cg_ok s /\ cg_locked s = false) as Hgen.
  { clear H. intros s0. induction 1 as [s1|s1 s2 s3 Hst _ IH]; [done|]. intros Hok Hlk. destruct (cg_step_ok s1 s2 Hok Hlk Hst). by apply IH. }
  apply (Hgen _ H); [exact (booted_ok h)|rewrite booted_table; reflexivity].
Qed.

(** ** Properties *)

Definition after {A} (m : M cgs A) (s : cgs) : cgs := match m s with inr (_, s') => s' | inl _ => s end.

Definition demo_heap : kheap := Kheap (Kmem false 0 0 0) (fun _ => 0).
Definition demo_mounted : cgs := after (set_cgroup_dir_path [] cgroup_root (word_of "/c")) (booted demo_heap).
Definition demo_created : cgs := after (cgroup_create [] (word_of "/c/a")) demo_mounted.
Definition demo_joined : cgs := after (cgroup_insert 1 5) demo_created.

Lemma demo_reachable : rtc cg_step (booted demo_heap) demo_mounted /\ rtc cg_step (booted demo_heap) demo_created /\ rtc cg_step (booted demo_heap) demo_joined.
Proof.
  assert (cg_step (booted demo_heap) demo_mounted) as S1 by (apply (st_mount _ [] (word_of "/c")); vm_compute; reflexivity).
  assert (cg_step demo_mounted demo_created) as S2 by (apply (st_create _ [] (word_of "/c/a") (Some 1%nat)); vm_compute; reflexivity).
  assert (cg_step demo_created demo_joined) as S3 by (apply (st_insert _ 1 5 RESULT_SUCCESS); vm_compute; reflexivity).
  split; [exact (rtc_once _ _ S1)|]. split; [exact (rtc_l _ _ _ _ S1 (rtc_once _ _ S2))|].
  exact (rtc_l _ _ _ _ S1 (rtc_l _ _ _ _ S2 (rtc_once _ _ S3))).
Qed.

(** C36: after any sequence of calls the counters of every live group are exact: [nr_descendants] is the number of live
    groups below it, [num_of_procs] the number of processes in it and below, [populated] tells whether there is one, and
    its depth is the number of its ancestors.  The lock is free. *)
Theorem cgroup_counters_exact h s i c :
  rtc cg_step (booted h) s -> cgroups s !! i = Some c -> is_live (cgroups s) i = true ->
  cg_locked s = false /\
  nr_descendants c = Z.of_nat (descendants (cgroups s) i) /\
  num_of_procs c = Z.of_nat (members (cgroups s) i) /\
  populated c = negb (bool_decide (members (cgroups s) i = 0%nat)) /\
  depth c = Z.of_nat (length (ancestors (S NPROC) (cgroups s) i)) - 1.
Proof.
  intros H Hc Hl. destruct (reachable_inv h s H) as [Hok Hlk]. pose proof (ok_tree _ Hok) as Ht.
  destruct (to_procs _ Ht i c Hc Hl) as [H1 H2]. split; [done|]. split; [by apply (to_desc _ Ht)|]. split; [done|]. split; [done|].
  destruct (live_ancestors _ i Ht Hl) as (l & Hch & -> & _). by apply (chain_depth _ i l Ht Hch).
Qed.

Lemma cgroup_counters_exact_witness :
  exists c, cgroups demo_joined !! 0%nat = Some c /\ nr_descendants c = 1 /\ num_of_procs c = 1 /\ populated c = true /\
    num_of_procs c = Z.of_nat (members (cgroups demo_joined) 0).
Proof.
  destruct (cgroups demo_joined !! 0%nat) as [c|] eqn:E; [|vm_compute in E; discriminate E]. exists c. split; [reflexivity|].
  destruct (cgroup_counters_exact demo_heap demo_joined 0 c (proj2 (proj2 demo_reachable)) E) as (_ & H1 & H2 & H3 & _); [vm_compute; reflexivity|].
  split; [rewrite H1; vm_compute; reflexivity|]. split; [rewrite H2; vm_compute; reflexivity|]. split; [rewrite H3; vm_compute; reflexivity|exact H2].
Defined.

(** C37: after any sequence of calls a process that is listed in a group is in the process table with that group as its
    own and is listed once; in particular no process is in two groups.  A process whose group is not the root is listed
    there, and that group is live. *)
Theorem cgroup_membership_unique h s : rtc cg_step (booted h) s ->
  (forall i j ci cj k k' p, cgroups s !! i = Some ci -> cgroups s !! j = Some cj -> proc ci !! k = Some (Some p) -> proc cj !! k' = Some (Some p) ->
     i = j /\ k = k' /\ exists x, ptab s !! p = Some x /\ p_cgroup x = Some i) /\
  (forall p x i, ptab s !! p = Some x -> p_cgroup x = Some i ->
     is_live (cgroups s) i = true /\ (i <> cgroup_root -> exists c k, cgroups s !! i = Some c /\ proc c !! k = Some (Some p))).
Proof.
  intros H. destruct (reachable_inv h s H) as [Hok _]. split.
  - intros i j ci cj k k' p Hi Hj Hk Hk'. destruct (ok_member _ Hok i ci k p Hi Hk) as (x & Hx & Ex).
    destruct (ok_member _ Hok j cj k' p Hj Hk') as (x' & Hx' & Ex'). assert (i = j) as -> by congruence. assert (ci = cj) as -> by congruence.
    split; [done|]. split; [by apply (ok_unique _ Hok j cj k k' p)|eauto].
  - intros p x i Hx Hi. split; [by apply (p_cgroup_live s p x)|]. intros Hne. by destruct (ok_group _ Hok p x i Hx Hi) as [?|?].
Qed.

Lemma cgroup_membership_unique_witness : is_live (cgroups demo_joined) 1 = true /\
  exists c k, cgroups demo_joined !! 1%nat = Some c /\ proc c !! k = Some (Some 5%nat).
Proof.
  destruct (cgroup_membership_unique demo_heap demo_joined (proj2 (proj2 demo_reachable))) as [_ H].
  destruct (H 5%nat (Cproc 0 (Some 1%nat)) 1%nat) as [H1 H2]; [vm_compute; reflexivity|reflexivity|]. split; [exact H1|]. apply H2. discriminate.
Defined.



(** What [cgroup_create] does, on every branch.  Without a parent directory that is a group it returns null and
    changes nothing; when an ancestor is full or too deep, or no slot is free, it panics; otherwise it takes the first
    free slot, which becomes a live leaf under the parent with the formatted path and every controller off, counts it
    in the ancestors and leaves the path, parent, controllers and processes of every other group alone. *)
Lemma cgroup_create_outcomes h s cwdp path fp d b dp f :
  rtc cg_step (booted h) s -> format_path cwdp path = Some fp -> get_dir_name cwdp fp = Some d -> get_base_name cwdp fp = Some b ->
  format_path cwdp d.2 = Some dp -> format_path cwdp fp = Some f ->
  match parent_of (cgroups s) d b dp with
  | None => cgroup_create cwdp path s = inr (None, s)
  | Some pi =>
      match (if limits (cgroups s) 0 (ancestors (S NPROC) (cgroups s) pi) then free_slot (cgroups s) else None) with
      | None => exists msg, cgroup_create cwdp path s = inl (Panic msg)
      | Some k => exists s' ck, cgroup_create cwdp path s = inr (Some k, s') /\
          is_live (cgroups s) k = false /\ is_live (cgroups s') k = true /\
          cgroups s' !! k = Some ck /\ cgroup_dir_path ck = f /\ parent ck = Some pi /\ (forall q, enabled q ck = false) /\
          (forall j c', j <> k -> cgroups s' !! j = Some c' -> exists c, cgroups s !! j = Some c /\
             cgroup_dir_path c' = cgroup_dir_path c /\ parent c' = parent c /\ ctl c' = ctl c /\ proc c' = proc c) /\
          (forall a, descendants (cgroups s') a = (descendants (cgroups s) a + if decide (a ∈ ancestors (S NPROC) (cgroups s) pi) then 1 else 0)%nat)
      end
  end.
Proof.
  intros H Hfp Hd Hb Hdp Hf. destruct (reachable_inv h s H) as [Hok Hlk].
  pose proof (create_run cwdp path s fp d b dp f Hok Hlk Hfp Hd Hb Hdp Hf) as Hrun. unfold parent_of in *.
  destruct ((d.1 <? 0) || (b.1 <? 0)) eqn:En; [done|]. apply orb_false_elim in En as [_ Hb0%Z.ltb_ge].
  destruct (named (cgroups s) dp) as [pi|] eqn:Ep; [|done]. destruct (if limits _ _ _ then _ else _) as [k|] eqn:Ek; [|done].
  destruct Hrun as (s' & p & l & E & _ & _ & Hp & Hl & Hk & Hc). destruct (named_live _ _ _ Ep) as (p' & Hp' & _ & Hlp).
  assert (f <> []) as Hne by (destruct (base_nonempty _ _ _ Hb Hb0) as (f' & Hf' & Hne); congruence).
  assert (k < NPROC)%nat as Hkl.
  { destruct (limits _ _ _); [|done]. destruct (free_slot_dead s k Ek) as (_ & ? & _). by rewrite <- (to_len _ (ok_tree _ Hok)). }
  assert (ancestors (S NPROC) (cgroups s) pi = l) as ->.
  { apply chain_ancestors; [done|]. pose proof (create_len (cgroups s) pi l (ok_tree _ Hok) Hlp Hl). lia. }
  pose proof (created_agree s s' k pi p f l Hc) as Hag.
  destruct (created_slot s s' k pi p f l Hok Hk Hp Hlp Hl Hkl Hc) as (ck & Hck & E1 & _ & E2 & E3 & E4 & E5 & E6 & E7).
  exists s', ck. split; [done|]. split; [done|]. split.
  { unfold is_live. rewrite Hck, E1. rewrite (bool_decide_eq_false_2 (f = [])) by done. apply orb_true_r. }
  split; [done|]. split; [done|]. split; [done|]. split; [intros q; unfold enabled; rewrite (E3 p); by destruct q|]. split.
  - intros j c' Hj Ec'. destruct (proj2 (proj2 Hc) j c' Ec') as (c & Ec & F). exists c. split; [done|].
    rewrite (created_off k pi p f l j c Hj) in F. apply core_all in F as (-> & _ & -> & -> & _ & _ & -> & _). by destruct (decide (j ∈ l)).
  - apply (create_desc (cgroups s) (cgroups s') k pi l p ck (ok_tree _ Hok) Hk Hag Hlp Hl Hck). by rewrite E1.
Qed.

Lemma cgroup_create_outcomes_witness :
  exists s' ck, cgroup_create [] (word_of "/c/./a/") demo_mounted = inr (Some 1%nat, s') /\ cgroups s' !! 1%nat = Some ck /\
    cgroup_dir_path ck = word_of "/c/a" /\ parent ck = Some cgroup_root.
Proof.
  pose proof (cgroup_create_outcomes demo_heap demo_mounted [] (word_of "/c/./a/") (word_of "/c/a") (0, word_of "/c") (0, word_of "a") (word_of "/c")
    (word_of "/c/a") (proj1 demo_reachable) eq_refl eq_refl eq_refl eq_refl eq_refl) as H.
  replace (parent_of _ _ _ _) with (Some 0%nat) in H by (vm_compute; reflexivity).
  replace (if limits _ _ _ then _ else _) with (Some 1%nat) in H by (vm_compute; reflexivity).
  destruct H as (s' & ck & E & _ & _ & H1 & H2 & H3 & _). exists s', ck. split; [exact E|]. split; [exact H1|]. split; [exact H2|exact H3].
Defined.

(** What [cgroup_delete] does, on every branch.  A path that names no group, a group with descendants or with
    processes, the root without [umount] and another group with it are refused with nothing changed; otherwise the group
    is gone, its ancestors count one group less, and every other group keeps its path, parent, controllers and processes. *)
Lemma cgroup_delete_outcomes h s cwdp path type f :
  rtc cg_step (booted h) s -> format_path cwdp path = Some f ->
  match named (cgroups s) f with
  | None => cgroup_delete cwdp path type s = inr (RESULT_ERROR_ARGUMENT, s)
  | Some i => exists c, cgroups s !! i = Some c /\
      if can_delete type i c
      then exists s', cgroup_delete cwdp path type s = inr (RESULT_SUCCESS, s') /\ cg_locked s' = false /\
        (is_live (cgroups s') i = true <-> i = cgroup_root) /\
        (exists c', cgroups s' !! i = Some c' /\ cgroup_dir_path c' = []) /\
        (forall j c', j <> i -> cgroups s' !! j = Some c' -> exists c, cgroups s !! j = Some c /\
           cgroup_dir_path c' = cgroup_dir_path c /\ parent c' = parent c /\ ctl c' = ctl c /\ proc c' = proc c)
      else cgroup_delete cwdp path type s = inr (RESULT_ERROR_OPERATION, s)
  end.
Proof.
  intros H Hf. destruct (reachable_inv h s H) as [Hok Hlk]. pose proof (delete_run cwdp path type s f Hok Hlk Hf) as Hrun.
  destruct (named (cgroups s) f) as [i|]; [|done]. destruct Hrun as (c & Hc & Hrun). exists c. split; [done|].
  destruct (can_delete type i c); [|done]. destruct Hrun as (s' & l & E & _ & Hlk' & Hcr). exists s'. split; [done|]. split; [done|].
  destruct (cored_fwd _ s s' i c Hcr Hc) as (ci & Hci & _). destruct (removed_at s s' i l (0 <? ref_count c) Hcr i ci Hci) as (c1 & _ & _ & _ & _ & _ & _ & _ & Ep & _).
  rewrite decide_True in Ep by done. split; [|split; [by exists ci|]].
  - unfold is_live. rewrite Hci, Ep. rewrite (bool_decide_eq_true_2 ([] = [])) by done. simpl. rewrite orb_false_r. apply bool_decide_eq_true.
  - intros j c' Hj Ec'. destruct (removed_at s s' i l (0 <? ref_count c) Hcr j c' Ec') as (c2 & E2 & ? & ? & ? & _ & _ & _ & Epj & _).
    rewrite decide_False in Epj by done. exists c2. done.
Qed.

Lemma cgroup_delete_outcomes_witness :
  cgroup_delete [] (word_of "/c/a") Unlink demo_joined = inr (RESULT_ERROR_OPERATION, demo_joined) /\
  exists s', cgroup_delete [] (word_of "/c/a") Unlink demo_created = inr (RESULT_SUCCESS, s') /\ cg_locked s' = false.
Proof.
  pose proof (cgroup_delete_outcomes demo_heap demo_joined [] (word_of "/c/a") Unlink (word_of "/c/a") (proj2 (proj2 demo_reachable)) eq_refl) as H1.
  pose proof (cgroup_delete_outcomes demo_heap demo_created [] (word_of "/c/a") Unlink (word_of "/c/a") (proj1 (proj2 demo_reachable)) eq_refl) as H2.
  replace (named _ _) with (Some 1%nat) in H1 by (vm_compute; reflexivity). replace (named _ _) with (Some 1%nat) in H2 by (vm_compute; reflexivity).
  destruct H1 as (c1 & E1 & H1), H2 as (c2 & E2 & H2). vm_compute in E1, E2. injection E1 as <-. injection E2 as <-.
  cbn [can_delete nr_descendants num_of_procs] in H1, H2. split; [exact H1|]. destruct H2 as (s' & E & Hl & _). exists s'. split; [exact E|exact Hl].
Defined.

(** What [cgroup_insert] does.  It never panics, hangs or leaves the lock held; a group whose process limit or memory
    limit would be exceeded refuses the process, and a refusal leaves the tree, the processes and the controllers as they
    were; on success the process is listed in the group and the group is the process's own. *)
Lemma cgroup_insert_outcomes h s i p c x :
  rtc cg_step (booted h) s -> is_live (cgroups s) i = true -> cgroups s !! i = Some c -> ptab s !! p = Some x ->
  exists r s', cgroup_insert i p s = inr (r, s') /\ cg_locked s' = false /\
    (admits c x = false -> r = RESULT_ERROR) /\
    match r with
    | RESULT_ERROR => forall j c', cgroups s' !! j = Some c' -> exists c, cgroups s !! j = Some c /\ core_of c' = core_of c
    | RESULT_SUCCESS => exists x' c' k, ptab s' !! p = Some x' /\ p_cgroup x' = Some i /\ cgroups s' !! i = Some c' /\ proc c' !! k = Some (Some p)
    | _ => False
    end.
Proof.
  intros H Hl Hc Hx. destruct (reachable_inv h s H) as [Hok Hlk].
  destruct (insert_run (set_locked true s) i p c x (cg_ok_locked true s Hok) Hl Hc Hx) as (r & s1 & E & Had & _ & Hlk1 & Hr & Herr & Hsuc).
  exists r, (set_locked false s1). split; [|split; [done|split; [done|]]].
  - unfold cgroup_insert, locked_call. step (lock_run s Hlk). step E. by step (unlock_run s1 Hlk1).
  - destruct Hr as [-> | ->]; [by apply Hsuc|]. apply (Herr eq_refl).
Qed.

Lemma cgroup_insert_outcomes_witness :
  exists r s', cgroup_insert 1 7 demo_joined = inr (r, s') /\ cg_locked s' = false.
Proof.
  destruct (cgroups demo_joined !! 1%nat) as [c|] eqn:E1; [|vm_compute in E1; discriminate E1].
  destruct (cgroup_insert_outcomes demo_heap demo_joined 1 7 c (Cproc 0 None) (proj2 (proj2 demo_reachable))) as (r & s' & E & Hl & _).
  - vm_compute. reflexivity.
  - exact E1.
  - vm_compute. reflexivity.
  - exists r, s'. split; [exact E|exact Hl].
Defined.
