(* ===== verification/Vm.v ===== *)
(** * Page tables and user memory, kernel/vm.c

    Page directories and page tables are pages of the kernel's memory, arrays of 1024 words; the state is that of the page
    allocator, [kheap], and for the memory that control groups protect the groups around it.  [end_] and [data] come from the
    linker script.  Loops take a page per round; the fuel is the number of pages in the range, so it does not run out. *)

From S2P Require Import Prelude Kstring Cgroup Kalloc.

Definition PTE_P : Z := 0x001.
Definition PTE_W : Z := 0x002.
Definition PTE_U : Z := 0x004.
Definition EXTMEM : Z := 0x100000.
Definition DEVSPACE : Z := 0xFE000000.
Definition KERNLINK : Z := KERNBASE + EXTMEM.
Definition NPDENTRIES : Z := 1024.

Definition PDX (va : Z) : Z := Z.land (Z.shiftr va 22) 0x3FF.
Definition PTX (va : Z) : Z := Z.land (Z.shiftr va 12) 0x3FF.
Definition PGADDR (d t o : Z) : Z := u32 (Z.lor (Z.lor (Z.shiftl d 22) (Z.shiftl t 12)) o).
Definition PTE_ADDR (pte : Z) : Z := Z.land pte (Z.lnot 0xFFF).
Definition PTE_FLAGS (pte : Z) : Z := Z.land pte 0xFFF.
(** [*pte & PTE_P], [*pte & PTE_U] *)
Definition present (pte : Z) : bool := negb (Z.land pte PTE_P =? 0).
Definition user (pte : Z) : bool := negb (Z.land pte PTE_U =? 0).

Definition load (p : Z) : M kheap Z := s ← getS; mret (ld32 (hm s) p).
Definition on_mem (f : mem -> mem) : M kheap unit := modS (fun s => Kheap (hp s) (f (hm s))).
Definition store (p v : Z) : M kheap unit := on_mem (fun m => st32 m p v).

Section vm.
Context (end_ data : Z).

(** The address of the entry; 0 for none. *)
Definition walkpgdir (pgdir va : Z) (alloc : bool) : M kheap Z :=
  let pde := pgdir + 4 * PDX va in
  e ← load pde;
  if present e then mret (P2V (PTE_ADDR e) + 4 * PTX va)
  else if negb alloc then mret 0
  else
    pgtab ← kalloc;
    if pgtab =? 0 then mret 0
    else
      on_mem (fun m => memset m pgtab 0 PGSIZE) ;;
      store pde (Z.lor (Z.lor (Z.lor (V2P pgtab) PTE_P) PTE_W) PTE_U) ;;
      mret (pgtab + 4 * PTX va).

Fixpoint mappages_loop (fuel : nat) (pgdir a last pa perm : Z) : M kheap Z :=
  match fuel with
  | O => nofuel
  | S fuel =>
      pte ← walkpgdir pgdir a true;
      if pte =? 0 then mret (-1)
      else
        e ← load pte;
        if present e then panic "remap"
        else
          store pte (Z.lor (Z.lor pa perm) PTE_P) ;;
          if a =? last then mret 0 else mappages_loop fuel pgdir (a +u PGSIZE) last (pa +u PGSIZE) perm
  end.
Definition mappages (pgdir va size pa perm : Z) : M kheap Z :=
  let a := PGROUNDDOWN va in
  let last := PGROUNDDOWN (u32 (va + size - 1)) in
  mappages_loop (S (Z.to_nat ((last -u a) / PGSIZE))) pgdir a last pa perm.

Fixpoint deallocuvm_loop (fuel : nat) (pgdir a oldsz : Z) : M kheap unit :=
  match fuel with
  | O => nofuel
  | S fuel =>
      if negb (a <? oldsz) then mret tt
      else
        pte ← walkpgdir pgdir a false;
        if pte =? 0 then deallocuvm_loop fuel pgdir ((PGADDR (PDX a + 1) 0 0 -u PGSIZE) +u PGSIZE) oldsz
        else
          e ← load pte;
          (if present e then
             let pa := PTE_ADDR e in
             if pa =? 0 then panic "kfree"
             else kfree end_ (P2V pa) ;; store pte 0
           else mret tt) ;;
          deallocuvm_loop fuel pgdir (a +u PGSIZE) oldsz
  end.
Definition deallocuvm (pgdir oldsz newsz : Z) : M kheap Z :=
  if oldsz <=? newsz then mret oldsz
  else
    deallocuvm_loop (S (Z.to_nat (oldsz / PGSIZE + 1))) pgdir (PGROUNDUP newsz) oldsz ;;
    mret newsz.

(** [for (i = 0; i < NPDENTRIES; i++) if (pgdir[i] & PTE_P) kfree(...)] *)
Fixpoint free_tables (n : nat) (pgdir i : Z) : M kheap unit :=
  match n with
  | O => mret tt
  | S n =>
      e ← load (pgdir + 4 * i);
      (if present e then kfree end_ (P2V (PTE_ADDR e)) else mret tt) ;;
      free_tables n pgdir (i + 1)
  end.
Definition freevm (pgdir : Z) : M kheap unit :=
  if pgdir =? 0 then panic "freevm: no pgdir"
  else
    deallocuvm pgdir KERNBASE 0 ;;
    free_tables (Z.to_nat NPDENTRIES) pgdir 0 ;;
    kfree end_ pgdir.

Record kmap := Kmap { virt : Z; phys_start : Z; phys_end : Z; k_perm : Z }.
Definition kmaps : list kmap :=
  [Kmap KERNBASE 0 EXTMEM PTE_W;
   Kmap KERNLINK (V2P KERNLINK) (V2P data) 0;
   Kmap data (V2P data) PHYSTOP PTE_W;
   Kmap DEVSPACE DEVSPACE 0 PTE_W].

(** Whether all of the table is mapped. *)
Fixpoint map_kernel (ks : list kmap) (pgdir : Z) : M kheap bool :=
  match ks with
  | [] => mret true
  | k :: ks =>
      r ← mappages pgdir (virt k) (phys_end k -u phys_start k) (phys_start k) (k_perm k);
      if r <? 0 then mret false else map_kernel ks pgdir
  end.
Definition setupkvm : M kheap Z :=
  pgdir ← kalloc;
  if pgdir =? 0 then mret 0
  else
    on_mem (fun m => memset m pgdir 0 PGSIZE) ;;
    if DEVSPACE <? P2V PHYSTOP then panic "PHYSTOP too high"
    else
      ok ← map_kernel kmaps pgdir;
      if ok : bool then mret pgdir else freevm pgdir ;; mret 0.

(** [init] is the address of the code; without a page the null pointer is written to. *)
Definition inituvm (pgdir init sz : Z) : M kheap unit :=
  if PGSIZE <=? sz then panic "inituvm: more than a page"
  else
    m0 ← kalloc;
    if m0 =? 0 then fault
    else
      on_mem (fun m => memset m m0 0 PGSIZE) ;;
      mappages pgdir 0 PGSIZE (V2P m0) (Z.lor PTE_W PTE_U) ;;
      on_mem (fun m => memmove m m0 init sz).

(** 0: a page of the group's protected memory is used. *)
Definition dec_protect_mem (cgroup : nat) : M cgs Z :=
  c ← get_cg cgroup;
  if negb (bool_decide (cgroup = cgroup_root)) && enabled Mem c && (0 <? protected_mem (mem_ c)) then
    onkh (decrese_protect_counter 1) ;;
    modS (upd_cg cgroup (with_protected (protected_mem (mem_ c) -u 1))) ;;
    mret 0
  else mret 1.
Definition inc_protect_mem (cgroup : nat) (n : Z) : M cgs unit :=
  onkh (increse_protect_counter n) ;;
  modS (upd_cg cgroup (fun c => with_protected (protected_mem (mem_ c) +u n) c)).

(** [inl set_cnt] when there is no memory; [inr pg_cnt]. *)
Fixpoint allocuvm_loop (fuel : nat) (pgdir a oldsz newsz : Z) (cgroup : nat) (set_cnt pg_cnt : Z) : M cgs (Z + Z) :=
  match fuel with
  | O => nofuel
  | S fuel =>
      if negb (a <? newsz) then mret (inr pg_cnt)
      else
        d ← dec_protect_mem cgroup;
        let set_cnt := if d =? 0 then set_cnt + 1 else set_cnt in
        m0 ← onkh kalloc;
        if m0 =? 0 then onkh (deallocuvm pgdir newsz oldsz) ;; mret (inl set_cnt)
        else
          onkh (on_mem (fun m => memset m m0 0 PGSIZE)) ;;
          r ← onkh (mappages pgdir a PGSIZE (V2P m0) (Z.lor PTE_W PTE_U));
          if r <? 0 then
            onkh (deallocuvm pgdir newsz oldsz) ;; onkh (kfree end_ m0) ;; mret (inl set_cnt)
          else allocuvm_loop fuel pgdir (a +u PGSIZE) oldsz newsz cgroup set_cnt (pg_cnt + 1)
  end.
Definition allocuvm (pgdir oldsz newsz : Z) (cgroup : nat) : M cgs Z :=
  if KERNBASE <=? newsz then mret 0
  else if newsz <? oldsz then mret oldsz
  else
    r ← allocuvm_loop (S (Z.to_nat (newsz / PGSIZE + 1))) pgdir (PGROUNDUP oldsz) oldsz newsz cgroup 0 0;
    match r with
    | inl set_cnt => inc_protect_mem cgroup set_cnt ;; mret 0
    | inr pg_cnt => modS (upd_cg cgroup (fun c => with_mem_ (with_current_page (current_page (mem_ c) +u pg_cnt) (mem_ c)) c)) ;; mret newsz
    end.

Definition clearpteu (pgdir uva : Z) : M kheap unit :=
  pte ← walkpgdir pgdir uva false;
  if pte =? 0 then panic "clearpteu" else e ← load pte; store pte (Z.land e (u32 (Z.lnot PTE_U))).

(** Whether all pages are copied; on [bad] the copy is given up. *)
Fixpoint copyuvm_loop (fuel : nat) (pgdir d i sz : Z) : M kheap bool :=
  match fuel with
  | O => nofuel
  | S fuel =>
      if negb (i <? sz) then mret true
      else
        pte ← walkpgdir pgdir i false;
        if pte =? 0 then panic "copyuvm: pte should exist"
        else
          e ← load pte;
          if negb (present e) then panic "copyuvm: page not present"
          else
            m0 ← kalloc;
            if m0 =? 0 then mret false
            else
              on_mem (fun m => memmove m m0 (P2V (PTE_ADDR e)) PGSIZE) ;;
              r ← mappages d i PGSIZE (V2P m0) (PTE_FLAGS e);
              if r <? 0 then mret false else copyuvm_loop fuel pgdir d (i +u PGSIZE) sz
  end.
Definition copyuvm (pgdir sz : Z) : M kheap Z :=
  d ← setupkvm;
  if d =? 0 then mret 0
  else
    ok ← copyuvm_loop (S (Z.to_nat (sz / PGSIZE + 1))) pgdir d 0 sz;
    if ok : bool then mret d else freevm d ;; mret 0.

(** The entry is read without a test of its address. *)
Definition uva2ka (pgdir uva : Z) : M kheap Z :=
  pte ← walkpgdir pgdir uva false;
  if pte =? 0 then fault
  else
    e ← load pte;
    if negb (present e) then mret 0
    else if negb (user e) then mret 0
    else mret (P2V (PTE_ADDR e)).

Fixpoint copyout_loop (fuel : nat) (pgdir va buf len : Z) : M kheap Z :=
  match fuel with
  | O => nofuel
  | S fuel =>
      if negb (0 <? len) then mret 0
      else
        let va0 := PGROUNDDOWN va in
        pa0 ← uva2ka pgdir va0;
        if pa0 =? 0 then mret (-1)
        else
          let n := PGSIZE -u (va -u va0) in
          let n := if len <? n then len else n in
          on_mem (fun m => memmove m (pa0 +u (va -u va0)) buf n) ;;
          copyout_loop fuel pgdir (va0 +u PGSIZE) (buf +u n) (len -u n)
  end.
Definition copyout (pgdir va p len : Z) : M kheap Z := copyout_loop (S (S (Z.to_nat (len / PGSIZE + 1)))) pgdir va p len.
End vm.

(** ** Addresses and entries *)

Lemma PGROUNDDOWN_spec a : PGROUNDDOWN a = a - a mod PGSIZE.
Proof.
  unfold PGROUNDDOWN, PGSIZE. change (4096 - 1) with (Z.ones 12). rewrite <- Z.ldiff_land, Z.ldiff_ones_r, Z.shiftl_mul_pow2, Z.shiftr_div_pow2 by lia.
  change (2 ^ 12) with 4096. Z.div_mod_to_equations. lia.
Qed.
Lemma PTE_ADDR_spec e : PTE_ADDR e = e - e mod PGSIZE.
Proof. exact (PGROUNDDOWN_spec e). Qed.
Lemma PTE_FLAGS_spec e : PTE_FLAGS e = e mod PGSIZE.
Proof. unfold PTE_FLAGS. change 0xFFF with (Z.ones 12). by rewrite Z.land_ones by lia. Qed.
Lemma PDX_spec va : is_u32 va -> PDX va = va / PGSIZE / 1024.
Proof.
  intros H. unfold PDX, is_u32, PGSIZE in *. change 0x3FF with (Z.ones 10). rewrite Z.land_ones, Z.shiftr_div_pow2 by lia.
  change (2 ^ 22) with 4194304. change (2 ^ 10) with 1024. change (2 ^ 32) with 4294967296 in H. Z.div_mod_to_equations. lia.
Qed.
Lemma PTX_spec va : PTX va = (va / PGSIZE) mod 1024.
Proof. unfold PTX. change 0x3FF with (Z.ones 10). by rewrite Z.land_ones, Z.shiftr_div_pow2 by lia. Qed.
Lemma PGADDR_spec d : 0 <= d < 1024 -> PGADDR d 0 0 = d * 4194304.
Proof.
  intros Hd. unfold PGADDR. rewrite Z.shiftl_0_l, !Z.lor_0_r, Z.shiftl_mul_pow2, u32_id by (unfold is_u32; lia). done.
Qed.
Lemma present_odd e : present e = Z.odd e.
Proof. unfold present, PTE_P. change 0x001 with (Z.ones 1). rewrite Z.land_ones by lia. change (2 ^ 1) with 2. rewrite Zmod_odd. by destruct (Z.odd e). Qed.

Lemma page_land a b : a mod PGSIZE = 0 -> 0 <= b < PGSIZE -> Z.land a b = 0.
Proof.
  intros Ha Hb. unfold PGSIZE in *. apply Z.bits_inj'. intros n Hn. rewrite Z.land_spec, Z.bits_0. destruct (Z.lt_ge_cases n 12).
  - replace a with (a / 4096 * 2 ^ 12) by (change (2 ^ 12) with 4096; Z.div_mod_to_equations; lia). by rewrite Z.mul_pow2_bits_low by lia.
  - destruct (decide (b = 0)) as [->|Hb0]; [by rewrite Z.bits_0, andb_false_r|]. rewrite (Z.bits_above_log2 b n), andb_false_r; [done|lia|].
    assert (Z.log2 b < 12); [|lia]. apply Z.log2_lt_pow2; [lia|]. change (2 ^ 12) with 4096. lia.
Qed.
Lemma page_lor a b : a mod PGSIZE = 0 -> 0 <= b < PGSIZE -> Z.lor a b = a + b.
Proof. intros Ha Hb. pose proof (Z.add_lor_land a b) as E. rewrite page_land in E by done. lia. Qed.
Lemma flags_lor a b : 0 <= a < PGSIZE -> 0 <= b < PGSIZE -> 0 <= Z.lor a b < PGSIZE.
Proof.
  unfold PGSIZE. intros Ha Hb. split; [apply Z.lor_nonneg; lia|]. destruct (decide (Z.lor a b = 0)); [lia|].
  assert (0 <= Z.lor a b) by (apply Z.lor_nonneg; lia). change 4096 with (2 ^ 12). apply Z.log2_lt_pow2; [lia|]. rewrite Z.log2_lor by lia.
  destruct (decide (a = 0)) as [->|], (decide (b = 0)) as [->|]; cbn; try lia.
  all: repeat match goal with |- context [Z.log2 ?x] => is_var x; lazymatch goal with H : Z.log2 x < 12 |- _ => fail | _ => assert (Z.log2 x < 12) by (apply Z.log2_lt_pow2; [lia|change (2 ^ 12) with 4096; lia]) end end; lia.
Qed.

Lemma flags_odd x : Z.odd (Z.lor x PTE_P) = true.
Proof. rewrite <- Z.bit0_odd, Z.lor_spec. by rewrite orb_true_r. Qed.

(** The entry [mappages] writes. *)
Definition entry (pa perm : Z) : Z := Z.lor (Z.lor pa perm) PTE_P.
Lemma entry_spec pa perm : pa mod PGSIZE = 0 -> 0 <= pa < 2 ^ 32 -> 0 <= perm < PGSIZE ->
  is_u32 (entry pa perm) /\ present (entry pa perm) = true /\ PTE_ADDR (entry pa perm) = pa /\ PTE_FLAGS (entry pa perm) = Z.lor perm PTE_P.
Proof.
  intros Ha Hr Hp. unfold entry. rewrite <- Z.lor_assoc. pose proof (flags_lor perm PTE_P Hp ltac:(unfold PTE_P, PGSIZE; lia)) as Hf. rewrite page_lor by done. split_and!.
  - unfold is_u32, PGSIZE in *. change (2 ^ 32) with 4294967296 in *. Z.div_mod_to_equations. lia.
  - rewrite present_odd, Z.odd_add, flags_odd. replace pa with (2 * (2048 * (pa / PGSIZE))) by (unfold PGSIZE in *; Z.div_mod_to_equations; lia). by rewrite Z.odd_mul.
  - rewrite PTE_ADDR_spec. rewrite Z.add_mod, Ha, Z.add_0_l, Zmod_mod, (Z.mod_small (Z.lor perm PTE_P)) by (done || unfold PGSIZE; lia). lia.
  - rewrite PTE_FLAGS_spec, Z.add_mod, Ha, Z.add_0_l, Zmod_mod, Z.mod_small by (done || unfold PGSIZE; lia). done.
Qed.

Lemma V2P_valid end_ v : valid_page end_ v -> V2P v = v - KERNBASE /\ V2P v mod PGSIZE = 0 /\ 0 <= V2P v < PHYSTOP /\ P2V (V2P v) = v.
Proof.
  intros (Hm & _ & Hr). unfold V2P, P2V, KERNBASE, PHYSTOP, PGSIZE in *. rewrite (u32_id (v - _)) by (unfold is_u32; lia).
  rewrite u32_id by (unfold is_u32; lia). split_and!; [done| |lia|lia|lia]. Z.div_mod_to_equations. lia.
Qed.

(** ** What a page directory maps *)

(** Word [i] of the page [p]. *)
Definition wd (m : mem) (p i : Z) : Z := ld32 m (p + 4 * i).
(** The page table of directory entry [d]. *)
Definition tab (m : mem) (pd d : Z) : option Z := if present (wd m pd d) then Some (P2V (PTE_ADDR (wd m pd d))) else None.
(** The entry for the page with number [n]; 0 where there is no table. *)
Definition pte (m : mem) (pd n : Z) : Z := match tab m pd (n / 1024) with Some t => wd m t (n mod 1024) | None => 0 end.
(** The pages of the directory and its tables. *)
Definition tables (m : mem) (pd : Z) : list Z := pd :: omap (tab m pd) (seqZ 0 1024).
Definition in_pages (a : Z) (ps : list Z) : Prop := exists v, v ∈ ps /\ v <= a < v + PGSIZE.
(** [m'] is [m] outside of the pages. *)
Definition same_out (ps : list Z) (m m' : mem) : Prop := forall a, ~ in_pages a ps -> m' a = m a.

Lemma in_pages_app a l1 l2 : in_pages a (l1 ++ l2) <-> in_pages a l1 \/ in_pages a l2.
Proof. unfold in_pages. set_solver. Qed.
Lemma in_pages_perm a l1 l2 : Permutation l1 l2 -> in_pages a l1 -> in_pages a l2.
Proof. intros Hp (v & Hv & Ha). exists v. by rewrite <- Hp. Qed.
Lemma in_pages_cons a v l : in_pages a (v :: l) <-> v <= a < v + PGSIZE \/ in_pages a l.
Proof.
  unfold in_pages. split; [intros (w & [->|Hw]%elem_of_cons & Ha); eauto|]. intros [Ha|(w & Hw & Ha)]; [exists v; split; [by left|done]|exists w; split; [by right|done]].
Qed.

Lemma elem_of_tables m pd v : v ∈ tables m pd <-> v = pd \/ exists d, 0 <= d < 1024 /\ tab m pd d = Some v.
Proof.
  unfold tables. rewrite elem_of_cons, list_elem_of_omap. split; intros [->|(d & H)]; auto; right; exists d; [rewrite elem_of_seqZ in H|rewrite elem_of_seqZ]; (split; [lia|apply H]) || (split; [lia|tauto]) || idtac.
Qed.

Lemma tab_bound n : 0 <= n < 2 ^ 20 -> 0 <= n / 1024 < 1024 /\ 0 <= n mod 1024 < 1024.
Proof. change (2 ^ 20) with 1048576. intros H. Z.div_mod_to_equations. lia. Qed.

Lemma wd_ext m m' p i ps : 0 <= i < 1024 -> p ∈ ps -> (forall a, in_pages a ps -> m' a = m a) -> wd m' p i = wd m p i.
Proof. intros Hi Hp H. unfold wd. apply ld32_ext. intros a Ha. apply H. exists p. split; [done|]. unfold PGSIZE. lia. Qed.

Lemma tables_ext m m' pd : (forall a, in_pages a (tables m pd) -> m' a = m a) ->
  tables m' pd = tables m pd /\ (forall d, 0 <= d < 1024 -> tab m' pd d = tab m pd d) /\ forall n, 0 <= n < 2 ^ 20 -> pte m' pd n = pte m pd n.
Proof.
  intros H. assert (forall d, 0 <= d < 1024 -> tab m' pd d = tab m pd d) as Ht.
  { intros d Hd. unfold tab. rewrite (wd_ext m m' pd d (tables m pd)); [done|done|by left|done]. }
  split_and!; [|done|].
  - unfold tables. f_equal. apply list_omap_ext. apply Forall_Forall2_diag, Forall_forall. intros d Hd. apply Ht. apply elem_of_seqZ in Hd. lia.
  - intros n Hn. destruct (tab_bound n Hn) as [Hd Hi]. unfold pte. rewrite Ht by done. destruct (tab m pd (n / 1024)) as [t|] eqn:E; [|done].
    apply (wd_ext m m' t _ (tables m pd)); [done| |done]. apply elem_of_tables. eauto.
Qed.

(** A page moves from one list to another. *)
Lemma perm_add {A} (e u u' t t' l l' : list A) v : Permutation u' (v :: u) -> Permutation (t' ++ l') (t ++ l) -> Permutation (e ++ u' ++ t' ++ l') (e ++ u ++ t ++ v :: l).
Proof. intros -> ->. cbn [app]. by rewrite <- !Permutation_middle. Qed.
Lemma perm_back {A} (u t l : list A) v : Permutation ([] ++ u ++ t ++ v :: l) ([v] ++ u ++ t ++ l).
Proof. cbn [app]. by rewrite <- !Permutation_middle. Qed.
Lemma perm_drop {A} (e u u' p t l l' : list A) : Permutation u (p ++ u') -> Permutation l' (p ++ l) -> Permutation (e ++ u' ++ t ++ l') (e ++ u ++ t ++ l).
Proof. intros -> ->. f_equiv. rewrite !(app_assoc t), (Permutation_app_comm t p), <- !app_assoc. rewrite !(app_assoc u'), (Permutation_app_comm u' p). by rewrite <- !app_assoc. Qed.

(** Two functions that differ at one place, where the first gives nothing. *)
Lemma omap_insert_perm {A} (f g : Z -> option A) k v l : NoDup l -> k ∈ l -> f k = None -> g k = Some v -> (forall x, x ∈ l -> x <> k -> g x = f x) -> Permutation (omap g l) (v :: omap f l).
Proof.
  intros Hnd Hk Hf Hg He. induction l as [|x l IH]; [by apply not_elem_of_nil in Hk|]. apply NoDup_cons in Hnd as [Hx Hnd]. cbn. destruct (decide (x = k)) as [->|Hne].
  - rewrite Hf, Hg. f_equiv. assert (omap g l = omap f l) as ->; [|done]. apply list_omap_ext, Forall_Forall2_diag, Forall_forall. intros y Hy. apply He; [by right|]. by intros ->.
  - apply elem_of_cons in Hk as [->|Hk]; [done|]. rewrite (He x) by (done || by left). assert (Permutation (omap g l) (v :: omap f l)) as IH' by (apply IH; [done..|]; intros y Hy; apply He; by right).
    destruct (f x); [|done]. rewrite IH'. apply Permutation_swap.
Qed.

Lemma omap_inj {A} (f : Z -> option A) l x y v : NoDup (omap f l) -> x ∈ l -> y ∈ l -> f x = Some v -> f y = Some v -> x = y.
Proof.
  intros Hnd Hx Hy Ex Ey. induction l as [|z l IH]; [by apply not_elem_of_nil in Hx|]. cbn in Hnd. apply elem_of_cons in Hx as [->|Hx], Hy as [->|Hy]; [done| | |].
  - rewrite Ex in Hnd. apply NoDup_cons in Hnd as [Hc _]. exfalso. apply Hc, list_elem_of_omap. eauto.
  - rewrite Ey in Hnd. apply NoDup_cons in Hnd as [Hc _]. exfalso. apply Hc, list_elem_of_omap. eauto.
  - apply IH; [|done..]. destruct (f z); [by apply NoDup_cons in Hnd as [_ ?]|done].
Qed.

Lemma seqZ_in n k : 0 <= k < n -> k ∈ seqZ 0 n.
Proof. intros H. apply elem_of_seqZ. lia. Qed.

Section space.
Context (end_ : Z).
Notation valid := (valid_page end_).

Lemma kinv_write s l m' ps : kinv end_ s l -> wf_mem m' -> Forall valid ps -> same_out ps (hm s) m' -> (forall w, w ∈ ps -> w ∉ l) -> kinv end_ (Kheap (hp s) m') l.
Proof.
  intros (Hc & Hnd & Hcnt & _) Hwf Hv Hs Hd. split; [|done]. cbn. pose proof (chain_valid _ _ _ _ Hc) as Hl. rewrite Forall_forall in Hl, Hv. eapply chain_ext; [|exact Hc].
  intros w a Hw Ha. symmetry. apply Hs. intros (v & Hvp & Hva). destruct (pages_apart end_ v w (Hv v Hvp) (Hl w Hw)); [|lia|lia]. intros ->. by apply (Hd w).
Qed.

Lemma kinv_valid s l : kinv end_ s l -> Forall valid l.
Proof. intros (Hc & _). by apply chain_valid in Hc. Qed.

Lemma apart_out v ps a : valid v -> Forall valid ps -> v ∉ ps -> v <= a < v + PGSIZE -> ~ in_pages a ps.
Proof.
  intros Hv Hps Hn Ha (w & Hw & Hwa). rewrite Forall_forall in Hps. destruct (pages_apart end_ v w Hv (Hps w Hw)); [|lia|lia]. by intros ->.
Qed.
Lemma apart_lists ps qs a : Forall valid ps -> Forall valid qs -> (forall v, v ∈ ps -> v ∉ qs) -> in_pages a ps -> ~ in_pages a qs.
Proof. intros Hp Hq Hd (v & Hv & Ha). eapply apart_out; [|done|by apply Hd|done]. rewrite Forall_forall in Hp. by apply Hp. Qed.

(** The free pages are [l], the pages of the directory [pd] and its tables are others, and the entry of page [n] is [f n]. *)
Record vm_at (pd : Z) (s : kheap) (l : list Z) (f : Z -> Z) : Prop := {
  va_k : kinv end_ s l;
  va_valid : Forall valid (tables (hm s) pd);
  va_nodup : NoDup (tables (hm s) pd ++ l);
  va_pte : forall n, 0 <= n < 2 ^ 20 -> pte (hm s) pd n = f n
}.
Definition nomem (s : kheap) (l : list Z) : Prop := page_cnt (hp s) <= page_protect (hp s) \/ l = [].

Lemma va_tab pd s l f d t : vm_at pd s l f -> 0 <= d < 1024 -> tab (hm s) pd d = Some t -> valid t /\ t <> pd /\ t ∉ l /\ forall d', 0 <= d' < 1024 -> tab (hm s) pd d' = Some t -> d' = d.
Proof.
  intros [_ Hv Hnd _] Hd Ht. assert (t ∈ tables (hm s) pd) as Hin by (apply elem_of_tables; eauto). split_and!.
  - rewrite Forall_forall in Hv. by apply Hv.
  - apply NoDup_app in Hnd as (Hnd & _). apply NoDup_cons in Hnd as [Hnd _]. intros ->. apply Hnd. apply list_elem_of_omap. exists d. split; [by apply seqZ_in|done].
  - apply NoDup_app in Hnd as (_ & Hnd & _). by apply Hnd.
  - intros d' Hd' Ht'. apply NoDup_app in Hnd as (Hnd & _). apply NoDup_cons in Hnd as [_ Hnd]. by apply (omap_inj (tab (hm s) pd) (seqZ 0 1024) d' d t); [|apply seqZ_in; lia..| |].
Qed.

Lemma vm_at_move pd s l f s' l' : vm_at pd s l f -> kinv end_ s' l' -> (forall a, in_pages a (tables (hm s) pd) -> hm s' a = hm s a) -> (forall v, v ∈ l' -> v ∉ tables (hm s) pd) -> vm_at pd s' l' f.
Proof.
  intros [Hk Hv Hnd Hp] Hk' Hm Hd. destruct (tables_ext _ _ pd Hm) as (Et & _ & Ep). split; [done|by rewrite Et| |].
  - rewrite Et. apply NoDup_app in Hnd as (Hnd & _ & _). apply NoDup_app. split; [done|]. split; [|apply Hk']. intros v Hv1 Hv2. by apply (Hd v).
  - intros n Hn. rewrite Ep by done. by apply Hp.
Qed.

Lemma wd_store m t i v p j : valid t -> valid p -> 0 <= i < 1024 -> 0 <= j < 1024 -> is_u32 v -> wd (st32 m (t + 4 * i) v) p j = if decide (p = t /\ j = i) then v else wd m p j.
Proof.
  intros Ht Hp Hi Hj Hv. unfold wd. destruct (decide (p = t /\ j = i)) as [[-> ->]|Hne]; [by apply ld32_st32|]. apply ld32_ext. intros a Ha. apply st32_other.
  destruct (decide (p = t)) as [->|Hpt]; [assert (j <> i) by tauto; lia|]. destruct (pages_apart end_ p t Hp Ht Hpt); unfold PGSIZE in *; lia.
Qed.

Lemma st32_out m t i v : 0 <= i < 1024 -> same_out [t] m (st32 m (t + 4 * i) v).
Proof. intros Hi a Ha. apply st32_other. destruct (decide (t <= a < t + PGSIZE)); [|unfold PGSIZE in *; lia]. exfalso. apply Ha. exists t. split; [by left|done]. Qed.

Lemma set_pte pd s l f n t v : vm_at pd s l f -> 0 <= n < 2 ^ 20 -> tab (hm s) pd (n / 1024) = Some t -> is_u32 v ->
  let s' := Kheap (hp s) (st32 (hm s) (t + 4 * (n mod 1024)) v) in
  vm_at pd s' l (fun x => if decide (x = n) then v else f x) /\ tables (hm s') pd = tables (hm s) pd /\ same_out [t] (hm s) (hm s').
Proof.
  intros Hva Hn Ht Hv s'. destruct (tab_bound n Hn) as [Hd Hi]. destruct (va_tab pd s l f _ t Hva Hd Ht) as (Htv & Htp & Htl & Hu). pose proof Hva as [Hk Hvt Hnd Hp].
  assert (valid pd) as Hpd by (apply Forall_cons in Hvt; apply Hvt). assert (forall d, 0 <= d < 1024 -> tab (hm s') pd d = tab (hm s) pd d) as Etab.
  { intros d Hd'. unfold tab, s'. cbn [hm]. rewrite wd_store by done. by rewrite decide_False by (intros [? _]; congruence). }
  assert (tables (hm s') pd = tables (hm s) pd) as Et.
  { unfold tables. f_equal. apply list_omap_ext, Forall_Forall2_diag, Forall_forall. intros d Hd'%elem_of_seqZ. apply Etab. lia. }
  assert (same_out [t] (hm s) (hm s')) as Hout by (by apply st32_out). split; [|done]. split.
  - apply (kinv_write s l _ [t]); [done|apply st32_wf, Hk|by apply Forall_singleton|done|]. intros w ->%list_elem_of_singleton. done.
  - by rewrite Et.
  - by rewrite Et.
  - intros x Hx. destruct (tab_bound x Hx) as [Hdx Hix]. unfold pte. rewrite Etab by done. rewrite <- (Hp x Hx). unfold pte. destruct (tab (hm s) pd (x / 1024)) as [u|] eqn:Eu.
    + destruct (va_tab pd s l f _ u Hva Hdx Eu) as (Huv & _). unfold s'. cbn [hm]. rewrite wd_store by done. destruct (decide (x = n)) as [->|Hne].
      * rewrite decide_True; [done|]. split; [congruence|done].
      * rewrite decide_False; [done|]. intros [-> E]. apply Hne. pose proof (Hu _ Hdx Eu). rewrite (Z.div_mod x 1024), (Z.div_mod n 1024) by lia. lia.
    + rewrite decide_False; [done|]. intros ->. congruence.
Qed.

Lemma table_entry v : valid v -> let e := Z.lor (Z.lor (Z.lor (V2P v) PTE_P) PTE_W) PTE_U in is_u32 e /\ present e = true /\ P2V (PTE_ADDR e) = v.
Proof.
  intros Hv e. destruct (V2P_valid end_ v Hv) as (_ & Hm & Hr & E). assert (e = entry (V2P v) (Z.lor PTE_W PTE_U)) as Ee.
  { unfold e, entry. rewrite <- !Z.lor_assoc. f_equal. }
  assert (0 <= V2P v < 2 ^ 32) as Hr' by (unfold PHYSTOP in Hr; lia). destruct (entry_spec (V2P v) (Z.lor PTE_W PTE_U) Hm Hr' ltac:(by vm_compute)) as (H1 & H2 & H3 & _). rewrite Ee, H3. auto.
Qed.

Lemma zero_page m v p i : valid v -> valid p -> 0 <= i < 1024 -> wd (memset m v 0 PGSIZE) p i = if decide (p = v) then 0 else wd m p i.
Proof.
  intros Hv Hp Hi. destruct (decide (p = v)) as [->|Hne].
  - unfold wd, ld32. rewrite !memset_spec by (unfold PGSIZE; lia). unfold in_range, PGSIZE.
    repeat match goal with |- context [(?a <=? ?b) && (?c <? ?d)] => rewrite (proj2 (Z.leb_le a b)), (proj2 (Z.ltb_lt c d)) by lia end. done.
  - unfold wd. apply ld32_ext. intros a Ha. rewrite memset_spec by (unfold PGSIZE; lia). unfold in_range. destruct (pages_apart end_ p v Hp Hv Hne); unfold PGSIZE in *; destruct (Z.leb_spec v a), (Z.ltb_spec a (v + 4096)); cbn; try lia; done.
Qed.

Lemma memset_out m v c : same_out [v] m (memset m v c PGSIZE).
Proof.
  intros a Ha. rewrite memset_spec by (unfold PGSIZE; lia). unfold in_range. destruct (Z.leb_spec v a), (Z.ltb_spec a (v + PGSIZE)); try done. exfalso. apply Ha. exists v. split; [by left|lia].
Qed.
Lemma same_out_trans ps m1 m2 m3 : same_out ps m1 m2 -> same_out ps m2 m3 -> same_out ps m1 m3.
Proof. intros H1 H2 a Ha. by rewrite H2, H1. Qed.
Lemma same_out_weaken ps qs m m' : same_out ps m m' -> ps ⊆ qs -> same_out qs m m'.
Proof. intros H Hs a Ha. apply H. intros (v & Hv & Hva). apply Ha. exists v. split; [by apply Hs|done]. Qed.

Lemma new_table pd s v l' f d k : vm_at pd s (v :: l') f -> 0 <= d < 1024 -> tab (hm s) pd d = None -> kinv end_ (Kheap k (hm s)) l' ->
  let m' := st32 (memset (hm s) v 0 PGSIZE) (pd + 4 * d) (Z.lor (Z.lor (Z.lor (V2P v) PTE_P) PTE_W) PTE_U) in
  vm_at pd (Kheap k m') l' f /\ tab m' pd d = Some v /\ Permutation (tables m' pd) (v :: tables (hm s) pd) /\ same_out [pd; v] (hm s) m'.
Proof.
  intros [Hk Hvt Hnd Hp] Hd Ht Hk' m'. pose proof (kinv_valid _ _ Hk) as [Hv _]%Forall_cons. destruct (table_entry v Hv) as (Hu & Hpr & Hpa). pose proof Hvt as [Hpd _]%Forall_cons.
  apply NoDup_app in Hnd as (Hndt & Hdis & Hndl). apply NoDup_cons in Hndl as [Hvl Hndl]. assert (v ∉ tables (hm s) pd) as Hvn by (intros H; apply (Hdis v H); by left).
  assert (pd <> v) as Hpv by (intros ->; apply Hvn; by left).
  assert (forall d', 0 <= d' < 1024 -> tab m' pd d' = if decide (d' = d) then Some v else tab (hm s) pd d') as Etab.
  { intros d' Hd'. unfold tab, m'. rewrite wd_store by done. destruct (decide (d' = d)) as [->|Hne].
    - rewrite decide_True by done. by rewrite Hpr, Hpa.
    - rewrite decide_False by tauto. rewrite zero_page by done. by rewrite decide_False by done. }
  assert (Permutation (tables m' pd) (v :: tables (hm s) pd)) as Et.
  { unfold tables. rewrite (omap_insert_perm (tab (hm s) pd) (tab m' pd) d v (seqZ 0 1024)); [apply Permutation_swap|apply NoDup_seqZ|by apply seqZ_in|done|by rewrite Etab, decide_True|].
    intros x Hx%elem_of_seqZ Hne. rewrite Etab by lia. by rewrite decide_False. }
  assert (same_out [pd; v] (hm s) m') as Hout.
  { apply (same_out_trans _ _ (memset (hm s) v 0 PGSIZE)); [apply (same_out_weaken [v]); [apply memset_out|]|apply (same_out_weaken [pd]); [by apply st32_out|]]; intros x ->%list_elem_of_singleton; [right; left|left]. }
  assert (Forall valid [pd; v]) as Hvs by (apply Forall_cons; split; [done|by apply Forall_singleton]). split; [|split; [by rewrite Etab, decide_True|done]]. split; cbn [hm].
  - apply (kinv_write (Kheap k (hm s)) l' m' [pd; v]); [done|apply st32_wf, memset_wf; [done|apply Hk]|done|done|]. intros w Hw Hwl. apply list_elem_of_In in Hw. destruct Hw as [<-|[<-|[]]]; [|done].
    apply (Hdis pd); [by left|by right].
  - rewrite Et. by constructor.
  - rewrite Et, <- app_comm_cons. apply NoDup_cons. split; [|apply NoDup_app; split; [done|split; [|done]]].
    + rewrite elem_of_app. by intros [?|?].
    + intros x Hx Hxl. apply (Hdis x Hx). by right.
  - intros n Hn. destruct (tab_bound n Hn) as [Hdn Hin]. rewrite <- (Hp n Hn). unfold pte. rewrite Etab by done. destruct (decide (n / 1024 = d)) as [E|Hne].
    + rewrite E, Ht. unfold m'. rewrite wd_store by done. rewrite decide_False by (intros [? _]; congruence). rewrite zero_page by done. by rewrite decide_True.
    + destruct (tab (hm s) pd (n / 1024)) as [t|] eqn:Et'; [|done]. assert (t ∈ tables (hm s) pd) as Hin' by (apply elem_of_tables; eauto). assert (valid t) as Htv by (rewrite Forall_forall in Hvt; by apply Hvt).
      unfold m'. rewrite wd_store by done. rewrite decide_False.
      * rewrite zero_page by done. rewrite decide_False; [done|]. by intros ->.
      * intros [-> _]. apply NoDup_cons in Hndt as [Hc _]. apply Hc, list_elem_of_omap. exists (n / 1024). split; [by apply seqZ_in|done].
Qed.

(** From [s] to [s'] pages move between the free list and the tables, and only such pages are written to. *)
Definition grown (pd : Z) (s : kheap) (l : list Z) (s' : kheap) (l' : list Z) : Prop :=
  Permutation (tables (hm s') pd ++ l') (tables (hm s) pd ++ l) /\ same_out (tables (hm s) pd ++ l) (hm s) (hm s') /\ page_protect (hp s') = page_protect (hp s) /\
  tables (hm s) pd ⊆ tables (hm s') pd.

Lemma grown_refl pd s l : grown pd s l s l.
Proof. by split_and!. Qed.
Lemma grown_trans pd s1 l1 s2 l2 s3 l3 : grown pd s1 l1 s2 l2 -> grown pd s2 l2 s3 l3 -> grown pd s1 l1 s3 l3.
Proof.
  intros (P1 & O1 & E1 & T1) (P2 & O2 & E2 & T2). split_and!; [by rewrite P2|intros a Ha; rewrite O2, O1; [done|done|]|congruence|by etrans]. intros H. apply Ha. eapply in_pages_perm; [exact P1|done].
Qed.

Lemma load_run p s : load p s = inr (ld32 (hm s) p, s).
Proof. done. Qed.
Lemma on_mem_bind {A} f (k : unit -> M kheap A) s : (on_mem f ≫= k) s = k tt (Kheap (hp s) (f (hm s))).
Proof. done. Qed.

Lemma entry_addr pd s l f d t i : vm_at pd s l f -> 0 <= d < 1024 -> tab (hm s) pd d = Some t -> 0 <= i < 1024 -> t + 4 * i <> 0.
Proof. intros Hva Hd Ht Hi. destruct (va_tab pd s l f d t Hva Hd Ht) as ((_ & _ & Hr) & _). unfold KERNBASE in Hr. lia. Qed.

Lemma walk_run pd s l f va n alloc : vm_at pd s l f -> is_u32 va -> va / PGSIZE = n ->
  exists r s' l', walkpgdir pd va alloc s = inr (r, s') /\ vm_at pd s' l' f /\ grown pd s l s' l' /\
    (r = 0 /\ s' = s /\ l' = l /\ tab (hm s) pd (n / 1024) = None /\ (alloc = false \/ nomem s l) \/
     r <> 0 /\ (alloc = false -> s' = s /\ l' = l) /\ exists t, tab (hm s') pd (n / 1024) = Some t /\ r = t + 4 * (n mod 1024)).
Proof.
  intros Hva Hu Hn. assert (0 <= n < 2 ^ 20) as Hnr by (subst n; unfold is_u32, PGSIZE in *; Z.div_mod_to_equations; lia). destruct (tab_bound n Hnr) as [Hd Hi].
  unfold walkpgdir. rewrite PDX_spec, PTX_spec, Hn by done. cbv zeta. rewrite (bind_run _ _ _ _ _ (load_run _ s)). change (ld32 (hm s) (pd + 4 * (n / 1024))) with (wd (hm s) pd (n / 1024)).
  destruct (tab (hm s) pd (n / 1024)) as [t|] eqn:Et.
  - unfold tab in Et. destruct (present _) eqn:Ep; [|done]. injection Et as Et. rewrite Et. exists (t + 4 * (n mod 1024)), s, l. split; [done|]. split; [done|]. split; [apply grown_refl|]. right.
    assert (tab (hm s) pd (n / 1024) = Some t) as Et' by (unfold tab; by rewrite Ep, Et). split; [by apply (entry_addr pd s l f (n / 1024) t (n mod 1024))|]. split; [done|]. exists t. split; [done|done].
  - pose proof Et as Ep. unfold tab in Ep. destruct (present _); [done|]. destruct alloc; cbn [negb]; [|exists 0, s, l; split; [done|]; split; [done|]; split; [apply grown_refl|]; left; auto 10].
    destruct (kalloc_spec end_ s l (va_k _ _ _ _ Hva)) as [[Hno E]|(v & l' & -> & Hlt & E & Hk)].
    + rewrite (bind_run _ _ _ _ _ E). exists 0, s, l. split; [done|]. split; [done|]. split; [apply grown_refl|]. left. auto 10.
    + rewrite (bind_run _ _ _ _ _ E). pose proof (kinv_valid _ _ (va_k _ _ _ _ Hva)) as [Hv _]%Forall_cons. assert (v <> 0) as Hv0 by (destruct Hv as (_ & _ & Hr); unfold KERNBASE in Hr; lia).
      rewrite (proj2 (Z.eqb_neq v 0)) by done. rewrite on_mem_bind. unfold store. rewrite on_mem_bind. cbn [hp hm].
      destruct (new_table pd s v l' f (n / 1024) _ Hva Hd Et Hk) as (Hva' & Et' & Hperm & Hout). eexists _, _, l'. split; [reflexivity|]. split; [exact Hva'|]. split.
      * split_and!; [cbn [hm]; rewrite Hperm; by rewrite <- Permutation_middle|cbn [hm]|done|cbn [hm]; intros x Hx; rewrite Hperm; by right]. apply (same_out_weaken [pd; v]); [done|]. intros x Hx. apply elem_of_app. apply list_elem_of_In in Hx as [<-|[<-|[]]]; [left; by left|right; by left].
      * right. cbn [hm]. split; [destruct Hv as (_ & _ & Hr); unfold KERNBASE in Hr; lia|]. split; [done|]. exists v. split; [done|done].
Qed.

Lemma vm_at_fun pd s l f g : vm_at pd s l f -> (forall n, 0 <= n < 2 ^ 20 -> f n = g n) -> vm_at pd s l g.
Proof. intros [H1 H2 H3 H4] Hg. split; [done..|]. intros n Hn. by rewrite H4, Hg. Qed.

(** The entries once [j] pages from page [n] on are mapped to the memory at [pa]. *)
Definition mapped (f : Z -> Z) (n pa perm j : Z) (x : Z) : Z := if decide (n <= x < n + j) then entry (pa + PGSIZE * (x - n)) perm else f x.

Lemma map_entry pd s l f n t pa perm : vm_at pd s l f -> 0 <= n < 2 ^ 20 -> tab (hm s) pd (n / 1024) = Some t -> pa mod PGSIZE = 0 -> 0 <= pa < 2 ^ 32 -> 0 <= perm < PGSIZE ->
  let s' := Kheap (hp s) (st32 (hm s) (t + 4 * (n mod 1024)) (entry pa perm)) in vm_at pd s' l (mapped f n pa perm 1) /\ grown pd s l s' l.
Proof.
  intros Hva Hn Ht Hm Hr Hp s'. destruct (entry_spec pa perm Hm Hr Hp) as (Hu & _). destruct (set_pte pd s l f n t (entry pa perm) Hva Hn Ht Hu) as (Hva' & Et & Ho). split.
  - eapply vm_at_fun; [exact Hva'|]. intros x Hx. unfold mapped. cbv beta. destruct (decide (x = n)) as [->|Hne]; [rewrite decide_True by lia; f_equal; lia|by rewrite decide_False by lia].
  - fold s' in Et, Ho. split_and!; [by rewrite Et| |done|by rewrite Et]. apply (same_out_weaken [t]); [done|]. intros x ->%list_elem_of_singleton. apply elem_of_app. left. apply elem_of_tables. right. exists (n / 1024). split; [by apply tab_bound|done].
Qed.

Lemma pte_load pd s l f n t : vm_at pd s l f -> 0 <= n < 2 ^ 20 -> tab (hm s) pd (n / 1024) = Some t -> ld32 (hm s) (t + 4 * (n mod 1024)) = f n.
Proof. intros [_ _ _ Hp] Hn Ht. rewrite <- (Hp n Hn). unfold pte. by rewrite Ht. Qed.

Lemma page_number n : (PGSIZE * n) / PGSIZE = n.
Proof. unfold PGSIZE. rewrite Z.mul_comm. by apply Z.div_mul. Qed.

Lemma mappages_loop_run pd perm k : 0 <= perm < PGSIZE -> forall n pa s l f, vm_at pd s l f -> 0 <= n -> n + Z.of_nat k < 2 ^ 20 -> pa mod PGSIZE = 0 -> 0 <= pa -> pa + PGSIZE * Z.of_nat k < 2 ^ 32 ->
  (forall x, n <= x <= n + Z.of_nat k -> present (f x) = false) ->
  exists r j s' l', mappages_loop (S k) pd (PGSIZE * n) (PGSIZE * (n + Z.of_nat k)) pa perm s = inr (r, s') /\ vm_at pd s' l' (mapped f n pa perm j) /\ grown pd s l s' l' /\
    (r = 0 /\ j = Z.of_nat k + 1 \/ r = -1 /\ 0 <= j <= Z.of_nat k /\ nomem s' l').
Proof.
  intros Hperm. induction k as [|k IH]; intros n pa s l f Hva Hn0 Hn Hm Hp0 Hp Hfree; assert (0 <= n < 2 ^ 20) as Hnr by lia; assert (is_u32 (PGSIZE * n)) as Hu by (unfold is_u32, PGSIZE; lia).
  all: cbn [mappages_loop]; destruct (walk_run pd s l f (PGSIZE * n) n true Hva Hu (page_number n)) as (r & s1 & l1 & E & Hva1 & G1 & [(-> & -> & -> & _ & [[=]|Hno])|(Hr & _ & t & Ht & ->)]); rewrite (bind_run _ _ _ _ _ E).
  1, 3: exists (-1), 0, s, l; split; [done|]; split; [eapply vm_at_fun; [done|]; intros x Hx; unfold mapped; by rewrite decide_False by lia|]; split; [done|]; right; split; [done|]; split; [lia|done].
  all: rewrite (proj2 (Z.eqb_neq _ 0)) by done; rewrite (bind_run _ _ _ _ _ (load_run _ s1)), (pte_load pd s1 l1 f n t Hva1 Hnr Ht), (Hfree n) by lia; cbn [negb]; unfold store; rewrite on_mem_bind; fold (entry pa perm).
  all: destruct (map_entry pd s1 l1 f n t pa perm Hva1 Hnr Ht Hm ltac:(unfold PGSIZE in *; lia) Hperm) as (Hva2 & G2); set (s2 := Kheap _ _) in *; pose proof (grown_trans _ _ _ _ _ _ _ G1 G2) as G.
  - rewrite Z.add_0_r, Z.eqb_refl. exists 0, 1, s2, l1. split; [done|]. split; [done|]. split; [done|]. left. done.
  - rewrite (proj2 (Z.eqb_neq (PGSIZE * n) (PGSIZE * (n + Z.of_nat (S k))))) by (unfold PGSIZE; lia). rewrite u32_id by (unfold is_u32, PGSIZE in *; lia).
    rewrite (u32_id (pa + PGSIZE)) by (unfold is_u32, PGSIZE in *; lia). replace (PGSIZE * n + PGSIZE) with (PGSIZE * (n + 1)) by lia. replace (n + Z.of_nat (S k)) with (n + 1 + Z.of_nat k) by lia.
    destruct (IH (n + 1) (pa + PGSIZE) s2 l1 (mapped f n pa perm 1) Hva2) as (r' & j & s' & l' & E' & Hva' & G' & H); [lia|lia| |unfold PGSIZE; lia|unfold PGSIZE in *; lia| |].
    { unfold PGSIZE in *. rewrite Z.add_mod, Hm by lia. done. }
    { intros x Hx. unfold mapped. rewrite decide_False by lia. apply Hfree. lia. }
    exists r', (1 + j), s', l'. split; [exact E'|]. split; [|split; [by eapply grown_trans|]].
    + eapply vm_at_fun; [exact Hva'|]. intros x Hx. unfold mapped. destruct H as [[_ ->]|(_ & Hj & _)]; repeat case_decide; try lia; try done; f_equal; lia.
    + destruct H as [[-> ->]|(-> & Hj & Hno)]; [left; split; [done|lia]|right; split; [done|split; [lia|done]]].
Qed.

(** [mappages] of whole pages that are not mapped. *)
Lemma mappages_run pd n k pa perm s l f : vm_at pd s l f -> 0 <= n -> 0 < k -> n + k <= 2 ^ 20 -> pa mod PGSIZE = 0 -> 0 <= pa -> pa + PGSIZE * k <= 2 ^ 32 -> 0 <= perm < PGSIZE ->
  (forall x, n <= x < n + k -> present (f x) = false) ->
  exists r j s' l', mappages pd (PGSIZE * n) (PGSIZE * k) pa perm s = inr (r, s') /\ vm_at pd s' l' (mapped f n pa perm j) /\ grown pd s l s' l' /\
    (r = 0 /\ j = k \/ r = -1 /\ 0 <= j < k /\ nomem s' l').
Proof.
  intros Hva Hn Hk Hnk Hm Hp0 Hp Hperm Hfree. unfold mappages. rewrite !PGROUNDDOWN_spec. set (e := u32 (PGSIZE * n + PGSIZE * k - 1)). assert (e = PGSIZE * (n + k) - 1) as He by (unfold e; rewrite u32_id; unfold is_u32, PGSIZE in *; lia).
  replace (e - e mod PGSIZE) with (PGSIZE * (n + (k - 1))) by (rewrite He; unfold PGSIZE; Z.div_mod_to_equations; lia).
  replace (PGSIZE * n - (PGSIZE * n) mod PGSIZE) with (PGSIZE * n) by (unfold PGSIZE; Z.div_mod_to_equations; lia).
  replace (PGSIZE * (n + (k - 1)) -u PGSIZE * n) with (PGSIZE * (k - 1)) by (rewrite u32_id; unfold is_u32, PGSIZE in *; lia). rewrite page_number.
  destruct (mappages_loop_run pd perm (Z.to_nat (k - 1)) Hperm n pa s l f Hva) as (r & j & s' & l' & E & H1 & H2 & H3); try (rewrite ?Z2Nat.id by lia; unfold PGSIZE in *; lia || done).
  { intros x Hx. apply Hfree. lia. }
  rewrite Z2Nat.id in E, H3 by lia. exists r, j, s', l'. split; [done|]. split; [done|]. split; [done|]. destruct H3 as [[-> ->]|(-> & Hj & Hno)]; [left; split; [done|lia]|right; split; [done|split; [lia|done]]].
Qed.

(** ** The pages of the user *)

Definition UPAGES : Z := 2 ^ 19.
Definition upage (f : Z -> Z) (n : Z) : option Z := if present (f n) then Some (P2V (PTE_ADDR (f n))) else None.
(** The memory mapped at the pages from [n] to [N]. *)
Definition pages (f : Z -> Z) (n N : Z) : list Z := omap (upage f) (seqZ n (N - n)).
Definition upages (f : Z -> Z) : list Z := pages f 0 UPAGES.

(** The address space [pd]: its memory is apart from its tables and from the free pages. *)
Record space (pd : Z) (s : kheap) (l : list Z) (f : Z -> Z) : Prop := {
  sp_at : vm_at pd s l f;
  sp_valid : Forall valid (upages f);
  sp_nodup : NoDup (upages f ++ tables (hm s) pd ++ l)
}.

Lemma upages_all f : pages f 0 UPAGES = upages f.
Proof. unfold upages. reflexivity. Qed.
Lemma elem_of_pages f n N v : v ∈ pages f n N <-> exists x, n <= x < N /\ upage f x = Some v.
Proof. unfold pages. rewrite list_elem_of_omap. split; intros (x & H1 & H2); exists x; (split; [|done]); [apply elem_of_seqZ in H1; lia|apply elem_of_seqZ; lia]. Qed.
Lemma pages_ext f g n N : (forall x, n <= x < N -> upage f x = upage g x) -> pages f n N = pages g n N.
Proof. intros H. apply list_omap_ext, Forall_Forall2_diag, Forall_forall. intros x Hx%elem_of_seqZ. apply H. lia. Qed.
Lemma pages_split f n m N : n <= m <= N -> pages f n N = pages f n m ++ pages f m N.
Proof. intros H. unfold pages. rewrite <- omap_app. f_equal. replace (N - n) with ((m - n) + (N - m)) by lia. rewrite seqZ_app by lia. do 2 f_equal. lia. Qed.
Lemma pages_none f n N : (forall x, n <= x < N -> present (f x) = false) -> pages f n N = [].
Proof.
  intros H. destruct (pages f n N) as [|v l] eqn:E; [done|]. assert (v ∈ pages f n N) as (x & Hx & Hu)%elem_of_pages by (rewrite E; by left). unfold upage in Hu. by rewrite (H x Hx) in Hu.
Qed.
Lemma pages_skip f n m N : n <= m -> (forall x, n <= x < m -> present (f x) = false) -> pages f n N = pages f m N.
Proof.
  intros Hn H. destruct (Z.le_gt_cases m N); [rewrite (pages_split f n m N) by lia; by rewrite (pages_none f n m)|]. rewrite !pages_none; [done|lia|]. intros x Hx. apply H. lia.
Qed.
Lemma pages_cons f n N : n < N -> pages f n N = match upage f n with Some v => v :: pages f (n + 1) N | None => pages f (n + 1) N end.
Proof. intros H. unfold pages. rewrite seqZ_cons by lia. cbn. unfold Z.succ. replace (Z.pred (N - n)) with (N - (n + 1)) by lia. done. Qed.
Lemma pages_insert f g n v : 0 <= n < UPAGES -> upage f n = None -> upage g n = Some v -> (forall x, x <> n -> upage g x = upage f x) -> Permutation (upages g) (v :: upages f).
Proof. intros Hn Hf Hg H. unfold upages, pages. apply (omap_insert_perm _ _ n); [apply NoDup_seqZ|apply elem_of_seqZ; lia|done|done|]. intros x _. apply H. Qed.
Lemma upages_inj f x y v : NoDup (upages f) -> 0 <= x < UPAGES -> 0 <= y < UPAGES -> upage f x = Some v -> upage f y = Some v -> x = y.
Proof.
  unfold upages, pages. generalize UPAGES. intros U Hnd Hx Hy. rewrite Z.sub_0_r in Hnd. apply (omap_inj (upage f) _ x y v Hnd); by apply seqZ_in.
Qed.
#[local] Opaque pages.

Lemma present_0 : present 0 = false.
Proof. done. Qed.

Lemma upages_drop f n v : 0 <= n < UPAGES -> upage f n = Some v -> Permutation (upages f) (v :: upages (fun x => if decide (x = n) then 0 else f x)).
Proof.
  intros Hn Hu. apply (pages_insert _ _ n); [done| |done|].
  - unfold upage. by rewrite decide_True.
  - intros x Hx. unfold upage. by rewrite decide_False.
Qed.

Lemma space_in pd s l f v : space pd s l f -> v ∈ upages f -> valid v /\ v ∉ tables (hm s) pd /\ v ∉ l.
Proof.
  intros [_ Hv Hnd] Hin. rewrite Forall_forall in Hv. apply NoDup_app in Hnd as (_ & Hd & _). specialize (Hd v Hin). rewrite elem_of_app in Hd. split; [by apply Hv|]. tauto.
Qed.

Lemma drop_page pd s l f n t v : space pd s l f -> 0 <= n < UPAGES -> upage f n = Some v -> tab (hm s) pd (n / 1024) = Some t ->
  exists s', (kfree end_ v ;; store (t + 4 * (n mod 1024)) 0) s = inr (tt, s') /\ space pd s' (v :: l) (fun x => if decide (x = n) then 0 else f x) /\ tables (hm s') pd = tables (hm s) pd /\
    same_out (v :: tables (hm s) pd) (hm s) (hm s') /\ page_protect (hp s') = page_protect (hp s).
Proof.
  intros Hsp Hn Hu Ht. assert (v ∈ upages f) as Hin by (apply elem_of_pages; exists n; split; [lia|done]). destruct (space_in pd s l f v Hsp Hin) as (Hv & Hvt & Hvl). pose proof Hsp as [Hva Hval Hnd].
  destruct (kfree_spec end_ s l v (va_k _ _ _ _ Hva) Hv Hvl) as (m1 & E & Ho & Hk). rewrite (bind_run _ _ _ _ _ E). set (s1 := Kheap _ m1) in *.
  assert (vm_at pd s1 (v :: l) f) as Hva1.
  { apply (vm_at_move pd s l f); [done|done| |].
    - intros a Ha. apply Ho. intros Hav. apply (apart_out v (tables (hm s) pd) a); [done|apply Hva|done|done|done].
    - intros w [->|Hw]%elem_of_cons; [done|]. intros Hwt. pose proof (va_nodup _ _ _ _ Hva) as (_ & Hd & _)%NoDup_app. by apply (Hd w). }
  assert (forall a, in_pages a (tables (hm s) pd) -> m1 a = hm s a) as Hkeep.
  { intros a Ha. apply Ho. intros Hav. apply (apart_out v (tables (hm s) pd) a); [done|apply Hva|done|done|done]. }
  destruct (tables_ext _ m1 pd Hkeep) as (Et & Etab & _). assert (0 <= n < 2 ^ 20) as Hnr by (unfold UPAGES in Hn; lia). destruct (tab_bound n Hnr) as [Hd _].
  assert (tab (hm s1) pd (n / 1024) = Some t) as Ht1 by (unfold s1; cbn [hm]; by rewrite Etab). destruct (set_pte pd s1 (v :: l) f n t 0 Hva1 Hnr Ht1 ltac:(by vm_compute)) as (Hva2 & Et2 & Ho2).
  set (s2 := Kheap (hp s1) _) in *. exists s2. split; [done|]. assert (tables (hm s2) pd = tables (hm s) pd) as Et3 by (rewrite Et2; exact Et). pose proof (upages_drop f n v Hn Hu) as Hperm. split; [split|split_and!].
  - exact Hva2.
  - rewrite Hperm in Hval. by apply Forall_cons in Hval as [_ ?].
  - rewrite Et3. rewrite Hperm in Hnd. rewrite <- app_comm_cons in Hnd. rewrite !app_assoc. rewrite <- Permutation_middle. by rewrite <- app_assoc.
  - done.
  - apply (same_out_trans _ _ m1).
    + intros a Ha. apply Ho. intros Hav. apply Ha, in_pages_cons. by left.
    + apply (same_out_weaken [t]); [exact Ho2|]. intros x ->%list_elem_of_singleton. right. apply elem_of_tables. right. eauto.
  - done.
Qed.

Lemma space_fun pd s l f g : space pd s l f -> (forall n, 0 <= n < 2 ^ 20 -> f n = g n) -> space pd s l g.
Proof.
  intros [H1 H2 H3] Hg. assert (upages g = upages f) as E.
  { apply pages_ext. intros x Hx. unfold upage. rewrite Hg; [done|]. unfold UPAGES in Hx. lia. }
  split; [by eapply vm_at_fun|by rewrite E|by rewrite E].
Qed.

(** The entries once the memory from page [n] to [N] is given back. *)
Definition cleared (f : Z -> Z) (n N x : Z) : Z := if decide (n <= x < N) then if present (f x) then 0 else f x else f x.

(** What a loop over the pages from [n] to [N] that gives memory back does. *)
Definition gave_back (pd : Z) (f : Z -> Z) (n N : Z) (s : kheap) (l : list Z) (s' : kheap) (l' : list Z) : Prop :=
  space pd s' l' (cleared f n N) /\ tables (hm s') pd = tables (hm s) pd /\ Permutation l' (pages f n N ++ l) /\
  same_out (pages f n N ++ tables (hm s) pd) (hm s) (hm s') /\ page_protect (hp s') = page_protect (hp s).

Lemma gave_back_skip pd f n m N s l s' l' : n <= m -> (forall x, n <= x < m -> present (f x) = false) -> gave_back pd f m N s l s' l' -> gave_back pd f n N s l s' l'.
Proof.
  intros Hn Hf (H1 & H2 & H3 & H4 & H5). unfold gave_back. rewrite (pages_skip f n m N) by done. split_and!; try done. eapply space_fun; [exact H1|].
  intros x _. unfold cleared. destruct (decide (n <= x < m)) as [Hx|Hx]; [rewrite (Hf x Hx); by repeat case_decide|]. repeat case_decide; try done; lia.
Qed.

Lemma gave_back_drop pd f n N v s l s1 s' l' : n < N -> upage f n = Some v -> tables (hm s1) pd = tables (hm s) pd -> same_out (v :: tables (hm s) pd) (hm s) (hm s1) -> page_protect (hp s1) = page_protect (hp s) ->
  gave_back pd (fun x => if decide (x = n) then 0 else f x) (n + 1) N s1 (v :: l) s' l' -> gave_back pd f n N s l s' l'.
Proof.
  intros Hn Hu Et Ho Ep (H1 & H2 & H3 & H4 & H5). unfold gave_back. assert (pages (fun x => if decide (x = n) then 0 else f x) (n + 1) N = pages f (n + 1) N) as Ef.
  { apply pages_ext. intros x Hx. unfold upage. by rewrite decide_False by lia. }
  rewrite pages_cons, Hu by done. rewrite Ef in *. split_and!.
  - eapply space_fun; [exact H1|]. intros x _. unfold cleared. unfold upage in Hu. destruct (decide (x = n)) as [->|Hx].
    + rewrite decide_False by lia. rewrite decide_True by lia. by destruct (present (f n)).
    + repeat case_decide; try done; lia.
  - congruence.
  - rewrite H3. rewrite <- app_comm_cons. by rewrite <- Permutation_middle.
  - apply (same_out_trans _ _ (hm s1)); [eapply same_out_weaken; [exact Ho|]|eapply same_out_weaken; [exact H4|]]; intros x Hx; rewrite <- app_comm_cons; rewrite ?Et in Hx.
    + apply elem_of_cons in Hx as [->|Hx]; [by left|]. right. apply elem_of_app. by right.
    + by right.
  - congruence.
Qed.

Lemma tab_none pd s l f d : vm_at pd s l f -> 0 <= d < 1024 -> tab (hm s) pd d = None -> forall x, 1024 * d <= x < 1024 * (d + 1) -> f x = 0.
Proof.
  intros [_ _ _ Hp] Hd Ht x Hx. rewrite <- (Hp x) by (change (2 ^ 20) with (1024 * 1024); lia). unfold pte. replace (x / 1024) with d; [by rewrite Ht|]. Z.div_mod_to_equations. lia.
Qed.

(** The kernel is linked at [KERNLINK]. *)
Hypothesis Hend : KERNLINK <= end_.

Lemma page_addr f n v : upage f n = Some v -> valid v -> present (f n) = true /\ P2V (PTE_ADDR (f n)) = v /\ PTE_ADDR (f n) <> 0.
Proof.
  unfold upage. destruct (present (f n)); [|done]. intros [= <-] (_ & H & _). split; [done|]. split; [done|]. intros E. rewrite E in H. unfold P2V in H. rewrite u32_id in H by (by vm_compute). unfold KERNLINK, EXTMEM in Hend. lia.
Qed.

Lemma deallocuvm_loop_run pd oldsz N fuel : 0 <= oldsz <= KERNBASE -> N = (oldsz + (PGSIZE - 1)) / PGSIZE -> forall n s l f, space pd s l f -> 0 <= n <= UPAGES -> N - n < Z.of_nat fuel -> (0 < fuel)%nat ->
  exists s' l', deallocuvm_loop end_ fuel pd (PGSIZE * n) oldsz s = inr (tt, s') /\ gave_back pd f n N s l s' l'.
Proof.
  intros Ho HN. assert (forall n, PGSIZE * n < oldsz <-> n < N) as Hlt by (intros n; subst N; unfold PGSIZE; Z.div_mod_to_equations; lia).
  assert (N <= UPAGES) as HNU by (subst N; unfold PGSIZE, KERNBASE, UPAGES in *; Z.div_mod_to_equations; lia).
  induction fuel as [|fuel IH]; intros n s l f Hsp Hn Hf Hf0; [lia|]. cbn [deallocuvm_loop]. destruct (Z.ltb_spec (PGSIZE * n) oldsz) as [Hlo|Hge]; cbn [negb].
  2: { assert (N <= n) by (apply Z.nlt_ge; intros H; apply Hlt in H; lia). exists s, l. split; [done|]. unfold gave_back. rewrite pages_none by lia. split_and!; try done. eapply space_fun; [done|]. intros x _. unfold cleared. by rewrite decide_False by lia. }
  apply Hlt in Hlo. assert (0 <= n < 2 ^ 20) as Hnr by (unfold UPAGES in *; lia). assert (is_u32 (PGSIZE * n)) as Hu by (unfold is_u32, PGSIZE, UPAGES in *; lia).
  destruct (walk_run pd s l f (PGSIZE * n) n false (sp_at _ _ _ _ Hsp) Hu (page_number n)) as (r & s1 & l1 & E & _ & _ & [(-> & -> & -> & Ht & _)|(Hr & Hs & t & Ht & ->)]); rewrite (bind_run _ _ _ _ _ E).
  - cbn [Z.eqb]. rewrite PDX_spec, page_number, PGADDR_spec by (done || unfold UPAGES in *; Z.div_mod_to_equations; lia). set (d := n / 1024) in *.
    assert (1024 * d <= n < 1024 * (d + 1)) as Hd by (unfold d; Z.div_mod_to_equations; lia). assert (0 <= d < 512) by (unfold UPAGES in *; lia).
    rewrite (u32_id (_ - PGSIZE)), u32_id by (unfold is_u32, PGSIZE; lia). replace ((d + 1) * 4194304 - PGSIZE + PGSIZE) with (PGSIZE * (1024 * (d + 1))) by (unfold PGSIZE; lia).
    destruct (IH (1024 * (d + 1)) s l f Hsp) as (s' & l' & E' & G); [unfold UPAGES; lia|lia|lia|]. exists s', l'. split; [exact E'|]. eapply gave_back_skip; [|  |exact G]; [lia|].
    intros x Hx. rewrite (tab_none pd s l f d (sp_at _ _ _ _ Hsp)); [done|lia|done|lia].
  - destruct (Hs eq_refl) as [-> ->]. rewrite (proj2 (Z.eqb_neq _ 0)) by done. rewrite (bind_run _ _ _ _ _ (load_run _ s)), (pte_load pd s l f n t (sp_at _ _ _ _ Hsp) Hnr Ht).
    replace (PGSIZE * n +u PGSIZE) with (PGSIZE * (n + 1)) by (rewrite u32_id; unfold is_u32, PGSIZE, UPAGES in *; lia). destruct (upage f n) as [v|] eqn:Eu.
    + destruct (page_addr f n v Eu) as (-> & -> & Hpa). { apply (space_in pd s l f v Hsp). apply elem_of_pages. exists n. split; [unfold UPAGES in *; lia|done]. }
      rewrite (proj2 (Z.eqb_neq _ 0)) by done. destruct (drop_page pd s l f n t v Hsp ltac:(lia) Eu Ht) as (s2 & E2 & Hsp2 & Et2 & Ho2 & Ep2). rewrite (bind_run _ _ _ _ _ E2).
      destruct (IH (n + 1) s2 (v :: l) _ Hsp2) as (s' & l' & E' & G); [lia|lia|lia|]. exists s', l'. split; [exact E'|]. by eapply gave_back_drop.
    + assert (present (f n) = false) as Ep by (unfold upage in Eu; by destruct (present (f n))). rewrite Ep. rewrite (bind_run _ _ _ _ _ eq_refl).
      destruct (IH (n + 1) s l f Hsp) as (s' & l' & E' & G); [lia|lia|lia|]. exists s', l'. split; [exact E'|]. eapply gave_back_skip; [|  |exact G]; [lia|]. intros x Hx. by replace x with n by lia.
Qed.

(** The number of pages of [sz] bytes. *)
Definition up (sz : Z) : Z := (sz + (PGSIZE - 1)) / PGSIZE.
Lemma PGROUNDUP_up sz : 0 <= sz < 2 ^ 32 - PGSIZE -> PGROUNDUP sz = PGSIZE * up sz.
Proof.
  intros H. unfold PGROUNDUP, up. rewrite u32_id by (unfold is_u32, PGSIZE in *; lia). change (Z.land (sz + PGSIZE - 1) (Z.lnot (PGSIZE - 1))) with (PGROUNDDOWN (sz + PGSIZE - 1)). rewrite PGROUNDDOWN_spec. unfold PGSIZE. Z.div_mod_to_equations. lia.
Qed.

Lemma deallocuvm_run pd oldsz newsz s l f : space pd s l f -> 0 <= newsz < oldsz -> oldsz <= KERNBASE ->
  exists s' l', deallocuvm end_ pd oldsz newsz s = inr (newsz, s') /\ gave_back pd f (up newsz) (up oldsz) s l s' l'.
Proof.
  intros Hsp Hn Ho. unfold deallocuvm. rewrite (proj2 (Z.leb_gt oldsz newsz)), PGROUNDUP_up by (unfold KERNBASE, PGSIZE in *; lia).
  destruct (deallocuvm_loop_run pd oldsz (up oldsz) (S (Z.to_nat (oldsz / PGSIZE + 1))) ltac:(lia) eq_refl (up newsz) s l f Hsp) as (s' & l' & E & G); [| |lia|].
  - unfold up, PGSIZE, KERNBASE, UPAGES in *. Z.div_mod_to_equations. lia.
  - assert (0 <= up newsz) by (apply Z.div_pos; unfold PGSIZE; lia). assert (up oldsz <= oldsz / PGSIZE + 1) by (unfold up, PGSIZE; Z.div_mod_to_equations; lia). rewrite Nat2Z.inj_succ, Z2Nat.id by (unfold PGSIZE; Z.div_mod_to_equations; lia). lia.
  - rewrite (bind_run _ _ _ _ _ E). eauto.
Qed.

Lemma free_tables_run pd m0 n : valid pd -> forall i s l, 0 <= i -> i + Z.of_nat n <= 1024 -> kinv end_ s l -> (forall a, pd <= a < pd + PGSIZE -> hm s a = m0 a) ->
  let ts := omap (tab m0 pd) (seqZ i (Z.of_nat n)) in Forall valid ts -> NoDup (pd :: ts ++ l) ->
  exists s' l', free_tables end_ n pd i s = inr (tt, s') /\ kinv end_ s' l' /\ Permutation l' (ts ++ l) /\ same_out ts (hm s) (hm s') /\ page_protect (hp s') = page_protect (hp s).
Proof.
  intros Hpd. induction n as [|n IH]; intros i s l Hi Hin Hk Hm ts Hv Hnd; [by exists s, l|]. cbn [free_tables]. rewrite (bind_run _ _ _ _ _ (load_run _ s)).
  assert (ld32 (hm s) (pd + 4 * i) = wd m0 pd i) as -> by (unfold wd; apply ld32_ext; intros a Ha; apply Hm; unfold PGSIZE; lia).
  assert (ts = match tab m0 pd i with Some t => t :: omap (tab m0 pd) (seqZ (i + 1) (Z.of_nat n)) | None => omap (tab m0 pd) (seqZ (i + 1) (Z.of_nat n)) end) as Ets.
  { unfold ts. rewrite seqZ_cons by lia. cbn [omap list_omap]. unfold Z.succ. by replace (Z.pred (Z.of_nat (S n))) with (Z.of_nat n) by lia. }
  clearbody ts. unfold tab in Ets at 1. destruct (present (wd m0 pd i)) eqn:Ep.
  - subst ts. set (t := P2V _) in *. clearbody t. set (ts := omap _ _) in *. apply Forall_cons in Hv as [Htv Hv]. apply NoDup_cons in Hnd as [Hpn Hnd]. apply NoDup_cons in Hnd as [Htn Hnd]. rewrite elem_of_app in Htn.
    destruct (kfree_spec end_ s l t Hk Htv ltac:(tauto)) as (m1 & E & Ho & Hk1). rewrite (bind_run _ _ _ _ _ E). set (s1 := Kheap _ m1) in *.
    destruct (IH (i + 1) s1 (t :: l)) as (s' & l' & E' & Hk' & Hp' & Ho' & Epr); [lia|lia|done| |done| |].
    + intros a Ha. unfold s1. cbn [hm]. rewrite Ho; [by apply Hm|]. intros Hat. assert (pd <> t) by (intros ->; apply Hpn; left). destruct (pages_apart end_ pd t); [done..|lia|lia].
    + fold ts. apply NoDup_cons. split; [|rewrite <- Permutation_middle; apply NoDup_cons; split; [rewrite elem_of_app; tauto|done]].
      rewrite elem_of_app, elem_of_cons. intros [?|[->|?]]; apply Hpn; [right; apply elem_of_app; by left|left|right; apply elem_of_app; by right].
    + exists s', l'. split; [exact E'|]. split; [done|]. fold ts in Hp', Ho'. split; [rewrite Hp'; by rewrite <- Permutation_middle|]. split; [|done].
      apply (same_out_trans _ _ m1); [intros a Ha; apply Ho; intros Hat; apply Ha, in_pages_cons; by left|]. eapply same_out_weaken; [exact Ho'|]. intros x Hx. by right.
  - rewrite (bind_run _ _ _ _ _ eq_refl). subst ts. destruct (IH (i + 1) s l) as (s' & l' & E' & H); [lia|lia|done..|]. eauto.
Qed.

Lemma freevm_run pd s l f : space pd s l f ->
  exists s' l', freevm end_ pd s = inr (tt, s') /\ kinv end_ s' l' /\ Permutation l' (upages f ++ tables (hm s) pd ++ l) /\ same_out (upages f ++ tables (hm s) pd) (hm s) (hm s') /\ page_protect (hp s') = page_protect (hp s).
Proof.
  intros Hsp. pose proof Hsp as [[_ Hvt _ _] _ Hnd]. pose proof Hvt as [Hpd _]%Forall_cons. unfold freevm. rewrite (proj2 (Z.eqb_neq pd 0)) by (destruct Hpd as (_ & _ & ?); unfold KERNBASE in *; lia).
  destruct (deallocuvm_run pd KERNBASE 0 s l f Hsp ltac:(unfold KERNBASE; lia) ltac:(lia)) as (s1 & l1 & E & Hsp1 & Et & Hp1 & Ho1 & Ep1). rewrite (bind_run _ _ _ _ _ E).
  assert (up 0 = 0) as E0 by done. assert (up KERNBASE = UPAGES) as EU by (vm_compute; reflexivity). rewrite E0, EU in Hsp1, Hp1, Ho1. rewrite upages_all in Hp1, Ho1. pose proof Hsp1 as [[Hk1 Hvt1 Hnd1 _] _ _]. destruct (free_tables_run pd (hm s1) (Z.to_nat NPDENTRIES) Hpd 0 s1 l1) as (s2 & l2 & E2 & Hk2 & Hp2 & Ho2 & Ep2); [lia|by vm_compute|done|done| | |].
  { by apply Forall_cons in Hvt1 as [_ ?]. }
  { exact Hnd1. }
  rewrite (bind_run _ _ _ _ _ E2). assert (Z.of_nat (Z.to_nat NPDENTRIES) = 1024) as EN by (vm_compute; reflexivity). rewrite EN in Hp2, Ho2. assert (pd ∉ l2) as Hpl.
  { rewrite Hp2. apply NoDup_cons in Hnd1 as [Hn _]. exact Hn. }
  destruct (kfree_spec end_ s2 l2 pd Hk2 Hpd Hpl) as (m3 & E3 & Ho3 & Hk3). rewrite E3. eexists _, (pd :: l2). split; [reflexivity|]. split; [exact Hk3|]. cbn [hp hm]. split_and!.
  - rewrite Hp2, app_comm_cons. change (pd :: omap (tab (hm s1) pd) (seqZ 0 1024)) with (tables (hm s1) pd). rewrite Et, Hp1. by rewrite app_assoc, (Permutation_app_comm (tables _ _)), <- app_assoc.
  - apply (same_out_trans _ _ (hm s1)); [done|]. apply (same_out_trans _ _ (hm s2)); [eapply same_out_weaken; [exact Ho2|]|].
    + intros x Hx. apply elem_of_app. right. rewrite <- Et. by right.
    + intros a Ha. apply Ho3. intros Hap. apply Ha. exists pd. split; [|done]. apply elem_of_app. right. by left.
  - simpl. congruence.
Qed.

(** ** A page added to an address space *)

Lemma upages_add f n v pa perm : 0 <= n < UPAGES -> present (f n) = false -> upage (mapped f n pa perm 1) n = Some v -> Permutation (upages (mapped f n pa perm 1)) (v :: upages f).
Proof.
  intros Hn Hf Hv. apply (pages_insert _ _ n); [done| |done|].
  - unfold upage. by rewrite Hf.
  - intros x Hx. unfold upage, mapped. by rewrite decide_False by lia.
Qed.

Lemma mapped_0 f n pa perm x : mapped f n pa perm 0 x = f x.
Proof. unfold mapped. by rewrite decide_False by lia. Qed.

Lemma mapped_page f n v perm : valid v -> 0 <= perm < PGSIZE -> let e := mapped f n (V2P v) perm 1 n in present e = true /\ P2V (PTE_ADDR e) = v /\ PTE_FLAGS e = Z.lor perm PTE_P.
Proof.
  intros Hv Hp e. destruct (V2P_valid end_ v Hv) as (_ & Hm & Hr & E). destruct (entry_spec (V2P v) perm Hm ltac:(unfold PHYSTOP in Hr; lia) Hp) as (_ & H2 & H3 & H4).
  unfold e, mapped. rewrite decide_True by lia. rewrite Z.sub_diag, Z.mul_0_r, Z.add_0_r. by rewrite H3.
Qed.

(** What a mapping of the fresh page [v], filled as in [m2], does. *)
Definition page_added (d x v perm : Z) (g : Z -> Z) (s : kheap) (l : list Z) (m2 : mem) (r : Z) (s' : kheap) (l' : list Z) : Prop :=
  Permutation (tables (hm s') d ++ l') (tables (hm s) d ++ l) /\ same_out (tables (hm s) d ++ v :: l) (hm s) (hm s') /\ (forall a, v <= a < v + PGSIZE -> hm s' a = m2 a) /\ tables (hm s) d ⊆ tables (hm s') d /\
  (r = 0 /\ space d s' l' (mapped g x (V2P v) perm 1) \/ r = -1 /\ space d s' l' g /\ nomem s' l').

Lemma add_page d s v l g x perm k m2 : space d s (v :: l) g -> kinv end_ (Kheap k (hm s)) l -> wf_mem m2 -> same_out [v] (hm s) m2 -> 0 <= x < UPAGES -> present (g x) = false -> 0 <= perm < PGSIZE ->
  exists r s' l', mappages d (PGSIZE * x) PGSIZE (V2P v) perm (Kheap k m2) = inr (r, s') /\ page_added d x v perm g s l m2 r s' l' /\ page_protect (hp s') = page_protect k.
Proof.
  intros [Hva Hval Hnd] Hk Hwf Ho Hx Hg Hp. pose proof (kinv_valid _ _ (va_k _ _ _ _ Hva)) as [Hv Hvl]%Forall_cons. destruct (V2P_valid end_ v Hv) as (_ & Hm & Hr & _). pose proof (va_valid _ _ _ _ Hva) as Hvt.
  pose proof (va_nodup _ _ _ _ Hva) as (_ & Hd & [Hvn Hndl]%NoDup_cons)%NoDup_app. assert (v ∉ tables (hm s) d) as Hvtab by (intros H; apply (Hd v H); by left).
  assert (forall a, in_pages a (tables (hm s) d) -> m2 a = hm s a) as Hkeep by (intros a Ha; apply Ho; intros (w & ->%list_elem_of_singleton & Hwa); exact (apart_out v _ a Hv Hvt Hvtab Hwa Ha)).
  assert (vm_at d (Kheap k m2) l g) as Hva2.
  { apply (vm_at_move d s (v :: l) g); [done|apply (kinv_write (Kheap k (hm s)) l m2 [v]); [done|done|by apply Forall_singleton|done|by intros w ->%list_elem_of_singleton]|done|]. intros w Hw Hwt. apply (Hd w Hwt). by right. }
  destruct (tables_ext _ m2 d Hkeep) as (Et & _). destruct (mappages_run d x 1 (V2P v) perm (Kheap k m2) l g Hva2) as (r & j & s' & l' & E & Hva' & (G1 & G2 & G3 & G4) & H); try (unfold UPAGES, PHYSTOP, PGSIZE in *; lia || done).
  { intros y Hy. by replace y with x by lia. }
  rewrite Z.mul_1_r in E. cbn [hm] in G1, G2, G4. rewrite Et in G1, G2, G4. exists r, s', l'. split; [done|]. split; [|done]. assert (NoDup (v :: upages g ++ tables (hm s) d ++ l)) as Hnd'.
  { rewrite <- !Permutation_middle in Hnd. exact Hnd. }
  split; [done|]. split; [|split; [|split; [done|]]].
  - apply (same_out_trans _ _ m2); [eapply same_out_weaken; [exact Ho|]; intros w ->%list_elem_of_singleton; apply elem_of_app; right; by left|]. eapply same_out_weaken; [exact G2|]. intros w Hw. apply elem_of_app in Hw as [Hw|Hw]; apply elem_of_app; [by left|right; by right].
  - intros a Ha. apply G2. apply apart_out with v; [done|by apply Forall_app|rewrite elem_of_app; by intros [?|?]|done].
  - destruct H as [[-> ->]|(-> & Hj & Hno)].
    + left. split; [done|]. destruct (mapped_page g x v perm Hv Hp) as (E1 & E2 & _). assert (upage (mapped g x (V2P v) perm 1) x = Some v) as Eu by (unfold upage; by rewrite E1, E2).
      pose proof (upages_add g x v _ _ Hx Hg Eu) as Hperm. split; [done|rewrite Hperm; by apply Forall_cons|]. rewrite Hperm, G1. exact Hnd'.
    + right. split; [done|]. split; [|done]. assert (j = 0) as -> by lia. apply (space_fun _ _ _ (mapped g x (V2P v) perm 0)); [|intros n _; apply mapped_0].
      assert (upages (mapped g x (V2P v) perm 0) = upages g) as Eu by (apply pages_ext; intros y _; unfold upage; by rewrite mapped_0). split; [done|by rewrite Eu|]. rewrite Eu, G1. by apply NoDup_cons in Hnd' as [_ ?].
Qed.

(** ** Growing an address space *)

Definition with_protect (p : Z) (s : kheap) : kheap := Kheap (Kmem (use_lock (hp s)) (page_cnt (hp s)) p (freelist (hp s))) (hm s).
Lemma space_protect pd s l f p : space pd s l f -> space pd (with_protect p s) l f.
Proof. intros [[H1 H2 H3 H4] H5 H6]. by split. Qed.

Section grow.
Context (pd : Z) (s0 : kheap) (L : list Z) (f : Z -> Z) (x0 N : Z).
Hypothesis Hsp0 : space pd s0 L f.
Hypothesis HN : 0 <= x0 <= N /\ N <= UPAGES.
Hypothesis Hfree : forall y, x0 <= y < N -> present (f y) = false.
Notation WU := (Z.lor PTE_W PTE_U).

(** The pages from [x0] to [x] are new, of zeros, and the user may read and write them; every other entry is as before; the pages
    [e] are taken but not mapped. *)
Definition fresh_page (m : mem) (e : Z) : Prop :=
  present e = true /\ PTE_FLAGS e = Z.lor WU PTE_P /\ P2V (PTE_ADDR e) ∈ L /\ forall o, 0 <= o < PGSIZE -> m (P2V (PTE_ADDR e) + o) = 0.
Definition same_pages (e : list Z) (s : kheap) (l : list Z) (g : Z -> Z) : Prop :=
  space pd s l g /\ Permutation (e ++ upages g ++ tables (hm s) pd ++ l) (upages f ++ tables (hm s0) pd ++ L) /\ same_out (tables (hm s0) pd ++ L) (hm s0) (hm s) /\
  tables (hm s0) pd ⊆ tables (hm s) pd.
Definition grown_to (e : list Z) (x : Z) (s : kheap) (l : list Z) (g : Z -> Z) : Prop :=
  same_pages e s l g /\ (forall y, x0 <= y < x -> fresh_page (hm s) (g y)) /\ forall y, 0 <= y < 2 ^ 20 -> ~ x0 <= y < x -> g y = f y.

Lemma grown_to_incl e x s l g v : grown_to e x s l g -> x <= N -> v ∈ tables (hm s) pd ++ l -> v ∈ tables (hm s0) pd ++ L.
Proof.
  intros ((Hsp & Hp & _) & _ & Hout) Hx Hv. assert (v ∈ upages f ++ tables (hm s0) pd ++ L) as Hin by (rewrite <- Hp; apply elem_of_app; right; apply elem_of_app; by right). apply elem_of_app in Hin as [Hin|Hin]; [exfalso|done].
  pose proof (sp_nodup _ _ _ _ Hsp) as (_ & Hd & _)%NoDup_app. apply elem_of_pages in Hin as (y & Hy & Hu). apply (Hd v); [|done]. apply elem_of_pages. exists y. split; [done|]. unfold upage in *.
  rewrite Hout; [done|unfold UPAGES in *; lia|]. intros Hr. rewrite Hfree in Hu by lia. done.
Qed.

Lemma grow_out e x s l g m : grown_to e x s l g -> x <= N -> same_out (tables (hm s) pd ++ l) (hm s) m -> same_out (tables (hm s0) pd ++ L) (hm s0) m.
Proof.
  intros Hg Hx Ho. eapply same_out_trans; [apply Hg|]. eapply same_out_weaken; [exact Ho|]. intros v Hv. by eapply grown_to_incl.
Qed.

(** The user's pages are apart from what may be written. *)
Lemma grow_kept e x s l g m : grown_to e x s l g -> same_out (tables (hm s) pd ++ l) (hm s) m -> forall y, 0 <= y < UPAGES -> present (g y) = true -> forall o, 0 <= o < PGSIZE -> m (P2V (PTE_ADDR (g y)) + o) = hm s (P2V (PTE_ADDR (g y)) + o).
Proof.
  intros ((Hsp & _) & _) Ho y Hy Hp o Hoo. apply Ho. assert (P2V (PTE_ADDR (g y)) ∈ upages g) as Hin by (apply elem_of_pages; exists y; split; [done|unfold upage; by rewrite Hp]). destruct (space_in pd s l g _ Hsp Hin) as (Hv & Ht & Hl).
  pose proof (sp_at _ _ _ _ Hsp) as Hva. apply (apart_out (P2V (PTE_ADDR (g y)))); [done|apply Forall_app; split; [apply Hva|exact (kinv_valid _ _ (va_k _ _ _ _ Hva))]|rewrite elem_of_app; tauto|lia].
Qed.

Lemma grow_step x s v l g s' l' : grown_to [] x s (v :: l) g -> x0 <= x < N -> page_added pd x v WU g s l (memset (hm s) v 0 PGSIZE) 0 s' l' -> grown_to [] (x + 1) s' l' (mapped g x (V2P v) WU 1).
Proof.
  intros Hg Hx (P1 & O1 & V1 & T1 & H). destruct H as [[_ Hsp']|[H _]]; [|lia]. pose proof Hg as ((Hsp & Hp & Ho & T0) & Hnew & Hold). pose proof (sp_at _ _ _ _ Hsp) as Hva. pose proof (kinv_valid _ _ (va_k _ _ _ _ Hva)) as [Hv _]%Forall_cons.
  assert (present (g x) = false) as Hgx by (rewrite Hold by (unfold UPAGES in *; lia); apply Hfree; lia). destruct (mapped_page g x v WU Hv ltac:(by vm_compute)) as (E1 & E2 & E3).
  assert (Permutation (upages (mapped g x (V2P v) WU 1)) (v :: upages g)) as Hup by (apply upages_add; [lia|done|unfold upage; by rewrite E1, E2]). assert (v ∈ L) as HvL.
  { assert (v ∈ tables (hm s0) pd ++ L) as Hin by (eapply grown_to_incl; [exact Hg|lia|apply elem_of_app; right; by left]). apply elem_of_app in Hin as [Hin|Hin]; [exfalso|done].
    pose proof (va_nodup _ _ _ _ Hva) as (_ & Hd & _)%NoDup_app. apply (Hd v); [by apply T0|by left]. }
  split; [split_and!|split].
  - done.
  - etrans; [|exact Hp]. by apply (perm_add [] _ _ _ _ _ _ v).
  - by apply (grow_out [] x s (v :: l) g); [|lia|].
  - by etrans.
  - intros y Hy. destruct (decide (y = x)) as [->|Hne].
    + split; [done|]. split; [done|]. rewrite E2. split; [done|]. intros o Hoo. rewrite V1 by lia. rewrite memset_spec by done. unfold in_range. by rewrite (proj2 (Z.leb_le v (v + o))), (proj2 (Z.ltb_lt (v + o) (v + PGSIZE))) by lia.
    + assert (mapped g x (V2P v) WU 1 y = g y) as -> by (unfold mapped; by rewrite decide_False by lia). destruct (Hnew y ltac:(lia)) as (F1 & F2 & F3 & F4). split; [done|]. split; [done|]. split; [done|]. intros o Hoo.
      rewrite (grow_kept [] x s (v :: l) g (hm s') Hg O1 y ltac:(lia) F1 o Hoo). by apply F4.
  - intros y Hy Hny. unfold mapped. rewrite decide_False by lia. apply Hold; lia.
Qed.

(** The page is taken, but there is no memory for a table. *)
Lemma grow_stuck x s v l g r s' l' : grown_to [] x s (v :: l) g -> x0 <= x < N -> page_added pd x v WU g s l (memset (hm s) v 0 PGSIZE) r s' l' -> r <> 0 -> r = -1 /\ grown_to [v] x s' l' g /\ nomem s' l'.
Proof.
  intros Hg Hx (P1 & O1 & V1 & T1 & H) Hr. destruct H as [[H _]|(-> & Hsp' & Hno)]; [done|]. split; [done|]. split; [|done]. pose proof Hg as ((Hsp & Hp & Ho & T0) & Hnew & Hold). split; [split_and!|split].
  - done.
  - etrans; [|exact Hp]. rewrite P1. symmetry. apply perm_back.
  - by apply (grow_out [] x s (v :: l) g); [|lia|].
  - by etrans.
  - intros y Hy. destruct (Hnew y Hy) as (F1 & F2 & F3 & F4). split; [done|]. split; [done|]. split; [done|]. intros o Hoo. rewrite (grow_kept [] x s (v :: l) g (hm s') Hg O1 y ltac:(lia) F1 o Hoo). by apply F4.
  - done.
Qed.

(** The memory is given back. *)
Definition restored (e : list Z) (s : kheap) (l : list Z) : Prop :=
  exists g, same_pages e s l g /\ (forall y, x0 <= y < N -> present (g y) = false) /\ forall y, 0 <= y < 2 ^ 20 -> ~ x0 <= y < N -> g y = f y.

Lemma pages_cleared g : Permutation (upages g) (pages g x0 N ++ upages (cleared g x0 N)).
Proof.
  rewrite <- !upages_all. rewrite !(pages_split _ 0 x0 UPAGES), !(pages_split _ x0 N UPAGES) by lia. rewrite (pages_none (cleared g x0 N) x0 N), app_nil_l.
  2: { intros y Hy. unfold cleared. rewrite decide_True by lia. by destruct (present (g y)) eqn:E. }
  rewrite (pages_ext (cleared g x0 N) g 0 x0), (pages_ext (cleared g x0 N) g N UPAGES) by (intros y Hy; unfold upage, cleared; by rewrite decide_False by lia).
  rewrite !app_assoc. f_equiv. apply Permutation_app_comm.
Qed.

Lemma grow_undo e x s l g s' l' : grown_to e x s l g -> x <= N -> gave_back pd g x0 N s l s' l' -> restored e s' l'.
Proof.
  intros Hg Hx (Hsp' & Et & Hp' & Ho' & _). pose proof Hg as ((Hsp & Hp & Ho & T0) & Hnew & Hold). exists (cleared g x0 N). split; [split_and!|split].
  - done.
  - etrans; [|exact Hp]. rewrite Et. by apply (perm_drop e _ _ (pages g x0 N)); [apply pages_cleared|].
  - eapply same_out_trans; [exact Ho|]. eapply same_out_weaken; [exact Ho'|]. intros v Hv. apply elem_of_app in Hv as [Hv|Hv]; [|by eapply grown_to_incl; [exact Hg|lia|apply elem_of_app; left]].
    apply elem_of_pages in Hv as (y & Hy & Hu). unfold upage in Hu. destruct (decide (y < x)) as [Hyx|Hyx].
    + destruct (Hnew y ltac:(lia)) as (F1 & _ & F3 & _). rewrite F1 in Hu. injection Hu as <-. apply elem_of_app. by right.
    + rewrite Hold in Hu by (unfold UPAGES in *; lia). by rewrite Hfree in Hu by lia.
  - by rewrite Et.
  - intros y Hy. unfold cleared. rewrite decide_True by lia. by destruct (present (g y)) eqn:E.
  - intros y Hy Hny. unfold cleared. rewrite decide_False by lia. apply Hold; lia.
Qed.

Lemma restore_free v s l : restored [v] s l -> valid v -> exists s', kfree end_ v s = inr (tt, s') /\ restored [] s' (v :: l) /\ page_protect (hp s') = page_protect (hp s).
Proof.
  intros (g & (Hsp & Hp & Ho & T0) & Hno & Hold) Hv. pose proof (sp_at _ _ _ _ Hsp) as Hva. assert (NoDup (v :: upages g ++ tables (hm s) pd ++ l)) as Hnd by (change (NoDup ([v] ++ upages g ++ tables (hm s) pd ++ l)); rewrite Hp; apply Hsp0).
  apply NoDup_cons in Hnd as [Hvn Hnd]. rewrite !elem_of_app in Hvn. destruct (kfree_spec end_ s l v (va_k _ _ _ _ Hva) Hv ltac:(tauto)) as (m' & E & Ho' & Hk'). set (s' := Kheap _ m') in *. exists s'. split; [done|]. split; [|done].
  assert (forall a, in_pages a (tables (hm s) pd) -> hm s' a = hm s a) as Hkeep by (intros a Ha; apply Ho'; intros Hav; apply (apart_out v (tables (hm s) pd) a); [done|apply Hva|tauto|done|done]).
  destruct (tables_ext _ (hm s') pd Hkeep) as (Et & _). exists g. split; [split_and!|done].
  - split; [apply (vm_at_move pd s l g); [done|done|done|]|apply Hsp|rewrite Et].
    + intros w [->|Hw]%elem_of_cons Hwt; [tauto|]. pose proof (va_nodup _ _ _ _ Hva) as (_ & Hd & _)%NoDup_app. by apply (Hd w).
    + rewrite <- !Permutation_middle. apply NoDup_cons. rewrite !elem_of_app. split; [tauto|done].
  - etrans; [|exact Hp]. rewrite Et. apply perm_back.
  - eapply same_out_trans; [exact Ho|]. intros a Ha. apply Ho'. intros Hav. apply Ha. exists v. split; [|done]. assert (v ∈ upages f ++ tables (hm s0) pd ++ L) as Hin by (rewrite <- Hp; by left).
    apply elem_of_app in Hin as [Hin|Hin]; [exfalso|done]. apply Hvn. left. apply elem_of_pages in Hin as (y & Hy & Hu). apply elem_of_pages. exists y. split; [done|]. unfold upage in *. rewrite Hold; [done|unfold UPAGES in *; lia|].
    intros Hr. by rewrite Hfree in Hu by lia.
  - by rewrite Et.
Qed.

Section group.
Context (g0 : cgs) (i : nat) (c : cgroup) (oldsz newsz : Z).
Hypothesis Hc : cgroups g0 !! i = Some c.
Hypothesis Hkh : kh g0 = s0.
Hypothesis Hsize : 0 <= oldsz <= newsz /\ newsz < KERNBASE /\ x0 = up oldsz /\ N = up newsz.
Notation p := (protected_mem (mem_ c)).
Notation pp := (page_protect (hp s0)).
Hypothesis Hprot : 0 <= p <= pp /\ pp < 2 ^ 31.

(** The pages of its protected memory that the group has used once it has taken [j] pages. *)
Definition used (j : Z) : Z := if negb (bool_decide (i = cgroup_root)) && enabled Mem c then Z.min p j else 0.
(** The groups once [q] pages are used. *)
Definition gst (q : Z) (h : kheap) : cgs := Cgs (<[i := with_protected (p - q) c]> (cgroups g0)) (cg_locked g0) (ptab g0) h.

Lemma alter_insert_same (l : list cgroup) (h : cgroup -> cgroup) x : alter h i (<[i := x]> l) = <[i := h x]> l.
Proof. rewrite !list_insert_alter, list_alter_alter_eq. done. Qed.

Lemma gst_lookup q h : cgroups (gst q h) !! i = Some (with_protected (p - q) c).
Proof. cbn. apply list_lookup_insert_eq. by eapply lookup_lt_Some. Qed.
Lemma gst_0 : gst 0 s0 = g0.
Proof.
  unfold gst. rewrite Z.sub_0_r. replace (with_protected p c) with c by (unfold with_protected, with_mem_, with_protected_mem; by destruct c as [? ? ? ? ? ? ? ? ? ? ? ? ? ? ? [] ? ? ?]).
  rewrite list_insert_id by done. rewrite <- Hkh. by destruct g0.
Qed.

Lemma used_range j : 0 <= j -> 0 <= used j <= p.
Proof. intros Hj. unfold used. destruct (_ && _); lia. Qed.

Lemma dec_run j h : 0 <= j -> page_protect (hp h) = pp - used j ->
  exists d, dec_protect_mem i (gst (used j) h) = inr (d, gst (used (j + 1)) (with_protect (pp - used (j + 1)) h)) /\ (if d =? 0 then used j + 1 else used j) = used (j + 1).
Proof.
  intros Hj Hh. pose proof (used_range j Hj) as Hu. unfold dec_protect_mem, get_cg. rewrite bind_assoc, (bind_run _ _ _ _ _ (getS_run _)), gst_lookup. cbn [deref]. rewrite (bind_run _ _ _ _ _ eq_refl).
  change (enabled Mem (with_protected (p - used j) c)) with (enabled Mem c). change (protected_mem (mem_ (with_protected (p - used j) c))) with (p - used j).
  destruct (negb (bool_decide (i = cgroup_root)) && enabled Mem c) eqn:Epr; cbn [andb]; unfold used in *; rewrite Epr in *.
  - destruct (Z.ltb_spec 0 (p - Z.min p j)) as [Hlt|Hge]; cbn [andb].
    + exists 0. split; [|cbn; lia]. unfold onkh. rewrite (bind_run _ _ _ _ _ eq_refl). rewrite modS_bind. unfold gst, upd_cg, mret, M_ret. cbn [cgroups cg_locked ptab kh fst snd hp hm]. rewrite Hh. rewrite s32_id by (unfold is_s32; lia). rewrite u32_id by (unfold is_u32; lia).
      unfold with_protect. do 2 f_equal. f_equal; [|do 2 f_equal; lia]. rewrite alter_insert_same. f_equal. unfold with_protected, with_mem_, with_protected_mem. cbn. do 2 f_equal. lia.
    + exists 1. split; [|cbn; lia]. replace (Z.min p (j + 1)) with (Z.min p j) by lia. unfold with_protect. rewrite <- Hh. by destruct h as [[] ?].
  - exists 1. split; [|done]. unfold with_protect. rewrite <- Hh. by destruct h as [[] ?].
Qed.

Lemma onkh_gst {A} (m : M kheap A) q h a h' : m h = inr (a, h') -> onkh m (gst q h) = inr (a, gst q h').
Proof. intros E. unfold onkh. cbn [kh gst]. by rewrite E. Qed.

Lemma grown_to_protect e x h l g v : grown_to e x h l g -> grown_to e x (with_protect v h) l g.
Proof. intros ((Hsp & H1) & H2). split; [|exact H2]. split; [by apply space_protect|exact H1]. Qed.

(** Memory ran out after some pages. *)
Definition ran_out : Prop := exists e y h l g, grown_to e y h l g /\ x0 <= y < N /\ nomem h l.

(** The result of the loop. *)
Definition alloc_result (r : Z + Z) (s : cgs) : Prop :=
  exists q h l, s = gst q h /\ page_protect (hp h) = pp - q /\
  match r with
  | inr n => n = N - x0 /\ q = used n /\ exists g, grown_to [] N h l g
  | inl n => n = q /\ 0 <= q <= p /\ restored [] h l /\ ran_out
  end.

Lemma alloc_undo e x q h l g : grown_to e x h l g -> x0 <= x < N -> page_protect (hp h) = pp - q -> 
  exists r h' l', onkh (deallocuvm end_ pd newsz oldsz) (gst q h) = inr (r, gst q h') /\ restored e h' l' /\ page_protect (hp h') = pp - q.
Proof.
  intros Hg Hx Hpp. destruct Hsize as (Hs1 & Hs2 & E0 & EN). assert (oldsz < newsz) as Hlt by (destruct (Z.eq_dec oldsz newsz) as [E|]; [rewrite E in E0; lia|lia]). pose proof Hg as ((Hsp & _) & _).
  destruct (deallocuvm_run pd newsz oldsz h l g Hsp ltac:(lia) ltac:(lia)) as (h' & l' & E & G). rewrite <- E0, <- EN in G. exists oldsz, h', l'. split; [by apply onkh_gst|]. split; [by eapply grow_undo; [exact Hg|lia|]|]. destruct G as (_ & _ & _ & _ & Ep). congruence.
Qed.

Lemma allocuvm_loop_run fuel : forall x h l g, grown_to [] x h l g -> x0 <= x <= N -> page_protect (hp h) = pp - used (x - x0) -> N - x < Z.of_nat fuel -> (0 < fuel)%nat ->
  exists r s', allocuvm_loop end_ fuel pd (PGSIZE * x) oldsz newsz i (used (x - x0)) (x - x0) (gst (used (x - x0)) h) = inr (r, s') /\ alloc_result r s'.
Proof.
  destruct Hsize as (Hs1 & Hs2 & E0 & EN). assert (forall n, PGSIZE * n < newsz <-> n < N) as Hlt by (intros n; rewrite EN; unfold up, PGSIZE; Z.div_mod_to_equations; lia).
  induction fuel as [|fuel IH]; intros x h l g Hg Hx Hpp Hf Hf0; [lia|]. cbn [allocuvm_loop]. destruct (Z.ltb_spec (PGSIZE * x) newsz) as [Hlo|Hge]; cbn [negb].
  2: { assert (x = N) as -> by (assert (~ x < N) by (intros H; apply Hlt in H; lia); lia). eexists _, _. split; [reflexivity|]. exists (used (N - x0)), h, l. eauto 10. }
  apply Hlt in Hlo. destruct (dec_run (x - x0) h ltac:(lia) Hpp) as (d & Ed & Hd). rewrite (bind_run _ _ _ _ _ Ed). replace (x - x0 + 1) with (x + 1 - x0) in * by lia. rewrite Hd. set (q := used (x + 1 - x0)) in *.
  assert (0 <= q <= p) as Hq by (apply used_range; lia). apply (grown_to_protect _ _ _ _ _ (pp - q)) in Hg. set (h1 := with_protect (pp - q) h) in *. assert (page_protect (hp h1) = pp - q) as Hpp1 by done. clearbody h1. clear h Hpp Ed. pose proof Hg as ((Hsp & _) & _ & Hold). pose proof (sp_at _ _ _ _ Hsp) as Hva.
  destruct (kalloc_spec end_ h1 l (va_k _ _ _ _ Hva)) as [[Hno E2]|(v & l2 & -> & _ & E2 & Hk2)]; rewrite (bind_run _ _ _ _ _ (onkh_gst _ q _ _ _ E2)).
  { cbn [Z.eqb]. destruct (alloc_undo [] x q h1 l g Hg ltac:(lia) Hpp1) as (r & h' & l' & E & Hres & Hpp'). rewrite (bind_run _ _ _ _ _ E). eexists _, _. split; [reflexivity|]. exists q, h', l'. split_and!; [done|done|done|lia|lia|done|]. exists [], x, h1, l, g. split; [done|]. split; [lia|done]. }
  pose proof (kinv_valid _ _ (va_k _ _ _ _ Hva)) as [Hv _]%Forall_cons. rewrite (proj2 (Z.eqb_neq v 0)) by (destruct Hv as (_ & _ & ?); unfold KERNBASE in *; lia). rewrite (bind_run _ _ _ _ _ (onkh_gst _ q _ _ _ eq_refl)). cbn [hp hm].
  assert (present (g x) = false) as Hgx by (rewrite Hold by (unfold UPAGES in *; lia); apply Hfree; lia). assert (wf_mem (hm h1)) as Hwf by apply (va_k _ _ _ _ Hva).
  destruct (add_page pd h1 v l2 g x WU _ (memset (hm h1) v 0 PGSIZE) Hsp Hk2) as (r & h3 & l3 & E3 & Hadd & Epr); [by apply memset_wf|apply memset_out|lia|done|by vm_compute|]. rewrite (bind_run _ _ _ _ _ (onkh_gst _ q _ _ _ E3)). cbn [page_protect] in Epr. rewrite Hpp1 in Epr. destruct (decide (r = 0)) as [->|Hr0].
  - cbn [Z.ltb Z.compare]. pose proof (grow_step x h1 v l2 g h3 l3 Hg ltac:(lia) Hadd) as Hg'. replace (PGSIZE * x +u PGSIZE) with (PGSIZE * (x + 1)) by (rewrite u32_id; unfold is_u32, PGSIZE, UPAGES in *; lia). replace (x - x0 + 1) with (x + 1 - x0) by lia.
    apply (IH (x + 1) h3 l3 _ Hg'); [lia|exact Epr|lia|lia].
  - destruct (grow_stuck x h1 v l2 g r h3 l3 Hg ltac:(lia) Hadd Hr0) as (-> & Hg' & Hno). cbn [Z.ltb Z.compare]. destruct (alloc_undo [v] x q h3 l3 g Hg' ltac:(lia) Epr) as (r & h' & l' & E & Hres & Hpp'). rewrite (bind_run _ _ _ _ _ E).
    destruct (restore_free v h' l' Hres Hv) as (h4 & E4 & Hres4 & Ep4). rewrite (bind_run _ _ _ _ _ (onkh_gst _ q _ _ _ E4)). eexists _, _. split; [reflexivity|]. exists q, h4, (v :: l'). split_and!; [done|congruence|done|lia|lia|done|].
    exists [v], x, h3, l3, g. split; [done|]. split; [lia|done].
Qed.

Lemma restored_protect e h l v : restored e h l -> restored e (with_protect v h) l.
Proof. intros (g & (Hsp & H1) & H2). exists g. split; [|exact H2]. split; [by apply space_protect|exact H1]. Qed.

Lemma inc_run q h l : 0 <= q <= p -> page_protect (hp h) = pp - q -> restored [] h l ->
  exists h', inc_protect_mem i q (gst q h) = inr (tt, gst 0 h') /\ restored [] h' l /\ (page_protect (hp h') = pp \/ page_cnt (hp h') < pp).
Proof.
  intros Hq Hh Hr. unfold inc_protect_mem. assert (exists a h', increse_protect_counter q h = inr (a, h') /\ restored [] h' l /\ (page_protect (hp h') = pp \/ page_cnt (hp h') < pp)) as (a & h' & E & H1 & H2).
  { unfold increse_protect_counter. rewrite (proj2 (Z.ltb_ge q 0)) by lia. cbv zeta. rewrite Hh, !s32_id by (unfold is_s32; lia). destruct (Z.leb_spec (q + (pp - q)) (page_cnt (hp h))); eexists _, _; (split; [reflexivity|]).
    - split; [exact (restored_protect [] h l (pp - q + q) Hr)|]. left. cbn. lia.
    - split; [done|]. right. lia. }
  exists h'. rewrite (bind_run _ _ _ _ _ (onkh_gst _ q _ _ _ E)). split; [|done]. unfold modS, upd_cg, gst. cbn [cgroups cg_locked ptab kh]. rewrite alter_insert_same. do 4 f_equal.
  change (protected_mem (mem_ (with_protected (p - q) c))) with (p - q). rewrite u32_id by (unfold is_u32; lia). replace (p - q + q) with (p - 0) by lia. done.
Qed.
End group.
End grow.

(** C21: [allocuvm] returns.  It refuses a size in the kernel's half.  Otherwise the address space grows to the new size, the new pages are
    fresh ones, full of zeros and open to the user, every other entry stays, the group is charged for the pages, and its protected
    memory is used first; or memory ran out, the result is 0, and the address space maps what it mapped, the pages it took are free or
    tables of it, and the group has its protected memory back.  In both cases nothing is written to but the tables and free pages. *)
Theorem allocuvm_outcomes pd g0 i c l f oldsz newsz : space pd (kh g0) l f -> cgroups g0 !! i = Some c -> 0 <= oldsz ->
  (forall y, up oldsz <= y < up newsz -> present (f y) = false) -> 0 <= protected_mem (mem_ c) <= page_protect (hp (kh g0)) -> page_protect (hp (kh g0)) < 2 ^ 31 ->
  exists r g', allocuvm end_ pd oldsz newsz i g0 = inr (r, g') /\
    if KERNBASE <=? newsz then r = 0 /\ g' = g0
    else if newsz <? oldsz then r = oldsz /\ g' = g0
    else let n := up newsz - up oldsz in
      (exists h l' f', r = newsz /\ g' = upd_cg i (fun c => with_mem_ (with_current_page (current_page (mem_ c) +u n) (mem_ c)) c) (gst g0 i c (used i c n) h) /\
        page_protect (hp h) = page_protect (hp (kh g0)) - used i c n /\ grown_to pd (kh g0) l f (up oldsz) [] (up newsz) h l' f') \/
      (exists h l', r = 0 /\ g' = gst g0 i c 0 h /\ ran_out pd (kh g0) l f (up oldsz) (up newsz) /\ restored pd (kh g0) l f (up oldsz) (up newsz) [] h l' /\
        (page_protect (hp h) = page_protect (hp (kh g0)) \/ page_cnt (hp h) < page_protect (hp (kh g0)))).
Proof.
  intros Hsp Hc Ho Hfree Hp Hpp. unfold allocuvm. destruct (Z.leb_spec KERNBASE newsz) as [?|Hk]; [eauto|]. destruct (Z.ltb_spec newsz oldsz) as [?|Hlt]; [eauto|]. cbv zeta. set (x0 := up oldsz) in *. set (N := up newsz) in *.
  assert (0 <= x0 <= N /\ N <= UPAGES) as HN by (unfold x0, N, up, PGSIZE, KERNBASE, UPAGES in *; Z.div_mod_to_equations; lia). rewrite PGROUNDUP_up by (unfold KERNBASE, PGSIZE in *; lia). fold x0.
  assert (used i c 0 = 0) as Eu0 by (unfold used; destruct (_ && _); lia). assert (grown_to pd (kh g0) l f x0 [] x0 (kh g0) l f) as Hg by (split; [split_and!; [exact Hsp|rewrite app_nil_l; reflexivity|intros a _; reflexivity|reflexivity]|split; [intros y Hy; lia|intros y _ _; reflexivity]]).
  destruct (allocuvm_loop_run pd (kh g0) l f x0 N Hsp HN Hfree g0 i c oldsz newsz Hc ltac:(done) ltac:(done) (S (Z.to_nat (newsz / PGSIZE + 1))) x0 (kh g0) l f Hg ltac:(lia)) as (r & s' & E & q & h & l' & -> & Hh & H); [rewrite Z.sub_diag, Eu0; lia| |lia|].
  { rewrite Nat2Z.inj_succ, Z2Nat.id by (unfold PGSIZE; Z.div_mod_to_equations; lia). unfold N, up, PGSIZE in *. Z.div_mod_to_equations. lia. }
  rewrite Z.sub_diag, Eu0 in E. rewrite (gst_0 (kh g0) g0 i c Hc eq_refl ltac:(done)) in E. rewrite (bind_run _ _ _ _ _ E). destruct r as [n|n].
  - destruct H as (-> & Hq & Hr & Hout). destruct (inc_run pd (kh g0) l f x0 N g0 i c ltac:(done) q h l' Hq Hh Hr) as (h' & E' & Hr' & Hp'). rewrite (bind_run _ _ _ _ _ E'). eexists _, _. split; [reflexivity|]. right. exists h', l'. auto.
  - destruct H as (-> & -> & g & Hg'). eexists _, _. split; [reflexivity|]. left. exists h, l', g. auto.
Qed.
(** ** Copies to the user *)

(** The kernel's address of the byte the user sees at [a], and whether the user sees it. *)
Definition phys (f : Z -> Z) (a : Z) : Z := P2V (PTE_ADDR (f (a / PGSIZE))) + a mod PGSIZE.
Definition seen (f : Z -> Z) (x : Z) : bool := present (f x) && user (f x).

Section copyout.
Context (pd : Z) (s0 : kheap) (l : list Z) (f : Z -> Z) (va p len : Z).
Hypothesis Hsp0 : space pd s0 l f.
Hypothesis Hva : 0 <= va /\ 0 <= len /\ va + len <= KERNBASE.
Hypothesis Hsrc : 0 <= p /\ p + len < 2 ^ 32 /\ forall a, p <= a < p + len -> ~ in_pages a (upages f).

(** The first [j] bytes are written, and nothing else. *)
Definition written (j : Z) (m : mem) : Prop :=
  (forall k, 0 <= k < j -> m (phys f (va + k)) = hm s0 (p + k)) /\ forall a, (forall k, 0 <= k < j -> a <> phys f (va + k)) -> m a = hm s0 a.

Lemma phys_page a : 0 <= a < KERNBASE -> present (f (a / PGSIZE)) = true -> exists v, upage f (a / PGSIZE) = Some v /\ v ∈ upages f /\ phys f a = v + a mod PGSIZE /\ v <= phys f a < v + PGSIZE /\ 0 <= a / PGSIZE < UPAGES.
Proof.
  intros Ha Hp. exists (P2V (PTE_ADDR (f (a / PGSIZE)))). assert (0 <= a / PGSIZE < UPAGES) as Hx by (unfold PGSIZE, KERNBASE, UPAGES in *; Z.div_mod_to_equations; lia).
  assert (upage f (a / PGSIZE) = Some (P2V (PTE_ADDR (f (a / PGSIZE))))) as Hu by (unfold upage; by rewrite Hp). pose proof (Z.mod_pos_bound a PGSIZE ltac:(done)). split_and!; try done; try (unfold phys; lia). apply elem_of_pages. exists (a / PGSIZE). split; [lia|done].
Qed.

(** Different addresses of the user are different bytes. *)
Lemma phys_inj a b : 0 <= a < KERNBASE -> 0 <= b < KERNBASE -> present (f (a / PGSIZE)) = true -> present (f (b / PGSIZE)) = true -> phys f a = phys f b -> a = b.
Proof.
  intros Ha Hb Hpa Hpb E. destruct (phys_page a Ha Hpa) as (v & Hv & Hvin & Ev & Hvr & Hx). destruct (phys_page b Hb Hpb) as (w & Hw & Hwin & Ew & Hwr & Hy). destruct (decide (v = w)) as [->|Hne].
  - pose proof (sp_nodup _ _ _ _ Hsp0) as (Hnd & _)%NoDup_app. pose proof (upages_inj f _ _ w Hnd Hx Hy Hv Hw) as Ex. assert (a mod PGSIZE = b mod PGSIZE) as Em by lia. rewrite (Z.div_mod a PGSIZE), (Z.div_mod b PGSIZE), Ex, Em by done. done.
  - exfalso. pose proof (sp_valid _ _ _ _ Hsp0) as Hval. rewrite Forall_forall in Hval. destruct (pages_apart end_ v w (Hval v Hvin) (Hval w Hwin) Hne); lia.
Qed.

Lemma written_at j m k0 : written j m -> wf_mem m -> vm_at pd (Kheap k0 (hm s0)) l f -> (forall k, 0 <= k < j -> present (f ((va + k) / PGSIZE)) = true) -> j <= len -> vm_at pd (Kheap k0 m) l f.
Proof.
  intros [_ Hm] Hwf Hat Hp Hj. pose proof Hsp0 as [_ Hval Hnd]. assert (same_out (upages f) (hm s0) m) as Ho.
  { intros a Ha. apply Hm. intros k Hk ->. destruct (phys_page (va + k) ltac:(lia) (Hp k Hk)) as (v & _ & Hin & _ & Hr & _). apply Ha. exists v. auto. }
  apply (vm_at_move pd (Kheap k0 (hm s0)) l f); [done| | |].
  - apply (kinv_write (Kheap k0 (hm s0)) l m (upages f)); [apply Hat|done|done|done|]. intros w Hw Hwl. apply NoDup_app in Hnd as (_ & Hd & _). apply (Hd w Hw). apply elem_of_app. by right.
  - intros a Ha. apply Ho. eapply (apart_lists (tables (hm s0) pd)); [apply (sp_at _ _ _ _ Hsp0)|done| |exact Ha]. intros w Hw Hwu. apply NoDup_app in Hnd as (_ & Hd & _). apply (Hd w Hwu). apply elem_of_app. by left.
  - intros w Hw Hwt. pose proof (va_nodup _ _ _ _ Hat) as (_ & Hd & _)%NoDup_app. by apply (Hd w).
Qed.

Lemma uva2ka_run s x : vm_at pd s l f -> 0 <= x < 2 ^ 20 -> uva2ka pd (PGSIZE * x) s = match tab (hm s) pd (x / 1024) with None => inl Fault | Some _ => inr (if seen f x then P2V (PTE_ADDR (f x)) else 0, s) end.
Proof.
  intros Hat Hx. unfold uva2ka. destruct (walk_run pd s l f (PGSIZE * x) x false Hat ltac:(unfold is_u32, PGSIZE; lia) (page_number x)) as (r & s1 & l1 & E & _ & _ & [(-> & -> & -> & Ht & _)|(Hr & Hs & t & Ht & ->)]); rewrite (bind_run _ _ _ _ _ E).
  - by rewrite Ht.
  - destruct (Hs eq_refl) as [-> ->]. rewrite Ht, (proj2 (Z.eqb_neq _ 0)) by done. rewrite (bind_run _ _ _ _ _ (load_run _ s)), (pte_load pd s l f x t Hat Hx Ht). unfold seen. destruct (present (f x)); [|done]. by destruct (user (f x)).
Qed.

(** A round writes the bytes up to the end of the page. *)
Lemma written_step j m n v : written j m -> wf_mem m -> 0 <= j -> 0 < n -> j + n <= len -> (va + j) mod PGSIZE + n <= PGSIZE -> (forall k, 0 <= k < j -> present (f ((va + k) / PGSIZE)) = true) ->
  upage f ((va + j) / PGSIZE) = Some v -> let m' := memmove m (v + (va + j) mod PGSIZE) (p + j) n in written (j + n) m' /\ wf_mem m' /\ forall k, 0 <= k < j + n -> present (f ((va + k) / PGSIZE)) = true.
Proof.
  intros [Hw Hm] Hwf Hj Hn Hjn Hoff Hpre Hu m'. assert (present (f ((va + j) / PGSIZE)) = true) as Hpx by (unfold upage in Hu; by destruct (present _)). assert (P2V (PTE_ADDR (f ((va + j) / PGSIZE))) = v) as Ev by (unfold upage in Hu; rewrite Hpx in Hu; by injection Hu).
  assert (forall k, j <= k < j + n -> (va + k) / PGSIZE = (va + j) / PGSIZE /\ (va + k) mod PGSIZE = (va + j) mod PGSIZE + (k - j)) as Hpg by (intros k Hk; unfold PGSIZE in *; Z.div_mod_to_equations; lia).
  assert (forall k, 0 <= k < j + n -> present (f ((va + k) / PGSIZE)) = true) as Hpre' by (intros k Hk; destruct (Z.lt_ge_cases k j); [apply Hpre; lia|]; by rewrite (proj1 (Hpg k ltac:(lia)))).
  assert (forall k, j <= k < j + n -> phys f (va + k) = v + (va + j) mod PGSIZE + (k - j)) as Hph by (intros k Hk; unfold phys; destruct (Hpg k Hk) as [-> ->]; rewrite Ev; lia).
  assert (forall a, m' a = if in_range a (v + (va + j) mod PGSIZE) n then m (a - (v + (va + j) mod PGSIZE) + (p + j)) else m a) as Em by (intros a; apply memmove_spec; [done|lia]).
  split; [split|split; [apply memmove_wf; [lia|done]|done]].
  - intros k Hk. rewrite Em. unfold in_range. destruct (Z.lt_ge_cases k j) as [Hkj|Hkj].
    + destruct (Z.leb_spec (v + (va + j) mod PGSIZE) (phys f (va + k))), (Z.ltb_spec (phys f (va + k)) (v + (va + j) mod PGSIZE + n)); cbn [andb]; try (apply Hw; lia). exfalso.
      set (k' := j + (phys f (va + k) - (v + (va + j) mod PGSIZE))). assert (phys f (va + k') = phys f (va + k)) as E by (rewrite Hph by (unfold k'; lia); unfold k'; lia).
      assert (va + k' = va + k); [|unfold k' in *; lia]. apply phys_inj; [unfold k'; lia|lia|apply Hpre'; unfold k'; lia|apply Hpre'; lia|done].
    + rewrite Hph by lia. rewrite (proj2 (Z.leb_le _ _)), (proj2 (Z.ltb_lt _ _)) by lia. cbn [andb]. replace (v + (va + j) mod PGSIZE + (k - j) - (v + (va + j) mod PGSIZE) + (p + j)) with (p + k) by lia.
      apply Hm. intros k' Hk' E. destruct (phys_page (va + k') ltac:(lia) (Hpre k' Hk')) as (w & _ & Hin & _ & Hr & _). destruct Hsrc as (_ & _ & Hs). apply (Hs (p + k) ltac:(lia)). exists w. split; [done|]. lia.
  - intros a Ha. rewrite Em. unfold in_range. destruct (Z.leb_spec (v + (va + j) mod PGSIZE) a), (Z.ltb_spec a (v + (va + j) mod PGSIZE + n)); cbn [andb]; try (apply Hm; intros k Hk; apply Ha; lia).
    exfalso. apply (Ha (j + (a - (v + (va + j) mod PGSIZE)))); [lia|]. rewrite Hph by lia. lia.
Qed.

Lemma written_tab j m d : written j m -> (forall k, 0 <= k < j -> present (f ((va + k) / PGSIZE)) = true) -> j <= len -> 0 <= d < 1024 -> tab m pd d = tab (hm s0) pd d.
Proof.
  intros [_ Hm] Hp Hj Hd. apply tables_ext; [|done]. intros a Ha. apply Hm. intros k Hk ->. destruct (phys_page (va + k) ltac:(lia) (Hp k Hk)) as (v & _ & Hin & _ & Hr & _). destruct (space_in pd s0 l f v Hsp0 Hin) as (Hv & Ht & _).
  apply (apart_out v (tables (hm s0) pd) (phys f (va + k)) Hv); [apply (sp_at _ _ _ _ Hsp0)|done|done|done].
Qed.

Definition copyout_outcome (r : stop + Z * kheap) : Prop :=
  exists j m, 0 <= j <= len /\ written j m /\ (forall k, 0 <= k < j -> seen f ((va + k) / PGSIZE) = true) /\
    (j = len /\ r = inr (0, Kheap (hp s0) m) \/
     j < len /\ seen f ((va + j) / PGSIZE) = false /\ r = match tab (hm s0) pd ((va + j) / PGSIZE / 1024) with None => inl Fault | Some _ => inr (-1, Kheap (hp s0) m) end).

Lemma copyout_loop_run fuel : forall j m w, written j m -> wf_mem m -> 0 <= j <= len -> (forall k, 0 <= k < j -> seen f ((va + k) / PGSIZE) = true) -> (j < len -> w = va + j) ->
  (j < len -> up (va + len) - (va + j) / PGSIZE < Z.of_nat fuel) -> (0 < fuel)%nat -> copyout_outcome (copyout_loop fuel pd w (p + j) (len - j) (Kheap (hp s0) m)).
Proof.
  induction fuel as [|fuel IH]; intros j m w Hw Hwf Hj Hseen Hwv Hf Hf0; [lia|]. cbn [copyout_loop]. destruct (Z.ltb_spec 0 (len - j)) as [Hlt|Hge]; cbn [negb]; [|exists j, m; split_and!; try done; try lia; left; split; [lia|done]].
  rewrite (Hwv ltac:(lia)). specialize (Hf ltac:(lia)). assert (forall k, 0 <= k < j -> present (f ((va + k) / PGSIZE)) = true) as Hpre by (intros k Hk; specialize (Hseen k Hk); unfold seen in Hseen; by apply andb_prop in Hseen as [? _]).
  set (x := (va + j) / PGSIZE) in *. set (off := (va + j) mod PGSIZE). assert (va + j = PGSIZE * x + off) as Ex by (apply Z.div_mod; done). assert (0 <= off < PGSIZE) as Hoff by (apply Z.mod_pos_bound; done). rewrite PGROUNDDOWN_spec. fold off. replace (va + j - off) with (PGSIZE * x) by lia.
  assert (0 <= x < 2 ^ 20) as Hx by (unfold KERNBASE, PGSIZE in *; lia). assert (vm_at pd (Kheap (hp s0) m) l f) as Hat by (apply (written_at j m (hp s0)); [done|done| |done|lia]; destruct s0; apply Hsp0).
  unfold mbind at 1, M_bind at 1. rewrite (uva2ka_run _ x Hat Hx). cbn [hm]. rewrite (written_tab j m (x / 1024) Hw Hpre ltac:(lia) ltac:(by apply tab_bound)). destruct (seen f x) eqn:Es.
  2: { exists j, m. split_and!; try done; try lia. right. fold x. split; [lia|]. split; [done|]. by destruct (tab (hm s0) pd (x / 1024)). }
  assert (present (f x) = true) as Hpx by (unfold seen in Es; by apply andb_prop in Es as [? _]). destruct (tab (hm s0) pd (x / 1024)) as [t|] eqn:Et.
  2: { exfalso. assert (f x = 0) as E0 by (apply (tab_none pd s0 l f (x / 1024) (sp_at _ _ _ _ Hsp0)); [by apply tab_bound|done|Z.div_mod_to_equations; lia]). by rewrite E0 in Hpx. }
  set (v := P2V (PTE_ADDR (f x))). assert (upage f x = Some v) as Hu by (unfold upage; by rewrite Hpx). assert (valid v) as Hv. { apply (space_in pd s0 l f v Hsp0). apply elem_of_pages. exists x. split; [unfold UPAGES, KERNBASE, PGSIZE in *; lia|done]. }
  assert (KERNBASE <= v < KERNBASE + PHYSTOP) as Hvr by apply Hv. rewrite (proj2 (Z.eqb_neq v 0)) by (unfold KERNBASE in *; lia). rewrite (u32_id (va + j - PGSIZE * x)) by (unfold is_u32, PGSIZE in *; lia). replace (va + j - PGSIZE * x) with off by lia.
  rewrite (u32_id (PGSIZE - off)), (u32_id (v + off)), (u32_id (PGSIZE * x + PGSIZE)) by (unfold is_u32, KERNBASE, PHYSTOP, PGSIZE in *; lia). set (n := if len - j <? PGSIZE - off then len - j else PGSIZE - off).
  assert (0 < n <= len - j /\ n <= PGSIZE - off /\ (n = len - j \/ n = PGSIZE - off)) as Hn by (unfold n; destruct (Z.ltb_spec (len - j) (PGSIZE - off)); lia). rewrite on_mem_bind. cbn [hp hm].
  rewrite (u32_id (p + j + n)), (u32_id (len - j - n)) by (unfold is_u32, KERNBASE, PGSIZE in *; lia). destruct (written_step j m n v Hw Hwf ltac:(lia) ltac:(lia) ltac:(lia) ltac:(fold off; lia) Hpre Hu) as (Hw' & Hwf' & _).
  replace (p + j + n) with (p + (j + n)) by lia. replace (len - j - n) with (len - (j + n)) by lia. apply IH; [done|done|lia| |intros H; unfold PGSIZE in *; lia| |].
  - intros k Hk. destruct (Z.lt_ge_cases k j); [apply Hseen; lia|]. replace ((va + k) / PGSIZE) with x; [done|]. unfold PGSIZE in *. Z.div_mod_to_equations. lia.
  - intros H. replace (va + (j + n)) with (PGSIZE * (x + 1)) by (unfold PGSIZE in *; lia). rewrite page_number. lia.
  - enough (up (va + len) - x >= 1) by lia. unfold up, PGSIZE in *. Z.div_mod_to_equations. lia.
Qed.
End copyout.

(** C23: [copyout] writes the bytes, in order, where the user sees them, and nothing else.  It returns 0 once all are written; at the
    first page that the user may not see it returns -1, with the bytes before that page written; and where there is not even a page
    table it reads through a null pointer. *)
Theorem copyout_writes pd s l f va p len : space pd s l f -> 0 <= va /\ 0 <= len /\ va + len <= KERNBASE ->
  0 <= p /\ p + len < 2 ^ 32 /\ (forall a, p <= a < p + len -> ~ in_pages a (upages f)) -> copyout_outcome pd s f va p len (copyout pd va p len s).
Proof.
  intros Hsp Hva Hsrc. unfold copyout. assert (written s f va p 0 (hm s)) as Hw by (split; [lia|done]).
  pose proof (copyout_loop_run pd s l f va p len Hsp Hva Hsrc (S (S (Z.to_nat (len / PGSIZE + 1)))) 0 (hm s) va Hw) as H. rewrite !Z.add_0_r, Z.sub_0_r in H. destruct s as [k m]. apply H; [apply (va_k _ _ _ _ (sp_at _ _ _ _ Hsp))|lia|lia|lia| |lia].
  intros _. rewrite !Nat2Z.inj_succ, Z2Nat.id by (unfold PGSIZE; Z.div_mod_to_equations; lia). unfold up, PGSIZE in *. Z.div_mod_to_equations. lia.
Qed.

(** C22: [deallocuvm] gives back exactly the pages mapped between the two sizes, takes them out of the page table and leaves every other
    entry; [freevm] gives back all pages of an address space, those of its tables included.  Neither panics or frees a page that is not
    the address space's own, and nothing outside of the pages of the address space is written to. *)
Theorem memory_given_back pd s l f oldsz newsz : space pd s l f -> 0 <= newsz -> oldsz <= KERNBASE ->
  (exists s' l', deallocuvm end_ pd oldsz newsz s = inr (if oldsz <=? newsz then oldsz else newsz, s') /\ if oldsz <=? newsz then s' = s else gave_back pd f (up newsz) (up oldsz) s l s' l') /\
  exists s' l', freevm end_ pd s = inr (tt, s') /\ kinv end_ s' l' /\ Permutation l' (upages f ++ tables (hm s) pd ++ l) /\ same_out (upages f ++ tables (hm s) pd) (hm s) (hm s').
Proof.
  intros Hsp Hn Ho. split.
  - destruct (Z.leb_spec oldsz newsz) as [Hle|Hlt]; [|by apply deallocuvm_run; [|lia|]]. exists s, l. unfold deallocuvm. by rewrite (proj2 (Z.leb_le oldsz newsz)) by lia.
  - destruct (freevm_run pd s l f Hsp) as (s' & l' & E & H1 & H2 & H3 & _). eauto 10.
Qed.

(** ** The kernel's part of a page table *)

(** A fresh directory. *)
Lemma new_directory s v l k : kinv end_ s (v :: l) -> kinv end_ (Kheap k (hm s)) l ->
  let s' := Kheap k (memset (hm s) v 0 PGSIZE) in vm_at v s' l (fun _ => 0) /\ tables (hm s') v = [v] /\ same_out [v] (hm s) (hm s').
Proof.
  intros Hk Hk' s'. pose proof (kinv_valid _ _ Hk) as [Hv _]%Forall_cons. pose proof Hk as (_ & [Hvl Hnd]%NoDup_cons & _). assert (forall d, 0 <= d < 1024 -> tab (hm s') v d = None) as Et.
  { intros d Hd. unfold tab, s'. cbn [hm]. rewrite zero_page by done. by rewrite decide_True. }
  assert (tables (hm s') v = [v]) as Etab.
  { unfold tables. f_equal. assert (forall i n, 0 <= i -> i + Z.of_nat n <= 1024 -> omap (tab (hm s') v) (seqZ i (Z.of_nat n)) = []) as Hg; [|exact (Hg 0 1024%nat ltac:(lia) ltac:(lia))].
    clear -Et. intros i n. revert i. induction n as [|n IH]; intros i Hi Hn; [done|]. rewrite seqZ_cons by lia. cbn [omap list_omap]. rewrite Et by lia. replace (Z.pred (Z.of_nat (S n))) with (Z.of_nat n) by lia. apply IH; lia. }
  split; [|split; [done|apply memset_out]]. split.
  - apply (kinv_write (Kheap k (hm s)) l _ [v]); [done|apply memset_wf; [done|apply Hk]|by apply Forall_singleton|apply memset_out|]. by intros w ->%list_elem_of_singleton.
  - rewrite Etab. by apply Forall_singleton.
  - rewrite Etab. by apply NoDup_cons.
  - intros n Hn. unfold pte. by rewrite Et by apply (tab_bound n Hn).
Qed.

Definition k_size (k : kmap) : Z := phys_end k -u phys_start k.
Definition map_one (f : Z -> Z) (k : kmap) : Z -> Z := mapped f (virt k / PGSIZE) (phys_start k) (k_perm k) (k_size k / PGSIZE).
(** The range is of whole pages of the kernel's part. *)
Definition kmap_good (k : kmap) : Prop :=
  virt k mod PGSIZE = 0 /\ k_size k mod PGSIZE = 0 /\ phys_start k mod PGSIZE = 0 /\ UPAGES <= virt k / PGSIZE /\ 0 < k_size k / PGSIZE /\ virt k / PGSIZE + k_size k / PGSIZE <= 2 ^ 20 /\
  0 <= phys_start k /\ phys_start k + k_size k <= 2 ^ 32 /\ 0 <= k_perm k < PGSIZE.
Fixpoint maps_good (f : Z -> Z) (ks : list kmap) : Prop :=
  match ks with
  | [] => True
  | k :: ks => kmap_good k /\ (forall x, virt k / PGSIZE <= x < virt k / PGSIZE + k_size k / PGSIZE -> present (f x) = false) /\ maps_good (map_one f k) ks
  end.

Lemma map_kernel_run pd ks : forall s l f, vm_at pd s l f -> maps_good f ks ->
  exists ok s' l' f', map_kernel ks pd s = inr (ok, s') /\ vm_at pd s' l' f' /\ grown pd s l s' l' /\ (forall x, 0 <= x < UPAGES -> f' x = f x) /\
    if ok : bool then f' = foldl map_one f ks else nomem s' l'.
Proof.
  induction ks as [|k ks IH]; intros s l f Hva Hg; [exists true, s, l, f; split_and!; (done || apply grown_refl)|]. destruct Hg as ((H1 & H2 & H3 & H4 & H5 & H6 & H7 & H8 & H9) & Hfree & Hg). cbn [map_kernel foldl]. fold (k_size k).
  assert (virt k = PGSIZE * (virt k / PGSIZE)) as Ev by (unfold PGSIZE in *; Z.div_mod_to_equations; lia). assert (k_size k = PGSIZE * (k_size k / PGSIZE)) as Es by (unfold PGSIZE in *; Z.div_mod_to_equations; lia).
  destruct (mappages_run pd (virt k / PGSIZE) (k_size k / PGSIZE) (phys_start k) (k_perm k) s l f Hva) as (r & j & s1 & l1 & E & Hva1 & G1 & H); try done; [unfold UPAGES in *; lia|lia|].
  rewrite <- Ev, <- Es in E. rewrite (bind_run _ _ _ _ _ E). destruct H as [[-> ->]|(-> & Hj & Hno)]; cbn [Z.ltb Z.compare].
  - destruct (IH s1 l1 (map_one f k) Hva1 Hg) as (ok & s' & l' & f' & E' & Hva' & G' & Hu & H'). exists ok, s', l', f'. split; [exact E'|]. split; [done|]. split; [by eapply grown_trans|]. split; [|done].
    intros x Hx. rewrite Hu by done. unfold map_one, mapped. by rewrite decide_False by lia.
  - exists false, s1, l1, (mapped f (virt k / PGSIZE) (phys_start k) (k_perm k) j). split; [done|]. split; [exact Hva1|]. split; [done|]. split; [|done]. intros x Hx. unfold mapped. by rewrite decide_False by lia.
Qed.

(** The linker puts [data] on a page boundary behind the text. *)
Context (data : Z).
Hypothesis Hdata : KERNLINK < data < KERNBASE + PHYSTOP /\ data mod PGSIZE = 0.
Definition kernel_map : Z -> Z := foldl map_one (fun _ => 0) (kmaps data).

Lemma kmaps_good : maps_good (fun _ => 0) (kmaps data).
Proof.
  destruct Hdata as [Hr Hm]. assert (V2P data = data - KERNBASE) as Ed by (unfold V2P; rewrite u32_id; unfold is_u32, KERNLINK, KERNBASE, EXTMEM, PHYSTOP in *; lia).
  assert (k_size (Kmap KERNLINK (V2P KERNLINK) (V2P data) 0) = data - KERNLINK) as E2.
  { unfold k_size. cbn [phys_end phys_start]. rewrite Ed. change (V2P KERNLINK) with EXTMEM. rewrite u32_id; unfold is_u32, KERNLINK, KERNBASE, EXTMEM, PHYSTOP in *; lia. }
  assert (k_size (Kmap data (V2P data) PHYSTOP PTE_W) = PHYSTOP + KERNBASE - data) as E3.
  { unfold k_size. cbn [phys_end phys_start]. rewrite Ed. rewrite u32_id; unfold is_u32, KERNLINK, KERNBASE, EXTMEM, PHYSTOP in *; lia. }
  cbn [kmaps maps_good]. unfold kmap_good. rewrite E2, E3. unfold map_one. rewrite E2, E3. cbn [virt phys_start k_perm]. rewrite Ed.
  change (V2P KERNLINK) with EXTMEM. change (k_size (Kmap KERNBASE 0 EXTMEM PTE_W)) with EXTMEM. change (k_size (Kmap DEVSPACE DEVSPACE 0 PTE_W)) with 0x2000000.
  unfold KERNLINK, KERNBASE, EXTMEM, PHYSTOP, DEVSPACE, UPAGES, PTE_W, PGSIZE in *. split_and!; try done; try (Z.div_mod_to_equations; lia).
  all: intros x Hx; unfold mapped; repeat case_decide; try done; exfalso; Z.div_mod_to_equations; lia.
Qed.

Lemma kernel_map_user x : 0 <= x < UPAGES -> kernel_map x = 0.
Proof.
  intros Hx. unfold kernel_map. assert (forall ks f, maps_good f ks -> foldl map_one f ks x = f x) as H; [|exact (H _ _ kmaps_good)].
  clear -Hx. induction ks as [|k ks IH]; [done|]. intros f ((_ & _ & _ & H4 & _) & _ & Hg). cbn [foldl]. rewrite IH by done. unfold map_one, mapped. by rewrite decide_False by lia.
Qed.

Lemma upages_none f : (forall x, 0 <= x < UPAGES -> f x = 0) -> upages f = [].
Proof. intros H. apply pages_none. intros x Hx. by rewrite H. Qed.

(** A directory with the kernel's part, made of free pages; or none, and the free pages are the same. *)
Definition set_up (r : Z) (s : kheap) (l : list Z) (s' : kheap) (l' : list Z) : Prop :=
  same_out l (hm s) (hm s') /\ page_protect (hp s') = page_protect (hp s) /\
  if r =? 0 then kinv end_ s' l' /\ Permutation l' l else space r s' l' kernel_map /\ Permutation (tables (hm s') r ++ l') l.

Lemma setupkvm_run s l : kinv end_ s l -> exists r s' l', setupkvm end_ data s = inr (r, s') /\ set_up r s l s' l'.
Proof.
  intros Hk. unfold setupkvm. destruct (kalloc_spec end_ s l Hk) as [[_ E]|(v & l1 & -> & _ & E & Hk1)]; rewrite (bind_run _ _ _ _ _ E); [by exists 0, s, l|].
  pose proof (kinv_valid _ _ Hk) as [Hv _]%Forall_cons. assert (v <> 0) as Hv0 by (destruct Hv as (_ & _ & ?); unfold KERNBASE in *; lia). rewrite (proj2 (Z.eqb_neq v 0)) by done. rewrite on_mem_bind.
  assert (DEVSPACE <? P2V PHYSTOP = false) as -> by (vm_compute; reflexivity). cbn [hp hm]. destruct (new_directory s v l1 _ Hk Hk1) as (Hva & Et & Ho). set (s1 := Kheap _ (memset _ _ _ _)) in *.
  destruct (map_kernel_run v (kmaps data) s1 l1 (fun _ => 0) Hva kmaps_good) as (ok & s2 & l2 & f2 & E2 & Hva2 & (Hp2 & Ho2 & Epr & _) & Hu & H). rewrite (bind_run _ _ _ _ _ E2). rewrite Et in Hp2, Ho2.
  assert (same_out (v :: l1) (hm s) (hm s2)) as Hout by (apply (same_out_trans _ _ (hm s1)); [eapply same_out_weaken; [exact Ho|]; intros x ->%list_elem_of_singleton; by left|exact Ho2]).
  assert (upages f2 = []) as Eu by (apply upages_none; intros x Hx; by rewrite Hu). assert (space v s2 l2 f2) as Hsp by (split; [done|by rewrite Eu|rewrite Eu; apply Hva2]). destruct ok.
  - exists v, s2, l2. split; [done|]. split; [done|]. split; [done|]. rewrite (proj2 (Z.eqb_neq v 0)) by done. split; [|exact Hp2]. by rewrite H in Hsp.
  - destruct (freevm_run v s2 l2 f2 Hsp) as (s' & l' & E' & Hk' & Hp' & Ho' & Ep'). rewrite (bind_run _ _ _ _ _ E'). exists 0, s', l'. split; [done|]. rewrite Eu in Hp', Ho'. cbn [app] in Hp', Ho'. split; [|split; [rewrite Ep'; exact Epr|]].
    + apply (same_out_trans _ _ (hm s2)); [done|]. eapply same_out_weaken; [exact Ho'|]. intros x Hx. change (x ∈ [v] ++ l1). rewrite <- Hp2. apply elem_of_app. by left.
    + cbn [Z.eqb]. split; [done|]. rewrite Hp'. exact Hp2.
Qed.

Lemma flags_present e : present e = true -> Z.lor (PTE_FLAGS e) PTE_P = PTE_FLAGS e.
Proof.
  rewrite present_odd, PTE_FLAGS_spec. intros H. apply Z.bits_inj'. intros n Hn. rewrite Z.lor_spec. destruct (decide (n = 0)) as [->|Hne].
  - rewrite orb_true_r. change PGSIZE with (2 ^ 12). rewrite Z.mod_pow2_bits_low by lia. by rewrite Z.bit0_odd.
  - assert (Z.testbit PTE_P n = false) as -> by (apply Z.bits_above_log2; [done|change (Z.log2 PTE_P) with 0; lia]). apply orb_false_r.
Qed.

Lemma entry_user pa perm : pa mod PGSIZE = 0 -> perm = 0 \/ perm = PTE_W -> user (entry pa perm) = false.
Proof.
  intros Ha Hp. unfold user, entry. rewrite <- Z.lor_assoc, Z.land_lor_distr_l, page_land by (done || by vm_compute). by destruct Hp as [-> | ->].
Qed.

Lemma kernel_map_direct x : KERNBASE / PGSIZE <= x < (KERNBASE + PHYSTOP) / PGSIZE ->
  present (kernel_map x) = true /\ PTE_ADDR (kernel_map x) = PGSIZE * (x - KERNBASE / PGSIZE) /\ user (kernel_map x) = false.
Proof.
  intros Hx. destruct Hdata as [Hr Hm]. assert (V2P data = data - KERNBASE) as Ed by (unfold V2P; rewrite u32_id; unfold is_u32, KERNLINK, KERNBASE, EXTMEM, PHYSTOP in *; lia).
  assert (exists perm, kernel_map x = entry (PGSIZE * (x - KERNBASE / PGSIZE)) perm /\ (perm = 0 \/ perm = PTE_W)) as (perm & -> & Hp).
  { unfold kernel_map. cbn [kmaps foldl]. unfold map_one, mapped, k_size. cbn [virt phys_start phys_end k_perm]. rewrite Ed. change (V2P KERNLINK) with EXTMEM. change (EXTMEM -u 0) with EXTMEM. change (0 -u DEVSPACE) with 0x2000000.
    rewrite (u32_id (data - KERNBASE - EXTMEM)), (u32_id (PHYSTOP - (data - KERNBASE))) by (unfold is_u32, KERNLINK, KERNBASE, EXTMEM, PHYSTOP in *; lia). unfold KERNLINK, KERNBASE, EXTMEM, PHYSTOP, DEVSPACE, PGSIZE in *.
    repeat case_decide; try (exfalso; Z.div_mod_to_equations; lia).
    all: eexists; split; [f_equal; Z.div_mod_to_equations; lia|auto]. }
  assert ((PGSIZE * (x - KERNBASE / PGSIZE)) mod PGSIZE = 0) as Ha by (rewrite Z.mul_comm; by apply Z.mod_mul). destruct (entry_spec (PGSIZE * (x - KERNBASE / PGSIZE)) perm Ha) as (_ & H1 & H2 & _).
  - unfold KERNBASE, PHYSTOP, PGSIZE in *. Z.div_mod_to_equations. lia.
  - destruct Hp as [-> | ->]; by vm_compute.
  - split; [done|]. split; [done|]. by apply entry_user.
Qed.

(** [setupkvm] never panics.  It gives a page directory, made of free pages, or it gives 0 and all pages it took are free again.  The
    directory maps nothing in the user's half; it maps all of physical memory at [KERNBASE], and the user sees none of it. *)
Lemma setupkvm_outcomes s l : kinv end_ s l -> exists r s' l', setupkvm end_ data s = inr (r, s') /\ set_up r s l s' l' /\
  (forall x, 0 <= x < UPAGES -> kernel_map x = 0) /\
  forall x, KERNBASE / PGSIZE <= x < (KERNBASE + PHYSTOP) / PGSIZE -> present (kernel_map x) = true /\ PTE_ADDR (kernel_map x) = PGSIZE * (x - KERNBASE / PGSIZE) /\ user (kernel_map x) = false.
Proof.
  intros Hk. destruct (setupkvm_run s l Hk) as (r & s' & l' & E & H). exists r, s', l'. split; [done|]. split; [done|]. split; [exact kernel_map_user|exact kernel_map_direct].
Qed.

(** ** Copies of an address space *)

(** The pages up to [x] of [g] hold what those of [f] hold in the memory [m0], with the same flags. *)
Definition copied (m0 : mem) (f : Z -> Z) (m : mem) (g : Z -> Z) (x : Z) : Prop :=
  forall y, 0 <= y < x -> present (g y) = true /\ PTE_FLAGS (g y) = PTE_FLAGS (f y) /\ forall o, 0 <= o < PGSIZE -> m (P2V (PTE_ADDR (g y)) + o) = m0 (P2V (PTE_ADDR (f y)) + o).

Section copy.
Context (pd : Z) (s0 : kheap) (L : list Z) (f : Z -> Z) (sz d : Z).
Hypothesis Hsp0 : space pd s0 L f.
Hypothesis Hsz : 0 <= sz <= KERNBASE.
Hypothesis Hpres : forall x, 0 <= x < up sz -> present (f x) = true.

(** [x] pages are copied to [d]. *)
Definition copying (x : Z) (s : kheap) (l : list Z) (g : Z -> Z) : Prop :=
  space d s l g /\ Permutation (upages g ++ tables (hm s) d ++ l) L /\ same_out L (hm s0) (hm s) /\ copied (hm s0) f (hm s) g x /\ forall y, x <= y < 2 ^ 20 -> g y = kernel_map y.

Lemma parent_kept m : same_out L (hm s0) m -> forall a, in_pages a (upages f ++ tables (hm s0) pd) -> m a = hm s0 a.
Proof.
  intros Ho a Ha. apply Ho. destruct Hsp0 as [Hva Hv Hnd]. eapply (apart_lists (upages f ++ tables (hm s0) pd)); [apply Forall_app; split; [done|apply Hva]|exact (kinv_valid _ _ (va_k _ _ _ _ Hva))| |done].
  rewrite app_assoc in Hnd. apply NoDup_app in Hnd as (_ & H & _). exact H.
Qed.

Lemma parent_at x s l g : copying x s l g -> vm_at pd s l f.
Proof.
  intros (Hsp & Hp & Ho & _). destruct Hsp0 as [Hva _ Hnd]. apply (vm_at_move pd s0 L f); [done|apply (va_k _ _ _ _ (sp_at _ _ _ _ Hsp))| |].
  - intros a Ha. apply parent_kept; [done|]. apply in_pages_app. by right.
  - intros v Hv Ht. assert (v ∈ L) as HvL by (rewrite <- Hp; rewrite !elem_of_app; auto). apply NoDup_app in Hnd as (_ & _ & Hnd). apply NoDup_app in Hnd as (_ & Hd & _). by apply (Hd v).
Qed.

(** What the parent has on page [x], as long as it is kept. *)
Lemma parent_page x m : 0 <= x < up sz -> same_out L (hm s0) m -> forall o, 0 <= o < PGSIZE -> m (P2V (PTE_ADDR (f x)) + o) = hm s0 (P2V (PTE_ADDR (f x)) + o).
Proof.
  intros Hx Ho o Hoo. apply parent_kept; [done|]. apply in_pages_app. left. exists (P2V (PTE_ADDR (f x))). split; [|lia]. apply elem_of_pages. exists x. split.
  - unfold up, PGSIZE, KERNBASE, UPAGES in *. Z.div_mod_to_equations. lia.
  - unfold upage. by rewrite (Hpres x Hx).
Qed.

Lemma copying_step x s v l g s' l' : copying x s (v :: l) g -> 0 <= x < up sz ->
  let m2 := memmove (hm s) v (P2V (PTE_ADDR (f x))) PGSIZE in
  page_added d x v (PTE_FLAGS (f x)) g s l m2 0 s' l' -> copying (x + 1) s' l' (mapped g x (V2P v) (PTE_FLAGS (f x)) 1).
Proof.
  intros (Hsp & Hp & Ho & Hc & Hk) Hx m2 (P1 & O1 & V1 & _ & H). destruct H as [[_ Hsp']|[H _]]; [|lia]. pose proof (sp_at _ _ _ _ Hsp) as Hva. pose proof (kinv_valid _ _ (va_k _ _ _ _ Hva)) as [Hv _]%Forall_cons.
  assert (0 <= x < UPAGES) as HxU by (unfold up, PGSIZE, KERNBASE, UPAGES in *; Z.div_mod_to_equations; lia). assert (g x = 0) as Hgx by (rewrite Hk by (unfold UPAGES in *; lia); by apply kernel_map_user).
  assert (0 <= PTE_FLAGS (f x) < PGSIZE) as Hfl by (rewrite PTE_FLAGS_spec; apply Z.mod_pos_bound; done). destruct (mapped_page g x v (PTE_FLAGS (f x)) Hv Hfl) as (E1 & E2 & E3).
  assert (Permutation (upages (mapped g x (V2P v) (PTE_FLAGS (f x)) 1)) (v :: upages g)) as Hup by (apply upages_add; [done|by rewrite Hgx|unfold upage; by rewrite E1, E2]).
  assert (same_out L (hm s) (hm s')) as HoL by (eapply same_out_weaken; [exact O1|]; intros w Hw; rewrite <- Hp; apply elem_of_app; by right).
  split_and!; [done| |by eapply same_out_trans| |].
  - rewrite Hup, P1. rewrite <- Hp. by rewrite <- !Permutation_middle.
  - intros y Hy. destruct (decide (y = x)) as [->|Hne].
    + rewrite E1, E2, E3. split; [done|]. split; [by apply flags_present, Hpres|]. intros o Hoo. rewrite V1 by lia. unfold m2. rewrite memmove_spec by (apply (va_k _ _ _ _ Hva) || done). unfold in_range.
      rewrite (proj2 (Z.leb_le v (v + o))), (proj2 (Z.ltb_lt (v + o) (v + PGSIZE))) by lia. cbn [andb]. replace (v + o - v + P2V (PTE_ADDR (f x))) with (P2V (PTE_ADDR (f x)) + o) by lia. by apply parent_page.
    + destruct (Hc y ltac:(lia)) as (F1 & F2 & F3). assert (mapped g x (V2P v) (PTE_FLAGS (f x)) 1 y = g y) as -> by (unfold mapped; by rewrite decide_False by lia). split; [done|]. split; [done|]. intros o Hoo. rewrite <- F3 by done.
      apply O1. assert (P2V (PTE_ADDR (g y)) ∈ upages g) as Hin by (apply elem_of_pages; exists y; split; [lia|unfold upage; by rewrite F1]). destruct (space_in d s (v :: l) g _ Hsp Hin) as (Hyv & Hyt & Hyl).
      apply (apart_out (P2V (PTE_ADDR (g y)))); [done|apply Forall_app; split; [apply Hva|exact (kinv_valid _ _ (va_k _ _ _ _ Hva))]|rewrite elem_of_app; tauto|lia].
  - intros y Hy. unfold mapped. rewrite decide_False by lia. apply Hk. lia.
Qed.

(** The copy is given up: the pages are in [d], free or, one of them, lost. *)
Definition given_up (s : kheap) (l : list Z) : Prop :=
  exists g, space d s l g /\ same_out L (hm s0) (hm s) /\ (Permutation (upages g ++ tables (hm s) d ++ l) L \/ exists v, Permutation (v :: upages g ++ tables (hm s) d ++ l) L).

Lemma copyuvm_loop_run fuel : forall x s l g, copying x s l g -> 0 <= x <= up sz -> up sz - x < Z.of_nat fuel -> (0 < fuel)%nat ->
  exists ok s' l', copyuvm_loop fuel pd d (PGSIZE * x) sz s = inr (ok, s') /\ page_protect (hp s') = page_protect (hp s) /\
    if ok : bool then exists g', copying (up sz) s' l' g' else given_up s' l'.
Proof.
  assert (forall n, PGSIZE * n < sz <-> n < up sz) as Hlt by (intros n; unfold up, PGSIZE; Z.div_mod_to_equations; lia). assert (up sz <= UPAGES) as HU by (unfold up, PGSIZE, KERNBASE, UPAGES in *; Z.div_mod_to_equations; lia).
  induction fuel as [|fuel IH]; intros x s l g Hcp Hx Hf Hf0; [lia|]. cbn [copyuvm_loop]. destruct (Z.ltb_spec (PGSIZE * x) sz) as [Hlo|Hge]; cbn [negb].
  2: { assert (x = up sz) as -> by (assert (~ x < up sz) by (intros H; apply Hlt in H; lia); lia). exists true, s, l. eauto. }
  apply Hlt in Hlo. assert (0 <= x < 2 ^ 20) as Hxr by (unfold UPAGES in *; lia). assert (is_u32 (PGSIZE * x)) as Hu by (unfold is_u32, PGSIZE, UPAGES in *; lia). pose proof (parent_at x s l g Hcp) as Hpa. pose proof (Hpres x ltac:(lia)) as Hpx.
  destruct (walk_run pd s l f (PGSIZE * x) x false Hpa Hu (page_number x)) as (r & s1 & l1 & E & _ & _ & [(-> & -> & -> & Ht & _)|(Hr & Hs & t & Ht & ->)]).
  { exfalso. assert (f x = 0) as E0 by (destruct (tab_bound x Hxr); apply (tab_none pd s l f (x / 1024) Hpa); [done|done|Z.div_mod_to_equations; lia]). by rewrite E0 in Hpx. }
  destruct (Hs eq_refl) as [-> ->]. rewrite (bind_run _ _ _ _ _ E), (proj2 (Z.eqb_neq _ 0)) by done. rewrite (bind_run _ _ _ _ _ (load_run _ s)), (pte_load pd s l f x t Hpa Hxr Ht), Hpx. cbn [negb].
  pose proof Hcp as (Hsp & Hp & Ho & Hc & Hk). pose proof (sp_at _ _ _ _ Hsp) as Hva. destruct (kalloc_spec end_ s l (va_k _ _ _ _ Hva)) as [[_ E2]|(v & l2 & -> & _ & E2 & Hk2)]; rewrite (bind_run _ _ _ _ _ E2).
  { exists false, s, l. split; [done|]. split; [done|]. exists g. auto. }
  pose proof (kinv_valid _ _ (va_k _ _ _ _ Hva)) as [Hv _]%Forall_cons. rewrite (proj2 (Z.eqb_neq v 0)) by (destruct Hv as (_ & _ & ?); unfold KERNBASE in *; lia). rewrite on_mem_bind. cbn [hp hm].
  assert (g x = 0) as Hgx by (rewrite Hk by lia; apply kernel_map_user; lia). assert (0 <= PTE_FLAGS (f x) < PGSIZE) as Hfl by (rewrite PTE_FLAGS_spec; apply Z.mod_pos_bound; done).
  assert (wf_mem (hm s)) as Hwf by apply (va_k _ _ _ _ Hva). destruct (add_page d s v l2 g x (PTE_FLAGS (f x)) _ (memmove (hm s) v (P2V (PTE_ADDR (f x))) PGSIZE) Hsp Hk2) as (r & s3 & l3 & E3 & Hadd & Epr); [by apply memmove_wf| |lia|by rewrite Hgx|done|].
  { intros a Ha. rewrite memmove_spec by done. unfold in_range. destruct (Z.leb_spec v a), (Z.ltb_spec a (v + PGSIZE)); try done. exfalso. apply Ha. exists v. split; [by left|lia]. }
  rewrite (bind_run _ _ _ _ _ E3). destruct (decide (r = 0)) as [->|Hr0].
  - cbn [Z.ltb Z.compare]. pose proof (copying_step x s v l2 g s3 l3 Hcp ltac:(lia) Hadd) as Hcp'. replace (PGSIZE * x +u PGSIZE) with (PGSIZE * (x + 1)) by (rewrite u32_id; unfold is_u32, PGSIZE, UPAGES in *; lia).
    destruct (IH (x + 1) s3 l3 _ Hcp') as (ok & s' & l' & E' & Ep' & H'); [lia|lia|lia|]. exists ok, s', l'. split; [exact E'|]. split; [by rewrite Ep', Epr|done].
  - destruct Hadd as (P1 & O1 & _ & _ & [[-> _]|(-> & Hsp3 & _)]); [done|]. cbn [Z.ltb Z.compare]. exists false, s3, l3. split; [done|]. split; [exact Epr|]. exists g. split; [done|]. split.
    + eapply same_out_trans; [exact Ho|]. eapply same_out_weaken; [exact O1|]. intros w Hw. rewrite <- Hp. apply elem_of_app. by right.
    + right. exists v. rewrite P1, <- Hp. by rewrite <- !Permutation_middle.
Qed.
End copy.

(** C20: [copyuvm] returns.  Either it gives a new address space, made of free pages only, whose pages below the size hold what those of
    the parent hold, with the same rights, and which has no other user memory; or it gives 0, and the pages it took are free again, but
    for one where a page could not be mapped, which is lost.  In both cases nothing outside of the pages that were free is written to,
    so the parent and every other address space stay as they are. *)
Theorem copyuvm_isolated pd s l f sz : space pd s l f -> 0 <= sz <= KERNBASE -> (forall x, 0 <= x < up sz -> present (f x) = true) ->
  exists d s' l', copyuvm end_ data pd sz s = inr (d, s') /\ same_out l (hm s) (hm s') /\
    if d =? 0 then kinv end_ s' l' /\ (Permutation l' l \/ exists v, Permutation (v :: l') l)
    else exists g, space d s' l' g /\ Permutation (upages g ++ tables (hm s') d ++ l') l /\ copied (hm s) f (hm s') g (up sz) /\ forall x, up sz <= x < 2 ^ 20 -> g x = kernel_map x.
Proof.
  intros Hsp Hsz Hpres. unfold copyuvm. destruct (setupkvm_run s l (va_k _ _ _ _ (sp_at _ _ _ _ Hsp))) as (d & s1 & l1 & E1 & Ho1 & _ & H1). rewrite (bind_run _ _ _ _ _ E1). destruct (Z.eqb_spec d 0) as [->|Hd0].
  { exists 0, s1, l1. destruct H1 as [Hk Hp]. split_and!; [done|done|]. cbn [Z.eqb]. auto. }
  destruct H1 as [Hspd Hp1]. assert (upages kernel_map = []) as Eu by (apply upages_none; exact kernel_map_user). assert (copying s l f d 0 s1 l1 kernel_map) as Hcp.
  { split; [done|]. split; [by rewrite Eu|]. split; [done|]. split; [intros y Hy; lia|done]. }
  destruct (copyuvm_loop_run pd s l f sz d Hsp Hsz Hpres (S (Z.to_nat (sz / PGSIZE + 1))) 0 s1 l1 kernel_map Hcp) as (ok & s2 & l2 & E2 & _ & H2); [split; [lia|apply Z.div_pos; unfold PGSIZE; lia]| |lia|].
  { rewrite Nat2Z.inj_succ, Z2Nat.id by (unfold PGSIZE; Z.div_mod_to_equations; lia). unfold up, PGSIZE. Z.div_mod_to_equations. lia. }
  rewrite Z.mul_0_r in E2. rewrite (bind_run _ _ _ _ _ E2). destruct ok.
  - destruct H2 as (g & Hsp2 & Hp2 & Ho2 & Hc2 & Hk2). exists d, s2, l2. split; [done|]. split; [done|]. rewrite (proj2 (Z.eqb_neq d 0)) by done. exists g. auto.
  - destruct H2 as (g & Hsp2 & Ho2 & Hp2). destruct (freevm_run d s2 l2 g Hsp2) as (s3 & l3 & E3 & Hk3 & Hp3 & Ho3 & _). rewrite (bind_run _ _ _ _ _ E3). exists 0, s3, l3. split; [done|]. split.
    + eapply same_out_trans; [exact Ho2|]. eapply same_out_weaken; [exact Ho3|]. intros w Hw. rewrite elem_of_app in Hw. destruct Hp2 as [Hp2|[v Hp2]]; rewrite <- Hp2; rewrite ?elem_of_cons, !elem_of_app; tauto.
    + cbn [Z.eqb]. split; [done|]. destruct Hp2 as [Hp2|[v Hp2]]; [left; by rewrite Hp3|right; exists v; by rewrite Hp3].
Qed.

End space.

(** ** An address space of one page on a machine with six pages *)

Module VmDemo.
Definition end0 : Z := 0x80400000.
Definition data0 : Z := 0x80200000.
Definition pg (i : Z) : Z := end0 + PGSIZE * i.
Definition next {A} (m : M kheap A) (s : kheap) : kheap := match m s with inr (_, s') => s' | inl _ => s end.
Definition empty_heap : kheap := Kheap (Kmem false 0 0 0) (fun _ => 0).
Definition six : kheap := foldl (fun s i => next (kfree end0 (pg i)) s) empty_heap [0; 1; 2; 3; 4; 5].
Definition six_list : list Z := [pg 5; pg 4; pg 3; pg 2; pg 1; pg 0].

Lemma pg_valid i : 0 <= i < 6 -> valid_page end0 (pg i).
Proof. intros Hi. unfold valid_page, pg, end0, KERNBASE, PHYSTOP, PGSIZE. split; [Z.div_mod_to_equations; lia|lia]. Qed.

Lemma freed s l i : kinv end0 s l -> 0 <= i < 6 -> pg i ∉ l -> kinv end0 (next (kfree end0 (pg i)) s) (pg i :: l).
Proof. intros Hk Hi Hl. destruct (kfree_spec end0 s l (pg i) Hk (pg_valid i Hi) Hl) as (m & E & _ & Hk'). unfold next. by rewrite E. Qed.

Lemma pg_not i l : Forall (fun v => v <> pg i) l -> pg i ∉ l.
Proof. rewrite Forall_forall. intros H Hi. by apply (H _ Hi). Qed.

Lemma six_kinv : kinv end0 six six_list.
Proof.
  unfold six. cbn [foldl]. repeat (apply freed; [|lia|apply pg_not; unfold pg, end0, PGSIZE; repeat (constructor; [lia|]); constructor]).
  split; [constructor|]. split; [constructor|]. split; [done|]. intros a. by vm_compute.
Qed.

Lemma taken s v l : kinv end0 s (v :: l) -> page_protect (hp s) < page_cnt (hp s) -> exists k, kalloc s = inr (v, Kheap k (hm s)) /\ kinv end0 (Kheap k (hm s)) l /\ page_protect k = page_protect (hp s).
Proof. intros Hk Hp. destruct (kalloc_spec end0 s (v :: l) Hk) as [[[?|?] _]|(w & l' & [= <- <-] & _ & E & Hk')]; [lia|done|]. eauto. Qed.

(** The directory is page 5, its first table page 3, and page 4 is mapped at address 0. *)
Definition dir : kheap := next (v ← kalloc; on_mem (fun m => memset m v 0 PGSIZE)) six.
Definition one : kheap := next (v ← kalloc; on_mem (fun m => memset m v 0 PGSIZE) ;; mappages (pg 5) 0 PGSIZE (V2P v) (Z.lor PTE_W PTE_U)) dir.
Definition one_f : Z -> Z := mapped (fun _ => 0) 0 (V2P (pg 4)) (Z.lor PTE_W PTE_U) 1.

Lemma dir_space : space end0 (pg 5) dir [pg 4; pg 3; pg 2; pg 1; pg 0] (fun _ => 0).
Proof.
  destruct (taken six (pg 5) _ six_kinv ltac:(vm_compute; reflexivity)) as (k & E & Hk & _). unfold dir, next. rewrite (bind_run _ _ _ _ _ E). cbn.
  destruct (new_directory end0 six (pg 5) _ k six_kinv Hk) as (Hva & Et & _). split; [exact Hva| |]; rewrite upages_none by done; [constructor|]. apply (va_nodup _ _ _ _ _ Hva).
Qed.

Lemma end0_ok : KERNLINK <= end0.
Proof. by vm_compute. Qed.
Lemma data0_ok : KERNLINK < data0 < KERNBASE + PHYSTOP /\ data0 mod PGSIZE = 0.
Proof. by vm_compute. Qed.

Lemma one_space : exists l, space end0 (pg 5) one l one_f.
Proof.
  pose proof dir_space as Hsp. destruct (taken dir (pg 4) _ (va_k _ _ _ _ _ (sp_at _ _ _ _ _ Hsp)) ltac:(vm_compute; reflexivity)) as (k & E & Hk & _). assert (wf_mem (hm dir)) as Hwf by apply (va_k _ _ _ _ _ (sp_at _ _ _ _ _ Hsp)).
  destruct (add_page end0 (pg 5) dir (pg 4) _ (fun _ => 0) 0 (Z.lor PTE_W PTE_U) k (memset (hm dir) (pg 4) 0 PGSIZE) Hsp Hk) as (r & s' & l' & E' & (_ & _ & _ & _ & H) & _); [by apply memset_wf|apply memset_out|by vm_compute|done|by vm_compute|].
  assert (one = s') as ->. { unfold one, next. rewrite (bind_run _ _ _ _ _ E). rewrite on_mem_bind. cbn [hp hm]. rewrite Z.mul_0_r in E'. by rewrite E'. }
  assert (r = 0) as ->; [|destruct H as [[_ H]|[H _]]; [by exists l'|done]].
  assert (match (v ← kalloc; on_mem (fun m => memset m v 0 PGSIZE) ;; mappages (pg 5) 0 PGSIZE (V2P v) (Z.lor PTE_W PTE_U)) dir with inr (x, _) => x | inl _ => -2 end = 0) as H0 by (vm_compute; reflexivity).
  rewrite (bind_run _ _ _ _ _ E), on_mem_bind in H0. cbn [hp hm] in H0. rewrite Z.mul_0_r in E'. rewrite E' in H0. exact H0.
Qed.

Lemma one_present x : 0 <= x < up 100 -> present (one_f x) = true.
Proof. intros Hx. change (up 100) with 1 in Hx. replace x with 0 by lia. vm_compute. reflexivity. Qed.

Lemma copyuvm_isolated_witness : exists l d s' l', copyuvm end0 data0 (pg 5) 100 one = inr (d, s') /\ same_out l (hm one) (hm s') /\
  if d =? 0 then kinv end0 s' l' /\ (Permutation l' l \/ exists v, Permutation (v :: l') l)
  else exists g, space end0 d s' l' g /\ Permutation (upages g ++ tables (hm s') d ++ l') l /\ copied (hm one) one_f (hm s') g (up 100) /\ forall x, up 100 <= x < 2 ^ 20 -> g x = kernel_map data0 x.
Proof.
  destruct one_space as (l & Hsp). exists l. apply (copyuvm_isolated end0 end0_ok data0 data0_ok (pg 5) one l one_f 100 Hsp); [by vm_compute|exact one_present].
Defined.

Lemma copyout_writes_witness : copyout_outcome (pg 5) one one_f 10 0x80100000 20 (copyout (pg 5) 10 0x80100000 20 one).
Proof.
  destruct one_space as (l & Hsp). apply (copyout_writes end0 (pg 5) one l one_f 10 0x80100000 20 Hsp); [by vm_compute|]. split; [lia|]. split; [lia|]. intros a Ha (v & Hv & Hva).
  pose proof (sp_valid _ _ _ _ _ Hsp) as Hval. rewrite Forall_forall in Hval. destruct (Hval v Hv) as (_ & He & _). unfold end0 in He. lia.
Defined.

Lemma memory_given_back_witness : exists l s' l', freevm end0 (pg 5) one = inr (tt, s') /\ kinv end0 s' l' /\ Permutation l' (upages one_f ++ tables (hm one) (pg 5) ++ l).
Proof.
  destruct one_space as (l & Hsp). destruct (memory_given_back end0 end0_ok (pg 5) one l one_f 4096 0 Hsp ltac:(lia) ltac:(by vm_compute)) as (_ & s' & l' & H1 & H2 & H3 & _). exists l, s', l'. split; [exact H1|]. split; [exact H2|exact H3].
Defined.

Lemma setupkvm_outcomes_witness : exists r s' l', setupkvm end0 data0 six = inr (r, s') /\ set_up end0 data0 r six six_list s' l'.
Proof.
  destruct (setupkvm_outcomes end0 end0_ok data0 data0_ok six six_list six_kinv) as (r & s' & l' & H1 & H2 & _). exists r, s', l'. split; [exact H1|exact H2].
Defined.

(** A group with one protected page. *)
Definition plain_group : cgroup :=
  Cgroup [] 1 [] 0 None (Controllers true true true true true true true true) false 64 64 1 0 0 64 0 0 (MemAcct 0 0 0 0 0 0 KERNBASE 0 1) (CpuAcct 0 0 0 0 0 0 0 0 0 0) 0 [].
Definition groups : cgs := Cgs [plain_group; plain_group] false [] (with_protect 1 one).

Lemma allocuvm_outcomes_witness : exists l r g', allocuvm end0 (pg 5) 4096 8192 1 groups = inr (r, g') /\
  ((exists h l' f', r = 8192 /\ g' = upd_cg 1 (fun c => with_mem_ (with_current_page (current_page (mem_ c) +u 1) (mem_ c)) c) (gst groups 1 plain_group 1 h) /\
      page_protect (hp h) = 0 /\ grown_to end0 (pg 5) (kh groups) l one_f 1 [] 2 h l' f') \/
   exists h l', r = 0 /\ g' = gst groups 1 plain_group 0 h /\ ran_out end0 (pg 5) (kh groups) l one_f 1 2 /\ restored end0 (pg 5) (kh groups) l one_f 1 2 [] h l').
Proof.
  destruct one_space as (l & Hsp). exists l. destruct (allocuvm_outcomes end0 end0_ok (pg 5) groups 1 plain_group l one_f 4096 8192 (space_protect _ _ _ _ _ 1 Hsp) eq_refl ltac:(lia)) as (r & g' & E & H).
  - intros y Hy. change (up 4096) with 1 in Hy. unfold one_f, mapped. by rewrite decide_False by lia.
  - vm_compute. split; intros H; discriminate H.
  - by vm_compute.
  - exists r, g'. split; [exact E|]. destruct H as [(h & l' & f' & H1 & H2 & H3 & H4)|(h & l' & H1 & H2 & H3 & H4 & _)]; [left; exists h, l', f'|right; exists h, l']; (split; [exact H1|]; split; [exact H2|]; split; [exact H3|exact H4]).
Defined.
End VmDemo.
