(* ===== verification/ObjDisk.v ===== *)
(** * The object store: kernel/device/obj_disk.c

    The storage of the device is an array of bytes: the super block, the table
    of objects, which ends at [store_offset], and the objects behind it.  The
    model keeps all three in one memory of Kstring.v, indexed from the start of
    [memory_storage], and a table entry is read and written at its place in
    that memory.  An access to the storage outside of the array is a fault.
    [device->sb] is the record [sb]; the bytes of [vfs_sb], which this module
    only copies, are a list.  The vector of buffers is the list of the buffers
    its pointers name.  [disklock] is free unless an operation holds it.  The
    array of entry numbers [find_empty_space] keeps on its stack is not
    initialised by the code: its first contents are the parameter [uninit].

    An object that is deleted keeps its bytes, so what the theorems follow is
    the set of pairs of a name and contents that the table describes. *)

From S2P Require Import Prelude Kstring BufCache.

Module Store.

Definition STORAGE_DEVICE_SIZE : Z := 327680.
Definition INITIAL_OBJECT_TABLE_SIZE : Z := 200.
Definition MAX_OBJECT_NAME_LENGTH : Z := 20.
Definition OBJECT_ID_LENGTH : Z := MAX_OBJECT_NAME_LENGTH.
Definition OBJ_ROOTINO : Z := 3.

Definition NO_ERR : Z := 0.
Definition OBJECT_EXISTS : Z := 1.
Definition OBJECT_NOT_EXISTS : Z := 2.
Definition OBJECT_NAME_TOO_LONG : Z := 3.
Definition OBJECTS_TABLE_FULL : Z := 4.
Definition NO_DISK_SPACE_FOUND : Z := 5.
Definition BUFFER_TOO_SMALL : Z := 6.

(** The sizes of the structures on the target: [struct vfs_superblock] has an
    [int], a spin lock of 13 words and three pointers. *)
Definition sizeof_vfs_superblock : Z := 68.
Definition sizeof_objsuperblock : Z := 24 + sizeof_vfs_superblock.
Definition sizeof_entry : Z := OBJECT_ID_LENGTH + 12.

Record objsuperblock := Objsuperblock {
  storage_device_size : Z;
  objects_table_offset : Z;
  last_inode : Z;
  bytes_occupied : Z;
  occupied_objects : Z;
  vfs_sb : list Z;
  store_offset : Z
}.

Record obj_device := ObjDevice {
  disklock : bool;
  storage_holder : nat;
  memory_storage : mem;
  sb : objsuperblock
}.

Definition set_mem (m : mem) (d : obj_device) : obj_device := ObjDevice (disklock d) (storage_holder d) m (sb d).
Definition set_sb (b : objsuperblock) (d : obj_device) : obj_device :=
  ObjDevice (disklock d) (storage_holder d) (memory_storage d) b.
Definition set_lock (l : bool) (d : obj_device) : obj_device :=
  ObjDevice l (storage_holder d) (memory_storage d) (sb d).
Definition set_last_inode (v : Z) (d : obj_device) : obj_device :=
  let b := sb d in
  set_sb (Objsuperblock (storage_device_size b) (objects_table_offset b) v (bytes_occupied b) (occupied_objects b)
            (vfs_sb b) (store_offset b)) d.
Definition set_bytes (v : Z) (d : obj_device) : obj_device :=
  let b := sb d in
  set_sb (Objsuperblock (storage_device_size b) (objects_table_offset b) (last_inode b) v (occupied_objects b)
            (vfs_sb b) (store_offset b)) d.
Definition set_objects (v : Z) (d : obj_device) : obj_device :=
  let b := sb d in
  set_sb (Objsuperblock (storage_device_size b) (objects_table_offset b) (last_inode b) (bytes_occupied b) v
            (vfs_sb b) (store_offset b)) d.
Definition set_store (v : Z) (d : obj_device) : obj_device :=
  let b := sb d in
  set_sb (Objsuperblock (storage_device_size b) (objects_table_offset b) (last_inode b) (bytes_occupied b)
            (occupied_objects b) (vfs_sb b) v) d.

(** ** The storage *)

(** The bytes [l] stored at [a] on. *)
Definition blit (m : mem) (a : Z) (l : list Z) : mem :=
  fun x => if in_range x a (Z.of_nat (length l)) then l !!! Z.to_nat (x - a) else m x.
Definition bytes (m : mem) (a n : Z) : list Z := (fun k => m (a + k)) <$> seqZ 0 n.

Definition in_storage (a n : Z) : bool := (0 <=? a) && (a + n <=? STORAGE_DEVICE_SIZE).
Definition store_bytes (a : Z) (l : list Z) : M obj_device unit :=
  if in_storage a (Z.of_nat (length l)) then modS (fun d => set_mem (blit (memory_storage d) a l) d) else fault.
Definition store_word (a v : Z) : M obj_device unit :=
  if in_storage a 4 then modS (fun d => set_mem (st32 (memory_storage d) a v) d) else fault.

Definition le32 (v : Z) : list Z := [u8 v; u8 (v / 2 ^ 8); u8 (v / 2 ^ 16); u8 (v / 2 ^ 24)].
Definition sb_bytes (b : objsuperblock) : list Z :=
  le32 (storage_device_size b) ++ le32 (objects_table_offset b) ++ le32 (last_inode b) ++ le32 (bytes_occupied b)
  ++ le32 (occupied_objects b) ++ vfs_sb b ++ le32 (store_offset b).
Definition write_super_block : M obj_device unit := d ← getS; store_bytes 0 (sb_bytes (sb d)).

(** ** The table of objects *)

Definition entry_index_to_entry_offset (d : obj_device) (index : Z) : Z :=
  s32 (u32 (objects_table_offset (sb d) + index * sizeof_entry)).
Definition get_object_table_size (d : obj_device) : Z :=
  (store_offset (sb d) -u objects_table_offset (sb d)) / sizeof_entry.

(** The place of an entry and of its fields in the storage. *)
Definition get_objects_table_entry (d : obj_device) (entry_index : Z) : Z := entry_index_to_entry_offset d entry_index.
Definition disk_offset_at (entry : Z) : Z := entry + OBJECT_ID_LENGTH.
Definition size_at (entry : Z) : Z := entry + OBJECT_ID_LENGTH + 4.
Definition occupied_at (entry : Z) : Z := entry + OBJECT_ID_LENGTH + 8.

Definition disk_offset (d : obj_device) (i : Z) : Z := ld32 (memory_storage d) (disk_offset_at (get_objects_table_entry d i)).
Definition entry_size (d : obj_device) (i : Z) : Z := ld32 (memory_storage d) (size_at (get_objects_table_entry d i)).
Definition occupied (d : obj_device) (i : Z) : bool :=
  negb (ld32 (memory_storage d) (occupied_at (get_objects_table_entry d i)) =? 0).

(** [p] points to an id in the storage, [q] to a string. *)
Fixpoint obj_id_cmp_loop (n : nat) (m : mem) (p : Z) (q : list Z) : Z :=
  match n with
  | S n => if negb (m p =? 0) && (m p =? hd 0 q) then obj_id_cmp_loop n m (p + 1) (tl q) else s8 (m p) - s8 (hd 0 q)
  | O => s8 (m p) - s8 (hd 0 q)
  end.
Definition obj_id_cmp (m : mem) (p : Z) (q : list Z) : Z := obj_id_cmp_loop (Z.to_nat OBJECT_ID_LENGTH) m p q.

Definition slen (s : list Z) : Z := Z.of_nat (length s).
Definition obj_id_bytes (object_id : list Z) : Z :=
  let bytes := slen object_id in if bytes <? MAX_OBJECT_NAME_LENGTH then bytes + 1 else bytes.

(** The first index of [n] from [i] on that passes a test. *)
Fixpoint first_from (P : Z -> bool) (n : nat) (i : Z) : option Z :=
  match n with
  | O => None
  | S n => if P i then Some i else first_from P n (i + 1)
  end.

Definition entry_matches (d : obj_device) (name : list Z) (i : Z) : bool :=
  occupied d i && (obj_id_cmp (memory_storage d) (get_objects_table_entry d i) name =? 0).

(** The index, or [OBJECT_NOT_EXISTS]. *)
Definition get_objects_table_index (d : obj_device) (name : list Z) : option Z :=
  first_from (entry_matches d name) (Z.to_nat (get_object_table_size d)) 0.

(** ** Room for an object *)

Definition set_at (arr : Z -> Z) (k v : Z) : Z -> Z := fun x => if x =? k then v else arr x.
Definition swap (arr : Z -> Z) (x y : Z) : Z -> Z := set_at (set_at arr x (arr y)) y (arr x).

Section bubble_sort.
Context (d : obj_device).

Fixpoint bubble_sort_inner (n : nat) (j : Z) (arr : Z -> Z) : Z -> Z :=
  match n with
  | O => arr
  | S n => bubble_sort_inner n (j + 1)
             (if disk_offset d (arr (j + 1)) <? disk_offset d (arr j) then swap arr j (j + 1) else arr)
  end.
Fixpoint bubble_sort_outer (k : nat) (n i : Z) (arr : Z -> Z) : Z -> Z :=
  match k with
  | O => arr
  | S k => bubble_sort_outer k n (i + 1) (bubble_sort_inner (Z.to_nat (n - i - 1)) 0 arr)
  end.
Definition bubble_sort (arr : Z -> Z) (n : Z) : Z -> Z :=
  if 2 <=? n then bubble_sort_outer (Z.to_nat (n - 1)) n 0 arr else arr.

(** The occupied entries from [i] on, put into [arr] from [populated_size] on. *)
Fixpoint populate (entries_arr_size : Z) (n : nat) (i : Z) (arr : Z -> Z) (populated_size : Z)
  : M obj_device ((Z -> Z) * Z) :=
  match n with
  | O => mret (arr, populated_size)
  | S n =>
      if occupied d i then
        if negb (populated_size <? entries_arr_size) then fault
        else if entries_arr_size <? populated_size + 1 then panic "found too much entries vs expected"
        else populate entries_arr_size n (i + 1) (set_at arr populated_size i) (populated_size + 1)
      else populate entries_arr_size n (i + 1) arr populated_size
  end.

(** The room between two neighbours, from the last one down. *)
Fixpoint gap_search (arr : Z -> Z) (sz : Z) (i : nat) : option Z :=
  match i with
  | O => None
  | S i' =>
      let current_entry := arr (Z.of_nat i) in
      let prev_entry := arr (Z.of_nat i') in
      let space_left := (disk_offset d current_entry -u disk_offset d prev_entry) -u entry_size d prev_entry in
      if sz <=? space_left then Some (disk_offset d current_entry -u sz) else gap_search arr sz i'
  end.
End bubble_sort.

(** [min(x, y) / z] divides its third operand only, as the macro expands. *)
Definition current_table_size (d : obj_device) : Z :=
  let x := store_offset (sb d) -u objects_table_offset (sb d) in
  if STORAGE_DEVICE_SIZE <? x then STORAGE_DEVICE_SIZE else x / sizeof_entry.

Section find_empty_space.
Context (uninit : Z -> Z).

Definition array_get (arr : Z -> Z) (n k : Z) : M obj_device Z := if k <? n then mret (arr k) else fault.

(** The offset in the storage of the room, [None] for NULL. *)
Definition find_empty_space (sz : Z) : M obj_device (option Z) :=
  d ← getS;
  let entries_arr_size := current_table_size d -u 2 in
  r ← populate d entries_arr_size (Z.to_nat (get_object_table_size d - 2)) 2 uninit 0;
  let '(arr, populated_size) := r in
  if (populated_size =? 0) && (store_offset (sb d) <=? STORAGE_DEVICE_SIZE -u sz)
  then mret (Some (STORAGE_DEVICE_SIZE -u sz)) else
  last_occupied_entry ← array_get arr entries_arr_size (entries_arr_size -u 1);
  let arr := bubble_sort d arr populated_size in
  last_entry ← array_get arr entries_arr_size (populated_size -u 1);
  let space_left := (storage_device_size (sb d) -u disk_offset d last_entry) -u entry_size d last_entry in
  if sz <=? space_left then mret (Some (STORAGE_DEVICE_SIZE -u sz)) else
  match (if 2 <=? populated_size then gap_search d arr sz (Z.to_nat (populated_size - 1)) else None) with
  | Some a => mret (Some a)
  | None =>
      earliest ← array_get arr entries_arr_size 0;
      let room := disk_offset d earliest -u store_offset (sb d) in
      if sz <=? room then mret (Some (disk_offset d earliest -u sz)) else
      let needed_space := sz -u room in
      let offset_after_last_entry := u32 (entry_index_to_entry_offset d (last_occupied_entry +u 1)) in
      if offset_after_last_entry <? store_offset (sb d) -u needed_space then
        modS (set_store (store_offset (sb d) -u needed_space)) ;;
        mret (Some (store_offset (sb d) -u needed_space))
      else mret None
  end.

(** ** Operations *)

Definition acquiresleep_disk : M obj_device unit :=
  d ← getS; if disklock d then sleep_here else modS (set_lock true).
Definition releasesleep_disk : M obj_device unit := modS (set_lock false).

(** The buffers afterwards, and the data in the storage. *)
Fixpoint copy_bufs_loop (address : Z) (bufs : list buf) (sz copied_bytes : Z) : M obj_device (list buf) :=
  match bufs with
  | [] => mret []
  | b :: bufs =>
      let block_size := if sz -u copied_bytes <? BSIZE then sz -u copied_bytes else BSIZE in
      store_bytes (address + copied_bytes) (take (Z.to_nat block_size) (bdata b)) ;;
      bufs ← copy_bufs_loop address bufs sz (copied_bytes +u block_size);
      mret (set_flags (Z.land (flags b) (Z.lnot B_DIRTY)) b :: bufs)
  end.
Definition copy_bufs_vector_to_disk (address : Z) (bufs : list buf) (sz : Z) : M obj_device (list buf) :=
  if 0 <? sz then copy_bufs_loop address bufs sz 0 else mret bufs.

(** The entry [i], which may be the one just after the table's old end. *)
Definition find_space_and_populate_entry (i : Z) (name : list Z) (bufs : list buf) (sz : Z)
  : M obj_device (Z * list buf) :=
  d0 ← getS;
  let entry := get_objects_table_entry d0 i in
  address ← find_empty_space sz;
  match address with
  | None => mret (NO_DISK_SPACE_FOUND, bufs)
  | Some address =>
      store_bytes entry (take (Z.to_nat (obj_id_bytes name)) (name ++ [0])) ;;
      store_word (disk_offset_at entry) address ;;
      store_word (size_at entry) sz ;;
      bufs ← copy_bufs_vector_to_disk address bufs sz;
      store_word (occupied_at entry) 1 ;;
      modS (fun d => set_bytes (bytes_occupied (sb d) +u sz) d) ;;
      modS (fun d => set_objects (occupied_objects (sb d) +u 1) d) ;;
      write_super_block ;;
      mret (NO_ERR, bufs)
  end.

Definition check_add_object_validity (d : obj_device) (sz : Z) (name : list Z) : Z :=
  if MAX_OBJECT_NAME_LENGTH <? slen name then OBJECT_NAME_TOO_LONG
  else if STORAGE_DEVICE_SIZE <? sz then NO_DISK_SPACE_FOUND
  else match first_from (entry_matches d name) (Z.to_nat (get_object_table_size d)) 0 with
       | Some _ => OBJECT_EXISTS
       | None => NO_ERR
       end.
Definition check_rewrite_object_validality (sz : Z) (name : list Z) : Z :=
  if MAX_OBJECT_NAME_LENGTH <? slen name then OBJECT_NAME_TOO_LONG
  else if STORAGE_DEVICE_SIZE <? sz then NO_DISK_SPACE_FOUND else NO_ERR.
Definition check_delete_object_validality (name : list Z) : Z :=
  if MAX_OBJECT_NAME_LENGTH <? slen name then OBJECT_NAME_TOO_LONG else NO_ERR.

(** The first free entry from [i] on, with the least offset of the entries looked at. *)
Fixpoint free_entry (d : obj_device) (n : nat) (i leftmost : Z) : option Z * Z :=
  match n with
  | O => (None, leftmost)
  | S n =>
      let leftmost := if disk_offset d i <? leftmost then disk_offset d i else leftmost in
      if occupied d i then free_entry d n (i + 1) leftmost else (Some i, leftmost)
  end.

Definition add_object (name : list Z) (bufs : list buf) (sz : Z) : M obj_device (Z * list buf) :=
  d ← getS;
  let err := check_add_object_validity d sz name in
  if negb (err =? NO_ERR) then mret (err, bufs) else
  acquiresleep_disk ;;
  let first := OBJ_ROOTINO - 1 in
  let '(slot, leftmost) := free_entry d (Z.to_nat (get_object_table_size d - first)) first STORAGE_DEVICE_SIZE in
  r ← match slot with
      | Some i => find_space_and_populate_entry i name bufs sz
      | None =>
          if sizeof_entry <=? leftmost -u store_offset (sb d) then
            modS (fun d => set_store (store_offset (sb d) +u sizeof_entry) d) ;;
            modS (fun d => set_bytes (bytes_occupied (sb d) +u sizeof_entry) d) ;;
            find_space_and_populate_entry (Z.max first (get_object_table_size d)) name bufs sz
          else mret (OBJECTS_TABLE_FULL, bufs)
      end;
  releasesleep_disk ;;
  mret r.

(** 3.B of [write_object]: a new place for an object that grew. *)
Definition relocate (entry objectsize : Z) : M obj_device (option Z) :=
  store_word (occupied_at entry) 0 ;;
  modS (fun d => set_objects (occupied_objects (sb d) -u 1) d) ;;
  obj_addr ← find_empty_space objectsize;
  store_word (occupied_at entry) 1 ;;
  modS (fun d => set_objects (occupied_objects (sb d) +u 1) d) ;;
  match obj_addr with
  | None => mret None
  | Some a =>
      store_word (size_at entry) objectsize ;;
      store_word (disk_offset_at entry) a ;;
      mret (Some a)
  end.

(** 4. of [write_object]: the contents. *)
Definition write_contents (obj_addr : option Z) (bufs : list buf) (objectsize : Z) : M obj_device (Z * list buf) :=
  match obj_addr with
  | None => releasesleep_disk ;; mret (NO_DISK_SPACE_FOUND, bufs)
  | Some obj_addr =>
      bufs ← copy_bufs_vector_to_disk obj_addr bufs objectsize;
      modS (fun d => set_bytes (bytes_occupied (sb d) +u objectsize) d) ;;
      write_super_block ;;
      releasesleep_disk ;;
      mret (NO_ERR, bufs)
  end.

Definition write_object (name : list Z) (bufs : list buf) (objectsize : Z) : M obj_device (Z * list buf) :=
  let err := check_rewrite_object_validality objectsize name in
  if negb (err =? NO_ERR) then mret (err, bufs) else
  acquiresleep_disk ;;
  d ← getS;
  match get_objects_table_index d name with
  | None => releasesleep_disk ;; mret (OBJECT_NOT_EXISTS, bufs)
  | Some i =>
      let entry := get_objects_table_entry d i in
      modS (set_bytes (bytes_occupied (sb d) -u entry_size d i)) ;;
      obj_addr ←
        (if objectsize <=? entry_size d i
         then store_word (size_at entry) objectsize ;; mret (Some (disk_offset d i))
         else relocate entry objectsize);
      write_contents obj_addr bufs objectsize
  end.
End find_empty_space.

(** The error, and the size for [NO_ERR]. *)
Definition object_size (name : list Z) : M obj_device (Z * Z) :=
  if MAX_OBJECT_NAME_LENGTH <? slen name then mret (OBJECT_NAME_TOO_LONG, 0) else
  acquiresleep_disk ;;
  d ← getS;
  releasesleep_disk ;;
  match get_objects_table_index d name with
  | None => mret (OBJECT_NOT_EXISTS, 0)
  | Some i => mret (NO_ERR, entry_size d i)
  end.

Definition load_bytes (a n : Z) : M obj_device (list Z) :=
  if in_storage a n then gets (fun d => bytes (memory_storage d) a n) else fault.

Fixpoint get_bufs_loop (obj_addr : Z) (bufs : list buf) (sz copied_bytes : Z) : M obj_device (list buf) :=
  match bufs with
  | [] => mret []
  | b :: bufs =>
      let block_size := if sz -u copied_bytes <? BSIZE then sz -u copied_bytes else BSIZE in
      l ← load_bytes (obj_addr + copied_bytes) block_size;
      let b := set_bdata (l ++ drop (length l) (bdata b)) b in
      bufs ← get_bufs_loop obj_addr bufs sz (copied_bytes +u block_size);
      mret (set_flags (Z.lor (flags b) B_VALID) b :: bufs)
  end.

Definition get_object (name : list Z) (bufs : list buf) : M obj_device (Z * list buf) :=
  if MAX_OBJECT_NAME_LENGTH <? slen name then mret (OBJECT_NAME_TOO_LONG, bufs) else
  acquiresleep_disk ;;
  d ← getS;
  match get_objects_table_index d name with
  | None => releasesleep_disk ;; mret (OBJECT_NOT_EXISTS, bufs)
  | Some i =>
      if Z.of_nat (length bufs) *u BSIZE <? entry_size d i
      then releasesleep_disk ;; mret (BUFFER_TOO_SMALL, bufs)
      else
        bufs ← get_bufs_loop (disk_offset d i) bufs (entry_size d i) 0;
        releasesleep_disk ;;
        mret (NO_ERR, bufs)
  end.

Definition delete_object (name : list Z) : M obj_device Z :=
  let err := check_delete_object_validality name in
  if negb (err =? NO_ERR) then mret err else
  acquiresleep_disk ;;
  d ← getS;
  match get_objects_table_index d name with
  | None => releasesleep_disk ;; mret OBJECT_NOT_EXISTS
  | Some i =>
      store_word (occupied_at (get_objects_table_entry d i)) 0 ;;
      modS (fun d => set_objects (occupied_objects (sb d) -u 1) d) ;;
      modS (set_bytes (bytes_occupied (sb d) -u entry_size d i) : obj_device -> obj_device) ;;
      write_super_block ;;
      releasesleep_disk ;;
      mret NO_ERR
  end.

(** ** Initialisation *)

Record memory_storage_holder := Holder { storage : mem; is_used : bool }.

Definition MAX_OBJ_DEVS_NUM : nat := 3.

(** Marks the entries of the table from [i] on as free. *)
Fixpoint clear_table (d : obj_device) (n : nat) (i : Z) : M obj_device unit :=
  match n with
  | O => mret tt
  | S n => store_word (occupied_at (get_objects_table_entry d i)) 0 ;; clear_table d n (i + 1)
  end.

Definition SUPER_BLOCK_ID : list Z := [1].
Definition OBJECT_TABLE_ID : list Z := [2].

Definition initialize_entry (i : Z) (name : list Z) (offset sz : Z) : M obj_device unit :=
  d ← getS;
  let entry := get_objects_table_entry d i in
  store_bytes entry (name ++ [0]) ;;
  store_word (disk_offset_at entry) offset ;;
  store_word (size_at entry) sz ;;
  store_word (occupied_at entry) 1.
Definition initialize_super_block_entry : M obj_device unit :=
  initialize_entry 0 SUPER_BLOCK_ID 0 sizeof_objsuperblock.
Definition initialize_objects_table_entry : M obj_device unit :=
  d ← getS;
  initialize_entry 1 OBJECT_TABLE_ID (objects_table_offset (sb d)) (INITIAL_OBJECT_TABLE_SIZE * sizeof_entry).

Definition initial_table : M obj_device unit :=
  d ← getS;
  clear_table d (Z.to_nat (get_object_table_size d)) 0 ;;
  write_super_block ;;
  initialize_super_block_entry ;;
  initialize_objects_table_entry.

(** [page] is what [kalloc] gives: the bytes that lie where [vfs_sb] will be. *)
Definition init_obj_device (page : option (list Z)) (holders : list memory_storage_holder)
  : stop + (obj_device * list memory_storage_holder) :=
  match page with
  | None => inl Fault
  | Some vfs =>
      match list_find (fun h => is_used h = false) holders with
      | None => inl (Panic "Assertion failed: device->storage_holder != NULL")
      | Some (h, x) =>
          let table := INITIAL_OBJECT_TABLE_SIZE * sizeof_entry in
          let b := Objsuperblock STORAGE_DEVICE_SIZE sizeof_objsuperblock 2 (sizeof_objsuperblock + table) 2 vfs
                     (sizeof_objsuperblock + table) in
          match initial_table (ObjDevice false h (storage x) b) with
          | inl e => inl e
          | inr (_, d) => inr (d, <[h := Holder (memory_storage d) true]> holders)
          end
      end
  end.

(** The cached blocks of the device are no longer valid; its storage is free. *)
Definition obj_dev_destroy (dv : Z) (d : obj_device) (holders : list memory_storage_holder) (c : bcache)
  : stop + (list memory_storage_holder * bcache) :=
  match buf_cache_invalidate_blocks dv c with
  | inl e => inl e
  | inr c => inr (alter (fun x => Holder (memory_storage d) false) (storage_holder d) holders, c)
  end.

(** ** Numbers of the super block *)

Definition new_inode_number : M obj_device Z :=
  acquiresleep_disk ;;
  modS (fun d => set_last_inode (last_inode (sb d) +u 1) d) ;;
  write_super_block ;;
  releasesleep_disk ;;
  gets (fun d => last_inode (sb d)).

Definition get_occupied_objects : M obj_device Z :=
  acquiresleep_disk ;; v ← gets (fun d => occupied_objects (sb d)); releasesleep_disk ;; mret v.
Definition occupied_bytes : M obj_device Z :=
  acquiresleep_disk ;; v ← gets (fun d => bytes_occupied (sb d)); releasesleep_disk ;; mret v.

(** Runs [op] with the lock, which the caller may hold already. *)
Definition with_disklock {A} (op : M obj_device A) : M obj_device A :=
  d ← getS;
  if disklock d then op else acquiresleep_disk ;; v ← op; releasesleep_disk ;; mret v.
Definition set_occupied_objects (value : Z) : M obj_device unit :=
  with_disklock (modS (set_objects value) ;; write_super_block).
Definition set_store_offset (new_offset : Z) : M obj_device unit :=
  with_disklock (modS (set_store new_offset) ;; write_super_block).
Definition device_size : M obj_device Z := with_disklock (gets (fun d => storage_device_size (sb d))).

(** ** Sorting *)

Lemma swap_same arr x y k : swap arr x y k = if decide (k = y) then arr x else if decide (k = x) then arr y else arr k.
Proof. unfold swap, set_at. repeat case_decide; zcases; congruence. Qed.

Section sorting.
Context (d : obj_device).
Notation key arr k := (disk_offset d (arr k)).

(** No entry twice in the first [n] places. *)
Definition distinct (n : Z) (arr : Z -> Z) : Prop :=
  forall x y, 0 <= x < n -> 0 <= y < n -> arr x = arr y -> x = y.

(** The same entries in the first [n] places, and nothing else changed. *)
Definition rearranged (n : Z) (arr arr' : Z -> Z) : Prop :=
  (forall k, 0 <= k < n -> exists k', 0 <= k' < n /\ arr' k = arr k') /\
  (forall k, 0 <= k < n -> exists k', 0 <= k' < n /\ arr k = arr' k') /\
  (forall k, n <= k -> arr' k = arr k) /\ (distinct n arr -> distinct n arr').

Lemma rearranged_refl n arr : rearranged n arr arr.
Proof. split_and!; eauto. Qed.

Lemma rearranged_trans n a b c : rearranged n a b -> rearranged n b c -> rearranged n a c.
Proof.
  intros (H1 & H2 & H3 & H4) (H5 & H6 & H7 & H8). split_and!.
  - intros k (k1 & Hk1 & ->)%H5. auto.
  - intros k (k1 & Hk1 & ->)%H2. auto.
  - intros k Hk. rewrite H7, H3; auto.
  - auto.
Qed.

Lemma rearranged_grow n n' a b : n <= n' -> rearranged n a b -> rearranged n' a b.
Proof.
  intros Hn (H1 & H2 & H3 & H4).
  assert (forall k, 0 <= k < n' -> exists k', 0 <= k' < n' /\ b k = a k' /\ (n <= k -> k' = k) /\ (k < n -> k' < n)) as H1'.
  { intros k Hk. destruct (decide (k < n)) as [Hlt|]; [|exists k; rewrite H3 by lia; split_and!; lia || done].
    destruct (H1 k ltac:(lia)) as (k' & ? & ->). exists k'. split_and!; lia || done. }
  split_and!.
  - intros k Hk. destruct (H1' k Hk) as (k' & ? & ? & _). eauto.
  - intros k Hk. destruct (decide (k < n)) as [Hlt|]; [|exists k; rewrite H3 by lia; auto].
    destruct (H2 k ltac:(lia)) as (k' & ? & ->). exists k'. split; [lia|done].
  - intros k Hk. apply H3. lia.
  - intros Ha x y Hx Hy Exy. destruct (decide (x < n /\ y < n)) as [[Hxn Hyn]|Hout].
    + apply H4; [|lia..|done]. intros x' y' ???. apply Ha; lia || done.
    + destruct (H1' x Hx) as (x' & ? & Ex & ? & ?), (H1' y Hy) as (y' & ? & Ey & ? & ?).
      assert (x' = y') by (apply Ha; lia || congruence). lia.
Qed.

Lemma swap_rearranged n arr j : 0 <= j -> j + 1 < n -> rearranged n arr (swap arr j (j + 1)).
Proof.
  intros Hj Hn. split_and!.
  - intros k Hk. rewrite swap_same. case_decide; [exists j; split; [lia|done]|].
    case_decide; [exists (j + 1); split; [lia|done]|]. by exists k.
  - intros k Hk. destruct (decide (k = j)) as [->|]; [exists (j + 1); split; [lia|]; rewrite swap_same; repeat case_decide; congruence|].
    destruct (decide (k = j + 1)) as [->|]; [exists j; split; [lia|]; rewrite swap_same; repeat case_decide; congruence || lia|].
    exists k. split; [done|]. rewrite swap_same. repeat case_decide; congruence.
  - intros k Hk. rewrite swap_same. repeat case_decide; lia || done.
  - intros Ha x y Hx Hy. rewrite !swap_same. repeat case_decide; intros E; apply Ha in E; lia.
Qed.

(** A round carries the largest key to its end. *)
Lemma bubble_sort_inner_spec n j arr :
  0 <= j -> (forall k, 0 <= k < j -> key arr k <= key arr j) ->
  let arr' := bubble_sort_inner d n j arr in
  let e := j + Z.of_nat n in
  rearranged (e + 1) arr arr' /\ (forall k, 0 <= k < e -> key arr' k <= key arr' e).
Proof.
  revert j arr. induction n as [|n IH]; intros j arr Hj Hmax; cbv zeta.
  - split; [apply rearranged_refl|]. replace (j + Z.of_nat 0) with j by lia. done.
  - cbn [bubble_sort_inner]. set (arr1 := if _ <? _ then _ else _).
    assert (rearranged (j + 2) arr arr1) as Hr.
    { unfold arr1. case_match; [apply swap_rearranged; lia|apply rearranged_refl]. }
    assert (forall k, 0 <= k < j + 1 -> key arr1 k <= key arr1 (j + 1)) as Hm1.
    { intros k Hk. unfold arr1. destruct (Z.ltb_spec (key arr (j + 1)) (key arr j)) as [Hlt|Hge].
      - rewrite !swap_same. repeat case_decide; try lia. apply Hmax. lia.
      - destruct (decide (k = j)) as [->|]; [done|]. etrans; [apply Hmax; lia|done]. }
    destruct (IH (j + 1) arr1 ltac:(lia) Hm1) as [H1 H2].
    replace (j + 1 + Z.of_nat n) with (j + Z.of_nat (S n)) in * by lia. split; [|done].
    eapply rearranged_trans; [|exact H1]. eapply rearranged_grow; [|exact Hr]. lia.
Qed.

Lemma bubble_sort_outer_spec k n i arr :
  0 <= i -> Z.of_nat k + i = n - 1 ->
  (forall x y, 0 <= x <= y -> n - i <= y < n -> key arr x <= key arr y) ->
  let arr' := bubble_sort_outer d k n i arr in
  rearranged n arr arr' /\ (forall x y, 0 <= x <= y -> 1 <= y < n -> key arr' x <= key arr' y).
Proof.
  revert i arr. induction k as [|k IH]; intros i arr Hi Hk Hs; cbn -[Z.of_nat].
  - split; [apply rearranged_refl|]. intros x y Hx Hy. apply Hs; lia.
  - destruct (bubble_sort_inner_spec (Z.to_nat (n - i - 1)) 0 arr) as [Hr Hmax]; [lia|lia|].
    set (arr1 := bubble_sort_inner d _ 0 arr) in *. replace (0 + Z.of_nat (Z.to_nat (n - i - 1))) with (n - i - 1) in * by lia.
    destruct (IH (i + 1) arr1) as [H1 H2]; [lia|lia| |].
    { intros x y Hx Hy. destruct Hr as (Hto & _ & Hout & _). destruct (decide (y = n - i - 1)) as [->|Hne].
      - destruct (decide (x = n - i - 1)) as [->|]; [done|]. apply Hmax. lia.
      - rewrite (Hout y) by lia. destruct (decide (x < n - i)) as [Hlt|].
        + destruct (Hto x ltac:(lia)) as (x' & Hx' & ->). apply Hs; lia.
        + rewrite (Hout x) by lia. apply Hs; lia. }
    split; [|done]. eapply rearranged_trans; [|exact H1]. eapply rearranged_grow; [|exact Hr]. lia.
Qed.

Lemma bubble_sort_spec arr n :
  0 <= n -> let arr' := bubble_sort d arr n in
  rearranged n arr arr' /\ (forall x y, 0 <= x <= y -> y < n -> key arr' x <= key arr' y).
Proof.
  intros Hn. unfold bubble_sort. destruct (Z.leb_spec 2 n) as [H2|H2]; cbv zeta.
  - destruct (bubble_sort_outer_spec (Z.to_nat (n - 1)) n 0 arr) as [H1 Hs]; [lia..|]. split; [done|]. intros x y Hx Hy.
    destruct (decide (y = 0)) as [->|]; [by replace x with 0 by lia|]. apply Hs; lia.
  - split; [apply rearranged_refl|]. intros x y Hx Hy. by replace x with y by lia.
Qed.
End sorting.

(** ** The table as it lies in the storage *)

Definition TABLE : Z := sizeof_objsuperblock.
Definition ent (i : Z) : Z := TABLE + 32 * i.
Definition off (m : mem) (i : Z) : Z := ld32 m (ent i + 20).
Definition sz (m : mem) (i : Z) : Z := ld32 m (ent i + 24).
Definition occ (m : mem) (i : Z) : bool := negb (ld32 m (ent i + 28) =? 0).
Definition name_is (m : mem) (i : Z) (nm : list Z) : Prop := cstr m (ent i) nm /\ (length nm < 20)%nat.

(** The number of entries of a table that ends at [so]. *)
Definition slots (so : Z) : Z := (so - TABLE) / 32.

Record geometry (d : obj_device) : Prop := {
  g_size : storage_device_size (sb d) = STORAGE_DEVICE_SIZE;
  g_table : objects_table_offset (sb d) = TABLE;
  g_store : TABLE + 64 <= store_offset (sb d) <= STORAGE_DEVICE_SIZE;
  g_vfs : length (vfs_sb (sb d)) = Z.to_nat sizeof_vfs_superblock;
  g_vfs_bytes : Forall is_byte (vfs_sb (sb d));
  g_mem : wf_mem (memory_storage d)
}.

Lemma slots_bounds so : TABLE + 64 <= so -> 2 <= slots so /\ ent (slots so) <= so < ent (slots so) + 32.
Proof. unfold slots, ent, TABLE, sizeof_objsuperblock, sizeof_vfs_superblock. intros H. Z.div_mod_to_equations. lia. Qed.

(** An entry that ends inside of the storage is where the code looks for it. *)
Lemma entry_place d i : objects_table_offset (sb d) = TABLE -> 0 <= i -> ent i <= STORAGE_DEVICE_SIZE ->
  get_objects_table_entry d i = ent i.
Proof.
  unfold get_objects_table_entry, entry_index_to_entry_offset, ent, TABLE, sizeof_objsuperblock, sizeof_vfs_superblock,
    sizeof_entry, OBJECT_ID_LENGTH, MAX_OBJECT_NAME_LENGTH, STORAGE_DEVICE_SIZE.
  intros -> Hi He. rewrite u32_id, s32_id by (unfold is_u32, is_s32; lia). lia.
Qed.

Section geometry.
Context (d : obj_device) (G : geometry d).
Notation m := (memory_storage d).
Notation so := (store_offset (sb d)).

Lemma table_size : get_object_table_size d = slots so.
Proof.
  destruct G as [_ Ht Hs _ _ _]. unfold get_object_table_size, slots. rewrite Ht.
  unfold TABLE, STORAGE_DEVICE_SIZE, sizeof_objsuperblock, sizeof_vfs_superblock in *. by rewrite u32_id by (unfold is_u32; lia).
Qed.

Lemma current_size : current_table_size d = slots so.
Proof.
  destruct G as [_ Ht Hs _ _ _]. unfold current_table_size, slots. rewrite Ht.
  unfold TABLE, STORAGE_DEVICE_SIZE, sizeof_objsuperblock, sizeof_vfs_superblock in *.
  rewrite u32_id by (unfold is_u32; lia). zcases; [lia|done].
Qed.

Lemma slot_place i : 0 <= i <= slots so -> get_objects_table_entry d i = ent i.
Proof.
  intros Hi. apply entry_place; [apply G|lia|]. destruct (g_store d G) as [H1 H2].
  pose proof (slots_bounds _ H1). unfold ent in *. lia.
Qed.

Lemma disk_offset_slot i : 0 <= i <= slots so -> disk_offset d i = off m i.
Proof. intros. unfold disk_offset. rewrite slot_place by done. done. Qed.

Lemma entry_size_slot i : 0 <= i <= slots so -> entry_size d i = sz m i.
Proof. intros. unfold entry_size. rewrite slot_place by done. unfold size_at, sz. f_equal. unfold OBJECT_ID_LENGTH, MAX_OBJECT_NAME_LENGTH. lia. Qed.

Lemma occupied_slot i : 0 <= i <= slots so -> occupied d i = occ m i.
Proof.
  intros. unfold occupied. rewrite slot_place by done. unfold occupied_at, occ. do 3 f_equal.
  unfold OBJECT_ID_LENGTH, MAX_OBJECT_NAME_LENGTH. lia.
Qed.
End geometry.

(** The objects behind the table: inside of the store and apart from each
    other; an empty object lies at the end of the storage. *)
Definition live (m : mem) (so i : Z) : Prop := 2 <= i < slots so /\ occ m i = true.

Definition placed (so a n : Z) : Prop := so <= a /\ 0 <= n /\ a + n <= STORAGE_DEVICE_SIZE /\ (n = 0 -> a = STORAGE_DEVICE_SIZE).

Record extents (m : mem) (so : Z) : Prop := {
  ext_in i : live m so i -> placed so (off m i) (sz m i);
  ext_apart i j : live m so i -> live m so j -> i <> j ->
    off m i + sz m i <= off m j \/ off m j + sz m j <= off m i
}.

(** The room from [a] on is apart from all objects. *)
Definition free_room (m : mem) (so a n : Z) : Prop :=
  forall i, live m so i -> a + n <= off m i \/ off m i + sz m i <= a.

Lemma ordered m so i j : extents m so -> live m so i -> live m so j -> i <> j -> off m i <= off m j ->
  off m i + sz m i <= off m j.
Proof.
  intros X Hi Hj Hne Hle. destruct (ext_apart _ _ X i j Hi Hj Hne) as [|H]; [done|].
  destruct (ext_in _ _ X i Hi) as (? & ? & ? & Hzi), (ext_in _ _ X j Hj) as (? & ? & ? & Hzj). lia.
Qed.

(** ** What [find_empty_space] gives *)

Section room.
Context (d : obj_device) (G : geometry d).
Notation m := (memory_storage d).
Notation so := (store_offset (sb d)).

(** The live entries below [i], in the first places of the array. *)
Definition gathered (i : Z) (arr : Z -> Z) (p : Z) : Prop :=
  0 <= p <= i - 2 /\ distinct p arr /\ (forall k, 0 <= k < p -> live m so (arr k) /\ arr k < i) /\
  (forall j, live m so j -> j < i -> exists k, 0 <= k < p /\ arr k = j).

Lemma populate_run n i arr p : gathered i arr p -> i + Z.of_nat n = slots so ->
  exists arr' p', populate d (slots so - 2) n i arr p d = inr ((arr', p'), d) /\ gathered (slots so) arr' p' /\
    p <= p' /\ (forall k, p' <= k -> arr' k = arr k).
Proof.
  revert i arr p. induction n as [|n IH]; intros i arr p Hg Hi.
  - exists arr, p. replace (slots so) with i by lia. split_and!; [done..|lia|done].
  - destruct Hg as (Hp & Hd & H1 & H2). cbn [populate]. rewrite occupied_slot by (done || lia).
    destruct (occ m i) eqn:Eo.
    + destruct (Z.ltb_spec p (slots so - 2)); [|lia]. cbn [negb]. destruct (Z.ltb_spec (slots so - 2) (p + 1)); [lia|].
      destruct (IH (i + 1) (set_at arr p i) (p + 1)) as (arr' & p' & E & Hg & Hp' & Hk);
        [|lia|exists arr', p'; split_and!; [done..|lia|]; intros k Hle; rewrite Hk by done; unfold set_at; zcases; lia || done].
      split_and!; [lia|lia| | |].
      * intros x y Hx Hy. unfold set_at. zcases; intros E; subst; try lia.
        -- destruct (H1 y ltac:(lia)). lia.
        -- destruct (H1 x ltac:(lia)). lia.
        -- apply Hd; lia || done.
      * intros k Hk. unfold set_at. zcases; [split; [|lia]; repeat split; lia || done|]. destruct (H1 k ltac:(lia)). split; [done|lia].
      * intros j Hj Hlt. destruct (decide (j = i)) as [->|].
        -- exists p. unfold set_at. rewrite Z.eqb_refl. split; [lia|done].
        -- destruct (H2 j Hj ltac:(lia)) as (k & Hk & <-). exists k. unfold set_at. zcases; [lia|]. split; [lia|done].
    + apply IH; [|lia]. split_and!; [lia|lia|done| |].
      * intros k Hk. destruct (H1 k Hk). split; [done|lia].
      * intros j Hj Hlt. apply H2; [done|]. destruct Hj as [_ Hj]. assert (j <> i) by congruence. lia.
Qed.

(** The live entries in the order of their offsets. *)
Definition in_order (arr : Z -> Z) (p : Z) : Prop :=
  distinct p arr /\ (forall k, 0 <= k < p -> live m so (arr k)) /\
  (forall j, live m so j -> exists k, 0 <= k < p /\ arr k = j) /\
  (forall x y, 0 <= x <= y -> y < p -> off m (arr x) <= off m (arr y)).

Lemma live_slot i : live m so i -> 0 <= i <= slots so.
Proof. intros [? _]. lia. Qed.

Lemma sorted_in_order arr p : gathered (slots so) arr p -> in_order (bubble_sort d arr p) p.
Proof.
  intros (Hp & Hd & H1 & H2). destruct (bubble_sort_spec d arr p) as [(R1 & R2 & _ & R4) Hs]; [lia|].
  assert (forall k, 0 <= k < p -> live m so (bubble_sort d arr p k)) as Hl.
  { intros k Hk. destruct (R1 k Hk) as (k' & Hk' & ->). by apply H1. }
  split_and!; [auto|done| |].
  - intros j Hj. destruct (H2 j Hj) as (k & Hk & <-); [destruct Hj; lia|]. destruct (R2 k Hk) as (k' & ? & ->). eauto.
  - intros x y Hx Hy. rewrite <- !(disk_offset_slot d G) by (apply live_slot, Hl; lia). by apply Hs.
Qed.

Context (X : extents m so).

Lemma space_between i j a : live m so i -> live m so j -> a = off m j \/ a = STORAGE_DEVICE_SIZE -> off m i + sz m i <= a ->
  (a -u off m i) -u sz m i = a - off m i - sz m i.
Proof.
  intros Hi Hj Ha Hle. destruct (ext_in _ _ X i Hi) as (? & ? & ? & _), (ext_in _ _ X j Hj) as (? & ? & ? & _).
  destruct (g_store d G). unfold TABLE, sizeof_objsuperblock, sizeof_vfs_superblock, STORAGE_DEVICE_SIZE in *.
  rewrite !u32_id; unfold is_u32; try lia. rewrite !u32_id; unfold is_u32; lia.
Qed.

Lemma neighbours arr p x y : in_order arr p -> 0 <= x < y -> y < p -> off m (arr x) + sz m (arr x) <= off m (arr y).
Proof.
  intros (Hd & Hl & _ & Hs) Hx Hy. apply (ordered m so); [done|apply Hl; lia..| |apply Hs; lia].
  intros E. apply Hd in E; lia.
Qed.

(** Room that ends at the object in place [y] and starts behind the one before it. *)
Lemma room_before arr p y n : in_order arr p -> 0 <= y < p -> 0 < n -> so + n <= off m (arr y) ->
  (0 < y -> off m (arr (y - 1)) + sz m (arr (y - 1)) + n <= off m (arr y)) ->
  placed so (off m (arr y) - n) n /\ free_room m so (off m (arr y) - n) n.
Proof.
  intros O Hy Hn Hso Hprev. pose proof O as (Hd & Hl & Hall & Hs).
  destruct (ext_in _ _ X _ (Hl y Hy)) as (? & ? & ? & ?). split; [repeat split; lia|].
  intros i Hi. destruct (Hall i Hi) as (k & Hk & <-). destruct (decide (y <= k)).
  - left. specialize (Hs y k). lia.
  - right. destruct (decide (k = y - 1)) as [->|]; [lia|]. pose proof (neighbours _ _ k (y - 1) O).
    pose proof (ext_in _ _ X _ (Hl (y - 1) ltac:(lia))) as (? & ? & ? & ?). lia.
Qed.

Lemma gap_search_spec arr p n i : in_order arr p -> 0 < n <= STORAGE_DEVICE_SIZE -> Z.of_nat i < p ->
  match gap_search d arr n i with
  | Some a => placed so a n /\ free_room m so a n
  | None => forall k, 0 <= k < Z.of_nat i -> off m (arr (k + 1)) - off m (arr k) - sz m (arr k) < n
  end.
Proof.
  intros O Hn Hi. pose proof O as (_ & Hl & _ & _). induction i as [|i IH]; cbn -[Z.of_nat].
  { intros k Hk. lia. }
  pose proof (Hl (Z.of_nat (S i)) ltac:(lia)) as L1. pose proof (Hl (Z.of_nat i) ltac:(lia)) as L0.
  pose proof (neighbours arr p (Z.of_nat i) (Z.of_nat (S i)) O ltac:(lia) ltac:(lia)) as Hnb.
  rewrite (disk_offset_slot d G (arr (Z.of_nat (S i)))), (disk_offset_slot d G (arr (Z.of_nat i))), (entry_size_slot d G)
    by (apply live_slot; done).
  rewrite (space_between _ _ _ L0 L1) by auto.
  destruct (ext_in _ _ X _ L1) as (? & ? & ? & _), (ext_in _ _ X _ L0) as (? & ? & ? & _), (g_store d G).
  destruct (Z.leb_spec n (off m (arr (Z.of_nat (S i))) - off m (arr (Z.of_nat i)) - sz m (arr (Z.of_nat i)))) as [Hle|Hlt].
  - rewrite u32_id by (unfold is_u32, TABLE, sizeof_objsuperblock, sizeof_vfs_superblock, STORAGE_DEVICE_SIZE in *; lia).
    apply (room_before arr p); [done|lia..|]. intros _. replace (Z.of_nat (S i) - 1) with (Z.of_nat i) by lia. lia.
  - specialize (IH ltac:(lia)). destruct (gap_search d arr n i); [done|]. intros k Hk.
    destruct (decide (k = Z.of_nat i)) as [->|]; [|apply IH; lia]. replace (Z.of_nat i + 1) with (Z.of_nat (S i)) by lia. done.
Qed.

(** The outcomes for [n] bytes: room in the store that is free; the limit of
    the table moved down so far that the room ends at the first object; or no
    room.  [last] stands for the entry number found in the array's last place. *)
Inductive room_outcome (last n : Z) : option Z -> obj_device -> Prop :=
| room_found a : placed so a n -> free_room m so a n -> room_outcome last n (Some a) d
| room_moved e : live m so e -> (forall i, live m so i -> off m e <= off m i) ->
    (forall b, so <= b -> b + n <= STORAGE_DEVICE_SIZE -> ~ free_room m so b n) ->
    u32 (entry_index_to_entry_offset d (last +u 1)) < u32 (off m e - n) ->
    room_outcome last n (Some (u32 (off m e - n))) (set_store (u32 (off m e - n)) d)
| room_none e : live m so e -> (forall i, live m so i -> off m e <= off m i) ->
    (forall b, so <= b -> b + n <= STORAGE_DEVICE_SIZE -> ~ free_room m so b n) ->
    u32 (off m e - n) <= u32 (entry_index_to_entry_offset d (last +u 1)) ->
    room_outcome last n None d.

(** Without a gap large enough there is no free room. *)
Lemma gaps_too_small arr p n : in_order arr p -> 0 < p -> 0 < n ->
  STORAGE_DEVICE_SIZE - off m (arr (p - 1)) - sz m (arr (p - 1)) < n ->
  (forall k, 0 <= k < p - 1 -> off m (arr (k + 1)) - off m (arr k) - sz m (arr k) < n) ->
  off m (arr 0) - so < n ->
  forall b, so <= b -> b + n <= STORAGE_DEVICE_SIZE -> ~ free_room m so b n.
Proof.
  intros (_ & Hl & _ & _) Hp Hn Hlast Hgap Hfirst b Hb Hbn F.
  assert (forall i : nat, Z.of_nat i < p -> b + n <= off m (arr (p - 1 - Z.of_nat i))) as H.
  { induction i as [|i IH]; intros Hi.
    - replace (p - 1 - Z.of_nat 0) with (p - 1) by lia. destruct (F _ (Hl (p - 1) ltac:(lia))); lia.
    - specialize (IH ltac:(lia)). specialize (Hgap (p - 1 - Z.of_nat (S i)) ltac:(lia)).
      replace (p - 1 - Z.of_nat (S i) + 1) with (p - 1 - Z.of_nat i) in Hgap by lia.
      destruct (F _ (Hl (p - 1 - Z.of_nat (S i)) ltac:(lia))); lia. }
  specialize (H (Z.to_nat (p - 1)) ltac:(lia)). replace (p - 1 - Z.of_nat (Z.to_nat (p - 1))) with 0 in H by lia. lia.
Qed.

Lemma room_at_end arr p n : in_order arr p -> 0 < p -> 0 <= n ->
  n <= STORAGE_DEVICE_SIZE - off m (arr (p - 1)) - sz m (arr (p - 1)) ->
  placed so (STORAGE_DEVICE_SIZE - n) n /\ free_room m so (STORAGE_DEVICE_SIZE - n) n.
Proof.
  intros O Hp Hn Hle. pose proof O as (_ & Hl & Hall & _).
  destruct (ext_in _ _ X _ (Hl (p - 1) ltac:(lia))) as (? & ? & ? & ?). split; [repeat split; lia|].
  intros i Hi. destruct (Hall i Hi) as (k & Hk & <-). right. destruct (decide (k = p - 1)) as [->|]; [lia|].
  pose proof (neighbours arr p k (p - 1) O). lia.
Qed.

Lemma limit_moved e n : live m so e -> 0 < n <= STORAGE_DEVICE_SIZE -> off m e - so < n ->
  so -u (n -u (off m e -u so)) = u32 (off m e - n).
Proof.
  intros He Hn Hlt. destruct (ext_in _ _ X e He) as (? & ? & ? & _), (g_store d G).
  unfold TABLE, STORAGE_DEVICE_SIZE, sizeof_objsuperblock, sizeof_vfs_superblock in *.
  rewrite (u32_id (off m e - so)), u32_sub_r by (unfold is_u32; lia). f_equal. lia.
Qed.

Lemma array_get_run arr n k : k < n -> array_get arr n k d = inr (arr k, d).
Proof. intros H. unfold array_get. destruct (Z.ltb_spec k n); [done|lia]. Qed.

Lemma array_get_stop arr n k : n <= k -> array_get arr n k d = inl Fault.
Proof. intros H. unfold array_get. destruct (Z.ltb_spec k n); [lia|done]. Qed.

(** The search when there are objects, from the sorted array on. *)
Lemma search_sorted arr p last n :
  in_order arr p -> 0 < p -> p <= slots so - 2 -> slots so <= STORAGE_DEVICE_SIZE -> 0 <= n <= STORAGE_DEVICE_SIZE ->
  exists r d', (last_entry ← array_get arr (slots so - 2) (p -u 1);
    let space_left := (storage_device_size (sb d) -u disk_offset d last_entry) -u entry_size d last_entry in
    if n <=? space_left then mret (Some (STORAGE_DEVICE_SIZE - n)) else
    match (if 2 <=? p then gap_search d arr n (Z.to_nat (p - 1)) else None) with
    | Some a => mret (Some a)
    | None =>
        earliest ← array_get arr (slots so - 2) 0;
        let room := disk_offset d earliest -u so in
        if n <=? room then mret (Some (disk_offset d earliest -u n)) else
        let needed_space := n -u room in
        let offset_after_last_entry := u32 (entry_index_to_entry_offset d (last +u 1)) in
        if offset_after_last_entry <? so -u needed_space then
          modS (set_store (so -u needed_space)) ;; mret (Some (so -u needed_space))
        else mret None
    end) d = inr (r, d') /\ room_outcome last n r d'.
Proof.
  intros O Hp Hps HT Hn. pose proof O as (_ & Hl & Hall & Hs). destruct (g_store d G) as [Hs1 Hs2].
  pose proof (Hl (p - 1) ltac:(lia)) as Ll. pose proof (Hl 0 ltac:(lia)) as L0. pose proof (ext_in _ _ X _ Ll) as Pl.
  pose proof (ext_in _ _ X _ L0) as P0. unfold placed in Pl, P0.
  rewrite (u32_id (p - 1)) by (unfold is_u32, STORAGE_DEVICE_SIZE in *; lia). step (array_get_run arr (slots so - 2) (p - 1) ltac:(lia)).
  rewrite (disk_offset_slot d G), (entry_size_slot d G), (g_size d G) by (apply live_slot; done).
  rewrite (space_between _ (arr (p - 1))) by (auto || lia).
  destruct (Z.leb_spec n (STORAGE_DEVICE_SIZE - off m (arr (p - 1)) - sz m (arr (p - 1)))) as [Hle|Hlast].
  { destruct (room_at_end arr p n) as [? ?]; [done|lia..|]. eexists _, _. split; [done|]. by apply room_found. }
  assert (0 < n) by lia.
  pose proof (gap_search_spec arr p n (Z.to_nat (p - 1)) O ltac:(lia) ltac:(lia)) as Hgap.
  assert ((if 2 <=? p then gap_search d arr n (Z.to_nat (p - 1)) else None) = gap_search d arr n (Z.to_nat (p - 1))) as ->.
  { destruct (Z.leb_spec 2 p); [done|]. by replace p with 1 by lia. }
  destruct (gap_search d arr n (Z.to_nat (p - 1))) as [a|].
  { destruct Hgap. eexists _, _. split; [done|]. by apply room_found. }
  step (array_get_run arr (slots so - 2) 0 ltac:(lia)). rewrite (disk_offset_slot d G) by (apply live_slot; done).
  rewrite (u32_id (off m (arr 0) - so)) by (unfold is_u32, STORAGE_DEVICE_SIZE, TABLE, sizeof_objsuperblock, sizeof_vfs_superblock in *; lia).
  destruct (Z.leb_spec n (off m (arr 0) - so)) as [Hfit|Hmove].
  { rewrite u32_id by (unfold is_u32, STORAGE_DEVICE_SIZE, TABLE, sizeof_objsuperblock, sizeof_vfs_superblock in *; lia).
    destruct (room_before arr p 0 n) as [? ?]; [done|lia..|]. eexists _, _. split; [done|]. by apply room_found. }
  assert (forall i, live m so i -> off m (arr 0) <= off m i) as Hmin.
  { intros i Hi. destruct (Hall i Hi) as (k & Hk & <-). apply Hs; lia. }
  assert (forall b, so <= b -> b + n <= STORAGE_DEVICE_SIZE -> ~ free_room m so b n) as Hnone.
  { apply (gaps_too_small arr p); [done|lia..| |lia]. intros k Hk. apply Hgap. lia. }
  pose proof (limit_moved (arr 0) n L0 ltac:(lia) ltac:(lia)) as Em.
  rewrite (u32_id (off m (arr 0) - so)) in Em by (unfold is_u32, STORAGE_DEVICE_SIZE, TABLE, sizeof_objsuperblock, sizeof_vfs_superblock in *; lia).
  rewrite Em. destruct (Z.ltb_spec (u32 (entry_index_to_entry_offset d (last +u 1))) (u32 (off m (arr 0) - n))).
  - eexists _, _. split; [done|]. by apply (room_moved last n (arr 0)).
  - eexists _, _. split; [done|]. by apply (room_none last n (arr 0)).
Qed.

Lemma find_empty_space_spec uninit n : 0 <= n <= STORAGE_DEVICE_SIZE ->
  match find_empty_space uninit n d with
  | inl e => e = Fault /\ (forall i, ~ live m so i) /\ STORAGE_DEVICE_SIZE - n < so
  | inr (r, d') => exists last, (live m so last \/ last = uninit (slots so - 3)) /\ room_outcome last n r d'
  end.
Proof.
  intros Hn. destruct (g_store d G) as [Hs1 Hs2]. destruct (slots_bounds so Hs1) as (HT & HT1 & _).
  assert (slots so <= STORAGE_DEVICE_SIZE) as HT2 by (unfold ent, TABLE, sizeof_objsuperblock, sizeof_vfs_superblock in *; lia).
  unfold find_empty_space. step (getS_run d). rewrite (current_size d G), (table_size d G).
  rewrite (u32_id (slots so - 2)) by (unfold is_u32, STORAGE_DEVICE_SIZE in *; lia).
  destruct (populate_run (Z.to_nat (slots so - 2)) 2 uninit 0) as (arr & p & E & Hg & Hp & Hun); [|lia|].
  { split_and!; [lia|lia|intros ??; lia|lia|]. intros j [? _]. lia. }
  step E. pose proof Hg as (Hp2 & _ & Hlv & Hall). rewrite (u32_id (STORAGE_DEVICE_SIZE - n)) by (unfold is_u32, STORAGE_DEVICE_SIZE in *; lia).
  destruct (Z.eqb_spec p 0) as [->|Hp0]; cbn [andb].
  - assert (forall i, ~ live m so i) as Hno by (intros i Hi; destruct (Hall i Hi) as (? & ? & _); [destruct Hi; lia|lia]).
    destruct (Z.leb_spec so (STORAGE_DEVICE_SIZE - n)) as [Hle|Hgt].
    + exists (uninit (slots so - 3)). split; [auto|]. apply room_found; [repeat split; lia|]. intros i Hi. by destruct (Hno i).
    + destruct (decide ((slots so - 2) -u 1 < slots so - 2)).
      * step (array_get_run arr (slots so - 2) ((slots so - 2) -u 1) ltac:(done)).
        rewrite (bind_stop _ _ _ _ (array_get_stop _ (slots so - 2) (0 -u 1) ltac:(change (0 -u 1) with 4294967295; unfold STORAGE_DEVICE_SIZE in *; lia))).
        by split_and!.
      * rewrite (bind_stop _ _ _ _ (array_get_stop arr (slots so - 2) ((slots so - 2) -u 1) ltac:(lia))). by split_and!.
  - rewrite (u32_id (slots so - 2 - 1)) by (unfold is_u32, STORAGE_DEVICE_SIZE in *; lia).
    step (array_get_run arr (slots so - 2) (slots so - 2 - 1) ltac:(lia)).
    destruct (search_sorted (bubble_sort d arr p) p (arr (slots so - 2 - 1)) n) as (r & d' & Er & Ho);
      [by apply sorted_in_order|lia..|]. cbv beta zeta in Er. rewrite Er. exists (arr (slots so - 2 - 1)). split; [|done].
    replace (slots so - 2 - 1) with (slots so - 3) by lia. destruct (decide (p <= slots so - 3)); [right; apply Hun; lia|].
    left. apply Hlv. lia.
Qed.
End room.

(** ** Bytes of the storage *)

Lemma blit_in m a l x : a <= x < a + Z.of_nat (length l) -> blit m a l x = l !!! Z.to_nat (x - a).
Proof. intros H. unfold blit. range_cases; [done|lia]. Qed.

Lemma blit_out m a l x : ~ (a <= x < a + Z.of_nat (length l)) -> blit m a l x = m x.
Proof. intros H. unfold blit. range_cases; [lia|done]. Qed.

Lemma blit_wf m a l : wf_mem m -> Forall is_byte l -> wf_mem (blit m a l).
Proof.
  intros Hm Hl x. unfold blit. range_cases; [|apply Hm].
  destruct (lookup_lt_is_Some_2 l (Z.to_nat (x - a))) as [c Hc]; [lia|].
  rewrite (list_lookup_total_correct _ _ _ Hc). by eapply Forall_lookup_1.
Qed.

Lemma blit_app m a l k x : blit m a (l ++ k) x = blit (blit m a l) (a + Z.of_nat (length l)) k x.
Proof.
  unfold blit. rewrite length_app. range_cases; try lia; try done.
  - rewrite lookup_total_app_r by lia. f_equal. lia.
  - rewrite lookup_total_app_l by lia. done.
Qed.

Lemma bytes_length m a n : length (bytes m a n) = Z.to_nat n.
Proof. unfold bytes. by rewrite length_fmap, length_seqZ. Qed.

Lemma bytes_lookup m a n i c : bytes m a n !! i = Some c <-> Z.of_nat i < n /\ m (a + Z.of_nat i) = c.
Proof.
  unfold bytes. rewrite list_lookup_fmap_Some. split.
  - intros (k & -> & (-> & Hk)%lookup_seqZ). by rewrite Z.add_0_l.
  - intros [Hi <-]. exists (Z.of_nat i). split; [done|]. apply lookup_seqZ. lia.
Qed.

Lemma bytes_ext m m' a n : (forall x, a <= x < a + n -> m x = m' x) -> bytes m a n = bytes m' a n.
Proof.
  intros H. apply list_eq. intros i. apply option_eq. intros c. rewrite !bytes_lookup.
  split; intros [Hi <-]; (split; [done|]); [symmetry|]; apply H; lia.
Qed.

Lemma bytes_blit m a l : bytes (blit m a l) a (Z.of_nat (length l)) = l.
Proof.
  apply list_eq. intros i. apply option_eq. intros c. rewrite bytes_lookup. split.
  - intros [Hi <-]. rewrite blit_in by lia. replace (Z.to_nat (a + Z.of_nat i - a)) with i by lia.
    apply list_lookup_lookup_total_lt. lia.
  - intros Hi. pose proof (lookup_lt_Some _ _ _ Hi). split; [lia|]. rewrite blit_in by lia.
    replace (Z.to_nat (a + Z.of_nat i - a)) with i by lia. by apply list_lookup_total_correct.
Qed.

Lemma bytes_of_blit m' m a l n : Z.of_nat (length l) = n -> (forall y, a <= y < a + n -> m' y = blit m a l y) -> bytes m' a n = l.
Proof. intros <- H. rewrite (bytes_ext m' (blit m a l)) by done. apply bytes_blit. Qed.

Lemma bytes_at_blit m a l : bytes_at (blit m a l) a l.
Proof.
  intros i c Hi. pose proof (lookup_lt_Some _ _ _ Hi). rewrite blit_in by lia.
  replace (Z.to_nat (a + Z.of_nat i - a)) with i by lia. by apply list_lookup_total_correct.
Qed.

Lemma store_bytes_run a l d : 0 <= a -> a + Z.of_nat (length l) <= STORAGE_DEVICE_SIZE ->
  store_bytes a l d = inr (tt, set_mem (blit (memory_storage d) a l) d).
Proof. intros H1 H2. unfold store_bytes, in_storage. by rewrite (proj2 (Z.leb_le _ _) H1), (proj2 (Z.leb_le _ _) H2). Qed.

Lemma store_word_run a v d : 0 <= a -> a + 4 <= STORAGE_DEVICE_SIZE ->
  store_word a v d = inr (tt, set_mem (st32 (memory_storage d) a v) d).
Proof. intros H1 H2. unfold store_word, in_storage. by rewrite (proj2 (Z.leb_le _ _) H1), (proj2 (Z.leb_le _ _) H2). Qed.

Lemma le32_bytes v : Forall is_byte (le32 v).
Proof. unfold le32. repeat constructor; apply u8_range. Qed.

Lemma sb_bytes_spec b : length (vfs_sb b) = Z.to_nat sizeof_vfs_superblock -> Forall is_byte (vfs_sb b) ->
  Z.of_nat (length (sb_bytes b)) = TABLE /\ Forall is_byte (sb_bytes b).
Proof.
  intros Hl Hb. unfold sb_bytes. rewrite !length_app, Hl. split; [done|].
  rewrite !Forall_app. split_and!; [apply le32_bytes..|done|apply le32_bytes].
Qed.

(** The buffers of a vector: whole blocks of bytes. *)
Definition whole (bs : list buf) : Prop := Forall (fun b => length (bdata b) = Z.to_nat BSIZE /\ Forall is_byte (bdata b)) bs.
Definition contents (bs : list buf) : list Z := concat (bdata <$> bs).
Definition clean (b : buf) : buf := set_flags (Z.land (flags b) (Z.lnot B_DIRTY)) b.

Lemma contents_length bs : whole bs -> Z.of_nat (length (contents bs)) = BSIZE * Z.of_nat (length bs).
Proof.
  unfold contents. induction 1 as [|b bs [Hl _] _ IH]; [done|]. cbn [fmap list_fmap concat length].
  rewrite length_app, Hl, Nat2Z.inj_add, IH. unfold BSIZE. lia.
Qed.

Lemma contents_bytes bs : whole bs -> Forall is_byte (contents bs).
Proof. unfold contents. induction 1 as [|b bs [_ Hb] _ IH]; [done|]. cbn [fmap list_fmap concat]. by apply Forall_app. Qed.

Lemma copy_bufs_loop_run a bs n c d :
  whole bs -> 0 <= a -> 0 <= c <= n -> n <= STORAGE_DEVICE_SIZE -> a + n <= STORAGE_DEVICE_SIZE ->
  exists m', copy_bufs_loop a bs n c d = inr (clean <$> bs, set_mem m' d) /\
    (forall x, m' x = blit (memory_storage d) (a + c) (take (Z.to_nat (n - c)) (contents bs)) x).
Proof.
  intros Hw Ha Hc Hn1 Hn. revert c d Hc. induction Hw as [|b bs [Hl Hb] Hw IH]; intros c d Hc.
  - exists (memory_storage d). split; [by destruct d|]. intros x. unfold contents. cbn [fmap list_fmap concat]. by rewrite take_nil, blit_out by (cbn; lia).
  - cbn [copy_bufs_loop]. unfold STORAGE_DEVICE_SIZE in *. rewrite (u32_id (n - c)) by (unfold is_u32; lia).
    set (bl := if n - c <? BSIZE then n - c else BSIZE).
    assert (0 <= bl <= n - c /\ bl <= BSIZE /\ (bl = n - c \/ bl = BSIZE)) as (Hbl & Hbl2 & Hcase)
      by (unfold bl; clear -Hc; unfold BSIZE; zcases; lia).
    assert (length (take (Z.to_nat bl) (bdata b)) = Z.to_nat bl) as Hlt by (rewrite length_take, Hl; lia).
    step (store_bytes_run (a + c) (take (Z.to_nat bl) (bdata b)) d ltac:(lia) ltac:(unfold STORAGE_DEVICE_SIZE; lia)).
    rewrite (u32_id (c + bl)) by (unfold is_u32; lia).
    destruct (IH (c + bl) (set_mem (blit (memory_storage d) (a + c) (take (Z.to_nat bl) (bdata b))) d)) as (m' & E & Hm'); [lia|].
    step E. exists m'. split; [done|]. intros x. rewrite Hm'. cbn [memory_storage set_mem].
    unfold contents. cbn [fmap list_fmap concat]. rewrite take_app, Hl, blit_app.
    assert (take (Z.to_nat (n - c)) (bdata b) = take (Z.to_nat bl) (bdata b)) as ->.
    { destruct Hcase as [->| ->]; [done|]. rewrite (firstn_all2 (n := Z.to_nat BSIZE)), firstn_all2 by (rewrite Hl; lia). done. }
    rewrite Hlt. replace (a + c + Z.of_nat (Z.to_nat bl)) with (a + (c + bl)) by lia.
    replace (Z.to_nat (n - c) - Z.to_nat BSIZE)%nat with (Z.to_nat (n - (c + bl))) by lia. done.
Qed.

Lemma copy_bufs_run a bs n d :
  whole bs -> 0 <= a -> 0 <= n -> a + n <= STORAGE_DEVICE_SIZE ->
  exists bs' m', copy_bufs_vector_to_disk a bs n d = inr (bs', set_mem m' d) /\
    (forall x, m' x = blit (memory_storage d) a (take (Z.to_nat n) (contents bs)) x).
Proof.
  intros Hw Ha Hn Hs. unfold copy_bufs_vector_to_disk. destruct (Z.ltb_spec 0 n).
  - destruct (copy_bufs_loop_run a bs n 0 d) as (m' & E & Hm); [done|lia..|]. exists (clean <$> bs), m'. split; [done|].
    intros x. rewrite Hm. by rewrite Z.add_0_r, Z.sub_0_r.
  - exists bs, (memory_storage d). split; [by destruct d|]. intros x. replace (Z.to_nat n) with 0%nat by lia. by rewrite take_0, blit_out by (cbn; lia).
Qed.

(** ** Names *)

(** A C string of bytes. *)
Definition legal (nm : list Z) : Prop := Forall (fun c => 0 < c < 256) nm.

Lemma s8_inj a b : is_byte a -> is_byte b -> s8 a - s8 b = 0 -> a = b.
Proof. unfold is_byte, s8. intros Ha Hb. Z.div_mod_to_equations. lia. Qed.

Lemma obj_id_cmp_loop_spec n m p l nm :
  wf_mem m -> cstr m p l -> (length l < n)%nat -> legal nm -> obj_id_cmp_loop n m p nm = 0 <-> l = nm.
Proof.
  intros Hm. revert n p nm. induction l as [|c l IH]; intros n p nm Hs Hn Hnm.
  - apply cstr_nil in Hs. destruct n as [|n]; [simpl in Hn; lia|]. cbn [obj_id_cmp_loop]. rewrite Hs. cbn [Z.eqb negb andb].
    destruct Hnm as [|q nm Hq Hnm]; cbn [hd]; [done|]. split; [|done]. intros E%s8_inj; unfold is_byte; lia.
  - apply cstr_cons in Hs as (Hc & Hc0 & Hs). destruct n as [|n]; [simpl in Hn; lia|]. cbn [obj_id_cmp_loop]. rewrite Hc.
    destruct (Z.eqb_spec c 0); [done|]. cbn [negb andb]. pose proof (Hm p) as Hb. rewrite Hc in Hb.
    destruct Hnm as [|q nm Hq Hnm]; cbn [hd tl].
    + destruct (Z.eqb_spec c 0); [done|]. split; [|done]. intros E%s8_inj; unfold is_byte in *; lia.
    + destruct (Z.eqb_spec c q) as [->|Hne].
      * rewrite IH; [|done|simpl in Hn; lia|done]. split; congruence.
      * split; [intros E%s8_inj; unfold is_byte in *; lia|congruence].
Qed.

Lemma name_is_inj m i a b : name_is m i a -> name_is m i b -> a = b.
Proof.
  intros [Ha _] [Hb _]. revert b Hb Ha. generalize (ent i). induction a as [|x a IH]; intros p [|y b] Hb Ha; [done|..].
  - apply cstr_nil in Ha. apply cstr_cons in Hb as (? & ? & _). congruence.
  - apply cstr_nil in Hb. apply cstr_cons in Ha as (? & ? & _). congruence.
  - apply cstr_cons in Ha as (? & ? & Ha), Hb as (? & ? & Hb). f_equal; [congruence|]. by eapply IH.
Qed.

Lemma first_from_spec P n i :
  match first_from P n i with
  | Some k => i <= k < i + Z.of_nat n /\ P k = true
  | None => forall j, i <= j < i + Z.of_nat n -> P j = false
  end.
Proof.
  revert i. induction n as [|n IH]; intros i; cbn [first_from]; [lia|]. destruct (P i) eqn:E; [split; [lia|done]|].
  specialize (IH (i + 1)). destruct (first_from P n (i + 1)) as [k|].
  - destruct IH. split; [lia|done].
  - intros j Hj. destruct (decide (j = i)) as [->|]; [done|]. apply IH. lia.
Qed.

(** ** The invariant *)

Definition tally (f : Z -> Z) (so : Z) : Z := foldr (fun i t => f i + t) 0 (seqZ 2 (slots so - 2)).

Record disk_ok (d : obj_device) : Prop := {
  ok_geo : geometry d;
  ok_ext : extents (memory_storage d) (store_offset (sb d));
  ok_super : occ (memory_storage d) 0 = true /\ name_is (memory_storage d) 0 SUPER_BLOCK_ID;
  ok_table : occ (memory_storage d) 1 = true /\ name_is (memory_storage d) 1 OBJECT_TABLE_ID;
  ok_names i : live (memory_storage d) (store_offset (sb d)) i -> exists nm, name_is (memory_storage d) i nm;
  ok_unique i j nm : 0 <= i < slots (store_offset (sb d)) -> 0 <= j < slots (store_offset (sb d)) ->
    occ (memory_storage d) i = true -> occ (memory_storage d) j = true ->
    name_is (memory_storage d) i nm -> name_is (memory_storage d) j nm -> i = j;
  ok_objects : occupied_objects (sb d) =
    u32 (2 + tally (fun i => if occ (memory_storage d) i then 1 else 0) (store_offset (sb d)));
  ok_lock : disklock d = false
}.

(** [bytes_occupied] counts the super block, the table and the objects. *)
Definition bytes_exact (d : obj_device) : Prop :=
  bytes_occupied (sb d) =
    u32 (store_offset (sb d) + tally (fun i => if occ (memory_storage d) i then sz (memory_storage d) i else 0) (store_offset (sb d))).

(** The object [nm] with contents [x] is in the store. *)
Definition holds (d : obj_device) (nm x : list Z) : Prop :=
  exists i, live (memory_storage d) (store_offset (sb d)) i /\ name_is (memory_storage d) i nm /\
            x = bytes (memory_storage d) (off (memory_storage d) i) (sz (memory_storage d) i).

(** A name a client may use. *)
Definition client_name (nm : list Z) : Prop :=
  legal nm /\ (length nm < 20)%nat /\ nm <> SUPER_BLOCK_ID /\ nm <> OBJECT_TABLE_ID.

Section lookup.
Context (d : obj_device) (D : disk_ok d).
Notation m := (memory_storage d).
Notation so := (store_offset (sb d)).
Let G := ok_geo d D.

Lemma table_has_two : 2 <= slots so.
Proof. destruct (g_store d G) as [H _]. by apply slots_bounds in H as [? _]. Qed.

Lemma occupied_named i : 0 <= i < slots so -> occ m i = true -> exists l, name_is m i l.
Proof.
  intros Hi Ho. destruct (decide (i = 0)) as [->|]; [eexists; apply (ok_super d D)|].
  destruct (decide (i = 1)) as [->|]; [eexists; apply (ok_table d D)|]. apply (ok_names d D). split; [lia|done].
Qed.

Lemma entry_matches_spec nm i : legal nm -> 0 <= i < slots so ->
  entry_matches d nm i = true <-> occ m i = true /\ name_is m i nm.
Proof.
  intros Hnm Hi. unfold entry_matches. rewrite (occupied_slot d G), (slot_place d G) by lia.
  destruct (occ m i) eqn:Eo; cbn [andb]; [|naive_solver]. destruct (occupied_named i Hi Eo) as (l & Hl & Hlen).
  rewrite Z.eqb_eq. unfold obj_id_cmp. rewrite (obj_id_cmp_loop_spec _ m (ent i) l nm);
    [|apply G|done|unfold OBJECT_ID_LENGTH, MAX_OBJECT_NAME_LENGTH; lia|done].
  split; [intros ->; split; [done|by split]|]. intros [_ H]. apply (name_is_inj m i); [by split|done].
Qed.

Lemma index_spec nm : legal nm ->
  match get_objects_table_index d nm with
  | Some i => 0 <= i < slots so /\ occ m i = true /\ name_is m i nm
  | None => forall i, 0 <= i < slots so -> occ m i = true -> ~ name_is m i nm
  end.
Proof.
  intros Hnm. unfold get_objects_table_index. rewrite (table_size d G). pose proof table_has_two.
  pose proof (first_from_spec (entry_matches d nm) (Z.to_nat (slots so)) 0) as F.
  destruct (first_from _ _ _) as [i|].
  - destruct F as [Hi Hm]. apply entry_matches_spec in Hm; [|done|lia]. split; [lia|done].
  - intros i Hi Ho Hn. assert (entry_matches d nm i = true) as E by (by apply entry_matches_spec). by rewrite F in E by lia.
Qed.

Lemma client_live nm i : client_name nm -> 0 <= i < slots so -> occ m i = true -> name_is m i nm -> live m so i.
Proof.
  intros (_ & _ & H1 & H2) Hi Ho Hn. split; [|done]. destruct (decide (i = 0)) as [->|].
  { destruct H1. apply (name_is_inj m 0); [done|apply (ok_super d D)]. }
  destruct (decide (i = 1)) as [->|]; [|lia]. destruct H2. apply (name_is_inj m 1); [done|apply (ok_table d D)].
Qed.

(** The index of a client's object, found exactly when it is there. *)
Lemma client_index nm : client_name nm ->
  match get_objects_table_index d nm with
  | Some i => live m so i /\ name_is m i nm /\ holds d nm (bytes m (off m i) (sz m i))
  | None => forall i, 0 <= i < slots so -> occ m i = true -> ~ name_is m i nm
  end.
Proof.
  intros Hc. pose proof (index_spec nm (proj1 Hc)) as H. destruct (get_objects_table_index d nm) as [i|]; [|done].
  destruct H as (Hi & Ho & Hn). pose proof (client_live nm i Hc Hi Ho Hn) as L. split_and!; [done..|]. by exists i.
Qed.

Lemma holds_fun nm x y : holds d nm x -> holds d nm y -> x = y.
Proof.
  intros (i & [Hi Oi] & Ni & ->) (j & [Hj Oj] & Nj & ->). by rewrite (ok_unique d D i j nm) by (done || lia).
Qed.
End lookup.

(** ** Changes of one entry *)

Lemma ent_apart i j : i <> j -> ent i + 32 <= ent j \/ ent j + 32 <= ent i.
Proof. unfold ent. lia. Qed.

(** The two memories have the same entry [i]. *)
Definition same_entry (m m' : mem) (i : Z) : Prop := forall x, ent i <= x < ent i + 32 -> m' x = m x.

Lemma same_entry_fields m m' i : same_entry m m' i ->
  off m' i = off m i /\ sz m' i = sz m i /\ occ m' i = occ m i /\ (forall nm, name_is m' i nm <-> name_is m i nm).
Proof.
  intros H. unfold off, sz, occ. split_and!.
  - apply ld32_ext. intros. apply H. lia.
  - apply ld32_ext. intros. apply H. lia.
  - do 2 f_equal. apply ld32_ext. intros. apply H. lia.
  - intros nm. unfold name_is. split; intros [Hs Hl]; (split; [|done]); (eapply cstr_ext; [|exact Hs]); intros x Hx; [|symmetry]; apply H; lia.
Qed.

(** Outside of the super block, of entry [k] and of the room from [a] on nothing changed. *)
Definition touched (m m' : mem) (k a n : Z) : Prop :=
  forall x, TABLE <= x -> ~ (ent k <= x < ent k + 32) -> ~ (a <= x < a + n) -> m' x = m x.

Lemma tally_ext f g so : (forall i, 2 <= i < slots so -> f i = g i) -> tally f so = tally g so.
Proof.
  intros H. unfold tally. assert (forall i, i ∈ seqZ 2 (slots so - 2) -> f i = g i) as H'.
  { intros i Hi. apply elem_of_seqZ in Hi. apply H. lia. }
  revert H'. generalize (seqZ 2 (slots so - 2)). intros l. induction l as [|i l IH]; intros Hl; [done|].
  cbn [foldr]. rewrite (Hl i), IH by set_solver. done.
Qed.

Lemma tally_change f g so k : 2 <= k < slots so -> (forall i, 2 <= i < slots so -> i <> k -> g i = f i) ->
  tally g so = tally f so - f k + g k.
Proof.
  intros Hk H. unfold tally. assert (k ∈ seqZ 2 (slots so - 2)) as Hin by (apply elem_of_seqZ; lia).
  pose proof (NoDup_seqZ 2 (slots so - 2)) as Hnd.
  assert (forall i, i ∈ seqZ 2 (slots so - 2) -> i <> k -> g i = f i) as H'.
  { intros i Hi. apply elem_of_seqZ in Hi. apply H. lia. }
  revert Hin Hnd H'. generalize (seqZ 2 (slots so - 2)). intros l. induction l as [|i l IH]; intros Hin Hnd Hl; [set_solver|].
  apply NoDup_cons in Hnd as [Hni Hnd]. cbn [foldr]. destruct (decide (i = k)) as [->|Hne].
  - assert (forall r, foldr (fun i t => g i + t) r l = foldr (fun i t => f i + t) r l) as E; [|rewrite E; lia].
    clear IH Hin Hnd. induction l as [|j l IHl]; intros r; [done|]. cbn [foldr].
    rewrite (Hl j), IHl; [done|set_solver..].
  - rewrite IH, (Hl i); [lia|set_solver..].
Qed.

Lemma slots_grown so : TABLE + 64 <= so -> slots (so + 32) = slots so + 1.
Proof. unfold slots, TABLE, sizeof_objsuperblock, sizeof_vfs_superblock. intros. Z.div_mod_to_equations. lia. Qed.

Lemma tally_grown f so : TABLE + 64 <= so -> tally f (so + 32) = tally f so + f (slots so).
Proof.
  intros H. destruct (slots_bounds so H) as [Hs _]. unfold tally. rewrite (slots_grown so H).
  replace (slots so + 1 - 2) with (slots so - 2 + 1) by lia. rewrite (seqZ_app 2 (slots so - 2) 1) by lia.
  rewrite foldr_app. change (seqZ (2 + (slots so - 2)) 1) with [2 + (slots so - 2)]. replace (2 + (slots so - 2)) with (slots so) by lia.
  cbn [foldr]. generalize (seqZ 2 (slots so - 2)). intros l. induction l as [|i l IH]; cbn [foldr]; [lia|]. rewrite IH. lia.
Qed.

Lemma u32_exchange x y z : u32 (u32 x - y + z) = u32 (x - y + z).
Proof. replace (u32 x - y + z) with (u32 x + (z - y)) by lia. rewrite u32_add_l. f_equal. lia. Qed.

(** An entry [k] of the client that changes, with room for data it owns. *)
Section change.
Context (d d' : obj_device) (D : disk_ok d) (G' : geometry d').
Context (Eso : store_offset (sb d') = store_offset (sb d)) (Elk : disklock d' = false).
Context (k a n : Z) (Hk : 2 <= k < slots (store_offset (sb d))).
Context (T : touched (memory_storage d) (memory_storage d') k a n).
Context (Ha : n <= 0 \/ store_offset (sb d) <= a).
Notation m := (memory_storage d).
Notation m' := (memory_storage d').
Notation so := (store_offset (sb d)).

Lemma ent_below i : 0 <= i < slots so -> TABLE <= ent i /\ ent i + 32 <= so.
Proof. intros Hi. destruct (g_store d (ok_geo d D)) as [H _]. destruct (slots_bounds so H). unfold ent in *. lia. Qed.

Lemma others_same i : 0 <= i < slots so -> i <> k -> same_entry m m' i.
Proof.
  intros Hi Hne x Hx. pose proof (ent_below i Hi). pose proof (ent_apart i k Hne). apply T; lia.
Qed.

Lemma live_other i : i <> k -> live m' so i <-> live m so i.
Proof.
  intros Hne. unfold live. split; intros [Hi Ho]; (split; [done|]);
    destruct (same_entry_fields m m' i) as (_ & _ & E & _); [apply others_same; lia|congruence|apply others_same; lia|congruence].
Qed.

Lemma object_same i : live m so i -> i <> k -> a + n <= off m i \/ off m i + sz m i <= a \/ n <= 0 ->
  off m' i = off m i /\ sz m' i = sz m i /\ bytes m' (off m' i) (sz m' i) = bytes m (off m i) (sz m i).
Proof.
  intros Hi Hne Hfree. destruct (same_entry_fields m m' i) as (Eo & Es & _ & _); [apply others_same; [destruct Hi; lia|done]|].
  split_and!; [done..|]. rewrite Eo, Es. apply bytes_ext. intros x Hx.
  destruct (ext_in _ _ (ok_ext d D) i Hi) as (? & ? & ? & _). pose proof (ent_below k ltac:(lia)). apply T; lia.
Qed.

Lemma system_same i : i = 0 \/ i = 1 -> occ m' i = occ m i /\ (forall nm, name_is m' i nm <-> name_is m i nm).
Proof.
  intros Hi. pose proof (table_has_two d D). destruct (same_entry_fields m m' i) as (_ & _ & Eo & En); [apply others_same; lia|]. done.
Qed.

Lemma entries_same i : 2 <= i < slots so -> i <> k ->
  off m' i = off m i /\ sz m' i = sz m i /\ occ m' i = occ m i /\ (forall nm, name_is m' i nm <-> name_is m i nm).
Proof. intros Hi Hne. apply same_entry_fields, others_same; [lia|done]. Qed.

(** The invariant, from what holds of the entry [k]. *)
Lemma change_ok nm (free : free_room m so a n) :
  (occ m' k = true -> name_is m' k nm /\ off m' k = a /\ sz m' k = n /\ placed so a n /\
     (forall i, 0 <= i < slots so -> i <> k -> occ m i = true -> ~ name_is m i nm)) ->
  occupied_objects (sb d') = u32 (occupied_objects (sb d) - (if occ m k then 1 else 0) + (if occ m' k then 1 else 0)) ->
  disk_ok d'.
Proof.
  intros Hnew Hob. pose proof (ok_ext d D) as X.
  assert (forall i, live m' so i -> i <> k -> live m so i) as Hlo by (intros i Hi Hne; by apply live_other).
  constructor; rewrite ?Eso; try done.
  - constructor.
    + intros i Hi. destruct (decide (i = k)) as [->|Hne].
      * destruct Hi as [_ Ho]. destruct (Hnew Ho) as (_ & -> & -> & ? & _). done.
      * destruct (entries_same i) as (-> & -> & _); [by destruct Hi|done|]. by apply (ext_in _ _ X), Hlo.
    + intros i j Hi Hj Hne. destruct (decide (i = k)) as [->|Hik]; [|destruct (decide (j = k)) as [->|Hjk]].
      * destruct Hi as [_ Ho]. destruct (Hnew Ho) as (_ & -> & -> & _). destruct (entries_same j) as (-> & -> & _); [by destruct Hj|done|].
        apply free. by apply Hlo.
      * destruct Hj as [_ Ho]. destruct (Hnew Ho) as (_ & -> & -> & _). destruct (entries_same i) as (-> & -> & _); [by destruct Hi|done|].
        destruct (free i (Hlo i Hi Hne)); auto.
      * destruct (entries_same i) as (-> & -> & _); [by destruct Hi|done|]. destruct (entries_same j) as (-> & -> & _); [by destruct Hj|done|].
        by apply (ext_apart _ _ X); [apply Hlo..|].
  - destruct (system_same 0) as [-> E]; [auto|]. rewrite E. apply (ok_super d D).
  - destruct (system_same 1) as [-> E]; [auto|]. rewrite E. apply (ok_table d D).
  - intros i Hi. destruct (decide (i = k)) as [->|Hne]; [destruct Hi as [_ Ho]; exists nm; by apply Hnew|].
    destruct (ok_names d D i (Hlo i Hi Hne)) as [l Hl]. exists l. destruct (entries_same i) as (_ & _ & _ & E); [by destruct Hi|done|]. by apply E.
  - intros i j l Hi Hj Oi Oj Ni Nj. destruct (decide (i = j)) as [|Hne]; [done|]. exfalso.
    assert (forall x y, 0 <= x < slots so -> 0 <= y < slots so -> occ m' x = true -> occ m' y = true -> name_is m' x l ->
      name_is m' y l -> x <> k \/ y <> k -> x = k -> False) as Hone.
    { intros x y Hx Hy Ox Oy Nx Ny Hor ->. destruct Hor as [|Hyk]; [done|]. destruct (Hnew Ox) as (Nk & _ & _ & _ & Hno).
      destruct (same_entry_fields m m' y) as (_ & _ & Eo & En); [by apply others_same|].
      apply (Hno y Hy Hyk); [congruence|]. apply En. by rewrite (name_is_inj m' k nm l). }
    destruct (decide (i = k)) as [Hik|]; [apply (Hone i j); auto; right; congruence|].
    destruct (decide (j = k)) as [Hjk|]; [apply (Hone j i); auto|].
    destruct (same_entry_fields m m' i) as (_ & _ & Eo & En); [by apply others_same|].
    destruct (same_entry_fields m m' j) as (_ & _ & Eo' & En'); [by apply others_same|].
    apply Hne, (ok_unique d D i j l); [done..|congruence|congruence|by apply En|by apply En'].
  - rewrite Hob, (ok_objects d D). rewrite (tally_change (fun i => if occ m i then 1 else 0) (fun i => if occ m' i then 1 else 0) so k Hk).
    + rewrite u32_exchange. f_equal. cbv beta. lia.
    + intros i Hi Hne. destruct (entries_same i Hi Hne) as (_ & _ & -> & _). done.
Qed.

Lemma change_bytes :
  bytes_occupied (sb d') = u32 (bytes_occupied (sb d) - (if occ m k then sz m k else 0) + (if occ m' k then sz m' k else 0)) ->
  bytes_exact d -> bytes_exact d'.
Proof.
  unfold bytes_exact. intros -> ->. rewrite Eso.
  rewrite (tally_change (fun i => if occ m i then sz m i else 0) (fun i => if occ m' i then sz m' i else 0) so k Hk).
  - rewrite u32_exchange. f_equal. cbv beta. lia.
  - intros i Hi Hne. destruct (entries_same i Hi Hne) as (_ & -> & -> & _). done.
Qed.

Definition holds_other (l x : list Z) : Prop :=
  exists i, live m so i /\ i <> k /\ name_is m i l /\ x = bytes m (off m i) (sz m i).

Lemma change_holds nm (free : free_room m so a n) :
  (occ m' k = true -> name_is m' k nm /\ off m' k = a /\ sz m' k = n) ->
  forall l x, holds d' l x <-> (occ m' k = true /\ l = nm /\ x = bytes m' a n) \/ holds_other l x.
Proof.
  intros Hnew l x. unfold holds. rewrite Eso. split.
  - intros (i & Hi & Hn & ->). destruct (decide (i = k)) as [->|Hne].
    + left. destruct Hi as [_ Ho]. destruct (Hnew Ho) as (Nk & <- & <-). split_and!; [done|by apply (name_is_inj m' k)|done].
    + right. exists i. pose proof (proj1 (live_other i Hne) Hi) as L. destruct (object_same i L Hne) as (_ & _ & E); [destruct (free i L); auto|].
      rewrite E. destruct (entries_same i) as (_ & _ & _ & En); [by destruct Hi|done|]. split_and!; [done..|by apply En|done].
  - intros [(Ho & -> & ->)|(i & L & Hne & Hn & ->)].
    + exists k. destruct (Hnew Ho) as (Nk & -> & ->). split_and!; done.
    + exists i. destruct (object_same i L Hne) as (_ & _ & E); [destruct (free i L); auto|]. rewrite E.
      destruct (entries_same i) as (_ & _ & _ & En); [by destruct L|done|]. split_and!; [by apply live_other|by apply En|done].
Qed.

(** An entry that was free gets an object. *)
Lemma put_ok nm :
  occ m k = false -> occ m' k = true -> name_is m' k nm -> off m' k = a -> sz m' k = n -> placed so a n -> free_room m so a n ->
  (forall i, 0 <= i < slots so -> occ m i = true -> ~ name_is m i nm) ->
  occupied_objects (sb d') = occupied_objects (sb d) +u 1 ->
  disk_ok d' /\ (bytes_occupied (sb d') = bytes_occupied (sb d) +u n -> bytes_exact d -> bytes_exact d') /\
  (forall l x, holds d' l x <-> (l = nm /\ x = bytes m' a n) \/ holds d l x).
Proof.
  intros Ok Ok' Nk Eo Es Hp free Hno Hob. split_and!.
  - apply (change_ok nm free).
    + intros _. split_and!; try done. intros i Hi _. by apply Hno.
    + rewrite Ok, Ok', Hob. f_equal. lia.
  - intros Hby. apply change_bytes. rewrite Ok, Ok', Es, Hby. f_equal. lia.
  - intros l x. rewrite (change_holds nm free) by done. split.
    + intros [(_ & ? & ?)|(i & L & _ & Ni & Ex)]; [auto|]. right. exists i. exact (conj L (conj Ni Ex)).
    + intros [[? ?]|(i & L & Ni & Ex)]; [auto|]. right. exists i. refine (conj L (conj _ (conj Ni Ex))).
      intros ->. destruct L. congruence.
Qed.

(** An entry becomes free. *)
Lemma drop_ok nm :
  n <= 0 -> a = STORAGE_DEVICE_SIZE -> occ m k = true -> name_is m k nm -> occ m' k = false ->
  occupied_objects (sb d') = occupied_objects (sb d) -u 1 -> bytes_occupied (sb d') = bytes_occupied (sb d) -u sz m k ->
  disk_ok d' /\ (bytes_exact d -> bytes_exact d') /\ (forall l x, holds d' l x <-> l <> nm /\ holds d l x).
Proof.
  intros Hn Ea Ok Nk Ok' Hob Hby.
  assert (free_room m so a n) as free by (intros i Hi; destruct (ext_in _ _ (ok_ext d D) i Hi) as (? & ? & ? & _); lia).
  split_and!.
  - apply (change_ok nm free); [congruence|rewrite Ok, Ok', Hob; f_equal; lia].
  - apply change_bytes. rewrite Ok, Ok', Hby. f_equal. lia.
  - intros l x. rewrite (change_holds nm free) by congruence. split.
    + intros [(? & _)|(i & L & Hne & Hi & ->)]; [congruence|]. split; [|by exists i]. intros ->. apply Hne.
      destruct L. by apply (ok_unique d D i k nm); [lia..| | | |].
    + intros [Hne (i & L & Hi & ->)]. right. exists i. refine (conj L (conj _ (conj Hi eq_refl))). intros ->. apply Hne. by apply (name_is_inj m k).
Qed.
End change.

(** ** The table grows by an entry *)

Lemma live_grown m so i : TABLE + 64 <= so -> occ m (slots so) = false -> live m (so + 32) i <-> live m so i.
Proof.
  intros H Ho. unfold live. rewrite (slots_grown so H). split; intros [Hi E]; (split; [|done]); [|lia].
  assert (i <> slots so) by congruence. lia.
Qed.

Lemma grow_ok d :
  disk_ok d -> let so := store_offset (sb d) in
  occ (memory_storage d) (slots so) = false -> so + 32 <= STORAGE_DEVICE_SIZE ->
  (forall i, live (memory_storage d) so i -> so + 32 <= off (memory_storage d) i) ->
  let d' := set_bytes (bytes_occupied (sb d) +u 32) (set_store (so + 32) d) in
  disk_ok d' /\ (bytes_exact d -> bytes_exact d') /\ (forall l x, holds d' l x <-> holds d l x).
Proof.
  intros D so Ho Hs Hoff d'. pose proof (ok_geo d D) as G. destruct (g_store d G) as [Hs1 Hs2]. pose proof (ok_ext d D) as X.
  assert (forall i, live (memory_storage d) (so + 32) i <-> live (memory_storage d) so i) as L by (intros i; by apply live_grown).
  destruct (slots_bounds so Hs1) as [Ht _]. split_and!.
  - constructor; cbn [memory_storage sb store_offset d' set_bytes set_store set_sb disklock occupied_objects bytes_occupied];
      try apply D.
    + destruct G. by constructor; [..|cbn; fold so; lia| | |].
    + constructor; intros i.
      * intros Hi%L. destruct (ext_in _ _ X i Hi) as (? & ? & ? & ?). split_and!; [by apply Hoff|done..].
      * intros j Hi%L Hj%L. by apply (ext_apart _ _ X).
    + intros i Hi%L. by apply (ok_names d D).
    + intros i j nm. rewrite (slots_grown so Hs1). intros Hi Hj Oi Oj. assert (i <> slots so) by congruence.
      assert (j <> slots so) by congruence. apply (ok_unique d D); [fold so; lia..|done|done].
    + rewrite (tally_grown _ so Hs1), Ho, Z.add_0_r. apply (ok_objects d D).
  - unfold bytes_exact. cbn [memory_storage sb store_offset d' set_bytes set_store set_sb bytes_occupied]. intros ->.
    rewrite (tally_grown _ so Hs1), Ho, u32_add_l. fold so. f_equal. lia.
  - intros l x. unfold holds. cbn [memory_storage sb store_offset d' set_bytes set_store set_sb]. by setoid_rewrite L.
Qed.

(** ** The operations *)

Lemma geometry_same d d' : geometry d -> wf_mem (memory_storage d') ->
  storage_device_size (sb d') = storage_device_size (sb d) -> objects_table_offset (sb d') = objects_table_offset (sb d) ->
  store_offset (sb d') = store_offset (sb d) -> vfs_sb (sb d') = vfs_sb (sb d) -> geometry d'.
Proof. intros [] Hm E1 E2 E3 E4. constructor; rewrite ?E1, ?E2, ?E3, ?E4; done. Qed.

Lemma write_super_block_run d : geometry d ->
  exists m', write_super_block d = inr (tt, set_mem m' d) /\ wf_mem m' /\ (forall x, TABLE <= x -> m' x = memory_storage d x).
Proof.
  intros G. destruct (sb_bytes_spec (sb d)) as [Hl Hb]; [apply G..|].
  exists (blit (memory_storage d) 0 (sb_bytes (sb d))). split_and!.
  - unfold write_super_block. step (getS_run d). apply store_bytes_run; [lia|]. rewrite Hl. unfold STORAGE_DEVICE_SIZE, TABLE, sizeof_objsuperblock, sizeof_vfs_superblock. lia.
  - apply blit_wf; [apply G|done].
  - intros x Hx. apply blit_out. lia.
Qed.

Lemma acquire_run d : disklock d = false -> acquiresleep_disk d = inr (tt, set_lock true d).
Proof. intros H. unfold acquiresleep_disk. step (getS_run d). by rewrite H. Qed.

Lemma index_locked d l nm : get_objects_table_index (set_lock l d) nm = get_objects_table_index d nm.
Proof. reflexivity. Qed.

Lemma unlock_lock d : disklock d = false -> set_lock false (set_lock true d) = d.
Proof. destruct d as [l h m b]. cbn. by intros ->. Qed.

Lemma short_name nm : client_name nm -> (MAX_OBJECT_NAME_LENGTH <? slen nm) = false.
Proof. intros (_ & H & _). apply Z.ltb_ge. unfold slen, MAX_OBJECT_NAME_LENGTH. lia. Qed.

(** A word of entry [k] that lies in the storage. *)
Lemma entry_word_run d k w v d1 : disk_ok d -> 0 <= k < slots (store_offset (sb d)) -> 0 <= w <= 28 ->
  store_word (ent k + w) v d1 = inr (tt, set_mem (st32 (memory_storage d1) (ent k + w) v) d1).
Proof.
  intros D Hk Hw. pose proof (ent_below d D k Hk). destruct (g_store d (ok_geo d D)).
  apply store_word_run; unfold TABLE, sizeof_objsuperblock, sizeof_vfs_superblock in *; lia.
Qed.

Lemma occ_word m m' k v : is_u32 v -> (forall x, TABLE <= x -> m' x = st32 m (ent k + 28) v x) -> 0 <= k -> occ m' k = negb (v =? 0).
Proof.
  intros Hv Hx Hk. unfold occ. do 2 f_equal. rewrite <- (ld32_st32 m (ent k + 28) v Hv). apply ld32_ext. intros x Hr.
  apply Hx. unfold ent in *. lia.
Qed.

Definition same_objects (d d' : obj_device) : Prop := forall l x, holds d' l x <-> holds d l x.

Definition absent (d : obj_device) (nm : list Z) : Prop := forall x, ~ holds d nm x.

Lemma absent_index d nm : (forall i, 0 <= i < slots (store_offset (sb d)) -> occ (memory_storage d) i = true -> ~ name_is (memory_storage d) i nm) ->
  absent d nm.
Proof. intros H x (i & [Hi Ho] & Hn & _). by apply (H i); [lia| |]. Qed.

Lemma entry_fields_at k : disk_offset_at (ent k) = ent k + 20 /\ size_at (ent k) = ent k + 24 /\ occupied_at (ent k) = ent k + 28.
Proof. unfold disk_offset_at, size_at, occupied_at, OBJECT_ID_LENGTH, MAX_OBJECT_NAME_LENGTH. lia. Qed.

Lemma delete_object_run d nm : disk_ok d -> client_name nm ->
  exists err d', delete_object nm d = inr (err, d') /\
    ((err = OBJECT_NOT_EXISTS /\ d' = d /\ absent d nm) \/
     (err = NO_ERR /\ disk_ok d' /\ store_offset (sb d') = store_offset (sb d) /\ (bytes_exact d -> bytes_exact d') /\
      ~ absent d nm /\ (forall l x, holds d' l x <-> l <> nm /\ holds d l x))).
Proof.
  intros D Hc. unfold delete_object, check_delete_object_validality. rewrite (short_name nm Hc). cbn [Z.eqb NO_ERR negb].
  step (acquire_run d (ok_lock d D)). step (getS_run (set_lock true d)). rewrite index_locked.
  pose proof (client_index d D nm Hc) as Hi. destruct (get_objects_table_index d nm) as [k|].
  2:{ eexists _, _. split; [done|]. left. rewrite (unlock_lock d (ok_lock d D)). split_and!; [done..|by apply absent_index]. }
  destruct Hi as (L & Nk & Hh). pose proof L as [Hk Ok]. pose proof (ok_geo d D) as G.
  change (get_objects_table_entry (set_lock true d) k) with (get_objects_table_entry d k).
  change (entry_size (set_lock true d) k) with (entry_size d k).
  rewrite (slot_place d G), (entry_size_slot d G) by lia. destruct (entry_fields_at k) as (_ & _ & ->).
  step (entry_word_run d k 28 0 (set_lock true d) D ltac:(lia) ltac:(lia)). rewrite !modS_bind.
  set (d1 := set_bytes _ _).
  assert (geometry d1) as G1 by (apply (geometry_same d); [done|cbn; apply st32_wf, G|done..]).
  destruct (write_super_block_run d1 G1) as (m' & E & Hw & Hm). step E.
  eexists _, _. split; [done|]. right.
  destruct (drop_ok d (set_lock false (set_mem m' d1)) D) with (k := k) (a := STORAGE_DEVICE_SIZE) (n := 0) (nm := nm) as (D' & B' & H');
    try done.
  - apply (geometry_same d); [done|exact Hw|done..].
  - intros x Hx He _. cbn. rewrite Hm by done. cbn. apply st32_other. lia.
  - left. lia.
  - refine (occ_word (memory_storage d) m' k 0 _ Hm _); [unfold is_u32; lia|lia].
  - split_and!; try done. intros Ha. by apply (Ha _ Hh).
Qed.

(** The memory after entry [k] got the name [nm] and the data [x] at [a]. *)
Record filled (m m' : mem) (k a n : Z) (nm x : list Z) : Prop := {
  f_touched : touched m m' k a n;
  f_name : name_is m' k nm;
  f_off : off m' k = a;
  f_size : sz m' k = n;
  f_occ : occ m' k = true;
  f_data : bytes m' a n = x;
  f_wf : wf_mem m'
}.

Lemma name_stored m k nm : client_name nm -> bytes_at m (ent k) (nm ++ [0]) -> name_is m k nm.
Proof.
  intros (Hl & Hn & _) Hb. split; [|done]. split; [done|]. eapply Forall_impl; [exact Hl|]. cbv beta. lia.
Qed.

Lemma id_bytes nm : client_name nm -> take (Z.to_nat (obj_id_bytes nm)) (nm ++ [0]) = nm ++ [0].
Proof.
  intros (_ & Hn & _). apply take_ge. rewrite length_app. cbn [length]. unfold obj_id_bytes, slen, MAX_OBJECT_NAME_LENGTH.
  zcases; lia.
Qed.

Lemma name_bytes nm : client_name nm -> Forall is_byte (nm ++ [0]).
Proof.
  intros (Hl & _ & _). apply Forall_app. split; [|repeat constructor; unfold is_byte; lia].
  eapply Forall_impl; [exact Hl|]. unfold is_byte. cbv beta. lia.
Qed.

(** The data behind the table: what the copy leaves of the memory. *)
Lemma data_length bs n : whole bs -> 0 <= n <= BSIZE * Z.of_nat (length bs) ->
  Z.of_nat (length (take (Z.to_nat n) (contents bs))) = n.
Proof. intros Hw Hn. rewrite length_take. pose proof (contents_length bs Hw). lia. Qed.

Lemma data_bytes bs n : whole bs -> Forall is_byte (take n (contents bs)).
Proof. intros Hw. apply Forall_take, contents_bytes, Hw. Qed.

(** Follows a byte back through stores elsewhere. *)
Ltac elsewhere := repeat first [rewrite st32_other by lia | rewrite blit_out by lia].

Lemma filled_chain m m4 m6 k a n nm x :
  client_name nm -> wf_mem m -> wf_mem m6 -> 0 <= k -> is_u32 a -> is_u32 n -> ent k + 32 <= a -> Z.of_nat (length x) = n ->
  let m3 := st32 (st32 (blit m (ent k) (nm ++ [0])) (ent k + 20) a) (ent k + 24) n in
  (forall y, m4 y = blit m3 a x y) -> (forall y, TABLE <= y -> m6 y = st32 m4 (ent k + 28) 1 y) ->
  filled m m6 k a n nm x.
Proof.
  intros Hc Hm Hw6 Hk Hua Hun Ha Hx m3 H4 H6. assert (TABLE <= ent k) by (unfold ent; lia).
  assert (Z.of_nat (length (nm ++ [0])) <= 20) as Hln by (destruct Hc as (_ & ? & _); rewrite length_app; cbn [length]; lia).
  constructor.
  - intros y Hy He Hd. rewrite H6, st32_other, H4, (blit_out m3) by lia. unfold m3. by elsewhere.
  - apply name_stored; [done|]. eapply bytes_at_ext; [|apply (bytes_at_blit m (ent k))]. intros y Hy. cbv beta.
    rewrite H6, st32_other, H4, (blit_out m3) by lia. unfold m3. by rewrite !st32_other by lia.
  - unfold off. rewrite <- (ld32_st32 (blit m (ent k) (nm ++ [0])) (ent k + 20) a Hua). apply ld32_ext. intros y Hy.
    rewrite H6, st32_other, H4, (blit_out m3) by lia. unfold m3. by rewrite st32_other by lia.
  - unfold sz. rewrite <- (ld32_st32 (st32 (blit m (ent k) (nm ++ [0])) (ent k + 20) a) (ent k + 24) n Hun). apply ld32_ext.
    intros y Hy. by rewrite H6, st32_other, H4, (blit_out m3) by lia.
  - rewrite (occ_word m4 m6 k 1); [done|unfold is_u32; lia|done|done].
  - eapply bytes_of_blit; [done|]. intros y Hy. rewrite H6, st32_other, H4 by lia. reflexivity.
  - done.
Qed.

Lemma fill_run d k a nm bs n :
  geometry d -> client_name nm -> whole bs -> let so := store_offset (sb d) in
  2 <= k < slots so -> so <= a -> 0 <= n <= BSIZE * Z.of_nat (length bs) -> a + n <= STORAGE_DEVICE_SIZE ->
  exists bs' m',
    (store_bytes (ent k) (take (Z.to_nat (obj_id_bytes nm)) (nm ++ [0])) ;;
     store_word (disk_offset_at (ent k)) a ;;
     store_word (size_at (ent k)) n ;;
     bufs ← copy_bufs_vector_to_disk a bs n;
     store_word (occupied_at (ent k)) 1 ;;
     modS (fun d => set_bytes (bytes_occupied (sb d) +u n) d) ;;
     modS (fun d => set_objects (occupied_objects (sb d) +u 1) d) ;;
     write_super_block ;;
     mret (NO_ERR, bufs)) d
    = inr ((NO_ERR, bs'), set_mem m' (set_objects (occupied_objects (sb d) +u 1) (set_bytes (bytes_occupied (sb d) +u n) d))) /\
    filled (memory_storage d) m' k a n nm (take (Z.to_nat n) (contents bs)).
Proof.
  intros G Hc Hw so Hk Ha Hn Hs. destruct (g_store d G) as [Hs1 Hs2]. fold so in Hs1, Hs2. destruct (slots_bounds so Hs1) as (_ & He & _).
  assert (TABLE <= ent k /\ ent k + 32 <= so) as [Hk1 Hk2] by (unfold ent in *; lia).
  assert (0 < TABLE) as HT by done.
  assert (Z.of_nat (length (nm ++ [0])) <= 20) as Hln by (destruct Hc as (_ & ? & _); rewrite length_app; cbn [length]; lia).
  rewrite (id_bytes nm Hc). destruct (entry_fields_at k) as (-> & -> & ->).
  step (store_bytes_run (ent k) (nm ++ [0]) d ltac:(lia) ltac:(lia)). step (store_word_run (ent k + 20) a (set_mem (blit (memory_storage d) (ent k) (nm ++ [0])) d) ltac:(lia) ltac:(lia)).
  erewrite bind_run; [|apply store_word_run; lia]. cbv beta zeta.
  edestruct (copy_bufs_run a bs n) as (bs' & m4 & E4 & H4); [done|lia..|]. step E4.
  erewrite bind_run; [|apply store_word_run; lia]. cbv beta zeta. rewrite !modS_bind.
  assert (wf_mem m4) as Hw4.
  { intros y. rewrite H4. apply blit_wf; [|by apply data_bytes]. cbn. apply st32_wf, st32_wf, blit_wf; [apply G|by apply name_bytes]. }
  edestruct write_super_block_run as (m6 & E6 & Hw6 & H6); [|step E6].
  { apply (geometry_same d); [done|cbn; by apply st32_wf|done..]. }
  exists bs', m6. split; [done|]. apply (filled_chain _ m4); try done; try lia.
  - apply G.
  - unfold is_u32, STORAGE_DEVICE_SIZE in *. lia.
  - unfold is_u32, STORAGE_DEVICE_SIZE in *. lia.
  - by apply data_length.
Qed.

(** No [n] free bytes in a row behind the table. *)
Definition no_room (d : obj_device) (n : Z) : Prop :=
  forall b, store_offset (sb d) <= b -> b + n <= STORAGE_DEVICE_SIZE -> ~ free_room (memory_storage d) (store_offset (sb d)) b n.

(** What the stores leave alone, whether they fault or not. *)
Definition faults (e : stop) : Prop := e = Fault.
Definition keeps {A} (d : obj_device) (P : A -> Prop) (op : M obj_device A) : Prop :=
  okp faults op d (fun r d' => sb d' = sb d /\ P r).

Lemma store_bytes_keeps a l d : keeps d (fun _ => a <= STORAGE_DEVICE_SIZE) (store_bytes a l).
Proof.
  unfold keeps, okp, store_bytes, in_storage. destruct (Z.leb_spec 0 a); cbn [andb]; [|done].
  destruct (Z.leb_spec (a + Z.of_nat (length l)) STORAGE_DEVICE_SIZE); [|done]. mrun. split; [done|lia].
Qed.

Lemma store_word_keeps a v d : keeps d (fun _ => True) (store_word a v).
Proof. unfold keeps, okp, store_word. by destruct (in_storage a 4). Qed.

Lemma keeps_bind {A B} d (P : A -> Prop) (Q : B -> Prop) (op : M obj_device A) (f : A -> M obj_device B) :
  keeps d P op -> (forall x d1, sb d1 = sb d -> P x -> keeps d1 Q (f x)) -> keeps d Q (op ≫= f).
Proof.
  intros H Hf. apply okp_bind. eapply okp_mono; [exact H|done|]. intros x d1 [E Hx].
  eapply okp_mono; [apply (Hf x d1 E Hx)|done|]. intros y d2 [E2 Hy]. split; [congruence|done].
Qed.

Lemma copy_loop_keeps a bs n c d : keeps d (fun _ => bs <> [] -> a + c <= STORAGE_DEVICE_SIZE) (copy_bufs_loop a bs n c).
Proof.
  revert c d. induction bs as [|b bs IH]; intros c d; cbn [copy_bufs_loop]; [by apply okp_ret|].
  apply (keeps_bind d (fun _ => a + c <= STORAGE_DEVICE_SIZE)); [apply store_bytes_keeps|]. intros _ d1 _ Hc.
  eapply keeps_bind; [apply IH|]. intros bs' d2 _ _. apply okp_ret. split; [done|]. intros _. exact Hc.
Qed.

Lemma copy_bufs_keeps a bs n d : 0 < n -> bs <> [] -> keeps d (fun _ => a <= STORAGE_DEVICE_SIZE) (copy_bufs_vector_to_disk a bs n).
Proof.
  intros Hn Hbs. unfold copy_bufs_vector_to_disk. rewrite (proj2 (Z.ltb_lt 0 n) Hn).
  eapply okp_mono; [apply copy_loop_keeps|done|]. intros r d' [E H]. split; [done|]. specialize (H Hbs). lia.
Qed.

(** The filling of an entry, wherever the room is: it faults when that lies
    outside of the storage, and keeps the limit of the table. *)
Lemma fill_partial d k a nm bs n : 0 < n -> bs <> [] ->
  okp faults
    (store_bytes (ent k) (take (Z.to_nat (obj_id_bytes nm)) (nm ++ [0])) ;;
     store_word (disk_offset_at (ent k)) a ;;
     store_word (size_at (ent k)) n ;;
     bufs ← copy_bufs_vector_to_disk a bs n;
     store_word (occupied_at (ent k)) 1 ;;
     modS (fun d => set_bytes (bytes_occupied (sb d) +u n) d) ;;
     modS (fun d => set_objects (occupied_objects (sb d) +u 1) d) ;;
     write_super_block ;;
     mret (NO_ERR, bufs)) d
    (fun r d' => r.1 = NO_ERR /\ store_offset (sb d') = store_offset (sb d) /\ a <= STORAGE_DEVICE_SIZE).
Proof.
  intros Hn Hbs. apply okp_bind. eapply okp_mono; [apply store_bytes_keeps|done|]. intros _ d1 [E1 _].
  apply okp_bind. eapply okp_mono; [apply store_word_keeps|done|]. intros _ d2 [E2 _].
  apply okp_bind. eapply okp_mono; [apply store_word_keeps|done|]. intros _ d3 [E3 _].
  apply okp_bind. eapply okp_mono; [by apply copy_bufs_keeps|done|]. intros bs' d4 [E4 Ha].
  apply okp_bind. eapply okp_mono; [apply store_word_keeps|done|]. intros _ d5 [E5 _].
  apply okp_bind, okp_modS, okp_bind, okp_modS, okp_bind. unfold write_super_block. apply okp_bind, okp_getS.
  eapply okp_mono; [apply store_bytes_keeps|done|]. intros _ d6 [E6 _]. apply okp_ret. split_and!; [done| |done].
  rewrite E6. cbn. by rewrite E5, E4, E3, E2, E1.
Qed.

Definition with_object (d : obj_device) (nm x : list Z) (d' : obj_device) : Prop :=
  forall l y, holds d' l y <-> (l = nm /\ y = x) \/ holds d l y.

Lemma geometry_lock l d : geometry d -> geometry (set_lock l d).
Proof. intros G. by apply (geometry_same d); [|apply G|..]. Qed.

Lemma no_room_pos d n : disk_ok d -> 0 <= n -> no_room d n -> 0 < n.
Proof.
  intros D Hn H. destruct (decide (n = 0)) as [->|]; [|lia]. destruct (g_store d (ok_geo d D)).
  destruct (H STORAGE_DEVICE_SIZE); [lia..|]. intros i Hi. destruct (ext_in _ _ (ok_ext d D) i Hi) as (? & ? & ? & _). lia.
Qed.

(** Without room the limit moves below the table's end, or out of range. *)
Lemma limit_lowered d e n : disk_ok d -> no_room d n -> 0 < n <= STORAGE_DEVICE_SIZE -> live (memory_storage d) (store_offset (sb d)) e ->
  (forall i, live (memory_storage d) (store_offset (sb d)) i -> off (memory_storage d) e <= off (memory_storage d) i) ->
  u32 (off (memory_storage d) e - n) <= STORAGE_DEVICE_SIZE ->
  n <= off (memory_storage d) e /\ u32 (off (memory_storage d) e - n) < store_offset (sb d).
Proof.
  intros D Hno Hn He Hmin Hu. destruct (ext_in _ _ (ok_ext d D) e He) as (He1 & He2 & He3 & _).
  destruct (g_store d (ok_geo d D)) as [Hs _]. assert (0 < TABLE) by done. unfold STORAGE_DEVICE_SIZE in *.
  destruct (decide (n <= off (memory_storage d) e)) as [Hle|Hgt].
  - rewrite u32_id in * by (unfold is_u32; lia). split; [done|].
    destruct (decide (off (memory_storage d) e - n < store_offset (sb d))) as [|Hge]; [done|]. exfalso.
    apply (Hno (off (memory_storage d) e - n)); [lia|unfold STORAGE_DEVICE_SIZE; lia|]. intros i Hi. specialize (Hmin i Hi). lia.
  - exfalso. unfold u32 in Hu. rewrite <- (Z.mod_add _ 1), Z.mod_small in Hu by lia. lia.
Qed.

(** A free entry that was filled. *)
Lemma filled_put d d' k a n nm x :
  disk_ok d -> geometry d' -> store_offset (sb d') = store_offset (sb d) -> disklock d' = false ->
  2 <= k < slots (store_offset (sb d)) -> occ (memory_storage d) k = false ->
  filled (memory_storage d) (memory_storage d') k a n nm x ->
  placed (store_offset (sb d)) a n -> free_room (memory_storage d) (store_offset (sb d)) a n ->
  (forall i, 0 <= i < slots (store_offset (sb d)) -> occ (memory_storage d) i = true -> ~ name_is (memory_storage d) i nm) ->
  occupied_objects (sb d') = occupied_objects (sb d) +u 1 ->
  disk_ok d' /\ (bytes_occupied (sb d') = bytes_occupied (sb d) +u n -> bytes_exact d -> bytes_exact d') /\ with_object d nm x d'.
Proof.
  intros D G' Eso Elk Hk Ho F Hp Hf Hno Hob. unfold with_object. rewrite <- (f_data _ _ _ _ _ _ _ F).
  apply (put_ok d d' D G' Eso Elk k a n Hk (f_touched _ _ _ _ _ _ _ F)); try done; [right; apply Hp|apply F..].
Qed.

Section populate_entry.
Context (uninit : Z -> Z) (d : obj_device) (D : disk_ok d).
Context (k n : Z) (nm : list Z) (bs : list buf).
Context (Hk : 2 <= k < slots (store_offset (sb d))) (Hfree : occ (memory_storage d) k = false).
Context (Hc : client_name nm) (Hw : whole bs).
Context (Hn : 0 <= n <= STORAGE_DEVICE_SIZE) (Hnb : n <= BSIZE * Z.of_nat (length bs)).
Context (Hno : forall i, 0 <= i < slots (store_offset (sb d)) -> occ (memory_storage d) i = true -> ~ name_is (memory_storage d) i nm).

Definition populate_outcome (r : stop + ((Z * list buf) * obj_device)) : Prop :=
  match r with
  | inl e => e = Fault /\ no_room d n
  | inr ((err, _), d') =>
      (err = NO_DISK_SPACE_FOUND /\ d' = set_lock true d /\ no_room d n) \/
      (err = NO_ERR /\ disk_ok (set_lock false d') /\ store_offset (sb d') = store_offset (sb d) /\
         (bytes_exact d -> bytes_exact (set_lock false d')) /\
         with_object d nm (take (Z.to_nat n) (contents bs)) (set_lock false d')) \/
      (err = NO_ERR /\ store_offset (sb d') < store_offset (sb d) /\ no_room d n)
  end.

Lemma populate_entry_run : populate_outcome (find_space_and_populate_entry uninit k nm bs n (set_lock true d)).
Proof.
  pose proof (ok_geo d D) as G. unfold find_space_and_populate_entry. step (getS_run (set_lock true d)).
  change (get_objects_table_entry (set_lock true d) k) with (get_objects_table_entry d k). rewrite (slot_place d G) by lia.
  pose proof (find_empty_space_spec (set_lock true d) (geometry_lock true d G) (ok_ext d D) uninit n Hn) as F.
  unfold mbind at 1, M_bind at 1. destruct (find_empty_space uninit n (set_lock true d)) as [e|[r d1]].
  { destruct F as (-> & Hl & Hs). split; [done|]. intros b Hb Hbn. cbn in Hs. lia. }
  destruct F as (last & _ & O). destruct O as [a Hp Hf|e He Hmin Hnone _|e He Hmin Hnone _].
  - destruct Hp as (Hp1 & Hp2 & Hp3 & Hp4).
    destruct (fill_run (set_lock true d) k a nm bs n) as (bs' & m' & E & F); [by apply geometry_lock|done|done|done|done|lia|done|].
    rewrite E. right; left. split; [done|]. cbn [memory_storage set_lock] in F.
    destruct (filled_put d (set_lock false (set_mem m' (set_objects (occupied_objects (sb d) +u 1) (set_bytes (bytes_occupied (sb d) +u n) d))))
      k a n nm (take (Z.to_nat n) (contents bs))) as (D' & B' & H'); try done.
    + apply (geometry_same d); [done|apply F|done..].
    + split_and!; try done. by apply B'.
  - pose proof (no_room_pos d n D ltac:(lia) Hnone) as Hpos.
    assert (bs <> []) as Hbs by (intros ->; cbn in Hnb; lia).
    pose proof (fill_partial (set_store (u32 (off (memory_storage (set_lock true d)) e - n)) (set_lock true d)) k
      (u32 (off (memory_storage (set_lock true d)) e - n)) nm bs n Hpos Hbs) as P. unfold okp in P.
    match type of P with match ?x with _ => _ end => destruct x as [e'|[[err bs'] d']] end.
    + split; [done|exact Hnone].
    + destruct P as (Herr & Hso & Ha). right; right. split; [exact Herr|]. split; [|exact Hnone]. rewrite Hso.
      refine (proj2 (limit_lowered d e n D Hnone _ He Hmin Ha)). lia.
  - left. split_and!; [done..|exact Hnone].
Qed.
End populate_entry.

(** ** Adding an object *)

Definition has_free (d : obj_device) : Prop := exists i, 2 <= i < slots (store_offset (sb d)) /\ occ (memory_storage d) i = false.
Definition can_grow (d : obj_device) : Prop :=
  store_offset (sb d) + 32 <= STORAGE_DEVICE_SIZE /\
  forall i, live (memory_storage d) (store_offset (sb d)) i -> store_offset (sb d) + 32 <= off (memory_storage d) i.
Definition grown (d : obj_device) : obj_device := set_bytes (bytes_occupied (sb d) +u 32) (set_store (store_offset (sb d) + 32) d).

(** The table the object goes into: as it is, or with one more entry. *)
Definition table_for (d d0 : obj_device) : Prop :=
  (has_free d /\ d0 = d) \/ (~ has_free d /\ can_grow d /\ d0 = grown d).

(** The place of the next entry holds no stale mark when it is needed. *)
Definition fresh_end (d : obj_device) : Prop := has_free d \/ occ (memory_storage d) (slots (store_offset (sb d))) = false.

Lemma free_entry_spec d c i lm : geometry d -> 0 <= i -> i + Z.of_nat c = slots (store_offset (sb d)) ->
  match free_entry d c i lm with
  | (Some k, _) => i <= k < slots (store_offset (sb d)) /\ occ (memory_storage d) k = false
  | (None, lm') => (forall j, i <= j < slots (store_offset (sb d)) -> occ (memory_storage d) j = true /\ lm' <= off (memory_storage d) j) /\
      lm' <= lm /\ (lm' = lm \/ exists j, i <= j < slots (store_offset (sb d)) /\ lm' = off (memory_storage d) j)
  end.
Proof.
  intros G. revert i lm. induction c as [|c IH]; intros i lm Hi Hc; cbn [free_entry].
  - split_and!; [lia|lia|auto].
  - rewrite (disk_offset_slot d G), (occupied_slot d G) by lia. destruct (occ (memory_storage d) i) eqn:Eo; [|split; [lia|done]].
    specialize (IH (i + 1) (if off (memory_storage d) i <? lm then off (memory_storage d) i else lm) ltac:(lia) ltac:(lia)).
    destruct (free_entry d c (i + 1) _) as [[k|] lm'].
    + destruct IH. split; [lia|done].
    + destruct IH as (H1 & H2 & H3). revert H2 H3. destruct (Z.ltb_spec (off (memory_storage d) i) lm); intros H2 H3.
      * split_and!; [|lia|].
        -- intros j Hj. destruct (decide (j = i)) as [->|]; [split; [done|lia]|]. apply H1. lia.
        -- right. destruct H3 as [->|(j & Hj & ->)]; [exists i|exists j]; split; lia || done.
      * split_and!; [|lia|].
        -- intros j Hj. destruct (decide (j = i)) as [->|]; [split; [done|lia]|]. apply H1. lia.
        -- destruct H3 as [->|(j & Hj & ->)]; [auto|]. right. exists j. split; [lia|done].
Qed.

Section add.
Context (uninit : Z -> Z) (d : obj_device) (D : disk_ok d).
Context (nm : list Z) (bs : list buf) (n : Z).
Context (Hc : client_name nm) (Hw : whole bs) (Hn : is_u32 n) (Hnb : n <= BSIZE * Z.of_nat (length bs)) (Hend : fresh_end d).

Definition add_outcome (r : stop + ((Z * list buf) * obj_device)) : Prop :=
  match r with
  | inl e => e = Fault /\ absent d nm /\ exists d0, table_for d d0 /\ no_room d0 n
  | inr ((err, _), d') =>
      (err = OBJECT_EXISTS /\ d' = d /\ ~ absent d nm) \/
      (err = NO_DISK_SPACE_FOUND /\ d' = d /\ STORAGE_DEVICE_SIZE < n) \/
      (err = OBJECTS_TABLE_FULL /\ d' = d /\ absent d nm /\ ~ has_free d /\ ~ can_grow d) \/
      (absent d nm /\ exists d0, table_for d d0 /\
        ((err = NO_DISK_SPACE_FOUND /\ d' = d0 /\ no_room d0 n) \/
         (err = NO_ERR /\ disk_ok d' /\ store_offset (sb d') = store_offset (sb d0) /\ (bytes_exact d -> bytes_exact d') /\
            with_object d nm (take (Z.to_nat n) (contents bs)) d') \/
         (err = NO_ERR /\ store_offset (sb d') < store_offset (sb d0) /\ no_room d0 n)))
  end.

Lemma table_for_ok d0 : table_for d d0 ->
  disk_ok d0 /\ (bytes_exact d -> bytes_exact d0) /\ same_objects d d0.
Proof.
  intros [[_ ->]|(Hf & [Hg1 Hg2] & ->)]; [by split_and!|]. destruct Hend as [?|Hocc]; [done|]. by apply grow_ok.
Qed.

(** From the outcome for the entry to that of the call. *)
Lemma finish_add d0 k : table_for d d0 -> 2 <= k < slots (store_offset (sb d0)) -> occ (memory_storage d0) k = false -> n <= STORAGE_DEVICE_SIZE ->
  (forall i, 0 <= i < slots (store_offset (sb d)) -> occ (memory_storage d) i = true -> ~ name_is (memory_storage d) i nm) ->
  add_outcome ((r ← find_space_and_populate_entry uninit k nm bs n; releasesleep_disk ;; mret r) (set_lock true d0)).
Proof.
  intros Ht Hk Ho HnS Habs. destruct (table_for_ok d0 Ht) as (D0 & B0 & S0).
  assert (forall i, 0 <= i < slots (store_offset (sb d0)) -> occ (memory_storage d0) i = true -> ~ name_is (memory_storage d0) i nm) as Habs0.
  { intros i Hi Oi. destruct Ht as [[_ ->]|(Hnf & _ & ->)]; [by apply Habs|]. cbn in Hi, Oi |- *.
    destruct (g_store d (ok_geo d D)). rewrite slots_grown in Hi by done. apply Habs; [|done].
    destruct Hend as [?|Hocc]; [done|]. assert (i <> slots (store_offset (sb d))) by congruence. lia. }
  pose proof (populate_entry_run uninit d0 D0 k n nm bs Hk Ho Hc Hw ltac:(unfold is_u32 in Hn; lia) Hnb Habs0) as P.
  unfold mbind at 1, M_bind at 1. destruct (find_space_and_populate_entry _ _ _ _ _ _) as [e|[[err bs'] d1]].
  { destruct P as [-> P]. split_and!; [done|by apply absent_index|eauto]. }
  cbn. right; right; right. split; [by apply absent_index|]. exists d0. split; [done|].
  destruct P as [(-> & -> & P)|[(-> & D1 & Es & B1 & H1)|(-> & Es & P)]].
  - left. split_and!; [done| |done]. apply (unlock_lock d0), D0.
  - right; left. split_and!; [done..|auto|]. intros l x. rewrite (H1 l x), (S0 l x). done.
  - right; right. done.
Qed.

Lemma add_object_run : add_outcome (add_object uninit nm bs n d).
Proof.
  pose proof (ok_geo d D) as G. destruct (g_store d G) as [Hs1 Hs2]. destruct (slots_bounds _ Hs1) as [H2 _].
  unfold add_object. step (getS_run d). unfold check_add_object_validity. rewrite (short_name nm Hc).
  destruct (Z.ltb_spec STORAGE_DEVICE_SIZE n) as [Hbig|HnS]; [right; left; done|].
  pose proof (client_index d D nm Hc) as Hi. unfold get_objects_table_index in Hi.
  destruct (first_from (entry_matches d nm) (Z.to_nat (get_object_table_size d)) 0) as [k|].
  { left. split_and!; [done..|]. destruct Hi as (_ & _ & Hi). intros Ha. by apply (Ha _ Hi). }
  cbn [Z.eqb NO_ERR negb]. step (acquire_run d (ok_lock d D)). change (OBJ_ROOTINO - 1) with 2.
  rewrite (table_size d G). pose proof (free_entry_spec d (Z.to_nat (slots (store_offset (sb d)) - 2)) 2 STORAGE_DEVICE_SIZE G ltac:(lia) ltac:(lia)) as F.
  destruct (free_entry d _ 2 STORAGE_DEVICE_SIZE) as [[k|] lm].
  { destruct F as [Hk Ho]. apply finish_add; try done. left. split; [by exists k|done]. }
  destruct F as (Hall & Hlm & Hwhich).
  assert (~ has_free d) as Hnf by (intros (i & Hi' & Ho); destruct (Hall i Hi'); congruence).
  assert (store_offset (sb d) <= lm /\ lm <= STORAGE_DEVICE_SIZE) as [Hlo Hhi].
  { split; [|done]. destruct Hwhich as [->|(j & Hj & ->)]; [done|]. apply (ext_in _ _ (ok_ext d D) j). split; [done|by apply Hall]. }
  assert (0 < TABLE) by done. unfold sizeof_entry, OBJECT_ID_LENGTH, MAX_OBJECT_NAME_LENGTH.
  rewrite (u32_id (lm - store_offset (sb d))) by (unfold is_u32, STORAGE_DEVICE_SIZE in *; lia). change (20 + 12) with 32.
  destruct (Z.leb_spec 32 (lm - store_offset (sb d))) as [Hfit|Hno].
  - assert (table_for d (grown d)) as Ht.
    { right. split_and!; [done| |done]. split; [lia|]. intros i [Hi' Ho]. destruct (Hall i Hi'). lia. }
    rewrite Z.max_r by lia. pose proof (slots_grown _ Hs1) as Hsg. destruct Hend as [?|Hocc]; [done|].
    pose proof (finish_add (grown d) (slots (store_offset (sb d))) Ht) as P. cbn [grown set_bytes set_store set_sb sb store_offset memory_storage] in P.
    rewrite Hsg in P. specialize (P ltac:(lia) Hocc HnS Hi). rewrite !bind_assoc, modS_bind, bind_assoc, modS_bind.
    assert (store_offset (sb (set_lock true d)) +u 32 = store_offset (sb d) + 32) as ->
      by (cbn; rewrite u32_id by (unfold is_u32, STORAGE_DEVICE_SIZE in *; lia); done).
    exact P.
  - right; right; left. split_and!; [done|apply unlock_lock, D|by apply absent_index|done|].
    intros [Hg1 Hg2]. destruct Hwhich as [->|(j & Hj & ->)]; [lia|]. specialize (Hg2 j). destruct (Hall j Hj). unfold live in Hg2. intuition lia.
Qed.
End add.

(** ** Writing an object *)

(** The device with entry [k] free. *)
Definition dropped (d : obj_device) (k : Z) : obj_device :=
  set_objects (occupied_objects (sb d) -u 1)
    (set_mem (st32 (memory_storage d) (ent k + 28) 0) (set_bytes (bytes_occupied (sb d) -u sz (memory_storage d) k) d)).

(** [d'] holds [x] under [nm], and else what [d] holds. *)
Definition replaced (d : obj_device) (nm x : list Z) (d' : obj_device) : Prop :=
  forall l y, holds d' l y <-> (l = nm /\ y = x) \/ (l <> nm /\ holds d l y).

Section write.
Context (uninit : Z -> Z) (d : obj_device) (D : disk_ok d).
Context (nm : list Z) (bs : list buf) (n : Z).
Context (Hc : client_name nm) (Hw : whole bs) (Hn : is_u32 n) (Hnb : n <= BSIZE * Z.of_nat (length bs)).
Notation m := (memory_storage d).
Notation so := (store_offset (sb d)).

Section entry.
Context (k : Z) (L : live m so k) (Nk : name_is m k nm).
Notation d0 := (dropped d k).
Notation m0 := (st32 m (ent k + 28) 0).

Lemma dropped_occ : occ m0 k = false.
Proof. refine (occ_word m _ k 0 _ _ _); [unfold is_u32; lia|done|destruct L; lia]. Qed.

Lemma dropped_geometry : geometry d0.
Proof. apply (geometry_same d); [apply D|cbn; apply st32_wf, D|done..]. Qed.

Lemma dropped_ok : disk_ok d0 /\ (bytes_exact d -> bytes_exact d0) /\ (forall l x, holds d0 l x <-> l <> nm /\ holds d l x).
Proof.
  apply (drop_ok d d0 D) with (k := k) (a := STORAGE_DEVICE_SIZE) (n := 0); try done; try apply L.
  - apply dropped_geometry.
  - apply D.
  - intros x _ He _. cbn. apply st32_other. lia.
  - left. lia.
  - apply dropped_occ.
Qed.

Lemma dropped_same i : 0 <= i < slots so -> i <> k -> same_entry m m0 i.
Proof. intros Hi Hne x Hx. pose proof (ent_apart i k Hne). apply st32_other. lia. Qed.

Lemma dropped_live i : live m0 so i -> live m so i /\ i <> k /\ off m0 i = off m i /\ sz m0 i = sz m i.
Proof.
  intros [Hi Ho]. assert (i <> k) as Hne by (intros ->; by rewrite dropped_occ in Ho).
  destruct (same_entry_fields m m0 i) as (-> & -> & Eo & _); [apply dropped_same; lia|].
  refine (conj (conj Hi _) (conj Hne (conj eq_refl eq_refl))). by rewrite <- Eo.
Qed.

Lemma dropped_names i : 0 <= i < slots so -> occ m0 i = true -> ~ name_is m0 i nm.
Proof.
  intros Hi Ho N. destruct (decide (i = k)) as [->|Hne]; [by rewrite dropped_occ in Ho|].
  destruct (same_entry_fields m m0 i) as (_ & _ & Eo & En); [by apply dropped_same|].
  apply Hne. destruct L. apply (ok_unique d D i k nm); [done|lia|congruence|done|by apply En|done].
Qed.

(** The room of the object itself is free once the entry is. *)
Lemma own_room c : 0 <= c <= sz m k -> free_room m0 so (off m k) c.
Proof.
  intros Hcs i Hi. destruct (dropped_live i Hi) as (Li & Hne & -> & ->).
  destruct (ext_apart _ _ (ok_ext d D) i k Li L Hne); lia.
Qed.

Lemma objects_back : (occupied_objects (sb d) -u 1) +u 1 = occupied_objects (sb d).
Proof.
  rewrite u32_add_l. replace (occupied_objects (sb d) - 1 + 1) with (occupied_objects (sb d)) by lia.
  apply u32_id. rewrite (ok_objects d D). apply u32_range.
Qed.

Lemma with_replaced x d' : with_object d0 nm x d' -> replaced d nm x d'.
Proof. intros H l y. rewrite (H l y). destruct dropped_ok as (_ & _ & Hh). by rewrite (Hh l y). Qed.

(** The entry as it was, but for its mark and perhaps its data: it is filled again. *)
Lemma entry_named m' : (forall x, ent k <= x < ent k + 20 -> m' x = m x) -> name_is m' k nm.
Proof. destruct Nk as [Hs Hl]. intros H. split; [|done]. eapply cstr_ext; [|exact Hs]. intros x Hx. symmetry. apply H. lia. Qed.

Lemma shrink_filled m4 m6 : n <= sz m k -> 0 <= n -> wf_mem m6 ->
  (forall y, m4 y = blit (st32 m (ent k + 24) n) (off m k) (take (Z.to_nat n) (contents bs)) y) ->
  (forall y, TABLE <= y -> m6 y = m4 y) ->
  filled m0 m6 k (off m k) n nm (take (Z.to_nat n) (contents bs)).
Proof.
  intros Hle H0 Hw6 H4 H6. destruct (ext_in _ _ (ok_ext d D) k L) as (Ha & _). destruct L as [Hk Ho].
  pose proof (ent_below d D k ltac:(lia)) as [Hk1 Hk2]. pose proof (data_length bs n Hw ltac:(lia)) as Hl.
  constructor.
  - intros y Hy He Hd. rewrite H6, H4, blit_out by lia. by rewrite !st32_other by lia.
  - apply entry_named. intros y Hy. rewrite H6, H4, blit_out by lia. by rewrite st32_other by lia.
  - unfold off. apply ld32_ext. intros y Hy. rewrite H6, H4, blit_out by (unfold off in *; lia). by rewrite st32_other by lia.
  - unfold sz. rewrite <- (ld32_st32 m (ent k + 24) n Hn). apply ld32_ext. intros y Hy. by rewrite H6, H4, blit_out by lia.
  - rewrite <- Ho. unfold occ. do 2 f_equal. apply ld32_ext. intros y Hy. rewrite H6, H4, blit_out by lia. by rewrite st32_other by lia.
  - eapply bytes_of_blit; [done|]. intros y Hy. rewrite H6, H4 by lia. reflexivity.
  - done.
Qed.

Lemma grow_filled a m4 m6 : so <= a -> is_u32 a -> 0 <= n -> wf_mem m6 ->
  (forall y, m4 y = blit (st32 (st32 (st32 m0 (ent k + 28) 1) (ent k + 24) n) (ent k + 20) a) a (take (Z.to_nat n) (contents bs)) y) ->
  (forall y, TABLE <= y -> m6 y = m4 y) ->
  filled m0 m6 k a n nm (take (Z.to_nat n) (contents bs)).
Proof.
  intros Ha Hua H0 Hw6 H4 H6. destruct L as [Hk Ho].
  pose proof (ent_below d D k ltac:(lia)) as [Hk1 Hk2]. pose proof (data_length bs n Hw ltac:(lia)) as Hl.
  constructor.
  - intros y Hy He Hd. rewrite H6, H4, blit_out by lia. by rewrite !st32_other by lia.
  - apply entry_named. intros y Hy. rewrite H6, H4, blit_out by lia. by rewrite !st32_other by lia.
  - unfold off. rewrite <- (ld32_st32 (st32 (st32 m0 (ent k + 28) 1) (ent k + 24) n) (ent k + 20) a Hua). apply ld32_ext. intros y Hy.
    by rewrite H6, H4, blit_out by lia.
  - unfold sz. rewrite <- (ld32_st32 (st32 m0 (ent k + 28) 1) (ent k + 24) n Hn). apply ld32_ext. intros y Hy.
    rewrite H6, H4, blit_out by lia. by rewrite (st32_other _ (ent k + 20)) by lia.
  - unfold occ. rewrite (ld32_ext m6 (st32 m0 (ent k + 28) 1)), ld32_st32; [done|unfold is_u32; lia|]. intros y Hy.
    rewrite H6, H4, blit_out by lia. by rewrite (st32_other _ (ent k + 20)), (st32_other _ (ent k + 24)) by lia.
  - eapply bytes_of_blit; [done|]. intros y Hy. rewrite H6, H4 by lia. reflexivity.
  - done.
Qed.

(** The end of [write_object], from the place of the data on. *)
Lemma write_tail_run s a : geometry s -> 0 <= a -> a + n <= STORAGE_DEVICE_SIZE ->
  exists bs' m4 m6,
    (bufs ← copy_bufs_vector_to_disk a bs n;
     modS (fun d => set_bytes (bytes_occupied (sb d) +u n) d) ;;
     write_super_block ;; releasesleep_disk ;; mret (NO_ERR, bufs)) s
    = inr ((NO_ERR, bs'), set_lock false (set_mem m6 (set_bytes (bytes_occupied (sb s) +u n) s))) /\
    (forall y, m4 y = blit (memory_storage s) a (take (Z.to_nat n) (contents bs)) y) /\
    (forall y, TABLE <= y -> m6 y = m4 y) /\ wf_mem m6.
Proof.
  intros G Ha Hs. destruct (copy_bufs_run a bs n s) as (bs' & m4 & E & H4); [done|done|apply Hn|done|]. step E. rewrite modS_bind.
  edestruct write_super_block_run as (m6 & E6 & Hw6 & H6); [|step E6].
  { apply (geometry_same s); [done|cbn|done..]. intros y. rewrite H4. apply blit_wf; [apply G|by apply data_bytes]. }
  exists bs', m4, m6. split_and!; done.
Qed.

Lemma write_tail_partial s a : 0 < n -> bs <> [] ->
  okp faults
    (bufs ← copy_bufs_vector_to_disk a bs n;
     modS (fun d => set_bytes (bytes_occupied (sb d) +u n) d) ;;
     write_super_block ;; releasesleep_disk ;; mret (NO_ERR, bufs)) s
    (fun r d' => r.1 = NO_ERR /\ store_offset (sb d') = store_offset (sb s) /\ a <= STORAGE_DEVICE_SIZE).
Proof.
  intros H0 Hbs. apply okp_bind. eapply okp_mono; [by apply copy_bufs_keeps|done|]. intros bs' d1 [E1 Ha].
  apply okp_bind, okp_modS, okp_bind. unfold write_super_block. apply okp_bind, okp_getS.
  eapply okp_mono; [apply store_bytes_keeps|done|]. intros _ d2 [E2 _]. apply okp_bind, okp_modS, okp_ret.
  split_and!; [done| |done]. cbn. rewrite E2. cbn. by rewrite E1.
Qed.

(** The entry that was freed and marked again. *)
Lemma remarked_filled : filled m0 (st32 m0 (ent k + 28) 1) k (off m k) (sz m k) nm (bytes m (off m k) (sz m k)).
Proof.
  destruct (ext_in _ _ (ok_ext d D) k L) as (Ha & Hsz & _). destruct L as [Hk Ho]. pose proof (ent_below d D k ltac:(lia)) as [Hk1 Hk2].
  constructor.
  - intros y Hy He Hd. apply st32_other. lia.
  - apply entry_named. intros y Hy. by rewrite !st32_other by lia.
  - apply ld32_ext. intros y Hy. by rewrite !st32_other by lia.
  - apply ld32_ext. intros y Hy. by rewrite !st32_other by lia.
  - unfold occ. rewrite ld32_st32; [done|unfold is_u32; lia].
  - apply bytes_ext. intros y Hy. by rewrite !st32_other by lia.
  - apply st32_wf, st32_wf, D.
Qed.
End entry.

Definition write_outcome (r : stop + ((Z * list buf) * obj_device)) : Prop :=
  match r with
  | inl e => e = Fault /\ exists k, live m so k /\ name_is m k nm /\ no_room (dropped d k) n
  | inr ((err, _), d') =>
      (err = NO_DISK_SPACE_FOUND /\ d' = d /\ STORAGE_DEVICE_SIZE < n) \/
      (err = OBJECT_NOT_EXISTS /\ d' = d /\ absent d nm) \/
      (err = NO_ERR /\ ~ absent d nm /\ disk_ok d' /\ store_offset (sb d') = so /\ (bytes_exact d -> bytes_exact d') /\
         replaced d nm (take (Z.to_nat n) (contents bs)) d') \/
      (exists k, live m so k /\ name_is m k nm /\ no_room (dropped d k) n /\
        ((err = NO_DISK_SPACE_FOUND /\ disk_ok d' /\ store_offset (sb d') = so /\ same_objects d d' /\
            bytes_occupied (sb d') = bytes_occupied (sb d) -u sz m k) \/
         (err = NO_ERR /\ store_offset (sb d') < so)))
  end.

Lemma write_shrink_run k : live m so k -> name_is m k nm -> n <= sz m k -> (n = 0 -> sz m k = 0) ->
  write_outcome ((obj_addr ← (store_word (size_at (ent k)) n ;; mret (Some (off m k))); write_contents obj_addr bs n)
    (set_bytes (bytes_occupied (sb d) -u sz m k) (set_lock true d))).
Proof.
  intros L Nk Hle Hz. pose proof L as [Hk _]. pose proof (ext_in _ _ (ok_ext d D) k L) as (Ha & Hsz & Hend & Hz0). rewrite bind_assoc.
  destruct (entry_fields_at k) as (_ & -> & _). step (entry_word_run d k 24 n (set_bytes (bytes_occupied (sb d) -u sz m k) (set_lock true d)) D ltac:(lia) ltac:(lia)).
  change (memory_storage (set_bytes (bytes_occupied (sb d) -u sz m k) (set_lock true d))) with m.
  assert (0 < TABLE) by done. destruct (g_store d (ok_geo d D)).
  edestruct (write_tail_run (set_mem (st32 m (ent k + 24) n) (set_bytes (bytes_occupied (sb d) -u sz m k) (set_lock true d))) (off m k))
    as (bs' & m4 & m6 & E & H4 & H6 & Hw6); [|lia|lia|].
  { apply (geometry_same d); [apply D|cbn; apply st32_wf, D|done..]. }
  rewrite (bind_run _ _ _ (Some (off m k)) _ eq_refl). cbn [write_contents]. rewrite E.
  destruct (dropped_ok k L Nk) as (D0 & B0 & _). right; right; left.
  edestruct (filled_put (dropped d k) (set_lock false (set_mem m6 (set_bytes ((bytes_occupied (sb d) -u sz m k) +u n) d)))
    k (off m k) n nm) as (D' & B' & W'); [done| |done|done|done|by apply dropped_occ|by apply (shrink_filled k L Nk m4); [|apply Hn|..]|..].
  - apply (geometry_same d); [apply D|done..].
  - split_and!; [done|apply Hn|lia|]. intros ->. apply Hz0. auto.
  - apply own_room; [done|]. destruct Hn. lia.
  - by apply dropped_names.
  - cbn. by rewrite objects_back.
  - split_and!; try done.
    + intros Ha'. apply (Ha' (bytes m (off m k) (sz m k))). by exists k.
    + intros Hb. by apply B', B0.
    + by apply (with_replaced k).
Qed.

(** The device after [relocate] found no room. *)
Lemma remarked_ok k d' : live m so k -> name_is m k nm -> geometry d' -> store_offset (sb d') = so -> disklock d' = false ->
  memory_storage d' = st32 (st32 m (ent k + 28) 0) (ent k + 28) 1 -> occupied_objects (sb d') = occupied_objects (sb d) ->
  disk_ok d' /\ same_objects d d'.
Proof.
  intros L Nk G' Eso Elk Em Eoo. pose proof L as [Hk _]. destruct (dropped_ok k L Nk) as (D0 & B0 & _).
  destruct (ext_in _ _ (ok_ext d D) k L) as (Ha & Hsz & Hend & Hz0).
  edestruct (filled_put (dropped d k) d' k (off m k) (sz m k) nm) as (D' & _ & W'); [done..|by apply dropped_occ| | | | | |].
  - rewrite Em. by apply remarked_filled.
  - done.
  - apply own_room; [done|lia].
  - by apply dropped_names.
  - cbn. by rewrite objects_back.
  - split; [done|]. intros l y. rewrite (with_replaced k L Nk _ _ W' l y).
    assert (holds d nm (bytes m (off m k) (sz m k))) as Hh by (by exists k). split.
    + by intros [[-> ->]|[_ H]].
    + intros H. destruct (decide (l = nm)) as [->|]; [|auto]. left. split; [done|]. by apply (holds_fun d D nm).
Qed.

(** A new place, or none, for the object of entry [k]. *)
Lemma write_grow_run k : live m so k -> name_is m k nm -> sz m k < n -> n <= STORAGE_DEVICE_SIZE ->
  write_outcome ((obj_addr ← relocate uninit (ent k) n; write_contents obj_addr bs n)
    (set_bytes (bytes_occupied (sb d) -u sz m k) (set_lock true d))).
Proof.
  intros L Nk Hlt HnS. pose proof L as [Hk _]. destruct (ext_in _ _ (ok_ext d D) k L) as (_ & Hsz & _).
  destruct (dropped_ok k L Nk) as (D0 & B0 & _). unfold relocate. destruct (entry_fields_at k) as (-> & -> & ->).
  set (d1 := set_bytes (bytes_occupied (sb d) -u sz m k) (set_lock true d)). rewrite bind_assoc.
  assert (forall w v s, 0 <= w <= 28 -> store_word (ent k + w) v s = inr (tt, set_mem (st32 (memory_storage s) (ent k + w) v) s)) as Ew
    by (intros w v s ?; apply (entry_word_run d k w v s D); lia).
  step (Ew 28 0 d1 ltac:(lia)). rewrite bind_assoc, modS_bind, bind_assoc.
  change (set_objects (occupied_objects (sb (set_mem (st32 (memory_storage d1) (ent k + 28) 0) d1)) -u 1)
    (set_mem (st32 (memory_storage d1) (ent k + 28) 0) d1)) with (set_lock true (dropped d k)).
  pose proof (find_empty_space_spec (set_lock true (dropped d k)) (geometry_lock true _ (ok_geo _ D0)) (ok_ext _ D0) uninit n ltac:(lia)) as F.
  unfold mbind at 1, M_bind at 1. destruct (find_empty_space uninit n (set_lock true (dropped d k))) as [e|[r d2]].
  { destruct F as (-> & _ & Hs). split; [done|]. exists k. split; [done|]. split; [done|]. intros b Hb Hbn. cbn in Hs, Hb. lia. }
  destruct F as (last & _ & O). rewrite bind_assoc. step (Ew 28 1 d2 ltac:(lia)). rewrite bind_assoc, modS_bind.
  destruct O as [a Hp Hf|e He Hmin Hnone _|e He Hmin Hnone _].
  - rewrite !bind_assoc. erewrite bind_run; [|apply Ew; lia]. cbv beta. rewrite bind_assoc. erewrite bind_run; [|apply Ew; lia]. cbv beta.
    rewrite (bind_run _ _ _ (Some a) _ eq_refl). cbn [write_contents]. destruct Hp as (Hp1 & Hp2 & Hp3 & Hp4). cbn in Hp1.
    destruct (g_store d (ok_geo d D)). assert (0 < TABLE) by done.
    match goal with |- write_outcome (_ ?s) => destruct (write_tail_run s a) as (bs' & m4 & m6 & E & H4 & H6 & Hw6) end; [|lia|lia|rewrite E].
    { apply (geometry_same d); [apply D|cbn; do 4 apply st32_wf; apply D|done..]. }
    match goal with |- write_outcome (inr (_, ?dF)) => set (d' := dF) end. right; right; left.
    edestruct (filled_put (dropped d k) d' k a n nm) as (D' & B' & W'); [done| |done|done|done|by apply dropped_occ| |done|exact Hf| |done|].
    + apply (geometry_same d); [apply D|done..].
    + apply (grow_filled k L Nk a m4 m6); try done. unfold is_u32, STORAGE_DEVICE_SIZE in *; lia.
    + by apply dropped_names.
    + split_and!; try done.
      * intros Ha'. apply (Ha' (bytes m (off m k) (sz m k))). by exists k.
      * intros Hb. by apply B', B0.
      * by apply (with_replaced k).
  - assert (bs <> []) as Hbs by (intros ->; cbn in Hnb; lia).
    rewrite !bind_assoc. erewrite bind_run; [|apply Ew; lia]. cbv beta. rewrite bind_assoc. erewrite bind_run; [|apply Ew; lia]. cbv beta.
    erewrite bind_run; [|reflexivity]. cbn [write_contents].
    match goal with |- write_outcome (?t ?s) => pose proof (write_tail_partial s (u32 (off (memory_storage (set_lock true (dropped d k))) e - n))
      ltac:(lia) Hbs) as P; unfold okp in P; destruct (t s) as [e'|[[err bs'] d']] end.
    + split; [done|]. exists k. by split_and!.
    + destruct P as (Herr & Hso & Ha). right; right; right. exists k. split_and!; [done..|exact Hnone|]. right. split; [exact Herr|].
      rewrite Hso. refine (proj2 (limit_lowered (dropped d k) e n D0 Hnone _ He Hmin Ha)). lia.
  - cbn [write_contents]. right; right; right. exists k. split_and!; [done..|exact Hnone|]. left.
    match goal with |- context [disk_ok ?x] => destruct (remarked_ok k x L Nk) as [D' S'] end; try done.
    + apply (geometry_same d); [apply D|cbn; do 2 apply st32_wf; apply D|done..].
    + cbn. apply objects_back.
Qed.

Lemma write_object_run : (n = 0 -> forall x, holds d nm x -> x = []) -> write_outcome (write_object uninit nm bs n d).
Proof.
  intros Hz. pose proof (ok_geo d D) as G. unfold write_object, check_rewrite_object_validality. rewrite (short_name nm Hc).
  destruct (Z.ltb_spec STORAGE_DEVICE_SIZE n) as [Hbig|HnS]; [left; done|]. cbn [Z.eqb NO_ERR negb].
  step (acquire_run d (ok_lock d D)). step (getS_run (set_lock true d)). rewrite index_locked.
  pose proof (client_index d D nm Hc) as Hi. destruct (get_objects_table_index d nm) as [k|].
  2:{ right; left. split_and!; [done|apply unlock_lock, D|by apply absent_index]. }
  destruct Hi as (L & Nk & Hh). pose proof L as [Hk _].
  change (get_objects_table_entry (set_lock true d) k) with (get_objects_table_entry d k).
  change (entry_size (set_lock true d) k) with (entry_size d k). change (disk_offset (set_lock true d) k) with (disk_offset d k).
  rewrite (slot_place d G), (entry_size_slot d G), (disk_offset_slot d G) by lia. rewrite modS_bind.
  destruct (Z.leb_spec n (sz m k)) as [Hle|Hgt]; [|by apply write_grow_run].
  apply write_shrink_run; try done. intros E. specialize (Hz E _ Hh). apply (f_equal length) in Hz. rewrite bytes_length in Hz. cbn in Hz.
  destruct (ext_in _ _ (ok_ext d D) k L) as (_ & ? & _). lia.
Qed.
End write.

(** ** Reading an object *)

Lemma bytes_split m a x y : 0 <= x -> 0 <= y -> bytes m a (x + y) = bytes m a x ++ bytes m (a + x) y.
Proof.
  intros Hx Hy. apply list_eq. intros i. apply option_eq. intros c. rewrite bytes_lookup.
  destruct (decide (Z.of_nat i < x)).
  - rewrite lookup_app_l by (rewrite bytes_length; lia). rewrite bytes_lookup. split; intros [? ?]; (split; [lia|done]).
  - rewrite lookup_app_r by (rewrite bytes_length; lia). rewrite bytes_length, bytes_lookup.
    replace (a + x + Z.of_nat (i - Z.to_nat x)) with (a + Z.of_nat i) by lia. split; intros [? ?]; (split; [lia|done]).
Qed.

Lemma bytes_none m a : bytes m a 0 = [].
Proof. done. Qed.

Lemma bytes_wf m a n : wf_mem m -> Forall is_byte (bytes m a n).
Proof. intros H. apply Forall_lookup. intros i c [_ <-]%bytes_lookup. apply H. Qed.

Lemma load_bytes_run a n d : 0 <= a -> a + n <= STORAGE_DEVICE_SIZE -> load_bytes a n d = inr (bytes (memory_storage d) a n, d).
Proof. intros H1 H2. unfold load_bytes, in_storage. by rewrite (proj2 (Z.leb_le _ _) H1), (proj2 (Z.leb_le _ _) H2). Qed.

Lemma get_bufs_loop_run a bs n c d :
  whole bs -> wf_mem (memory_storage d) -> 0 <= a -> 0 <= c <= n -> a + n <= STORAGE_DEVICE_SIZE -> n - c <= BSIZE * Z.of_nat (length bs) ->
  exists bs', get_bufs_loop a bs n c d = inr (bs', d) /\ whole bs' /\
    contents bs' = bytes (memory_storage d) (a + c) (n - c) ++ drop (Z.to_nat (n - c)) (contents bs) /\
    flags <$> bs' = (fun b => Z.lor (flags b) B_VALID) <$> bs.
Proof.
  intros Hw Hm Ha Hc Hs. revert c Hc. induction Hw as [|b bs [Hl Hb] Hw IH]; intros c Hc Hlen.
  - exists []. cbn in Hlen. replace (n - c) with 0 by lia. split_and!; [done|constructor|done|done].
  - cbn [get_bufs_loop]. unfold STORAGE_DEVICE_SIZE in *. rewrite (u32_id (n - c)) by (unfold is_u32; lia).
    set (bl := if n - c <? BSIZE then n - c else BSIZE).
    assert (0 <= bl <= n - c /\ bl <= BSIZE /\ (bl = n - c \/ bl = BSIZE)) as (Hbl & Hbl2 & Hcase)
      by (unfold bl; clear -Hc; unfold BSIZE; zcases; lia). clearbody bl.
    step (load_bytes_run (a + c) bl d ltac:(lia) ltac:(unfold STORAGE_DEVICE_SIZE; lia)). rewrite (u32_id (c + bl)) by (unfold is_u32; lia).
    destruct (IH (c + bl)) as (bs' & E & Hw' & Hct & Hf); [lia|cbn [length] in Hlen; unfold BSIZE in *; lia|]. step E.
    eexists. split; [done|]. rewrite bytes_length. split_and!.
    + constructor; [|done]. cbn. rewrite length_app, length_drop, bytes_length, Hl. split; [lia|].
      apply Forall_app. split; [by apply bytes_wf|by apply Forall_drop].
    + unfold contents. cbn [fmap list_fmap concat bdata set_flags set_bdata]. fold (contents bs') (contents bs). rewrite Hct.
      replace (n - c) with (bl + (n - (c + bl))) by lia. rewrite (bytes_split _ _ bl), <- !app_assoc by lia. f_equal.
      rewrite Z.add_assoc. destruct Hcase as [->| ->].
      * replace (n - (c + (n - c))) with 0 by lia. rewrite bytes_none, Z.add_0_r. cbn [app Z.to_nat]. rewrite drop_0, drop_app.
        replace (Z.to_nat (n - c) - length (bdata b))%nat with 0%nat by lia. by rewrite drop_0.
      * rewrite drop_ge by lia. cbn [app]. f_equal. rewrite drop_app, (drop_ge (bdata b)) by lia. cbn [app]. f_equal. lia.
    + cbn [fmap list_fmap]. by f_equal.
Qed.

Section read.
Context (d : obj_device) (D : disk_ok d) (nm : list Z) (Hc : client_name nm).

Definition get_outcome (bs : list buf) (r : stop + ((Z * list buf) * obj_device)) : Prop :=
  exists err bs', r = inr ((err, bs'), d) /\
    ((err = OBJECT_NOT_EXISTS /\ bs' = bs /\ absent d nm) \/
     (exists x, holds d nm x /\
        ((err = BUFFER_TOO_SMALL /\ bs' = bs /\ BSIZE * Z.of_nat (length bs) < Z.of_nat (length x)) \/
         (err = NO_ERR /\ Z.of_nat (length x) <= BSIZE * Z.of_nat (length bs) /\
            contents bs' = x ++ drop (length x) (contents bs) /\ whole bs' /\
            flags <$> bs' = (fun b => Z.lor (flags b) B_VALID) <$> bs)))).

Lemma get_object_run bs : whole bs -> BSIZE * Z.of_nat (length bs) < 2 ^ 32 -> get_outcome bs (get_object nm bs d).
Proof.
  intros Hw Hlen. pose proof (ok_geo d D) as G. unfold get_outcome, get_object. rewrite (short_name nm Hc).
  step (acquire_run d (ok_lock d D)). step (getS_run (set_lock true d)). rewrite index_locked.
  pose proof (client_index d D nm Hc) as Hi. destruct (get_objects_table_index d nm) as [k|].
  2:{ exists OBJECT_NOT_EXISTS, bs. split; [unfold releasesleep_disk; by rewrite modS_bind, unlock_lock by apply D|]. left. split_and!; [done..|by apply absent_index]. }
  destruct Hi as (L & Nk & Hh). pose proof L as [Hk _]. destruct (ext_in _ _ (ok_ext d D) k L) as (Ha & Hsz & Hend & _).
  change (entry_size (set_lock true d) k) with (entry_size d k). change (disk_offset (set_lock true d) k) with (disk_offset d k).
  rewrite (entry_size_slot d G), (disk_offset_slot d G) by lia.
  assert (Z.of_nat (length (bytes (memory_storage d) (off (memory_storage d) k) (sz (memory_storage d) k))) = sz (memory_storage d) k) as Hlx
    by (rewrite bytes_length; lia).
  rewrite (u32_id (Z.of_nat (length bs) * BSIZE)) by (unfold is_u32; rewrite Z.mul_comm; unfold BSIZE in *; lia).
  destruct (Z.ltb_spec (Z.of_nat (length bs) * BSIZE) (sz (memory_storage d) k)) as [Hsmall|Hfit].
  - exists BUFFER_TOO_SMALL, bs. split; [unfold releasesleep_disk; by rewrite modS_bind, unlock_lock by apply D|]. right. eexists. split; [exact Hh|]. left.
    split_and!; [done..|lia].
  - assert (0 < TABLE) by done. destruct (g_store d G).
    destruct (get_bufs_loop_run (off (memory_storage d) k) bs (sz (memory_storage d) k) 0 (set_lock true d)) as (bs' & E & Hw' & Hct & Hf);
      [done|apply G|lia|lia|lia|lia|]. step E. exists NO_ERR, bs'. split; [unfold releasesleep_disk; by rewrite modS_bind, unlock_lock by apply D|].
    right. eexists. split; [exact Hh|]. right. split_and!; [done|lia| |done..]. rewrite Hct, Z.add_0_r, Z.sub_0_r. cbn [memory_storage set_lock].
    by rewrite bytes_length.
Qed.

Lemma object_size_run : exists err v, object_size nm d = inr ((err, v), d) /\
  ((err = OBJECT_NOT_EXISTS /\ absent d nm) \/ (err = NO_ERR /\ exists x, holds d nm x /\ v = Z.of_nat (length x))).
Proof.
  pose proof (ok_geo d D) as G. unfold object_size. rewrite (short_name nm Hc).
  step (acquire_run d (ok_lock d D)). step (getS_run (set_lock true d)). unfold releasesleep_disk. rewrite modS_bind, index_locked, unlock_lock by apply D.
  pose proof (client_index d D nm Hc) as Hi. destruct (get_objects_table_index d nm) as [k|].
  - destruct Hi as (L & Nk & Hh). pose proof L as [Hk _]. destruct (ext_in _ _ (ok_ext d D) k L) as (_ & Hsz & _).
    change (entry_size (set_lock true d) k) with (entry_size d k). rewrite (entry_size_slot d G) by lia.
    eexists _, _. split; [done|]. right. split; [done|]. eexists. split; [exact Hh|]. rewrite bytes_length. lia.
  - eexists _, _. split; [done|]. left. split; [done|by apply absent_index].
Qed.
End read.

(** ** The device after initialisation *)

Lemma clear_table_run d0 c i d : geometry d0 -> 0 <= i -> i + Z.of_nat c <= slots (store_offset (sb d0)) -> wf_mem (memory_storage d) ->
  exists m', clear_table d0 c i d = inr (tt, set_mem m' d) /\ wf_mem m' /\
    (forall j, i <= j < i + Z.of_nat c -> occ m' j = false) /\
    (forall j, 0 <= j < i -> occ m' j = occ (memory_storage d) j).
Proof.
  intros G. destruct (g_store d0 G) as [Hs1 Hs2]. destruct (slots_bounds _ Hs1) as (_ & He & _).
  revert i d. induction c as [|c IH]; intros i d Hi Hc Hm.
  - exists (memory_storage d). split_and!; [by destruct d|done|lia|done].
  - cbn [clear_table]. rewrite (slot_place d0 G) by lia. destruct (entry_fields_at i) as (_ & _ & ->). assert (0 < TABLE) by done.
    erewrite bind_run; [|apply store_word_run; unfold ent in *; lia]. cbv beta.
    destruct (IH (i + 1) (set_mem (st32 (memory_storage d) (ent i + 28) 0) d)) as (m' & E & Hw & H1 & H2); [lia|lia|by apply st32_wf|].
    exists m'. split_and!; [done|done| |].
    + intros j Hj. destruct (decide (j = i)) as [->|]; [|apply H1; lia]. rewrite H2 by lia.
      refine (occ_word (memory_storage d) _ i 0 _ _ _); [unfold is_u32; lia|done|done].
    + intros j Hj. rewrite H2 by lia. cbn. unfold occ. do 2 f_equal. apply ld32_ext. intros x Hx. apply st32_other. unfold ent in *. lia.
Qed.

Lemma initialize_entry_run d i nm o z : geometry d -> 0 <= i < 2 -> Forall is_byte nm -> Forall (fun c => c <> 0) nm -> (length nm < 20)%nat ->
  exists m', initialize_entry i nm o z d = inr (tt, set_mem m' d) /\ wf_mem m' /\ occ m' i = true /\ name_is m' i nm /\
    (forall j, 0 <= j -> j <> i -> same_entry (memory_storage d) m' j).
Proof.
  intros G Hi Hb H0 Hl. destruct (g_store d G) as [Hs1 Hs2]. destruct (slots_bounds _ Hs1) as (H2 & He & _). assert (0 < TABLE) by done.
  unfold initialize_entry. step (getS_run d). rewrite (slot_place d G) by lia. destruct (entry_fields_at i) as (-> & -> & ->).
  assert (ent i + 32 <= STORAGE_DEVICE_SIZE /\ TABLE <= ent i) as [Hi1 Hi2] by (unfold ent in *; lia).
  assert (Z.of_nat (length (nm ++ [0])) <= 20) as Hln by (rewrite length_app; cbn [length]; lia).
  erewrite bind_run; [|apply store_bytes_run; lia]. cbv beta. erewrite bind_run; [|apply store_word_run; lia]. cbv beta.
  erewrite bind_run; [|apply store_word_run; lia]. cbv beta. rewrite store_word_run by lia. cbn [memory_storage set_mem].
  eexists. split; [reflexivity|]. split_and!.
  - do 3 apply st32_wf. apply blit_wf; [apply G|]. apply Forall_app. split; [done|]. repeat constructor; unfold is_byte; lia.
  - unfold occ. rewrite ld32_st32; [done|unfold is_u32; lia].
  - split; [|done]. split; [|done]. eapply bytes_at_ext; [|apply (bytes_at_blit (memory_storage d))]. intros x Hx. cbv beta.
    by rewrite !st32_other by lia.
  - intros j Hj Hne x Hx. pose proof (ent_apart j i Hne). rewrite !st32_other by lia. apply blit_out. lia.
Qed.

Lemma tally_zero so : tally (fun _ => 0) so = 0.
Proof. unfold tally. by induction (seqZ 2 (slots so - 2)). Qed.

Lemma initial_table_run d : geometry d -> disklock d = false -> occupied_objects (sb d) = 2 -> bytes_occupied (sb d) = store_offset (sb d) ->
  2 < slots (store_offset (sb d)) ->
  exists d', initial_table d = inr (tt, d') /\ disk_ok d' /\ bytes_exact d' /\ sb d' = sb d /\ has_free d' /\ (forall l x, ~ holds d' l x).
Proof.
  intros G Hlk Hoo Hbo H2. unfold initial_table. step (getS_run d). rewrite (table_size d G). set (T := slots (store_offset (sb d))) in *.
  destruct (clear_table_run d (Z.to_nat T) 0 d) as (m1 & E1 & W1 & H1 & _); [done|lia|fold T; lia|apply G|]. step E1.
  edestruct write_super_block_run as (m2 & E2 & W2 & M2); [|step E2]. { apply (geometry_same d); [done|exact W1|done..]. }
  unfold initialize_super_block_entry at 1.
  edestruct (initialize_entry_run (set_mem m2 (set_mem m1 d)) 0 SUPER_BLOCK_ID 0 sizeof_objsuperblock) as (m3 & E3 & W3 & O3 & N3 & S3);
    [apply (geometry_same d); [done|exact W2|done..]|lia|by repeat constructor|by repeat constructor|cbn; lia|step E3].
  unfold initialize_objects_table_entry. step (getS_run (set_mem m3 (set_mem m2 (set_mem m1 d)))).
  edestruct (initialize_entry_run (set_mem m3 (set_mem m2 (set_mem m1 d))) 1 OBJECT_TABLE_ID) as (m4 & E4 & W4 & O4 & N4 & S4);
    [apply (geometry_same d); [done|exact W3|done..]|lia|by repeat constructor|by repeat constructor|cbn; lia|rewrite E4].
  assert (forall j, 2 <= j < T -> occ m4 j = false) as Hfree.
  { intros j Hj. destruct (same_entry_fields _ _ j (S4 j ltac:(lia) ltac:(lia))) as (_ & _ & -> & _).
    destruct (same_entry_fields _ _ j (S3 j ltac:(lia) ltac:(lia))) as (_ & _ & E & _). cbn [memory_storage set_mem] in E |- *. rewrite E.
    rewrite <- (H1 j ltac:(lia)). unfold occ. do 2 f_equal. apply ld32_ext. intros x Hx. apply M2. unfold ent in Hx. lia. }
  assert (forall j, ~ live m4 (store_offset (sb d)) j) as Hnl by (intros j [Hj Ho]; fold T in Hj; by rewrite Hfree in Ho).
  destruct (same_entry_fields _ _ 0 (S4 0 ltac:(lia) ltac:(lia))) as (_ & _ & O0 & N0). cbn [memory_storage set_mem] in O0, N0.
  eexists. split; [reflexivity|]. split_and!.
  - constructor; cbn [memory_storage set_mem sb disklock]; try done.
    + apply (geometry_same d); [done|exact W4|done..].
    + constructor; [intros i Hi|intros i j Hi]; by destruct (Hnl i).
    + split; [congruence|]. by apply N0.
    + intros i Hi. by destruct (Hnl i).
    + intros i j nm Hi Hj Oi Oj Ni Nj. fold T in Hi, Hj.
      assert (forall x, 0 <= x < T -> occ m4 x = true -> name_is m4 x nm -> x = 0 /\ nm = SUPER_BLOCK_ID \/ x = 1 /\ nm = OBJECT_TABLE_ID) as Hwho.
      { intros x Hx Ox Nx. destruct (decide (2 <= x)); [by rewrite Hfree in Ox by lia|]. destruct (decide (x = 0)) as [->|].
        - left. split; [done|]. apply (name_is_inj m4 0); [done|by apply N0].
        - right. replace x with 1 in * by lia. split; [done|]. by apply (name_is_inj m4 1). }
      destruct (Hwho i Hi Oi Ni) as [[-> ->]|[-> ->]], (Hwho j Hj Oj Nj) as [[-> E]|[-> E]]; done.
    + rewrite Hoo, (tally_ext _ (fun _ => 0)), tally_zero; [done|]. intros i Hi. by rewrite Hfree.
  - unfold bytes_exact. cbn [memory_storage set_mem sb]. rewrite (tally_ext _ (fun _ => 0)), tally_zero, Hbo, Z.add_0_r.
    + destruct (g_store d G). assert (0 < TABLE) by done. by rewrite u32_id by (unfold is_u32, STORAGE_DEVICE_SIZE in *; lia).
    + intros i Hi. by rewrite Hfree.
  - done.
  - exists 2. cbn [memory_storage set_mem sb]. fold T. split; [lia|]. apply Hfree. lia.
  - intros l x (i & Hi & _). by destruct (Hnl i).
Qed.

(** A free holder gives a device without objects. *)
Lemma init_obj_device_run vfs holders h x :
  length vfs = Z.to_nat sizeof_vfs_superblock -> Forall is_byte vfs -> wf_mem (storage x) ->
  list_find (fun h => is_used h = false) holders = Some (h, x) ->
  exists d, init_obj_device (Some vfs) holders = inr (d, <[h := Holder (memory_storage d) true]> holders) /\
    disk_ok d /\ bytes_exact d /\ has_free d /\ (forall l y, ~ holds d l y) /\ store_offset (sb d) = 6492.
Proof.
  intros Hl Hb Hm Hf. unfold init_obj_device. rewrite Hf.
  match goal with |- context [initial_table ?d0] => pose proof (initial_table_run d0) as P end.
  destruct P as (d & E & D & B & Esb & F & H).
  - constructor; cbn [sb storage_device_size objects_table_offset store_offset vfs_sb memory_storage]; [reflexivity|reflexivity| |done..].
    unfold TABLE, STORAGE_DEVICE_SIZE, sizeof_objsuperblock, sizeof_vfs_superblock, INITIAL_OBJECT_TABLE_SIZE, sizeof_entry, OBJECT_ID_LENGTH, MAX_OBJECT_NAME_LENGTH. lia.
  - reflexivity.
  - reflexivity.
  - reflexivity.
  - vm_compute. reflexivity.
  - rewrite E. exists d. refine (conj eq_refl (conj D (conj B (conj F (conj H _))))). rewrite Esb. reflexivity.
Qed.

(** ** The store as a map from names to contents *)

Notation object_map := (gmap (list Z) (list Z)).

Inductive store_op :=
| OpAdd (nm : list Z) (bs : list buf) (n : Z)
| OpWrite (nm : list Z) (bs : list buf) (n : Z)
| OpDelete (nm : list Z)
| OpGet (nm : list Z) (bs : list buf)
| OpSize (nm : list Z).

(** The error, and the bytes of the buffers or the size. *)
Definition run_op (uninit : Z -> Z) (o : store_op) : M obj_device (Z * list Z) :=
  match o with
  | OpAdd nm bs n => r ← add_object uninit nm bs n; mret (r.1, [])
  | OpWrite nm bs n => r ← write_object uninit nm bs n; mret (r.1, [])
  | OpDelete nm => r ← delete_object nm; mret (r, [])
  | OpGet nm bs => r ← get_object nm bs; mret (r.1, contents r.2)
  | OpSize nm => r ← object_size nm; mret (r.1, [r.2])
  end.

Definition data_of (bs : list buf) (n : Z) : list Z := take (Z.to_nat n) (contents bs).

(** What a map from names to contents answers, and how it changes. *)
Definition map_step (o : store_op) (s : object_map) (r : Z * list Z) (s' : object_map) : Prop :=
  match o with
  | OpAdd nm bs n =>
      match s !! nm with
      | Some _ => r.1 = OBJECT_EXISTS /\ s' = s
      | None => (r.1 = NO_ERR /\ s' = <[nm := data_of bs n]> s) \/ (r.1 = OBJECTS_TABLE_FULL /\ s' = s)
      end
  | OpWrite nm bs n =>
      match s !! nm with
      | Some _ => r.1 = NO_ERR /\ s' = <[nm := data_of bs n]> s
      | None => r.1 = OBJECT_NOT_EXISTS /\ s' = s
      end
  | OpDelete nm =>
      match s !! nm with
      | Some _ => r.1 = NO_ERR /\ s' = delete nm s
      | None => r.1 = OBJECT_NOT_EXISTS /\ s' = s
      end
  | OpGet nm bs =>
      s' = s /\
      match s !! nm with
      | Some x => if decide (Z.of_nat (length x) <= BSIZE * Z.of_nat (length bs))
                  then r = (NO_ERR, x ++ drop (length x) (contents bs))
                  else r = (BUFFER_TOO_SMALL, contents bs)
      | None => r = (OBJECT_NOT_EXISTS, contents bs)
      end
  | OpSize nm =>
      s' = s /\
      match s !! nm with
      | Some x => r = (NO_ERR, [Z.of_nat (length x)])
      | None => r.1 = OBJECT_NOT_EXISTS
      end
  end.

Definition has_room (d : obj_device) (n : Z) : Prop :=
  exists b, store_offset (sb d) <= b /\ b + n <= STORAGE_DEVICE_SIZE /\ free_room (memory_storage d) (store_offset (sb d)) b n.

Definition bufs_for (bs : list buf) (n : Z) : Prop := whole bs /\ 0 <= n <= BSIZE * Z.of_nat (length bs) /\ n <= STORAGE_DEVICE_SIZE.

(** A call a client may make: a short name of its own, buffers for the data,
    and room for it; an object is not written down to nothing. *)
Definition allowed (d : obj_device) (o : store_op) : Prop :=
  match o with
  | OpAdd nm bs n => client_name nm /\ bufs_for bs n /\ fresh_end d /\ forall d0, table_for d d0 -> has_room d0 n
  | OpWrite nm bs n =>
      client_name nm /\ bufs_for bs n /\ (n = 0 -> forall x, holds d nm x -> x = []) /\
      forall k, live (memory_storage d) (store_offset (sb d)) k -> name_is (memory_storage d) k nm -> has_room (dropped d k) n
  | OpDelete nm | OpSize nm => client_name nm
  | OpGet nm bs => client_name nm /\ whole bs /\ BSIZE * Z.of_nat (length bs) < 2 ^ 32
  end.

(** The device holds what the map says. *)
Definition represents (d : obj_device) (s : object_map) : Prop := forall nm x, holds d nm x <-> s !! nm = Some x.

Inductive store_run (uninit : Z -> Z) : obj_device -> list (store_op * (Z * list Z)) -> obj_device -> Prop :=
| store_run_nil d : store_run uninit d [] d
| store_run_cons d o r d1 tr d2 : allowed d o -> run_op uninit o d = inr (r, d1) -> store_run uninit d1 tr d2 ->
    store_run uninit d ((o, r) :: tr) d2.

Inductive map_run : object_map -> list (store_op * (Z * list Z)) -> object_map -> Prop :=
| map_run_nil s : map_run s [] s
| map_run_cons s o r s1 tr s2 : map_step o s r s1 -> map_run s1 tr s2 -> map_run s ((o, r) :: tr) s2.

Lemma room_excludes d n : has_room d n -> ~ no_room d n.
Proof. intros (b & H1 & H2 & F) H. by apply (H b). Qed.

Section represents.
Context (d : obj_device) (s : object_map) (R : represents d s).

Lemma represents_absent nm : absent d nm -> s !! nm = None.
Proof. intros H. apply eq_None_not_Some. intros [x Hx]. by apply (H x), R. Qed.

Lemma represents_present nm : ~ absent d nm -> exists x, s !! nm = Some x.
Proof.
  intros H. destruct (s !! nm) as [x|] eqn:E; [by exists x|]. destruct H. intros x Hx%R. congruence.
Qed.

Lemma represents_same d' : same_objects d d' -> represents d' s.
Proof. intros H nm x. rewrite (H nm x). apply R. Qed.

Lemma represents_insert d' nm x : absent d nm -> with_object d nm x d' -> represents d' (<[nm := x]> s).
Proof.
  intros Ha H l y. rewrite (H l y), (R l y). destruct (decide (l = nm)) as [->|Hne].
  - rewrite lookup_insert_eq, (represents_absent nm Ha). split; [by intros [[_ ->]|?]|intros [= ->]; auto].
  - rewrite lookup_insert_ne by congruence. split; [by intros [[-> _]|?]|auto].
Qed.

Lemma represents_replace d' nm x : replaced d nm x d' -> represents d' (<[nm := x]> s).
Proof.
  intros H l y. rewrite (H l y), (R l y). destruct (decide (l = nm)) as [->|Hne].
  - rewrite lookup_insert_eq. split; [by intros [[_ ->]|[? _]]|intros [= ->]; auto].
  - rewrite lookup_insert_ne by congruence. split; [by intros [[-> _]|[_ ?]]|auto].
Qed.

Lemma represents_delete d' nm : (forall l x, holds d' l x <-> l <> nm /\ holds d l x) -> represents d' (delete nm s).
Proof.
  intros H l y. rewrite (H l y), (R l y). destruct (decide (l = nm)) as [->|Hne].
  - rewrite lookup_delete_eq. split; [by intros [? _]|done].
  - rewrite lookup_delete_ne by congruence. split; [by intros [_ ?]|auto].
Qed.
End represents.

Section simulation.
Context (uninit : Z -> Z) (d : obj_device) (s : object_map) (D : disk_ok d) (R : represents d s).

Definition simulated (o : store_op) : Prop :=
  exists r d' s', run_op uninit o d = inr (r, d') /\ map_step o s r s' /\ disk_ok d' /\ represents d' s' /\
    (bytes_exact d -> bytes_exact d').

Lemma bufs_for_u32 bs n : bufs_for bs n -> is_u32 n.
Proof. intros (_ & Hn & Hs). unfold is_u32, STORAGE_DEVICE_SIZE in *. lia. Qed.

Lemma simulate_add nm bs n : allowed d (OpAdd nm bs n) -> simulated (OpAdd nm bs n).
Proof.
  intros (Hc & Hb & He & Hr). pose proof (bufs_for_u32 bs n Hb) as Hu. destruct Hb as (Hw & Hn & HnS).
  pose proof (add_object_run uninit d D nm bs n Hc Hw Hu ltac:(lia) He) as O. unfold simulated. cbn [run_op].
  unfold mbind at 1, M_bind at 1. destruct (add_object uninit nm bs n d) as [e|[[err bs'] d']]; cbn [add_outcome] in O.
  { destruct O as (_ & _ & d0 & Ht & Hno). by destruct (room_excludes d0 n (Hr d0 Ht)). }
  exists (err, []), d'. cbn [map_step fst].
  destruct O as [(-> & -> & Ha)|[(_ & _ & ?)|[(-> & -> & Ha & _)|(Ha & d0 & Ht & O)]]].
  - destruct (represents_present d s R nm Ha) as [x ->]. by exists s.
  - lia.
  - rewrite (represents_absent d s R nm Ha). exists s. split_and!; auto.
  - pose proof (room_excludes d0 n (Hr d0 Ht)) as Hno. destruct O as [(_ & _ & ?)|[(-> & D' & _ & B & W)|(_ & _ & ?)]]; [done| |done].
    rewrite (represents_absent d s R nm Ha). exists (<[nm := data_of bs n]> s). split_and!; auto. by apply (represents_insert d s R).
Qed.

Lemma simulate_write nm bs n : allowed d (OpWrite nm bs n) -> simulated (OpWrite nm bs n).
Proof.
  intros (Hc & Hb & Hz & Hr). pose proof (bufs_for_u32 bs n Hb) as Hu. destruct Hb as (Hw & Hn & HnS).
  pose proof (write_object_run uninit d D nm bs n Hc Hw Hu ltac:(lia) Hz) as O. unfold simulated. cbn [run_op].
  assert (forall k, live (memory_storage d) (store_offset (sb d)) k -> name_is (memory_storage d) k nm -> ~ no_room (dropped d k) n) as Hno
    by (intros k L N; by apply room_excludes, Hr).
  unfold mbind at 1, M_bind at 1. destruct (write_object uninit nm bs n d) as [e|[[err bs'] d']]; cbn [write_outcome] in O.
  { destruct O as (_ & k & L & N & ?). by destruct (Hno k L N). }
  exists (err, []), d'. cbn [map_step fst].
  destruct O as [(_ & _ & ?)|[(-> & -> & Ha)|[(-> & Ha & D' & _ & B & W)|(k & L & N & ? & _)]]].
  - lia.
  - rewrite (represents_absent d s R nm Ha). by exists s.
  - destruct (represents_present d s R nm Ha) as [x ->]. exists (<[nm := data_of bs n]> s). split_and!; auto. by apply (represents_replace d s R).
  - by destruct (Hno k L N).
Qed.

Lemma simulate_delete nm : client_name nm -> simulated (OpDelete nm).
Proof.
  intros Hc. destruct (delete_object_run d nm D Hc) as (err & d' & E & O). unfold simulated. cbn [run_op].
  rewrite (bind_run _ _ _ _ _ E). exists (err, []), d'. cbn [map_step fst].
  destruct O as [(-> & -> & Ha)|(-> & D' & _ & B & Ha & H)].
  - rewrite (represents_absent d s R nm Ha). by exists s.
  - destruct (represents_present d s R nm Ha) as [x ->]. exists (delete nm s). split_and!; auto. by apply (represents_delete d s R).
Qed.

Lemma simulate_get nm bs : allowed d (OpGet nm bs) -> simulated (OpGet nm bs).
Proof.
  intros (Hc & Hw & Hl). destruct (get_object_run d D nm Hc bs Hw Hl) as (err & bs' & E & O). unfold simulated. cbn [run_op].
  rewrite (bind_run _ _ _ _ _ E). exists (err, contents bs'), d, s. split; [done|]. split; [|by split_and!]. cbn [map_step]. split; [done|].
  destruct O as [(-> & -> & Ha)|(x & Hx & O)]; [by rewrite (represents_absent d s R nm Ha)|]. rewrite (proj1 (R nm x) Hx).
  destruct O as [(-> & -> & Hlt)|(-> & Hle & -> & _)]; case_decide; done || lia.
Qed.

Lemma simulate_size nm : client_name nm -> simulated (OpSize nm).
Proof.
  intros Hc. destruct (object_size_run d D nm Hc) as (err & v & E & O). unfold simulated. cbn [run_op].
  rewrite (bind_run _ _ _ _ _ E). exists (err, [v]), d, s. split; [done|]. split; [|by split_and!]. cbn [map_step]. split; [done|].
  destruct O as [[-> Ha]|(-> & x & Hx & ->)]; [by rewrite (represents_absent d s R nm Ha)|]. by rewrite (proj1 (R nm x) Hx).
Qed.

Lemma simulate o : allowed d o -> simulated o.
Proof.
  destruct o; [apply simulate_add|apply simulate_write|apply simulate_delete|apply simulate_get|apply simulate_size].
Qed.
End simulation.

Lemma store_run_refines uninit d tr d' s : store_run uninit d tr d' -> disk_ok d -> bytes_exact d -> represents d s ->
  exists s', map_run s tr s' /\ disk_ok d' /\ bytes_exact d' /\ represents d' s'.
Proof.
  intros H. revert s. induction H as [d|d o r d1 tr d2 Ha E Hr IH]; intros s D B R; [exists s; split_and!; done || constructor|].
  destruct (simulate uninit d s D R o Ha) as (r' & d1' & s1 & E' & Hm & D1 & R1 & B1). rewrite E in E'. injection E' as <- <-.
  destruct (IH s1 D1 (B1 B) R1) as (s2 & ? & ? & ? & ?). exists s2. split_and!; try done. by econstructor.
Qed.


(** ** A store without room *)

Lemma add_into_entry uninit d nm bs n : disk_ok d -> client_name nm -> absent d nm -> has_free d -> n <= STORAGE_DEVICE_SIZE ->
  exists k, 2 <= k < slots (store_offset (sb d)) /\
    add_object uninit nm bs n d = (r ← find_space_and_populate_entry uninit k nm bs n; releasesleep_disk ;; mret r) (set_lock true d).
Proof.
  intros D Hc Ha Hf HnS. pose proof (ok_geo d D) as G. pose proof (table_has_two d D).
  unfold add_object. step (getS_run d). unfold check_add_object_validity. rewrite (short_name nm Hc).
  destruct (Z.ltb_spec STORAGE_DEVICE_SIZE n); [lia|]. pose proof (client_index d D nm Hc) as Hi. unfold get_objects_table_index in Hi.
  destruct (first_from (entry_matches d nm) (Z.to_nat (get_object_table_size d)) 0) as [i|].
  { destruct Hi as (_ & _ & Hi). by destruct (Ha _ Hi). }
  cbn [Z.eqb NO_ERR negb]. step (acquire_run d (ok_lock d D)). change (OBJ_ROOTINO - 1) with 2.
  rewrite (table_size d G). pose proof (free_entry_spec d (Z.to_nat (slots (store_offset (sb d)) - 2)) 2 STORAGE_DEVICE_SIZE G ltac:(lia) ltac:(lia)) as F.
  destruct (free_entry d _ 2 STORAGE_DEVICE_SIZE) as [[k|] lm]; [exists k; by destruct F|].
  destruct Hf as (i & Hi' & Ho). destruct F as (Hall & _). destruct (Hall i Hi'). congruence.
Qed.

(** The place given out when nothing fits lies outside of the storage. *)
Lemma place_outside uninit d e n :
  disk_ok d -> 0 <= n <= STORAGE_DEVICE_SIZE -> no_room d n -> (forall k, 0 <= uninit k < 2 ^ 20) ->
  live (memory_storage d) (store_offset (sb d)) e ->
  (forall i, live (memory_storage d) (store_offset (sb d)) i -> off (memory_storage d) e <= off (memory_storage d) i) ->
  off (memory_storage d) e < n ->
  exists a, STORAGE_DEVICE_SIZE < a /\ find_empty_space uninit n (set_lock true d) = inr (Some a, set_store a (set_lock true d)).
Proof.
  intros D Hn Hno Hun He Hmin Hlt. pose proof (ok_geo d D) as G.
  pose proof (find_empty_space_spec (set_lock true d) (geometry_lock true d G) (ok_ext d D) uninit n Hn) as F.
  destruct (find_empty_space uninit n (set_lock true d)) as [x|[r d1]]; [destruct F as (_ & H & _); by destruct (H e)|].
  destruct F as (last & Hlast & O). destruct (ext_in _ _ (ok_ext d D) e He) as (Hp & Hsz & Hend & _).
  destruct (g_store d G) as [Hs1 Hs2]. destruct (slots_bounds _ Hs1) as (Ht & Hent & _). assert (0 < TABLE) by done.
  assert (forall i, live (memory_storage d) (store_offset (sb d)) i -> (forall j, live (memory_storage d) (store_offset (sb d)) j ->
    off (memory_storage d) i <= off (memory_storage d) j) -> off (memory_storage d) i = off (memory_storage d) e) as Hsame.
  { intros i Hi Hm. specialize (Hm e He). specialize (Hmin i Hi). lia. }
  assert (u32 (off (memory_storage d) e - n) = off (memory_storage d) e - n + 2 ^ 32) as Hu.
  { unfold u32. rewrite <- (Z.mod_add _ 1), Z.mod_small; unfold STORAGE_DEVICE_SIZE in *; lia. }
  assert (0 <= last < 2 ^ 20) as Hl.
  { destruct Hlast as [[Hl _]| ->]; [|apply Hun]. cbn in Hl. unfold ent, STORAGE_DEVICE_SIZE in *. lia. }
  destruct O as [a Ha Hf|e' He' Hmin' _ _|e' He' Hmin' _ Hg].
  - destruct Ha as (Ha1 & _ & Ha2 & _). by destruct (Hno a Ha1 Ha2).
  - cbn [memory_storage set_lock]. rewrite (Hsame e' He' Hmin'), Hu. eexists. split; [|done]. unfold STORAGE_DEVICE_SIZE in *. lia.
  - exfalso. cbn [memory_storage set_lock] in Hg. rewrite (Hsame e' He' Hmin'), Hu in Hg. revert Hg.
    unfold entry_index_to_entry_offset. cbn [sb set_lock]. rewrite (g_table d G).
    unfold sizeof_entry, OBJECT_ID_LENGTH, MAX_OBJECT_NAME_LENGTH, TABLE, sizeof_objsuperblock, sizeof_vfs_superblock, STORAGE_DEVICE_SIZE in *.
    rewrite (u32_id (last + 1)), (u32_id (24 + 68 + _)), s32_id, u32_id by (unfold is_u32, is_s32; lia). lia.
Qed.


(** What the calls do on every branch, also without room.  [add_object]: an
    object of that name is refused, an object larger than the device too, so is
    any when the table is full and cannot grow; else the object is added, or,
    only if no free stretch is long enough, it is refused, or the end of the table
    moves down, or it is written outside of the storage.  [write_object]
    likewise; when it finds no room it keeps the objects but counts the bytes of
    this one as free.  [get_object] fills the buffers and marks them valid. *)
Lemma object_calls_outcomes uninit d nm bs n :
  disk_ok d -> client_name nm -> whole bs -> is_u32 n -> n <= BSIZE * Z.of_nat (length bs) -> BSIZE * Z.of_nat (length bs) < 2 ^ 32 ->
  (fresh_end d -> add_outcome d nm bs n (add_object uninit nm bs n d)) /\
  ((n = 0 -> forall x, holds d nm x -> x = []) -> write_outcome d nm bs n (write_object uninit nm bs n d)) /\
  get_outcome d nm bs (get_object nm bs d).
Proof.
  intros D Hc Hw Hn Hnb Hl. split_and!.
  - by apply add_object_run.
  - by apply write_object_run.
  - by apply get_object_run.
Qed.

(** ** A device in use *)

Module StoreDemo.

Definition block_of (l : list Z) : buf := Buf 0 0 0 0 false 0 0 0 0 (l ++ replicate (1024 - length l) 0).
Definition vfs0 : list Z := replicate 68 0.
Definition holders0 : list memory_storage_holder := replicate MAX_OBJ_DEVS_NUM (Holder (fun _ => 0) false).
Definition zeros (_ : Z) : Z := 0.


(** An object is added, grows and is read back; a second one is deleted. *)
Definition session : M obj_device (list (Z * list Z)) :=
  r1 ← run_op zeros (OpAdd [97] [block_of [1; 2; 3]] 3);
  r2 ← run_op zeros (OpAdd [98] [block_of [7; 8]] 2);
  r3 ← run_op zeros (OpWrite [97] [block_of [9; 9; 9; 9; 9]] 5);
  r4 ← run_op zeros (OpDelete [98]);
  r5 ← run_op zeros (OpGet [98] []);
  r6 ← run_op zeros (OpSize [97]);
  r7 ← run_op zeros (OpGet [97] [block_of []]);
  mret [r1; r2; r3; r4; r5; r6; (r7.1, take 6 r7.2)].

Definition device0 : option obj_device :=
  match init_obj_device (Some vfs0) holders0 with inr (d, _) => Some d | inl _ => None end.

Lemma session_run :
  match device0 with
  | Some d => match session d with
              | inr (r, d') => (r, bytes_occupied (sb d'), occupied_objects (sb d'))
              | inl _ => ([], 0, 0)
              end
  | None => ([], 0, 0)
  end = ([(NO_ERR, []); (NO_ERR, []); (NO_ERR, []); (NO_ERR, []); (OBJECT_NOT_EXISTS, []); (NO_ERR, [5]); (NO_ERR, [9; 9; 9; 9; 9; 0])], 6497, 3).
Proof. vm_compute. reflexivity. Qed.

(** A name of all the bytes an entry has is added, but never found again. *)
Lemma longest_name_lost :
  let nm := replicate 20 97 in
  match device0 with
  | Some d => match (r1 ← run_op zeros (OpAdd nm [block_of [1]] 1); r2 ← run_op zeros (OpSize nm); mret (r1.1, r2.1)) d with
              | inr (r, _) => Some r
              | inl _ => None
              end
  | None => None
  end = Some (NO_ERR, OBJECT_NOT_EXISTS).
Proof. vm_compute. reflexivity. Qed.

Lemma fresh_device : exists d, disk_ok d /\ has_free d /\ (forall l y, ~ holds d l y) /\ store_offset (sb d) = 6492.
Proof.
  destruct (init_obj_device_run vfs0 holders0 0 (Holder (fun _ => 0) false)) as (d & _ & D & _ & F & H & E).
  - reflexivity.
  - repeat constructor; discriminate.
  - intros a. split; [discriminate|reflexivity].
  - reflexivity.
  - by exists d.
Qed.

Definition blocks (k : nat) : list buf := replicate k (block_of []).

Lemma blocks_whole k : whole (blocks k).
Proof. apply Forall_replicate. split; [reflexivity|]. apply Forall_replicate. split; lia. Qed.

Lemma name_a : client_name [97].
Proof. split_and!; [repeat constructor; lia|cbn; lia|done|done]. Qed.

Lemma name_b : client_name [98].
Proof. split_and!; [repeat constructor; lia|cbn; lia|done|done]. Qed.

(** One object takes almost all of the storage. *)
Lemma full_device : exists d e,
  disk_ok d /\ store_offset (sb d) = 6492 /\ absent d [98] /\ live (memory_storage d) (store_offset (sb d)) e /\
  sz (memory_storage d) e = 320000 /\ (forall i, live (memory_storage d) (store_offset (sb d)) i -> i = e).
Proof.
  destruct fresh_device as (d & D & F & H & E).
  pose proof (add_object_run zeros d D [97] (blocks 313) 320000 name_a (blocks_whole 313)
    ltac:(unfold is_u32; lia) ltac:(unfold blocks; rewrite length_replicate; unfold BSIZE; lia) (or_introl F)) as O.
  assert (has_room d 320000) as Hr.
  { exists 6492. rewrite E. split_and!; [lia|unfold STORAGE_DEVICE_SIZE; lia|]. intros i Hi.
    destruct (ok_names d D i) as [l Hl]; [by rewrite E|]. destruct (H l (bytes (memory_storage d) (off (memory_storage d) i) (sz (memory_storage d) i))).
    exists i. split; [by rewrite E|]. by split. }
  assert (forall d0, table_for d d0 -> d0 = d) as Hd0 by (intros d0 [[_ ?]|(? & _)]; done).
  destruct (add_object zeros [97] (blocks 313) 320000 d) as [x|[[err bs'] d']]; cbn [add_outcome] in O.
  { destruct O as (_ & _ & d0 & ->%Hd0 & Hno). by destruct (room_excludes d 320000 Hr). }
  destruct O as [(_ & _ & Ha)|[(_ & _ & Hb)|[(_ & _ & _ & Hnf & _)|(_ & d0 & ->%Hd0 & O)]]]; [|unfold STORAGE_DEVICE_SIZE in Hb; lia|done|].
  { destruct Ha. intros x. apply H. }
  destruct O as [(_ & _ & Hno)|[(_ & D' & Es & _ & W)|(_ & _ & Hno)]]; [by destruct (room_excludes d 320000 Hr)| |by destruct (room_excludes d 320000 Hr)].
  assert (forall l x, holds d' l x -> l = [97] /\ x = take (Z.to_nat 320000) (contents (blocks 313))) as Hone.
  { intros l x [?|Hx]%W; [done|]. by destruct (H l x). }
  assert (holds d' [97] (take (Z.to_nat 320000) (contents (blocks 313)))) as (e & Le & Ne & Hx) by (apply W; auto).
  exists d', e. split_and!; [done|congruence| |done| |].
  - intros x [Hx' _]%Hone. done.
  - pose proof (data_length (blocks 313) 320000 (blocks_whole 313) ltac:(unfold blocks; rewrite length_replicate; unfold BSIZE; lia)) as Hl.
    rewrite Hx, bytes_length in Hl. destruct (ext_in _ _ (ok_ext d' D') e Le) as (_ & ? & _). lia.
  - intros i Hi. destruct (ok_names d' D' i Hi) as [l Hl]. destruct (Hone l (bytes (memory_storage d') (off (memory_storage d') i) (sz (memory_storage d') i))) as [-> _].
    { by exists i. }
    destruct Hi, Le. apply (ok_unique d' D' i e [97]); [lia..|done|done|done|done].
Qed.


Lemma object_calls_outcomes_witness : exists d, disk_ok d /\
  add_outcome d [97] (blocks 1) 3 (add_object zeros [97] (blocks 1) 3 d) /\
  write_outcome d [97] (blocks 1) 3 (write_object zeros [97] (blocks 1) 3 d) /\
  get_outcome d [97] (blocks 1) (get_object [97] (blocks 1) d).
Proof.
  destruct fresh_device as (d & D & F & H & E). exists d. split; [exact D|].
  destruct (object_calls_outcomes zeros d [97] (blocks 1) 3 D name_a (blocks_whole 1)) as (H1 & H2 & H3).
  - split; [discriminate|reflexivity].
  - discriminate.
  - reflexivity.
  - split; [apply H1; left; exact F|]. split; [apply H2; discriminate|exact H3].
Defined.
End StoreDemo.
End Store.
