(* ===== verification/Device.v ===== *)
(** * The device table: kernel/device/device.c, ide_device.c, loop_device.c

    [dev_holder] is a table of [NMAXDEVS] devices with a reference count each and
    a counter of devices for each type.  Every routine runs under
    [dev_holder.lock], but for [deviceput], which gives it up around the
    [destroy] operation of a device that has one reference left.  What a routine
    asks of the inodes and of the buffer cache is recorded in [calls]. *)

From S2P Require Import Prelude.

Inductive device_type := DEVICE_TYPE_NONE | DEVICE_TYPE_IDE | DEVICE_TYPE_LOOP | DEVICE_TYPE_OBJ.
#[export] Instance device_type_eq_dec : EqDecision device_type.
Proof. solve_decision. Defined.

Definition MAX_LOOP_DEVS_NUM : Z := 10.
Definition MAX_IDE_DEVS_NUM : Z := 1.
Definition MAX_OBJ_DEVS_NUM : Z := 3.
Definition NMAXDEVS : nat := 14.
Definition ROOTDEV : Z := 1.

Inductive device_ops := default_device_ops | loop_device_ops.

Record device := Device {
  ref : Z;
  did : Z;
  dtype : device_type;
  private : Z;                 (* void *, 0 for NULL *)
  ops : option device_ops
}.

(** Calls of a routine on an inode or on the buffer cache. *)
Inductive dcall := Idup (ip : Z) | Iput (ip : Z) | Invalidate (dev : nat).

Record dev_holder := DevHolder { devs : list device; devs_count : list Z; calls : list dcall }.

Definition upd_dev (i : nat) (f : device -> device) (h : dev_holder) : dev_holder :=
  DevHolder (alter f i (devs h)) (devs_count h) (calls h).
Definition set_ref (v : Z) (d : device) : device := Device v (did d) (dtype d) (private d) (ops d).
Definition set_private (v : Z) (d : device) : device := Device (ref d) (did d) (dtype d) v (ops d).
Definition set_ops (v : option device_ops) (d : device) : device := Device (ref d) (did d) (dtype d) (private d) v.
Definition set_dtype (v : device_type) (d : device) : device := Device (ref d) (did d) v (private d) (ops d).
Definition call (c : dcall) (h : dev_holder) : dev_holder := DevHolder (devs h) (devs_count h) (calls h ++ [c]).

Definition type_index (t : device_type) : nat :=
  match t with DEVICE_TYPE_NONE => 0 | DEVICE_TYPE_IDE => 1 | DEVICE_TYPE_LOOP => 2 | DEVICE_TYPE_OBJ => 3 end.
Definition dev_to_max_count (t : device_type) : Z :=
  match t with
  | DEVICE_TYPE_NONE => 0 | DEVICE_TYPE_IDE => MAX_IDE_DEVS_NUM
  | DEVICE_TYPE_LOOP => MAX_LOOP_DEVS_NUM | DEVICE_TYPE_OBJ => MAX_OBJ_DEVS_NUM
  end.
Definition upd_count (t : device_type) (f : Z -> Z) (h : dev_holder) : dev_holder :=
  DevHolder (devs h) (alter f (type_index t) (devs_count h)) (calls h).

Definition get_dev (i : nat) : M dev_holder device := h ← getS; deref (devs h !! i).

Definition _get_new_device (type : device_type) : M dev_holder (option nat) :=
  if decide (type = DEVICE_TYPE_NONE) then panic "Assertion failed: type > DEVICE_TYPE_NONE"
  else
    h ← getS;
    n ← deref (devs_count h !! type_index type);
    if dev_to_max_count type <=? n then mret None
    else
      match list_find (fun d => ref d = 0 /\ dtype d = DEVICE_TYPE_NONE) (devs h) with
      | None => mret None
      | Some (dev, _) =>
          modS (upd_dev dev (fun d => set_ops (Some default_device_ops) (set_private 0 (set_dtype type (set_ref 1 d))))) ;;
          modS (upd_count type (fun n => n +u 1)) ;;
          mret (Some dev)
      end.

Definition deviceget (dev : nat) : M dev_holder unit :=
  d ← get_dev dev;
  if negb (0 <? ref d) then panic "Assertion failed: dev->ref > 0"
  else modS (upd_dev dev (fun d => set_ref (ref d +i 1) d)).

Definition destroy_dev_default (dev : nat) : M dev_holder unit := modS (upd_dev dev (set_private 0)).
Definition destory_loop_dev (dev : nat) : M dev_holder unit :=
  d ← get_dev dev;
  modS (call (Iput (private d))) ;;
  modS (call (Invalidate dev)) ;;
  modS (upd_dev dev (set_private 0)).
Definition destroy (dev : nat) : M dev_holder unit :=
  d ← get_dev dev;
  o ← deref (ops d);
  match o with default_device_ops => destroy_dev_default dev | loop_device_ops => destory_loop_dev dev end.

Definition deviceput (dev : nat) : M dev_holder unit :=
  d ← get_dev dev;
  if decide (dtype d = DEVICE_TYPE_NONE) then panic "Assertion failed: d->type > DEVICE_TYPE_NONE"
  else if negb (0 <? ref d) then panic "Assertion failed: d->ref > 0"
  else
    (if ref d =? 1 then
       destroy dev ;;
       h ← getS;
       n ← deref (devs_count h !! type_index (dtype d));
       if negb (0 <? n) then panic "Assertion failed: dev_holder.devs_count[d->type] > 0"
       else
         modS (upd_count (dtype d) (fun n => n -u 1)) ;;
         modS (upd_dev dev (fun d => set_ops None (set_private 0 (set_dtype DEVICE_TYPE_NONE d))))
     else mret tt) ;;
    modS (upd_dev dev (fun d => set_ref (ref d -i 1) d)).

(** The search of [get_ide_device] and [get_loop_device]. *)
Definition find_device (type : device_type) (p : Z) : M dev_holder (option nat) :=
  h ← getS;
  match list_find (fun d => private d <> 0 /\ private d = p /\ dtype d = type) (devs h) with
  | Some (dev, _) => modS (upd_dev dev (fun d => set_ref (ref d +i 1) d)) ;; mret (Some dev)
  | None => mret None
  end.
Definition get_ide_device (ide_port : Z) : M dev_holder (option nat) := find_device DEVICE_TYPE_IDE ide_port.
Definition get_loop_device (ip : Z) : M dev_holder (option nat) := find_device DEVICE_TYPE_LOOP ip.

Definition create_ide_device (ide_port : Z) : M dev_holder (option nat) :=
  dev ← _get_new_device DEVICE_TYPE_IDE;
  match dev with
  | None => mret None
  | Some dev => modS (upd_dev dev (fun d => set_ops (Some default_device_ops) (set_private ide_port d))) ;; mret (Some dev)
  end.
Definition create_loop_device (ip : Z) : M dev_holder (option nat) :=
  dev ← _get_new_device DEVICE_TYPE_LOOP;
  match dev with
  | None => mret None
  | Some dev =>
      modS (call (Idup ip)) ;;
      modS (upd_dev dev (fun d => set_ops (Some loop_device_ops) (set_private ip d))) ;;
      mret (Some dev)
  end.

Definition getinodefordevice (dev : nat) : M dev_holder Z :=
  d ← get_dev dev;
  if negb (bool_decide (dtype d = DEVICE_TYPE_LOOP)) then mret 0
  else if ref d =? 0 then mret 0
  else mret (private d).
Definition doesbackdevice (ip : Z) : M dev_holder Z :=
  h ← getS;
  mret (if existsb (fun d => bool_decide (dtype d = DEVICE_TYPE_LOOP) && (private d =? ip)) (devs h) then 1 else 0).

(** [devinit], but for the buffer cache and the disk it also initialises. *)
Definition devinit : M dev_holder unit :=
  modS (fun h => DevHolder (imap (fun i _ => Device 0 (Z.of_nat i) DEVICE_TYPE_NONE 0 None) (devs h)) (replicate 4 0) (calls h)) ;;
  dev ← create_ide_device ROOTDEV;
  match dev with None => panic "Failed to mount /!" | Some _ => mret tt end.

(** ** The table with the references its clients hold *)

Definition in_use (t : device_type) (d : device) : bool := bool_decide (dtype d = t).
Definition backs (ip : Z) (d : device) : bool := bool_decide (dtype d = DEVICE_TYPE_LOOP) && (private d =? ip).
Definition is_idup (ip : Z) (c : dcall) : bool := match c with Idup i => i =? ip | _ => false end.
Definition is_iput (ip : Z) (c : dcall) : bool := match c with Iput i => i =? ip | _ => false end.

(** [held] lists a device once for each reference to it. *)
Record dev_ok (h : dev_holder) (held : list nat) : Prop := {
  dk_len : length (devs h) = NMAXDEVS /\ length (devs_count h) = 4%nat;
  dk_dev : forall i d, devs h !! i = Some d ->
    did d = Z.of_nat i /\ ref d = Z.of_nat (count (Nat.eqb i) held) /\ (dtype d = DEVICE_TYPE_NONE <-> ref d = 0) /\
    (dtype d <> DEVICE_TYPE_NONE -> exists o, ops d = Some o /\ (o = loop_device_ops <-> dtype d = DEVICE_TYPE_LOOP));
  dk_held : Forall (fun i => (i < NMAXDEVS)%nat) held;
  dk_count : forall t, t <> DEVICE_TYPE_NONE ->
    devs_count h !! type_index t = Some (Z.of_nat (count (in_use t) (devs h))) /\ Z.of_nat (count (in_use t) (devs h)) <= dev_to_max_count t;
  dk_inodes : forall ip, count (is_idup ip) (calls h) = (count (is_iput ip) (calls h) + count (backs ip) (devs h))%nat
}.

Lemma get_dev_run h i d : devs h !! i = Some d -> get_dev i h = inr (d, h).
Proof. intros H. unfold get_dev. mrun. by rewrite H. Qed.

(** One device changes, with the references to it. *)
Lemma dev_ok_change h held h' held' i d d' : dev_ok h held -> devs h !! i = Some d -> devs h' = <[i := d']> (devs h) ->
  did d' = did d -> ref d' = Z.of_nat (count (Nat.eqb i) held') -> (dtype d' = DEVICE_TYPE_NONE <-> ref d' = 0) ->
  (dtype d' <> DEVICE_TYPE_NONE -> exists o, ops d' = Some o /\ (o = loop_device_ops <-> dtype d' = DEVICE_TYPE_LOOP)) ->
  (forall j, j <> i -> count (Nat.eqb j) held' = count (Nat.eqb j) held) -> Forall (fun i => (i < NMAXDEVS)%nat) held' ->
  length (devs_count h') = 4%nat ->
  (forall t, t <> DEVICE_TYPE_NONE -> devs_count h' !! type_index t = Some (Z.of_nat (count (in_use t) (<[i := d']> (devs h)))) /\
     Z.of_nat (count (in_use t) (<[i := d']> (devs h))) <= dev_to_max_count t) ->
  (forall ip, count (is_idup ip) (calls h') = (count (is_iput ip) (calls h') + count (backs ip) (<[i := d']> (devs h)))%nat) ->
  dev_ok h' held'.
Proof.
  intros [[H1 H1'] H2 H3 H4 H5] Hd E Hid Href Ht Hops Hcnt Hheld Hlen Hcount Hin. split; rewrite ?E; try done.
  - by rewrite length_insert.
  - intros j x Hj. destruct (decide (j = i)) as [->|Hne].
    + rewrite list_lookup_insert_eq in Hj by (by eapply lookup_lt_Some). injection Hj as <-. destruct (H2 i d Hd) as (? & _).
      split; [congruence|]. split; [done|]. split; [done|]. done.
    + rewrite list_lookup_insert_ne in Hj by done. rewrite (Hcnt j Hne). by apply H2.
Qed.

Lemma dev_ok_lookup h held i : dev_ok h held -> (i < NMAXDEVS)%nat -> exists d, devs h !! i = Some d.
Proof. intros Hok Hi. apply lookup_lt_is_Some_2. by rewrite (proj1 (dk_len _ _ Hok)). Qed.

Lemma count_cons_eq i l : count (Nat.eqb i) (i :: l) = S (count (Nat.eqb i) l).
Proof. rewrite count_cons, Nat.eqb_refl. done. Qed.
Lemma count_cons_ne i j l : j <> i -> count (Nat.eqb j) (i :: l) = count (Nat.eqb j) l.
Proof. intros H. rewrite count_cons. by rewrite (proj2 (Nat.eqb_neq j i) H). Qed.

(** The same device with another number of references, still in use. *)
Lemma dev_ok_ref h held held' i d v : dev_ok h held -> devs h !! i = Some d -> 0 < ref d -> 0 < v -> v = Z.of_nat (count (Nat.eqb i) held') ->
  (forall j, j <> i -> count (Nat.eqb j) held' = count (Nat.eqb j) held) -> Forall (fun i => (i < NMAXDEVS)%nat) held' ->
  dev_ok (upd_dev i (set_ref v) h) held'.
Proof.
  intros Hok Hd Hr Hv Ev Hcnt Hheld. pose proof Hok as [[H1 H1'] H2 H3 H4 H5]. destruct (H2 i d Hd) as (D1 & D2 & D3 & D4).
  assert (forall P : device -> bool, P (set_ref v d) = P d -> count P (<[i := set_ref v d]> (devs h)) = count P (devs h)) as Hcp.
  { intros P EP. pose proof (count_insert P (devs h) i d (set_ref v d) Hd) as Hc. rewrite EP in Hc. lia. }
  eapply (dev_ok_change h held _ held' i d (set_ref v d)); try done.
  - unfold upd_dev. simpl. by rewrite (alter_insert _ _ _ d Hd).
  - simpl. split; [intros E; apply D3 in E; lia|lia].
  - intros t Ht. rewrite (Hcp (in_use t)) by done. by apply H4.
  - intros ip. rewrite (Hcp (backs ip)) by done. apply H5.
Qed.

Lemma count_types l : (count (in_use DEVICE_TYPE_NONE) l + count (in_use DEVICE_TYPE_IDE) l + count (in_use DEVICE_TYPE_LOOP) l +
  count (in_use DEVICE_TYPE_OBJ) l = length l)%nat.
Proof. induction l as [|d l IH]; [done|]. rewrite !count_cons. unfold in_use at 1 3 5 7. destruct (dtype d); simpl; lia. Qed.

Lemma type_index_inj t t' : type_index t = type_index t' -> t = t'.
Proof. by destruct t, t'. Qed.

(** A device of a type below its maximum always finds a slot: the maxima add up to the size of the table. *)
Lemma slot_free h held t : dev_ok h held -> t <> DEVICE_TYPE_NONE -> Z.of_nat (count (in_use t) (devs h)) < dev_to_max_count t ->
  exists dev d, list_find (fun d => ref d = 0 /\ dtype d = DEVICE_TYPE_NONE) (devs h) = Some (dev, d) /\ devs h !! dev = Some d /\
    ref d = 0 /\ dtype d = DEVICE_TYPE_NONE.
Proof.
  intros Hok Ht Hlt. pose proof (count_types (devs h)) as Hc. rewrite (proj1 (dk_len _ _ Hok)) in Hc.
  pose proof (dk_count _ _ Hok DEVICE_TYPE_IDE ltac:(done)) as [_ M1]. pose proof (dk_count _ _ Hok DEVICE_TYPE_LOOP ltac:(done)) as [_ M2].
  pose proof (dk_count _ _ Hok DEVICE_TYPE_OBJ ltac:(done)) as [_ M3]. cbn in M1, M2, M3.
  assert (0 < count (in_use DEVICE_TYPE_NONE) (devs h))%nat as Hpos.
  { unfold NMAXDEVS, MAX_IDE_DEVS_NUM, MAX_LOOP_DEVS_NUM, MAX_OBJ_DEVS_NUM in *.
    destruct t; cbn in Hlt; unfold MAX_IDE_DEVS_NUM, MAX_LOOP_DEVS_NUM, MAX_OBJ_DEVS_NUM in Hlt; try done; lia. }
  apply count_pos in Hpos as (i & d & Hi & Hd%bool_decide_eq_true). destruct (dk_dev _ _ Hok i d Hi) as (_ & _ & Hr & _).
  destruct (list_find _ (devs h)) as [[dev e]|] eqn:E.
  - apply list_find_Some in E as (He & [E1 E2] & _). by exists dev, e.
  - rewrite list_find_None, Forall_forall in E. destruct (E d); [by eapply list_elem_of_lookup_2|]. split; [by apply Hr|done].
Qed.

Lemma get_new_run h held t : dev_ok h held -> t <> DEVICE_TYPE_NONE ->
  let n := Z.of_nat (count (in_use t) (devs h)) in
  if dev_to_max_count t <=? n then _get_new_device t h = inr (None, h)
  else exists dev d, devs h !! dev = Some d /\ ref d = 0 /\ dtype d = DEVICE_TYPE_NONE /\
    _get_new_device t h = inr (Some dev, DevHolder (<[dev := Device 1 (did d) t 0 (Some default_device_ops)]> (devs h))
                                          (<[type_index t := n + 1]> (devs_count h)) (calls h)).
Proof.
  intros Hok Ht n. unfold _get_new_device. rewrite decide_False by done. step (getS_run h).
  destruct (dk_count _ _ Hok t Ht) as [Hn Hmax]. fold n in Hn, Hmax. rewrite Hn. rewrite (bind_run _ _ h n h) by done.
  destruct (Z.leb_spec (dev_to_max_count t) n) as [Hle|Hlt]; [done|].
  destruct (slot_free h held t Hok Ht Hlt) as (dev & d & -> & Hd & Hr & Hty). exists dev, d. split; [done|]. split; [done|]. split; [done|].
  rewrite !modS_bind. unfold mret, M_ret. f_equal. f_equal. unfold upd_dev, upd_count. simpl.
  rewrite (alter_insert _ _ _ d Hd), (alter_insert _ _ _ n Hn). f_equal. f_equal.
  assert (n <= 10) by (destruct t; cbn in Hmax; unfold MAX_IDE_DEVS_NUM, MAX_LOOP_DEVS_NUM, MAX_OBJ_DEVS_NUM in *; lia). word.
Qed.

(** The new device in its slot, with one reference. *)
Lemma new_device_ok h held t dev d p o : dev_ok h held -> t <> DEVICE_TYPE_NONE -> devs h !! dev = Some d -> ref d = 0 -> dtype d = DEVICE_TYPE_NONE ->
  (o = loop_device_ops <-> t = DEVICE_TYPE_LOOP) -> Z.of_nat (count (in_use t) (devs h)) < dev_to_max_count t ->
  dev_ok (DevHolder (<[dev := Device 1 (did d) t p (Some o)]> (devs h)) (<[type_index t := Z.of_nat (count (in_use t) (devs h)) + 1]> (devs_count h))
            (calls h ++ if decide (t = DEVICE_TYPE_LOOP) then [Idup p] else [])) (dev :: held).
Proof.
  intros Hok Ht Hd Hr Hty Ho Hlt. pose proof Hok as [[H1 H1'] H2 H3 H4 H5]. destruct (H2 dev d Hd) as (D1 & D2 & D3 & D4).
  set (d' := Device 1 (did d) t p (Some o)).
  eapply (dev_ok_change h held _ (dev :: held) dev d d'); try done.
  - rewrite count_cons_eq. simpl. lia.
  - simpl. intros _. by exists o.
  - intros j Hj. by apply count_cons_ne.
  - constructor; [|done]. rewrite <- H1. by eapply lookup_lt_Some.
  - simpl. by rewrite length_insert.
  - intros t' Ht'. simpl. pose proof (count_insert (in_use t') (devs h) dev d d' Hd) as Hc. unfold in_use at 2 4 in Hc. rewrite Hty in Hc.
    rewrite (bool_decide_eq_false_2 (DEVICE_TYPE_NONE = t')) in Hc by congruence. simpl in Hc.
    destruct (decide (t' = t)) as [->|Hne].
    + rewrite bool_decide_eq_true_2 in Hc by done. rewrite list_lookup_insert_eq by (rewrite H1'; destruct t; simpl; lia). split; [f_equal; lia|lia].
    + rewrite bool_decide_eq_false_2 in Hc by congruence. rewrite list_lookup_insert_ne by (intros E; by apply Hne, symmetry, type_index_inj).
      replace (count (in_use t') (<[dev:=d']> (devs h))) with (count (in_use t') (devs h)) by lia. by apply H4.
  - intros ip. cbn [calls]. rewrite !count_app. pose proof (count_insert (backs ip) (devs h) dev d d' Hd) as Hc. unfold backs at 2 4 in Hc.
    rewrite Hty in Hc. simpl in Hc. specialize (H5 ip). destruct (decide (t = DEVICE_TYPE_LOOP)) as [->|Hn].
    + simpl in Hc. rewrite !count_cons, !count_nil. simpl. destruct (p =? ip); lia.
    + rewrite (bool_decide_eq_false_2 (t = DEVICE_TYPE_LOOP)) in Hc by done. rewrite !count_nil. simpl in Hc. lia.
Qed.

(** ** The operations on a table with its references *)

Lemma held_ref h held dev d : dev_ok h held -> devs h !! dev = Some d -> dev ∈ held -> 0 < ref d /\ dtype d <> DEVICE_TYPE_NONE.
Proof.
  intros Hok Hd Hin. destruct (dk_dev _ _ Hok dev d Hd) as (_ & Hr & Hn & _).
  assert (0 < count (Nat.eqb dev) held)%nat as Hc.
  { apply list_elem_of_split in Hin as (l1 & l2 & ->). rewrite count_app, count_cons_eq. lia. }
  split; [lia|]. intros E%Hn. lia.
Qed.

Lemma deviceget_run h held dev : dev_ok h held -> dev ∈ held -> Z.of_nat (length held) < 2 ^ 31 - 1 ->
  exists h', deviceget dev h = inr (tt, h') /\ dev_ok h' (dev :: held).
Proof.
  intros Hok Hin Hlen. pose proof (dk_held _ _ Hok) as Hf. rewrite Forall_forall in Hf. destruct (dev_ok_lookup h held dev Hok (Hf dev Hin)) as [d Hd].
  destruct (held_ref h held dev d Hok Hd Hin) as [Hr _]. destruct (dk_dev _ _ Hok dev d Hd) as (_ & Er & _).
  unfold deviceget. step (get_dev_run h dev d Hd). rewrite (proj2 (Z.ltb_lt 0 (ref d)) Hr). cbn [negb]. eexists. split; [reflexivity|].
  pose proof (count_le_length (Nat.eqb dev) held) as Hle.
  assert (upd_dev dev (fun d => set_ref (ref d +i 1) d) h = upd_dev dev (set_ref (ref d + 1)) h) as ->.
  { unfold upd_dev. f_equal. apply list_alter_ext; [|done]. intros e He. assert (e = d) as -> by congruence. f_equal. word. }
  apply (dev_ok_ref h held (dev :: held) dev d); try done; [lia|rewrite count_cons_eq; lia|intros j Hj; by apply count_cons_ne|].
  constructor; [by apply Hf|by apply Forall_forall].
Qed.

Lemma count_remove i dev l1 l2 : count (Nat.eqb i) (l1 ++ dev :: l2) = ((if decide (i = dev) then 1 else 0) + count (Nat.eqb i) (l1 ++ l2))%nat.
Proof.
  rewrite !count_app. destruct (decide (i = dev)) as [->|Hne]; [rewrite count_cons_eq|rewrite count_cons_ne by done]; lia.
Qed.

(** The last reference goes: the device is destroyed and its slot is free again. *)
Definition emptied (dev : nat) (d : device) (h : dev_holder) : dev_holder :=
  DevHolder (<[dev := Device 0 (did d) DEVICE_TYPE_NONE 0 None]> (devs h))
    (<[type_index (dtype d) := Z.of_nat (count (in_use (dtype d)) (devs h)) - 1]> (devs_count h))
    (calls h ++ if decide (dtype d = DEVICE_TYPE_LOOP) then [Iput (private d); Invalidate dev] else []).

Lemma count_in_use h dev d : devs h !! dev = Some d -> (0 < count (in_use (dtype d)) (devs h))%nat.
Proof. intros Hd. apply (count_elem _ _ dev d Hd). by apply bool_decide_eq_true. Qed.

Lemma emptied_ok h dev d l1 l2 : dev_ok h (l1 ++ dev :: l2) -> devs h !! dev = Some d -> ref d = 1 -> dtype d <> DEVICE_TYPE_NONE ->
  dev_ok (emptied dev d h) (l1 ++ l2).
Proof.
  intros Hok Hd Hr Hty. pose proof Hok as [[H1 H1'] H2 H3 H4 H5]. destruct (H2 dev d Hd) as (D1 & D2 & D3 & D4).
  rewrite count_remove, decide_True in D2 by done. pose proof (count_in_use h dev d Hd) as Hpos.
  set (d' := Device 0 (did d) DEVICE_TYPE_NONE 0 None). eapply (dev_ok_change h _ _ _ dev d d'); try done.
  - simpl. lia.
  - intros j Hj. rewrite count_remove. by rewrite decide_False.
  - apply Forall_app in H3 as [? [_ ?]%Forall_cons]. by apply Forall_app.
  - simpl. by rewrite length_insert.
  - intros t Ht. simpl. pose proof (count_insert (in_use t) (devs h) dev d d' Hd) as Hc. unfold in_use at 2 4 in Hc. simpl in Hc.
    rewrite (bool_decide_eq_false_2 (DEVICE_TYPE_NONE = t)) in Hc by congruence.
    destruct (H4 t Ht) as [Hn Hm]. destruct (decide (t = dtype d)) as [->|Hne].
    + rewrite bool_decide_eq_true_2 in Hc by done. rewrite list_lookup_insert_eq by (rewrite H1'; destruct (dtype d); simpl; lia).
      split; [f_equal; lia|lia].
    + rewrite bool_decide_eq_false_2 in Hc by congruence. rewrite list_lookup_insert_ne by (intros E; by apply Hne, symmetry, type_index_inj).
      replace (count (in_use t) (<[dev:=d']> (devs h))) with (count (in_use t) (devs h)) by lia. done.
  - intros ip. cbn [emptied calls]. rewrite !count_app. pose proof (count_insert (backs ip) (devs h) dev d d' Hd) as Hc. unfold backs at 2 4 in Hc.
    simpl in Hc. specialize (H5 ip). destruct (decide (dtype d = DEVICE_TYPE_LOOP)) as [E|Hn].
    + rewrite bool_decide_eq_true_2 in Hc by done. rewrite !count_cons, !count_nil. simpl in *. destruct (private d =? ip); lia.
    + rewrite bool_decide_eq_false_2 in Hc by done. rewrite !count_nil. simpl in Hc. lia.
Qed.

Lemma destroy_run h held dev d : dev_ok h held -> devs h !! dev = Some d -> dtype d <> DEVICE_TYPE_NONE ->
  destroy dev h = inr (tt, DevHolder (<[dev := set_private 0 d]> (devs h)) (devs_count h)
    (calls h ++ if decide (dtype d = DEVICE_TYPE_LOOP) then [Iput (private d); Invalidate dev] else [])).
Proof.
  intros Hok Hd Hty. destruct (dk_dev _ _ Hok dev d Hd) as (_ & _ & _ & (o & Ho & Hlp)%(fun f => f Hty)).
  unfold destroy. step (get_dev_run h dev d Hd). rewrite Ho. rewrite (bind_run _ _ h o h) by done. destruct o.
  - rewrite decide_False by (by rewrite <- Hlp). unfold destroy_dev_default, modS, upd_dev. by rewrite app_nil_r, (alter_insert _ _ _ d Hd).
  - rewrite decide_True by (by apply Hlp). unfold destory_loop_dev. step (get_dev_run h dev d Hd). rewrite !modS_bind.
    unfold modS, upd_dev, call. simpl. by rewrite (alter_insert _ _ _ d Hd), <- app_assoc.
Qed.

Lemma deviceput_run h l1 dev l2 : dev_ok h (l1 ++ dev :: l2) -> Z.of_nat (length (l1 ++ dev :: l2)) < 2 ^ 31 ->
  exists h', deviceput dev h = inr (tt, h') /\ dev_ok h' (l1 ++ l2).
Proof.
  intros Hok Hlen. pose proof (dk_held _ _ Hok) as Hf. assert (dev ∈ l1 ++ dev :: l2) as Hin by (apply elem_of_app; right; by left).
  rewrite Forall_forall in Hf. destruct (dev_ok_lookup h _ dev Hok (Hf dev Hin)) as [d Hd].
  destruct (held_ref h _ dev d Hok Hd Hin) as [Hr Hty]. destruct (dk_dev _ _ Hok dev d Hd) as (_ & Er & _). rewrite count_remove, decide_True in Er by done.
  pose proof (count_le_length (Nat.eqb dev) (l1 ++ dev :: l2)) as Hle. rewrite count_remove, decide_True in Hle by done.
  unfold deviceput. step (get_dev_run h dev d Hd). rewrite decide_False by done. rewrite (proj2 (Z.ltb_lt 0 (ref d)) Hr). cbn [negb].
  destruct (Z.eqb_spec (ref d) 1) as [E1|Hne].
  - exists (emptied dev d h). split; [|by apply emptied_ok]. rewrite bind_assoc. step (destroy_run h _ dev d Hok Hd Hty).
    rewrite bind_assoc. step (getS_run (DevHolder (<[dev := set_private 0 d]> (devs h)) (devs_count h)
      (calls h ++ if decide (dtype d = DEVICE_TYPE_LOOP) then [Iput (private d); Invalidate dev] else []))).
    cbn [devs_count]. destruct (dk_count _ _ Hok _ Hty) as [Hn Hm]. pose proof (count_in_use h dev d Hd) as Hpos. rewrite Hn.
    rewrite bind_assoc. set (n := count (in_use (dtype d)) (devs h)) in *. rewrite (bind_run _ _ _ (Z.of_nat n) _) by reflexivity.
    rewrite (proj2 (Z.ltb_lt 0 (Z.of_nat n))) by lia. cbn [negb]. rewrite bind_assoc, !modS_bind. unfold modS. f_equal. f_equal.
    unfold upd_dev, upd_count, emptied. simpl. fold n. rewrite (alter_insert _ _ _ _ Hn).
    assert (n <= 10)%nat by (destruct (dtype d); cbn in Hm; unfold MAX_IDE_DEVS_NUM, MAX_LOOP_DEVS_NUM, MAX_OBJ_DEVS_NUM in *; lia).
    assert (Z.of_nat n -u 1 = Z.of_nat n - 1) as -> by word. f_equal.
    rewrite !list_insert_alter, !list_alter_alter_eq. apply list_alter_ext; [|done]. intros e He. unfold compose, set_ref. simpl. by rewrite E1.
  - exists (upd_dev dev (set_ref (ref d - 1)) h). split.
    + rewrite (bind_run _ _ h tt h) by done. unfold modS. f_equal. f_equal. unfold upd_dev. f_equal. apply list_alter_ext; [|done].
      intros e He. assert (e = d) as -> by congruence. f_equal. rewrite length_app in Hlen. simpl in Hlen. rewrite length_app in Hle. simpl in Hle. word.
    + apply (dev_ok_ref h (l1 ++ dev :: l2) (l1 ++ l2) dev d); try done; try lia.
      * intros j Hj. rewrite count_remove. by rewrite decide_False.
      * rewrite Forall_forall. intros i Hi. apply Hf. set_solver.
Qed.

Lemma find_device_run h held t p : dev_ok h held -> t <> DEVICE_TYPE_NONE -> Z.of_nat (length held) < 2 ^ 31 - 1 ->
  exists r h', find_device t p h = inr (r, h') /\
    match r with
    | None => h' = h /\ Forall (fun d => ~ (private d <> 0 /\ private d = p /\ dtype d = t)) (devs h)
    | Some dev => dev_ok h' (dev :: held) /\ exists d, devs h !! dev = Some d /\ private d = p /\ dtype d = t
    end.
Proof.
  intros Hok Ht Hlen. unfold find_device. step (getS_run h). destruct (list_find _ (devs h)) as [[dev d]|] eqn:E.
  - apply list_find_Some in E as (Hd & (Hp & Ep & Ety) & _). destruct (dk_dev _ _ Hok dev d Hd) as (_ & Er & Hn & _).
    assert (0 < ref d) as Hr by (assert (ref d <> 0) by (intros E0%Hn; congruence); lia).
    exists (Some dev). eexists. split; [rewrite modS_bind; reflexivity|]. split; [|by exists d].
    pose proof (count_le_length (Nat.eqb dev) held) as Hle.
    assert (upd_dev dev (fun d => set_ref (ref d +i 1) d) h = upd_dev dev (set_ref (ref d + 1)) h) as ->.
    { unfold upd_dev. f_equal. apply list_alter_ext; [|done]. intros e He. assert (e = d) as -> by congruence. f_equal. word. }
    apply (dev_ok_ref h held (dev :: held) dev d); try done; [lia|rewrite count_cons_eq; lia|intros j Hj; by apply count_cons_ne|].
    constructor; [|apply Hok]. rewrite <- (proj1 (dk_len _ _ Hok)). by eapply lookup_lt_Some.
  - exists None, h. split; [done|]. split; [done|]. by rewrite list_find_None in E.
Qed.

(** What a routine that makes a device of type [t] does. *)
Definition makes (t : device_type) (h : dev_holder) (held : list nat) (m : M dev_holder (option nat)) : Prop :=
  if dev_to_max_count t <=? Z.of_nat (count (in_use t) (devs h)) then m h = inr (None, h)
  else exists dev h', m h = inr (Some dev, h') /\ dev_ok h' (dev :: held) /\ dev ∉ held.

Lemma free_not_held h held dev d : dev_ok h held -> devs h !! dev = Some d -> ref d = 0 -> dev ∉ held.
Proof. intros Hok Hd Hr Hin. destruct (held_ref h held dev d Hok Hd Hin). lia. Qed.

(** A routine that takes a new device of type [t] and gives it its private field and operations. *)
Lemma makes_new t o p h held m : dev_ok h held -> t <> DEVICE_TYPE_NONE -> (o = loop_device_ops <-> t = DEVICE_TYPE_LOOP) ->
  (_get_new_device t h = inr (None, h) -> m h = inr (None, h)) ->
  (forall dev h1, _get_new_device t h = inr (Some dev, h1) ->
     m h = inr (Some dev, DevHolder (alter (fun d => set_ops (Some o) (set_private p d)) dev (devs h1)) (devs_count h1)
                            (calls h1 ++ if decide (t = DEVICE_TYPE_LOOP) then [Idup p] else []))) ->
  makes t h held m.
Proof.
  intros Hok Ht Ho H1 H2. unfold makes. pose proof (get_new_run h held t Hok Ht) as H. cbv zeta in H.
  destruct (Z.leb_spec (dev_to_max_count t) (Z.of_nat (count (in_use t) (devs h)))) as [Hle|Hlt]; [by apply H1|].
  destruct H as (dev & d & Hd & Hr & Hty & E). apply H2 in E. exists dev. eexists. split; [exact E|].
  split; [|by apply (free_not_held h held dev d)]. pose proof (new_device_ok h held t dev d p o Hok Ht Hd Hr Hty Ho Hlt) as Hn.
  cbn [devs devs_count calls]. rewrite list_insert_alter, list_alter_alter_eq. rewrite list_insert_alter in Hn. exact Hn.
Qed.

Lemma create_runs h held p : dev_ok h held ->
  makes DEVICE_TYPE_IDE h held (create_ide_device p) /\ makes DEVICE_TYPE_LOOP h held (create_loop_device p) /\
  makes DEVICE_TYPE_OBJ h held (_get_new_device DEVICE_TYPE_OBJ).
Proof.
  intros Hok. split; [|split].
  - apply (makes_new _ default_device_ops p); try done; unfold create_ide_device; [intros E; by step E|]. intros dev h1 E. step E.
    by rewrite app_nil_r.
  - apply (makes_new _ loop_device_ops p); try done; unfold create_loop_device; [intros E; by step E|]. intros dev h1 E. by step E.
  - apply (makes_new _ default_device_ops 0); try done. intros dev h1 E. rewrite E. pose proof (get_new_run h held DEVICE_TYPE_OBJ Hok ltac:(done)) as H.
    cbv zeta in H. destruct (dev_to_max_count _ <=? _); [congruence|]. destruct H as (dev' & d & Hd & _ & _ & E'). rewrite E in E'.
    injection E' as -> ->. cbn [devs devs_count calls]. by rewrite app_nil_r, list_insert_alter, list_alter_alter_eq.
Qed.

(** ** Runs of the table *)

Definition push (r : option nat) (held : list nat) : list nat := match r with Some dev => dev :: held | None => held end.

(** The clients use only the references they hold. *)
Inductive dstep : dev_holder * list nat -> dev_holder * list nat -> Prop :=
| d_ide p h held r h' : create_ide_device p h = inr (r, h') -> dstep (h, held) (h', push r held)
| d_loop p h held r h' : create_loop_device p h = inr (r, h') -> dstep (h, held) (h', push r held)
| d_obj h held r h' : _get_new_device DEVICE_TYPE_OBJ h = inr (r, h') -> dstep (h, held) (h', push r held)
| d_get_ide p h held r h' : Z.of_nat (length held) < 2 ^ 31 - 1 -> get_ide_device p h = inr (r, h') -> dstep (h, held) (h', push r held)
| d_get_loop p h held r h' : Z.of_nat (length held) < 2 ^ 31 - 1 -> get_loop_device p h = inr (r, h') -> dstep (h, held) (h', push r held)
| d_get h held dev h' : Z.of_nat (length held) < 2 ^ 31 - 1 -> dev ∈ held -> deviceget dev h = inr (tt, h') -> dstep (h, held) (h', dev :: held)
| d_put h l1 dev l2 h' : Z.of_nat (length (l1 ++ dev :: l2)) < 2 ^ 31 -> deviceput dev h = inr (tt, h') -> dstep (h, l1 ++ dev :: l2) (h', l1 ++ l2).

Lemma makes_ok t h held m r h' : dev_ok h held -> makes t h held m -> m h = inr (r, h') -> dev_ok h' (push r held).
Proof.
  unfold makes. intros Hok. case_match; [intros -> [= <- <-]; done|]. intros (dev & h1 & -> & Hn & _) [= <- <-]. done.
Qed.

Lemma found_ok t h held p r h' : dev_ok h held -> t <> DEVICE_TYPE_NONE -> Z.of_nat (length held) < 2 ^ 31 - 1 ->
  find_device t p h = inr (r, h') -> dev_ok h' (push r held).
Proof.
  intros Hok Ht Hlen E. destruct (find_device_run h held t p Hok Ht Hlen) as (r' & h1 & E' & H). rewrite E in E'. injection E' as <- <-.
  destruct r as [dev|]; [apply H|]. by destruct H as [-> _].
Qed.

Lemma dstep_ok x y : dstep x y -> dev_ok x.1 x.2 -> dev_ok y.1 y.2.
Proof.
  destruct 1 as [p h held r h' E|p h held r h' E|h held r h' E|p h held r h' Hl E|p h held r h' Hl E|h held dev h' Hl Hin E|h l1 dev l2 h' Hl E];
    cbn [fst snd]; intros Hok.
  - by apply (makes_ok _ h held _ r h' Hok (proj1 (create_runs h held p Hok))).
  - by apply (makes_ok _ h held _ r h' Hok (proj1 (proj2 (create_runs h held p Hok)))).
  - by apply (makes_ok _ h held _ r h' Hok (proj2 (proj2 (create_runs h held 0 Hok)))).
  - by apply (found_ok DEVICE_TYPE_IDE h held p).
  - by apply (found_ok DEVICE_TYPE_LOOP h held p).
  - destruct (deviceget_run h held dev Hok Hin Hl) as (h1 & E' & H). congruence.
  - destruct (deviceput_run h l1 dev l2 Hok Hl) as (h1 & E' & H). congruence.
Qed.

Lemma devinit_run h : length (devs h) = NMAXDEVS -> calls h = [] -> exists h', devinit h = inr (tt, h') /\ dev_ok h' [0%nat].
Proof.
  intros Hlen Hc. set (h0 := DevHolder (imap (fun i _ => Device 0 (Z.of_nat i) DEVICE_TYPE_NONE 0 None) (devs h)) (replicate 4 0) (calls h)).
  assert (dev_ok h0 []) as Hok.
  { assert (forall i d, devs h0 !! i = Some d -> d = Device 0 (Z.of_nat i) DEVICE_TYPE_NONE 0 None) as Hd.
    { intros i d. simpl. rewrite list_lookup_imap. destruct (devs h !! i); [|done]. by intros [= <-]. }
    assert (forall P : device -> bool, (forall i, P (Device 0 i DEVICE_TYPE_NONE 0 None) = false) -> count P (devs h0) = 0%nat) as Hz.
    { intros P HP. apply count_none. intros d [i Hi]%list_elem_of_lookup. by rewrite (Hd i d Hi). }
    split; try done.
    - simpl. by rewrite length_imap.
    - intros i d Hi. rewrite (Hd i d Hi). done.
    - intros t Ht. rewrite Hz by (intros; by apply bool_decide_eq_false). by destruct t.
    - intros ip. rewrite Hz by done. simpl. by rewrite Hc. }
  unfold devinit. rewrite modS_bind. fold h0. pose proof (proj1 (create_runs h0 [] ROOTDEV Hok)) as Hm. unfold makes in Hm.
  replace (count (in_use DEVICE_TYPE_IDE) (devs h0)) with 0%nat in Hm.
  2:{ symmetry. apply count_none. intros d [i Hi]%list_elem_of_lookup. simpl in Hi. rewrite list_lookup_imap in Hi. destruct (devs h !! i); [|done]. by injection Hi as <-. }
  cbn in Hm. destruct Hm as (dev & h' & E & H & _). assert (dev = 0%nat) as ->.
  { unfold create_ide_device, _get_new_device in E. cbn in E. destruct (devs h) as [|d0 l]; [done|]. cbn in E. by injection E as <- _. }
  exists h'. split; [by step E|done].
Qed.

Lemma dstep_reach h0 h1 h held : length (devs h0) = NMAXDEVS -> calls h0 = [] -> devinit h0 = inr (tt, h1) ->
  rtc dstep (h1, [0%nat]) (h, held) -> dev_ok h held.
Proof.
  intros Hl Hc E H. destruct (devinit_run h0 Hl Hc) as (h1' & E' & Hok). assert (h1' = h1) as -> by congruence.
  assert (forall x y, rtc dstep x y -> dev_ok x.1 x.2 -> dev_ok y.1 y.2) as Hgen.
  { induction 1 as [x|x y z Hst _ IH]; [done|]. intros Hx. apply IH. by eapply dstep_ok. }
  by apply (Hgen _ _ H).
Qed.


