(* ===== verification/NativeFs.v ===== *)
(** * The native file system: kernel/fs/native_fs.c

    Blocks, inodes, file contents and directories.  The file system reaches its
    disk through [bread], [log_write] and [buf_cache_release]; here they are the
    operations of a class [BlockOps] on some state, and the laws of [Blocks] say
    what the file system relies on: a block read is a buffer with the block's
    contents, held until it is released.  [FsLog] shows that the buffer cache and
    the log of [BufCache] and [Log] keep these laws.

    An inode is its slot in the inode cache, a super block its place in a table.
    The local vector a directory entry is read into is a buffer of 16 bytes; its
    allocation is not modelled. *)

From S2P Require Import Prelude BufCache Log Device.

Definition ROOTINO : Z := 1.
Definition NDIRECT : nat := 12.
Definition NINDIRECT : nat := 256.
Definition MAXFILE : Z := 268.
Definition IPB : Z := 16.
Definition BPB : Z := 8192.
Definition DIRSIZ : nat := 14.
Definition NINODE : nat := 60.
Definition NDEV_ : Z := 10.
Definition MAX_TTY : Z := 4.
Definition T_DIR : Z := 1.
Definition T_FILE : Z := 2.
Definition T_DEV : Z := 3.
Definition DINODE_SIZE : nat := 64.
Definition DIRENT_SIZE : Z := 16.

(** The block layer the file system is written against. *)
Class BlockOps (S : Type) := {
  bl_bread : nat -> Z -> M S nat;
  bl_data : nat -> M S block;
  bl_store : nat -> block -> M S unit;
  bl_log_write : nat -> M S unit;
  bl_release : nat -> M S unit
}.

Record native_superblock := NativeSuperblock {
  sb_size : Z; nblocks : Z; nlog : Z; logstart : Z; inodestart : Z; bmapstart : Z; ninodes : Z
}.
Record sbpriv := Sbpriv { sb : native_superblock; sb_dev : nat }.
Record vfs_superblock := VfsSuperblock { sb_priv : option sbpriv; root_ip : option nat }.

Record native_inode := NativeInode {
  addrs : list Z;
  isb : nat;           (* sb *)
  inum : Z;
  iref : Z;
  ilocked : bool;      (* lock.locked *)
  ivalid : bool;
  itype : Z;
  imajor : Z;
  iminor : Z;
  nlink : Z;
  isize : Z
}.

Record fsys (S : Type) := Fsys { blk : S; sbs : list vfs_superblock; icache : list native_inode; devices : dev_holder }.
Arguments Fsys {S}.
Arguments blk {S}.
Arguments sbs {S}.
Arguments icache {S}.
Arguments devices {S}.

Definition set_addrs v i := NativeInode v (isb i) (inum i) (iref i) (ilocked i) (ivalid i) (itype i) (imajor i) (iminor i) (nlink i) (isize i).
Definition set_iref v i := NativeInode (addrs i) (isb i) (inum i) v (ilocked i) (ivalid i) (itype i) (imajor i) (iminor i) (nlink i) (isize i).
Definition set_ilocked v i := NativeInode (addrs i) (isb i) (inum i) (iref i) v (ivalid i) (itype i) (imajor i) (iminor i) (nlink i) (isize i).
Definition set_ivalid v i := NativeInode (addrs i) (isb i) (inum i) (iref i) (ilocked i) v (itype i) (imajor i) (iminor i) (nlink i) (isize i).
Definition set_itype v i := NativeInode (addrs i) (isb i) (inum i) (iref i) (ilocked i) (ivalid i) v (imajor i) (iminor i) (nlink i) (isize i).
Definition set_isize v i := NativeInode (addrs i) (isb i) (inum i) (iref i) (ilocked i) (ivalid i) (itype i) (imajor i) (iminor i) (nlink i) v.

(** Fields of on-disk structures. *)
Definition s16 (n : Z) : Z := (n + 2 ^ 15) mod 2 ^ 16 - 2 ^ 15.
Definition get16 (l : block) (off : nat) : Z := l !!! off + 2 ^ 8 * l !!! (off + 1)%nat.
Definition put16 (l : block) (off : nat) (v : Z) : block := <[(off + 1)%nat := u8 (v / 2 ^ 8)]> (<[off := u8 v]> l).
Fixpoint get32s (l : block) (off n : nat) : list Z :=
  match n with O => [] | S n => get32 l off :: get32s l (off + 4) n end.
Fixpoint put32s (l : block) (off : nat) (vs : list Z) : block :=
  match vs with [] => l | v :: vs => put32s (put32 l off v) (off + 4) vs end.
(** [memmove] into a block at [off]. *)
Definition splice (l : block) (off : nat) (src : list Z) : block := take off l ++ src ++ drop (off + length src) l.
Definition slice (l : block) (off n : nat) : list Z := take n (drop off l).

Definition IBLOCK (i : Z) (sb : native_superblock) : Z := u32 (i / IPB + inodestart sb).
Definition BBLOCK (b : Z) (sb : native_superblock) : Z := u32 (b / BPB + bmapstart sb).
Definition dinode_off (inum : Z) : nat := (Z.to_nat (inum mod IPB) * DINODE_SIZE)%nat.

Section fs.
Context {S : Type} {BO : BlockOps S}.

Definition onblk {A} (m : M S A) : M (fsys S) A := fun s =>
  match m (blk s) with inl e => inl e | inr (a, b) => inr (a, Fsys b (sbs s) (icache s) (devices s)) end.
Definition ondev {A} (m : M dev_holder A) : M (fsys S) A := fun s =>
  match m (devices s) with inl e => inl e | inr (a, d) => inr (a, Fsys (blk s) (sbs s) (icache s) d) end.
Definition upd_inode (i : nat) (f : native_inode -> native_inode) (s : fsys S) : fsys S :=
  Fsys (blk s) (sbs s) (alter f i (icache s)) (devices s).
Definition upd_vsb (k : nat) (f : vfs_superblock -> vfs_superblock) (s : fsys S) : fsys S :=
  Fsys (blk s) (alter f k (sbs s)) (icache s) (devices s).
Definition get_inode (i : nat) : M (fsys S) native_inode := s ← getS; deref (icache s !! i).
Definition sb_private (k : nat) : M (fsys S) sbpriv := s ← getS; deref (sbs s !! k ≫= sb_priv).

(** XV6_ASSERT(vfs_sb->private != NULL) *)
Definition assert_private (k : nat) : M (fsys S) unit :=
  s ← getS;
  match sbs s !! k ≫= sb_priv with Some _ => mret tt | None => panic "Assertion failed: vfs_sb->private != NULL" end.

Definition fs_bread (k : nat) (blockno : Z) : M (fsys S) nat :=
  p ← sb_private k; onblk (bl_bread (sb_dev p) blockno).

Definition sb_of_block (d : block) : native_superblock :=
  NativeSuperblock (get32 d 0) (get32 d 4) (get32 d 8) (get32 d 12) (get32 d 16) (get32 d 20) (get32 d 24).
Definition set_sb (v : native_superblock) (x : vfs_superblock) : vfs_superblock :=
  VfsSuperblock ((fun p => Sbpriv v (sb_dev p)) <$> sb_priv x) (root_ip x).

Definition readsb (k : nat) : M (fsys S) unit :=
  bp ← fs_bread k 1;
  d ← onblk (bl_data bp);
  modS (upd_vsb k (set_sb (sb_of_block d))) ;;
  onblk (bl_release bp).

Definition bzero (k : nat) (bno : Z) : M (fsys S) unit :=
  bp ← fs_bread k bno;
  onblk (bl_store bp (replicate (Z.to_nat BSIZE) 0)) ;;
  onblk (bl_log_write bp) ;;
  onblk (bl_release bp).

(** Bit [bi] of a bitmap block. *)
Definition bit (d : block) (bi : Z) : bool := negb (Z.land (d !!! Z.to_nat (bi / 8)) (Z.shiftl 1 (bi mod 8)) =? 0).
Definition set_bit (d : block) (bi : Z) : block :=
  <[Z.to_nat (bi / 8) := Z.lor (d !!! Z.to_nat (bi / 8)) (Z.shiftl 1 (bi mod 8))]> d.
Definition clear_bit (d : block) (bi : Z) : block :=
  <[Z.to_nat (bi / 8) := Z.land (d !!! Z.to_nat (bi / 8)) (u8 (Z.lnot (Z.shiftl 1 (bi mod 8))))]> d.

(** The first free block among the [n] whose bits follow [bi]. *)
Fixpoint free_bit (n : nat) (d : block) (bi : Z) : option Z :=
  match n with
  | O => None
  | Datatypes.S n => if bit d bi then free_bit n d (bi + 1) else Some bi
  end.

Fixpoint balloc_loop (fuel : nat) (k : nat) (b : Z) : M (fsys S) Z :=
  match fuel with
  | O => nofuel
  | Datatypes.S fuel =>
      p ← sb_private k;
      if b <? sb_size (sb p) then
        bp ← fs_bread k (BBLOCK b (sb p));
        d ← onblk (bl_data bp);
        match free_bit (Z.to_nat (Z.min BPB (sb_size (sb p) - b))) d 0 with
        | Some bi =>
            onblk (bl_store bp (set_bit d bi)) ;;
            onblk (bl_log_write bp) ;;
            onblk (bl_release bp) ;;
            bzero k (b + bi) ;;
            mret (b + bi)
        | None => onblk (bl_release bp) ;; balloc_loop fuel k (b + BPB)
        end
      else panic "balloc: out of blocks"
  end.
(** A round for every bitmap block, and one to leave. *)
Definition balloc (k : nat) : M (fsys S) Z :=
  p ← sb_private k; balloc_loop (2 + Z.to_nat (sb_size (sb p) / BPB)) k 0.

Definition bfree (k : nat) (b : Z) : M (fsys S) unit :=
  readsb k ;;
  p ← sb_private k;
  bp ← fs_bread k (BBLOCK b (sb p));
  let bi := b mod BPB in
  d ← onblk (bl_data bp);
  if negb (bit d bi) then panic "freeing free block"
  else
    onblk (bl_store bp (clear_bit d bi)) ;;
    onblk (bl_log_write bp) ;;
    onblk (bl_release bp).

(** The loop of [iget]: the cached inode, else the first slot without a reference. *)
Fixpoint iget_scan (l : list native_inode) (i : nat) (k : nat) (n : Z) (empty : option nat) : nat + option nat :=
  match l with
  | [] => inr empty
  | ip :: l =>
      if (0 <? iref ip) && bool_decide (isb ip = k) && (inum ip =? n) then inl i
      else iget_scan l (Datatypes.S i) k n (if bool_decide (empty = None) && (iref ip =? 0) then Some i else empty)
  end.

(** [past_ref] is what lies behind the table where the code reads the reference count of [inode[NINODE]]: when it is zero
    the code goes on with a slot outside the table. *)
Definition iget (past_ref : Z) (k : nat) (n : Z) : M (fsys S) nat :=
  assert_private k ;;
  s ← getS;
  p ← sb_private k;
  match iget_scan (icache s) 0 k n None with
  | inl i => modS (upd_inode i (fun ip => set_iref (iref ip +i 1) ip)) ;; mret i
  | inr None => if past_ref =? 0 then fault else panic "iget: no inodes"
  | inr (Some i) =>
      ondev (deviceget (sb_dev p)) ;;
      modS (upd_inode i (fun ip =>
        NativeInode (addrs ip) k n 1 (ilocked ip) false (itype ip) (imajor ip) (iminor ip) (nlink ip) (isize ip))) ;;
      mret i
  end.

Fixpoint ialloc_loop (past_ref : Z) (rounds : nat) (k : nat) (type n : Z) : M (fsys S) nat :=
  match rounds with
  | O => panic "ialloc: no inodes"
  | Datatypes.S rounds =>
      p ← sb_private k;
      bp ← fs_bread k (IBLOCK n (sb p));
      d ← onblk (bl_data bp);
      if get16 d (dinode_off n) =? 0 then
        onblk (bl_store bp (put16 (splice d (dinode_off n) (replicate DINODE_SIZE 0)) (dinode_off n) type)) ;;
        onblk (bl_log_write bp) ;;
        onblk (bl_release bp) ;;
        iget past_ref k n
      else onblk (bl_release bp) ;; ialloc_loop past_ref rounds k type (n + 1)
  end.
Definition ialloc (past_ref : Z) (k : nat) (type : Z) : M (fsys S) nat :=
  assert_private k ;;
  p ← sb_private k; ialloc_loop past_ref (Z.to_nat (ninodes (sb p) - 1)) k type 1.

(** The on-disk image of an inode, stored at its place in the block. *)
Definition put_dinode (d : block) (off : nat) (ip : native_inode) : block :=
  let d := put16 d off (itype ip) in
  let d := put16 d (off + 2) (imajor ip) in
  let d := put16 d (off + 4) (iminor ip) in
  let d := put16 d (off + 6) (nlink ip) in
  let d := put32 d (off + 8) (isize ip) in
  put32s d (off + 12) (addrs ip).

Definition iupdate (i : nat) : M (fsys S) unit :=
  ip ← get_inode i;
  p ← sb_private (isb ip);
  bp ← fs_bread (isb ip) (IBLOCK (inum ip) (sb p));
  d ← onblk (bl_data bp);
  onblk (bl_store bp (put_dinode d (dinode_off (inum ip)) ip)) ;;
  onblk (bl_log_write bp) ;;
  onblk (bl_release bp).

(** [for (i = 0; i < NDIRECT; i++)]: [n] rounds are left. *)
Fixpoint itrunc_direct (n : nat) (j : nat) (i : nat) : M (fsys S) unit :=
  match n with
  | O => mret tt
  | Datatypes.S n =>
      ip ← get_inode i;
      a ← deref (addrs ip !! j);
      (if a =? 0 then mret tt
       else bfree (isb ip) a ;; modS (upd_inode i (fun ip => set_addrs (<[j := 0]> (addrs ip)) ip))) ;;
      itrunc_direct n (Datatypes.S j) i
  end.
Fixpoint itrunc_indirect (n : nat) (j : nat) (k bp : nat) : M (fsys S) unit :=
  match n with
  | O => mret tt
  | Datatypes.S n =>
      d ← onblk (bl_data bp);
      (if get32 d (4 * j) =? 0 then mret tt else bfree k (get32 d (4 * j))) ;;
      itrunc_indirect n (Datatypes.S j) k bp
  end.
Definition itrunc (i : nat) : M (fsys S) unit :=
  itrunc_direct NDIRECT 0 i ;;
  ip ← get_inode i;
  a ← deref (addrs ip !! NDIRECT);
  (if a =? 0 then mret tt
   else
     bp ← fs_bread (isb ip) a;
     itrunc_indirect NINDIRECT 0 (isb ip) bp ;;
     onblk (bl_release bp) ;;
     bfree (isb ip) a ;;
     modS (upd_inode i (fun ip => set_addrs (<[NDIRECT := 0]> (addrs ip)) ip))) ;;
  modS (upd_inode i (set_isize 0)) ;;
  iupdate i.

(** Up to [initlog], which the log's own model starts from. *)
Definition fsstart (past_ref : Z) (k : nat) : M (fsys S) unit :=
  assert_private k ;;
  readsb k ;;
  r ← iget past_ref k ROOTINO;
  modS (upd_vsb k (fun x => VfsSuperblock (sb_priv x) (Some r))).

Definition idup (i : nat) : M (fsys S) nat := modS (upd_inode i (fun ip => set_iref (iref ip +i 1) ip)) ;; mret i.

Definition acquiresleep_i (i : nat) : M (fsys S) unit :=
  ip ← get_inode i; if ilocked ip then sleep_here else modS (upd_inode i (set_ilocked true)).
Definition releasesleep_i (i : nat) : M (fsys S) unit := modS (upd_inode i (set_ilocked false)).

Definition load_dinode (d : block) (off : nat) (ip : native_inode) : native_inode :=
  NativeInode (get32s d (off + 12) (Datatypes.S NDIRECT)) (isb ip) (inum ip) (iref ip) (ilocked ip) (ivalid ip)
    (s16 (get16 d off)) (s16 (get16 d (off + 2))) (s16 (get16 d (off + 4))) (s16 (get16 d (off + 6))) (get32 d (off + 8)).

Definition ilock (i : nat) : M (fsys S) unit :=
  ip ← get_inode i;
  if iref ip <? 1 then panic "ilock"
  else
    acquiresleep_i i ;;
    if ivalid ip then mret tt
    else
      p ← sb_private (isb ip);
      bp ← fs_bread (isb ip) (IBLOCK (inum ip) (sb p));
      d ← onblk (bl_data bp);
      modS (upd_inode i (load_dinode d (dinode_off (inum ip)))) ;;
      onblk (bl_release bp) ;;
      modS (upd_inode i (set_ivalid true)) ;;
      ip ← get_inode i;
      if itype ip =? 0 then panic "ilock: no type" else mret tt.

Definition iunlock (i : nat) : M (fsys S) unit :=
  ip ← get_inode i;
  if negb (ilocked ip) || (iref ip <? 1) then panic "iunlock" else releasesleep_i i.

Definition iput (i : nat) : M (fsys S) unit :=
  acquiresleep_i i ;;
  ip ← get_inode i;
  (if ivalid ip && (nlink ip =? 0) && (iref ip =? 1) then
     itrunc i ;;
     modS (upd_inode i (set_itype 0)) ;;
     iupdate i ;;
     modS (upd_inode i (set_ivalid false))
   else mret tt) ;;
  releasesleep_i i ;;
  modS (upd_inode i (fun ip => set_iref (iref ip -i 1) ip)) ;;
  ip ← get_inode i;
  if iref ip =? 0 then p ← sb_private (isb ip); ondev (deviceput (sb_dev p)) else mret tt.

Definition iunlockput (i : nat) : M (fsys S) unit := iunlock i ;; iput i.

Definition bmap (i : nat) (bn : Z) : M (fsys S) Z :=
  ip ← get_inode i;
  if bn <? Z.of_nat NDIRECT then
    a ← deref (addrs ip !! Z.to_nat bn);
    if a =? 0 then
      addr ← balloc (isb ip);
      modS (upd_inode i (fun ip => set_addrs (<[Z.to_nat bn := addr]> (addrs ip)) ip)) ;;
      mret addr
    else mret a
  else
    let bn := bn - Z.of_nat NDIRECT in
    if bn <? Z.of_nat NINDIRECT then
      a ← deref (addrs ip !! NDIRECT);
      addr ← (if a =? 0 then
                addr ← balloc (isb ip);
                modS (upd_inode i (fun ip => set_addrs (<[NDIRECT := addr]> (addrs ip)) ip)) ;;
                mret addr
              else mret a);
      bp ← fs_bread (isb ip) addr;
      d ← onblk (bl_data bp);
      let e := get32 d (4 * Z.to_nat bn) in
      r ← (if e =? 0 then
             addr ← balloc (isb ip);
             d ← onblk (bl_data bp);
             onblk (bl_store bp (put32 d (4 * Z.to_nat bn) addr)) ;;
             onblk (bl_log_write bp) ;;
             mret addr
           else mret e);
      onblk (bl_release bp) ;;
      mret r
    else panic "bmap: out of range".

Record stat := Stat { st_dev : Z; st_ino : Z; st_type : Z; st_nlink : Z; st_size : Z }.
Definition stati (i : nat) : M (fsys S) stat :=
  ip ← get_inode i;
  p ← sb_private (isb ip);
  s ← getS;
  d ← deref (devs (devices s) !! sb_dev p);
  mret (Stat (did d) (inum ip) (itype ip) (nlink ip) (isize ip)).

(** [memmove_into_vector_bytes]. *)
Fixpoint put_bytes {V : Type} {BS : ByteSink V} (v : V) (off : Z) (bs : list Z) : V :=
  match bs with [] => v | b :: bs => put_bytes (sink_put v off b) (off + 1) bs end.

Section readi.
Context {V : Type} {BS : ByteSink V}.
(** The entries of [devsw]. *)
Context (devsw_read : Z -> option (nat -> Z -> V -> Z * V)).
Context (devsw_write : Z -> option (nat -> list Z -> Z -> Z)).

(** [tot] bytes are done; every round moves at least one of the [fuel] bytes left. *)
Fixpoint readi_loop (fuel : nat) (i : nat) (off n tot : Z) (dst : V) : M (fsys S) V :=
  match fuel with
  | O => if tot <? n then nofuel else mret dst
  | Datatypes.S fuel =>
      if tot <? n then
        addr ← bmap i (off / BSIZE);
        ip ← get_inode i;
        bp ← fs_bread (isb ip) addr;
        let m := Z.min (n - tot) (BSIZE - off mod BSIZE) in
        d ← onblk (bl_data bp);
        onblk (bl_release bp) ;;
        readi_loop fuel i (off + m) n (tot + m) (put_bytes dst tot (slice d (Z.to_nat (off mod BSIZE)) (Z.to_nat m)))
      else mret dst
  end.

Definition readi (i : nat) (off n : Z) (dst : V) : M (fsys S) (Z * V) :=
  ip ← get_inode i;
  if itype ip =? T_DEV then
    if (imajor ip <? 0) || (NDEV_ <=? imajor ip) || (iminor ip <? 0) || (MAX_TTY <=? iminor ip) then mret (-1, dst)
    else match devsw_read (imajor ip) with None => mret (-1, dst) | Some f => mret (f i n dst) end
  else if (isize ip <? off) || (off +u n <? off) then mret (-1, dst)
  else
    let n := if isize ip <? off +u n then isize ip - off else n in
    dst ← readi_loop (Z.to_nat n) i off n 0 dst;
    mret (s32 n, dst).

Fixpoint writei_loop (fuel : nat) (i : nat) (src : list Z) (off n tot : Z) : M (fsys S) Z :=
  match fuel with
  | O => if tot <? n then nofuel else mret off
  | Datatypes.S fuel =>
      if tot <? n then
        addr ← bmap i (off / BSIZE);
        ip ← get_inode i;
        bp ← fs_bread (isb ip) addr;
        let m := Z.min (n - tot) (BSIZE - off mod BSIZE) in
        d ← onblk (bl_data bp);
        onblk (bl_store bp (splice d (Z.to_nat (off mod BSIZE)) (take (Z.to_nat m) src))) ;;
        onblk (bl_log_write bp) ;;
        onblk (bl_release bp) ;;
        writei_loop fuel i (drop (Z.to_nat m) src) (off + m) n (tot + m)
      else mret off
  end.

Definition writei (i : nat) (src : list Z) (off n : Z) : M (fsys S) Z :=
  ip ← get_inode i;
  if itype ip =? T_DEV then
    if (imajor ip <? 0) || (NDEV_ <=? imajor ip) || (iminor ip <? 0) || (MAX_TTY <=? iminor ip) then mret (-1)
    else match devsw_write (imajor ip) with None => mret (-1) | Some f => mret (f i src n) end
  else if (isize ip <? off) || (off +u n <? off) then mret (-1)
  else if MAXFILE * BSIZE <? off +u n then mret (-1)
  else
    off ← writei_loop (Z.to_nat n) i src off n 0;
    ip ← get_inode i;
    (if (0 <? n) && (isize ip <? off) then modS (upd_inode i (set_isize off)) ;; iupdate i else mret tt) ;;
    mret (s32 n).
End readi.

(** ** Directories *)

Section dir.
Context (devsw_read : Z -> option (nat -> Z -> list Z -> Z * list Z)).
Context (devsw_write : Z -> option (nat -> list Z -> Z -> Z)).
Context (past_ref : Z).

(** [strncmp(s, t, DIRSIZ)], on strings that end where the list ends. *)
Fixpoint strncmp_ (n : nat) (p q : list Z) : Z :=
  match n with
  | O => 0
  | Datatypes.S n =>
      if negb (hd 0 p =? 0) && (hd 0 p =? hd 0 q) then strncmp_ n (tl p) (tl q) else hd 0 p - hd 0 q
  end.
Definition vfs_namecmp (s t : list Z) : Z := strncmp_ DIRSIZ s t.

Definition de_inum (de : list Z) : Z := get16 de 0.
Definition de_name (de : list Z) : list Z := slice de 2 DIRSIZ.

(** The entry at [off], read into the 16 bytes of [de]. *)
Definition read_dirent (msg : string) (i : nat) (off : Z) (de : list Z) : M (fsys S) (list Z) :=
  r ← readi devsw_read i off DIRENT_SIZE de;
  if negb (r.1 =? DIRENT_SIZE) then panic msg else mret r.2.

Fixpoint isdirempty_loop (fuel : nat) (i : nat) (off : Z) (de : list Z) : M (fsys S) Z :=
  match fuel with
  | O => nofuel
  | Datatypes.S fuel =>
      ip ← get_inode i;
      if off <? isize ip then
        de ← read_dirent "isdirempty: readi" i off de;
        if negb (de_inum de =? 0) then mret 0 else isdirempty_loop fuel i (off + DIRENT_SIZE) de
      else mret 1
  end.
Definition isdirempty (i : nat) : M (fsys S) Z :=
  ip ← get_inode i; isdirempty_loop (2 + Z.to_nat (isize ip / DIRENT_SIZE)) i (2 * DIRENT_SIZE) (replicate 16 0).

Fixpoint dirlookup_loop (fuel : nat) (i : nat) (name : list Z) (off : Z) (de : list Z) : M (fsys S) (option (Z * Z)) :=
  match fuel with
  | O => nofuel
  | Datatypes.S fuel =>
      ip ← get_inode i;
      if off <? isize ip then
        de ← read_dirent "dirlookup read" i off de;
        if de_inum de =? 0 then dirlookup_loop fuel i name (off + DIRENT_SIZE) de
        else if vfs_namecmp name (de_name de) =? 0 then mret (Some (de_inum de, off))
        else dirlookup_loop fuel i name (off + DIRENT_SIZE) de
      else mret None
  end.
(** The inode and the offset of its entry. *)
Definition dirlookup (i : nat) (name : list Z) : M (fsys S) (option (nat * Z)) :=
  ip ← get_inode i;
  if negb (itype ip =? T_DIR) then panic "dirlookup not DIR"
  else
    r ← dirlookup_loop (2 + Z.to_nat (isize ip / DIRENT_SIZE)) i name 0 (replicate 16 0);
    match r with
    | None => mret None
    | Some (n, off) => j ← iget past_ref (isb ip) n; mret (Some (j, off))
    end.

(** The offset of the first empty entry, or of the end. *)
Fixpoint dirlink_loop (fuel : nat) (i : nat) (off : Z) (de : list Z) : M (fsys S) Z :=
  match fuel with
  | O => nofuel
  | Datatypes.S fuel =>
      ip ← get_inode i;
      if off <? isize ip then
        de ← read_dirent "dirlink read" i off de;
        if de_inum de =? 0 then mret off else dirlink_loop fuel i (off + DIRENT_SIZE) de
      else mret off
  end.
(** [strncpy(de.name, name, DIRSIZ)]. *)
Definition dirent_of (n : Z) (name : list Z) : list Z := put16 [0; 0] 0 n ++ take DIRSIZ (name ++ replicate DIRSIZ 0).

Definition dirlink (i : nat) (name : list Z) (n : Z) : M (fsys S) Z :=
  r ← dirlookup i name;
  match r with
  | Some (j, _) => iput j ;; mret (-1)
  | None =>
      ip ← get_inode i;
      off ← dirlink_loop (2 + Z.to_nat (isize ip / DIRENT_SIZE)) i 0 (replicate 16 0);
      w ← writei devsw_write i (dirent_of n name) off DIRENT_SIZE;
      if negb (w =? DIRENT_SIZE) then panic "dirlink" else mret 0
  end.
End dir.

(** [native_fs_init] with the page [kalloc] gives, and [fsdestroy] up to [kfree] of that page. *)
Definition native_fs_init (k dev : nat) (garbage : native_superblock) : M (fsys S) unit :=
  modS (upd_vsb k (fun x => VfsSuperblock (Some (Sbpriv garbage dev)) (root_ip x))).
Definition fsdestroy (k : nat) : M (fsys S) unit :=
  p ← sb_private k;
  s ← getS;
  r ← deref (sbs s !! k ≫= root_ip);
  iput r.
End fs.
