(* ===== verification/FsFile.v ===== *)
(** * Blocks and file contents of the native file system

    The laws of the block layer, and what [balloc], [bfree], [bmap], [readi] and
    [writei] of [NativeFs] do under them: allocation never hands out a block in
    use, and a file is a sequence of bytes that reads and writes see. *)

From S2P Require Import Prelude BufCache Log Device NativeFs.

Definition block_ok (d : block) : Prop := length d = Z.to_nat BSIZE /\ Forall is_byte d.

(** What the file system relies on.  [bl_st s v hs L]: the blocks hold [v], the buffers [hs] are held, each with its block
    and whether what was stored in it has been logged, and [L] are the blocks this transaction has logged. *)
Class Blocks (S : Type) {BO : BlockOps S} (dev : nat) := {
  bl_ok : Z -> Prop;
  bl_cap : nat;
  bl_st : S -> (Z -> block) -> gmap nat (Z * bool) -> gset Z -> Prop;
  bl_block s v hs L b : bl_st s v hs L -> bl_ok b -> block_ok (v b);
  bl_bread_law s v hs L b : bl_st s v hs L -> bl_ok b -> (forall h x, hs !! h = Some x -> x.1 <> b) -> (size hs <= 1)%nat ->
    wp (bl_bread dev b) s (fun h s' => hs !! h = None /\ bl_st s' v (<[h := (b, true)]> hs) L);
  bl_data_law s v hs L h b c : bl_st s v hs L -> hs !! h = Some (b, c) -> wp (bl_data h) s (fun d s' => d = v b /\ bl_st s' v hs L);
  bl_store_law s v hs L h b c d : bl_st s v hs L -> hs !! h = Some (b, c) -> block_ok d ->
    wp (bl_store h d) s (fun _ s' => bl_st s' (dset v b d) (<[h := (b, false)]> hs) L);
  bl_log_law s v hs L h b c : bl_st s v hs L -> hs !! h = Some (b, c) -> (size ({[b]} ∪ L) <= bl_cap)%nat ->
    wp (bl_log_write h) s (fun _ s' => bl_st s' v (<[h := (b, true)]> hs) ({[b]} ∪ L));
  bl_release_law s v hs L h b : bl_st s v hs L -> hs !! h = Some (b, true) ->
    wp (bl_release h) s (fun _ s' => bl_st s' v (delete h hs) L)
}.

(** ** Bits of a block *)

Lemma testbit_pow2 n m : 0 <= n -> Z.testbit (Z.shiftl 1 n) m = (n =? m).
Proof. intros Hn. rewrite Z.shiftl_1_l. by apply Z.pow2_bits_eqb. Qed.

Lemma bit_testbit d bi : 0 <= bi -> bit d bi = Z.testbit (d !!! Z.to_nat (bi / 8)) (bi mod 8).
Proof.
  intros Hb. unfold bit. set (x := d !!! _). pose proof (Z.mod_pos_bound bi 8 ltac:(lia)) as Hm.
  destruct (Z.testbit x (bi mod 8)) eqn:E.
  - apply negb_true_iff, Z.eqb_neq. intros H0. apply (f_equal (fun z => Z.testbit z (bi mod 8))) in H0.
    rewrite Z.land_spec, E, testbit_pow2, Z.bits_0, Z.eqb_refl in H0 by lia. done.
  - apply negb_false_iff, Z.eqb_eq, Z.bits_inj'. intros n Hn. rewrite Z.land_spec, Z.bits_0, testbit_pow2 by lia.
    destruct (Z.eqb_spec (bi mod 8) n) as [<-|]; [by rewrite E|apply andb_false_r].
Qed.

(** Storing at a bit's byte changes that bit only. *)
Lemma bit_insert d bi bj x (f : bool -> bool) : 0 <= bi -> 0 <= bj -> (Z.to_nat (bi / 8) < length d)%nat ->
  (forall n, 0 <= n < 8 -> Z.testbit x n = if bi mod 8 =? n then f (Z.testbit (d !!! Z.to_nat (bi / 8)) n) else Z.testbit (d !!! Z.to_nat (bi / 8)) n) ->
  bit (<[Z.to_nat (bi / 8) := x]> d) bj = if bi =? bj then f (bit d bj) else bit d bj.
Proof.
  intros Hi Hj Hl Hx. rewrite !bit_testbit by done. pose proof (Z.mod_pos_bound bj 8 ltac:(lia)) as Hm.
  destruct (decide (bi / 8 = bj / 8)) as [E|Hne].
  - rewrite E in *. rewrite list_lookup_total_insert_eq by done. rewrite Hx by done.
    destruct (Z.eqb_spec (bi mod 8) (bj mod 8)), (Z.eqb_spec bi bj); try done; exfalso;
      pose proof (Z.div_mod bi 8 ltac:(lia)); pose proof (Z.div_mod bj 8 ltac:(lia)); subst; lia.
  - rewrite list_lookup_total_insert_ne by (pose proof (Z.div_pos bi 8); pose proof (Z.div_pos bj 8); lia).
    by destruct (Z.eqb_spec bi bj) as [->|].
Qed.

Lemma bit_set d bi bj : 0 <= bi -> 0 <= bj -> (Z.to_nat (bi / 8) < length d)%nat -> bit (set_bit d bi) bj = (bi =? bj) || bit d bj.
Proof.
  intros Hi Hj Hl. pose proof (Z.mod_pos_bound bi 8 ltac:(lia)) as Hm. unfold set_bit. rewrite (bit_insert d bi bj _ (fun _ => true)); try done.
  intros n Hn. rewrite Z.lor_spec, testbit_pow2 by lia. destruct (_ =? n); [apply orb_true_r|apply orb_false_r].
Qed.

Lemma bit_clear d bi bj : 0 <= bi -> 0 <= bj -> (Z.to_nat (bi / 8) < length d)%nat -> bit (clear_bit d bi) bj = negb (bi =? bj) && bit d bj.
Proof.
  intros Hi Hj Hl. pose proof (Z.mod_pos_bound bi 8 ltac:(lia)) as Hm. unfold clear_bit. rewrite (bit_insert d bi bj _ (fun _ => false)); try done.
  - by destruct (bi =? bj).
  - intros n Hn. rewrite Z.land_spec. unfold u8. rewrite Z.mod_pow2_bits_low by lia. rewrite Z.lnot_spec, testbit_pow2 by lia.
    destruct (_ =? n); [apply andb_false_r|apply andb_true_r].
Qed.

Lemma byte_lor x n : is_byte x -> 0 <= n < 8 -> is_byte (Z.lor x (Z.shiftl 1 n)).
Proof.
  unfold is_byte. intros Hx Hn. rewrite Z.shiftl_1_l. split; [apply Z.lor_nonneg; lia|].
  assert (Z.lor x (2 ^ n) = Z.lor x (2 ^ n) mod 2 ^ 8) as ->; [|apply Z.mod_pos_bound; lia].
  apply Z.bits_inj'. intros m Hm. destruct (decide (m < 8)) as [H8|H8]; [by rewrite Z.mod_pow2_bits_low|].
  rewrite Z.mod_pow2_bits_high, Z.lor_spec, Z.pow2_bits_false by lia. rewrite orb_false_r.
  rewrite <- (Z.mod_small x (2 ^ 8)) by lia. apply Z.mod_pow2_bits_high. lia.
Qed.

Lemma byte_land x y : is_byte x -> is_byte y -> is_byte (Z.land x y).
Proof.
  unfold is_byte. intros Hx Hy. split; [apply Z.land_nonneg; lia|].
  assert (Z.land x y = Z.land x y mod 2 ^ 8) as ->; [|apply Z.mod_pos_bound; lia].
  apply Z.bits_inj'. intros m Hm. destruct (decide (m < 8)) as [H8|H8]; [by rewrite Z.mod_pow2_bits_low|].
  rewrite Z.mod_pow2_bits_high, Z.land_spec by lia. rewrite <- (Z.mod_small x (2 ^ 8)) by lia. rewrite Z.mod_pow2_bits_high by lia. done.
Qed.

Lemma block_ok_insert d i x : block_ok d -> is_byte x -> block_ok (<[i := x]> d).
Proof. intros [Hl Hf] Hx. split; [by rewrite length_insert|]. by apply Forall_insert. Qed.

Lemma block_byte d i : Forall is_byte d -> is_byte (d !!! i).
Proof.
  intros Hf. rewrite list_lookup_total_alt. destruct (d !! i) as [x|] eqn:E; simpl; [|unfold is_byte; cbn; lia].
  rewrite Forall_forall in Hf. apply Hf. by eapply list_elem_of_lookup_2.
Qed.

Lemma set_bit_ok d bi : block_ok d -> 0 <= bi -> block_ok (set_bit d bi).
Proof.
  intros Hd Hb. apply block_ok_insert; [done|]. apply byte_lor; [apply block_byte, Hd|]. apply Z.mod_pos_bound. lia.
Qed.
Lemma clear_bit_ok d bi : block_ok d -> block_ok (clear_bit d bi).
Proof. intros Hd. apply block_ok_insert; [done|]. apply byte_land; [apply block_byte, Hd|apply u8_range]. Qed.

Lemma free_bit_spec n d bi : 0 <= bi ->
  match free_bit n d bi with
  | Some r => bi <= r < bi + Z.of_nat n /\ bit d r = false /\ forall j, bi <= j < r -> bit d j = true
  | None => forall j, bi <= j < bi + Z.of_nat n -> bit d j = true
  end.
Proof.
  revert bi. induction n as [|n IH]; intros bi Hb; cbn [free_bit]; [intros; lia|].
  destruct (bit d bi) eqn:E; [|split_and!; try lia; done].
  specialize (IH (bi + 1) ltac:(lia)). destruct (free_bit n d (bi + 1)) as [r|].
  - destruct IH as (H1 & H2 & H3). split_and!; [lia|lia|done|]. intros j Hj. destruct (decide (j = bi)) as [->|]; [done|]. apply H3. lia.
  - intros j Hj. destruct (decide (j = bi)) as [->|]; [done|]. apply IH. lia.
Qed.

(** ** Running the file system on its blocks *)

Section fsfile.
Context {S : Type} {BO : BlockOps S} {dev : nat} {BL : Blocks S dev} (k : nat) (sb0 : native_superblock).

(** The super block [sb0] is in memory and the blocks are as [bl_st] says. *)
Definition fs_at (s : fsys S) (v : Z -> block) (hs : gmap nat (Z * bool)) (L : gset Z) : Prop :=
  bl_st (blk s) v hs L /\ exists r, sbs s !! k = Some (VfsSuperblock (Some (Sbpriv sb0 dev)) r).
Definition same_rest (s s' : fsys S) : Prop := sbs s' = sbs s /\ icache s' = icache s /\ devices s' = devices s.
Definition not_held (b : Z) (hs : gmap nat (Z * bool)) : Prop := forall h x, hs !! h = Some x -> x.1 <> b.

Lemma same_rest_trans s1 s2 s3 : same_rest s1 s2 -> same_rest s2 s3 -> same_rest s1 s3.
Proof. intros (? & ? & ?) (? & ? & ?). split_and!; congruence. Qed.
Ltac rest := repeat first [eassumption | eapply same_rest_trans; [eassumption|]].

Lemma onblk_wp {A} (m : M S A) s Q :
  wp m (blk s) (fun a b => Q a (Fsys b (sbs s) (icache s) (devices s))) -> wp (onblk m) s Q.
Proof. intros (a & b & E & H). eexists _, _. split; [unfold onblk; rewrite E; reflexivity|done]. Qed.

Lemma sb_private_wp s v hs L Q : fs_at s v hs L -> Q (Sbpriv sb0 dev) s -> wp (sb_private k) s Q.
Proof.
  intros (_ & r & E) H. eexists _, _. split; [unfold sb_private; mrun; rewrite E; reflexivity|done].
Qed.

Lemma fs_bread_wp s v hs L b Q : fs_at s v hs L -> bl_ok b -> not_held b hs -> (size hs <= 1)%nat ->
  (forall h s', hs !! h = None -> fs_at s' v (<[h := (b, true)]> hs) L -> same_rest s s' -> Q h s') -> wp (fs_bread k b) s Q.
Proof.
  intros Hs Hb Hn Hz H. unfold fs_bread. apply wp_bind. eapply sb_private_wp; [done|]. apply onblk_wp.
  eapply wp_mono; [apply (bl_bread_law _ v hs L); try done; apply Hs|]. intros h b' [Hh Hst]. apply H; [done| |done]. split; [done|apply Hs].
Qed.

Lemma data_wp s v hs L h b c Q : fs_at s v hs L -> hs !! h = Some (b, c) ->
  (forall s', fs_at s' v hs L -> same_rest s s' -> Q (v b) s') -> wp (onblk (bl_data h)) s Q.
Proof.
  intros Hs Hh H. apply onblk_wp. eapply wp_mono; [apply (bl_data_law _ v hs L h b c); [apply Hs|done]|].
  intros d b' [-> Hst]. apply H; [|done]. split; [done|apply Hs].
Qed.

Lemma store_wp s v hs L h b c d Q : fs_at s v hs L -> hs !! h = Some (b, c) -> block_ok d ->
  (forall s', fs_at s' (dset v b d) (<[h := (b, false)]> hs) L -> same_rest s s' -> Q tt s') -> wp (onblk (bl_store h d)) s Q.
Proof.
  intros Hs Hh Hd H. apply onblk_wp. eapply wp_mono; [apply (bl_store_law _ v hs L h b c d); [apply Hs|done|done]|].
  intros [] b' Hst. apply H; [|done]. split; [done|apply Hs].
Qed.

Lemma log_wp s v hs L h b c Q : fs_at s v hs L -> hs !! h = Some (b, c) -> (size ({[b]} ∪ L) <= bl_cap)%nat ->
  (forall s', fs_at s' v (<[h := (b, true)]> hs) ({[b]} ∪ L) -> same_rest s s' -> Q tt s') -> wp (onblk (bl_log_write h)) s Q.
Proof.
  intros Hs Hh Hc H. apply onblk_wp. eapply wp_mono; [apply (bl_log_law _ v hs L h b c); [apply Hs|done|done]|].
  intros [] b' Hst. apply H; [|done]. split; [done|apply Hs].
Qed.

Lemma release_wp s v hs L h b Q : fs_at s v hs L -> hs !! h = Some (b, true) ->
  (forall s', fs_at s' v (delete h hs) L -> same_rest s s' -> Q tt s') -> wp (onblk (bl_release h)) s Q.
Proof.
  intros Hs Hh H. apply onblk_wp. eapply wp_mono; [apply (bl_release_law _ v hs L h b); [apply Hs|done]|].
  intros [] b' Hst. apply H; [|done]. split; [done|apply Hs].
Qed.

(** A buffer just read is given back. *)
Lemma put_back_wp s v hs L h b Q : fs_at s v (<[h := (b, true)]> hs) L -> hs !! h = None ->
  (forall s', fs_at s' v hs L -> same_rest s s' -> Q tt s') -> wp (onblk (bl_release h)) s Q.
Proof.
  intros Hs Hh H. eapply release_wp; [done|apply lookup_insert_eq|]. intros s' Hs' Hr. apply H; [|done].
  by rewrite delete_insert_id in Hs'.
Qed.

(** A held buffer is overwritten and logged. *)
Lemma write_log_wp {A} (m : M (fsys S) A) s v hs L h b c d Q : fs_at s v hs L -> hs !! h = Some (b, c) -> block_ok d -> (size ({[b]} ∪ L) <= bl_cap)%nat ->
  (forall s', fs_at s' (dset v b d) (<[h := (b, true)]> hs) ({[b]} ∪ L) -> same_rest s s' -> wp m s' Q) ->
  wp (onblk (bl_store h d) ;; onblk (bl_log_write h) ;; m) s Q.
Proof.
  intros Hs Hh Hd Hc H. apply wp_bind. eapply store_wp; [done|done|done|]. intros s1 H1 R1.
  apply wp_bind. eapply log_wp; [done|apply lookup_insert_eq|done|]. intros s2 H2 R2. rewrite insert_insert_eq in H2.
  apply H; [done|]. by eapply same_rest_trans.
Qed.

(** A buffer just read is overwritten, logged and given back. *)
Lemma write_back_wp {A} (m : M (fsys S) A) s v hs L h b d Q : fs_at s v (<[h := (b, true)]> hs) L -> hs !! h = None -> block_ok d -> (size ({[b]} ∪ L) <= bl_cap)%nat ->
  (forall s', fs_at s' (dset v b d) hs ({[b]} ∪ L) -> same_rest s s' -> wp m s' Q) ->
  wp (onblk (bl_store h d) ;; onblk (bl_log_write h) ;; onblk (bl_release h) ;; m) s Q.
Proof.
  intros Hs Hh Hd Hc H. eapply write_log_wp; [done|apply lookup_insert_eq|done|done|]. intros s1 H1 R1. rewrite insert_insert_eq in H1.
  apply wp_bind. eapply put_back_wp; [done|done|]. intros s2 H2 R2. apply H; [done|]. by eapply same_rest_trans.
Qed.

Lemma union_swap (A B C : gset Z) : A ∪ B ∪ C = B ∪ (A ∪ C).
Proof. set_solver. Qed.
Lemma logged_le b (L : gset Z) : (size ({[b]} ∪ L) <= size L + 1)%nat.
Proof. rewrite size_union_alt, size_singleton. pose proof (subseteq_size (L ∖ {[b]}) L ltac:(set_solver)). lia. Qed.

Definition zero_block : block := replicate (Z.to_nat BSIZE) 0.

Lemma zero_block_ok : block_ok zero_block.
Proof. unfold zero_block. split; [by rewrite length_replicate|]. apply Forall_replicate. unfold is_byte. lia. Qed.

Lemma bzero_wp s v hs L b Q : fs_at s v hs L -> bl_ok b -> not_held b hs -> (size hs <= 1)%nat -> (size ({[b]} ∪ L) <= bl_cap)%nat ->
  (forall s', fs_at s' (dset v b zero_block) hs ({[b]} ∪ L) -> same_rest s s' -> Q tt s') -> wp (bzero k b) s Q.
Proof.
  intros Hs Hb Hn Hz Hc H. unfold bzero. apply wp_bind. eapply fs_bread_wp; try done. intros h s1 Hh H1 R1.
  eapply write_log_wp; [done|apply lookup_insert_eq|apply zero_block_ok|done|]. intros s2 H2 R2. rewrite insert_insert_eq in H2.
  eapply put_back_wp; [done|done|]. intros s3 H3 R3. apply H; [done|]. eauto using same_rest_trans.
Qed.

(** ** Allocation *)

(** The blocks from here on hold files. *)
Definition datastart : Z := bmapstart sb0 + sb_size sb0 / BPB + 1.
Definition used (v : Z -> block) (b : Z) : bool := bit (v (BBLOCK b sb0)) (b mod BPB).
Definition free (v : Z -> block) : gset Z := list_to_set (filter (fun b => used v b = false) (seqZ 0 (sb_size sb0))).

(** The layout mkfs gives: boot block, super block, log, inodes, bitmap, data. *)
Record geometry : Prop := Geometry {
  g_inodes : 2 <= inodestart sb0;
  g_bitmap : inodestart sb0 + ninodes sb0 / IPB < bmapstart sb0;
  g_data : datastart <= sb_size sb0;
  g_size : 0 < sb_size sb0 < 2 ^ 31;
  g_ninodes : 0 <= ninodes sb0;
  g_ok b : b = 1 \/ inodestart sb0 <= b < sb_size sb0 -> bl_ok b
}.
Context (G : geometry).

(** The bitmap marks everything before the data as in use. *)
Definition meta_used (v : Z -> block) : Prop := forall b, 0 <= b < datastart -> used v b = true.
Definition mark (v : Z -> block) (b : Z) : Z -> block := dset v (BBLOCK b sb0) (set_bit (v (BBLOCK b sb0)) (b mod BPB)).
Definition alloc (v : Z -> block) (b : Z) : Z -> block := dset (mark v b) b zero_block.
Definition data_block (b : Z) : Prop := datastart <= b < sb_size sb0.

Lemma dset_eq (v : Z -> block) a d : dset v a d a = d.
Proof. unfold dset. by rewrite decide_True. Qed.
Lemma dset_ne (v : Z -> block) a b d : b <> a -> dset v a d b = v b.
Proof. intros H. unfold dset. by rewrite decide_False. Qed.

Lemma BBLOCK_eq b : 0 <= b < sb_size sb0 -> BBLOCK b sb0 = b / BPB + bmapstart sb0.
Proof.
  intros Hb. unfold BBLOCK. destruct G. unfold datastart in *. pose proof (Z.div_pos (ninodes sb0) IPB ltac:(lia) ltac:(unfold IPB; lia)).
  assert (0 <= b / BPB <= sb_size sb0 / BPB). { split; [apply Z.div_pos; unfold BPB; lia|apply Z.div_le_mono; unfold BPB; lia]. }
  unfold u32. apply Z.mod_small. lia.
Qed.
Lemma BBLOCK_meta b : 0 <= b < sb_size sb0 -> inodestart sb0 <= BBLOCK b sb0 < datastart.
Proof.
  intros Hb. rewrite BBLOCK_eq by done. destruct G. unfold datastart. pose proof (Z.div_pos (ninodes sb0) IPB ltac:(lia) ltac:(unfold IPB; lia)).
  assert (0 <= b / BPB <= sb_size sb0 / BPB); [|lia]. split; [apply Z.div_pos; unfold BPB; lia|apply Z.div_le_mono; unfold BPB; lia].
Qed.
Lemma bitmap_before_data : bmapstart sb0 < datastart.
Proof. unfold datastart. pose proof (Z.div_pos (sb_size sb0) BPB ltac:(pose proof (g_size G); lia) ltac:(unfold BPB; lia)). lia. Qed.
Lemma datastart_pos : 2 < datastart.
Proof. destruct G. pose proof (BBLOCK_meta 0 ltac:(lia)). lia. Qed.
Lemma data_ok b : data_block b -> bl_ok b.
Proof. intros [H1 H2]. apply (g_ok G). right. pose proof (BBLOCK_meta 0 ltac:(destruct G; lia)). lia. Qed.
Lemma data_range b : data_block b -> 0 <= b < sb_size sb0.
Proof. unfold data_block. pose proof datastart_pos. lia. Qed.
Lemma bitmap_ok b : 0 <= b < sb_size sb0 -> bl_ok (BBLOCK b sb0).
Proof. intros Hb. apply (g_ok G). right. pose proof (BBLOCK_meta b Hb). destruct G. lia. Qed.
Lemma data_not_bitmap c b : data_block c -> 0 <= b < sb_size sb0 -> c <> BBLOCK b sb0.
Proof. intros [] Hb. pose proof (BBLOCK_meta b Hb). lia. Qed.
Lemma BPB_mod b : 0 <= b mod BPB < BPB.
Proof. apply Z.mod_pos_bound. unfold BPB. lia. Qed.
Lemma bit_in_block (d : block) b : block_ok d -> (Z.to_nat (b mod BPB / 8) < length d)%nat.
Proof.
  intros [-> _]. pose proof (BPB_mod b). assert (0 <= b mod BPB / 8 < 1024); [|unfold BSIZE; lia]. unfold BPB in *.
  split; [apply Z.div_pos; lia|apply Z.div_lt_upper_bound; lia].
Qed.

Lemma used_mark v b c : 0 <= b < sb_size sb0 -> 0 <= c < sb_size sb0 -> block_ok (v (BBLOCK b sb0)) ->
  used (mark v b) c = (b =? c) || used v c.
Proof.
  intros Hb Hc Hok. unfold used, mark. destruct (decide (BBLOCK c sb0 = BBLOCK b sb0)) as [E|Hne].
  - rewrite E, dset_eq. rewrite bit_set; [|apply BPB_mod..|by apply bit_in_block]. f_equal.
    rewrite !BBLOCK_eq in E by done. pose proof (Z.div_mod b BPB ltac:(unfold BPB; lia)). pose proof (Z.div_mod c BPB ltac:(unfold BPB; lia)).
    assert (b / BPB = c / BPB) as E' by lia. rewrite E' in *. destruct (Z.eqb_spec (b mod BPB) (c mod BPB)), (Z.eqb_spec b c); congruence || lia.
  - rewrite dset_ne by done. destruct (Z.eqb_spec b c) as [->|]; done.
Qed.

Lemma used_dset v b c d : data_block b -> 0 <= c < sb_size sb0 -> used (dset v b d) c = used v c.
Proof. intros Hb Hc. unfold used. rewrite dset_ne; [done|]. intros E. by eapply (data_not_bitmap b c). Qed.

Lemma used_alloc v b c : data_block b -> 0 <= c < sb_size sb0 -> block_ok (v (BBLOCK b sb0)) ->
  used (alloc v b) c = (b =? c) || used v c.
Proof. intros Hb Hc Hok. unfold alloc. rewrite used_dset by done. apply used_mark; [by apply data_range|done..]. Qed.

Lemma elem_of_free v b : b ∈ free v <-> 0 <= b < sb_size sb0 /\ used v b = false.
Proof. unfold free. rewrite elem_of_list_to_set, list_elem_of_filter, elem_of_seqZ. naive_solver lia. Qed.

Lemma free_alloc v b : data_block b -> block_ok (v (BBLOCK b sb0)) -> free (alloc v b) = free v ∖ {[b]}.
Proof.
  intros Hb Hok. apply set_eq. intros c. rewrite elem_of_difference, elem_of_singleton, !elem_of_free.
  destruct (decide (0 <= c < sb_size sb0)); [|tauto]. rewrite used_alloc by done. destruct (Z.eqb_spec b c); simpl; naive_solver.
Qed.

Lemma free_dset v b d : data_block b -> free (dset v b d) = free v.
Proof.
  intros Hb. apply set_eq. intros c. rewrite !elem_of_free. destruct (decide (0 <= c < sb_size sb0)); [|tauto]. by rewrite used_dset.
Qed.

Lemma alloc_self v b : alloc v b b = zero_block.
Proof. apply dset_eq. Qed.
Lemma alloc_other v b c : data_block b -> data_block c -> c <> b -> alloc v b c = v c.
Proof.
  intros Hb Hc Hne. unfold alloc, mark. rewrite !dset_ne; [done| |done]. apply data_not_bitmap; [done|by apply data_range].
Qed.
Lemma alloc_meta_used v b : meta_used v -> data_block b -> block_ok (v (BBLOCK b sb0)) -> meta_used (alloc v b).
Proof.
  intros Hm Hb Hok c Hc. pose proof (g_data G). rewrite used_alloc by (done || lia). rewrite (Hm c) by done. apply orb_true_r.
Qed.

(** Buffers held while a block is allocated belong to files. *)
Definition held_used (v : Z -> block) (hs : gmap nat (Z * bool)) : Prop :=
  forall h x, hs !! h = Some x -> data_block x.1 /\ used v x.1 = true.

Lemma not_held_bitmap v hs b : held_used v hs -> 0 <= b < sb_size sb0 -> not_held (BBLOCK b sb0) hs.
Proof. intros Hh Hb h x E Hx. destruct (Hh h x E) as [Hd _]. by eapply (data_not_bitmap x.1 b). Qed.
Lemma not_held_free v hs b : held_used v hs -> used v b = false -> not_held b hs.
Proof. intros Hh Hb h x E Hx. destruct (Hh h x E) as [_ Hu]. congruence. Qed.
Lemma free_data v b : meta_used v -> 0 <= b < sb_size sb0 -> used v b = false -> data_block b.
Proof. intros Hm Hb Hu. split; [|lia]. destruct (decide (b < datastart)); [|lia]. rewrite Hm in Hu by lia. done. Qed.

(** Bit [bi] of the bitmap block read for [b]. *)
Lemma used_row v j bi : 0 <= j -> 0 <= bi < BPB -> j * BPB + bi < sb_size sb0 ->
  BBLOCK (j * BPB + bi) sb0 = BBLOCK (j * BPB) sb0 /\ used v (j * BPB + bi) = bit (v (BBLOCK (j * BPB) sb0)) bi.
Proof.
  intros Hj Hbi Hs. assert (BBLOCK (j * BPB + bi) sb0 = BBLOCK (j * BPB) sb0) as E.
  { unfold BBLOCK. rewrite Z.div_add_l, Z.div_mul, (Z.div_small bi) by (unfold BPB in *; lia). by rewrite Z.add_0_r. }
  split; [done|]. unfold used. rewrite E. f_equal. rewrite Z.add_comm, Z_mod_plus_full. by apply Z.mod_small.
Qed.

Lemma balloc_loop_wp fuel j x s v hs L Q : fs_at s v hs L -> meta_used v -> held_used v hs -> (size hs <= 1)%nat -> (size L + 2 <= bl_cap)%nat ->
  0 <= j -> j * BPB <= x < sb_size sb0 -> used v x = false -> x < (j + Z.of_nat fuel) * BPB ->
  (forall b s', data_block b -> used v b = false -> fs_at s' (alloc v b) hs ({[b]} ∪ ({[BBLOCK b sb0]} ∪ L)) -> same_rest s s' -> Q b s') ->
  wp (balloc_loop fuel k (j * BPB)) s Q.
Proof.
  revert j s. induction fuel as [|fuel IH]; intros j s Hs Hm Hh Hz Hc Hj Hx Hu Hf HQ; [unfold BPB in *; lia|]. cbn [balloc_loop].
  apply wp_bind. eapply sb_private_wp; [done|]. cbn [sb]. destruct (Z.ltb_spec (j * BPB) (sb_size sb0)) as [Hlt|]; [|lia].
  assert (0 <= j * BPB < sb_size sb0) as Hr by (unfold BPB in *; lia). set (bb := BBLOCK (j * BPB) sb0) in *.
  apply wp_bind. eapply fs_bread_wp; [done|by apply bitmap_ok|by eapply not_held_bitmap|done|]. intros h s1 Hh1 H1 R1.
  apply wp_bind. eapply data_wp; [done|apply lookup_insert_eq|]. intros s2 H2 R2.
  pose proof (free_bit_spec (Z.to_nat (Z.min BPB (sb_size sb0 - j * BPB))) (v bb) 0 ltac:(lia)) as Hfb.
  destruct (free_bit _ _ _) as [bi|].
  - destruct Hfb as (Hbi & Hb0 & _). destruct (used_row v j bi Hj) as [EB EU]; [lia..|]. fold bb in EB, EU. rewrite Hb0 in EU.
    assert (data_block (j * BPB + bi)) as Hd by (apply (free_data v); [done|lia|done]).
    assert (bi = (j * BPB + bi) mod BPB) as Ebi by (rewrite Z.add_comm, Z_mod_plus_full; symmetry; apply Z.mod_small; lia).
    assert (block_ok (v bb)) as Hok by (eapply bl_block; [apply Hs|by apply bitmap_ok]).
    pose proof (logged_le bb L). eapply write_back_wp; [done|done|apply set_bit_ok; [done|lia]|lia|]. intros s3 H3 R3.
    apply wp_bind. eapply bzero_wp; [exact H3|by apply data_ok|by eapply not_held_free|done|pose proof (logged_le (j * BPB + bi) ({[bb]} ∪ L)); lia|].
    intros s4 H4 R4. apply wp_ret, HQ; [done|done| |eauto using same_rest_trans]. unfold alloc, mark. rewrite EB, <- Ebi. exact H4.
  - apply wp_bind. eapply put_back_wp; [done|done|]. intros s3 H3 R3. replace (j * BPB + BPB) with ((j + 1) * BPB) by lia.
    apply IH; try done; try lia.
    + split; [|lia]. destruct (decide ((j + 1) * BPB <= x)); [done|]. exfalso. destruct (used_row v j (x - j * BPB) Hj) as [_ EU]; [lia..|].
      replace (j * BPB + (x - j * BPB)) with x in EU by lia. fold bb in EU. rewrite Hfb in EU by lia. congruence.
    + intros b s' Hd Hb H' R'. apply HQ; eauto using same_rest_trans.
Qed.

Lemma balloc_wp s v hs L Q : fs_at s v hs L -> meta_used v -> held_used v hs -> (size hs <= 1)%nat -> (size L + 2 <= bl_cap)%nat -> (0 < size (free v))%nat ->
  (forall b s', data_block b -> used v b = false -> fs_at s' (alloc v b) hs ({[b]} ∪ ({[BBLOCK b sb0]} ∪ L)) -> same_rest s s' -> Q b s') ->
  wp (balloc k) s Q.
Proof.
  intros Hs Hm Hh Hz Hc Hf HQ. apply size_pos_elem_of in Hf as [x Hx]. apply elem_of_free in Hx as [Hx Hu].
  unfold balloc. apply wp_bind. eapply sb_private_wp; [done|]. apply (balloc_loop_wp _ 0 x _ v hs L); try done. cbn [sb].
  pose proof (Z.div_mod (sb_size sb0) BPB ltac:(unfold BPB; lia)). pose proof (BPB_mod (sb_size sb0)). pose proof (Z.div_pos (sb_size sb0) BPB ltac:(lia) ltac:(unfold BPB; lia)).
  rewrite Nat2Z.inj_add, Z2Nat.id by lia. unfold BPB in *. lia.
Qed.

(** ** The blocks of a file

    Position [p] of an inode with the addresses [a]: below 12 a direct block, at 12 the indirect block, and from 13 on
    the blocks the indirect block lists.  0 stands for no block. *)
Definition NPOS : nat := 269.
Definition slot (v : Z -> block) (a : list Z) (p : nat) : Z :=
  if decide (p <= 12)%nat then a !!! p else if decide (a !!! 12%nat = 0) then 0 else get32 (v (a !!! 12%nat)) (4 * (p - 13)).
(** The position of block [bn] of the file. *)
Definition pos (bn : nat) : nat := if decide (bn < 12)%nat then bn else Datatypes.S bn.
Definition faddr (v : Z -> block) (a : list Z) (bn : nat) : Z := slot v a (pos bn).

Record file_ok (v : Z -> block) (a : list Z) : Prop := FileOk {
  fo_len : length a = 13%nat;
  fo_data p : (p < NPOS)%nat -> slot v a p <> 0 -> data_block (slot v a p) /\ used v (slot v a p) = true;
  fo_inj p q : (p < NPOS)%nat -> (q < NPOS)%nat -> slot v a p <> 0 -> slot v a p = slot v a q -> p = q
}.

(** Block [b] has been allocated for the empty position [p]. *)
Record fills (v : Z -> block) (a : list Z) (p : nat) (b : Z) (v' : Z -> block) (a' : list Z) : Prop := Fills {
  fi_len : length a' = 13%nat;
  fi_zero : slot v a p = 0;
  fi_data : data_block b;
  fi_fresh : used v b = false;
  fi_slot q : (q < NPOS)%nat -> slot v' a' q = if decide (q = p) then b else slot v a q;
  fi_used c : 0 <= c < sb_size sb0 -> used v' c = (b =? c) || used v c;
  fi_frame c : c < bmapstart sb0 \/ data_block c /\ c <> b /\ c <> slot v a 12 -> v' c = v c;
  fi_new : v' b = zero_block
}.

Lemma slot_ind v a : slot v a 12 = a !!! 12%nat.
Proof. done. Qed.

Lemma fills_ok v a p b v' a' : file_ok v a -> fills v a p b v' a' -> file_ok v' a'.
Proof.
  intros [Hl Hd Hi] F. pose proof (data_range _ (fi_data _ _ _ _ _ _ F)) as Hb. split; [apply F| |].
  - intros q Hq. rewrite (fi_slot _ _ _ _ _ _ F) by done. destruct (decide (q = p)) as [->|Hne]; intros Hz.
    + split; [apply F|]. rewrite (fi_used _ _ _ _ _ _ F) by done. by rewrite Z.eqb_refl.
    + destruct (Hd q Hq Hz) as [H1 H2]. split; [done|]. rewrite (fi_used _ _ _ _ _ _ F) by by apply data_range. rewrite H2. apply orb_true_r.
  - intros q r Hq Hr. rewrite !(fi_slot _ _ _ _ _ _ F) by done. pose proof (fi_fresh _ _ _ _ _ _ F) as Hf.
    destruct (decide (q = p)) as [->|], (decide (r = p)) as [->|]; intros Hz E; [done| | |by apply Hi].
    + exfalso. destruct (Hd r Hr) as [_ H]; [congruence|]. rewrite <- E in H. congruence.
    + exfalso. destruct (Hd q Hq Hz) as [_ H]. rewrite E in H. congruence.
Qed.

Lemma fills_meta v a p b v' a' : meta_used v -> fills v a p b v' a' -> meta_used v'.
Proof. intros Hm F c Hc. pose proof (g_data G). rewrite (fi_used _ _ _ _ _ _ F) by lia. rewrite Hm by done. apply orb_true_r. Qed.

Lemma fills_free v a p b v' a' : fills v a p b v' a' -> free v' = free v ∖ {[b]}.
Proof.
  intros F. apply set_eq. intros c. rewrite elem_of_difference, elem_of_singleton, !elem_of_free.
  destruct (decide (0 <= c < sb_size sb0)); [|tauto]. rewrite (fi_used _ _ _ _ _ _ F) by done. destruct (Z.eqb_spec b c); simpl; naive_solver.
Qed.

Lemma get32_zero o : (o + 3 < 1024)%nat -> get32 zero_block o = 0.
Proof.
  intros Ho. unfold get32. assert (forall i, (i < 1024)%nat -> zero_block !!! i = 0) as E; [|by rewrite !E by lia].
  intros i Hi. by apply lookup_total_replicate_2.
Qed.

Lemma alloc_below v b c : data_block b -> c < bmapstart sb0 -> alloc v b c = v c.
Proof.
  intros Hb Hc. pose proof (data_range b Hb) as Hr. pose proof (BBLOCK_eq b Hr) as E.
  pose proof (Z.div_pos b BPB ltac:(lia) ltac:(unfold BPB; lia)). pose proof (BBLOCK_meta b Hr). destruct Hb. unfold alloc, mark. rewrite !dset_ne by lia. done.
Qed.

(** Filling a position kept in the inode. *)
Lemma fills_direct v a p b : file_ok v a -> (p <= 12)%nat -> a !!! p = 0 -> data_block b -> used v b = false -> block_ok (v (BBLOCK b sb0)) ->
  fills v a p b (alloc v b) (<[p := b]> a).
Proof.
  intros Hf Hp Hz Hb Hu Hok. pose proof (fo_len _ _ Hf) as Hl. split; try done.
  - by rewrite length_insert.
  - unfold slot. by rewrite decide_True.
  - intros q Hq. unfold slot. destruct (decide (q <= 12)%nat) as [H12|H12].
    + destruct (decide (q = p)) as [->|]; [by rewrite list_lookup_total_insert_eq by lia|by rewrite list_lookup_total_insert_ne].
    + rewrite (decide_False (P := q = p)) by lia. destruct (decide (p = 12%nat)) as [->|Hne].
      * rewrite list_lookup_total_insert_eq by lia. rewrite alloc_self, get32_zero by (unfold NPOS in *; lia). rewrite (decide_True (P := a !!! 12%nat = 0)) by done. by destruct (decide (b = 0)).
      * rewrite list_lookup_total_insert_ne by done. destruct (decide (a !!! 12%nat = 0)) as [|Hn]; [done|].
        destruct (fo_data _ _ Hf 12) as [Hd Hus]; [unfold NPOS; lia|done|]. rewrite slot_ind in *. rewrite alloc_other; congruence || done.
  - intros c Hc. by apply used_alloc.
  - intros c [Hc|(Hc & Hn & _)]; [by apply alloc_below|by apply alloc_other].
  - apply alloc_self.
Qed.

(** Filling a position kept in the indirect block. *)
Lemma fills_entry v a p b : file_ok v a -> (12 < p < NPOS)%nat -> a !!! 12%nat <> 0 -> slot v a p = 0 -> data_block b -> used v b = false ->
  block_ok (v (BBLOCK b sb0)) -> block_ok (v (a !!! 12%nat)) ->
  fills v a p b (dset (alloc v b) (a !!! 12%nat) (put32 (v (a !!! 12%nat)) (4 * (p - 13)) b)) a.
Proof.
  intros Hf Hp Hc Hz Hb Hu Hok Hokc. destruct (fo_data _ _ Hf 12) as [Hd Hus]; [unfold NPOS; lia|done|].
  rewrite slot_ind in *. set (c := a !!! 12%nat) in *. pose proof (data_range b Hb). pose proof (data_range c Hd).
  assert (b <> c) as Hbc by congruence. destruct Hokc as [Hlen _]. split; try done.
  - apply Hf.
  - intros q Hq. unfold slot. fold c. destruct (decide (q <= 12)%nat); [by rewrite decide_False by lia|]. rewrite !(decide_False (P := c = 0)) by done.
    rewrite dset_eq. destruct (decide (q = p)) as [->|Hne].
    + apply get32_put32; [pose proof (g_size G); unfold is_u32; lia|]. rewrite Hlen. unfold BSIZE, NPOS in *. lia.
    + apply get32_put32_other. lia.
  - intros x Hx. rewrite used_dset by done. by apply used_alloc.
  - rewrite slot_ind. fold c. intros x [Hx|(Hx & Hn & Hnc)]; [|rewrite dset_ne by done; by apply alloc_other].
    rewrite dset_ne; [by apply alloc_below|]. destruct Hd. pose proof bitmap_before_data. lia.
  - rewrite dset_ne by done. apply alloc_self.
Qed.

(** ** [bmap] *)

(** Blocks the indirect block may still add to a transaction, and to those in use. *)
Definition ind_cost (a : list Z) (L : gset Z) : nat := if decide (a !!! 12%nat <> 0 /\ a !!! 12%nat ∈ L) then 0 else 2.
Definition ind_need (a : list Z) : nat := if decide (a !!! 12%nat = 0) then 1 else 0.

(** What [bmap] leaves when block [bn] was missing. *)
Record bmap_post (v : Z -> block) (a : list Z) (L : gset Z) (bn : nat) (addr : Z) (v' : Z -> block) (a' : list Z) (L' : gset Z) : Prop := BmapPost {
  bp_ok : file_ok v' a';
  bp_meta : meta_used v';
  bp_addr : faddr v' a' bn = addr;
  bp_data : data_block addr;
  bp_slot q : (q < NPOS)%nat -> q <> pos bn -> q <> 12%nat -> slot v' a' q = slot v a q;
  bp_ind : slot v a 12 <> 0 -> slot v' a' 12 = slot v a 12;
  bp_ind_new : slot v a 12 = 0 -> slot v' a' 12 = 0 \/ used v (slot v' a' 12) = false;
  bp_used c : 0 <= c < sb_size sb0 -> used v c = true -> used v' c = true;
  bp_only c : 0 <= c < sb_size sb0 -> used v' c = true -> used v c = true \/ c = addr \/ c = slot v' a' 12;
  bp_fresh : used v addr = false;
  bp_frame c : c < bmapstart sb0 \/ data_block c /\ used v c = true /\ c <> slot v a 12 -> v' c = v c;
  bp_new : v' addr = zero_block;
  bp_logged : addr ∈ L';
  bp_cost : (size L' + ind_cost a' L' <= size L + ind_cost a L + 2)%nat;
  bp_free : (size (free v) + ind_need a' <= size (free v') + ind_need a + 1)%nat
}.

Lemma free_pred v b : b ∈ free v -> size (free v) = Datatypes.S (size (free v ∖ {[b]})).
Proof.
  intros Hb. rewrite size_difference by set_solver. rewrite size_singleton. pose proof (subseteq_size {[b]} (free v) ltac:(set_solver)) as H.
  rewrite size_singleton in H. lia.
Qed.

Lemma pos_lt bn : (bn < 268)%nat -> (pos bn < NPOS)%nat /\ pos bn <> 12%nat.
Proof. intros H. unfold pos, NPOS. case_decide; lia. Qed.
Lemma pos_inj bn bn' : pos bn = pos bn' -> bn = bn'.
Proof. unfold pos. repeat case_decide; lia. Qed.

Lemma fills_post v a L bn b v' a' L' : file_ok v a -> meta_used v -> (bn < 268)%nat -> fills v a (pos bn) b v' a' -> b ∈ L' ->
  (size L' + ind_cost a' L' <= size L + ind_cost a L + 2)%nat -> bmap_post v a L bn b v' a' L'.
Proof.
  intros Hf Hm Hbn F HL Hc. pose proof (fills_ok _ _ _ _ _ _ Hf F) as Hf'. pose proof (pos_lt bn Hbn) as [Hp Hp12].
  assert (slot v' a' 12 = slot v a 12) as E12 by (rewrite (fi_slot _ _ _ _ _ _ F) by (unfold NPOS; lia); by rewrite decide_False).
  pose proof (data_range _ (fi_data _ _ _ _ _ _ F)). split; try done.
  - by eapply fills_meta.
  - unfold faddr. rewrite (fi_slot _ _ _ _ _ _ F) by done. by rewrite decide_True.
  - apply F.
  - intros q Hq Hn _. rewrite (fi_slot _ _ _ _ _ _ F) by done. by rewrite decide_False.
  - rewrite E12. auto.
  - intros c Hc' Hu. rewrite (fi_used _ _ _ _ _ _ F), Hu by done. apply orb_true_r.
  - intros c Hc'. rewrite (fi_used _ _ _ _ _ _ F) by done. destruct (Z.eqb_spec b c); auto.
  - apply F.
  - intros c [Hx|(Hx & Hu & Hn)]; apply (fi_frame _ _ _ _ _ _ F); [by left|]. right. split_and!; [done| |done].
    pose proof (fi_fresh _ _ _ _ _ _ F). congruence.
  - apply F.
  - rewrite (free_pred v b), (fills_free _ _ _ _ _ _ F) by (apply elem_of_free; split; [done|apply F]).
    rewrite !slot_ind in E12. unfold ind_need. rewrite E12. lia.
Qed.

(** The indirect block allocated first. *)
Lemma post_after_ind v a L c v1 a1 L1 bn addr v2 a2 L2 : (bn < 268)%nat -> fills v a 12 c v1 a1 -> bmap_post v1 a1 L1 bn addr v2 a2 L2 -> c <> 0 ->
  (size L1 + ind_cost a1 L1 <= size L + ind_cost a L)%nat -> bmap_post v a L bn addr v2 a2 L2.
Proof.
  intros Hbn F B Hc0 Hc. pose proof (data_range _ (fi_data _ _ _ _ _ _ F)) as Hc'. pose proof (data_range _ (bp_data _ _ _ _ _ _ _ _ B)) as Ha.
  assert (slot v1 a1 12 = c) as E1 by (rewrite (fi_slot _ _ _ _ _ _ F) by (unfold NPOS; lia); by rewrite decide_True).
  pose proof (fi_zero _ _ _ _ _ _ F) as Hz. pose proof (fi_fresh _ _ _ _ _ _ F) as Hu. pose proof (bp_fresh _ _ _ _ _ _ _ _ B) as Hfr.
  assert (slot v2 a2 12 = c) as E2. { rewrite (bp_ind _ _ _ _ _ _ _ _ B), E1 by congruence. done. }
  split; try apply B.
  - intros q Hq H1 H2. rewrite (bp_slot _ _ _ _ _ _ _ _ B) by done. rewrite (fi_slot _ _ _ _ _ _ F) by done. by rewrite decide_False.
  - done.
  - right. congruence.
  - intros x Hx Hxu. apply (bp_used _ _ _ _ _ _ _ _ B); [done|]. rewrite (fi_used _ _ _ _ _ _ F), Hxu by done. apply orb_true_r.
  - intros x Hx Hxu. destruct (bp_only _ _ _ _ _ _ _ _ B x Hx Hxu) as [H|]; [|auto]. rewrite (fi_used _ _ _ _ _ _ F) in H by done.
    destruct (Z.eqb_spec c x) as [<-|]; auto.
  - rewrite (fi_used _ _ _ _ _ _ F) in Hfr by done. by apply orb_false_iff in Hfr as [_ ?].
  - intros x [Hx|(Hx & Hxu & Hn)].
    + rewrite (bp_frame _ _ _ _ _ _ _ _ B) by auto. apply (fi_frame _ _ _ _ _ _ F). auto.
    + assert (x <> c) by congruence. rewrite (bp_frame _ _ _ _ _ _ _ _ B); [apply (fi_frame _ _ _ _ _ _ F); auto|]. right. split_and!; [done| |congruence].
      rewrite (fi_used _ _ _ _ _ _ F), Hxu by by apply data_range. apply orb_true_r.
  - pose proof (bp_cost _ _ _ _ _ _ _ _ B). lia.
  - pose proof (bp_free _ _ _ _ _ _ _ _ B) as Hfree. rewrite (free_pred v c) by (apply elem_of_free; done). rewrite <- (fills_free _ _ _ _ _ _ F).
    rewrite slot_ind in *. unfold ind_need in *. rewrite E1, E2, Hz in *. repeat case_decide; try done; lia.
Qed.

Lemma get_inode_wp s i ip Q : icache s !! i = Some ip -> Q ip s -> wp (get_inode (S := S) i) s Q.
Proof. intros E H. unfold get_inode. apply wp_bind, wp_getS. by eapply wp_deref. Qed.

(** Only inode [i] differs. *)
Definition inode_step (s s' : fsys S) (i : nat) (ip : native_inode) : Prop :=
  sbs s' = sbs s /\ icache s' = <[i := ip]> (icache s) /\ devices s' = devices s.

Lemma inode_step_lookup s s' i ip ip0 : inode_step s s' i ip -> icache s !! i = Some ip0 -> icache s' !! i = Some ip.
Proof. intros (_ & -> & _) H. apply list_lookup_insert_eq. by eapply lookup_lt_Some. Qed.
Lemma inode_step_trans s1 s2 s3 i ip ip' : inode_step s1 s2 i ip -> inode_step s2 s3 i ip' -> inode_step s1 s3 i ip'.
Proof. intros (? & E & ?) (? & E' & ?). split_and!; [congruence| |congruence]. by rewrite E', E, list_insert_insert_eq. Qed.
Lemma inode_step_rest s1 s2 s3 i ip : inode_step s1 s2 i ip -> same_rest s2 s3 -> inode_step s1 s3 i ip.
Proof. intros (? & ? & ?) (? & ? & ?). split_and!; congruence. Qed.
Lemma rest_inode_step s1 s2 s3 i ip : same_rest s1 s2 -> inode_step s2 s3 i ip -> inode_step s1 s3 i ip.
Proof. intros (? & ? & ?) (? & ? & ?). split_and!; congruence. Qed.
Lemma rest_lookup s1 s2 i ip : same_rest s1 s2 -> icache s1 !! i = Some ip -> icache s2 !! i = Some ip.
Proof. intros (_ & -> & _) H. done. Qed.
Lemma upd_inode_step s i f ip : icache s !! i = Some ip -> inode_step s (upd_inode i f s) i (f ip).
Proof. intros H. split_and!; [done| |done]. unfold upd_inode. cbn [icache]. by apply alter_insert. Qed.
Lemma upd_inode_fs_at s v hs L i f : fs_at s v hs L -> fs_at (upd_inode i f s) v hs L.
Proof. done. Qed.
Lemma same_rest_step s s' i ip : same_rest s s' -> icache s !! i = Some ip -> inode_step s s' i ip.
Proof. intros (Hs & E & Hd) H. split_and!; [done| |done]. rewrite E. by rewrite list_insert_id. Qed.

Lemma held_used_one v h b : data_block b -> used v b = true -> held_used v {[h := (b, true)]}.
Proof. intros Hd Hu h' x E. apply lookup_singleton_Some in E as [_ <-]. done. Qed.
Lemma held_used_empty v : held_used v ∅.
Proof. intros h x E. rewrite lookup_empty in E. done. Qed.
Lemma not_held_empty b : not_held b ∅.
Proof. intros h x E. rewrite lookup_empty in E. done. Qed.

(** A block the file has: nothing changes. *)
Lemma bmap_read_wp s v L i ip bn Q : fs_at s v ∅ L -> icache s !! i = Some ip -> isb ip = k -> file_ok v (addrs ip) -> (bn < 268)%nat -> faddr v (addrs ip) bn <> 0 ->
  (forall s', fs_at s' v ∅ L -> same_rest s s' -> Q (faddr v (addrs ip) bn) s') -> wp (bmap i (Z.of_nat bn)) s Q.
Proof.
  intros Hs Hi Hk Hf Hbn Hne HQ. unfold bmap. apply wp_bind. eapply get_inode_wp; [done|]. rewrite Hk. pose proof (fo_len _ _ Hf) as Hl.
  unfold faddr, pos, slot in HQ, Hne. unfold NDIRECT in *. destruct (Z.ltb_spec (Z.of_nat bn) (Z.of_nat 12)) as [Hlt|Hge].
  - rewrite (decide_True (P := (bn < 12)%nat)) in * by lia. rewrite (decide_True (P := (bn <= 12)%nat)) in * by lia. rewrite Nat2Z.id.
    apply wp_bind. eapply wp_deref; [apply list_lookup_lookup_total_lt; lia|]. destruct (Z.eqb_spec (addrs ip !!! bn) 0); [done|].
    apply wp_ret, HQ; [done|]. done.
  - rewrite (decide_False (P := (bn < 12)%nat)) in * by lia. rewrite (decide_False (P := (Datatypes.S bn <= 12)%nat)) in * by lia.
    unfold NINDIRECT. destruct (Z.ltb_spec (Z.of_nat bn - Z.of_nat 12) (Z.of_nat 256)); [|lia]. cbv zeta.
    destruct (decide (addrs ip !!! 12%nat = 0)) as [|Hc]; [done|]. destruct (fo_data _ _ Hf 12) as [Hd Hu]; [unfold NPOS; lia|done|]. rewrite slot_ind in *.
    apply wp_bind. eapply wp_deref; [apply list_lookup_lookup_total_lt; lia|]. rewrite (proj2 (Z.eqb_neq _ _) Hc).
    apply wp_bind, wp_ret, wp_bind. eapply fs_bread_wp; [done|by apply data_ok|apply not_held_empty|rewrite map_size_empty; lia|]. intros h s1 Hh H1 R1.
    apply wp_bind. eapply data_wp; [done|apply lookup_insert_eq|]. intros s2 H2 R2.
    replace (Z.to_nat (Z.of_nat bn - Z.of_nat 12)) with (Datatypes.S bn - 13)%nat by lia. rewrite (proj2 (Z.eqb_neq _ _) Hne).
    apply wp_bind, wp_ret, wp_bind. eapply put_back_wp; [done|done|]. intros s3 H3 R3. apply wp_ret, HQ; [done|]. eauto using same_rest_trans.
Qed.

Lemma ind_cost_le a L L' : L ⊆ L' -> (ind_cost a L' <= ind_cost a L)%nat.
Proof. intros H. unfold ind_cost. repeat case_decide; set_solver || lia. Qed.
Lemma ind_cost_ne a p b L : p <> 12%nat -> ind_cost (<[p := b]> a) L = ind_cost a L.
Proof. intros H. unfold ind_cost. by rewrite list_lookup_total_insert_ne by done. Qed.
Lemma alloc_cost b (L : gset Z) : (size ({[b]} ∪ ({[BBLOCK b sb0]} ∪ L)) <= size L + 2)%nat.
Proof. pose proof (logged_le b ({[BBLOCK b sb0]} ∪ L)). pose proof (logged_le (BBLOCK b sb0) L). lia. Qed.

(** The entry of an indirect block that lists no block yet. *)
Lemma bmap_entry_wp s v L a bn Q : fs_at s v ∅ L -> meta_used v -> file_ok v a -> (12 <= bn < 268)%nat -> a !!! 12%nat <> 0 -> faddr v a bn = 0 ->
  (size L + ind_cost a L + 2 <= bl_cap)%nat -> (0 < size (free v))%nat ->
  (forall addr s' v' L', fs_at s' v' ∅ L' -> same_rest s s' -> bmap_post v a L bn addr v' a L' -> Q addr s') ->
  wp (bp ← fs_bread k (a !!! 12%nat);
      d ← onblk (bl_data bp);
      let e := get32 d (4 * (bn - 12)) in
      r ← (if e =? 0 then
             addr ← balloc k;
             d ← onblk (bl_data bp);
             onblk (bl_store bp (put32 d (4 * (bn - 12)) addr)) ;;
             onblk (bl_log_write bp) ;;
             mret addr
           else mret e);
      onblk (bl_release bp) ;;
      mret r) s Q.
Proof.
  intros Hs Hm Hf Hbn Hc Hz Hcap Hfree HQ. destruct (fo_data _ _ Hf 12) as [Hd Hu]; [unfold NPOS; lia|done|]. rewrite slot_ind in *.
  pose proof Hz as Hz'. unfold faddr, pos, slot in Hz'. rewrite (decide_False (P := (bn < 12)%nat)), (decide_False (P := (Datatypes.S bn <= 12)%nat)), decide_False in Hz' by (done || lia).
  replace (Datatypes.S bn - 13)%nat with (bn - 12)%nat in Hz' by lia.
  apply wp_bind. eapply fs_bread_wp; [done|by apply data_ok|apply not_held_empty|rewrite map_size_empty; lia|]. intros h s1 Hh H1 R1.
  apply wp_bind. eapply data_wp; [done|apply lookup_insert_eq|]. intros s2 H2 R2. cbv zeta. rewrite Hz'. cbn [Z.eqb].
  rewrite insert_empty in H2. apply wp_bind, wp_bind.
  eapply balloc_wp; [exact H2|done|by apply held_used_one|rewrite map_size_singleton; lia|lia|done|]. intros b s3 Hb Hub H3 R3.
  apply wp_bind. eapply data_wp; [done|apply lookup_singleton_eq|]. intros s4 H4 R4.
  rewrite alloc_other in * by (done || congruence). pose proof (alloc_cost b L) as Hac. set (L3 := {[b]} ∪ ({[BBLOCK b sb0]} ∪ L)) in *.
  assert (block_ok (v (a !!! 12%nat))) as Hok by (eapply bl_block; [apply Hs|by apply data_ok]).
  assert (size ({[a !!! 12%nat]} ∪ L3) + 0 <= size L + ind_cost a L + 2)%nat as Hsz.
  { unfold ind_cost. case_decide as Hi; [|pose proof (logged_le (a !!! 12%nat) L3); lia]. replace ({[a !!! 12%nat]} ∪ L3) with L3 by set_solver. lia. }
  eapply write_log_wp; [done|apply lookup_singleton_eq| |lia|].
  { split; [rewrite length_put32; apply Hok|]. unfold put32. repeat apply Forall_insert; try apply u8_range. apply Hok. }
  intros s5 H5 R5. apply wp_ret, wp_bind. rewrite insert_singleton_eq in H5. eapply release_wp; [done|apply lookup_singleton_eq|].
  intros s6 H6 R6. rewrite delete_singleton_eq in H6. apply wp_ret. eapply HQ; [done|rest|].
  apply fills_post; try done; try lia.
  - replace (bn - 12)%nat with (pos bn - 13)%nat by (unfold pos; case_decide; lia).
    apply fills_entry; try done; [split; [unfold pos; case_decide; lia|apply pos_lt; lia]|]. eapply bl_block; [apply Hs|]. apply bitmap_ok. by apply data_range.
  - set_solver.
  - unfold ind_cost at 1. rewrite decide_True; [done|]. set_solver.
Qed.

Lemma bitmap_block_ok s v hs L b : fs_at s v hs L -> data_block b -> block_ok (v (BBLOCK b sb0)).
Proof. intros Hs Hb. eapply bl_block; [apply Hs|]. apply bitmap_ok. by apply data_range. Qed.
Lemma data_ne0 b : data_block b -> b <> 0.
Proof. intros [H _]. pose proof datastart_pos. lia. Qed.

(** A block the file lacks is allocated. *)
Lemma bmap_fill_wp s v L i ip bn Q : fs_at s v ∅ L -> icache s !! i = Some ip -> isb ip = k -> meta_used v -> file_ok v (addrs ip) -> (bn < 268)%nat ->
  faddr v (addrs ip) bn = 0 -> (size L + ind_cost (addrs ip) L + 2 <= bl_cap)%nat -> (ind_need (addrs ip) < size (free v))%nat ->
  (forall addr s' v' a' L', fs_at s' v' ∅ L' -> inode_step s s' i (set_addrs a' ip) -> bmap_post v (addrs ip) L bn addr v' a' L' -> Q addr s') ->
  wp (bmap i (Z.of_nat bn)) s Q.
Proof.
  intros Hs Hi Hk Hm Hf Hbn Hz Hcap Hfree HQ. unfold bmap. apply wp_bind. eapply get_inode_wp; [done|]. rewrite Hk. pose proof (fo_len _ _ Hf) as Hl.
  assert (forall ip0, set_addrs (addrs ip0) ip0 = ip0) as Hset by (intros []; done).
  unfold NDIRECT in *. destruct (Z.ltb_spec (Z.of_nat bn) (Z.of_nat 12)) as [Hlt|Hge].
  - pose proof Hz as Hz'. unfold faddr, pos, slot in Hz'. rewrite (decide_True (P := (bn < 12)%nat)), decide_True in Hz' by lia. rewrite Nat2Z.id.
    apply wp_bind. eapply wp_deref; [apply list_lookup_lookup_total_lt; lia|]. rewrite Hz'. cbn [Z.eqb]. apply wp_bind.
    eapply balloc_wp; [exact Hs|done|apply held_used_empty|rewrite map_size_empty; lia|lia|lia|]. intros b s1 Hb Hu H1 R1.
    apply wp_bind, wp_modS, wp_ret. pose proof (rest_lookup _ _ _ _ R1 Hi) as Hi1.
    eapply (HQ _ _ _ (<[bn := b]> (addrs ip))); [by apply upd_inode_fs_at|eapply rest_inode_step; [done|exact (upd_inode_step _ _ _ ip Hi1)]|].
    apply fills_post; try done; [|set_solver|].
    + replace (pos bn) with bn by (unfold pos; case_decide; lia). apply fills_direct; try done; [lia|by eapply bitmap_block_ok].
    + rewrite ind_cost_ne by lia. pose proof (alloc_cost b L). pose proof (ind_cost_le (addrs ip) L ({[b]} ∪ ({[BBLOCK b sb0]} ∪ L)) ltac:(set_solver)). lia.
  - unfold NINDIRECT. destruct (Z.ltb_spec (Z.of_nat bn - Z.of_nat 12) (Z.of_nat 256)); [|lia]. cbv zeta.
    apply wp_bind. eapply wp_deref; [apply list_lookup_lookup_total_lt; lia|]. replace (Z.to_nat (Z.of_nat bn - Z.of_nat 12)) with (bn - 12)%nat by lia.
    apply wp_bind. destruct (Z.eqb_spec (addrs ip !!! 12%nat) 0) as [E0|Hne].
    + unfold ind_need in Hfree. rewrite decide_True in Hfree by done. apply wp_bind.
      eapply balloc_wp; [exact Hs|done|apply held_used_empty|rewrite map_size_empty; lia|lia|lia|]. intros c s1 Hb Hu H1 R1.
      pose proof (rest_lookup _ _ _ _ R1 Hi) as Hi1. apply wp_bind, wp_modS, wp_ret. pose proof (data_ne0 c Hb) as Hc0.
      assert (fills v (addrs ip) 12 c (alloc v c) (<[12%nat := c]> (addrs ip))) as F by (apply fills_direct; try done; by eapply bitmap_block_ok).
      set (a1 := <[12%nat := c]> (addrs ip)) in *. set (L1 := {[c]} ∪ ({[BBLOCK c sb0]} ∪ L)) in *.
      assert (a1 !!! 12%nat = c) as Ea by (apply list_lookup_total_insert_eq; lia).
      assert (ind_cost a1 L1 = 0%nat) as C1 by (unfold ind_cost; rewrite Ea, decide_True; [done|set_solver]).
      assert (ind_cost (addrs ip) L = 2%nat) as C0 by (unfold ind_cost; rewrite E0, decide_False; [done|tauto]).
      pose proof (alloc_cost c L) as Hac. fold L1 in Hac. rewrite <- Ea.
      eapply (bmap_entry_wp _ (alloc v c) L1 a1); [by apply upd_inode_fs_at|by eapply fills_meta|by eapply fills_ok|lia|congruence| |lia| |].
      * unfold faddr. pose proof (pos_lt bn Hbn). rewrite (fi_slot _ _ _ _ _ _ F) by lia. rewrite decide_False by lia. exact Hz.
      * rewrite (fills_free _ _ _ _ _ _ F). pose proof (free_pred v c) as Hp. rewrite Hp in Hfree; [lia|]. apply elem_of_free. split; [by apply data_range|done].
      * intros addr s2 v2 L2 H2 R2 B. rewrite Ea in R2. eapply (HQ _ _ _ a1); [done|eapply inode_step_rest; [|done]; eapply rest_inode_step; [done|exact (upd_inode_step _ _ _ ip Hi1)]|].
        eapply post_after_ind; [done|exact F|exact B|done|lia].
    + apply wp_ret. eapply (bmap_entry_wp s v L (addrs ip)); try done; [lia|lia|]. intros addr s' v' L' H' R' B. eapply HQ; [done| |done].
      rewrite Hset. by apply same_rest_step.
Qed.

(** ** File contents *)

Definition fblock (o : Z) : nat := Z.to_nat (o / BSIZE).
Definition fbyte (v : Z -> block) (a : list Z) (o : Z) : Z := v (faddr v a (fblock o)) !!! Z.to_nat (o mod BSIZE).
Definition fbytes (v : Z -> block) (a : list Z) (off n : Z) : list Z := fbyte v a <$> seqZ off n.
Definition contents (v : Z -> block) (ip : native_inode) : list Z := fbytes v (addrs ip) 0 (isize ip).
(** Every block below [n] is there. *)
Definition full (v : Z -> block) (a : list Z) (n : Z) : Prop := forall o, 0 <= o < n -> faddr v a (fblock o) <> 0.

Lemma BSIZE_mod o : 0 <= o mod BSIZE < BSIZE.
Proof. apply Z.mod_pos_bound. unfold BSIZE. lia. Qed.

Lemma same_block o o' : 0 <= o -> o <= o' < o + (BSIZE - o mod BSIZE) -> fblock o' = fblock o /\ o' mod BSIZE = o mod BSIZE + (o' - o).
Proof.
  intros Ho H. pose proof (Z.div_mod o BSIZE ltac:(unfold BSIZE; lia)) as E. pose proof (BSIZE_mod o) as Hm.
  replace o' with ((o mod BSIZE + (o' - o)) + o / BSIZE * BSIZE) by lia. unfold fblock.
  rewrite Z.div_add, Z_mod_plus_full, Z.div_small, Z.mod_small by (unfold BSIZE in *; lia). split; [f_equal; lia|lia].
Qed.

Lemma fblock_lt o : 0 <= o < MAXFILE * BSIZE -> (fblock o < 268)%nat.
Proof.
  intros H. unfold fblock. assert (0 <= o / BSIZE < 268); [|lia]. unfold MAXFILE in H.
  split; [apply Z.div_pos; unfold BSIZE in *; lia|apply Z.div_lt_upper_bound; unfold BSIZE in *; lia].
Qed.

Lemma lookup_fbytes v a off n j : (j < Z.to_nat n)%nat -> fbytes v a off n !! j = Some (fbyte v a (off + Z.of_nat j)).
Proof. intros H. unfold fbytes. rewrite list_lookup_fmap, lookup_seqZ_lt by lia. done. Qed.
Lemma length_fbytes v a off n : length (fbytes v a off n) = Z.to_nat n.
Proof. unfold fbytes. by rewrite length_fmap, length_seqZ. Qed.
Lemma fbytes_app v a off n m : 0 <= n -> 0 <= m -> fbytes v a off (n + m) = fbytes v a off n ++ fbytes v a (off + n) m.
Proof. intros Hn Hm. unfold fbytes. by rewrite seqZ_app, fmap_app. Qed.

Lemma lookup_slice (l : list Z) off n j : (j < n)%nat -> slice l off n !! j = l !! (off + j)%nat.
Proof. intros H. unfold slice. by rewrite lookup_take_lt, lookup_drop. Qed.

Lemma slice_fbytes v a off n N : 0 <= off -> 0 <= n -> off + n <= N -> slice (fbytes v a 0 N) (Z.to_nat off) (Z.to_nat n) = fbytes v a off n.
Proof.
  intros Ho Hn HN. apply list_eq. intros j. destruct (decide (j < Z.to_nat n)%nat) as [Hj|Hj].
  - rewrite lookup_slice, !lookup_fbytes by lia. f_equal. f_equal. lia.
  - rewrite !lookup_ge_None_2; [done|rewrite length_fbytes; lia|unfold slice; rewrite length_take; lia].
Qed.

(** The part of a block a round of the loops moves. *)
Lemma slice_block v a o m : 0 <= o -> 0 <= m <= BSIZE - o mod BSIZE -> length (v (faddr v a (fblock o))) = Z.to_nat BSIZE ->
  slice (v (faddr v a (fblock o))) (Z.to_nat (o mod BSIZE)) (Z.to_nat m) = fbytes v a o m.
Proof.
  intros Ho Hm Hl. pose proof (BSIZE_mod o). apply list_eq. intros j. destruct (decide (j < Z.to_nat m)%nat) as [Hj|Hj].
  - rewrite lookup_slice, lookup_fbytes by lia. unfold fbyte. destruct (same_block o (o + Z.of_nat j)) as [-> ->]; [done|lia|].
    rewrite <- list_lookup_lookup_total_lt by (rewrite Hl; lia). f_equal. lia.
  - rewrite !lookup_ge_None_2; [done|rewrite length_fbytes; lia|unfold slice; rewrite length_take; lia].
Qed.

Lemma put_bytes_app {V} {BS : ByteSink V} (l1 l2 : list Z) (x : V) o : put_bytes x o (l1 ++ l2) = put_bytes (put_bytes x o l1) (o + Z.of_nat (length l1)) l2.
Proof.
  revert x o. induction l1 as [|b l1 IH]; intros x o; cbn [put_bytes app length]; [f_equal; lia|]. rewrite IH. f_equal. lia.
Qed.

Lemma file_block_ok s v hs L a bn : fs_at s v hs L -> file_ok v a -> (bn < 268)%nat -> faddr v a bn <> 0 -> bl_ok (faddr v a bn) /\ block_ok (v (faddr v a bn)).
Proof.
  intros Hs Hf Hb Hne. destruct (fo_data _ _ Hf (pos bn)) as [Hd _]; [apply pos_lt; done|done|]. pose proof (data_ok _ Hd) as Hok. split; [done|].
  eapply bl_block; [apply Hs|done].
Qed.

Lemma readi_loop_wp {V} {BS : ByteSink V} fuel s v L i ip off n tot (dst : V) Q : fs_at s v ∅ L -> icache s !! i = Some ip -> isb ip = k -> file_ok v (addrs ip) ->
  0 <= tot <= n -> n - tot <= Z.of_nat fuel -> 0 <= off -> off + (n - tot) <= MAXFILE * BSIZE -> full v (addrs ip) (off + (n - tot)) ->
  (forall s', fs_at s' v ∅ L -> same_rest s s' -> Q (put_bytes dst tot (fbytes v (addrs ip) off (n - tot))) s') ->
  wp (readi_loop fuel i off n tot dst) s Q.
Proof.
  revert s off tot dst. induction fuel as [|fuel IH]; intros s off tot dst Hs Hi Hk Hf Ht Hfu Ho Hmax Hfull HQ; cbn [readi_loop].
  { destruct (Z.ltb_spec tot n); [lia|]. apply wp_ret. replace (n - tot) with 0 in HQ by lia. by apply HQ. }
  destruct (Z.ltb_spec tot n) as [Hlt|]; [|apply wp_ret; replace (n - tot) with 0 in HQ by lia; by apply HQ].
  pose proof (BSIZE_mod off) as Hmod. assert (faddr v (addrs ip) (fblock off) <> 0) as Hne by (apply Hfull; lia).
  pose proof (fblock_lt off ltac:(lia)) as Hfb. destruct (file_block_ok _ _ _ _ _ _ Hs Hf Hfb Hne) as [Hok Hbok].
  replace (off / BSIZE) with (Z.of_nat (fblock off)) by (unfold fblock; rewrite Z2Nat.id; [done|apply Z.div_pos; unfold BSIZE; lia]).
  apply wp_bind. eapply bmap_read_wp; try done. intros s1 H1 R1. pose proof (rest_lookup _ _ _ _ R1 Hi) as Hi1.
  apply wp_bind. eapply get_inode_wp; [done|]. rewrite Hk. apply wp_bind. eapply fs_bread_wp; [done|done|apply not_held_empty|rewrite map_size_empty; lia|].
  intros h s2 Hh H2 R2. apply wp_bind. eapply data_wp; [done|apply lookup_insert_eq|]. intros s3 H3 R3. apply wp_bind. eapply put_back_wp; [done|done|]. intros s4 H4 R4.
  set (m := Z.min (n - tot) (BSIZE - off mod BSIZE)) in *. assert (0 < m <= BSIZE - off mod BSIZE) as Hm by lia. rewrite slice_block by (lia || apply Hbok).
  assert (same_rest s s4) as R by rest. apply IH; try done; try lia; [by eapply rest_lookup|intros o Hr; apply Hfull; lia|]. intros s' H' R'.
  specialize (HQ s' H' ltac:(rest)). replace (n - tot) with (m + (n - (tot + m))) in HQ by lia.
  rewrite fbytes_app, put_bytes_app, length_fbytes, Z2Nat.id in HQ by lia. exact HQ.
Qed.

(** Bytes have been written at [off]: the file has grown by blocks of its own, and nothing else has changed. *)
Record wrote (v : Z -> block) (a : list Z) (L : gset Z) (off : Z) (bs : list Z) (v' : Z -> block) (a' : list Z) (L' : gset Z) (cost : nat) : Prop := Wrote {
  wr_ok : file_ok v' a';
  wr_meta : meta_used v';
  wr_slot p : (p < NPOS)%nat -> slot v a p <> 0 -> slot v' a' p = slot v a p;
  wr_new p : (p < NPOS)%nat -> slot v a p = 0 -> slot v' a' p = 0 \/ used v (slot v' a' p) = false;
  wr_in o : off <= o < off + Z.of_nat (length bs) -> faddr v' a' (fblock o) <> 0 /\ fbyte v' a' o = bs !!! Z.to_nat (o - off);
  wr_out o : 0 <= o < MAXFILE * BSIZE -> ~ off <= o < off + Z.of_nat (length bs) -> faddr v a (fblock o) <> 0 -> fbyte v' a' o = fbyte v a o;
  wr_used c : 0 <= c < sb_size sb0 -> used v c = true -> used v' c = true;
  wr_only c : data_block c -> used v' c = true -> used v c = true \/ exists p, (p < NPOS)%nat /\ slot v' a' p = c;
  wr_frame c : c < bmapstart sb0 \/ data_block c /\ used v c = true /\ (forall p, (p < NPOS)%nat -> slot v a p <> c) -> v' c = v c;
  wr_cost : (size L' + ind_cost a' L' <= size L + ind_cost a L + 2 * cost)%nat;
  wr_free : (size (free v) + ind_need a' <= size (free v') + ind_need a + cost)%nat
}.

Lemma wrote_nothing v a L off : file_ok v a -> meta_used v -> wrote v a L off [] v a L 0.
Proof. intros Hf Hm. split; try done; cbn [length]; try lia. auto. Qed.

Lemma wr_addr v a L off bs v' a' L' c bn : wrote v a L off bs v' a' L' c -> (bn < 268)%nat -> faddr v a bn <> 0 -> faddr v' a' bn = faddr v a bn.
Proof. intros W Hb Hne. apply (wr_slot _ _ _ _ _ _ _ _ _ W); [apply pos_lt; done|done]. Qed.

Lemma wrote_trans v a L off bs1 v1 a1 L1 c1 bs2 v2 a2 L2 c2 : file_ok v a -> meta_used v -> 0 <= off -> off + Z.of_nat (length bs1 + length bs2) <= MAXFILE * BSIZE ->
  wrote v a L off bs1 v1 a1 L1 c1 -> wrote v1 a1 L1 (off + Z.of_nat (length bs1)) bs2 v2 a2 L2 c2 -> wrote v a L off (bs1 ++ bs2) v2 a2 L2 (c1 + c2).
Proof.
  intros Hf Hm Ho Hmax W1 W2. split; try apply W2.
  - intros p Hp Hne. pose proof (wr_slot _ _ _ _ _ _ _ _ _ W1 p Hp Hne) as E. rewrite (wr_slot _ _ _ _ _ _ _ _ _ W2); congruence.
  - intros p Hp E0. destruct (wr_new _ _ _ _ _ _ _ _ _ W1 p Hp E0) as [E1|Hu].
    + destruct (wr_new _ _ _ _ _ _ _ _ _ W2 p Hp E1) as [|Hu]; [auto|]. destruct (decide (slot v2 a2 p = 0)); [auto|right].
      destruct (fo_data _ _ (wr_ok _ _ _ _ _ _ _ _ _ W2) p) as [Hd _]; [done..|]. apply not_true_iff_false. intros Ht.
      apply (wr_used _ _ _ _ _ _ _ _ _ W1) in Ht; [congruence|by apply data_range].
    + destruct (decide (slot v1 a1 p = 0)) as [E1|Hne]; [|rewrite (wr_slot _ _ _ _ _ _ _ _ _ W2) by done; auto].
      exfalso. rewrite E1 in Hu. rewrite Hm in Hu by (pose proof datastart_pos; lia). done.
  - rewrite length_app. intros o Hr. destruct (decide (o < off + Z.of_nat (length bs1))) as [Hlt|Hge].
    + destruct (wr_in _ _ _ _ _ _ _ _ _ W1 o) as [Hne E]; [lia|]. pose proof (fblock_lt o ltac:(lia)) as Hb. rewrite (wr_addr _ _ _ _ _ _ _ _ _ _ W2) by done. split; [done|].
      rewrite (wr_out _ _ _ _ _ _ _ _ _ W2) by (done || lia). rewrite E. by rewrite lookup_total_app_l by lia.
    + destruct (wr_in _ _ _ _ _ _ _ _ _ W2 o) as [Hne E]; [lia|]. split; [done|]. rewrite E, lookup_total_app_r by lia. f_equal. lia.
  - rewrite length_app. intros o Hr Hn Hne. pose proof (fblock_lt o Hr) as Hb. rewrite (wr_out _ _ _ _ _ _ _ _ _ W2) by
      (try lia; rewrite (wr_addr _ _ _ _ _ _ _ _ _ _ W1) by done; done). apply (wr_out _ _ _ _ _ _ _ _ _ W1); [done|lia|done].
  - intros c Hc Hu. apply (wr_used _ _ _ _ _ _ _ _ _ W2); [done|]. by apply (wr_used _ _ _ _ _ _ _ _ _ W1).
  - intros c Hc Hu. destruct (wr_only _ _ _ _ _ _ _ _ _ W2 c Hc Hu) as [Hu1|]; [|auto]. destruct (wr_only _ _ _ _ _ _ _ _ _ W1 c Hc Hu1) as [|(p & Hp & E)]; [auto|].
    pose proof (data_ne0 c Hc).
    right. exists p. split; [done|]. rewrite (wr_slot _ _ _ _ _ _ _ _ _ W2); congruence.
  - intros c Hc. rewrite (wr_frame _ _ _ _ _ _ _ _ _ W2); [by apply (wr_frame _ _ _ _ _ _ _ _ _ W1)|]. destruct Hc as [|(Hd & Hu & Hs)]; [by left|right].
    split_and!; [done|apply (wr_used _ _ _ _ _ _ _ _ _ W1); [by apply data_range|done]|]. intros p Hp E.
    destruct (decide (slot v a p = 0)) as [E0|Hne]; [|rewrite (wr_slot _ _ _ _ _ _ _ _ _ W1) in E by done; by eapply Hs].
    pose proof (data_ne0 c Hd). destruct (wr_new _ _ _ _ _ _ _ _ _ W1 p Hp E0); congruence.
  - pose proof (wr_cost _ _ _ _ _ _ _ _ _ W1). pose proof (wr_cost _ _ _ _ _ _ _ _ _ W2). lia.
  - pose proof (wr_free _ _ _ _ _ _ _ _ _ W1). pose proof (wr_free _ _ _ _ _ _ _ _ _ W2). lia.
Qed.

Lemma length_splice (l bs : list Z) off : (off + length bs <= length l)%nat -> length (splice l off bs) = length l.
Proof. intros H. unfold splice. rewrite !length_app, length_take, length_drop. lia. Qed.

Lemma lookup_splice (l bs : list Z) off j : (off + length bs <= length l)%nat ->
  splice l off bs !!! j = if decide (off <= j < off + length bs)%nat then bs !!! (j - off)%nat else l !!! j.
Proof.
  intros H. unfold splice. assert (length (take off l) = off) as Hl by (rewrite length_take; lia). case_decide.
  - rewrite lookup_total_app_r, lookup_total_app_l by lia. by rewrite Hl.
  - destruct (decide (j < off)%nat).
    + rewrite lookup_total_app_l by lia. by rewrite lookup_total_take_lt by lia.
    + rewrite !lookup_total_app_r by lia. rewrite Hl, lookup_total_drop. f_equal. lia.
Qed.

Lemma splice_ok (l bs : list Z) off : block_ok l -> Forall is_byte bs -> (off + length bs <= 1024)%nat -> block_ok (splice l off bs).
Proof.
  intros [Hl Hf] Hb H. split; [rewrite length_splice; [done|rewrite Hl; exact H]|]. unfold splice. apply Forall_app; split; [by apply Forall_take|].
  apply Forall_app; split; [done|by apply Forall_drop].
Qed.

(** A position of the file other than the indirect block is not a table of addresses. *)
Lemma faddr_not_ind v a bn : file_ok v a -> (bn < 268)%nat -> faddr v a bn <> 0 -> faddr v a bn <> slot v a 12.
Proof.
  intros Hf Hb Hne E. destruct (pos_lt bn Hb) as [Hp H12]. apply (fo_inj _ _ Hf) in E; [done|done|unfold NPOS; lia|done].
Qed.

Lemma slot_dset v a c d p : c <> slot v a 12 -> slot (dset v c d) a p = slot v a p.
Proof. intros Hc. unfold slot at 1 2. repeat case_decide; try done. rewrite dset_ne; [done|]. rewrite slot_ind in Hc. congruence. Qed.

Lemma file_ok_dset v a c d : file_ok v a -> data_block c -> c <> slot v a 12 -> file_ok (dset v c d) a.
Proof.
  intros Hf Hd Hc. split; [apply Hf| |].
  - intros p Hp. rewrite slot_dset by done. intros Hne. destruct (fo_data _ _ Hf p Hp Hne) as [H1 H2]. split; [done|]. rewrite used_dset; [done|done|by apply data_range].
  - intros p q Hp Hq. rewrite !slot_dset by done. by apply (fo_inj _ _ Hf).
Qed.

Lemma wrote_dset v a L off bs : file_ok v a -> meta_used v -> 0 <= off < MAXFILE * BSIZE -> faddr v a (fblock off) <> 0 ->
  Z.of_nat (length bs) <= BSIZE - off mod BSIZE -> length (v (faddr v a (fblock off))) = Z.to_nat BSIZE ->
  let addr := faddr v a (fblock off) in
  wrote v a L off bs (dset v addr (splice (v addr) (Z.to_nat (off mod BSIZE)) bs)) a ({[addr]} ∪ L) (if decide (addr ∈ L) then 0 else 1).
Proof.
  intros Hf Hm Ho Hne Hfit Hlen addr. pose proof (BSIZE_mod off) as Hmod. pose proof (fblock_lt off Ho) as Hb. destruct (pos_lt _ Hb) as [Hp H12].
  pose proof (faddr_not_ind v a _ Hf Hb Hne) as Hni. destruct (fo_data _ _ Hf _ Hp Hne) as [Hd Hu]. fold (faddr v a (fblock off)) in Hd, Hu. fold addr in Hni, Hd, Hu, Hlen.
  assert (forall bn, faddr (dset v addr (splice (v addr) (Z.to_nat (off mod BSIZE)) bs)) a bn = faddr v a bn) as Ea by (intros bn; by apply slot_dset).
  assert (Z.to_nat (off mod BSIZE) + length bs <= length (v addr))%nat as Hfit' by (rewrite Hlen; lia). split.
  - by apply file_ok_dset.
  - intros c Hc. pose proof (g_data G). rewrite used_dset by (done || lia). by apply Hm.
  - intros p Hp' _. by apply slot_dset.
  - intros p Hp' E. left. by rewrite slot_dset.
  - intros o Hr. unfold fbyte. rewrite Ea. destruct (same_block off o) as [-> Eo]; [lia..|]. split; [done|]. fold addr. rewrite dset_eq, lookup_splice by done.
    rewrite decide_True by lia. f_equal. lia.
  - intros o Hr Hn Hne'. unfold fbyte. rewrite Ea. pose proof (fblock_lt o Hr) as Hbo. destruct (decide (faddr v a (fblock o) = addr)) as [E|E]; [|by rewrite dset_ne].
    rewrite E, dset_eq, lookup_splice by done. rewrite decide_False; [done|]. apply (fo_inj _ _ Hf) in E; [|apply pos_lt; done|done|done]. apply pos_inj in E.
    pose proof (BSIZE_mod o). unfold fblock in E. assert (o / BSIZE = off / BSIZE) as E' by (apply Z2Nat.inj; [apply Z.div_pos; unfold BSIZE; lia..|done]).
    pose proof (Z.div_mod o BSIZE ltac:(unfold BSIZE; lia)). pose proof (Z.div_mod off BSIZE ltac:(unfold BSIZE; lia)). rewrite E' in *. lia.
  - intros c Hc. by rewrite used_dset.
  - intros c Hc. rewrite used_dset by (try apply data_range; done). auto.
  - intros c Hc. apply dset_ne. destruct Hc as [Hc|(_ & _ & Hs)]; [|intros ->; by apply (Hs _ Hp)].
    destruct Hd. pose proof bitmap_before_data. lia.
  - pose proof (ind_cost_le a L ({[addr]} ∪ L) ltac:(set_solver)). case_decide as Hl; [|pose proof (logged_le addr L); lia].
    replace ({[addr]} ∪ L) with L by set_solver. lia.
  - rewrite free_dset by done. lia.
Qed.

Lemma wrote_fill v a L off bn addr v' a' L' : file_ok v a -> (bn < 268)%nat -> faddr v a bn = 0 -> bmap_post v a L bn addr v' a' L' -> wrote v a L off [] v' a' L' 1.
Proof.
  intros Hf Hb Hz B. destruct (pos_lt bn Hb) as [Hp H12]. assert (forall p, (p < NPOS)%nat -> slot v a p <> 0 -> slot v' a' p = slot v a p) as Hsl.
  { intros p Hp' Hne. destruct (decide (p = 12%nat)) as [->|]; [by apply (bp_ind _ _ _ _ _ _ _ _ B)|]. apply (bp_slot _ _ _ _ _ _ _ _ B); [done| |done]. intros ->. done. }
  split; try apply B; try done; cbn [length]; try lia.
  - intros p Hp' E0. destruct (decide (slot v' a' p = 0)); [auto|right]. destruct (decide (p = pos bn)) as [->|Hn].
    + fold (faddr v' a' bn). rewrite (bp_addr _ _ _ _ _ _ _ _ B). apply B.
    + destruct (decide (p = 12%nat)) as [->|]; [|rewrite (bp_slot _ _ _ _ _ _ _ _ B) in * by done; done].
      destruct (bp_ind_new _ _ _ _ _ _ _ _ B E0); done.
  - intros o Hr _ Hne. unfold fbyte, faddr. pose proof (fblock_lt o Hr) as Hbo. rewrite Hsl by (try apply pos_lt; done). f_equal. apply (bp_frame _ _ _ _ _ _ _ _ B). right.
    destruct (fo_data _ _ Hf (pos (fblock o))) as [Hd Hu]; [apply pos_lt; done|done|]. split_and!; [done..|]. by apply faddr_not_ind.
  - intros c Hc Hu. destruct (bp_only _ _ _ _ _ _ _ _ B c (data_range _ Hc) Hu) as [|[->| ->]]; [auto| |].
    + right. exists (pos bn). split; [done|]. apply (bp_addr _ _ _ _ _ _ _ _ B).
    + right. exists 12%nat. split; [unfold NPOS; lia|done].
  - intros c [Hc|(Hd & Hu & Hs)]; apply (bp_frame _ _ _ _ _ _ _ _ B); [auto|right]. split_and!; [done..|]. intros E. apply (Hs 12%nat); [unfold NPOS; lia|done].
Qed.

(** The blocks [m] bytes at [off] touch. *)
Definition nblk (off m : Z) : nat := if decide (m = 0) then 0 else Z.to_nat ((off + m + (BSIZE - 1)) / BSIZE - off / BSIZE).

Lemma nblk_step off m : 0 <= off -> 0 < m -> let m1 := Z.min m (BSIZE - off mod BSIZE) in (Datatypes.S (nblk (off + m1) (m - m1)) <= nblk off m)%nat.
Proof.
  intros Ho Hm m1. unfold nblk. rewrite (decide_False (P := m = 0)) by lia. unfold BSIZE in *.
  assert (off / 1024 < (off + m + (1024 - 1)) / 1024) as Hlt.
  { apply Z.lt_le_trans with (off / 1024 + 1); [lia|]. rewrite <- Z.div_add by lia. apply Z.div_le_mono; lia. }
  case_decide as Hz; [lia|]. assert (m1 = 1024 - off mod 1024) as E by lia.
  pose proof (Z.div_mod off 1024 ltac:(lia)) as D. assert (off + m1 = (off / 1024 + 1) * 1024) as E1 by lia.
  rewrite E1 at 2. rewrite Z.div_mul by lia. replace (off + m1 + (m - m1)) with (off + m) by lia. lia.
Qed.

(** One round: the block is there, or is allocated, and the part of it is stored. *)
Lemma write_block_wp {B} (K : M (fsys S) B) s v L i ip off bs Q : fs_at s v ∅ L -> icache s !! i = Some ip -> isb ip = k -> meta_used v -> file_ok v (addrs ip) ->
  0 <= off < MAXFILE * BSIZE -> Forall is_byte bs -> Z.of_nat (length bs) <= BSIZE - off mod BSIZE -> off + Z.of_nat (length bs) <= MAXFILE * BSIZE ->
  (size L + ind_cost (addrs ip) L + 2 <= bl_cap)%nat -> (ind_need (addrs ip) < size (free v))%nat ->
  (forall s' v' a' L', fs_at s' v' ∅ L' -> inode_step s s' i (set_addrs a' ip) -> wrote v (addrs ip) L off bs v' a' L' 1 ->
     (faddr v (addrs ip) (fblock off) <> 0 -> a' = addrs ip) -> wp K s' Q) ->
  wp (addr ← bmap i (off / BSIZE);
      ip ← get_inode i;
      bp ← fs_bread (isb ip) addr;
      d ← onblk (bl_data bp);
      onblk (bl_store bp (splice d (Z.to_nat (off mod BSIZE)) bs)) ;;
      onblk (bl_log_write bp) ;;
      onblk (bl_release bp) ;; K) s Q.
Proof.
  intros Hs Hi Hk Hm Hf Ho Hbs Hfit Hmax Hcap Hfree HQ. pose proof (fblock_lt off Ho) as Hb. pose proof (BSIZE_mod off) as Hmod.
  replace (off / BSIZE) with (Z.of_nat (fblock off)) by (unfold fblock; rewrite Z2Nat.id; [done|apply Z.div_pos; unfold BSIZE; lia]).
  assert (forall ip0, set_addrs (addrs ip0) ip0 = ip0) as Hset by (intros []; done).
  apply wp_bind. set (K' := fun addr s1 => _ : Prop).
  assert (forall s1 v1 a1 L1, fs_at s1 v1 ∅ L1 -> inode_step s s1 i (set_addrs a1 ip) -> meta_used v1 -> file_ok v1 a1 -> faddr v1 a1 (fblock off) <> 0 ->
    (size ({[faddr v1 a1 (fblock off)]} ∪ L1) <= bl_cap)%nat ->
    (forall v2, wrote v1 a1 L1 off bs v2 a1 ({[faddr v1 a1 (fblock off)]} ∪ L1) (if decide (faddr v1 a1 (fblock off) ∈ L1) then 0 else 1) ->
       wrote v (addrs ip) L off bs v2 a1 ({[faddr v1 a1 (fblock off)]} ∪ L1) 1) ->
    (faddr v (addrs ip) (fblock off) <> 0 -> a1 = addrs ip) -> K' (faddr v1 a1 (fblock off)) s1) as Hrest.
  { intros s1 v1 a1 L1 H1 S1 Hm1 Hf1 Hne Hsz HW Hsame. unfold K'. destruct (file_block_ok _ _ _ _ _ _ H1 Hf1 Hb Hne) as [Hok Hbok].
    apply wp_bind. eapply get_inode_wp; [by eapply inode_step_lookup|]. cbn [set_addrs isb]. rewrite Hk.
    apply wp_bind. eapply fs_bread_wp; [done|done|apply not_held_empty|rewrite map_size_empty; lia|]. intros h s2 Hh H2 R2.
    apply wp_bind. eapply data_wp; [done|apply lookup_insert_eq|]. intros s3 H3 R3.
    eapply write_back_wp; [done|done|apply splice_ok; [done..|unfold BSIZE in *; lia]|done|]. intros s4 H4 R4.
    eapply HQ; [exact H4|eapply inode_step_rest; [done|rest]| |done]. apply HW. apply wrote_dset; try done. apply Hbok. }
  destruct (decide (faddr v (addrs ip) (fblock off) = 0)) as [Hz|Hne].
  - eapply bmap_fill_wp; try done. intros addr s1 v1 a1 L1 H1 S1 Bm. rewrite <- (bp_addr _ _ _ _ _ _ _ _ Bm).
    pose proof (bp_logged _ _ _ _ _ _ _ _ Bm) as Hin. pose proof (bp_addr _ _ _ _ _ _ _ _ Bm) as Ea. pose proof (data_ne0 _ (bp_data _ _ _ _ _ _ _ _ Bm)).
    pose proof (bp_cost _ _ _ _ _ _ _ _ Bm).
    eapply (Hrest s1 v1 a1 L1); try done; [apply Bm|apply Bm|congruence|rewrite Ea; replace ({[addr]} ∪ L1) with L1 by set_solver; lia|].
    rewrite Ea. rewrite (decide_True (P := addr ∈ L1)) by done. intros v2 W2.
    apply (wrote_trans v (addrs ip) L off [] v1 a1 L1 1 bs v2 a1 _ 0); try done; [lia|by eapply wrote_fill|]. replace (off + Z.of_nat (length [])) with off by (cbn; lia). exact W2.
  - eapply bmap_read_wp; try done. intros s1 H1 R1. eapply (Hrest s1 v (addrs ip) L); try done.
    + rewrite Hset. by apply same_rest_step.
    + pose proof (logged_le (faddr v (addrs ip) (fblock off)) L). lia.
    + intros v2 [W1 W2 W3 W4 W5 W6 W7 W8 W9 W10 W11]. split; try done; revert W10 W11; case_decide; lia.
Qed.

Lemma set_addrs_set a b ip : set_addrs a (set_addrs b ip) = set_addrs a ip.
Proof. done. Qed.
Lemma set_addrs_id ip : set_addrs (addrs ip) ip = ip.
Proof. by destruct ip. Qed.

Lemma writei_loop_wp fuel s v L i ip src off n tot Q : fs_at s v ∅ L -> icache s !! i = Some ip -> isb ip = k -> meta_used v -> file_ok v (addrs ip) ->
  0 <= tot <= n -> n - tot <= Z.of_nat fuel -> Z.of_nat (length src) = n - tot -> Forall is_byte src -> 0 <= off -> off + (n - tot) <= MAXFILE * BSIZE ->
  (size L + ind_cost (addrs ip) L + 2 * nblk off (n - tot) <= bl_cap)%nat -> (ind_need (addrs ip) + nblk off (n - tot) <= size (free v))%nat ->
  (forall s' v' a' L' c, fs_at s' v' ∅ L' -> inode_step s s' i (set_addrs a' ip) -> wrote v (addrs ip) L off src v' a' L' c -> (c <= nblk off (n - tot))%nat ->
     (full v (addrs ip) (off + (n - tot)) -> a' = addrs ip) -> Q (off + (n - tot)) s') ->
  wp (writei_loop fuel i src off n tot) s Q.
Proof.
  revert s v L ip src off tot. induction fuel as [|fuel IH]; intros s v L ip src off tot Hs Hi Hk Hm Hf Ht Hfu Hsrc Hby Ho Hmax Hcap Hfree HQ; cbn [writei_loop].
  all: assert (tot = n -> Q off s) as Hend by (intros ->; rewrite Z.sub_diag, Z.add_0_r in *;
    destruct src; [|cbn [length] in Hsrc; lia]; eapply (HQ s v (addrs ip) L 0%nat); try done; [rewrite set_addrs_id; by apply same_rest_step|by apply wrote_nothing]).
  { destruct (Z.ltb_spec tot n); [lia|]. apply wp_ret, Hend. lia. }
  destruct (Z.ltb_spec tot n) as [Hlt|]; [|apply wp_ret, Hend; lia]. cbv zeta. clear Hend.
  pose proof (BSIZE_mod off) as Hmod. pose proof (nblk_step off (n - tot) Ho ltac:(lia)) as Hnb. cbv zeta in Hnb. set (m := Z.min (n - tot) (BSIZE - off mod BSIZE)) in *.
  assert (length (take (Z.to_nat m) src) = Z.to_nat m) as Hlm by (rewrite length_take; lia).
  eapply write_block_wp; try done; [lia|by apply Forall_take|lia|lia|lia|lia|]. intros s1 v1 a1 L1 H1 S1 W1 Hsame.
  pose proof (wr_cost _ _ _ _ _ _ _ _ _ W1) as C1. pose proof (wr_free _ _ _ _ _ _ _ _ _ W1) as F1. replace (n - tot - m) with (n - (tot + m)) in Hnb by lia.
  eapply (IH s1 v1 L1 (set_addrs a1 ip)); try done; cbn [addrs set_addrs]; try lia; [by eapply inode_step_lookup|apply W1|apply W1|rewrite length_drop; lia|by apply Forall_drop|].
  intros s' v' a' L' c H' S' W' Hc' Hfull. replace (off + m + (n - (tot + m))) with (off + (n - tot)) in * by lia. rewrite set_addrs_set in S'.
  eapply (HQ s' v' a' L' (1 + c)%nat); [done|by eapply inode_step_trans| |lia|].
  - rewrite <- (take_drop (Z.to_nat m) src). eapply wrote_trans; try done; [rewrite Hlm, length_drop; lia|]. rewrite Hlm, Z2Nat.id by lia. exact W'.
  - intros Hfl. rewrite <- (Hsame (Hfl off ltac:(lia))). apply Hfull. intros o Hor. rewrite (wr_addr _ _ _ _ _ _ _ _ _ _ W1); [by apply Hfl|apply fblock_lt; lia|by apply Hfl].
Qed.

(** ** The inode on the disk *)

Definition iblock (ip : native_inode) : Z := IBLOCK (inum ip) sb0.
Definition synced (v : Z -> block) (ip : native_inode) : Prop := load_dinode (v (iblock ip)) (dinode_off (inum ip)) ip = ip.
Definition inode_fits (ip : native_inode) : Prop :=
  0 <= inum ip < ninodes sb0 /\ Forall (fun x => - 2 ^ 15 <= x < 2 ^ 15) [itype ip; imajor ip; iminor ip; nlink ip] /\ is_u32 (isize ip) /\ Forall is_u32 (addrs ip) /\ length (addrs ip) = 13%nat.

Lemma iblock_range ip : 0 <= inum ip < ninodes sb0 -> inodestart sb0 <= iblock ip < bmapstart sb0.
Proof.
  intros Hn. destruct G. unfold iblock, IBLOCK. unfold datastart in *.
  assert (0 <= inum ip / IPB <= ninodes sb0 / IPB) by (split; [apply Z.div_pos; unfold IPB; lia|apply Z.div_le_mono; unfold IPB; lia]).
  pose proof (Z.div_pos (sb_size sb0) BPB ltac:(lia) ltac:(unfold BPB; lia)). rewrite u32_id by (unfold is_u32; lia). lia.
Qed.

Lemma length_put16 l off x : length (put16 l off x) = length l.
Proof. unfold put16. by rewrite !length_insert. Qed.
Lemma get16_put16 l off x : - 2 ^ 15 <= x < 2 ^ 15 -> (off + 1 < length l)%nat -> s16 (get16 (put16 l off x) off) = x.
Proof.
  intros Hx Hl. unfold get16, put16. rewrite list_lookup_total_insert_ne by lia. rewrite !list_lookup_total_insert_eq by (rewrite ?length_insert; lia).
  unfold s16, u8. change (2 ^ 8) with 256. change (2 ^ 16) with 65536. change (2 ^ 15) with 32768 in *. Z.div_mod_to_equations. lia.
Qed.
Lemma get16_put16_other l off x o : (o + 1 < off \/ off + 1 < o)%nat -> get16 (put16 l off x) o = get16 l o.
Proof. intros H. unfold get16, put16. by rewrite !list_lookup_total_insert_ne by lia. Qed.
Lemma get16_put32_other l off x o : (o + 1 < off \/ off + 3 < o)%nat -> get16 (put32 l off x) o = get16 l o.
Proof. intros H. unfold get16, put32. by rewrite !list_lookup_total_insert_ne by lia. Qed.
Lemma length_put32s l off vs : length (put32s l off vs) = length l.
Proof. revert l off. induction vs as [|x vs IH]; intros; cbn [put32s]; [done|]. by rewrite IH, length_put32. Qed.
Lemma put32s_below_16 l off vs o : (o + 1 < off)%nat -> get16 (put32s l off vs) o = get16 l o.
Proof. revert l off. induction vs as [|x vs IH]; intros; cbn [put32s]; [done|]. rewrite IH, get16_put32_other; [done|lia..]. Qed.
Lemma put32s_below l off vs o : (o + 3 < off)%nat -> get32 (put32s l off vs) o = get32 l o.
Proof. revert l off. induction vs as [|x vs IH]; intros; cbn [put32s]; [done|]. rewrite IH, get32_put32_other; [done|lia..]. Qed.
Lemma get32s_put32s l off vs : Forall is_u32 vs -> (off + 4 * length vs <= length l)%nat -> get32s (put32s l off vs) off (length vs) = vs.
Proof.
  revert l off. induction vs as [|x vs IH]; intros l off Hv Hl; cbn [put32s get32s length] in *; [done|]. inversion Hv; subst.
  rewrite IH by (try rewrite length_put32; done || lia). f_equal. rewrite put32s_below, get32_put32; [done|done|lia|lia].
Qed.

Lemma load_put_dinode d off ip : inode_fits ip -> (off + DINODE_SIZE <= length d)%nat -> load_dinode (put_dinode d off ip) off ip = ip.
Proof.
  intros (_ & Hs & Hz & Ha & Hl) Hd. unfold DINODE_SIZE in Hd. rewrite !Forall_cons in Hs. destruct Hs as (H1 & H2 & H3 & H4 & _).
  unfold load_dinode, put_dinode. rewrite !put32s_below_16, !get16_put32_other, put32s_below by lia.
  rewrite get32_put32 by (done || rewrite !length_put16; lia).
  change (Datatypes.S NDIRECT) with 13%nat. rewrite <- Hl, get32s_put32s by (done || (rewrite length_put32, !length_put16; lia)).
  rewrite (get16_put16_other _ (off + 6)), (get16_put16_other _ (off + 4)), (get16_put16_other _ (off + 2)), get16_put16 by (rewrite ?length_put16; done || lia).
  rewrite (get16_put16_other _ (off + 6)), (get16_put16_other _ (off + 4)), get16_put16 by (rewrite ?length_put16; done || lia).
  rewrite (get16_put16_other _ (off + 6)), get16_put16 by (rewrite ?length_put16; done || lia).
  rewrite get16_put16 by (rewrite ?length_put16; done || lia). by destruct ip.
Qed.

(** Storing an inode changes its 64 bytes only. *)
Lemma put16_out l off x j : (j < off \/ off + 2 <= j)%nat -> put16 l off x !!! j = l !!! j.
Proof. intros H. unfold put16. by rewrite !list_lookup_total_insert_ne by lia. Qed.
Lemma put32_out l off x j : (j < off \/ off + 4 <= j)%nat -> put32 l off x !!! j = l !!! j.
Proof. intros H. unfold put32. by rewrite !list_lookup_total_insert_ne by lia. Qed.
Lemma put32s_out l off vs j : (j < off \/ off + 4 * length vs <= j)%nat -> put32s l off vs !!! j = l !!! j.
Proof. revert l off. induction vs as [|x vs IH]; intros l off H; cbn [put32s length] in *; [done|]. rewrite IH, put32_out; [done|lia..]. Qed.
Lemma put_dinode_out d off ip j : length (addrs ip) = 13%nat -> (j < off \/ off + DINODE_SIZE <= j)%nat -> put_dinode d off ip !!! j = d !!! j.
Proof. intros Hl Hj. unfold DINODE_SIZE in Hj. unfold put_dinode. rewrite put32s_out, put32_out, !put16_out by lia. done. Qed.

Lemma get32s_ext l l' off n : (forall j, (off <= j < off + 4 * n)%nat -> l' !!! j = l !!! j) -> get32s l' off n = get32s l off n.
Proof.
  revert off. induction n as [|n IH]; intros off H; cbn [get32s]; [done|]. f_equal; [|apply IH; intros; apply H; lia]. unfold get32. rewrite !H by lia. done.
Qed.
Lemma load_dinode_ext d d' off ip : (forall j, (off <= j < off + DINODE_SIZE)%nat -> d' !!! j = d !!! j) -> load_dinode d' off ip = load_dinode d off ip.
Proof.
  intros H. unfold DINODE_SIZE in H. unfold load_dinode. rewrite (get32s_ext d d') by (intros; apply H; unfold NDIRECT in *; lia).
  unfold get16, get32. rewrite !H by lia. done.
Qed.

Lemma dinode_off_fits n : 0 <= n -> (dinode_off n + DINODE_SIZE <= 1024)%nat.
Proof. intros Hn. unfold dinode_off, DINODE_SIZE. pose proof (Z.mod_pos_bound n IPB ltac:(unfold IPB; lia)). unfold IPB in *. lia. Qed.

Lemma put_dinode_ok d off ip : block_ok d -> block_ok (put_dinode d off ip).
Proof.
  intros [Hl Hf]. assert (forall l o x, Forall is_byte l -> Forall is_byte (put16 l o x)) as H16.
  { intros l o x Hx. unfold put16. repeat apply Forall_insert; try apply u8_range. done. }
  assert (forall l o x, Forall is_byte l -> Forall is_byte (put32 l o x)) as H32.
  { intros l o x Hx. unfold put32. repeat apply Forall_insert; try apply u8_range. done. }
  assert (forall vs l o, Forall is_byte l -> Forall is_byte (put32s l o vs)) as H32s.
  { induction vs as [|x vs IH]; intros l o Hx; cbn [put32s]; auto. }
  unfold put_dinode. split; [by rewrite length_put32s, length_put32, !length_put16|]. auto 10.
Qed.

Lemma iupdate_wp s v L i ip Q : fs_at s v ∅ L -> icache s !! i = Some ip -> isb ip = k -> 0 <= inum ip < ninodes sb0 -> (size ({[iblock ip]} ∪ L) <= bl_cap)%nat ->
  (forall s', fs_at s' (dset v (iblock ip) (put_dinode (v (iblock ip)) (dinode_off (inum ip)) ip)) ∅ ({[iblock ip]} ∪ L) -> same_rest s s' -> Q tt s') -> wp (iupdate i) s Q.
Proof.
  intros Hs Hi Hk Hn Hcap HQ. unfold iupdate. apply wp_bind. eapply get_inode_wp; [done|]. rewrite Hk. apply wp_bind. eapply sb_private_wp; [done|]. cbn [sb]. fold (iblock ip).
  pose proof (iblock_range ip Hn) as Hr. assert (bl_ok (iblock ip)) as Hok.
  { apply (g_ok G). right. pose proof (g_data G). pose proof bitmap_before_data. lia. }
  apply wp_bind. eapply fs_bread_wp; [done|done|apply not_held_empty|rewrite map_size_empty; lia|]. intros h s1 Hh H1 R1.
  apply wp_bind. eapply data_wp; [done|apply lookup_insert_eq|]. intros s2 H2 R2.
  eapply write_log_wp; [done|apply lookup_insert_eq|apply put_dinode_ok; eapply bl_block; [apply Hs|done]|done|]. intros s3 H3 R3. rewrite insert_insert_eq in H3.
  eapply put_back_wp; [done|done|]. intros s4 H4 R4. apply HQ; [done|rest].
Qed.

(** An inode block is no block of a file and no bitmap block. *)
Lemma slot_below v a c d p : file_ok v a -> c < bmapstart sb0 -> slot (dset v c d) a p = slot v a p.
Proof.
  intros Hf Hc. unfold slot. case_decide; [done|]. case_decide as Hz; [done|]. rewrite dset_ne; [done|]. destruct (fo_data _ _ Hf 12) as [[Hd _] _]; [unfold NPOS; lia|done|].
  rewrite slot_ind in Hd. pose proof bitmap_before_data. lia.
Qed.
Lemma used_below v c d x : 0 <= x < sb_size sb0 -> c < bmapstart sb0 -> used (dset v c d) x = used v x.
Proof.
  intros Hx Hc. unfold used. rewrite dset_ne; [done|]. rewrite BBLOCK_eq by done. pose proof (Z.div_pos x BPB ltac:(lia) ltac:(unfold BPB; lia)). lia.
Qed.
Lemma free_below v c d : c < bmapstart sb0 -> free (dset v c d) = free v.
Proof. intros Hc. apply set_eq. intros x. rewrite !elem_of_free. split; intros [Hx Hu]; (split; [done|]); by rewrite used_below in *. Qed.
Lemma file_ok_below v a c d : file_ok v a -> c < bmapstart sb0 -> file_ok (dset v c d) a.
Proof.
  intros Hf Hc. split; [apply Hf| |].
  - intros p Hp. rewrite slot_below by done. intros Hne. destruct (fo_data _ _ Hf p Hp Hne) as [H1 H2]. split; [done|]. rewrite used_below; [done|by apply data_range|done].
  - intros p q Hp Hq. rewrite !slot_below by done. by apply (fo_inj _ _ Hf).
Qed.
Lemma fbyte_below v a c d o : file_ok v a -> c < bmapstart sb0 -> 0 <= o < MAXFILE * BSIZE -> faddr v a (fblock o) <> 0 -> fbyte (dset v c d) a o = fbyte v a o.
Proof.
  intros Hf Hc Ho Hne. unfold fbyte, faddr. rewrite slot_below by done. rewrite dset_ne; [done|].
  destruct (fo_data _ _ Hf (pos (fblock o))) as [[Hd _] _]; [apply pos_lt, fblock_lt; done|done|].
  pose proof bitmap_before_data. lia.
Qed.

(** ** Reading and writing a file *)

(** The state of an inode in use: the lock is held, the fields are those of the disk, no block is missing below the size. *)
Record open_file (s : fsys S) (v : Z -> block) (L : gset Z) (i : nat) (ip : native_inode) : Prop := OpenFile {
  of_fs : fs_at s v ∅ L;
  of_inode : icache s !! i = Some ip;
  of_sb : isb ip = k;
  of_meta : meta_used v;
  of_ok : file_ok v (addrs ip);
  of_full : full v (addrs ip) (isize ip);
  of_size : 0 <= isize ip <= MAXFILE * BSIZE;
  of_fits : inode_fits ip;
  of_synced : synced v ip
}.

Definition overwrite (c : list Z) (off : Z) (bs : list Z) : list Z := take (Z.to_nat off) c ++ bs ++ drop (Z.to_nat off + length bs) c.

(** What a write of [bs] at [off] leaves. *)
Record file_written (v : Z -> block) (ip : native_inode) (L : gset Z) (off : Z) (bs : list Z) (v' : Z -> block) (ip' : native_inode) (L' : gset Z) : Prop := FileWritten {
  fw_size : isize ip' = Z.max (isize ip) (off + Z.of_nat (length bs));
  fw_contents : contents v' ip' = overwrite (contents v ip) off bs;
  fw_fields : ip' = set_isize (isize ip') (set_addrs (addrs ip') ip);
  fw_used c : 0 <= c < sb_size sb0 -> used v c = true -> used v' c = true;
  fw_only c : data_block c -> used v' c = true -> used v c = true \/ exists p, (p < NPOS)%nat /\ slot v' (addrs ip') p = c;
  fw_inodes m : 0 <= m < ninodes sb0 -> m <> inum ip -> forall x, load_dinode (v' (IBLOCK m sb0)) (dinode_off m) x = load_dinode (v (IBLOCK m sb0)) (dinode_off m) x;
  fw_frame c : c < inodestart sb0 \/ data_block c /\ used v c = true /\ (forall p, (p < NPOS)%nat -> slot v (addrs ip) p <> c) -> v' c = v c;
  fw_log : (size L' <= size L + 2 * nblk off (Z.of_nat (length bs)) + 3)%nat;
  fw_free : (size (free v) + ind_need (addrs ip') <= size (free v') + ind_need (addrs ip) + nblk off (Z.of_nat (length bs)))%nat
}.

Lemma contents_overwrite v ip L off bs v' a' L' c sz : wrote v (addrs ip) L off bs v' a' L' c -> full v (addrs ip) (isize ip) -> 0 <= off <= isize ip ->
  off + Z.of_nat (length bs) <= MAXFILE * BSIZE -> isize ip <= MAXFILE * BSIZE -> sz = Z.max (isize ip) (off + Z.of_nat (length bs)) ->
  fbytes v' a' 0 sz = overwrite (contents v ip) off bs /\ full v' a' sz.
Proof.
  intros W Hfull Ho Hmax Hsz ->. split.
  - apply list_eq. intros j. unfold overwrite, contents. assert (length (take (Z.to_nat off) (fbytes v (addrs ip) 0 (isize ip))) = Z.to_nat off) as Hlt by (rewrite length_take, length_fbytes; lia).
    destruct (decide (j < Z.to_nat (Z.max (isize ip) (off + Z.of_nat (length bs))))%nat) as [Hj|Hj].
    + rewrite lookup_fbytes by done. rewrite Z.add_0_l. destruct (decide (off <= Z.of_nat j < off + Z.of_nat (length bs))) as [Hin|Hout].
      * rewrite (proj2 (wr_in _ _ _ _ _ _ _ _ _ W _ Hin)). rewrite lookup_app_r, lookup_app_l by lia. rewrite Hlt.
        rewrite <- list_lookup_lookup_total_lt by lia. f_equal. lia.
      * rewrite (wr_out _ _ _ _ _ _ _ _ _ W) by (done || lia || (apply Hfull; lia)). destruct (decide (Z.of_nat j < off)).
        -- rewrite lookup_app_l, lookup_take_lt, lookup_fbytes by lia. done.
        -- rewrite !lookup_app_r by lia. rewrite lookup_drop, Hlt, lookup_fbytes by lia. do 2 f_equal. lia.
    + rewrite !lookup_ge_None_2; [done|rewrite !length_app, Hlt, length_drop, length_fbytes; lia|rewrite length_fbytes; lia].
  - intros o Hr. destruct (decide (off <= o < off + Z.of_nat (length bs))) as [Hin|]; [apply (wr_in _ _ _ _ _ _ _ _ _ W _ Hin)|].
    rewrite (wr_addr _ _ _ _ _ _ _ _ _ _ W); [apply Hfull; lia|apply fblock_lt; lia|apply Hfull; lia].
Qed.

Lemma dinode_off_ne n m : 0 <= n -> 0 <= m -> n <> m -> IBLOCK n sb0 = IBLOCK m sb0 -> (dinode_off n + DINODE_SIZE <= dinode_off m \/ dinode_off m + DINODE_SIZE <= dinode_off n)%nat \/
  ~ (n < ninodes sb0 /\ m < ninodes sb0).
Proof.
  intros Hn Hm Hne E. destruct (decide (n < ninodes sb0 /\ m < ninodes sb0)) as [[Hn' Hm']|]; [left|auto]. unfold IBLOCK in E. destruct G.
  assert (forall x, 0 <= x < ninodes sb0 -> is_u32 (x / IPB + inodestart sb0)) as Hu.
  { intros x Hx. assert (0 <= x / IPB <= ninodes sb0 / IPB) by (split; [apply Z.div_pos; unfold IPB; lia|apply Z.div_le_mono; unfold IPB; lia]).
    pose proof bitmap_before_data. unfold is_u32. lia. }
  rewrite !u32_id in E by (apply Hu; lia). unfold dinode_off, DINODE_SIZE. pose proof (Z.div_mod n IPB ltac:(unfold IPB; lia)). pose proof (Z.div_mod m IPB ltac:(unfold IPB; lia)).
  pose proof (Z.mod_pos_bound n IPB ltac:(unfold IPB; lia)). pose proof (Z.mod_pos_bound m IPB ltac:(unfold IPB; lia)). unfold IPB in *. lia.
Qed.

Lemma set_isize_fields ip a z : inum (set_isize z (set_addrs a ip)) = inum ip /\ isb (set_isize z (set_addrs a ip)) = isb ip.
Proof. done. Qed.

Lemma addrs_u32 v a : file_ok v a -> Forall is_u32 a.
Proof.
  intros Hf. apply Forall_forall. intros x (p & Hp)%list_elem_of_lookup. pose proof (lookup_lt_Some _ _ _ Hp) as Hlt. rewrite (fo_len _ _ Hf) in Hlt.
  destruct (decide (x = 0)) as [->|Hne]; [done|]. assert (slot v a p = x) as E by (unfold slot; rewrite decide_True by lia; by apply list_lookup_total_correct).
  destruct (fo_data _ _ Hf p) as [Hd _]; [unfold NPOS; lia|congruence|]. rewrite E in Hd. apply data_range in Hd. pose proof (g_size G). unfold is_u32. lia.
Qed.

Section written.
Context (s : fsys S) (v : Z -> block) (L : gset Z) (i : nat) (ip : native_inode) (O : open_file s v L i ip).
Context (off : Z) (bs : list Z) (v1 : Z -> block) (a1 : list Z) (L1 : gset Z) (c : nat) (W : wrote v (addrs ip) L off bs v1 a1 L1 c).
Context (Hoff : 0 <= off <= isize ip) (Hmax : off + Z.of_nat (length bs) <= MAXFILE * BSIZE) (Hc : (c <= nblk off (Z.of_nat (length bs)))%nat).

Lemma wrote_log : (size L1 <= size L + 2 * nblk off (Z.of_nat (length bs)) + 2)%nat.
Proof. pose proof (wr_cost _ _ _ _ _ _ _ _ _ W). assert (ind_cost (addrs ip) L <= 2)%nat by (unfold ind_cost; case_decide; lia). lia. Qed.

(** Within the old size: the inode stays as it is. *)
Lemma written_within : a1 = addrs ip -> off + Z.of_nat (length bs) <= isize ip ->
  file_written v ip L off bs v1 ip L1 /\ forall s', fs_at s' v1 ∅ L1 -> icache s' !! i = Some ip -> open_file s' v1 L1 i ip.
Proof.
  intros Ea Hin. destruct O as [_ _ Hk Hm Hf Hfull Hsz Hfits Hsync]. pose proof wrote_log as HL. pose proof W as W'. rewrite Ea in W'. pose proof (wr_free _ _ _ _ _ _ _ _ _ W').
  destruct (contents_overwrite _ _ _ _ _ _ _ _ _ (isize ip) W' Hfull Hoff Hmax) as [EC EF]; [lia..|]. pose proof (iblock_range ip (proj1 Hfits)) as Hr. split.
  - split; try done; try apply W'; try lia; [by destruct ip| |].
    + intros m Hm1 Hm2 x. rewrite (wr_frame _ _ _ _ _ _ _ _ _ W'); [done|]. left. apply (iblock_range (NativeInode [] k m 0 false false 0 0 0 0 0)). done.
    + intros x [Hx|Hx]; apply (wr_frame _ _ _ _ _ _ _ _ _ W'); [|by right]. destruct G. pose proof (Z.div_pos (ninodes sb0) IPB ltac:(lia) ltac:(unfold IPB; lia)). lia.
  - intros s' Hs' Hi'. split; try done; try apply W'. unfold synced. rewrite (wr_frame _ _ _ _ _ _ _ _ _ W') by lia. done.
Qed.

(** Past it: the inode is updated on the disk. *)
Lemma written_past sz (ip1 := set_isize sz (set_addrs a1 ip)) (v2 := dset v1 (iblock ip) (put_dinode (v1 (iblock ip)) (dinode_off (inum ip)) ip1)) :
  sz = off + Z.of_nat (length bs) -> isize ip < sz -> length (v1 (iblock ip)) = 1024%nat ->
  file_written v ip L off bs v2 ip1 ({[iblock ip]} ∪ L1) /\ forall s', fs_at s' v2 ∅ ({[iblock ip]} ∪ L1) -> icache s' !! i = Some ip1 -> open_file s' v2 ({[iblock ip]} ∪ L1) i ip1.
Proof.
  intros Esz Hgt Hlen. destruct O as [_ _ Hk Hm Hf Hfull Hsz Hfits Hsync]. pose proof wrote_log as HL. pose proof (wr_ok _ _ _ _ _ _ _ _ _ W) as Hf1.
  destruct (contents_overwrite _ _ _ _ _ _ _ _ _ sz W Hfull Hoff Hmax) as [EC EF]; [lia..|]. pose proof (iblock_range ip (proj1 Hfits)) as Hr.
  assert (full v2 a1 sz) as EF2 by (intros o Ho; unfold faddr, v2; rewrite slot_below by (done || lia); by apply EF).
  assert (inode_fits ip1) as Hfits1.
  { destruct Hfits as (H1 & H2 & _). split; [exact H1|]. split; [exact H2|]. split; [|split; [by eapply addrs_u32|apply Hf1]].
    change (isize ip1) with sz. assert (MAXFILE * BSIZE = 274432) as EM by done. unfold is_u32. lia. }
  split.
  - split; try done.
    + change (isize ip1) with sz. lia.
    + rewrite <- EC. unfold contents, fbytes. change (isize ip1) with sz. change (addrs ip1) with a1. apply list_fmap_ext. intros j o Ho%lookup_seqZ.
      apply fbyte_below; [done|lia|lia|]. apply EF. lia.
    + intros x Hx Hu. unfold v2. rewrite used_below by (done || lia). by apply (wr_used _ _ _ _ _ _ _ _ _ W).
    + intros x Hx. pose proof (data_range x Hx). unfold v2. rewrite used_below by (done || lia). intros Hu. destruct (wr_only _ _ _ _ _ _ _ _ _ W x Hx Hu) as [|(p & Hp & E)]; [auto|].
      right. exists p. split; [done|]. change (addrs ip1) with a1. by rewrite slot_below by (done || lia).
    + intros m Hm1 Hm2 x. assert (v1 (IBLOCK m sb0) = v (IBLOCK m sb0)) as Ev.
      { apply (wr_frame _ _ _ _ _ _ _ _ _ W). left. apply (iblock_range (NativeInode [] k m 0 false false 0 0 0 0 0)). done. }
      unfold v2. destruct (decide (IBLOCK m sb0 = iblock ip)) as [E|E]; [|rewrite dset_ne, Ev by done; done]. rewrite E, dset_eq, <- E, Ev. apply load_dinode_ext.
      intros j Hj. destruct Hfits as [Hn _]. apply put_dinode_out; [apply Hf1|]. destruct (dinode_off_ne m (inum ip)) as [|[]]; [lia|lia|done|done|lia|lia].
    + intros x Hx. unfold v2. rewrite dset_ne; [apply (wr_frame _ _ _ _ _ _ _ _ _ W); destruct Hx; [left; lia|by right]|].
      destruct Hx as [|([] & _)]; [lia|]. pose proof bitmap_before_data. lia.
    + pose proof (logged_le (iblock ip) L1). lia.
    + unfold v2. rewrite free_below by lia. change (addrs ip1) with a1. pose proof (wr_free _ _ _ _ _ _ _ _ _ W). lia.
  - intros s' Hs' Hi'. split; try done.
    + intros x Hx. pose proof (g_data G). unfold v2. rewrite used_below by lia. by apply (wr_meta _ _ _ _ _ _ _ _ _ W).
    + apply file_ok_below; [done|lia].
    + change (isize ip1) with sz. lia.
    + unfold synced. change (iblock ip1) with (iblock ip). change (inum ip1) with (inum ip). unfold v2. rewrite dset_eq. apply load_put_dinode; [done|].
      rewrite Hlen. apply dinode_off_fits. apply Hfits.
Qed.
End written.

(** ** Contents that agree outside the log area *)

Definition agree (v v' : Z -> block) : Prop := forall b, inodestart sb0 <= b < sb_size sb0 -> v' b = v b.

Lemma agree_data v v' b : agree v v' -> data_block b -> v' b = v b.
Proof. intros H [Hb1 Hb2]. apply H. pose proof bitmap_before_data. destruct G. pose proof (Z.div_pos (ninodes sb0) IPB ltac:(lia) ltac:(unfold IPB; lia)). lia. Qed.

Section agree.
Context (v v' : Z -> block) (A : agree v v').

Lemma used_agree c : 0 <= c < sb_size sb0 -> used v' c = used v c.
Proof. intros Hc. unfold used. rewrite A; [done|]. pose proof (BBLOCK_meta c Hc). pose proof (g_data G). lia. Qed.
Lemma free_agree : free v' = free v.
Proof. apply set_eq. intros x. rewrite !elem_of_free. split; intros [Hx Hu]; (split; [done|]); by rewrite used_agree in *. Qed.
Lemma meta_agree : meta_used v -> meta_used v'.
Proof. intros H b Hb. pose proof (g_data G). rewrite used_agree by lia. by apply H. Qed.

Context (a : list Z) (Hf : file_ok v a).

Lemma slot_agree p : slot v' a p = slot v a p.
Proof.
  unfold slot. case_decide; [done|]. case_decide as Hz; [done|]. rewrite agree_data with (v := v); [done..|].
  destruct (fo_data _ _ Hf 12) as [Hd _]; [unfold NPOS; lia|done|exact Hd].
Qed.
Lemma file_ok_agree : file_ok v' a.
Proof.
  split; [apply Hf| |].
  - intros p Hp. rewrite slot_agree. intros Hne. destruct (fo_data _ _ Hf p Hp Hne) as [H1 H2]. split; [done|]. rewrite used_agree; [done|by apply data_range].
  - intros p q Hp Hq. rewrite !slot_agree. by apply (fo_inj _ _ Hf).
Qed.
Lemma full_agree n : full v a n -> full v' a n.
Proof. intros H o Ho. unfold faddr. rewrite slot_agree. by apply H. Qed.
Lemma fbytes_agree n : n <= MAXFILE * BSIZE -> full v a n -> fbytes v' a 0 n = fbytes v a 0 n.
Proof.
  intros Hn Hfull. apply list_fmap_ext. intros j o Ho%lookup_seqZ. unfold fbyte, faddr. rewrite slot_agree. rewrite agree_data with (v := v); [done..|].
  destruct (fo_data _ _ Hf (pos (fblock o))) as [Hd _]; [apply pos_lt, fblock_lt; lia|apply Hfull; lia|exact Hd].
Qed.
End agree.

Lemma synced_agree v v' ip : agree v v' -> inode_fits ip -> synced v ip -> synced v' ip.
Proof. intros A [Hn _] H. unfold synced. rewrite A; [done|]. pose proof (iblock_range ip Hn). pose proof bitmap_before_data. pose proof (g_data G). lia. Qed.

Lemma writei_wp dw s v L i ip src off Q (n := Z.of_nat (length src)) : open_file s v L i ip -> itype ip <> T_DEV -> Forall is_byte src ->
  0 <= off <= isize ip -> off + n <= MAXFILE * BSIZE -> (size L + 2 * nblk off n + 3 <= bl_cap)%nat -> (nblk off n < size (free v))%nat ->
  (forall s' v' ip' L', open_file s' v' L' i ip' -> inode_step s s' i ip' -> file_written v ip L off src v' ip' L' -> Q n s') ->
  wp (writei dw i src off n) s Q.
Proof.
  intros O Ht Hby Hoff Hmax Hcap Hfree HQ. pose proof O as [Hs Hi Hk Hm Hf Hfull Hsz Hfits Hsync]. unfold writei. apply wp_bind. eapply get_inode_wp; [done|].
  rewrite (proj2 (Z.eqb_neq _ _) Ht). unfold MAXFILE, BSIZE in Hmax, Hsz. rewrite (u32_id (off + n)) by (unfold is_u32; lia).
  destruct (Z.ltb_spec (isize ip) off), (Z.ltb_spec (off + n) off); try lia. cbn [orb]. unfold MAXFILE, BSIZE. destruct (Z.ltb_spec (268 * 1024) (off + n)); [lia|].
  assert (ind_cost (addrs ip) L <= 2)%nat by (unfold ind_cost; case_decide; lia). assert (ind_need (addrs ip) <= 1)%nat by (unfold ind_need; case_decide; lia).
  apply wp_bind. eapply writei_loop_wp; try done; unfold MAXFILE, BSIZE; rewrite ?Z.sub_0_r; try lia. intros s1 v1 a1 L1 c Hs1 S1 W Hc Hsame.
  pose proof (inode_step_lookup _ _ _ _ _ S1 Hi) as Hi1. apply wp_bind. eapply get_inode_wp; [done|]. cbn [isize set_addrs].
  pose proof (wrote_log v L ip off src v1 a1 L1 c W Hc) as HL. fold n in HL. rewrite s32_id by (unfold is_s32; lia).
  destruct (Z.ltb_spec 0 n) as [Hn|Hn], (Z.ltb_spec (isize ip) (off + n)) as [Hg|Hg]; cbn [andb].
  2-4: assert (a1 = addrs ip) as Ea by (apply Hsame; intros o Ho; apply Hfull; lia); apply wp_bind, wp_ret, wp_ret;
    destruct (written_within s v L i ip O off src v1 a1 L1 c W Hoff Hmax Hc Ea ltac:(lia)) as [FW OF]; rewrite Ea, set_addrs_id in *; eauto.
  apply wp_bind, wp_bind, wp_modS. pose proof (upd_inode_step s1 i (set_isize (off + n)) _ Hi1) as S2. pose proof (inode_step_lookup _ _ _ _ _ S2 Hi1) as Hi2.
  destruct (written_past s v L i ip O off src v1 a1 L1 c W Hoff Hmax Hc (off + n)) as [FW OF]; [done|done|..].
  { pose proof (iblock_range ip (proj1 Hfits)). rewrite (wr_frame _ _ _ _ _ _ _ _ _ W) by lia. eapply (bl_block (blk s) v ∅ L); [apply Hs|]. apply (g_ok G). right.
    pose proof bitmap_before_data. pose proof (g_data G). lia. }
  eapply iupdate_wp; [by apply upd_inode_fs_at|done|done|apply Hfits|pose proof (logged_le (iblock ip) L1); change (iblock (set_isize _ _)) with (iblock ip); lia|].
  intros s3 Hs3 R3. apply wp_ret. eapply HQ; [apply OF; [exact Hs3|by eapply rest_lookup]| |exact FW]. eapply inode_step_rest; [|done]. by eapply inode_step_trans.
Qed.

(** ** Freeing *)

Definition unmark (v : Z -> block) (b : Z) : Z -> block := dset v (BBLOCK b sb0) (clear_bit (v (BBLOCK b sb0)) (b mod BPB)).
Definition bitmap_blocks : gset Z := list_to_set ((fun b => BBLOCK b sb0) <$> seqZ 0 (sb_size sb0)).

Lemma elem_bitmap b : 0 <= b < sb_size sb0 -> BBLOCK b sb0 ∈ bitmap_blocks.
Proof. intros Hb. unfold bitmap_blocks. apply elem_of_list_to_set, list_elem_of_fmap. exists b. split; [done|]. apply elem_of_seqZ. lia. Qed.

Lemma used_unmark v b c : 0 <= b < sb_size sb0 -> 0 <= c < sb_size sb0 -> block_ok (v (BBLOCK b sb0)) -> used (unmark v b) c = negb (b =? c) && used v c.
Proof.
  intros Hb Hc Hok. unfold used, unmark. destruct (decide (BBLOCK c sb0 = BBLOCK b sb0)) as [E|Hne].
  - rewrite E, dset_eq. rewrite bit_clear; [|apply BPB_mod..|by apply bit_in_block]. f_equal. f_equal.
    rewrite !BBLOCK_eq in E by done. pose proof (Z.div_mod b BPB ltac:(unfold BPB; lia)). pose proof (Z.div_mod c BPB ltac:(unfold BPB; lia)).
    assert (b / BPB = c / BPB) as E' by lia. rewrite E' in *. destruct (Z.eqb_spec (b mod BPB) (c mod BPB)), (Z.eqb_spec b c); congruence || lia.
  - rewrite dset_ne by done. destruct (Z.eqb_spec b c) as [->|]; done.
Qed.

Lemma readsb_wp s v hs L Q : fs_at s v hs L -> sb_of_block (v 1) = sb0 -> not_held 1 hs -> (size hs <= 1)%nat ->
  (forall s', fs_at s' v hs L -> same_rest s s' -> Q tt s') -> wp (readsb k) s Q.
Proof.
  intros Hs Hsb Hn Hz HQ. unfold readsb. apply wp_bind. eapply fs_bread_wp; [done|apply (g_ok G); auto|done|done|]. intros h s1 Hh H1 R1.
  apply wp_bind. eapply data_wp; [done|apply lookup_insert_eq|]. intros s2 H2 R2. apply wp_bind, wp_modS. rewrite Hsb.
  assert (upd_vsb k (set_sb sb0) s2 = s2) as ->.
  { destruct H2 as [_ [r E]]. unfold upd_vsb. rewrite (alter_insert _ _ _ _ E), list_insert_id; [by destruct s2|]. done. }
  eapply put_back_wp; [done|done|]. intros s3 H3 R3. apply HQ; [done|rest].
Qed.

Lemma bfree_wp s v hs L b Q : fs_at s v hs L -> sb_of_block (v 1) = sb0 -> held_used v hs -> (size hs <= 1)%nat -> data_block b -> used v b = true ->
  (size ({[BBLOCK b sb0]} ∪ L) <= bl_cap)%nat -> (forall s', fs_at s' (unmark v b) hs ({[BBLOCK b sb0]} ∪ L) -> same_rest s s' -> Q tt s') -> wp (bfree k b) s Q.
Proof.
  intros Hs Hsb Hh Hz Hb Hu Hcap HQ. pose proof (data_range b Hb) as Hr. unfold bfree. apply wp_bind. eapply readsb_wp; try done.
  { intros h x E Hx. destruct (Hh h x E) as [[Hd _] _]. pose proof datastart_pos. lia. }
  intros s1 H1 R1. apply wp_bind. eapply sb_private_wp; [done|]. cbn [sb]. apply wp_bind. eapply fs_bread_wp; [done|by apply bitmap_ok|by eapply not_held_bitmap|done|].
  intros h s2 Hh2 H2 R2. apply wp_bind. eapply data_wp; [done|apply lookup_insert_eq|]. intros s3 H3 R3. fold (used v b). rewrite Hu. cbn [negb].
  eapply write_log_wp; [done|apply lookup_insert_eq|apply clear_bit_ok; by eapply bitmap_block_ok|done|]. intros s4 H4 R4. rewrite insert_insert_eq in H4.
  eapply put_back_wp; [done|done|]. intros s5 H5 R5. apply HQ; [done|rest].
Qed.

(** The blocks [F] have been freed, and nothing but bitmap blocks has changed. *)
Record freed (v : Z -> block) (F : gset Z) (v' : Z -> block) : Prop := Freed {
  fr_used c : 0 <= c < sb_size sb0 -> used v' c = used v c && negb (bool_decide (c ∈ F));
  fr_frame c : c < bmapstart sb0 \/ data_block c -> v' c = v c
}.

Lemma freed_nil v : freed v ∅ v.
Proof. split; [|done]. intros c Hc. rewrite bool_decide_eq_false_2 by set_solver. by rewrite andb_true_r. Qed.
Lemma freed_one v F v' b : freed v F v' -> data_block b -> block_ok (v' (BBLOCK b sb0)) -> freed v ({[b]} ∪ F) (unmark v' b).
Proof.
  intros Hf Hb Hok. pose proof (data_range b Hb) as Hr. split.
  - intros c Hc. rewrite used_unmark, (fr_used _ _ _ Hf) by done. destruct (Z.eqb_spec b c) as [->|Hne]; cbn [negb andb].
    + rewrite bool_decide_eq_true_2 by set_solver. by rewrite andb_false_r.
    + f_equal. f_equal. apply bool_decide_ext. set_solver.
  - intros c Hc. unfold unmark. rewrite dset_ne; [by apply (fr_frame _ _ _ Hf)|]. destruct Hc as [Hc|Hc]; [|by apply data_not_bitmap].
    rewrite BBLOCK_eq by done. pose proof (Z.div_pos b BPB ltac:(lia) ltac:(unfold BPB; lia)). lia.
Qed.

(** The blocks at [n] positions from [p]. *)
Definition blocks_at (v : Z -> block) (a : list Z) (p n : nat) : gset Z := list_to_set (filter (fun b => b <> 0) (slot v a <$> seq p n)).

Lemma elem_blocks_at v a p n b : b ∈ blocks_at v a p n <-> b <> 0 /\ exists q, (p <= q < p + n)%nat /\ slot v a q = b.
Proof.
  unfold blocks_at. rewrite elem_of_list_to_set, list_elem_of_filter, list_elem_of_fmap. setoid_rewrite elem_of_seq. naive_solver.
Qed.
Lemma blocks_at_step v a p : slot v a p <> 0 -> forall n, blocks_at v a p (Datatypes.S n) = {[slot v a p]} ∪ blocks_at v a (Datatypes.S p) n.
Proof. intros H n. unfold blocks_at. cbn [seq fmap list_fmap]. rewrite filter_cons_True by done. done. Qed.
Lemma blocks_at_skip v a p : slot v a p = 0 -> forall n, blocks_at v a p (Datatypes.S n) = blocks_at v a (Datatypes.S p) n.
Proof. intros H n. unfold blocks_at. cbn [seq fmap list_fmap]. rewrite filter_cons_False by tauto. done. Qed.

(** Truncation of the file [ip] of [v], with room in the log for the bitmap. *)
Section itrunc.
Context (v : Z -> block) (L : gset Z) (i : nat) (ip : native_inode) (Lmax : gset Z).
Context (Hk : isb ip = k) (Hf : file_ok v (addrs ip)) (Hsb : sb_of_block (v 1) = sb0).
Context (HLmax : L ∪ bitmap_blocks ⊆ Lmax) (Hcap : (size Lmax <= bl_cap)%nat).

(** Part of the blocks, [F], is freed. *)
Definition trunc_at (s : fsys S) (hs : gmap nat (Z * bool)) (F : gset Z) : Prop :=
  exists v' L', fs_at s v' hs L' /\ freed v F v' /\ L' ⊆ Lmax.

Lemma bfree_trunc s hs F p Q : trunc_at s hs F -> (size hs <= 1)%nat -> (forall h x, hs !! h = Some x -> data_block x.1 /\ used v x.1 = true /\ x.1 ∉ F) ->
  (p < NPOS)%nat -> slot v (addrs ip) p <> 0 -> slot v (addrs ip) p ∉ F ->
  (forall s', trunc_at s' hs ({[slot v (addrs ip) p]} ∪ F) -> same_rest s s' -> Q tt s') -> wp (bfree k (slot v (addrs ip) p)) s Q.
Proof.
  intros (v' & L' & Hs & Hfr & HL) Hz Hh Hp Hne Hni HQ. destruct (fo_data _ _ Hf p Hp Hne) as [Hd Hu]. pose proof (data_range _ Hd) as Hr. pose proof (elem_bitmap _ Hr).
  assert (forall c, data_block c -> used v c = true -> c ∉ F -> used v' c = true) as Hstill.
  { intros c Hc Huc Hcf. rewrite (fr_used _ _ _ Hfr) by by apply data_range. rewrite Huc, bool_decide_eq_false_2 by done. done. }
  eapply bfree_wp; [done| | |done|done|by apply Hstill| |].
  - rewrite (fr_frame _ _ _ Hfr); [done|]. left. destruct G. pose proof (Z.div_pos (ninodes sb0) IPB ltac:(lia) ltac:(unfold IPB; lia)). lia.
  - intros h x E. destruct (Hh h x E) as (H1 & H2 & H3). auto.
  - etrans; [|done]. apply subseteq_size. set_solver.
  - intros s1 H1 R1. apply HQ; [|done]. eexists _, _. split; [done|]. split; [|set_solver]. apply freed_one; [done|done|by eapply bitmap_block_ok].
Qed.

Definition cut (j : nat) : list Z := replicate j 0 ++ drop j (addrs ip).

Lemma cut_lookup j : (j < 13)%nat -> cut j !! j = Some (addrs ip !!! j).
Proof.
  intros Hj. unfold cut. rewrite lookup_app_r by (rewrite length_replicate; lia). rewrite length_replicate, Nat.sub_diag, lookup_drop, Nat.add_0_r.
  apply list_lookup_lookup_total_lt. rewrite (fo_len _ _ Hf). lia.
Qed.
Lemma cut_step j : (j < 13)%nat -> <[j := 0]> (cut j) = cut (Datatypes.S j).
Proof.
  intros Hj. unfold cut. rewrite insert_app_r_alt by (rewrite length_replicate; lia). rewrite length_replicate, Nat.sub_diag.
  rewrite (drop_S _ (addrs ip !!! j) j) by (apply list_lookup_lookup_total_lt; rewrite (fo_len _ _ Hf); lia). cbn [insert list_insert].
  by rewrite replicate_S_end, <- app_assoc.
Qed.

Lemma not_yet p n : (p + n < NPOS)%nat -> slot v (addrs ip) (p + n) <> 0 -> slot v (addrs ip) (p + n) ∉ blocks_at v (addrs ip) p n.
Proof.
  intros Hp Hne (_ & q & Hq & E)%elem_blocks_at. apply (fo_inj _ _ Hf) in E; [lia|lia|lia|congruence].
Qed.
Lemma blocks_at_next p n : blocks_at v (addrs ip) p (Datatypes.S n) =
  if decide (slot v (addrs ip) (p + n) = 0) then blocks_at v (addrs ip) p n else {[slot v (addrs ip) (p + n)]} ∪ blocks_at v (addrs ip) p n.
Proof.
  apply set_eq. intros b. rewrite elem_blocks_at. case_decide as Hz.
  - rewrite elem_blocks_at. split; intros (Hb & q & Hq & E); (split; [done|]); exists q; (split; [|done]); [|lia]. destruct (decide (q = p + n)%nat) as [->|]; [congruence|lia].
  - rewrite elem_of_union, elem_of_singleton, elem_blocks_at. split.
    + intros (Hb & q & Hq & E). destruct (decide (q = p + n)%nat) as [->|]; [left; congruence|right]. split; [done|]. exists q. split; [lia|done].
    + intros [->|(Hb & q & Hq & E)]; (split; [done|]); [exists (p + n)%nat; split; [lia|done]|exists q; split; [lia|done]].
Qed.

Lemma itrunc_direct_wp n j s Q : (j + n = 12)%nat -> trunc_at s ∅ (blocks_at v (addrs ip) 0 j) -> icache s !! i = Some (set_addrs (cut j) ip) ->
  (forall s', trunc_at s' ∅ (blocks_at v (addrs ip) 0 12) -> inode_step s s' i (set_addrs (cut 12) ip) -> Q tt s') -> wp (itrunc_direct n j i) s Q.
Proof.
  revert j s. induction n as [|n IH]; intros j s Hj Ht Hi HQ; cbn [itrunc_direct].
  { replace j with 12%nat in * by lia. apply wp_ret, HQ; [done|]. by apply same_rest_step. }
  apply wp_bind. eapply get_inode_wp; [done|]. cbn [set_addrs addrs isb]. rewrite Hk. apply wp_bind. eapply wp_deref; [apply cut_lookup; lia|].
  assert (addrs ip !!! j = slot v (addrs ip) j) as E by (unfold slot; by rewrite decide_True by lia). rewrite E. pose proof (blocks_at_next 0 j) as Hnx. cbn [Nat.add] in Hnx.
  pose proof (cut_step j ltac:(lia)) as Hcut. apply wp_bind. destruct (Z.eqb_spec (slot v (addrs ip) j) 0) as [Hz|Hz].
  - rewrite decide_True in Hnx by done. apply wp_ret. apply IH; [lia|by rewrite Hnx| |done]. rewrite <- Hcut. rewrite list_insert_id; [done|].
    rewrite cut_lookup by lia. congruence.
  - rewrite decide_False in Hnx by done. apply wp_bind. eapply (bfree_trunc s ∅ _ j); [done|rewrite map_size_empty; lia| |unfold NPOS; lia|done|apply (not_yet 0 j); unfold NPOS; done || lia|].
    { intros h x Ex. by rewrite lookup_empty in Ex. }
    intros s1 H1 R1. apply wp_modS. pose proof (rest_lookup _ _ _ _ R1 Hi) as Hi1. pose proof (upd_inode_step s1 i (fun ip => set_addrs (<[j := 0]> (addrs ip)) ip) _ Hi1) as S1.
    cbn [addrs set_addrs] in S1. rewrite Hcut in S1. change (set_addrs (cut (Datatypes.S j)) (set_addrs (cut j) ip)) with (set_addrs (cut (Datatypes.S j)) ip) in S1.
    apply IH; [lia|by rewrite Hnx|by eapply inode_step_lookup|]. intros s2 H2 S2. apply HQ; [done|]. eapply inode_step_trans; [|done]. by eapply rest_inode_step.
Qed.

Lemma itrunc_indirect_wp n j h s Q (D := blocks_at v (addrs ip) 0 12) (c := slot v (addrs ip) 12) : (j + n = 256)%nat -> c <> 0 ->
  trunc_at s {[h := (c, true)]} (D ∪ blocks_at v (addrs ip) 13 j) ->
  (forall s', trunc_at s' {[h := (c, true)]} (D ∪ blocks_at v (addrs ip) 13 256) -> same_rest s s' -> Q tt s') -> wp (itrunc_indirect n j k h) s Q.
Proof.
  intros Hj Hc. destruct (fo_data _ _ Hf 12) as [Hd Hu]; [unfold NPOS; lia|done|]. fold c in Hd, Hu. revert j s Hj.
  induction n as [|n IH]; intros j s Hj Ht HQ; cbn [itrunc_indirect]. { replace j with 256%nat in * by lia. by apply wp_ret, HQ. }
  destruct Ht as (v' & L' & Hs & Hfr & HL). apply wp_bind. eapply data_wp; [done|apply lookup_singleton_eq|]. intros s1 H1 R1.
  assert (get32 (v' c) (4 * j) = slot v (addrs ip) (13 + j)) as E.
  { rewrite (fr_frame _ _ _ Hfr) by auto. unfold slot. rewrite !decide_False by (lia || done). rewrite <- slot_ind with (v := v). fold c. f_equal. lia. }
  rewrite E. pose proof (blocks_at_next 13 j) as Hnx. apply wp_bind. destruct (Z.eqb_spec (slot v (addrs ip) (13 + j)) 0) as [Hz|Hz].
  - rewrite decide_True in Hnx by done. apply wp_ret. apply IH; [lia|rewrite Hnx; by exists v', L'|]. intros s2 H2 R2. apply HQ; [done|rest].
  - rewrite decide_False in Hnx by done. eapply (bfree_trunc s1 _ _ (13 + j)); [by exists v', L'|rewrite map_size_singleton; lia| |unfold NPOS; lia|done| |].
    + intros h' x [_ <-]%lookup_singleton_Some. split_and!; [done..|]. cbn [fst]. intros [(_ & q & Hq & Eq)%elem_blocks_at|(_ & q & Hq & Eq)%elem_blocks_at]%elem_of_union;
        apply (fo_inj _ _ Hf) in Eq; unfold NPOS in *; congruence || lia.
    + intros [(_ & q & Hq & Eq)%elem_blocks_at|Hin]%elem_of_union; [|by apply (not_yet 13 j) in Hin; [|unfold NPOS; lia|]].
      apply (fo_inj _ _ Hf) in Eq; unfold NPOS in *; congruence || lia.
    + intros s2 H2 R2. apply IH; [lia| |intros s3 H3 R3; apply HQ; [done|rest]]. rewrite Hnx. by rewrite union_assoc_L, union_swap.
Qed.

Lemma blocks_all : blocks_at v (addrs ip) 0 NPOS = blocks_at v (addrs ip) 0 12 ∪ blocks_at v (addrs ip) 12 1 ∪ blocks_at v (addrs ip) 13 256.
Proof.
  apply set_eq. intros b. rewrite !elem_of_union, !elem_blocks_at. split.
  - intros (Hb & q & Hq & E). unfold NPOS in Hq. destruct (decide (q < 12)%nat); [left; left; split; [done|exists q; split; [lia|done]]|].
    destruct (decide (q = 12%nat)); [left; right|right]; (split; [done|exists q; split; [lia|done]]).
  - intros [[(Hb & q & Hq & E)|(Hb & q & Hq & E)]|(Hb & q & Hq & E)]; (split; [done|exists q; split; [unfold NPOS; lia|done]]).
Qed.

(** The indirect block and what it lists. *)
Lemma itrunc_rest_wp {B} (K : M (fsys S) B) s Q : trunc_at s ∅ (blocks_at v (addrs ip) 0 12) -> icache s !! i = Some (set_addrs (cut 12) ip) ->
  (forall s', trunc_at s' ∅ (blocks_at v (addrs ip) 0 NPOS) -> inode_step s s' i (set_addrs (replicate 13 0) ip) -> wp K s' Q) ->
  wp (ip ← get_inode i;
      a ← deref (addrs ip !! NDIRECT);
      (if a =? 0 then mret tt
       else
         bp ← fs_bread (isb ip) a;
         itrunc_indirect NINDIRECT 0 (isb ip) bp ;;
         onblk (bl_release bp) ;;
         bfree (isb ip) a ;;
         modS (upd_inode i (fun ip => set_addrs (<[NDIRECT := 0]> (addrs ip)) ip))) ;; K) s Q.
Proof.
  intros Ht Hi HQ. apply wp_bind. eapply get_inode_wp; [done|]. cbn [set_addrs addrs isb]. rewrite Hk. apply wp_bind. eapply wp_deref; [apply (cut_lookup 12); lia|].
  assert (cut 13 = replicate 13 0) as E13. { unfold cut. rewrite drop_ge, app_nil_r; [done|]. by rewrite (fo_len _ _ Hf). }
  pose proof (cut_step 12 ltac:(lia)) as Hcut. rewrite <- slot_ind with (v := v). apply wp_bind. destruct (Z.eqb_spec (slot v (addrs ip) 12) 0) as [Hz|Hz].
  - apply wp_ret, HQ.
    + rewrite blocks_all. replace (blocks_at v (addrs ip) 12 1) with (∅ : gset Z). 2:{ by rewrite blocks_at_skip. }
      replace (blocks_at v (addrs ip) 13 256) with (∅ : gset Z); [by rewrite !union_empty_r_L|]. symmetry. apply set_eq. intros b. rewrite elem_blocks_at. split; [|set_solver].
      intros (Hb & q & Hq & E). unfold slot in E. rewrite decide_False, decide_True in E by (lia || done). congruence.
    + apply same_rest_step; [done|]. rewrite Hi. do 2 f_equal. rewrite <- E13, <- Hcut, list_insert_id; [done|]. rewrite cut_lookup by lia. by rewrite <- slot_ind with (v := v), Hz.
  - destruct (fo_data _ _ Hf 12) as [Hd Hu]; [unfold NPOS; lia|done|]. destruct Ht as (v' & L' & Hs & Hfr & HL).
    apply wp_bind. eapply fs_bread_wp; [done|by apply data_ok|apply not_held_empty|rewrite map_size_empty; lia|]. intros h s1 Hh H1 R1. rewrite insert_empty in H1.
    apply wp_bind. eapply (itrunc_indirect_wp NINDIRECT 0); [done|done| |].
    { exists v', L'. split; [done|]. split; [|done]. change (blocks_at v (addrs ip) 13 0) with (∅ : gset Z). by rewrite union_empty_r_L. }
    intros s2 (v2 & L2 & H2 & Hfr2 & HL2) R2. apply wp_bind. eapply release_wp; [done|apply lookup_singleton_eq|]. intros s3 H3 R3. rewrite delete_singleton_eq in H3.
    apply wp_bind. eapply (bfree_trunc s3 ∅ _ 12); [by exists v2, L2|rewrite map_size_empty; lia|intros h' x Ex; by rewrite lookup_empty in Ex|unfold NPOS; lia|done| |].
    { intros [(_ & q & Hq & Eq)%elem_blocks_at|(_ & q & Hq & Eq)%elem_blocks_at]%elem_of_union; apply (fo_inj _ _ Hf) in Eq; unfold NPOS in *; congruence || lia. }
    intros s4 H4 R4. apply wp_modS. assert (same_rest s s4) as R by rest. pose proof (rest_lookup _ _ _ _ R Hi) as Hi4.
    pose proof (upd_inode_step s4 i (fun ip => set_addrs (<[NDIRECT := 0]> (addrs ip)) ip) _ Hi4) as S4. cbn [addrs set_addrs] in S4. unfold NDIRECT in S4. rewrite Hcut, E13 in S4.
    apply HQ; [|by eapply rest_inode_step]. rewrite blocks_all. replace (blocks_at v (addrs ip) 12 1) with ({[slot v (addrs ip) 12]} : gset Z).
    2:{ rewrite blocks_at_step by done. change (blocks_at v (addrs ip) 13 0) with (∅ : gset Z). by rewrite union_empty_r_L. }
    destruct H4 as (v4 & L4 & Hs4 & Hf4 & HL4). exists v4, L4. split; [exact Hs4|]. split; [|done].
    by rewrite union_swap.
Qed.
End itrunc.

Definition truncated (ip : native_inode) : native_inode := set_isize 0 (set_addrs (replicate 13 0) ip).

(** What [itrunc] leaves: no block of the file is in use, every other block is as before. *)
Record file_truncated (v : Z -> block) (ip : native_inode) (v' : Z -> block) : Prop := FileTruncated {
  ft_used c : 0 <= c < sb_size sb0 -> used v' c = used v c && negb (bool_decide (c ∈ blocks_at v (addrs ip) 0 NPOS));
  ft_frame c : c < bmapstart sb0 /\ c <> iblock ip \/ data_block c -> v' c = v c;
  ft_synced : synced v' (truncated ip)
}.

Lemma itrunc_wp s v L i ip Q : open_file s v L i ip -> sb_of_block (v 1) = sb0 -> (size ({[iblock ip]} ∪ (L ∪ bitmap_blocks)) <= bl_cap)%nat ->
  (forall s' v' L', fs_at s' v' ∅ L' -> inode_step s s' i (truncated ip) -> file_truncated v ip v' -> L' ⊆ {[iblock ip]} ∪ (L ∪ bitmap_blocks) -> Q tt s') -> wp (itrunc i) s Q.
Proof.
  intros [Hs Hi Hk Hm Hf Hfull Hsz Hfits Hsync] Hsb Hcap HQ. set (Lmax := {[iblock ip]} ∪ (L ∪ bitmap_blocks)) in *. assert (L ∪ bitmap_blocks ⊆ Lmax) as HLm by set_solver.
  pose proof (iblock_range ip (proj1 Hfits)) as Hr.
  unfold itrunc. apply wp_bind. eapply (itrunc_direct_wp v L i ip Lmax); try done.
  { exists v, L. split; [done|]. split; [apply freed_nil|set_solver]. }
  { rewrite Hi. change (cut ip 0) with (addrs ip). by rewrite set_addrs_id. }
  intros s1 H1 S1. pose proof (inode_step_lookup _ _ _ _ _ S1 Hi) as Hi1. eapply (itrunc_rest_wp v L i ip Lmax); try done.
  intros s2 (v2 & L2 & H2 & Hfr & HL) S2. pose proof (inode_step_lookup _ _ _ _ _ S2 Hi1) as Hi2. apply wp_bind, wp_modS.
  pose proof (upd_inode_step s2 i (set_isize 0) _ Hi2) as S3. pose proof (inode_step_lookup _ _ _ _ _ S3 Hi2) as Hi3.
  change (set_isize 0 (set_addrs (replicate 13 0) ip)) with (truncated ip) in *.
  assert (size ({[iblock (truncated ip)]} ∪ L2) <= bl_cap)%nat as Hc2.
  { etrans; [|exact Hcap]. apply subseteq_size. change (iblock (truncated ip)) with (iblock ip). set_solver. }
  eapply iupdate_wp; [by apply upd_inode_fs_at|done|done|apply Hfits|done|]. change (iblock (truncated ip)) with (iblock ip). change (inum (truncated ip)) with (inum ip).
  intros s4 H4 R4. eapply HQ; [exact H4| | |set_solver].
  { eapply inode_step_rest; [|done]. eapply inode_step_trans; [done|]. by eapply inode_step_trans. }
  split.
  - intros c Hc. rewrite used_below by (done || lia). by apply (fr_used _ _ _ Hfr).
  - intros c Hc. rewrite dset_ne; [apply (fr_frame _ _ _ Hfr); destruct Hc as [[]|]; auto|]. destruct Hc as [[]|[]]; [done|]. pose proof bitmap_before_data. lia.
  - unfold synced. change (iblock (truncated ip)) with (iblock ip). change (inum (truncated ip)) with (inum ip). rewrite dset_eq. apply load_put_dinode.
    + destruct Hfits as (H1' & H2' & _). split; [exact H1'|]. split; [exact H2'|]. split; [done|]. split; [|done]. by repeat constructor.
    + rewrite (fr_frame _ _ _ Hfr) by (left; lia). pose proof (bl_block _ _ _ _ (iblock ip) (proj1 Hs)) as [-> _].
      * apply (g_ok G). right. pose proof bitmap_before_data. pose proof (g_data G). lia.
      * apply dinode_off_fits. apply Hfits.
Qed.

Lemma bind_wp_stop {A B} (m : M (fsys S) A) (K : A -> M (fsys S) B) s e : wp m s (fun a s' => K a s' = inl e) -> (m ≫= K) s = inl e.
Proof. intros (a & s' & E & H). by rewrite (bind_run _ _ _ _ _ E). Qed.

Lemma balloc_loop_full fuel j s v hs L : fs_at s v hs L -> held_used v hs -> (size hs <= 1)%nat -> free v = ∅ -> 0 <= j -> (0 < fuel)%nat ->
  sb_size sb0 <= (j + Z.of_nat fuel - 1) * BPB -> balloc_loop fuel k (j * BPB) s = inl (Panic "balloc: out of blocks").
Proof.
  intros Hs Hh Hz Hf Hj. revert j s Hs Hj. induction fuel as [|fuel IH]; intros j s Hs Hj H0 Hfu; cbn [balloc_loop]; [lia|].
  apply bind_wp_stop. eapply sb_private_wp; [done|]. cbn [sb]. destruct (Z.ltb_spec (j * BPB) (sb_size sb0)) as [Hlt|]; [|done].
  assert (0 <= j * BPB < sb_size sb0) as Hr by (unfold BPB in *; lia).
  apply bind_wp_stop. eapply fs_bread_wp; [done|by apply bitmap_ok|by eapply not_held_bitmap|done|]. intros h s1 Hh1 H1 R1.
  apply bind_wp_stop. eapply data_wp; [done|apply lookup_insert_eq|]. intros s2 H2 R2.
  pose proof (free_bit_spec (Z.to_nat (Z.min BPB (sb_size sb0 - j * BPB))) (v (BBLOCK (j * BPB) sb0)) 0 ltac:(lia)) as Hfb. destruct (free_bit _ _ _) as [bi|].
  - exfalso. destruct Hfb as (Hbi & Hb0 & _). destruct (used_row v j bi Hj) as [_ EU]; [lia..|]. rewrite Hb0 in EU.
    assert (j * BPB + bi ∈ free v) by (apply elem_of_free; split; [lia|done]). set_solver.
  - apply bind_wp_stop. eapply put_back_wp; [done|done|]. intros s3 H3 R3. replace (j * BPB + BPB) with ((j + 1) * BPB) by lia.
    apply IH; [done|lia| |lia]. unfold BPB in *. lia.
Qed.

(** ** What the operations do *)

(** A block is allocated exactly when one is free.  It then belongs to no file and to no table of the file system, it is marked
    as used and zeroed, the transaction grows by it and by the bitmap block, and nothing else changes.  A full disk panics. *)
Lemma balloc_outcomes s v hs L : fs_at s v hs L -> meta_used v -> held_used v hs -> (size hs <= 1)%nat -> (size L + 2 <= bl_cap)%nat ->
  if decide (free v = ∅) then balloc k s = inl (Panic "balloc: out of blocks")
  else wp (balloc k) s (fun b s' => data_block b /\ used v b = false /\ same_rest s s' /\
    exists v', fs_at s' v' hs ({[b]} ∪ ({[BBLOCK b sb0]} ∪ L)) /\ v' b = zero_block /\ (forall c, 0 <= c < sb_size sb0 -> used v' c = (b =? c) || used v c) /\
      forall c, c < bmapstart sb0 \/ data_block c /\ c <> b -> v' c = v c).
Proof.
  intros Hs Hm Hh Hz Hc. destruct (decide (free v = ∅)) as [Hf|Hf].
  - unfold balloc. apply bind_wp_stop. eapply sb_private_wp; [done|]. cbn [sb]. eapply (balloc_loop_full _ 0); try done; [lia|].
    pose proof (Z.div_mod (sb_size sb0) BPB ltac:(unfold BPB; lia)). pose proof (BPB_mod (sb_size sb0)).
    pose proof (Z.div_pos (sb_size sb0) BPB ltac:(pose proof (g_size G); lia) ltac:(unfold BPB; lia)). rewrite Nat2Z.inj_add, Z2Nat.id by lia. unfold BPB in *. lia.
  - eapply balloc_wp; try done.
    + destruct (size (free v)) eqn:E; [|lia]. apply size_empty_inv in E. exfalso. apply Hf. by apply leibniz_equiv.
    + intros b s' Hb Hu H' R'. split_and!; try done. eexists. split; [done|]. split; [apply alloc_self|]. split; [intros c Hc'; apply used_alloc; [done..|by eapply bitmap_block_ok]|].
      intros c [Hcb|[Hd Hn]]; [by apply alloc_below|by apply alloc_other].
Qed.

(** C10: [readi] returns the bytes of the file between the offset and the end of the request or of the file, at their places in the
    vector, and changes nothing; an offset past the end or a request that wraps around is refused. *)
Theorem readi_contents {V} {BS : ByteSink V} dr s v L i ip off n (dst : V) : open_file s v L i ip -> itype ip <> T_DEV -> is_u32 off -> is_u32 n ->
  wp (readi dr i off n dst) s (fun r s' => fs_at s' v ∅ L /\ same_rest s s' /\
    r = if decide (isize ip < off \/ 2 ^ 32 <= off + n) then (-1, dst)
        else let m := Z.min n (isize ip - off) in (m, put_bytes dst 0 (slice (contents v ip) (Z.to_nat off) (Z.to_nat m)))).
Proof.
  intros [Hs Hi Hk Hm Hf Hfull Hsz Hfits Hsync] Ht Ho Hn. unfold readi. apply wp_bind. eapply get_inode_wp; [done|]. rewrite (proj2 (Z.eqb_neq _ _) Ht).
  assert (MAXFILE * BSIZE = 274432) as EM by done. assert (off +u n = off + n \/ 2 ^ 32 <= off + n /\ off +u n = off + n - 2 ^ 32) as Hw.
  { unfold is_u32, u32 in *. destruct (decide (off + n < 2 ^ 32)); [left; apply Z.mod_small; lia|right; split; [lia|]].
    symmetry. apply (Z.mod_unique_pos _ _ 1); lia. }
  pose proof (u32_range (off + n)). unfold is_u32 in *. destruct (decide _) as [Hbad|Hok].
  - assert ((isize ip <? off) || (off +u n <? off) = true) as ->; [|apply wp_ret; done]. apply orb_true_iff. rewrite !Z.ltb_lt. destruct Hw as [?|[]], Hbad; lia.
  - assert (off +u n = off + n) as Ew by (destruct Hw as [?|[]]; lia). rewrite Ew. destruct (Z.ltb_spec (isize ip) off), (Z.ltb_spec (off + n) off); try lia. cbn [orb].
    set (m := if isize ip <? off + n then isize ip - off else n). assert (m = Z.min n (isize ip - off)) as Em by (unfold m; destruct (Z.ltb_spec (isize ip) (off + n)); lia).
    apply wp_bind. eapply (readi_loop_wp _ _ v L _ ip); try done; rewrite ?Z.sub_0_r; try lia; [intros o Hor; apply Hfull; lia|]. intros s' H' R'. apply wp_ret.
    split; [done|]. split; [done|]. rewrite s32_id by (unfold is_s32; lia). cbv zeta. rewrite <- Em. f_equal. f_equal. unfold contents. rewrite slice_fbytes; [done|lia..].
Qed.

(** C9: [writei] puts the bytes it is given into the file and leaves every other byte, every other file and every other inode as
    they were; the file stays well formed, its inode on the disk says what the one in memory says, blocks that become used belong to
    the file, and the transaction grows by at most two blocks for each block touched and three.  A write that starts past the end,
    wraps around or passes the largest size is refused and changes nothing. *)
Theorem writei_contents dw s v L i ip src off (n := Z.of_nat (length src)) : open_file s v L i ip -> itype ip <> T_DEV -> Forall is_byte src -> is_u32 off -> is_u32 n ->
  (off <= isize ip /\ off + n <= MAXFILE * BSIZE -> (size L + 2 * nblk off n + 3 <= bl_cap)%nat /\ (nblk off n < size (free v))%nat) ->
  if decide (off <= isize ip /\ off + n <= MAXFILE * BSIZE)
  then wp (writei dw i src off n) s (fun r s' => r = n /\ exists v' ip' L', open_file s' v' L' i ip' /\ inode_step s s' i ip' /\ file_written v ip L off src v' ip' L')
  else writei dw i src off n s = inr (-1, s).
Proof.
  intros O Ht Hby Ho Hn Hroom. destruct (decide _) as [[H1 H2]|Hbad].
  - destruct (Hroom (conj H1 H2)) as [Hcap Hfree]. unfold is_u32 in Ho. eapply writei_wp; try done; [lia|]. intros s' v' ip' L' O' S' W'. split; [done|]. by exists v', ip', L'.
  - destruct O as [Hs Hi Hk Hm Hf Hfull Hsz Hfits Hsync]. unfold writei, get_inode. mrun. rewrite Hi. cbn [deref]. mrun. rewrite (proj2 (Z.eqb_neq _ _) Ht).
    assert (MAXFILE * BSIZE = 274432) as EM by done. rewrite EM in *. unfold is_u32, u32 in *.
    destruct (Z.ltb_spec (isize ip) off) as [|Hle]; [done|]. destruct (Z.ltb_spec ((off + n) mod 2 ^ 32) off) as [|Hw]; [done|]. cbn [orb].
    destruct (Z.ltb_spec 274432 ((off + n) mod 2 ^ 32)) as [|Hb]; [done|]. exfalso. apply Hbad. split; [done|].
    destruct (decide (off + n < 2 ^ 32)) as [Hlt|Hge]; [by rewrite Z.mod_small in Hb by lia|].
    rewrite <- (Z.mod_unique_pos (off + n) (2 ^ 32) 1 (off + n - 2 ^ 32)) in Hw by lia. lia.
Qed.

(** C11: [itrunc] never finds a block of the file already free: it frees all of them and no other block, and leaves the inode empty
    in memory and on the disk. *)
Theorem itrunc_frees s v L i ip : open_file s v L i ip -> sb_of_block (v 1) = sb0 -> (size ({[iblock ip]} ∪ (L ∪ bitmap_blocks)) <= bl_cap)%nat ->
  wp (itrunc i) s (fun _ s' => exists v' L', fs_at s' v' ∅ L' /\ inode_step s s' i (truncated ip) /\ file_truncated v ip v' /\ L' ⊆ {[iblock ip]} ∪ (L ∪ bitmap_blocks)).
Proof. intros O Hsb Hcap. eapply itrunc_wp; try done. intros s' v' L' H' S' T' HL. by exists v', L'. Qed.
End fsfile.

(** ** A small file system

    The smallest block layer with the laws of [Blocks], blocks in memory, and a file system of 16 blocks on it: the super block,
    one block of inodes, one of bits, and a file of three bytes. *)
Module FsDemo.
Record mem_blocks := MemBlocks { mb_disk : Z -> block; mb_held : gmap nat (Z * bool); mb_log : gset Z }.

Definition mb_buf (h : nat) : M mem_blocks (Z * bool) := s ← getS; deref (mb_held s !! h).
#[export] Instance mem_ops : BlockOps mem_blocks := {
  bl_bread _ b := s ← getS;
    let h := fresh (dom (mb_held s)) in
    modS (fun s => MemBlocks (mb_disk s) (<[h := (b, true)]> (mb_held s)) (mb_log s)) ;; mret h;
  bl_data h := x ← mb_buf h; s ← getS; mret (mb_disk s x.1);
  bl_store h d := x ← mb_buf h; modS (fun s => MemBlocks (dset (mb_disk s) x.1 d) (<[h := (x.1, false)]> (mb_held s)) (mb_log s));
  bl_log_write h := x ← mb_buf h; modS (fun s => MemBlocks (mb_disk s) (<[h := (x.1, true)]> (mb_held s)) ({[x.1]} ∪ mb_log s));
  bl_release h := x ← mb_buf h; modS (fun s => MemBlocks (mb_disk s) (delete h (mb_held s)) (mb_log s))
}.

Definition mem_st (s : mem_blocks) (v : Z -> block) (hs : gmap nat (Z * bool)) (L : gset Z) : Prop :=
  s = MemBlocks v hs L /\ (forall b, block_ok (v b)).

Lemma mb_buf_wp s v hs L h b c Q : mem_st s v hs L -> hs !! h = Some (b, c) -> Q (b, c) s -> wp (mb_buf h) s Q.
Proof. intros [-> _] Hh HQ. unfold mb_buf. apply wp_bind, wp_getS. by eapply wp_deref. Qed.

#[export] Program Instance mem_laws (dev : nat) : Blocks mem_blocks dev := {
  bl_ok b := True;
  bl_cap := 10;
  bl_st := mem_st
}.
Next Obligation. by intros dev s v hs L b [_ H] _. Qed.
Next Obligation.
  intros dev s v hs L b [-> H] _ _ _. cbn. apply wp_bind, wp_getS, wp_bind, wp_modS, wp_ret. cbn [mb_disk mb_held mb_log].
  split; [apply not_elem_of_dom, is_fresh|]. by split.
Qed.
Next Obligation. intros dev s v hs L h b c Hs Hh. apply wp_bind. eapply mb_buf_wp; [done..|]. apply wp_bind, wp_getS, wp_ret. split; [|done]. by destruct Hs as [-> _]. Qed.
Next Obligation.
  intros dev s v hs L h b c d Hs Hh Hd. apply wp_bind. eapply mb_buf_wp; [done..|]. apply wp_modS. destruct Hs as [-> H]. split; [done|]. intros b'. unfold dset. by case_decide.
Qed.
Next Obligation. intros dev s v hs L h b c Hs Hh _. apply wp_bind. eapply mb_buf_wp; [done..|]. apply wp_modS. by destruct Hs as [-> H]. Qed.
Next Obligation. intros dev s v hs L h b Hs Hh. apply wp_bind. eapply mb_buf_wp; [done..|]. apply wp_modS. by destruct Hs as [-> H]. Qed.

Definition demo_sb : native_superblock := NativeSuperblock 16 11 0 2 2 4 15.
Definition demo_ip : native_inode := NativeInode (5 :: replicate 12 0) 0 1 1 true true T_FILE 0 0 1 3.
Definition demo_disk (b : Z) : block :=
  if b =? 1 then put32s (zero_block) 0 [16; 11; 0; 2; 2; 4; 15]
  else if b =? 2 then put_dinode zero_block (dinode_off 1) demo_ip
  else if b =? 4 then <[0%nat := 63]> zero_block
  else if b =? 5 then splice zero_block 0 [97; 98; 99]
  else zero_block.
Definition demo_fs (d : dev_holder) : fsys mem_blocks :=
  Fsys (MemBlocks demo_disk ∅ ∅) [VfsSuperblock (Some (Sbpriv demo_sb 0)) None] [demo_ip] d.

Lemma block_ok_dec d : (length d =? 1024)%nat && forallb (fun x => (0 <=? x) && (x <? 256)) d = true -> block_ok d.
Proof.
  intros [Hl Hb]%andb_true_iff. apply Nat.eqb_eq in Hl. split; [done|]. apply Forall_forall. intros x Hx%list_elem_of_In. eapply forallb_forall in Hb; [|done].
  apply andb_true_iff in Hb as [H1%Z.leb_le H2%Z.ltb_lt]. done.
Qed.
Lemma demo_disk_ok b : block_ok (demo_disk b).
Proof. apply block_ok_dec. unfold demo_disk. repeat (case_match; [by vm_compute|]). by vm_compute. Qed.

Lemma demo_geometry : geometry (BL := mem_laws 0) demo_sb.
Proof. split; try done. Qed.

Lemma demo_used b : 0 <= b < 16 -> used demo_sb demo_disk b = (b <? 6).
Proof.
  intros Hb. assert (forallb (fun b => Bool.eqb (used demo_sb demo_disk b) (b <? 6)) (seqZ 0 16) = true) as HF by (vm_compute; reflexivity).
  rewrite forallb_forall in HF. apply Bool.eqb_prop, HF. apply list_elem_of_In, elem_of_seqZ. lia.
Qed.

Lemma demo_slot p : slot demo_disk (addrs demo_ip) p <> 0 -> (p < NPOS)%nat -> p = 0%nat.
Proof.
  unfold slot. destruct (decide (p <= 12)%nat) as [H|]; [|by rewrite decide_True]. intros Hne _. do 13 (destruct p as [|p]; [done|]). lia.
Qed.

Lemma demo_file_ok : file_ok demo_sb demo_disk (addrs demo_ip).
Proof.
  split; [done| |].
  - intros p Hp Hne. rewrite (demo_slot p Hne Hp). by vm_compute.
  - intros p q Hp Hq Hne E. rewrite (demo_slot p), (demo_slot q) by (done || congruence). done.
Qed.

Lemma demo_open d : open_file (BL := mem_laws 0) 0 demo_sb (demo_fs d) demo_disk ∅ 0 demo_ip.
Proof.
  split; try done.
  - split; [|by eexists]. split; [done|]. apply demo_disk_ok.
  - intros b Hb. assert (0 <= b < 5) by exact Hb. rewrite demo_used by lia. apply Z.ltb_lt. lia.
  - apply demo_file_ok.
  - intros o Ho. assert (0 <= o < 3) by exact Ho. unfold fblock. by rewrite Z.div_small by (unfold BSIZE; lia).
  - split; [done|]. split; [by repeat constructor|]. split; [done|]. split; [|done]. by repeat constructor.
Qed.

Lemma demo_free : free demo_sb demo_disk = list_to_set (seqZ 6 10).
Proof. by vm_compute. Qed.

Definition demo : fsys mem_blocks := demo_fs (DevHolder [] [] []).

Lemma balloc_outcomes_witness : exists b s', balloc 0 demo = inr (b, s') /\ data_block demo_sb b /\ used demo_sb demo_disk b = false.
Proof.
  pose proof (demo_open (DevHolder [] [] [])) as [Hs _ _ Hm _ _ _ _ _].
  pose proof (balloc_outcomes 0 demo_sb demo_geometry demo demo_disk ∅ ∅ Hs Hm (held_used_empty _ _) ltac:(apply Nat.leb_le; reflexivity) ltac:(apply Nat.leb_le; reflexivity)) as H.
  rewrite decide_False in H by (rewrite demo_free; by vm_compute). destruct H as (b & s' & E & Hb & Hu & _). by exists b, s'.
Defined.

Lemma readi_contents_witness : exists r s', readi (fun _ => None) 0 1 5 [0; 0; 0; 0] demo = inr (r, s') /\ r = (2, [98; 99; 0; 0]).
Proof.
  destruct (readi_contents 0 demo_sb demo_geometry (fun _ => None) demo demo_disk ∅ 0 demo_ip 1 5 [0; 0; 0; 0] (demo_open _)) as (r & s' & E & _ & _ & Er);
    [done|by vm_compute|by vm_compute|]. exists r, s'. split; [exact E|]. rewrite Er. by vm_compute.
Defined.

Lemma writei_contents_witness : exists s' v' ip', writei (fun _ => None) 0 [120; 121] 2 2 demo = inr (2, s') /\ contents v' ip' = [97; 98; 120; 121] /\ icache s' !! 0%nat = Some ip'.
Proof.
  pose proof (writei_contents 0 demo_sb demo_geometry (fun _ => None) demo demo_disk ∅ 0 demo_ip [120; 121] 2 (demo_open _)) as H.
  rewrite decide_True in H by (split; by vm_compute).
  destruct H as (r & s' & E & -> & v' & ip' & L' & O' & _ & W); [done|by repeat constructor|by vm_compute|by vm_compute| |].
  { intros _. rewrite demo_free. split; apply Nat.leb_le; by vm_compute. }
  exists s', v', ip'. split; [exact E|]. split; [|apply O']. rewrite (fw_contents _ _ _ _ _ _ _ _ _ W). by vm_compute.
Defined.

Lemma itrunc_frees_witness : exists s', itrunc 0 demo = inr (tt, s') /\ icache s' !! 0%nat = Some (truncated demo_ip).
Proof.
  destruct (itrunc_frees 0 demo_sb demo_geometry demo demo_disk ∅ 0 demo_ip (demo_open _)) as ([] & s' & E & v' & L' & _ & S' & _); [by vm_compute|apply Nat.leb_le; by vm_compute|].
  exists s'. split; [exact E|]. by eapply inode_step_lookup.
Defined.
End FsDemo.
