(* ===== verification/FsLog.v ===== *)
(** * The native file system on the log and the buffer cache

    [FsFile] proves the file system correct on any block layer that keeps the laws of
    [Blocks].  Here the buffer cache of [BufCache] with the log of [Log] is shown to be
    such a layer while a transaction runs, and [begin_op] and [end_op] to bring its states
    about and to commit them. *)

From S2P Require Import Prelude BufCache Log Device NativeFs FsFile.

Section ops.
Context (cg : Z) (is_loop isloop : Z -> bool).

(** What native_fs.c calls; a buffer is its index in the cache. *)
#[local] Instance log_ops : BlockOps lsys := {
  bl_bread dev b := onbc (bread cg is_loop (Z.of_nat dev) b);
  bl_data h := x ← buf_at h; mret (bdata x);
  bl_store h v := onbc (modS (upd_buf h (set_bdata v)));
  bl_log_write h := log_write cg is_loop isloop h;
  bl_release h := onbc (buf_cache_release h)
}.
End ops.

Section fslog.
Context (cg : Z) (is_loop isloop : Z -> bool) (dev : nat) (logstart nlog : Z).
Notation d := (Z.of_nat dev).
Hypothesis Hd : d <> 0.
Hypothesis Hloop : is_loop d = false.
Hypothesis Hnl : isloop d = false.

(** The blocks of the device outside the log area. *)
Definition home_block (b : Z) : Prop := 0 <= b < FSSIZE /\ ~ logstart <= b < logstart + nlog.

(** The log has room for what the running transaction may still add.  The code refuses even a block that is in the log
    already when the log is full, so a transaction may count on one block less than [MAXOPBLOCKS]. *)
Record lroom (g : log) (L : gset Z) : Prop := {
  lr_ready : ready d g;
  lr_start : start g = logstart;
  lr_size : lsize g = nlog;
  lr_out : outstanding g = 1;
  lr_idle : committing g = false;
  lr_logged : forall b, b ∈ L -> b ∈ homes g;
  lr_room : lh_n g + MAXOPBLOCKS <= Z.min LOGSIZE (nlog - 1) + Z.of_nat (size L)
}.

(** Held buffers whose block is not in the log take a buffer of their own. *)
Definition loose (g : log) (hs : gmap nat (Z * bool)) : gmap nat (Z * bool) := filter (fun x => x.2.1 ∉ homes g) hs.

(** A state of the transaction that began on the disk [D], with [tr] written so far. *)
Record lst (D : Z -> block) (tr : list (Z * Z * block)) (s : lsys) (v : Z -> block) (hs : gmap nat (Z * bool)) (L : gset Z) : Prop := {
  l_room : lroom (lg s) L;
  l_blk : exists l, blk_ok d (bc s) l;
  l_view b : home_block b -> view d (bc s) b = v b /\ block_ok (v b);
  l_held h b : held d (bc s) h b <-> exists c, hs !! h = Some (b, c);
  l_home h b c : hs !! h = Some (b, c) -> home_block b;
  l_clean h b : hs !! h = Some (b, true) -> stable d (bc s) b;
  l_pinned b : pinned d (bc s) b <-> b ∈ homes (lg s);
  l_busy : Z.of_nat (busy (bc s)) = lh_n (lg s) + Z.of_nat (size (loose (lg s) hs));
  l_store : store (bc s) d = D;
  l_trace : wtrace (bc s) = tr;
  l_disk : recovered (lg s) D D
}.

Lemma loose_le g hs : (size (loose g hs) <= size hs)%nat.
Proof. apply map_subseteq_size, map_filter_subseteq. Qed.
Lemma loose_ext g g' hs : homes g' = homes g -> loose g' hs = loose g hs.
Proof. unfold loose. by intros ->. Qed.
Lemma size_loose_insert g hs h b c : hs !! h = None -> size (loose g (<[h := (b, c)]> hs)) = (size (loose g hs) + if decide (b ∈ homes g) then 0 else 1)%nat.
Proof.
  intros Hn. unfold loose. case_decide as Hb.
  - rewrite map_filter_insert_False by (cbn; tauto). rewrite delete_id by done. lia.
  - rewrite map_filter_insert_True by done. rewrite map_size_insert_None; [lia|]. by apply map_lookup_filter_None_2; left.
Qed.
Lemma size_loose_delete g hs h b c : hs !! h = Some (b, c) -> size (loose g hs) = (size (loose g (delete h hs)) + if decide (b ∈ homes g) then 0 else 1)%nat.
Proof. intros Hh. rewrite <- (size_loose_insert g _ h b c) by apply lookup_delete_eq. by rewrite insert_delete_id. Qed.
Lemma size_loose_flag g hs h b c c' : hs !! h = Some (b, c) -> size (loose g (<[h := (b, c')]> hs)) = size (loose g hs).
Proof. intros Hh. rewrite (size_loose_delete g (<[h := _]> hs) h b c') by apply lookup_insert_eq. rewrite delete_insert_eq. by rewrite <- (size_loose_delete g hs h b c). Qed.

(** When the block of a held buffer enters the log, its buffer is counted there. *)
Lemma size_loose_logged g g' hs h b c : hs !! h = Some (b, c) -> b ∉ homes g -> homes g' = homes g ++ [b] ->
  (forall k c', hs !! k = Some (b, c') -> k = h) -> size (loose g hs) = S (size (loose g' hs)).
Proof.
  intros Hh Hb Hg Hu. rewrite (size_loose_delete g hs h b c Hh), (size_loose_delete g' hs h b c Hh).
  rewrite (decide_False (P := b ∈ homes g)), (decide_True (P := b ∈ homes g')) by (rewrite ?Hg; set_solver). rewrite Nat.add_0_r, Nat.add_1_r. do 2 f_equal.
  apply map_filter_ext. intros k [b' c'] [Hne Hk]%lookup_delete_Some. cbn. rewrite Hg. enough (b' <> b) by set_solver. intros ->. by apply Hne, symmetry, (Hu k c').
Qed.

(** ** The laws *)

#[local] Instance lops : BlockOps lsys := log_ops cg is_loop isloop.

Section laws.
Context (D : Z -> block) (tr : list (Z * Z * block)).
Implicit Types (s : lsys) (v : Z -> block) (hs : gmap nat (Z * bool)) (L : gset Z).

Lemma lst_buf s v hs L h b c : lst D tr s v hs L -> hs !! h = Some (b, c) ->
  exists l x, blk_ok d (bc s) l /\ caches d (bc s) h b x /\ locked x = true /\ bdata x = v b.
Proof.
  intros Hs Hh. destruct (l_blk _ _ _ _ _ _ Hs) as [l Hbk]. destruct (proj2 (l_held _ _ _ _ _ _ Hs h b)) as (x & Hca & Hlk); [by exists c|].
  exists l, x. split; [done|]. split; [done|]. split; [done|]. rewrite <- (proj1 (l_view _ _ _ _ _ _ Hs b (l_home _ _ _ _ _ _ Hs h b c Hh))).
  symmetry. by apply (view_cached d _ l h); [apply Hbk| |].
Qed.

Lemma lst_inj s v hs L h k b c c' : lst D tr s v hs L -> hs !! h = Some (b, c) -> hs !! k = Some (b, c') -> k = h.
Proof.
  intros Hs Hh Hk. destruct (lst_buf s v hs L h b c Hs Hh) as (l & x & Hbk & Hx & _). destruct (lst_buf s v hs L k b c' Hs Hk) as (_ & y & _ & Hy & _).
  by apply (caches_unique d (bc s) l k h b y x (bk_ok _ _ _ Hbk) Hd).
Qed.

Lemma lst_n s v hs L : lst D tr s v hs L -> 0 <= lh_n (lg s) <= LOGSIZE /\ (busy (bc s) <= 30 + size hs)%nat.
Proof.
  intros Hs. destruct (lr_ready _ _ (l_room _ _ _ _ _ _ Hs)) as [_ Hn Hm _ _]. pose proof (l_busy _ _ _ _ _ _ Hs) as Hz. pose proof (loose_le (lg s) hs).
  unfold LOGSIZE, MAXOPBLOCKS in *. lia.
Qed.

Lemma lst_bread s v hs L b : lst D tr s v hs L -> home_block b -> (forall h x, hs !! h = Some x -> x.1 <> b) -> (size hs <= 1)%nat ->
  wp (bl_bread dev b) s (fun h s' => hs !! h = None /\ lst D tr s' v (<[h := (b, true)]> hs) L).
Proof.
  intros Hs Hb Hno Hsz. destruct (lst_n s v hs L Hs) as [_ Hz]. pose proof Hs as [Hr [l Hbk] Hv Hhe Hho Hcl Hp Hbz Hst Htr Hdk]. destruct s as [g c0]. cbn [lg bc] in *.
  assert (forall h, ~ held d c0 h b) as Hnh by (intros h (c & Hc)%Hhe; by apply (Hno h (b, c))).
  destruct (bread_law cg is_loop d Hd Hloop c0 l b Hbk (proj1 Hb) Hnh) as (h & x & c1 & E & Hbk1 & Hsd & V1 & _ & (y & Hy & _) & _ & P1 & H1 & Z1 & Z2); [unfold NBUF; lia|].
  pose proof Hsd as (S1 & S2 & _). assert (hs !! h = None) as Hn.
  { destruct (hs !! h) as [[b' c']|] eqn:Eh; [|done]. exfalso. destruct (proj2 (H1 h b')) as (y' & Hy' & _); [left; apply Hhe; by exists c'|].
    destruct Hy as (Ey & _ & Eb & _), Hy' as (Ey' & _ & Eb' & _). apply (Hno h (b', c') Eh). cbn. congruence. }
  exists h, (Lsys g c1). split; [exact (onbc_run _ g c0 _ _ E)|]. split; [done|]. split; cbn [lg bc]; try done.
  - by exists l.
  - intros b' Hb'. rewrite V1. by apply Hv.
  - intros k b'. rewrite H1, Hhe. split.
    + intros [[c Hc]|[-> ->]]; [exists c; rewrite lookup_insert_ne by congruence; done|exists true; apply lookup_insert_eq].
    + intros [c [[<- [= <- <-]]|[_ Hc]]%lookup_insert_Some]; [by right|left; by exists c].
  - intros k b' c [[_ [= <- <-]]|[_ Hk]]%lookup_insert_Some; [done|by eapply Hho].
  - intros k b' [[_ [= <-]]|[_ Hk]]%lookup_insert_Some; (apply (stable_same d c0); [by split_and!|]); [|by eapply Hcl].
    destruct (cost_ex d Hd c0 b l Hbk) as [? [[? _]|[? _]]]; [by left|right; by apply (view_clean d Hd c0 l)].
  - intros b'. by rewrite P1.
  - rewrite size_loose_insert by done. case_decide as Hin; [rewrite Z1 by (by apply Hp)|rewrite Z2 by (by rewrite Hp)]; lia.
  - by rewrite S1.
  - by rewrite S2.
Qed.

Lemma lst_data s v hs L h b c : lst D tr s v hs L -> hs !! h = Some (b, c) -> wp (bl_data h) s (fun e s' => e = v b /\ lst D tr s' v hs L).
Proof.
  intros Hs Hh. destruct (lst_buf s v hs L h b c Hs Hh) as (l & x & _ & (Hx & _) & _ & <-). destruct s as [g c0].
  apply wp_bind. exists x, (Lsys g c0). split; [by apply buf_at_run|]. by apply wp_ret.
Qed.

Lemma lst_store s v hs L h b c e : lst D tr s v hs L -> hs !! h = Some (b, c) -> block_ok e ->
  wp (bl_store h e) s (fun _ s' => lst D tr s' (dset v b e) (<[h := (b, false)]> hs) L).
Proof.
  intros Hs Hh He. destruct (lst_buf s v hs L h b c Hs Hh) as (l & x & Hbk & Hca & Hlk & _). pose proof (lst_inj s v hs L h) as Hinj.
  pose proof Hs as [Hr _ Hv Hhe Hho Hcl Hp Hbz Hst Htr Hdk]. destruct s as [g c0]. cbn [lg bc] in *.
  destruct (set_data_law d Hd c0 l h b x e Hbk Hca Hlk) as (Hbk1 & (S1 & S2 & _) & _ & V1 & P1 & H1 & Z1).
  exists tt, (Lsys g (upd_buf h (set_bdata e) c0)). split; [done|]. set (c1 := upd_buf h (set_bdata e) c0) in *. clearbody c1. split; cbn [lg bc]; try done.
  - by exists l.
  - intros b' Hb'. rewrite V1. unfold dset. case_decide; [done|]. by apply Hv.
  - intros k b'. rewrite H1, Hhe. split; intros [c' Hc'].
    + destruct (decide (k = h)) as [->|Hne]; [exists false; simplify_eq; apply lookup_insert_eq|exists c'; by rewrite lookup_insert_ne].
    + apply lookup_insert_Some in Hc' as [[<- [= <- <-]]|[_ Hc']]; [by exists c|by exists c'].
  - intros k b' c' [[<- [= <- <-]]|[_ Hk]]%lookup_insert_Some; by eapply Hho.
  - intros k b' [[_ [=]]|[Hne Hk]]%lookup_insert_Some. destruct (Hcl k b' Hk) as [?|Hs']; [left; by apply P1|right].
    rewrite V1, S1, decide_False; [done|]. intros ->. by apply Hne, symmetry, (Hinj k b c true Hs Hh).
  - intros b'. by rewrite P1.
  - by rewrite Z1, size_loose_flag with (c := c).
  - by rewrite S1.
  - by rewrite S2.
Qed.

(** The log takes a block once; its buffer is then counted by the log. *)
Lemma lroom_logged g g' L b : lroom g L -> home_block b -> logged g b g' -> lh_n g < Z.min LOGSIZE (nlog - 1) -> lroom g' ({[b]} ∪ L).
Proof.
  intros [[Hge Hn Hm Hh Hnd] H1 H2 H3 H4 H5 H6] Hb (E1 & E2 & E3 & E4 & E5 & E6 & Hc) Hlt.
  assert (forall x, in_log g' x <-> in_log g x) as Hil by (intros x; unfold in_log; by rewrite E1, E2).
  assert (~ in_log g b) as Hnb by (unfold in_log; rewrite H1, H2; apply Hb).
  assert (forall x, x ∈ L -> x ∈ homes g') as Hsub by (intros x Hx%H5; destruct Hc as [(_ & _ & ->)|(_ & _ & ->)]; set_solver).
  assert (b ∈ homes g') as Hin by (destruct Hc as [(? & _ & ->)|(_ & _ & ->)]; set_solver).
  split; try congruence.
  - split; [destruct Hge; split; congruence|destruct Hc as [(_ & -> & _)|(_ & -> & _)]; lia|destruct Hc as [(_ & -> & _)|(_ & -> & _)]; lia|..].
    + destruct Hc as [(_ & _ & ->)|(_ & _ & ->)]; [|apply Forall_app; split; [|apply Forall_singleton; rewrite Hil; split; [apply Hb|done]]];
        apply (Forall_impl _ _ _ Hh); intros x; by rewrite Hil.
    + destruct Hc as [(_ & _ & ->)|(Hni & _ & ->)]; [done|]. apply NoDup_app. split; [done|]. split; [set_solver|apply NoDup_singleton].
  - intros x [->%elem_of_singleton|Hx]%elem_of_union; [done|by apply Hsub].
  - destruct Hc as [(_ & -> & _)|(Hni & -> & _)].
    + assert (size L <= size ({[b]} ∪ L))%nat by (apply subseteq_size; set_solver). lia.
    + rewrite size_union by (apply disjoint_singleton_l; intros ?%H5; done). rewrite size_singleton. lia.
Qed.

Lemma lst_log s v hs L h b c : lst D tr s v hs L -> hs !! h = Some (b, c) -> (size ({[b]} ∪ L) <= 9)%nat ->
  wp (bl_log_write h) s (fun _ s' => lst D tr s' v (<[h := (b, true)]> hs) ({[b]} ∪ L)).
Proof.
  intros Hs Hh Hsz. destruct (lst_buf s v hs L h b c Hs Hh) as (l & x & Hbk & Hca & Hlk & _). pose proof (lst_inj s v hs L h) as Hinj.
  pose proof (lst_n s v hs L Hs) as [Hn _]. pose proof Hs as [Hr _ Hv Hhe Hho Hcl Hp Hbz Hst Htr Hdk]. destruct s as [g c0]. cbn [lg bc] in *.
  pose proof Hr as [[Hge _ _ _ _] Ea En Eo _ _ Hroom]. assert (size L <= size ({[b]} ∪ L))%nat as HL by (apply subseteq_size; set_solver).
  assert (lh_n g < Z.min LOGSIZE (nlog - 1)) as Hlt by (unfold MAXOPBLOCKS in Hroom; lia).
  destruct (log_write_run cg is_loop d Hd isloop Hnl g c0 l h b x Hbk Hca Hlk) as (g1 & c1 & x1 & E & Hlog & Hbk1 & (S1 & S2 & _) & _ & _ & V1 & P1 & H1 & Z1);
    [apply Hge|lia|lia|lia|]. exists tt, (Lsys g1 c1). split; [exact E|]. pose proof (lroom_logged g g1 L b Hr (Hho _ _ _ Hh) Hlog Hlt) as Hr1.
  assert (forall b', pinned d c1 b' <-> b' ∈ homes g1) as P2.
  { intros b'. rewrite P1, Hp. destruct Hlog as (_ & _ & _ & _ & _ & _ & [(? & _ & ->)|(_ & _ & ->)]); set_solver. }
  split; cbn [lg bc]; try done.
  - by exists l.
  - intros b' Hb'. rewrite V1. by apply Hv.
  - intros k b'. rewrite H1, Hhe. split; intros [c' Hc'].
    + destruct (decide (k = h)) as [->|Hne]; [exists true; simplify_eq; apply lookup_insert_eq|exists c'; by rewrite lookup_insert_ne].
    + apply lookup_insert_Some in Hc' as [[<- [= <- <-]]|[_ Hc']]; [by exists c|by exists c'].
  - intros k b' c' [[<- [= <- <-]]|[_ Hk]]%lookup_insert_Some; by eapply Hho.
  - intros k b' [[_ [= <-]]|[_ Hk]]%lookup_insert_Some; [left; apply P1; by right|]. destruct (Hcl k b' Hk) as [?|E']; [left; apply P1; by left|right]. by rewrite V1, S1.
  - rewrite (size_loose_flag _ _ _ _ c) by done. destruct Hlog as (_ & _ & _ & _ & _ & _ & [(_ & -> & E')|(Hni & -> & E')]).
    + rewrite (loose_ext g g1) by done. lia.
    + rewrite (size_loose_logged g g1 hs h b c) in Hbz; [lia|done..|]. intros k c' Hk. by apply (Hinj k b c c' Hs Hh).
  - by rewrite S1.
  - by rewrite S2.
  - destruct Hlog as (Es & _). unfold recovered, hdr_n in *. rewrite Es. destruct Hdk as (? & ? & _). done.
Qed.

Lemma lst_release s v hs L h b : lst D tr s v hs L -> hs !! h = Some (b, true) -> wp (bl_release h) s (fun _ s' => lst D tr s' v (delete h hs) L).
Proof.
  intros Hs Hh. destruct (lst_buf s v hs L h b true Hs Hh) as (l & x & Hbk & Hca & Hlk & _).
  pose proof Hs as [Hr _ Hv Hhe Hho Hcl Hp Hbz Hst Htr Hdk]. destruct s as [g c0]. cbn [lg bc] in *.
  destruct (release_held d Hd c0 l h b Hbk) as (c1 & l1 & E & Hbk1 & Hsame & H1 & Z1); [by exists x|by eapply Hcl|]. pose proof Hsame as ((S1 & S2 & _) & V1 & P1).
  exists tt, (Lsys g c1). split; [exact (onbc_run _ g c0 _ _ E)|]. split; cbn [lg bc]; try done.
  - by exists l1.
  - intros b' Hb'. rewrite V1. by apply Hv.
  - intros k b'. rewrite H1, Hhe. split.
    + intros [[c Hc] Hne]. exists c. by rewrite lookup_delete_ne.
    + intros [c [Hne Hc]%lookup_delete_Some]. split; [by exists c|done].
  - intros k b' c [_ Hk]%lookup_delete_Some. by eapply Hho.
  - intros k b' [_ Hk]%lookup_delete_Some. apply (stable_same d c0); [done|]. by eapply Hcl.
  - intros b'. by rewrite P1.
  - rewrite (size_loose_delete g hs h b true Hh) in Hbz. case_decide as Hin.
    + specialize (Z1 0%nat ltac:(left; split; [by apply Hp|done])). lia.
    + specialize (Z1 1%nat ltac:(right; split; [by rewrite Hp|done])). lia.
  - by rewrite S1.
  - by rewrite S2.
Qed.

(** The cache and the log keep what the file system relies on. *)
#[local] Instance log_laws : Blocks lsys dev := {
  bl_ok := home_block;
  bl_cap := 9;
  bl_st := lst D tr;
  bl_block s v hs L b H Hb := proj2 (l_view _ _ _ _ _ _ H b Hb);
  bl_bread_law := lst_bread;
  bl_data_law := lst_data;
  bl_store_law := lst_store;
  bl_log_law := lst_log;
  bl_release_law := lst_release
}.
End laws.

(** ** Transactions *)

(** The log at its place on the disk, empty. *)
Definition empty_log : log := LogS logstart nlog 0 false d 0 (replicate (Z.to_nat LOGSIZE) 0).

(** Between transactions: nothing is held, pinned or logged, and the disk is [D]. *)
Record settled (D : Z -> block) (s : lsys) : Prop := {
  se_ready : ready d (lg s);
  se_start : start (lg s) = logstart;
  se_size : lsize (lg s) = nlog;
  se_out : outstanding (lg s) = 0;
  se_idle : committing (lg s) = false;
  se_n : lh_n (lg s) = 0;
  se_quiet : quiet d (bc s);
  se_busy : busy (bc s) = 0%nat;
  se_pinned b : ~ pinned d (bc s) b;
  se_store : store (bc s) d = D;
  se_disk : recovered (lg s) D D
}.

Lemma begin_settled D s : settled D s -> MAXOPBLOCKS < nlog -> (forall b, home_block b -> block_ok (D b)) ->
  exists s', begin_op s = inr (tt, s') /\ lst D (wtrace (bc s)) s' D ∅ ∅.
Proof.
  intros [H1 H2 H3 H4 H5 H6 H7 H8 H9 H10 H11] Hn HD. destruct s as [g c]. cbn [lg bc] in *. pose proof H7 as (l & Hbk & Hnh & _).
  assert (homes g = []) as Eh by (unfold homes; by rewrite H6).
  eexists. split; [unfold begin_op; mrun; cbn [lg]; rewrite H5, H4, H6; reflexivity|]. cbn [lg bc]. split; cbn [lg bc]; try done.
  - split; cbn; try done; [|lia|unfold LOGSIZE, MAXOPBLOCKS in *; rewrite size_empty; lia].
    destruct H1 as [[] ? ? ? ?]. by split.
  - by exists l.
  - intros b Hb. split; [|by apply HD]. rewrite <- H10. by apply (unpinned_view d Hd).
  - intros h b. split; [intros ?%Hnh; done|intros [? ?]; done].
  - intros b. change (homes (set_outstanding _ g)) with (homes g). rewrite Eh. split; [intros ?%H9; done|intros ?%not_elem_of_nil; done].
  - change (lh_n (set_outstanding _ g)) with (lh_n g). unfold loose. by rewrite H8, H6, map_filter_empty, map_size_empty.
Qed.

(** What a crash after any of the writes [t] to the disk [D] leaves, once recovered. *)
Definition crashes_to (D : Z -> block) (t : list (Z * block)) (P : (Z -> block) -> Prop) : Prop :=
  forall j, exists V, recovers empty_log (replay D (take j t)) V /\ P V.

Lemma recovers_here g D V : start g = logstart -> lsize g = nlog -> recovers g D V -> recovers empty_log D V.
Proof. intros H1 H2. by apply recovers_layout. Qed.

(** [end_op] commits: the disk then has the transaction's blocks, and a crash on the way leaves all or none of them. *)
Lemma end_lst D tr s v L : lst D tr s v ∅ L ->
  exists s' t, end_op cg is_loop s = inr (tt, s') /\ wtrace (bc s') = tr ++ ((fun p => (d, p.1, p.2)) <$> t) /\
    settled (store (bc s') d) s' /\ (forall b, store (bc s') d b = replay D t b) /\ (forall b, home_block b -> store (bc s') d b = v b) /\
    crashes_to D t (fun V => (forall b, home_block b -> V b = D b) \/ (forall b, home_block b -> V b = v b)).
Proof.
  intros [[H1 H2 H3 H4 H5 _ H6] [l Hbk] Hv Hhe _ _ Hp Hbz Hst Htr Hdk]. destruct s as [g c]. cbn [lg bc] in *. set (g1 := set_committing true (set_outstanding 0 g)).
  assert (ready d g1) as Hg1 by (destruct H1 as [[] ? ? ? ?]; by split). pose proof H1 as [_ Hn Hm _ _].
  assert (quiet d c) as Hq. { exists l. split; [done|]. split; [intros h b [? ?]%Hhe; done|]. unfold loose in Hbz. rewrite map_filter_empty, map_size_empty in Hbz. unfold LOGSIZE, MAXOPBLOCKS, NBUF in *. lia. }
  assert (forall b, home_block b -> ~ in_log g b) as Hil by (intros b [_ Hb]; unfold in_log; by rewrite H2, H3).
  assert (forall r, commit cg is_loop (Lsys g1 c) = inr (tt, Lsys (set_n 0 g1) r) -> end_op cg is_loop (Lsys g c) = inr (tt, Lsys (set_committing false (set_n 0 g1)) r)) as Eend.
  { intros r E. unfold end_op. rewrite (bind_run _ _ _ _ _ (modlog_run _ g c)), (bind_run _ _ _ _ _ (getS_run _)). cbn [lg committing outstanding set_outstanding]. rewrite H5, H4.
    change (1 - 1) with 0. rewrite (proj2 (Z.eqb_eq 0 0) eq_refl), (bind_run _ _ _ _ _ (modlog_run _ _ c)). fold g1. by rewrite (bind_run _ _ _ _ _ E). }
  assert (forall r, quiet d r -> busy r = 0%nat -> (forall b, ~ pinned d r b) -> recovered g1 (store r d) (store r d) -> settled (store r d) (Lsys (set_committing false (set_n 0 g1)) r)) as Hset.
  { intros r Q1 Q2 Q3 Q4. split; cbn; try done. destruct H1 as [[] ? ? ? ?]. split; cbn; try done; try lia; apply Forall_nil + apply NoDup_nil_2; done. }
  destruct (decide (lh_n g = 0)) as [E0|Hne].
  - assert (homes g = []) as Eh by (unfold homes; by rewrite E0). assert (forall b, ~ pinned d c b) as Hnp by (intros b; rewrite Hp, Eh; apply not_elem_of_nil).
    assert (forall b, home_block b -> store c d b = v b) as Ev by (intros b Hb; rewrite <- (proj1 (Hv b Hb)); symmetry; by apply (unpinned_view d Hd)).
    exists (Lsys (set_committing false (set_n 0 g1)) c), []. cbn [bc fmap list_fmap]. rewrite app_nil_r. split; [|split; [done|split; [|split; [by rewrite Hst|split; [done|]]]]].
    + apply Eend. unfold commit. rewrite (bind_run _ _ _ _ _ (getS_run _)). cbn [lg]. rewrite (set_n_id g1) by done. change (lh_n g1) with (lh_n g). by rewrite E0.
    + apply Hset; [done|unfold loose in Hbz; rewrite map_filter_empty, map_size_empty in Hbz; lia|done|]. by rewrite Hst.
    + intros j. exists D. split; [|by left]. rewrite take_nil. apply (recovers_here g); [done..|]. apply recovered_recovers; [lia|done].
  - destruct (commit_run cg is_loop d Hd Hloop g1 c Hg1) as (c' & t & k & E & Hq' & Hb & Hnp & Ht & Hs' & Hrec & Hall); [change (lh_n g1) with (lh_n g); lia|done|done|by rewrite Hst|].
    rewrite (length_homes d g1 Hg1) in Hb. change (lh_n g1) with (lh_n g) in Hb. destruct Hrec as (R1 & R2 & R3). exists (Lsys (set_committing false (set_n 0 g1)) c'), t.
    split; [by apply Eend|]. split; [cbn [bc]; by rewrite Ht, Htr|]. split; [|split; [|split]].
    + apply Hset; [done| |done|by split]. unfold loose in Hbz. rewrite map_filter_empty, map_size_empty in Hbz. lia.
    + intros b. cbn [bc]. by rewrite Hs', Hst.
    + intros b Hb'. cbn [bc]. rewrite <- (R3 b) by (by apply Hil). by apply Hv.
    + intros j. exists (if decide (j < k)%nat then D else view d c). split; [rewrite <- Hst; apply (recovers_here g1); [done..|apply Hall]|]. case_decide; [by left|right]. intros b Hb'. by apply Hv.
Qed.
End fslog.
