(* ===== verification/VfsFile.v ===== *)
(** * Open files: kernel/fs/vfs_file.c, the descriptors of kernel/sysfile.c, pipealloc (kernel/pipe.c), opening and closing of
    cgroup files (kernel/fs/cgfs.c)

    The table of open files, the descriptor tables of the processes, the pipes, and below them the control groups of
    [Cgroup] and some file system reached through the interface [InodeOps] (the [i_op] of an inode, [begin_op] and
    [end_op]).  [proc->ofile[fd]] is the entry of the map [ofile] at the process and the descriptor.  A pipe is an index;
    its page is freed when the entry is [None] again.  [ftable.lock] and the lock of a pipe are held for one step each.
    A call that has to wait stops with [Sleep].  [mntput] belongs to kmount.c and is recorded. *)

From S2P Require Import Prelude Kalloc Cpath Cgroup CgroupTree Pipe BufCache Log Device NativeFs FsFile FsLog.

Definition NFILE : nat := 200.
Definition NFD : nat := 16.

Inductive fdtype := FD_NONE | FD_PIPE | FD_INODE | FD_CG | FD_PROC.
#[global] Instance fdtype_eq_dec : EqDecision fdtype.
Proof. solve_decision. Defined.

(** [struct vfs_file]; the members of the union that one type of file uses are fields of their own. *)
Record vfs_file := VfsF {
  ftype : fdtype;
  f_ref : Z;
  readable : bool;
  writable : bool;
  f_off : Z;
  f_pipe : option nat;
  f_ip : option nat;
  f_mnt : option nat;
  f_cgp : option nat;
  f_cgfilename : list Z;
  f_stats : list Z         (* the union of cpu, pid, ..., mem *)
}.
Definition no_file : vfs_file := VfsF FD_NONE 0 false false 0 None None None None [] [].

Definition with_f_ref v f := VfsF (ftype f) v (readable f) (writable f) (f_off f) (f_pipe f) (f_ip f) (f_mnt f) (f_cgp f) (f_cgfilename f) (f_stats f).
Definition with_ftype v f := VfsF v (f_ref f) (readable f) (writable f) (f_off f) (f_pipe f) (f_ip f) (f_mnt f) (f_cgp f) (f_cgfilename f) (f_stats f).
Definition with_f_mnt v f := VfsF (ftype f) (f_ref f) (readable f) (writable f) (f_off f) (f_pipe f) (f_ip f) v (f_cgp f) (f_cgfilename f) (f_stats f).
Definition with_f_off v f := VfsF (ftype f) (f_ref f) (readable f) (writable f) v (f_pipe f) (f_ip f) (f_mnt f) (f_cgp f) (f_cgfilename f) (f_stats f).
Definition with_f_stats v f := VfsF (ftype f) (f_ref f) (readable f) (writable f) (f_off f) (f_pipe f) (f_ip f) (f_mnt f) (f_cgp f) (f_cgfilename f) v.
Definition as_pipe p w f := VfsF FD_PIPE (f_ref f) (negb w) w (f_off f) (Some p) (f_ip f) (f_mnt f) (f_cgp f) (f_cgfilename f) (f_stats f).
Definition as_inode ip mnt r w f := VfsF FD_INODE (f_ref f) r w 0 (f_pipe f) (Some ip) mnt (f_cgp f) (f_cgfilename f) (f_stats f).
Definition as_cg c name r w f := VfsF FD_CG (f_ref f) r w 0 (f_pipe f) (f_ip f) (f_mnt f) (Some c) name (f_stats f).

(** What this layer calls of the file system an inode belongs to, and the log. *)
Class InodeOps (F : Type) := {
  i_ilock : nat -> M F unit;
  i_iunlock : nat -> M F unit;
  i_iput : nat -> M F unit;
  i_iunlockput : nat -> M F unit;
  i_stati : nat -> M F stat;
  i_readi : forall {V} {BS : ByteSink V}, nat -> Z -> Z -> V -> M F (Z * V);
  i_writei : nat -> list Z -> Z -> Z -> M F Z;
  i_begin_op : M F unit;
  i_end_op : M F unit
}.

(** ** Names of cgroup files (cgfs.h) *)

Inductive cgroup_file_name :=
| CGROUP_PROCS | CGROUP_SUBTREE_CONTROL | CGROUP_MAX_DESCENDANTS | CGROUP_MAX_DEPTH | CPU_WEIGHT | CPU_MAX | PID_MAX | SET_CPU
| SET_FRZ | MEM_MAX | MEM_MIN
| CGROUP_CONTROLLERS | CGROUP_EVENTS | CGROUP_STAT | CPU_STAT | PID_CUR | MEM_CUR | MEM_STAT | IO_STAT.

Definition cgfs_names : list (list Z * cgroup_file_name) :=
  [(word_of "cgroup.procs", CGROUP_PROCS); (word_of "cgroup.subtree_control", CGROUP_SUBTREE_CONTROL);
   (word_of "cgroup.max.descendants", CGROUP_MAX_DESCENDANTS); (word_of "cgroup.max.depth", CGROUP_MAX_DEPTH);
   (word_of "cgroup.controllers", CGROUP_CONTROLLERS); (word_of "cgroup.events", CGROUP_EVENTS); (word_of "cgroup.stat", CGROUP_STAT);
   (word_of "cpu.weight", CPU_WEIGHT); (word_of "cpu.max", CPU_MAX); (word_of "cpu.stat", CPU_STAT); (word_of "pid.max", PID_MAX);
   (word_of "pid.current", PID_CUR); (word_of "cpuset.cpus", SET_CPU); (word_of "cgroup.freeze", SET_FRZ); (word_of "memory.current", MEM_CUR);
   (word_of "memory.max", MEM_MAX); (word_of "memory.min", MEM_MIN); (word_of "memory.stat", MEM_STAT); (word_of "io.stat", IO_STAT)].

(** [strcmp] against each name in turn. *)
Definition get_file_name_constant (filename : list Z) : option cgroup_file_name :=
  (fun x => x.2.2) <$> list_find (fun x => x.1 = filename) cgfs_names.

Definition is_file_writable (k : cgroup_file_name) : bool :=
  match k with
  | CGROUP_CONTROLLERS | CGROUP_EVENTS | CGROUP_STAT | CPU_STAT | PID_CUR | MEM_CUR | MEM_STAT | IO_STAT => false
  | _ => true
  end.
Definition MAX_CGROUP_FILE_NAME_LENGTH : nat := 64.

Record vst (F : Type) := Vst {
  ftable : list vfs_file;
  ofile : gmap (nat * nat) nat;
  pipes : list (option pipe);
  fcg : cgs;
  fs : F;
  mntputs : list (option nat)
}.
Arguments Vst {F}.
Arguments ftable {F}.
Arguments ofile {F}.
Arguments pipes {F}.
Arguments fcg {F}.
Arguments fs {F}.
Arguments mntputs {F}.

Section vfs.
Context {F : Type} {IO : InodeOps F}.

Definition upd_file (f : nat) (g : vfs_file -> vfs_file) (s : vst F) : vst F :=
  Vst (alter g f (ftable s)) (ofile s) (pipes s) (fcg s) (fs s) (mntputs s).
Definition set_ofile (g : gmap (nat * nat) nat -> gmap (nat * nat) nat) (s : vst F) : vst F :=
  Vst (ftable s) (g (ofile s)) (pipes s) (fcg s) (fs s) (mntputs s).
Definition set_pipes (g : list (option pipe) -> list (option pipe)) (s : vst F) : vst F :=
  Vst (ftable s) (ofile s) (g (pipes s)) (fcg s) (fs s) (mntputs s).
Definition mntput (m : option nat) (s : vst F) : vst F :=
  Vst (ftable s) (ofile s) (pipes s) (fcg s) (fs s) (mntputs s ++ [m]).
Definition onfs {A} (m : M F A) : M (vst F) A := fun s =>
  match m (fs s) with inl e => inl e | inr (a, x) => inr (a, Vst (ftable s) (ofile s) (pipes s) (fcg s) x (mntputs s)) end.
Definition oncgs {A} (m : M cgs A) : M (vst F) A := fun s =>
  match m (fcg s) with inl e => inl e | inr (a, x) => inr (a, Vst (ftable s) (ofile s) (pipes s) x (fs s) (mntputs s)) end.
Definition get_file (f : nat) : M (vst F) vfs_file := s ← getS; deref (ftable s !! f).
Definition get_pipe (p : option nat) : M (vst F) (nat * pipe) :=
  s ← getS; i ← deref p; x ← deref (pipes s !! i); x ← deref x; mret (i, x).

(** ** vfs_file.c *)
Definition vfs_filealloc : M (vst F) (option nat) :=
  s ← getS;
  match list_find (fun f => f_ref f = 0) (ftable s) with
  | Some (f, _) => modS (upd_file f (fun x => with_f_mnt None (with_f_ref 1 x))) ;; mret (Some f)
  | None => mret None
  end.

Definition vfs_filedup (f : nat) : M (vst F) nat :=
  x ← get_file f;
  if f_ref x <? 1 then panic "vfs_filedup"
  else modS (upd_file f (fun x => with_f_ref (f_ref x +i 1) x)) ;; mret f.

(** [pipeclose], with the page freed when both ends are closed. *)
Definition close_pipe (p : option nat) (w : bool) : M (vst F) unit :=
  x ← get_pipe p;
  let '(q, freed) := pipeclose x.2 w in
  modS (set_pipes (<[x.1 := if freed : bool then None else Some q]>)).

Definition vfs_fileclose (f : nat) : M (vst F) unit :=
  x ← get_file f;
  if f_ref x <? 1 then panic "vfs_fileclose"
  else
    modS (upd_file f (with_f_ref (f_ref x -i 1))) ;;
    if 0 <? f_ref x -i 1 then mret tt
    else
      modS (upd_file f (fun x => with_ftype FD_NONE (with_f_ref 0 x))) ;;
      match ftype x with
      | FD_PIPE => close_pipe (f_pipe x) (writable x)
      | FD_INODE =>
          modS (mntput (f_mnt x)) ;;
          onfs i_begin_op ;;
          ip ← deref (f_ip x);
          onfs (i_iput ip) ;;
          onfs i_end_op
      | _ => mret tt
      end.

(** [None] for -1, with [st] left alone. *)
Definition vfs_filestat (f : nat) : M (vst F) (option stat) :=
  x ← get_file f;
  match ftype x, f_ip x with
  | FD_INODE, Some ip =>
      onfs (i_ilock ip) ;;
      st ← onfs (i_stati ip);
      onfs (i_iunlock ip) ;;
      mret (Some st)
  | _, _ => mret None
  end.

Definition vfs_fileread {V} {BS : ByteSink V} (killed : bool) (f : nat) (n : Z) (dst : V) : M (vst F) (Z * V) :=
  x ← get_file f;
  if negb (readable x) then mret (-1, dst)
  else match ftype x with
  | FD_PIPE =>
      p ← get_pipe (f_pipe x);
      let '(q, r, dst) := piperead killed p.2 n dst in
      match r with
      | RDone i => modS (set_pipes (<[p.1 := Some q]>)) ;; mret (i, dst)
      | RErr => mret (-1, dst)
      | RSleep => sleep_here
      end
  | FD_INODE =>
      ip ← deref (f_ip x);
      onfs (i_ilock ip) ;;
      r ← onfs (i_readi ip (f_off x) (u32 n) dst);
      (if 0 <? r.1 then modS (upd_file f (fun x => with_f_off (f_off x +u r.1) x)) else mret tt) ;;
      onfs (i_iunlock ip) ;;
      mret r
  | _ => panic "vfs_fileread"
  end.

(** [int max] *)
Definition max_write : Z := (MAXOPBLOCKS - 1 - 1 - 2) / 2 * 512.

(** The [while] loop; a round writes at least one byte or ends it. *)
Fixpoint filewrite_loop (fuel : nat) (f : nat) (addr : list Z) (n i : Z) : M (vst F) Z :=
  match fuel with
  | O => if i <? n then nofuel else mret i
  | S fuel =>
      if i <? n then
        let n1 := if max_write <? n - i then max_write else n - i in
        onfs i_begin_op ;;
        x ← get_file f;
        ip ← deref (f_ip x);
        onfs (i_ilock ip) ;;
        r ← onfs (i_writei ip (take (Z.to_nat n1) (drop (Z.to_nat i) addr)) (f_off x) n1);
        (if 0 <? r then modS (upd_file f (fun x => with_f_off (f_off x +u r) x)) else mret tt) ;;
        onfs (i_iunlock ip) ;;
        onfs i_end_op ;;
        if r <? 0 then mret i
        else if negb (r =? n1) then panic "short vfs_filewrite"
        else filewrite_loop fuel f addr n (i + r)
      else mret i
  end.

Definition vfs_filewrite (killed : bool) (f : nat) (addr : list Z) (n : Z) : M (vst F) Z :=
  x ← get_file f;
  if negb (writable x) then mret (-1)
  else match ftype x with
  | FD_PIPE =>
      p ← get_pipe (f_pipe x);
      match pipewrite killed p.2 0 (take (Z.to_nat n) addr) with
      | (q, WDone _) => modS (set_pipes (<[p.1 := Some q]>)) ;; mret n
      | (q, WErr) => modS (set_pipes (<[p.1 := Some q]>)) ;; mret (-1)
      | (_, WSleep _ _) => sleep_here
      end
  | FD_INODE => i ← filewrite_loop (Z.to_nat n) f addr n 0; mret (if i =? n then n else -1)
  | _ => panic "vfs_filewrite"
  end.

(** ** sysfile.c, pipe.c *)

Definition argfd (pr : nat) (fd : Z) : M (vst F) (option nat) :=
  s ← getS;
  mret (if (fd <? 0) || (Z.of_nat NFD <=? fd) then None else ofile s !! (pr, Z.to_nat fd)).

Definition fdalloc (pr f : nat) : M (vst F) (option nat) :=
  s ← getS;
  match list_find (fun fd => ofile s !! (pr, fd) = None) (seq 0 NFD) with
  | Some (_, fd) => modS (set_ofile (<[(pr, fd) := f]>)) ;; mret (Some fd)
  | None => mret None
  end.

Definition sys_dup (pr : nat) (fd : Z) : M (vst F) (option nat) :=
  f ← argfd pr fd;
  match f with
  | None => mret None
  | Some f =>
      r ← fdalloc pr f;
      match r with None => mret None | Some fd => vfs_filedup f ;; mret (Some fd) end
  end.

(** [page]: the contents of the page [kalloc] returns, if it does. *)
Definition pipealloc (page : option (list Z)) : M (vst F) (option (nat * nat)) :=
  f0 ← vfs_filealloc;
  match f0 with
  | None => mret None
  | Some f0 =>
      f1 ← vfs_filealloc;
      match f1, page with
      | None, _ => vfs_fileclose f0 ;; mret None
      | Some f1, None => vfs_fileclose f0 ;; vfs_fileclose f1 ;; mret None
      | Some f1, Some garbage =>
          s ← getS;
          let p := length (pipes s) in
          modS (set_pipes (fun ps => ps ++ [Some (pipe_init garbage)])) ;;
          modS (upd_file f0 (as_pipe p false)) ;;
          modS (upd_file f1 (as_pipe p true)) ;;
          mret (Some (f0, f1))
      end
  end.

Definition sys_pipe (pr : nat) (page : option (list Z)) : M (vst F) (option (nat * nat)) :=
  r ← pipealloc page;
  match r with
  | None => mret None
  | Some (rf, wf) =>
      fd0 ← fdalloc pr rf;
      match fd0 with
      | None => vfs_fileclose rf ;; vfs_fileclose wf ;; mret None
      | Some fd0 =>
          fd1 ← fdalloc pr wf;
          match fd1 with
          | None => modS (set_ofile (delete (pr, fd0))) ;; vfs_fileclose rf ;; vfs_fileclose wf ;; mret None
          | Some fd1 => mret (Some (fd0, fd1))
          end
      end
  end.

(** The end of [sys_open]: the locked inode [ip] on the mount [mnt] gets a file and a descriptor. *)
Definition open_inode (pr ip : nat) (mnt : option nat) (omode : Z) : M (vst F) (option nat) :=
  f ← vfs_filealloc;
  match f with
  | None => onfs (i_iunlockput ip) ;; modS (mntput mnt) ;; onfs i_end_op ;; mret None
  | Some f =>
      fd ← fdalloc pr f;
      match fd with
      | None => vfs_fileclose f ;; onfs (i_iunlockput ip) ;; modS (mntput mnt) ;; onfs i_end_op ;; mret None
      | Some fd =>
          onfs (i_iunlock ip) ;;
          onfs i_end_op ;;
          modS (upd_file f (as_inode ip mnt (negb (Z.testbit omode 0)) (Z.testbit omode 0 || Z.testbit omode 1))) ;;
          mret (Some fd)
      end
  end.

(** The loops over [ofile] of [fork] and [exit] (proc.c). *)
Fixpoint fork_files (fds : list nat) (cur np : nat) : M (vst F) unit :=
  match fds with
  | [] => mret tt
  | fd :: fds =>
      s ← getS;
      match ofile s !! (cur, fd) with
      | Some f => vfs_filedup f ;; modS (set_ofile (<[(np, fd) := f]>))
      | None => mret tt
      end ;;
      fork_files fds cur np
  end.
Fixpoint exit_files (fds : list nat) (cur : nat) : M (vst F) unit :=
  match fds with
  | [] => mret tt
  | fd :: fds =>
      s ← getS;
      match ofile s !! (cur, fd) with
      | Some f => vfs_fileclose f ;; modS (set_ofile (delete (cur, fd)))
      | None => mret tt
      end ;;
      exit_files fds cur
  end.

(** ** cgfs.c *)

Definition unsafe_cg_open_dir (pr i : nat) (omode : Z) : M (vst F) (option nat) :=
  c ← oncgs (get_cg i);
  if decide (cgroup_dir_path c = []) then mret None
  else
    f ← vfs_filealloc;
    match f with
    | None => mret None
    | Some f =>
        fd ← fdalloc pr f;
        match fd with
        | None => vfs_fileclose f ;; mret None
        | Some fd =>
            modS (upd_file f (as_cg i [] (negb (Z.testbit omode 0)) false)) ;;
            oncgs (modS (upd_cg i (fun c => with_ref_count (ref_count c +i 1) c))) ;;
            mret (Some fd)
        end
    end.

(** The [switch] of [unsafe_cg_open_file]: [None] where it returns, otherwise what it keeps in the file. *)
Definition cg_open_stats (k : cgroup_file_name) (root : bool) (c : cgroup) (total : Z) : option (list Z) :=
  let b (x : bool) := if x then 1 else 0 in
  let m := mem_ c in
  let p := cpu_ c in
  let keep l := if root then None else Some l in
  match k with
  | CPU_STAT => keep [b (enabled Cpu c); s32 (cpu_time p); s32 (cpu_time p); 0; s32 (cpu_nr_periods p); s32 (cpu_nr_throttled p); s32 (cpu_throttled_usec p)]
  | CPU_WEIGHT => keep [0]
  | CPU_MAX => keep [s32 (cpu_time_limit p); s32 (cpu_account_period p)]
  | PID_MAX => keep [b (enabled Pid c); max_num_of_procs c]
  | SET_CPU => keep [b (enabled CpuSet c); cpu_to_use c]
  | SET_FRZ => keep [is_frozen c]
  | MEM_MAX => keep [b (enabled Mem c); max_mem m]
  | MEM_MIN => keep [b (enabled Mem c); min_mem m]
  | MEM_STAT => keep [b (enabled Mem c); mem_stat_file_dirty m; mem_stat_file_dirty_aggregated m; mem_stat_pgfault m; mem_stat_pgmajfault m; total *u PGSIZE]
  | IO_STAT => keep (replicate NDEV 0)
  | _ => Some []
  end.

Definition unsafe_cg_open_file (pr : nat) (filename : list Z) (i : nat) (omode : Z) : M (vst F) (option nat) :=
  match get_file_name_constant filename with
  | None => mret None
  | Some k =>
      f ← vfs_filealloc;
      match f with
      | None => mret None
      | Some f =>
          fd ← fdalloc pr f;
          match fd with
          | None => vfs_fileclose f ;; mret None
          | Some fd =>
              c ← oncgs (get_cg i);
              total ← oncgs (onkh get_total_memory);
              match cg_open_stats k (bool_decide (i = cgroup_root)) c total with
              | None => mret None
              | Some l =>
                  modS (upd_file f (fun x => with_f_stats (if decide (l = []) then f_stats x else l) x)) ;;
                  modS (upd_file f (as_cg i (take MAX_CGROUP_FILE_NAME_LENGTH filename) (negb (Z.testbit omode 0))
                    ((Z.testbit omode 0 || Z.testbit omode 1) && is_file_writable k))) ;;
                  oncgs (modS (upd_cg i (fun c => with_ref_count (ref_count c +i 1) c))) ;;
                  mret (Some fd)
              end
          end
      end
  end.

Definition unsafe_cg_close (f : nat) : M (vst F) unit :=
  x ← get_file f;
  vfs_fileclose f ;;
  i ← deref (f_cgp x);
  oncgs (modS (upd_cg i (fun c => with_ref_count (ref_count c -i 1) c))) ;;
  c ← oncgs (get_cg i);
  if (ref_count c =? 0) && bool_decide (cgroup_dir_path c = []) then oncgs (decrement_nr_dying_descendants (parent c)) else mret tt.

Definition cg_locked_call {A} (m : M (vst F) A) : M (vst F) A := oncgs cgroup_lock ;; r ← m; oncgs cgroup_unlock ;; mret r.
Definition cg_open_dir (pr i : nat) (omode : Z) : M (vst F) (option nat) := cg_locked_call (unsafe_cg_open_dir pr i omode).
Definition cg_open_file (pr : nat) (filename : list Z) (i : nat) (omode : Z) : M (vst F) (option nat) :=
  cg_locked_call (unsafe_cg_open_file pr filename i omode).
Definition cg_close (f : nat) : M (vst F) unit := cg_locked_call (unsafe_cg_close f).

Definition sys_close (pr : nat) (fd : Z) : M (vst F) Z :=
  f ← argfd pr fd;
  match f with
  | None => mret (-1)
  | Some f =>
      modS (set_ofile (delete (pr, Z.to_nat fd))) ;;
      x ← get_file f;
      (match ftype x with FD_CG => cg_close f | _ => vfs_fileclose f end) ;;
      mret 0
  end.
End vfs.
