(* ===== verification/FileRefs.v ===== *)
(** * References to open files

    [files_ok] says that the count of an open file is the number of descriptors that refer to it, over all processes,
    and that a pipe is there as long as one of its two files is.  [h] counts the references the kernel holds while a
    call is under way.  [files] is what the calls of [VfsFile] reach from an empty table, in any order and on behalf of any
    process. *)

From S2P Require Import Prelude Kalloc Cpath Cgroup CgroupTree Pipe NativeFs VfsFile.

(** The number of descriptors that refer to [f]. *)
Definition refs (f : nat) (m : gmap (nat * nat) nat) : nat := size (filter (fun x => x.2 = f) m).

Lemma refs_insert f g k m : m !! k = None -> refs f (<[k := g]> m) = (refs f m + if decide (g = f) then 1 else 0)%nat.
Proof.
  intros Hk. unfold refs. case_decide as Hg.
  - rewrite map_filter_insert_True by done. rewrite map_size_insert_None; [lia|]. apply map_lookup_filter_None_2. by left.
  - rewrite map_filter_insert_False by done. rewrite delete_id by done. lia.
Qed.
Lemma refs_delete f g k m : m !! k = Some g -> refs f m = (refs f (delete k m) + if decide (g = f) then 1 else 0)%nat.
Proof. intros Hk. rewrite <- (refs_insert f g k) by apply lookup_delete_eq. by rewrite insert_delete_id. Qed.
Lemma refs_pos f k m : m !! k = Some f -> (0 < refs f m)%nat.
Proof. intros Hk. rewrite (refs_delete f f k m Hk), decide_True by done. lia. Qed.

Lemma refs_some f m : (0 < refs f m)%nat -> exists k, m !! k = Some f.
Proof.
  intros H. destruct (decide (filter (fun x => x.2 = f) m = ∅)) as [E|(k & g & Hk)%map_choose]; [unfold refs in H; rewrite E, map_size_empty in H; lia|].
  apply map_lookup_filter_Some in Hk as [Hk E]. cbn in E. subst. by exists k.
Qed.

(** There are at most 1024 descriptors. *)
Definition in_range (m : gmap (nat * nat) nat) : Prop := forall k f, m !! k = Some f -> (k.1 < NPROC /\ k.2 < NFD /\ f < NFILE)%nat.

Lemma refs_bound f m : in_range m -> (refs f m <= 1024)%nat.
Proof.
  intros Hr. transitivity (size m); [apply map_subseteq_size, map_filter_subseteq|]. rewrite <- size_dom.
  transitivity (size (list_to_set (C := gset (nat * nat)) (list_prod (seq 0 NPROC) (seq 0 NFD)))).
  - apply subseteq_size. intros k [g Hk]%elem_of_dom. apply elem_of_list_to_set, list_elem_of_In. destruct k as [p fd]. apply in_prod; apply in_seq; destruct (Hr _ _ Hk) as (? & ? & _); simpl in *; lia.
  - apply Nat.leb_le. vm_compute. reflexivity.
Qed.

Section files.
Context {F : Type} {IO : InodeOps F}.
Implicit Types (s : vst F) (h : nat -> Z).

(** [x] is one end of the pipe [p]. *)
Definition is_end (p : nat) (w : bool) (x : vfs_file) : Prop := ftype x = FD_PIPE /\ f_pipe x = Some p /\ writable x = w.
Definition end_open (w : bool) (q : pipe) : bool := if w then writeopen q else readopen q.

Record files_ok (h : nat -> Z) (s : vst F) : Prop := {
  vf_len : length (ftable s) = NFILE;
  vf_range : in_range (ofile s);
  vf_ref f x : ftable s !! f = Some x -> f_ref x = Z.of_nat (refs f (ofile s)) + h f /\ 0 <= f_ref x;
  vf_none f x : ftable s !! f = Some x -> f_ref x = 0 -> ftype x = FD_NONE;
  vf_pipe f x : ftable s !! f = Some x -> ftype x = FD_PIPE -> exists p q, f_pipe x = Some p /\ pipes s !! p = Some (Some q) /\ end_open (writable x) q = true;
  vf_inj f g x y p w : ftable s !! f = Some x -> ftable s !! g = Some y -> is_end p w x -> is_end p w y -> f = g;
  vf_open p q w : pipes s !! p = Some (Some q) -> end_open w q = true -> exists f x, ftable s !! f = Some x /\ is_end p w x;
  vf_used p q : pipes s !! p = Some (Some q) -> readopen q || writeopen q = true
}.

Lemma files_ext h h' s : (forall f, h f = h' f) -> files_ok h s -> files_ok h' s.
Proof. intros E [H1 H2 H3 H4 H5 H6 H7 H8]. split; try done. intros f x Hx. rewrite <- E. by apply H3. Qed.

(** The rest of the state does not matter. *)
Lemma files_same h s s' : ftable s' = ftable s -> ofile s' = ofile s -> pipes s' = pipes s -> files_ok h s -> files_ok h s'.
Proof. intros E1 E2 E3 [H1 H2 H3 H4 H5 H6 H7 H8]. by split; rewrite ?E1, ?E2, ?E3. Qed.

(** A file whose count and ends of pipes stay. *)
Lemma upd_file_ok h s f g d : files_ok h s -> (forall x, ftable s !! f = Some x -> f_ref (g x) = f_ref x + d /\ 0 <= f_ref x + d /\
    (f_ref x + d = 0 -> ftype (g x) = FD_NONE) /\ (forall p w, is_end p w (g x) <-> is_end p w x) /\ (ftype (g x) = FD_PIPE -> ftype x = FD_PIPE)) ->
  files_ok (plus_at f d h) (upd_file f g s).
Proof.
  intros [H1 H2 H3 H4 H5 H6 H7 H8] Hg.
  assert (forall k y, ftable (upd_file f g s) !! k = Some y -> (k <> f /\ ftable s !! k = Some y) \/ (k = f /\ exists x, ftable s !! f = Some x /\ y = g x)) as Hl.
  { intros k y. cbn. rewrite list_lookup_alter. destruct (decide (f = k)) as [->|]; [|auto]. intros (x & Hx & ->)%fmap_Some. eauto. }
  assert (forall k y p w, ftable (upd_file f g s) !! k = Some y -> is_end p w y -> exists y', ftable s !! k = Some y' /\ is_end p w y') as He.
  { intros k y p w [[_ Hy]|(-> & x & Hx & ->)]%Hl He; [eauto|]. exists x. split; [done|]. by apply (Hg x Hx). }
  split.
  - cbn. by rewrite length_alter.
  - done.
  - intros k y [[Hne Hy]|(-> & x & Hx & ->)]%Hl; unfold plus_at; cbn.
    + rewrite decide_False by done. by apply H3.
    + rewrite decide_True by done. destruct (Hg x Hx) as (-> & ? & _), (H3 f x Hx). lia.
  - intros k y [[Hne Hy]|(-> & x & Hx & ->)]%Hl; [by eapply H4|]. destruct (Hg x Hx) as (-> & _ & ? & _). done.
  - intros k y [[Hne Hy]|(-> & x & Hx & ->)]%Hl Ht; [by apply (H5 k)|]. destruct (Hg x Hx) as (_ & _ & _ & Hi & Hp). destruct (H5 f x Hx (Hp Ht)) as (p & q & E1 & E2 & E3).
    assert (is_end p (writable x) (g x)) as (_ & Ep & Ew) by (apply Hi; split_and!; auto). exists p, q. by rewrite Ew.
  - intros k k' y y' p w Hy Hy' E1 E2. destruct (He _ _ _ _ Hy E1) as (z & Hz & ?), (He _ _ _ _ Hy' E2) as (z' & Hz' & ?). by eapply H6.
  - intros p q w Hp Hq. destruct (H7 p q w Hp Hq) as (k & y & Hk & Hy). exists k. cbn. rewrite list_lookup_alter. destruct (decide (f = k)) as [->|]; [|by exists y].
    exists (g y). rewrite Hk. split; [done|]. by apply (Hg y Hk).
  - done.
Qed.

(** *** The parts of the calls *)

Lemma filealloc_ok h s : files_ok h s -> (forall f, 0 <= h f) -> okp (fun _ => False) vfs_filealloc s (fun r s' =>
  match r with
  | None => s' = s /\ forall f x, ftable s !! f = Some x -> f_ref x <> 0
  | Some f => files_ok (plus_at f 1 h) s' /\ h f = 0 /\ ofile s' = ofile s /\ pipes s' = pipes s /\ exists x, ftable s !! f = Some x /\ f_ref x = 0 /\ s' = upd_file f (fun x => with_f_mnt None (with_f_ref 1 x)) s
  end).
Proof.
  intros Hok Hh. unfold okp, vfs_filealloc. mrun. destruct (list_find _ _) as [[f x]|] eqn:E.
  2:{ split; [done|]. apply list_find_None in E. intros f x Hx. by apply (proj1 (Forall_lookup _ _) E f x). }
  apply list_find_Some in E as (Hx & Hr & _). mrun.
  pose proof (vf_ref _ _ Hok f x Hx) as [Er _]. split; [|split; [specialize (Hh f); lia|split; [done|split; [done|by exists x]]]]. apply upd_file_ok; [done|].
  intros y Hy. assert (y = x) as -> by congruence. split_and!; try done; cbn; lia.
Qed.

Lemma filedup_ok h s f x : files_ok h s -> ftable s !! f = Some x -> 0 < f_ref x < 2000 -> exists s', vfs_filedup f s = inr (f, s') /\
  files_ok (plus_at f 1 h) s' /\ ofile s' = ofile s.
Proof.
  intros Hok Hx Hr. unfold vfs_filedup, get_file. eexists. split; [mrun; rewrite Hx; cbn [deref]; mrun; rewrite (proj2 (Z.ltb_ge _ _)) by lia; mrun; reflexivity|].
  split; [|done]. apply upd_file_ok; [done|]. intros y Hy. assert (y = x) as -> by congruence. cbn. rewrite s32_id by (unfold is_s32; lia). split_and!; try done; lia.
Qed.

(** The last reference of one end of a pipe goes. *)
Lemma close_pipe_ok h s f x p q : files_ok h s -> ftable s !! f = Some x -> is_end p (writable x) x -> pipes s !! p = Some (Some q) -> f_ref x = 1 ->
  let g := fun x => with_ftype FD_NONE (with_f_ref 0 x) in
  files_ok (plus_at f (-1) h) (set_pipes (<[p := if (pipeclose q (writable x)).2 then None else Some (pipeclose q (writable x)).1]>) (upd_file f g s)).
Proof.
  intros [H1 H2 H3 H4 H5 H6 H7 H8] Hx He Hq Hr g. set (w := writable x) in *. set (q' := (pipeclose q w).1).
  assert (forall w', end_open w' q' = if decide (w' = w) then false else end_open w' q) as Eo by (intros []; destruct w; done).
  assert ((pipeclose q w).2 = negb (readopen q' || writeopen q')) as Ef by (unfold q'; destruct w, q as [? ? ? [] []]; done).
  rewrite Ef. clearbody q'. set (r := if negb _ then None else Some q'). pose proof (lookup_lt_Some _ _ _ Hq) as Hlt.
  assert (forall k y, ftable (upd_file f g s) !! k = Some y -> k <> f /\ ftable s !! k = Some y \/ k = f /\ y = g x) as Hl.
  { intros k y. cbn. rewrite list_lookup_alter. destruct (decide (f = k)) as [<-|]; [rewrite Hx; intros [= <-]; by right|auto]. }
  assert (forall p' q0, <[p := r]> (pipes s) !! p' = Some (Some q0) -> p' <> p /\ pipes s !! p' = Some (Some q0) \/ p' = p /\ q0 = q' /\ readopen q' || writeopen q' = true) as Hp.
  { intros p' q0. destruct (decide (p = p')) as [<-|]; [|rewrite list_lookup_insert_ne by done; auto]. rewrite list_lookup_insert_eq by done. unfold r. destruct (_ || _); [intros [= <-]; by right|done]. }
  split; cbn [ftable ofile pipes set_pipes].
  - cbn. by rewrite length_alter.
  - done.
  - intros k y [[Hne Hy]|[-> ->]]%Hl; unfold plus_at; [rewrite decide_False by done; by apply H3|rewrite decide_True by done]. cbn. destruct (H3 f x Hx). lia.
  - intros k y [[Hne Hy]|[-> ->]]%Hl; [by eapply H4|done].
  - intros k y [[Hne Hy]|[-> ->]]%Hl Ht; [|done]. destruct (H5 k y Hy Ht) as (p' & q0 & E1 & E2 & E3). destruct (decide (p' = p)) as [->|Hnp].
    + assert (q0 = q) as -> by congruence. assert (writable y <> w) as Hw. { intros E. apply Hne. eapply (H6 k f y x p w); [done..| |done]. by split_and!. }
      assert (end_open (writable y) q' = true) as Ey by (rewrite Eo, decide_False; done). exists p, q'. split; [done|]. rewrite list_lookup_insert_eq by done.
      split; [|done]. unfold r. unfold end_open in Ey. destruct (writable y); rewrite Ey, ?orb_true_r; done.
    + exists p', q0. by rewrite list_lookup_insert_ne.
  - intros k k' y y' p' w' [[Hne Hy]|[-> ->]]%Hl [[Hne' Hy']|[-> ->]]%Hl E1 E2; [by eapply (H6 k k')|by destruct E2|by destruct E1|done].
  - intros p' q0 w' [[Hne Hq0]|(-> & -> & _)]%Hp Ho.
    + destruct (H7 p' q0 w' Hq0 Ho) as (k & y & Hk & Hy). exists k, y. split; [|done]. cbn. rewrite list_lookup_alter_ne; [done|].
      intros <-. assert (y = x) as -> by congruence. apply Hne. destruct Hy as (_ & E & _), He as (_ & E' & _). congruence.
    + rewrite Eo in Ho. case_decide as Hw; [done|]. destruct (H7 p q w' Hq Ho) as (k & y & Hk & Hy). exists k, y. split; [|done]. cbn. rewrite list_lookup_alter_ne; [done|].
      intros <-. assert (y = x) as -> by congruence. apply Hw. destruct Hy as (_ & _ & E), He as (_ & _ & E'). congruence.
  - intros p' q0 [[_ Hq0]|(-> & -> & Hu)]%Hp; [by eapply H8|done].
Qed.

Lemma upd_file_twice f g g' s : upd_file f g' (upd_file f g s) = upd_file f (fun x => g' (g x)) s.
Proof.
  unfold upd_file. cbn [ftable ofile pipes fcg fs mntputs]. f_equal. revert f. induction (ftable s) as [|x l IH]; intros [|f]; [done..|]. cbn [alter list_alter]. f_equal. apply IH.
Qed.

Lemma upd_file_at f g g' s x : ftable s !! f = Some x -> g x = g' x -> upd_file f g s = upd_file f g' s.
Proof. intros Hx E. unfold upd_file. f_equal. apply list_eq. intros k. rewrite !list_lookup_alter. destruct (decide (f = k)) as [<-|]; [|done]. rewrite Hx. cbn. by f_equal. Qed.

(** The descriptors, the files and the pipes stay. *)
Definition same_files s s' : Prop := ftable s' = ftable s /\ ofile s' = ofile s /\ pipes s' = pipes s.

Lemma same_files_ok h s s' : same_files s s' -> files_ok h s -> files_ok h s'.
Proof. intros (? & ? & ?). by apply files_same. Qed.

Lemma okp_onfs {A} (E : stop -> Prop) (m : M F A) s Q : (forall e, E e) -> (forall a s', same_files s s' -> fcg s' = fcg s -> Q a s') -> okp E (onfs m) s Q.
Proof. intros HE HQ. unfold okp, onfs. destruct (m (fs s)) as [e|[a y]]; [done|]. by apply HQ. Qed.
Lemma okp_oncgs {A} (E : stop -> Prop) (m : M cgs A) s Q : (forall e, E e) -> (forall a s', same_files s s' -> fs s' = fs s -> Q a s') -> okp E (oncgs m) s Q.
Proof. intros HE HQ. unfold okp, oncgs. destruct (m (fcg s)) as [e|[a y]]; [done|]. by apply HQ. Qed.

Lemma get_file_run f x s : ftable s !! f = Some x -> get_file f s = inr (x, s).
Proof. intros H. unfold get_file. mrun. by rewrite H. Qed.

Lemma fileclose_ok h s f x : files_ok h s -> ftable s !! f = Some x -> 0 < f_ref x < 2000 -> okp (fun _ => ftype x = FD_INODE) (vfs_fileclose f) s (fun _ s' =>
  files_ok (plus_at f (-1) h) s' /\ ofile s' = ofile s /\ forall k, k <> f -> ftable s' !! k = ftable s !! k).
Proof.
  intros Hok Hx Hr. unfold vfs_fileclose. apply okp_bind. apply (okp_run _ _ _ _ _ _ (get_file_run f x s Hx)). rewrite (proj2 (Z.ltb_ge _ _)) by lia.
  rewrite s32_id by (unfold is_s32; lia). apply okp_bind, okp_modS.
  assert (forall g k, k <> f -> ftable (upd_file f g s) !! k = ftable s !! k) as Hk by (intros g k Hk; cbn; by rewrite list_lookup_alter_ne by congruence).
  destruct (Z.ltb_spec 0 (f_ref x - 1)) as [Hgt|Hle].
  { apply okp_ret. split; [|split; [done|by apply Hk]]. apply upd_file_ok; [done|]. intros y Hy. assert (y = x) as -> by congruence. cbn. split_and!; try done; lia. }
  assert (f_ref x = 1) as E1 by lia. apply okp_bind, okp_modS. rewrite upd_file_twice. set (g := fun x => with_ftype FD_NONE (with_f_ref 0 x)).
  rewrite (upd_file_at f (fun y => with_ftype FD_NONE (with_f_ref 0 (with_f_ref (f_ref x - 1) y))) g s x Hx eq_refl). destruct (ftype x) eqn:Et.
  2:{ destruct (vf_pipe _ _ Hok f x Hx Et) as (p & q & Ep & Hq & _). unfold close_pipe. apply okp_bind. apply (okp_run _ _ _ (p, q) (upd_file f g s)).
      { unfold get_pipe. mrun. rewrite Ep. cbn [deref]. mrun. change (pipes (upd_file f g s)) with (pipes s). by rewrite Hq. }
      pose proof (close_pipe_ok h s f x p q Hok Hx ltac:(done) Hq E1) as Hc. cbn [fst snd]. destruct (pipeclose q (writable x)) as [q' freed]. apply okp_modS. split; [exact Hc|split; [done|apply Hk]]. }
  all: assert (files_ok (plus_at f (-1) h) (upd_file f g s)) as Hfin by (apply upd_file_ok; [done|]; intros y Hy; assert (y = x) as -> by congruence; cbn; unfold is_end; cbn; rewrite Et; split_and!; (done || lia || (intros; split; intros (? & _); done))).
  1,3,4: apply okp_ret; split; [done|split; [done|apply Hk]].
  apply okp_bind, okp_modS, okp_bind, okp_onfs; [done|]. intros _ s1 S1 _. apply okp_bind. destruct (f_ip x) as [ip|]; [|by unfold okp]. apply okp_ret, okp_bind, okp_onfs; [done|]. intros _ s2 S2 _.
  apply okp_onfs; [done|]. intros _ s3 S3 _. 
  split; [|destruct S1 as (T1 & E2 & _), S2 as (T2 & E3 & _), S3 as (T3 & E4 & _); split; [by rewrite E4, E3, E2|intros k Hne; rewrite T3, T2, T1; by apply Hk]].
  apply (same_files_ok _ s2 s3 S3), (same_files_ok _ s1 s2 S2), (same_files_ok _ _ s1 S1), (same_files_ok _ (upd_file f g s)); done.
Qed.

Lemma set_fd_ok h s k f : files_ok h s -> ofile s !! k = None -> (k.1 < NPROC /\ k.2 < NFD /\ f < NFILE)%nat -> (forall x, ftable s !! f = Some x -> 0 < f_ref x) ->
  files_ok (plus_at f (-1) h) (set_ofile (<[k := f]>) s).
Proof.
  intros [H1 H2 H3 H4 H5 H6 H7 H8] Hk Hr Hf. split; cbn [ftable ofile pipes set_ofile]; try done.
  - intros k' g [[<- <-]|[_ Hg]]%lookup_insert_Some; [done|by eapply H2].
  - intros g x Hx. rewrite refs_insert by done. unfold plus_at. destruct (H3 g x Hx). destruct (decide (g = f)) as [->|]; [rewrite decide_True by done|rewrite decide_False by done]; lia.
Qed.

Lemma del_fd_ok h s k f : files_ok h s -> ofile s !! k = Some f -> files_ok (plus_at f 1 h) (set_ofile (delete k) s).
Proof.
  intros [H1 H2 H3 H4 H5 H6 H7 H8] Hk. split; cbn [ftable ofile pipes set_ofile]; try done.
  - intros k' g [_ Hg]%lookup_delete_Some. by eapply H2.
  - intros g x Hx. unfold plus_at. destruct (H3 g x Hx) as [E1 E2]. rewrite (refs_delete g f k) in E1 by done. destruct (decide (g = f)) as [->|]; [rewrite decide_True in E1 by done|rewrite decide_False in E1 by done]; lia.
Qed.

Lemma fdalloc_ok s pr f : okp (fun _ => False) (fdalloc (F := F) pr f) s (fun r s' =>
  match r with None => s' = s /\ (forall k, k < NFD -> ofile s !! (pr, k) <> None)%nat | Some fd => ofile s !! (pr, fd) = None /\ (fd < NFD)%nat /\ (forall k, k < fd -> ofile s !! (pr, k) <> None)%nat /\ s' = set_ofile (<[(pr, fd) := f]>) s end).
Proof.
  unfold okp, fdalloc. mrun. destruct (list_find _ _) as [[i fd]|] eqn:E.
  2:{ split; [done|]. apply list_find_None in E. intros k Hk. apply (proj1 (Forall_lookup _ _) E k k). by apply lookup_seq. }
  apply list_find_Some in E as (Hi & Hn & Hlow). apply lookup_seq in Hi as [-> Hi]. mrun. split_and!; try done.
  intros k Hk. apply (Hlow k k); [|cbn; lia]. apply lookup_seq. cbn in Hk. lia.
Qed.

(** The reference count of a file fits an [int]. *)
Lemma ref_small h s f x : files_ok h s -> (h f <= 900) -> ftable s !! f = Some x -> f_ref x < 2000.
Proof. intros Hok Hh Hx. destruct (vf_ref _ _ Hok f x Hx) as [-> _]. pose proof (refs_bound f (ofile s) (vf_range _ _ Hok)). lia. Qed.

Lemma file_at h s f : files_ok h s -> (f < NFILE)%nat -> exists x, ftable s !! f = Some x.
Proof. intros Hok Hf. apply lookup_lt_is_Some_2. by rewrite (vf_len _ _ Hok). Qed.

(** The file behind a descriptor is in use. *)
Lemma fd_file h s k f : files_ok h s -> (forall f, 0 <= h f) -> ofile s !! k = Some f -> exists x, ftable s !! f = Some x /\ 0 < f_ref x.
Proof.
  intros Hok Hh Hk. destruct (vf_range _ _ Hok k f Hk) as (_ & _ & Hf). destruct (file_at h s f Hok Hf) as [x Hx]. exists x. split; [done|].
  destruct (vf_ref _ _ Hok f x Hx) as [-> _]. pose proof (refs_pos f k _ Hk). specialize (Hh f). lia.
Qed.

Definition none_held : nat -> Z := fun _ => 0.

Ltac held := eapply files_ext; [|eassumption]; intros ?; unfold plus_at, none_held; repeat case_decide; subst; lia.

(** The file of a descriptor; a process without a free one; at most one free; at most one free file. *)
Definition open_fd s (pr : nat) (fd : Z) : option nat := if (0 <=? fd) && (fd <? Z.of_nat NFD) then ofile s !! (pr, Z.to_nat fd) else None.
Definition no_fd s (pr : nat) : Prop := forall k, (k < NFD)%nat -> ofile s !! (pr, k) <> None.
Definition few_fds s (pr : nat) : Prop := forall a b, (a < NFD)%nat -> (b < NFD)%nat -> ofile s !! (pr, a) = None -> ofile s !! (pr, b) = None -> a = b.
Definition few_files s : Prop := forall f g x y, ftable s !! f = Some x -> ftable s !! g = Some y -> f_ref x = 0 -> f_ref y = 0 -> f = g.

Lemma argfd_run s pr fd : argfd pr fd s = inr (open_fd s pr fd, s).
Proof. unfold argfd, open_fd. mrun. destruct (Z.ltb_spec fd 0), (Z.leb_spec 0 fd); try lia; cbn [orb andb]; [done|]. destruct (Z.leb_spec (Z.of_nat NFD) fd), (Z.ltb_spec fd (Z.of_nat NFD)); try lia; done. Qed.
Lemma open_fd_at s pr fd f : open_fd s pr fd = Some f -> ofile s !! (pr, Z.to_nat fd) = Some f.
Proof. unfold open_fd. by destruct (_ && _). Qed.

Lemma sys_dup_ok s pr fd : files_ok none_held s -> (pr < NPROC)%nat -> okp (fun _ => False) (sys_dup pr fd) s (fun r s' =>
  files_ok none_held s' /\
  match r with
  | None => s' = s /\ (open_fd s pr fd = None \/ no_fd s pr)
  | Some fd' => exists f, open_fd s pr fd = Some f /\ ofile s !! (pr, fd') = None /\ (forall k, k < fd' -> ofile s !! (pr, k) <> None)%nat /\ ofile s' = <[(pr, fd') := f]> (ofile s)
  end).
Proof.
  intros Hok Hpr. unfold sys_dup. apply okp_bind, (okp_run _ _ _ _ _ _ (argfd_run s pr fd)). destruct (open_fd s pr fd) as [f|] eqn:Ef; [|apply okp_ret; auto].
  pose proof (open_fd_at _ _ _ _ Ef) as Hf. destruct (fd_file _ s _ f Hok ltac:(done) Hf) as (x & Hx & Hr).
  apply okp_bind. eapply okp_mono; [apply fdalloc_ok|done|]. intros [fd'|] s1; [|intros [-> Hno]; apply okp_ret; auto]. intros (Hn & Hlt & Hlow & ->).
  assert (files_ok (plus_at f (-1) none_held) (set_ofile (<[(pr, fd') := f]>) s)) as Hok1.
  { apply set_fd_ok; [done|done|split; [done|split; [done|by eapply (vf_range _ _ Hok)]]|]. intros y Hy. congruence. }
  destruct (filedup_ok _ _ f x Hok1 Hx) as (s2 & E2 & Hok2 & Eo); [split; [done|]; by eapply (ref_small _ s)|].
  apply okp_bind, (okp_run _ _ _ _ _ _ E2), okp_ret. split; [held|]. exists f. split_and!; [done..|]. by rewrite Eo.
Qed.

Lemma new_pipe_ok h s f0 f1 x0 x1 garbage (p := length (pipes s)) : files_ok h s -> ftable s !! f0 = Some x0 -> ftable s !! f1 = Some x1 -> f0 <> f1 ->
  ftype x0 = FD_NONE -> ftype x1 = FD_NONE -> 0 < f_ref x0 -> 0 < f_ref x1 ->
  files_ok h (upd_file f1 (as_pipe p true) (upd_file f0 (as_pipe p false) (set_pipes (fun ps => ps ++ [Some (pipe_init garbage)]) s))).
Proof.
  intros [H1 H2 H3 H4 H5 H6 H7 H8] Hx0 Hx1 Hne T0 T1 R0 R1.
  assert (alter (as_pipe p true) f1 (alter (as_pipe p false) f0 (ftable s)) !! f0 = Some (as_pipe p false x0)) as L0 by (rewrite list_lookup_alter_ne, list_lookup_alter_eq, Hx0 by done; done).
  assert (alter (as_pipe p true) f1 (alter (as_pipe p false) f0 (ftable s)) !! f1 = Some (as_pipe p true x1)) as L1 by (rewrite list_lookup_alter_eq, list_lookup_alter_ne, Hx1 by done; done).
  assert (forall k y, alter (as_pipe p true) f1 (alter (as_pipe p false) f0 (ftable s)) !! k = Some y ->
    k = f0 /\ y = as_pipe p false x0 \/ k = f1 /\ y = as_pipe p true x1 \/ k <> f0 /\ k <> f1 /\ ftable s !! k = Some y) as Hl.
  { intros k y Hy. destruct (decide (k = f1)) as [->|N1]; [right; left; split; congruence|]. destruct (decide (k = f0)) as [->|N0]; [left; split; congruence|].
    right. right. by rewrite !list_lookup_alter_ne in Hy by congruence. }
  assert (forall k y w, ftable s !! k = Some y -> ~ is_end p w y) as Hnew.
  { intros k y w Hk (Ht & Ep & _). destruct (H5 k y Hk Ht) as (p' & q & Ep' & Hq & _). assert (p' = p) as -> by congruence. by rewrite lookup_ge_None_2 in Hq. }
  split; cbn [ftable ofile pipes upd_file set_pipes]; try done.
  - by rewrite !length_alter.
  - intros k y [[-> ->]|[[-> ->]|(_ & _ & Hy)]]%Hl; [apply (H3 f0 x0 Hx0)|apply (H3 f1 x1 Hx1)|by apply H3].
  - intros k y [[-> ->]|[[-> ->]|(_ & _ & Hy)]]%Hl; cbn; [lia|lia|by eapply H4].
  - intros k y [[-> ->]|[[-> ->]|(_ & _ & Hy)]]%Hl Ht; [exists p, (pipe_init garbage)..|]; try (split; [done|]; by rewrite lookup_snoc_Some; split; [right|]).
    destruct (H5 k y Hy Ht) as (p' & q & E1 & E2 & E3). exists p', q. split; [done|]. split; [|done]. by apply lookup_app_l_Some.
  - intros k k' y y' p' w [[-> ->]|[[-> ->]|(_ & _ & Hy)]]%Hl [[-> ->]|[[-> ->]|(_ & _ & Hy')]]%Hl E1 E2; try done.
    + destruct E1 as (_ & _ & <-), E2 as (_ & _ & E). done.
    + destruct E1 as (_ & [= <-] & _). by destruct (Hnew _ _ _ Hy' E2).
    + destruct E1 as (_ & _ & <-), E2 as (_ & _ & E). done.
    + destruct E1 as (_ & [= <-] & _). by destruct (Hnew _ _ _ Hy' E2).
    + destruct E2 as (_ & [= <-] & _). by destruct (Hnew _ _ _ Hy E1).
    + destruct E2 as (_ & [= <-] & _). by destruct (Hnew _ _ _ Hy E1).
    + by eapply H6.
  - intros p' q w [[Hlt Hq]|[-> [= <-]]]%lookup_snoc_Some Ho.
    + destruct (H7 p' q w Hq Ho) as (k & y & Hk & Hy). exists k, y. split; [|done]. rewrite !list_lookup_alter_ne; [done|..]; intros <-; destruct Hy as (Ht & _); congruence.
    + destruct w; [exists f1, (as_pipe p true x1)|exists f0, (as_pipe p false x0)]; by split.
  - intros p' q [[Hlt Hq]|[-> [= <-]]]%lookup_snoc_Some; [by eapply H8|done].
Qed.

(** A fresh file has no type. *)
Lemma fresh_file h s f x : files_ok h s -> ftable s !! f = Some x -> f_ref x = 0 ->
  let s' := upd_file f (fun x => with_f_mnt None (with_f_ref 1 x)) s in
  ftable s' !! f = Some (with_f_mnt None (with_f_ref 1 x)) /\ ftype x = FD_NONE /\ forall k, k <> f -> ftable s' !! k = ftable s !! k.
Proof.
  intros Hok Hx Hr s'. split; [|split; [by apply (vf_none _ _ Hok f)|]].
  - cbn. by rewrite list_lookup_alter_eq, Hx.
  - intros k Hk. cbn. by rewrite list_lookup_alter_ne by congruence.
Qed.

(** Closing a file that is no inode's returns. *)
Lemma fileclose_returns h s f x : files_ok h s -> ftable s !! f = Some x -> 0 < f_ref x < 2000 -> ftype x <> FD_INODE ->
  okp (fun _ => False) (vfs_fileclose f) s (fun _ s' => files_ok (plus_at f (-1) h) s' /\ ofile s' = ofile s /\ forall k, k <> f -> ftable s' !! k = ftable s !! k).
Proof. intros Hok Hx Hr Ht. eapply okp_mono; [by apply (fileclose_ok h)|done|done]. Qed.

(** The two files of a new pipe, or nothing. *)
Lemma pipealloc_ok s page : files_ok none_held s -> okp (fun _ => False) (pipealloc page) s (fun r s' => ofile s' = ofile s /\
  match r with
  | None => files_ok none_held s' /\ (page = None \/ few_files s)
  | Some (f0, f1) => files_ok (plus_at f1 1 (plus_at f0 1 none_held)) s' /\ f0 <> f1 /\ (f0 < NFILE)%nat /\ (f1 < NFILE)%nat /\
      exists x0 x1 p, ftable s' !! f0 = Some x0 /\ ftable s' !! f1 = Some x1 /\ is_end p false x0 /\ is_end p true x1 /\ f_ref x0 = 1 /\ f_ref x1 = 1
  end).
Proof.
  intros Hok. unfold pipealloc. apply okp_bind. eapply okp_mono; [apply (filealloc_ok _ s Hok); done|done|]. intros [f0|] s1; [|intros [-> Hno]; apply okp_ret; split; [done|]; split; [done|]; right; intros f ? ? ? Hf _ E; by destruct (Hno f _ Hf)].
  intros (Hok1 & _ & Eo1 & Ep1 & x0 & Hx0 & R0 & ->). destruct (fresh_file _ s f0 x0 Hok Hx0 R0) as (L0 & T0 & K0). set (s1 := upd_file f0 _ s) in *.
  assert (forall f, 0 <= plus_at f0 1 none_held f) as Hh by (intros f; unfold plus_at, none_held; case_decide; lia).
  apply okp_bind. eapply okp_mono; [apply (filealloc_ok _ s1 Hok1 Hh)|done|]. intros [f1|] s2.
  2:{ intros [-> Hno]. apply okp_bind. eapply okp_mono; [apply (fileclose_returns _ s1 f0 _ Hok1 L0); cbn; [lia|congruence]|done|]. intros _ s2 (Hok2 & Eo2 & _). apply okp_ret.
      split; [congruence|]. split; [held|right]. assert (forall g y, ftable s !! g = Some y -> f_ref y = 0 -> g = f0) as H1.
      { intros g y Hy E. destruct (decide (g = f0)); [done|]. by destruct (Hno g y); [rewrite K0|]. }
      intros f g x y Hx Hy Ex Ey. by rewrite (H1 f x), (H1 g y). }
  intros (Hok2 & Hz & Eo2 & Ep2 & x1 & Hx1 & R1 & ->). destruct (fresh_file _ s1 f1 x1 Hok1 Hx1 R1) as (L1 & T1 & K1). set (s2 := upd_file f1 _ s1) in *.
  assert (f1 <> f0) as Hne by (intros ->; unfold plus_at, none_held in Hz; rewrite decide_True in Hz by done; lia).
  pose proof (K1 f0 ltac:(congruence)) as L0'. rewrite L0 in L0'. destruct page as [garbage|].
  - apply okp_bind, okp_getS, okp_bind, okp_modS, okp_bind, okp_modS, okp_bind, okp_modS, okp_ret. split; [done|]. set (p := length (pipes s2)).
    split; [eapply new_pipe_ok; try done; cbn; lia|]. split; [congruence|]. split; [apply lookup_lt_Some in Hx0; by rewrite <- (vf_len _ _ Hok)|].
    split; [apply lookup_lt_Some in Hx1; by rewrite <- (vf_len _ _ Hok1)|]. eexists _, _, p.
    split; [cbn [ftable upd_file set_pipes]; rewrite list_lookup_alter_ne, list_lookup_alter_eq by congruence; by rewrite L0'|].
    split; [cbn [ftable upd_file set_pipes]; rewrite list_lookup_alter_eq, list_lookup_alter_ne by congruence; by rewrite L1|]. done.
  - apply okp_bind. eapply okp_mono; [apply (fileclose_returns _ s2 f0 _ Hok2 L0'); cbn; [lia|congruence]|done|]. intros _ s3 (Hok3 & Eo3 & K3).
    apply okp_bind. eapply okp_mono; [apply (fileclose_returns _ s3 f1 _ Hok3 ltac:(rewrite K3; [exact L1|done])); cbn; [lia|congruence]|done|].
    intros _ s4 (Hok4 & Eo4 & _). apply okp_ret. split; [congruence|]. split; [held|by left].
Qed.

Lemma sys_pipe_ok s pr page : files_ok none_held s -> (pr < NPROC)%nat -> okp (fun _ => False) (sys_pipe pr page) s (fun r s' =>
  files_ok none_held s' /\
  match r with
  | None => ofile s' = ofile s /\ (page = None \/ few_files s \/ few_fds s pr)
  | Some (fd0, fd1) => exists f0 f1 x0 x1 p, ofile s' = <[(pr, fd1) := f1]> (<[(pr, fd0) := f0]> (ofile s)) /\ ofile s !! (pr, fd0) = None /\ ofile s !! (pr, fd1) = None /\ fd0 <> fd1 /\
      ftable s' !! f0 = Some x0 /\ ftable s' !! f1 = Some x1 /\ is_end p false x0 /\ is_end p true x1
  end).
Proof.
  intros Hok Hpr. unfold sys_pipe. apply okp_bind. eapply okp_mono; [by apply pipealloc_ok|done|]. intros [[f0 f1]|] s1; [|intros (E & H & Hw); apply okp_ret; split; [done|]; split; [done|]; tauto].
  intros (E1 & Hok1 & Hne & Hf0 & Hf1 & x0 & x1 & p & L0 & L1 & P0 & P1 & R0 & R1).
  apply okp_bind. eapply okp_mono; [apply fdalloc_ok|done|]. intros [fd0|] s2.
  2:{ intros [-> Hno]. apply okp_bind. eapply okp_mono; [apply (fileclose_returns _ s1 f0 x0 Hok1 L0); [lia|destruct P0; congruence]|done|]. intros _ s2 (Hok2 & E2 & K2).
      apply okp_bind. eapply okp_mono; [apply (fileclose_returns _ s2 f1 x1 Hok2); [rewrite K2 by done; done|lia|destruct P1; congruence]|done|].
      intros _ s3 (Hok3 & E3 & _). apply okp_ret. split; [held|]. split; [congruence|]. right. right. intros a b Ha _ Ea. destruct (Hno a Ha). by rewrite E1. }
  intros (Hn0 & Hlt0 & _ & ->). set (s2 := set_ofile _ s1).
  assert (files_ok (plus_at f1 1 none_held) s2) as Hok2.
  { eapply files_ext; [|apply (set_fd_ok _ s1 (pr, fd0) f0 Hok1 Hn0); [done|intros y Hy; assert (y = x0) as -> by congruence; lia]]. intros g. unfold plus_at, none_held. repeat case_decide; subst; lia. }
  apply okp_bind. eapply okp_mono; [apply fdalloc_ok|done|]. intros [fd1|] s3.
  2:{ intros [-> Hno]. apply okp_bind, okp_modS. pose proof (del_fd_ok _ s2 (pr, fd0) f0 Hok2 ltac:(cbn; apply lookup_insert_eq)) as Hok3. set (s3 := set_ofile (delete _) s2) in *.
      apply okp_bind. eapply okp_mono; [apply (fileclose_returns _ s3 f0 x0 Hok3 L0); [lia|destruct P0; congruence]|done|]. intros _ s4 (Hok4 & E4 & K4).
      apply okp_bind. eapply okp_mono; [apply (fileclose_returns _ s4 f1 x1 Hok4); [rewrite K4 by done; done|lia|destruct P1; congruence]|done|].
      intros _ s5 (Hok5 & E5 & _). apply okp_ret. split; [held|]. split; [rewrite E5, E4; cbn; rewrite delete_insert_id by done; done|]. right. right.
      assert (forall a, (a < NFD)%nat -> ofile s !! (pr, a) = None -> a = fd0) as H1.
      { intros a Ha Ea. destruct (decide (a = fd0)); [done|]. destruct (Hno a Ha). cbn. rewrite lookup_insert_ne by congruence. by rewrite E1. }
      intros a b Ha Hb Ea Eb. by rewrite (H1 a), (H1 b). }
  intros (Hn1 & Hlt1 & _ & ->). apply okp_ret. cbn in Hn1. assert (fd0 <> fd1) as Hd by (intros ->; by rewrite lookup_insert_eq in Hn1).
  assert (ofile s !! (pr, fd0) = None /\ ofile s !! (pr, fd1) = None) as [? ?] by (rewrite <- E1; rewrite lookup_insert_ne in Hn1 by congruence; done).
  split; [|exists f0, f1, x0, x1, p; split_and!; try done; cbn; by rewrite E1].
  eapply files_ext; [|apply (set_fd_ok _ s2 (pr, fd1) f1 Hok2 Hn1); [done|intros y Hy; change (ftable s1 !! f1 = Some y) in Hy; assert (y = x1) as -> by congruence; lia]]. intros g. unfold plus_at, none_held. repeat case_decide; subst; lia.
Qed.

(** A file without a type gets one that is no pipe. *)
Lemma typed_ok h s f g x : files_ok h s -> ftable s !! f = Some x -> ftype x = FD_NONE -> 0 < f_ref x -> ftype (g x) <> FD_PIPE -> f_ref (g x) = f_ref x -> files_ok h (upd_file f g s).
Proof.
  intros Hok Hx Ht Hr Hg Er. apply (files_ext (plus_at f 0 h)); [intros k; unfold plus_at; case_decide; lia|]. apply upd_file_ok; [done|]. intros y Hy. assert (y = x) as -> by congruence.
  split_and!; try lia; [|done]. intros p w. split; intros (? & _); congruence.
Qed.

(** A new file with a descriptor; where there is none of either, nothing is kept. *)
Lemma new_fd_ok s pr (k : nat -> nat -> M (vst F) (option nat)) (bad bad' : M (vst F) (option nat)) (E : stop -> Prop) : files_ok none_held s -> (pr < NPROC)%nat -> (forall e, E e) ->
  (forall s, files_ok none_held s -> okp E bad s (fun _ s' => files_ok none_held s')) ->
  (forall s, files_ok none_held s -> okp E bad' s (fun _ s' => files_ok none_held s')) ->
  (forall f fd s x, files_ok none_held s -> ftable s !! f = Some x -> ftype x = FD_NONE -> f_ref x = 1 -> okp E (k f fd) s (fun _ s' => files_ok none_held s')) ->
  okp E (f ← vfs_filealloc; match f with None => bad | Some f => fd ← fdalloc pr f; match fd with None => vfs_fileclose f ;; bad' | Some fd => k f fd end end) s (fun _ s' => files_ok none_held s').
Proof.
  intros Hok Hpr HE Hbad Hbad' Hk. apply okp_bind. eapply okp_mono; [apply (filealloc_ok _ s Hok); done|done|]. intros [f|] s1; [|intros [-> _]; by apply Hbad].
  intros (Hok1 & _ & Eo1 & Ep1 & x & Hx & R & ->). destruct (fresh_file _ s f x Hok Hx R) as (L & T & _). set (s1 := upd_file f _ s) in *.
  apply okp_bind. eapply okp_mono; [apply fdalloc_ok|done|]. intros [fd|] s2.
  - intros (Hn & Hlt & _ & ->). eapply Hk; [|exact L|done|done]. eapply files_ext; [|apply (set_fd_ok _ s1 (pr, fd) f Hok1 Hn); [|intros y Hy; assert (y = with_f_mnt None (with_f_ref 1 x)) as -> by congruence; done]].
    + intros g. unfold plus_at, none_held. repeat case_decide; subst; lia.
    + split_and!; [done..|]. apply lookup_lt_Some in Hx. by rewrite <- (vf_len _ _ Hok).
  - intros [-> _]. apply okp_bind. eapply okp_mono; [apply (fileclose_returns _ s1 f _ Hok1 L); cbn; [lia|congruence]|done|]. intros _ s2 (Hok2 & _). apply Hbad'. held.
Qed.

Definition any_stop : stop -> Prop := fun _ => True.

Lemma open_inode_ok s pr ip mnt omode : files_ok none_held s -> (pr < NPROC)%nat -> okp any_stop (open_inode pr ip mnt omode) s (fun _ s' => files_ok none_held s').
Proof.
  intros Hok Hpr. unfold open_inode. assert (forall s, files_ok none_held s -> okp any_stop (onfs (i_iunlockput ip) ;; modS (mntput mnt) ;; onfs i_end_op ;; mret None) s (fun (_ : option nat) s' => files_ok none_held s')) as Hbad.
  { intros s0 H0. apply okp_bind, okp_onfs; [done|]. intros _ s1 S1 _. apply okp_bind, okp_modS, okp_bind, okp_onfs; [done|]. intros _ s2 S2 _. apply okp_ret.
    apply (same_files_ok _ _ s2 S2), (same_files_ok _ s1); [done|]. by apply (same_files_ok _ s0). }
  apply new_fd_ok; try done. intros f fd s0 x H0 Hx Ht Hr. apply okp_bind, okp_onfs; [done|]. intros _ s1 S1 _. apply okp_bind, okp_onfs; [done|]. intros _ s2 S2 _.
  apply okp_bind, okp_modS, okp_ret. pose proof (same_files_ok _ _ _ S2 (same_files_ok _ _ _ S1 H0)) as H2. apply (typed_ok _ _ _ _ x); try done; [|lia].
  destruct S2 as (-> & _), S1 as (-> & _). done.
Qed.

Lemma cg_call_ok {A} s (m : M (vst F) A) : (forall s', same_files s s' -> okp any_stop m s' (fun _ s' => files_ok none_held s')) ->
  okp any_stop (cg_locked_call m) s (fun _ s' => files_ok none_held s').
Proof.
  intros Hm. apply okp_bind, okp_oncgs; [done|]. intros _ s1 S1 _. apply okp_bind. eapply okp_mono; [by apply Hm|done|]. intros r s2 H2. apply okp_bind, okp_oncgs; [done|].
  intros _ s3 S3 _. apply okp_ret. by apply (same_files_ok _ s2).
Qed.

Lemma cg_typed s f i name r w (c : nat) x : files_ok none_held s -> ftable s !! f = Some x -> ftype x = FD_NONE -> f_ref x = 1 ->
  okp any_stop (modS (upd_file f (as_cg i name r w)) ;; oncgs (modS (upd_cg i (fun c => with_ref_count (ref_count c +i 1) c))) ;; mret (Some c)) s (fun _ s' => files_ok none_held s').
Proof.
  intros Hok Hx Ht Hr. apply okp_bind, okp_modS, okp_bind, okp_oncgs; [done|]. intros _ s1 S1 _. apply okp_ret, (same_files_ok _ _ _ S1). apply (typed_ok _ _ _ _ x); try done. lia.
Qed.

Lemma cg_open_dir_ok s pr i omode : files_ok none_held s -> (pr < NPROC)%nat -> okp any_stop (cg_open_dir pr i omode) s (fun _ s' => files_ok none_held s').
Proof.
  intros Hok Hpr. apply cg_call_ok. intros s' S'. pose proof (same_files_ok _ _ _ S' Hok) as Hok'. unfold unsafe_cg_open_dir. apply okp_bind, okp_oncgs; [done|]. intros c s1 S1 _.
  pose proof (same_files_ok _ _ _ S1 Hok') as Hok1. case_decide; [by apply okp_ret|]. apply new_fd_ok; try done; [by intros; apply okp_ret..|]. intros f fd s0 x H0 Hx Ht Hr. by apply (cg_typed _ _ _ _ _ _ _ x).
Qed.

Lemma cg_open_file_ok s pr name i omode : files_ok none_held s -> (pr < NPROC)%nat -> okp any_stop (cg_open_file pr name i omode) s (fun _ s' => files_ok none_held s').
Proof.
  intros Hok Hpr. apply cg_call_ok. intros s' S'. pose proof (same_files_ok _ _ _ S' Hok) as Hok'. unfold unsafe_cg_open_file. destruct (get_file_name_constant name) as [k|]; [|by apply okp_ret].
  apply new_fd_ok; try done; [by intros; apply okp_ret..|]. intros f fd s0 x H0 Hx Ht Hr. apply okp_bind, okp_oncgs; [done|]. intros c s1 S1 _. apply okp_bind, okp_oncgs; [done|]. intros total s2 S2 _.
  pose proof (same_files_ok _ _ _ S2 (same_files_ok _ _ _ S1 H0)) as H2. destruct (cg_open_stats _ _ _ _) as [l|]; [|by apply okp_ret]. apply okp_bind, okp_modS.
  assert (ftable s2 !! f = Some x) as Hx2 by (destruct S2 as (-> & _), S1 as (-> & _); done).
  eapply cg_typed; [apply (typed_ok _ _ _ _ x); try done; [lia|cbn; congruence]|cbn [ftable upd_file]; by rewrite list_lookup_alter_eq, Hx2|done|done].
Qed.

(** What a close may leave to the layers below. *)
Definition below (t : fdtype) : Prop := t = FD_INODE \/ t = FD_CG.

Lemma sys_close_ok s pr fd : files_ok none_held s -> okp (fun _ => exists f x, open_fd s pr fd = Some f /\ ftable s !! f = Some x /\ below (ftype x)) (sys_close pr fd) s (fun r s' =>
  files_ok none_held s' /\ if r =? 0 then ofile s' = delete (pr, Z.to_nat fd) (ofile s) /\ is_Some (open_fd s pr fd) else s' = s /\ open_fd s pr fd = None).
Proof.
  intros Hok. unfold sys_close. apply okp_bind, (okp_run _ _ _ _ _ _ (argfd_run s pr fd)). destruct (open_fd s pr fd) as [f|] eqn:Ef; [|by apply okp_ret].
  pose proof (open_fd_at _ _ _ _ Ef) as Hf. destruct (fd_file _ s _ f Hok ltac:(done) Hf) as (x & Hx & Hr).
  pose proof (ref_small _ s f x Hok ltac:(done) Hx) as Hr'. apply okp_bind, okp_modS, okp_bind, (okp_run _ _ _ _ _ _ (get_file_run f x (set_ofile (delete (pr, Z.to_nat fd)) s) Hx)), okp_bind.
  pose proof (del_fd_ok _ s _ f Hok Hf) as Hok1. set (s1 := set_ofile _ s) in *. assert (ftable s1 !! f = Some x) as Hx1 by done.
  assert (forall s2, files_ok none_held s2 -> ofile s2 = ofile s1 -> files_ok none_held s2 /\ ofile s2 = delete (pr, Z.to_nat fd) (ofile s) /\ is_Some (Some f)) as Hend by (intros s2 ? ->; by split_and!).
  pose proof (fileclose_ok _ s1 f x Hok1 Hx1 ltac:(lia)) as Hc. destruct (ftype x) eqn:Et.
  4:{ apply okp_bind, okp_oncgs; [intros _; exists f, x; split_and!; [done..|by right]|]. intros _ s2 S2 _. apply okp_bind. unfold unsafe_cg_close. apply okp_bind.
      assert (ftable s2 !! f = Some x) as Hx2 by (by destruct S2 as (-> & _)). apply (okp_run _ _ _ _ _ _ (get_file_run f x s2 Hx2)), okp_bind.
      eapply okp_mono; [apply (fileclose_ok _ s2 f x (same_files_ok _ _ _ S2 Hok1) Hx2 ltac:(lia))|congruence|]. intros _ s3 (Hok3 & E3 & _). apply okp_bind.
      assert (files_ok none_held s3) as Hok3' by held. assert (exists f0 x0, Some f = Some f0 /\ ftable s !! f0 = Some x0 /\ below (ftype x0)) as Hst by (exists f, x; split_and!; [done..|by right]).
      destruct (f_cgp x) as [i|]; [|by unfold okp]. apply okp_ret, okp_bind, okp_oncgs; [done|]. intros _ s4 S4 _. apply okp_bind, okp_oncgs; [done|]. intros c s5 S5 _.
      assert (forall s6, same_files s5 s6 -> okp (fun _ => exists f0 x0, Some f = Some f0 /\ ftable s !! f0 = Some x0 /\ below (ftype x0)) (oncgs cgroup_unlock ;; mret tt) s6 (fun _ s7 => okp (fun _ => exists f0 x0, Some f = Some f0 /\ ftable s !! f0 = Some x0 /\ below (ftype x0)) (mret 0) s7 (fun r s' =>
        files_ok none_held s' /\ if r =? 0 then ofile s' = delete (pr, Z.to_nat fd) (ofile s) /\ is_Some (Some f) else s' = s /\ Some f = None))) as Hu.
      { intros s6 S6. apply okp_bind, okp_oncgs; [done|]. intros _ s7 S7 _. apply okp_ret, okp_ret. apply Hend.
        - apply (same_files_ok _ _ _ S7), (same_files_ok _ _ _ S6), (same_files_ok _ _ _ S5), (same_files_ok _ _ _ S4). done.
        - destruct S7 as (_ & -> & _), S6 as (_ & -> & _), S5 as (_ & -> & _), S4 as (_ & -> & _). rewrite E3. by destruct S2 as (_ & -> & _). }
      destruct (_ && _); [apply okp_oncgs; [done|]; intros [] s6 S6 _; by apply Hu|apply okp_ret; by apply Hu]. }
  all: eapply okp_mono; [exact Hc|intros e He; first [discriminate He|exists f, x; split_and!; [done..|by left]]|].
  all: intros _ s2 (Hok2 & E2 & _); apply okp_ret; apply Hend; [held|done].
Qed.

(** [fork] gives the child the descriptors of its parent. *)
Lemma fork_files_ok cur np fds : forall s, files_ok none_held s -> NoDup fds -> (forall fd, fd ∈ fds -> (fd < NFD)%nat) -> (np < NPROC)%nat -> cur <> np ->
  (forall fd, fd ∈ fds -> ofile s !! (np, fd) = None) ->
  okp (fun _ => False) (fork_files fds cur np) s (fun _ s' => files_ok none_held s' /\
    forall p fd, ofile s' !! (p, fd) = if decide (p = np /\ fd ∈ fds) then ofile s !! (cur, fd) else ofile s !! (p, fd)).
Proof.
  induction fds as [|fd fds IH]; intros s Hok Hnd Hlt Hnp Hne Hno; cbn [fork_files]; [apply okp_ret; split; [done|]; intros p fd; rewrite decide_False by set_solver; done|].
  apply NoDup_cons in Hnd as [Hni Hnd]. apply okp_bind, okp_getS, okp_bind. destruct (ofile s !! (cur, fd)) as [f|] eqn:Ef.
  - destruct (fd_file _ s _ f Hok ltac:(done) Ef) as (x & Hx & Hr). destruct (filedup_ok _ s f x Hok Hx) as (s1 & E1 & Hok1 & Eo1); [split; [done|by eapply ref_small]|].
    apply okp_bind, (okp_run _ _ _ _ _ _ E1), okp_modS.
    assert (files_ok none_held (set_ofile (<[(np, fd) := f]>) s1)) as Hok2.
    { eapply files_ext; [|apply (set_fd_ok _ s1 (np, fd) f Hok1); [rewrite Eo1; apply Hno; set_solver|split_and!; [done|apply Hlt; set_solver|by eapply (vf_range _ _ Hok)]|]].
      - intros g. unfold plus_at, none_held. repeat case_decide; subst; lia.
      - intros y Hy. destruct (vf_ref _ _ Hok1 f y Hy) as [-> _]. rewrite Eo1. pose proof (refs_pos f _ _ Ef). unfold plus_at, none_held. rewrite decide_True by done. lia. }
    eapply okp_mono; [apply (IH _ Hok2 Hnd); [set_solver|done|done|]|done|].
    + intros fd' Hfd'. cbn. rewrite lookup_insert_ne by (intros [= ->]; done). rewrite Eo1. apply Hno. set_solver.
    + intros _ s2 (Hok3 & H3). split; [done|]. intros p fd'. rewrite H3. cbn [ofile set_ofile]. rewrite Eo1.
      destruct (decide (p = np /\ fd' ∈ fds)) as [[-> Hin]|Hout].
      * rewrite decide_True by set_solver. by rewrite lookup_insert_ne by (intros [= ? ->]; done).
      * destruct (decide (p = np /\ fd' = fd)) as [[-> ->]|Hx']; [rewrite lookup_insert_eq, decide_True, Ef by set_solver; done|].
        rewrite lookup_insert_ne by (intros [= -> ->]; by apply Hx'). rewrite decide_False; [done|]. intros [-> [->|?]%elem_of_cons]; [by apply Hx'|by apply Hout].
  - apply okp_ret. eapply okp_mono; [apply (IH s Hok Hnd); [set_solver|done|done|set_solver]|done|]. intros _ s2 (Hok3 & H3). split; [done|]. intros p fd'. rewrite H3.
    destruct (decide (p = np /\ fd' ∈ fds)) as [[-> Hin]|Hout]; [by rewrite decide_True by set_solver|]. case_decide as Hd; [|done]. destruct Hd as [-> [->|?]%elem_of_cons]; [|by destruct Hout].
    rewrite Ef. apply Hno. set_solver.
Qed.

Lemma exit_files_ok cur fds : forall s, files_ok none_held s -> okp any_stop (exit_files fds cur) s (fun _ s' => files_ok none_held s' /\
  forall p fd, ofile s' !! (p, fd) = if decide (p = cur /\ fd ∈ fds) then None else ofile s !! (p, fd)).
Proof.
  induction fds as [|fd fds IH]; intros s Hok; cbn [exit_files]; [apply okp_ret; split; [done|]; intros p fd; rewrite decide_False by set_solver; done|].
  apply okp_bind, okp_getS, okp_bind. destruct (ofile s !! (cur, fd)) as [f|] eqn:Ef.
  - destruct (fd_file _ s _ f Hok ltac:(done) Ef) as (x & Hx & Hr). pose proof (ref_small _ s f x Hok ltac:(done) Hx) as Hr'. apply okp_bind.
    eapply okp_mono; [apply (fileclose_ok _ s f x Hok Hx ltac:(lia))|done|]. intros _ s1 (Hok1 & E1 & _). apply okp_modS.
    assert (files_ok none_held (set_ofile (delete (cur, fd)) s1)) as Hok2.
    { eapply files_ext; [|apply (del_fd_ok _ s1 (cur, fd) f Hok1); by rewrite E1]. intros g. unfold plus_at, none_held. repeat case_decide; subst; lia. }
    eapply okp_mono; [apply (IH _ Hok2)|done|]. intros _ s2 (Hok3 & H3). split; [done|]. intros p fd'. rewrite H3. cbn [ofile set_ofile]. rewrite E1.
    destruct (decide (p = cur /\ fd' = fd)) as [[-> ->]|Hne]; [rewrite lookup_delete_eq, (decide_True (P := cur = cur /\ fd ∈ fd :: fds)) by set_solver; by case_decide|].
    rewrite lookup_delete_ne by (intros [= -> ->]; by apply Hne). destruct (decide (p = cur /\ fd' ∈ fds)) as [[-> ?]|?]; [by rewrite decide_True by set_solver|]. rewrite decide_False; [done|]. set_solver.
  - apply okp_ret. eapply okp_mono; [apply (IH s Hok)|done|]. intros _ s2 (Hok3 & H3). split; [done|]. intros p fd'. rewrite H3.
    destruct (decide (p = cur /\ fd' ∈ fds)) as [[-> ?]|?]; [by rewrite decide_True by set_solver|]. case_decide as Hd; [|done]. destruct Hd as [-> [->|?]%elem_of_cons]; [done|]. by destruct n.
Qed.

(** Reading and writing change a pipe's data and a file's offset. *)
Lemma set_pipe_ok h s p q q' : files_ok h s -> pipes s !! p = Some (Some q) -> same_ends q q' -> files_ok h (set_pipes (<[p := Some q']>) s).
Proof.
  intros [H1 H2 H3 H4 H5 H6 H7 H8] Hq [Er Ew]. pose proof (lookup_lt_Some _ _ _ Hq) as Hlt. assert (forall w, end_open w q' = end_open w q) as Eo by (by intros []).
  assert (forall p' q0, <[p := Some q']> (pipes s) !! p' = Some (Some q0) -> exists q1, pipes s !! p' = Some (Some q1) /\ same_ends q1 q0) as Hp.
  { intros p' q0. destruct (decide (p = p')) as [<-|]; [rewrite list_lookup_insert_eq by done; intros [= <-]; by exists q|rewrite list_lookup_insert_ne by done; intros; by exists q0]. }
  split; cbn [ftable ofile pipes set_pipes]; try done.
  - intros f x Hx Ht. destruct (H5 f x Hx Ht) as (p' & q0 & E1 & E2 & E3). destruct (decide (p = p')) as [<-|]; [|exists p', q0; by rewrite list_lookup_insert_ne].
    assert (q0 = q) as -> by congruence. exists p, q'. rewrite list_lookup_insert_eq, Eo by done. done.
  - intros p' q0 w (q1 & Hq1 & [Er1 Ew1])%Hp Ho. apply (H7 p' q1 w Hq1). rewrite <- Ho. by destruct w.
  - intros p' q0 (q1 & Hq1 & [-> ->])%Hp. by eapply H8.
Qed.

Lemma off_ok s f r : files_ok none_held s -> files_ok none_held (upd_file f (fun x => with_f_off (f_off x +u r) x) s).
Proof.
  intros Hok. apply (files_ext (plus_at f 0 none_held)); [intros k; unfold plus_at; case_decide; lia|]. apply upd_file_ok; [done|]. intros x Hx.
  destruct (vf_ref _ _ Hok f x Hx). split_and!; try done; cbn; try lia. rewrite Z.add_0_r. by apply (vf_none _ _ Hok f).
Qed.

Lemma get_pipe_ok h s f x : files_ok h s -> ftable s !! f = Some x -> ftype x = FD_PIPE -> exists p q, get_pipe (f_pipe x) s = inr ((p, q), s) /\ pipes s !! p = Some (Some q).
Proof. intros Hok Hx Ht. destruct (vf_pipe _ _ Hok f x Hx Ht) as (p & q & Ep & Hq & _). exists p, q. split; [|done]. unfold get_pipe. mrun. rewrite Ep. cbn [deref]. mrun. by rewrite Hq. Qed.

Lemma pipewrite_ends killed rest : forall p i, same_ends p (pipewrite killed p i rest).1.
Proof.
  induction rest as [|b rest IH]; intros p i; cbn [pipewrite]; [done|]. destruct (nwrite p =? _); [by destruct (_ || _)|]. apply (IH (pipe_put p b) (i + 1)).
Qed.
Lemma piperead_ends {V} {BS : ByteSink V} killed p n (v : V) : same_ends p (piperead killed p n v).1.1.
Proof.
  unfold piperead. destruct (_ && _); [by destruct killed|]. assert (forall m p i (v : V), same_ends p (piperead_copy p i m v).1.1) as H.
  { induction m as [|m IH]; intros p0 i v0; cbn [piperead_copy]; [done|]. destruct (_ =? _); [done|]. cbn. apply (IH (pipe_get p0).2). }
  specialize (H (Z.to_nat n) p 0 v). by destruct (piperead_copy p 0 (Z.to_nat n) v) as [[? ?] ?].
Qed.

(** A pipe that a file refers to is there. *)
Definition no_pipe_fault (t : fdtype) (e : stop) : Prop := t = FD_PIPE -> e = Sleep.

Lemma fileread_ok {V} {BS : ByteSink V} killed s f x n (dst : V) : files_ok none_held s -> ftable s !! f = Some x ->
  okp (no_pipe_fault (ftype x)) (vfs_fileread killed f n dst) s (fun _ s' => files_ok none_held s' /\ ofile s' = ofile s).
Proof.
  intros Hok Hx. unfold vfs_fileread. apply okp_bind, (okp_run _ _ _ _ _ _ (get_file_run f x s Hx)). destruct (readable x); [|by apply okp_ret]. cbn [negb]. destruct (ftype x) eqn:Et; [done| |..|done|done].
  - destruct (get_pipe_ok _ s f x Hok Hx Et) as (p & q & E & Hq). apply okp_bind, (okp_run _ _ _ _ _ _ E). pose proof (piperead_ends killed q n dst) as He. cbn [snd fst].
    destruct (piperead killed q n dst) as [[q' r] dst']. destruct r as [i| |]; [|by apply okp_ret|by intros _]. apply okp_bind, okp_modS, okp_ret. split; [by eapply set_pipe_ok|done].
  - apply okp_bind. destruct (f_ip x) as [ip|]; [|done]. apply okp_ret, okp_bind, okp_onfs; [done|]. intros _ s1 S1 _. apply okp_bind, okp_onfs; [done|]. intros r s2 S2 _.
    pose proof (same_files_ok _ _ _ S2 (same_files_ok _ _ _ S1 Hok)) as H2. assert (ofile s2 = ofile s) as E2 by (destruct S2 as (_ & -> & _), S1 as (_ & -> & _); done).
    apply okp_bind. assert (forall s3, files_ok none_held s3 -> ofile s3 = ofile s -> okp (no_pipe_fault FD_INODE) (onfs (i_iunlock ip) ;; mret r) s3 (fun _ s' => files_ok none_held s' /\ ofile s' = ofile s)) as Hend.
    { intros s3 H3 E3. apply okp_bind, okp_onfs; [done|]. intros _ s4 S4 _. apply okp_ret. split; [by apply (same_files_ok _ s3)|]. destruct S4 as (_ & -> & _). done. }
    destruct (0 <? r.1); [apply okp_modS; apply Hend; [by apply off_ok|done]|apply okp_ret; by apply Hend].
Qed.

Lemma filewrite_loop_ok f addr n fuel : forall i s, files_ok none_held s -> okp any_stop (filewrite_loop fuel f addr n i) s (fun _ s' => files_ok none_held s' /\ ofile s' = ofile s).
Proof.
  induction fuel as [|fuel IH]; intros i s Hok; cbn [filewrite_loop]; [by destruct (i <? n)|]. destruct (i <? n); [|by apply okp_ret].
  apply okp_bind, okp_onfs; [done|]. intros _ s1 S1 _. apply okp_bind. unfold get_file. apply okp_bind, okp_getS. destruct (ftable s1 !! f) as [x|]; [|done]. apply okp_ret, okp_bind.
  destruct (f_ip x) as [ip|]; [|done]. apply okp_ret, okp_bind, okp_onfs; [done|]. intros _ s2 S2 _. apply okp_bind, okp_onfs; [done|]. intros r s3 S3 _.
  pose proof (same_files_ok _ _ _ S3 (same_files_ok _ _ _ S2 (same_files_ok _ _ _ S1 Hok))) as H3. assert (ofile s3 = ofile s) as E3 by (destruct S3 as (_ & -> & _), S2 as (_ & -> & _), S1 as (_ & -> & _); done).
  apply okp_bind. apply (okp_mono any_stop _ _ _ (fun _ s' => files_ok none_held s' /\ ofile s' = ofile s)); [|done|].
  { destruct (0 <? r); [apply okp_modS; split; [by apply off_ok|done]|by apply okp_ret]. }
  intros _ s4 [H4 E4]. apply okp_bind, okp_onfs; [done|]. intros _ s5 S5 _. apply okp_bind, okp_onfs; [done|]. intros _ s6 S6 _.
  pose proof (same_files_ok _ _ _ S6 (same_files_ok _ _ _ S5 H4)) as H6. assert (ofile s6 = ofile s) as E6 by (destruct S6 as (_ & -> & _), S5 as (_ & -> & _); done).
  destruct (r <? 0); [by apply okp_ret|]. destruct (negb _); [done|]. eapply okp_mono; [by apply IH|done|]. intros _ s7 [H7 E7]. by rewrite E7.
Qed.

Lemma filewrite_ok killed s f x addr n : files_ok none_held s -> ftable s !! f = Some x ->
  okp (no_pipe_fault (ftype x)) (vfs_filewrite killed f addr n) s (fun _ s' => files_ok none_held s' /\ ofile s' = ofile s).
Proof.
  intros Hok Hx. unfold vfs_filewrite. apply okp_bind, (okp_run _ _ _ _ _ _ (get_file_run f x s Hx)). destruct (writable x); [|by apply okp_ret]. cbn [negb]. destruct (ftype x) eqn:Et; [done| |..|done|done].
  - destruct (get_pipe_ok _ s f x Hok Hx Et) as (p & q & E & Hq). apply okp_bind, (okp_run _ _ _ _ _ _ E). pose proof (pipewrite_ends killed (take (Z.to_nat n) addr) q 0) as He. cbn [snd fst].
    destruct (pipewrite killed q 0 _) as [q' r]. destruct r as [i| |]; [..|by intros _]; apply okp_bind, okp_modS, okp_ret; (split; [by eapply set_pipe_ok|done]).
  - apply okp_bind. eapply okp_mono; [apply (filewrite_loop_ok f addr n (Z.to_nat n) 0 s Hok)|done|]. intros i s' H'. by apply okp_ret.
Qed.

(** ** The calls, in any order *)

Inductive fcall : vst F -> vst F -> Prop :=
| call_dup s s' pr fd r : (pr < NPROC)%nat -> sys_dup pr fd s = inr (r, s') -> fcall s s'
| call_close s s' pr fd r : sys_close pr fd s = inr (r, s') -> fcall s s'
| call_pipe s s' pr page r : (pr < NPROC)%nat -> sys_pipe pr page s = inr (r, s') -> fcall s s'
| call_open s s' pr ip mnt omode r : (pr < NPROC)%nat -> open_inode pr ip mnt omode s = inr (r, s') -> fcall s s'
| call_cg_dir s s' pr i omode r : (pr < NPROC)%nat -> cg_open_dir pr i omode s = inr (r, s') -> fcall s s'
| call_cg_file s s' pr name i omode r : (pr < NPROC)%nat -> cg_open_file pr name i omode s = inr (r, s') -> fcall s s'
| call_fork s s' cur np r : (np < NPROC)%nat -> cur <> np -> (forall fd, ofile s !! (np, fd) = None) ->
    fork_files (seq 0 NFD) cur np s = inr (r, s') -> fcall s s'
| call_exit s s' cur r : exit_files (seq 0 NFD) cur s = inr (r, s') -> fcall s s'
| call_read s s' killed k f n (dst : list Z) r : ofile s !! k = Some f -> vfs_fileread killed f n dst s = inr (r, s') -> fcall s s'
| call_write s s' killed k f n addr r : ofile s !! k = Some f -> vfs_filewrite killed f addr n s = inr (r, s') -> fcall s s'
| call_other s s' : same_files s s' -> fcall s s'.

Inductive files (c : cgs) (x : F) : vst F -> Prop :=
| files_boot : files c x (Vst (replicate NFILE no_file) ∅ [] c x [])
| files_call s s' : files c x s -> fcall s s' -> files c x s'.

Lemma files_boot_ok c x : files_ok none_held (Vst (replicate NFILE no_file) ∅ [] c x []).
Proof.
  assert (forall f y, replicate NFILE no_file !! f = Some y -> y = no_file) as Hl by (intros f y [-> _]%lookup_replicate; done). split; cbn.
  - done.
  - intros k f. by rewrite lookup_empty.
  - intros f y ->%Hl. done.
  - intros f y ->%Hl. done.
  - intros f y ->%Hl. done.
  - intros f g y z p w ->%Hl _ [? _]. done.
  - intros p q w. by rewrite lookup_nil.
  - intros p q. by rewrite lookup_nil.
Qed.

Lemma fcall_ok s s' : files_ok none_held s -> fcall s s' -> files_ok none_held s'.
Proof.
  intros Hok Hc. destruct Hc as [s s' pr fd r Hp E|s s' pr fd r E|s s' pr page r Hp E|s s' pr ip mnt om r Hp E|s s' pr i om r Hp E|s s' pr nm i om r Hp E|s s' cur np r Hp Hne Hnone E|s s' cur r E|s s' kl k f n dst r Hk E|s s' kl k f n addr r Hk E|s s' E].
  - apply (okp_result _ _ _ _ _ _ (sys_dup_ok s pr fd Hok Hp) E).
  - apply (okp_result _ _ _ _ _ _ (sys_close_ok s pr fd Hok) E).
  - apply (okp_result _ _ _ _ _ _ (sys_pipe_ok s pr page Hok Hp) E).
  - apply (okp_result _ _ _ _ _ _ (open_inode_ok s pr ip mnt om Hok Hp) E).
  - apply (okp_result _ _ _ _ _ _ (cg_open_dir_ok s pr i om Hok Hp) E).
  - apply (okp_result _ _ _ _ _ _ (cg_open_file_ok s pr nm i om Hok Hp) E).
  - apply (okp_result _ _ _ _ _ _ (fork_files_ok cur np (seq 0 NFD) s Hok (NoDup_seq _ _) (fun fd H => proj2 (proj1 (elem_of_seq _ _ _) H)) Hp Hne (fun fd _ => Hnone fd)) E).
  - apply (okp_result _ _ _ _ _ _ (exit_files_ok cur (seq 0 NFD) s Hok) E).
  - destruct (fd_file _ _ _ _ Hok (fun _ => Z.le_refl 0) Hk) as (x & Hx & _). apply (okp_result _ _ _ _ _ _ (fileread_ok kl s f x n dst Hok Hx) E).
  - destruct (fd_file _ _ _ _ Hok (fun _ => Z.le_refl 0) Hk) as (x & Hx & _). apply (okp_result _ _ _ _ _ _ (filewrite_ok kl s f x addr n Hok Hx) E).
  - by apply (same_files_ok _ s).
Qed.

Lemma files_inv c x s : files c x s -> files_ok none_held s.
Proof. induction 1; [apply files_boot_ok|by eapply fcall_ok]. Qed.

(** C13: Whatever calls run (dup, close, pipe, open of an inode, a cgroup directory or a cgroup file, the descriptor loops of
    fork and exit, reads and writes), the reference count of every open file is the number of descriptors of all processes
    that refer to it; every descriptor refers to a file in use, and if that file is an end of a pipe the pipe is not freed and
    that end of it is open; an end of a pipe is open only if some descriptor leads to it, and a pipe that has no end open is
    freed. *)
Theorem file_refs_exact c x s : files c x s ->
  (forall f y, ftable s !! f = Some y -> f_ref y = Z.of_nat (refs f (ofile s))) /\
  (forall k f, ofile s !! k = Some f -> exists y, ftable s !! f = Some y /\ 0 < f_ref y /\
     (ftype y = FD_PIPE -> exists p q, f_pipe y = Some p /\ pipes s !! p = Some (Some q) /\ end_open (writable y) q = true)) /\
  (forall p q, pipes s !! p = Some (Some q) -> exists w, end_open w q = true) /\
  (forall p q w, pipes s !! p = Some (Some q) -> end_open w q = true -> exists k f y, ofile s !! k = Some f /\ ftable s !! f = Some y /\ is_end p w y).
Proof.
  intros Hok%files_inv. split_and!.
  - intros f y Hy. destruct (vf_ref _ _ Hok f y Hy) as [-> _]. unfold none_held. lia.
  - intros k f Hk. destruct (fd_file _ _ _ _ Hok (fun _ => Z.le_refl 0) Hk) as (y & Hy & Hr). exists y. split; [done|]. split; [done|]. by apply (vf_pipe _ _ Hok f).
  - intros p q Hq. pose proof (vf_used _ _ Hok p q Hq) as H. destruct (readopen q) eqn:E; [by exists false|by exists true].
  - intros p q w Hq Ho. destruct (vf_open _ _ Hok p q w Hq Ho) as (f & y & Hy & He). destruct (refs_some f (ofile s)) as [k Hk]; [|by exists k, f, y].
    destruct (vf_ref _ _ Hok f y Hy) as [E H0]. unfold none_held in E. assert (f_ref y <> 0); [|lia]. intros E0. pose proof (vf_none _ _ Hok f y Hy E0). destruct He. congruence.
Qed.

(** C14: In every reachable state a call on descriptors does what its contract says and does not panic.  [sys_dup] returns the
    lowest free descriptor, now for the same file, or changes nothing, and fails only if the descriptor is not open or none is
    free; [sys_pipe] returns two fresh descriptors, for the reading and the writing end of one pipe, or leaves no descriptor
    behind, and fails only without a page, two free files or two free descriptors; [sys_close] frees exactly the descriptor,
    fails only if it is not open, and can stop only in the file system or the control groups below; the loop of [fork] gives
    the child the parent's descriptors; a read or a write on a pipe waits or returns. *)
Theorem descriptor_calls_outcomes c x s pr : files c x s -> (pr < NPROC)%nat ->
  (forall fd, exists r s', sys_dup pr fd s = inr (r, s') /\
     match r with
     | None => s' = s /\ (open_fd s pr fd = None \/ no_fd s pr)
     | Some new => exists f, open_fd s pr fd = Some f /\ ofile s !! (pr, new) = None /\ (forall k, k < new -> ofile s !! (pr, k) <> None)%nat /\
         ofile s' = <[(pr, new) := f]> (ofile s)
     end) /\
  (forall page, exists r s', sys_pipe pr page s = inr (r, s') /\
     match r with
     | None => ofile s' = ofile s /\ (page = None \/ few_files s \/ few_fds s pr)
     | Some (fd0, fd1) => exists f0 f1 y0 y1 p, ofile s' = <[(pr, fd1) := f1]> (<[(pr, fd0) := f0]> (ofile s)) /\ ofile s !! (pr, fd0) = None /\
         ofile s !! (pr, fd1) = None /\ fd0 <> fd1 /\ ftable s' !! f0 = Some y0 /\ ftable s' !! f1 = Some y1 /\ is_end p false y0 /\ is_end p true y1
     end) /\
  (forall fd, match sys_close pr fd s with
     | inl _ => exists f y, open_fd s pr fd = Some f /\ ftable s !! f = Some y /\ below (ftype y)
     | inr (r, s') => if r =? 0 then ofile s' = delete (pr, Z.to_nat fd) (ofile s) /\ is_Some (open_fd s pr fd) else s' = s /\ open_fd s pr fd = None
     end) /\
  (forall np, (np < NPROC)%nat -> pr <> np -> (forall fd, ofile s !! (np, fd) = None) -> exists s', fork_files (seq 0 NFD) pr np s = inr (tt, s') /\
     forall p fd, ofile s' !! (p, fd) = if decide (p = np /\ fd ∈ seq 0 NFD) then ofile s !! (pr, fd) else ofile s !! (p, fd)) /\
  (forall k f y killed n (buf : list Z), ofile s !! k = Some f -> ftable s !! f = Some y -> ftype y = FD_PIPE ->
     (forall e, vfs_fileread killed f n buf s = inl e -> e = Sleep) /\ (forall e, vfs_filewrite killed f buf n s = inl e -> e = Sleep)).
Proof.
  intros Hok%files_inv Hpr. split_and!.
  - intros fd. destruct (okp_total _ _ _ (sys_dup_ok s pr fd Hok Hpr)) as (r & s' & E & _ & H). by exists r, s'.
  - intros page. destruct (okp_total _ _ _ (sys_pipe_ok s pr page Hok Hpr)) as (r & s' & E & _ & H). by exists r, s'.
  - intros fd. pose proof (sys_close_ok s pr fd Hok) as H. unfold okp in H. destruct (sys_close pr fd s) as [e|[r s']]; [done|]. apply H.
  - intros np Hnp Hne Hn. destruct (okp_total _ _ _ (fork_files_ok pr np (seq 0 NFD) s Hok (NoDup_seq _ _) (fun fd H => proj2 (proj1 (elem_of_seq _ _ _) H)) Hnp Hne (fun fd _ => Hn fd))) as ([] & s' & E & _ & H). by exists s'.
  - intros k f y killed n buf Hk Hy Ht. pose proof (fileread_ok killed s f y n buf Hok Hy) as H1. pose proof (filewrite_ok killed s f y buf n Hok Hy) as H2. unfold okp in H1, H2.
    split; intros e E; [rewrite E in H1; by apply H1|rewrite E in H2; by apply H2].
Qed.

(** The files of the root group that can not be opened. *)
Definition root_refuses (k : cgroup_file_name) : bool :=
  match k with CPU_STAT | CPU_WEIGHT | CPU_MAX | PID_MAX | SET_CPU | SET_FRZ | MEM_MAX | MEM_MIN | MEM_STAT | IO_STAT => true | _ => false end.

Lemma root_refused k c total : root_refuses k = true -> cg_open_stats k true c total = None.
Proof. by destruct k. Qed.

Lemma oncgs_result {A} (m : M cgs A) s a s' : oncgs m s = inr (a, s') -> same_files s s'.
Proof. unfold oncgs. destruct (m (fcg s)) as [e|[b y]]; [done|]. by intros [= _ <-]. Qed.

(** C15: Opening a file of the root control group that only other groups have (cpu.max and the like) fails with -1, but unless no
    file or descriptor was free it leaves the process one descriptor more, for a file without a type.  A read of that descriptor
    panics the kernel if the table entry was readable in its previous use, and fails otherwise. *)
Theorem cg_open_root_leaks c x s pr name k omode r s' : files c x s -> (pr < NPROC)%nat -> get_file_name_constant name = Some k -> root_refuses k = true ->
  cg_open_file pr name cgroup_root omode s = inr (r, s') ->
  r = None /\
  (ofile s' = ofile s /\ (no_fd s pr \/ forall f y, ftable s !! f = Some y -> f_ref y <> 0) \/
   exists fd f y, ofile s !! (pr, fd) = None /\ ofile s' = <[(pr, fd) := f]> (ofile s) /\ ftable s' !! f = Some y /\ ftype y = FD_NONE /\ f_ref y = 1 /\
     forall killed n (dst : list Z), vfs_fileread killed f n dst s' = if readable y then inl (Panic "vfs_fileread") else inr ((-1, dst), s')).
Proof.
  intros Hok%files_inv Hpr Hk Hroot Hc. pattern r, s'. revert Hc. apply (okp_result any_stop).
  unfold cg_open_file, cg_locked_call, unsafe_cg_open_file. rewrite Hk. apply okp_bind, okp_oncgs; [done|]. intros _ s1 S1 _. pose proof (same_files_ok _ _ _ S1 Hok) as Hok1.
  apply okp_bind, okp_bind. destruct S1 as (F1 & O1 & P1). eapply okp_mono; [by apply (filealloc_ok _ s1 Hok1)|done|]. intros [f|] s2.
  2:{ intros [-> Hno]. apply okp_ret, okp_bind, okp_oncgs; [done|]. intros _ s3 (_ & O3 & _) _. apply okp_ret. split; [done|]. left. split; [congruence|]. right. by rewrite <- F1. }
  intros (Hok2 & _ & Eo2 & _ & y & Hy & R & ->). destruct (fresh_file _ s1 f y Hok1 Hy R) as (L & T & _). set (s2 := upd_file f _ s1) in *.
  apply okp_bind. eapply okp_mono; [apply fdalloc_ok|done|]. intros [fd|] s3.
  2:{ intros [-> Hno]. apply okp_bind. eapply okp_mono; [apply (fileclose_returns _ s2 f _ Hok2 L); cbn; [lia|congruence]|done|]. intros _ s3 (_ & O3 & _).
      apply okp_ret, okp_bind, okp_oncgs; [done|]. intros _ s4 (_ & O4 & _) _. apply okp_ret. split; [done|]. left. split; [congruence|]. left. intros a Ha. rewrite <- O1. by apply Hno. }
  intros (Hn & _ & _ & ->). apply okp_bind, okp_oncgs; [done|]. intros cc s4 (F4 & O4 & _) _. apply okp_bind, okp_oncgs; [done|]. intros total s5 (F5 & O5 & _) _.
  rewrite bool_decide_true, root_refused by done. apply okp_ret, okp_bind, okp_oncgs; [done|]. intros _ s6 (F6 & O6 & _) _. apply okp_ret. split; [done|]. right.
  assert (ftable s6 !! f = Some (with_f_mnt None (with_f_ref 1 y))) as Hf by (rewrite F6, F5, F4; exact L).
  exists fd, f, (with_f_mnt None (with_f_ref 1 y)). split_and!; [by rewrite <- O1|rewrite O6, O5, O4; cbn; by rewrite O1|done|done|done|].
  intros killed n dst. unfold vfs_fileread. mrun. rewrite (get_file_run f _ s6 Hf). cbn. rewrite T. by destruct (readable y).
Qed.
End files.

(** ** The calls at work, above a file system that does nothing *)

Module FileDemo.

#[local] Instance no_fs : InodeOps unit := {|
  i_ilock := fun _ => mret tt; i_iunlock := fun _ => mret tt; i_iput := fun _ => mret tt; i_iunlockput := fun _ => mret tt;
  i_stati := fun _ => panic "stat"; i_readi := fun _ _ _ _ _ v => mret (0, v); i_writei := fun _ _ _ _ => mret 0;
  i_begin_op := mret tt; i_end_op := mret tt |}.

Definition run {S A} (m : M S A) (s : S) : S := match m s with inr (_, s') => s' | inl _ => s end.

Definition cg0 : cgs := booted demo_heap.
Definition s0 : vst unit := Vst (replicate NFILE no_file) ∅ [] cg0 tt [].
Definition s1 := run (sys_pipe 3 (Some [])) s0.
Definition s2 := run (sys_dup 3 1) s1.
Definition s3 := run (fork_files (seq 0 NFD) 3 4) s2.
Definition s4 := run (exit_files (seq 0 NFD) 3) s3.
Definition s5 := run (exit_files (seq 0 NFD) 4) s4.

Lemma files_s1 : files cg0 tt s1.
Proof. eapply files_call; [apply files_boot|]. by eapply (call_pipe _ _ 3 (Some []) (Some (0, 1)%nat)); [apply Nat.ltb_lt|vm_compute]. Qed.
Lemma files_s2 : files cg0 tt s2.
Proof. eapply files_call; [apply files_s1|]. by eapply (call_dup _ _ 3 1 (Some 2%nat)); [apply Nat.ltb_lt|vm_compute]. Qed.
Lemma files_s3 : files cg0 tt s3.
Proof.
  eapply files_call; [apply files_s2|]. eapply (call_fork _ _ 3 4 tt); [by apply Nat.ltb_lt|done| |by vm_compute].
  assert (ofile s2 = <[(3, 2) := 1]> (<[(3, 1) := 1]> {[ (3, 0) := 0 ]}))%nat as -> by by vm_compute. intros fd. by simplify_map_eq.
Qed.
Lemma files_s4 : files cg0 tt s4.
Proof. eapply files_call; [apply files_s3|]. by eapply (call_exit _ _ 3 tt); vm_compute. Qed.
Lemma files_s5 : files cg0 tt s5.
Proof. eapply files_call; [apply files_s4|]. by eapply (call_exit _ _ 4 tt); vm_compute. Qed.

(** Three descriptors, copied by a fork: the writing end has four references. *)
Lemma file_refs_exact_witness : f_ref <$> (ftable s3 !! 1%nat) = Some 4 /\ (forall f y, ftable s3 !! f = Some y -> f_ref y = Z.of_nat (refs f (ofile s3))) /\ pipes s5 = [None].
Proof. split; [by vm_compute|]. split; [apply (file_refs_exact _ _ _ files_s3)|by vm_compute]. Defined.

Lemma descriptor_calls_outcomes_witness : exists s', sys_dup 4 2 s4 = inr (Some 3%nat, s') /\ ofile s' = <[(4, 3)%nat := 1%nat]> (ofile s4).
Proof.
  assert (4 < NPROC)%nat as H by (by apply Nat.ltb_lt). destruct (descriptor_calls_outcomes _ _ _ 4 files_s4 H) as (Hd & _).
  destruct (Hd 2) as (r & s' & E & H'). exists s'. assert (sys_dup 4 2 s4 = inr (Some 3%nat, run (sys_dup 4 2) s4)) as E2 by (vm_compute; reflexivity).
  rewrite E2 in E. injection E as <- <-. split; [done|]. by vm_compute.
Defined.

(** After the pipe is gone, a read of the descriptor that the refused open leaves stops the kernel. *)
Definition s6 := run (cg_open_file 3 (word_of "cpu.max") cgroup_root 0) s5.
Lemma cg_open_root_leaks_witness : ofile s5 = ∅ /\ ofile s6 = {[ (3, 0) := 0 ]}%nat /\ vfs_fileread false 0 1 [] s6 = inl (Panic "vfs_fileread").
Proof.
  split; [by vm_compute|]. assert (ofile s6 = {[ (3, 0) := 0 ]}%nat) as E by by vm_compute. split; [done|].
  destruct (cg_open_root_leaks _ _ s5 3 (word_of "cpu.max") CPU_MAX 0 None s6 files_s5) as (_ & [[E' _]|(fd & f & y & _ & Eo & Hy & _ & _ & Hr)]); [by apply Nat.ltb_lt|by vm_compute|done|by vm_compute|..].
  - exfalso. rewrite E in E'. by vm_compute in E'.
  - assert (f = 0%nat) as ->.
    { assert (Some f = {[ (3, 0) := 0 ]}%nat !! (3%nat, fd)) as Hl by (rewrite <- E, Eo; symmetry; apply lookup_insert_eq). symmetry in Hl. by apply lookup_singleton_Some in Hl as [_ <-]. }
    rewrite Hr. assert (readable <$> ftable s6 !! 0%nat = Some true) as Er by by vm_compute. rewrite Hy in Er. injection Er as ->. done.
Defined.
End FileDemo.
