(* ===== verification/FileWrite.v ===== *)
(** * Writing a file: vfs_filewrite on the native file system, the log and the buffer cache

    The layers of [VfsFile], [NativeFs], [Log] and [BufCache] put together.  A write of any length is a sequence of
    transactions of at most [max_write] bytes each; [filewrite_crash_safe] says that it puts the bytes into the file and
    that a crash at any of its block writes leaves, after recovery, the file with the bytes of the transactions that were
    committed. *)

From S2P Require Import Prelude Cgroup CgroupTree Pipe BufCache Log Device NativeFs FsFile FsLog VfsFile FileRefs.

Section ops.
Context (cg : Z) (is_loop isloop : Z -> bool).
Context (devsw_read : forall V, Z -> option (nat -> Z -> V -> Z * V)) (devsw_write : Z -> option (nat -> list Z -> Z -> Z)).
#[local] Existing Instance log_ops.

(** [native_ops] of native_fs.c. *)
#[local] Instance native_ops : InodeOps (fsys lsys) :=
  let BO := log_ops cg is_loop isloop in {|
  i_ilock := ilock (BO := BO);
  i_iunlock := iunlock;
  i_iput := iput (BO := BO);
  i_iunlockput := iunlockput (BO := BO);
  i_stati := stati;
  i_readi := fun V BS => readi (BO := BO) (devsw_read V);
  i_writei := writei (BO := BO) devsw_write;
  i_begin_op := onblk begin_op;
  i_end_op := onblk (end_op cg is_loop)
|}.
End ops.

Section filewrite.
Context (cg : Z) (is_loop isloop : Z -> bool) (dev : nat) (logstart nlog : Z) (k : nat) (sb0 : native_superblock).
Context (devsw_read : forall V, Z -> option (nat -> Z -> V -> Z * V)) (devsw_write : Z -> option (nat -> list Z -> Z -> Z)).
Notation d := (Z.of_nat dev).
Hypothesis Hd : d <> 0.
Hypothesis Hloop : is_loop d = false.
Hypothesis Hnl : isloop d = false.
Hypothesis Hlog : MAXOPBLOCKS < nlog.

#[local] Instance BO : BlockOps lsys := log_ops cg is_loop isloop.
#[local] Instance BL D tr : Blocks lsys dev := log_laws cg is_loop isloop dev logstart nlog Hd Hloop Hnl D tr.
#[local] Instance IO : InodeOps (fsys lsys) := native_ops cg is_loop isloop devsw_read devsw_write.
#[local] Notation home := (home_block logstart nlog).

(** The file system lies outside the log area. *)
Hypothesis G0 : geometry (BL := BL (fun _ => []) []) sb0.
Lemma G D tr : geometry (BL := BL D tr) sb0.
Proof. destruct G0. by split. Qed.

(** The inode and the blocks of a file, as they are on the disk. *)
Record on_disk (V : Z -> block) (ip : native_inode) : Prop := {
  od_meta : meta_used sb0 V;
  od_ok : file_ok sb0 V (addrs ip);
  od_full : full V (addrs ip) (isize ip);
  od_size : 0 <= isize ip <= MAXFILE * BSIZE;
  od_fits : inode_fits sb0 ip;
  od_synced : synced sb0 V ip
}.

Lemma on_disk_agree V V' ip : agree sb0 V V' -> on_disk V ip -> on_disk V' ip /\ contents V' ip = contents V ip.
Proof.
  intros A [H1 H2 H3 H4 H5 H6]. pose proof (G (fun _ => []) []) as Gx. split.
  - split; try done; [by eapply (meta_agree sb0 Gx V)|by eapply (file_ok_agree sb0 Gx V)|by eapply (full_agree sb0 Gx V)|by eapply (synced_agree sb0 Gx V)].
  - unfold contents. apply (fbytes_agree sb0 Gx V); [done..|lia|done].
Qed.

(** The inodes other than [n]. *)
Definition same_inodes (n : Z) (V V' : Z -> block) : Prop := forall m, 0 <= m < ninodes sb0 -> m <> n ->
  forall x, load_dinode (V' (IBLOCK m sb0)) (dinode_off m) x = load_dinode (V (IBLOCK m sb0)) (dinode_off m) x.

Lemma inodes_agree n V V' : agree sb0 V V' -> same_inodes n V V'.
Proof.
  intros A m Hm _ x. pose proof (iblock_range sb0 (G (fun _ => []) []) (NativeInode [] k m 0 false false 0 0 0 0 0) Hm) as Hr.
  pose proof (bitmap_before_data sb0 (G (fun _ => []) [])). pose proof (g_data _ G0). rewrite A; [done|]. unfold iblock in Hr. cbn in Hr. lia.
Qed.
Lemma same_inodes_trans n V1 V2 V3 : same_inodes n V1 V2 -> same_inodes n V2 V3 -> same_inodes n V1 V3.
Proof. intros H1 H2 m Hm Hne x. by rewrite H2, H1. Qed.

Lemma home_agree v V : (forall b, home b -> V b = v b) -> agree sb0 v V.
Proof. intros H b Hb. apply H. apply (g_ok _ G0). by right. Qed.

Lemma synced_locked V b ip : synced sb0 V (set_ilocked b ip) <-> synced sb0 V ip.
Proof.
  unfold synced. change (iblock sb0 (set_ilocked b ip)) with (iblock sb0 ip). change (inum (set_ilocked b ip)) with (inum ip). generalize (V (iblock sb0 ip)) (dinode_off (inum ip)). intros dd o.
  change (load_dinode dd o (set_ilocked b ip)) with (set_ilocked b (load_dinode dd o ip)). split; [|by intros ->]. destruct ip. unfold load_dinode, set_ilocked.
  intros E. injection E. intros. by f_equal.
Qed.
Lemma on_disk_locked V b ip : on_disk V (set_ilocked b ip) <-> on_disk V ip.
Proof. split; intros [H1 H2 H3 H4 H5 H6]; (split; [done..|]); by apply (synced_locked V b). Qed.

(** Between calls: the disk is [D], and [ip] is an inode in use that nobody has locked. *)
Record stored (D : Z -> block) (x : fsys lsys) (i : nat) (ip : native_inode) : Prop := {
  st_settled : settled dev logstart nlog D (blk x);
  st_blocks b : home b -> block_ok (D b);
  st_sb : exists r, sbs x !! k = Some (VfsSuperblock (Some (Sbpriv sb0 dev)) r);
  st_ip : icache x !! i = Some ip;
  st_isb : isb ip = k;
  st_unlocked : ilocked ip = false;
  st_valid : ivalid ip = true;
  st_iref : 1 <= iref ip;
  st_disk : on_disk D ip
}.

(** What a write of [bs] at [off] of the file [ip] leaves on the disk. *)
Record holds (D : Z -> block) (ip : native_inode) (off : Z) (bs : list Z) (V : Z -> block) (ip' : native_inode) : Prop := {
  ho_disk : on_disk V ip';
  ho_contents : contents V ip' = overwrite (contents D ip) off bs;
  ho_inum : inum ip' = inum ip;
  ho_inodes : same_inodes (inum ip) D V
}.

Lemma holds_agree D ip off bs V V' ip' : agree sb0 V V' -> holds D ip off bs V ip' -> holds D ip off bs V' ip'.
Proof.
  intros A [H1 H2 H3 H4]. destruct (on_disk_agree V V' ip' A H1) as [H1' E]. split; [done|by rewrite E|done|]. eapply same_inodes_trans; [done|by apply inodes_agree].
Qed.

Lemma overwrite_nothing c off : overwrite c off [] = c.
Proof. unfold overwrite. cbn. rewrite Nat.add_0_r. apply take_drop. Qed.
Lemma holds_nothing D ip off : on_disk D ip -> holds D ip off [] D ip.
Proof. intros H. split; try done. by rewrite overwrite_nothing. Qed.

(** One round of the loop, from [begin_op] to [end_op]. *)
Record round (D : Z -> block) (x : fsys lsys) (i : nat) (ip : native_inode) (off : Z) (bs : list Z) (x' : fsys lsys) (D' : Z -> block) (ip' : native_inode) (t : list (Z * block)) : Prop := {
  ro_stored : stored D' x' i ip';
  ro_holds : holds D ip off bs D' ip';
  ro_type : itype ip' = itype ip;
  ro_size : isize ip' = Z.max (isize ip) (off + Z.of_nat (length bs));
  ro_free : (size (free sb0 D) + ind_need (addrs ip') <= size (free sb0 D') + ind_need (addrs ip) + nblk off (Z.of_nat (length bs)))%nat;
  ro_trace : wtrace (bc (blk x')) = wtrace (bc (blk x)) ++ ((fun p => (d, p.1, p.2)) <$> t);
  ro_writes b : D' b = replay D t b;
  ro_crash : crashes_to dev logstart nlog D t (fun V => holds D ip off [] V ip \/ exists ip', holds D ip off bs V ip')
}.

Lemma nblk_round off n : 0 <= off -> 0 < n <= max_write -> (nblk off n <= 3)%nat.
Proof.
  change max_write with 1536. intros Ho Hn. unfold nblk. rewrite decide_False by lia. unfold BSIZE.
  assert ((off + n + (1024 - 1)) / 1024 <= (off + 3 * 1024) / 1024) as H by (apply Z.div_le_mono; lia). rewrite Z.div_add in H by lia. lia.
Qed.

Lemma open_stored D tr x i ip : stored D x i ip -> lst dev logstart nlog D tr (blk x) D ∅ ∅ -> open_file (BL := BL D tr) k sb0 x D ∅ i ip.
Proof. intros [_ _ H3 H4 H5 _ _ _ []] H. by split. Qed.

Lemma begin_run D x i ip : stored D x i ip -> exists b1, let x1 := Fsys b1 (sbs x) (icache x) (devices x) in
  i_begin_op x = inr (tt, x1) /\ lst dev logstart nlog D (wtrace (bc (blk x))) b1 D ∅ ∅.
Proof.
  intros [H1 H2 _ _ _ _ _ _ _]. destruct (begin_settled dev logstart nlog Hd D (blk x) H1 Hlog H2) as (b1 & E & Hl). exists b1. split; [|done]. cbn. unfold onblk. by rewrite E.
Qed.

Lemma ilock_run x i ip : icache x !! i = Some ip -> ilocked ip = false -> ivalid ip = true -> 1 <= iref ip -> i_ilock i x = inr (tt, upd_inode i (set_ilocked true) x).
Proof.
  intros Hi Hl Hv Hr. cbn. unfold ilock, acquiresleep_i, get_inode. mrun. rewrite Hi. cbn [deref]. mrun. rewrite (proj2 (Z.ltb_ge _ _)) by lia. mrun. rewrite Hi. cbn [deref]. mrun. rewrite Hl. mrun. by rewrite Hv.
Qed.
Lemma iunlock_run x i ip : icache x !! i = Some ip -> ilocked ip = true -> 1 <= iref ip -> i_iunlock i x = inr (tt, upd_inode i (set_ilocked false) x).
Proof. intros Hi Hl Hr. cbn. unfold iunlock, releasesleep_i, get_inode. mrun. rewrite Hi. cbn [deref]. mrun. rewrite Hl, (proj2 (Z.ltb_ge _ _)) by lia. done. Qed.

Lemma upd_inode_lookup x i ip f : icache x !! i = Some ip -> icache (upd_inode (S := lsys) i f x) !! i = Some (f ip).
Proof. intros H. cbn. by rewrite list_lookup_alter_eq, H. Qed.

Lemma holds_written D tr x ip off bs x3 v i ip3 L V : open_file (BL := BL D tr) k sb0 x3 v L i ip3 -> file_written sb0 D (set_ilocked true ip) ∅ off bs v ip3 L ->
  x = set_ilocked false ip3 -> (forall b, home b -> V b = v b) -> holds D ip off bs V x.
Proof.
  intros O W -> HV. apply (holds_agree _ _ _ _ v); [by apply home_agree|]. split.
  - apply on_disk_locked. by destruct O.
  - exact (fw_contents _ _ _ _ _ _ _ _ _ W).
  - by rewrite (fw_fields _ _ _ _ _ _ _ _ _ W).
  - exact (fw_inodes _ _ _ _ _ _ _ _ _ W).
Qed.

(** The transaction of one round. *)
Lemma round_run D x i ip off bs (n := Z.of_nat (length bs)) : stored D x i ip -> itype ip <> T_DEV -> Forall is_byte bs -> 0 < n <= max_write ->
  0 <= off <= isize ip -> off + n <= MAXFILE * BSIZE -> (3 < size (free sb0 D))%nat ->
  exists x1 x2 x3 x4 x5 D' ip' t, i_begin_op x = inr (tt, x1) /\ i_ilock i x1 = inr (tt, x2) /\ i_writei i bs off n x2 = inr (n, x3) /\ i_iunlock i x3 = inr (tt, x4) /\
    i_end_op x4 = inr (tt, x5) /\ round D x i ip off bs x5 D' ip' t.
Proof.
  intros Hst Ht Hby Hn Hoff Hmax Hfree. destruct (begin_run D x i ip Hst) as (b1 & E1 & Hl1). set (x1 := Fsys b1 _ _ _) in *. pose proof Hst as [_ Hblk Hsb Hi Hk Hul Hva Hrf Hdk].
  pose proof (ilock_run x1 i ip Hi Hul Hva Hrf) as E2. set (x2 := upd_inode _ _ _) in *. pose proof (upd_inode_lookup x1 i ip (set_ilocked true) Hi) as Hi2. fold x2 in Hi2.
  set (tr := wtrace (bc (blk x))) in *. assert (open_file (BL := BL D tr) k sb0 x2 D ∅ i (set_ilocked true ip)) as O.
  { apply (on_disk_locked D true) in Hdk as []. by split. }
  pose proof (nblk_round off n (proj1 Hoff) Hn) as Hnb.
  assert (wp (writei devsw_write i bs off n) x2 (fun r s => r = n /\ exists v' ip' L', open_file (BL := BL D tr) k sb0 s v' L' i ip' /\ inode_step x2 s i ip' /\ file_written sb0 D (set_ilocked true ip) ∅ off bs v' ip' L')) as (r & x3 & E3 & -> & v & ip3 & L & O3 & S3 & W).
  { eapply (writei_wp k sb0 (G D tr)); try done; [unfold bl_cap, BL, log_laws; rewrite size_empty; fold n; lia|fold n; lia|]. intros s' v' ip' L' O' S' W'. split; [done|]. by exists v', ip', L'. }
  pose proof (fw_fields _ _ _ _ _ _ _ _ _ W) as Ef. pose proof (inode_step_lookup _ _ _ _ _ S3 Hi2) as Hi3.
  assert (ilocked ip3 = true /\ iref ip3 = iref ip /\ isb ip3 = isb ip /\ itype ip3 = itype ip /\ ivalid ip3 = ivalid ip) as (F1 & F2 & F3 & F4 & F5) by (rewrite Ef; done).
  pose proof (iunlock_run x3 i ip3 Hi3 F1 ltac:(lia)) as E4. set (x4 := upd_inode _ _ x3) in *. pose proof (upd_inode_lookup x3 i ip3 (set_ilocked false) Hi3) as Hi4. fold x4 in Hi4.
  pose proof (proj1 (of_fs _ _ _ _ _ _ _ O3)) as Hl3. destruct (end_lst cg is_loop dev logstart nlog Hd Hloop D tr (blk x4) v L Hl3) as (s5 & t & E5 & T5 & Se & R5 & V5 & C5).
  pose proof (fw_size _ _ _ _ _ _ _ _ _ W) as Fz. pose proof (fw_free _ _ _ _ _ _ _ _ _ W) as Ff.
  set (ip4 := set_ilocked false ip3) in *. pose proof (fun V => holds_written D tr ip4 ip off bs x3 v i ip3 L V O3 W eq_refl) as Hh. assert (agree sb0 v (store (bc s5) d)) as A5 by (by apply home_agree).
  exists x1, x2, x3, x4, (Fsys s5 (sbs x4) (icache x4) (devices x4)), (store (bc s5) d), ip4, t.
  split_and!; [done..|cbn; unfold onblk; by rewrite E5|]. split; try done; [|by apply Hh|rewrite (free_agree sb0 (G D tr) v _ A5); exact Ff|].
  - split; [done| | |done|by rewrite <- Hk|done|by rewrite <- Hva|cbn; lia|by eapply ho_disk, Hh].
    + intros b Hb. rewrite V5 by done. by apply (l_view _ _ _ _ _ _ _ _ _ Hl3).
    + destruct Hsb as [r Er]. exists r. cbn. destruct S3 as (-> & _). done.
  - intros j. destruct (C5 j) as (V & Hr & [Ho|Hw]); exists V; (split; [done|]); [left|right; exists ip4; by apply Hh].
    apply (holds_agree _ _ _ _ D); [by apply home_agree|by apply holds_nothing].
Qed.

(** ** The rounds together *)

(** A number of bytes at which a crash can cut a write of [bs]. *)
Definition cut (bs : list Z) (m : nat) : Prop := (m <= length bs)%nat /\ (m = length bs \/ exists q, m = q * Z.to_nat max_write)%nat.

Record rounds (D : Z -> block) (x : fsys lsys) (i : nat) (ip : native_inode) (off : Z) (bs : list Z) (x' : fsys lsys) (D' : Z -> block) (ip' : native_inode) (t : list (Z * block)) : Prop := {
  rs_stored : stored D' x' i ip';
  rs_holds : holds D ip off bs D' ip';
  rs_size : isize ip' = Z.max (isize ip) (off + Z.of_nat (length bs));
  rs_trace : wtrace (bc (blk x')) = wtrace (bc (blk x)) ++ ((fun p => (d, p.1, p.2)) <$> t);
  rs_writes b : D' b = replay D t b;
  rs_crash : crashes_to dev logstart nlog D t (fun V => exists m ip', cut bs m /\ holds D ip off (take m bs) V ip')
}.

Lemma length_contents D ip : on_disk D ip -> length (contents D ip) = Z.to_nat (isize ip).
Proof. intros H. unfold contents, fbytes. by rewrite length_fmap, length_seqZ. Qed.

Lemma overwrite_app c off b1 b2 : 0 <= off -> (Z.to_nat off <= length c)%nat -> overwrite (overwrite c off b1) (off + Z.of_nat (length b1)) b2 = overwrite c off (b1 ++ b2).
Proof.
  intros Ho Hc. unfold overwrite. replace (Z.to_nat (off + Z.of_nat (length b1))) with (Z.to_nat off + length b1)%nat by lia.
  assert (length (take (Z.to_nat off) c) = Z.to_nat off) as El by (rewrite length_take; lia).
  rewrite (app_assoc (take _ c) b1 (drop _ c)). rewrite take_app_length' by (rewrite length_app; lia). rewrite drop_app_ge by (rewrite length_app; lia). rewrite drop_drop, !length_app, El, <- !app_assoc.
  do 4 f_equal. lia.
Qed.

Lemma rounds_none D x i ip off : stored D x i ip -> 0 <= off <= isize ip -> rounds D x i ip off [] x D ip [].
Proof.
  intros Hst Ho. split; [done|apply holds_nothing, Hst|cbn; lia|by rewrite app_nil_r|done|]. intros j. exists D. rewrite take_nil. split.
  - destruct (st_settled _ _ _ _ Hst) as [H1 H2 H3 _ _ _ _ _ _ _ H]. apply (recovers_here dev logstart nlog (lg (blk x))); [done..|]. apply recovered_recovers; [|done]. rewrite H3. unfold MAXOPBLOCKS in Hlog. lia.
  - exists 0%nat, ip. split; [split; [done|by left]|]. apply holds_nothing, Hst.
Qed.

Lemma holds_then D ip off b1 D1 ip1 b2 V ip2 : on_disk D ip -> 0 <= off <= isize ip -> holds D ip off b1 D1 ip1 -> holds D1 ip1 (off + Z.of_nat (length b1)) b2 V ip2 ->
  holds D ip off (b1 ++ b2) V ip2.
Proof.
  intros Hd0 Ho [H1 H2 H3 H4] [K1 K2 K3 K4]. split; [done| |congruence|eapply same_inodes_trans; [done|by rewrite <- H3]].
  rewrite K2, H2. apply overwrite_app; [lia|]. rewrite length_contents by done. lia.
Qed.

Lemma crashes_app D D1 t1 t2 (P : (Z -> block) -> Prop) : crashes_to dev logstart nlog D t1 P -> (forall b, D1 b = replay D t1 b) -> crashes_to dev logstart nlog D1 t2 P ->
  crashes_to dev logstart nlog D (t1 ++ t2) P.
Proof.
  intros C1 E C2 j. rewrite take_app. destruct (decide (j <= length t1)%nat) as [Hj|Hj].
  - replace (j - length t1)%nat with 0%nat by lia. rewrite take_0, app_nil_r. apply C1.
  - rewrite (take_ge t1) by lia. destruct (C2 (j - length t1)%nat) as (V & Hr & HP). exists V. split; [|done]. eapply recovers_ext; [|exact Hr].
    intros b. rewrite replay_app. by apply replay_ext.
Qed.

Lemma rounds_cons D x i ip off b1 b2 x1 D1 ip1 t1 x2 D2 ip2 t2 : stored D x i ip -> 0 <= off <= isize ip ->
  round D x i ip off b1 x1 D1 ip1 t1 -> (length b1 = Z.to_nat max_write \/ b2 = []) -> rounds D1 x1 i ip1 (off + Z.of_nat (length b1)) b2 x2 D2 ip2 t2 ->
  rounds D x i ip off (b1 ++ b2) x2 D2 ip2 (t1 ++ t2).
Proof.
  intros Hst Ho [R1 R2 R3 R4 R5 R6 R7 R8] Hl [S1 S2 S3 S4 S5 S6]. pose proof (st_disk _ _ _ _ Hst) as Hdk. split; [done|by eapply holds_then|rewrite S3, R4, length_app; lia| | |].
  - by rewrite S4, R6, fmap_app, app_assoc.
  - intros b. rewrite S5, replay_app. by apply replay_ext.
  - eapply crashes_app; [|exact R7|].
    + intros j. destruct (R8 j) as (V & Hr & [Hh|(ip' & Hh)]); exists V; (split; [done|]).
      * exists 0%nat, ip. rewrite take_0. split; [|done]. split; [lia|right; by exists 0%nat].
      * exists (length b1), ip'. rewrite take_app_length. split; [|done]. split; [rewrite length_app; lia|]. destruct Hl as [-> | ->]; [right; exists 1%nat; lia|left; by rewrite app_nil_r].
    + intros j. destruct (S6 j) as (V & Hr & m & ip' & [Hm Hc] & Hh). exists V. split; [done|]. exists (length b1 + m)%nat, ip'. split.
      * split; [rewrite length_app; lia|]. destruct Hc as [-> | [q ->]]; [left; by rewrite length_app|]. destruct Hl as [-> | ->]; [right; exists (S q); lia|left; rewrite app_nil_r; cbn in Hm; lia].
      * rewrite take_app_add. by eapply holds_then.
Qed.

(** ** The loop of vfs_filewrite *)

Definition set_fs (x : fsys lsys) (s : vst (fsys lsys)) : vst (fsys lsys) := Vst (ftable s) (ofile s) (pipes s) (fcg s) x (mntputs s).
Lemma onfs_run {A} (m : M (fsys lsys) A) s a x : m (fs s) = inr (a, x) -> onfs m s = inr (a, set_fs x s).
Proof. intros E. unfold onfs. by rewrite E. Qed.

(** The state after the bytes up to offset [o] are written: the offset of the file, and the file system [x]. *)
Definition moved (f : nat) (o : Z) (x : fsys lsys) (s : vst (fsys lsys)) : vst (fsys lsys) := set_fs x (upd_file f (with_f_off o) s).

Lemma alter_here {A} (g : A -> A) i (l : list A) x : l !! i = Some x -> g x = x -> alter g i l = l.
Proof. intros Hx E. apply list_eq. intros q. rewrite list_lookup_alter. destruct (decide (i = q)) as [<-|]; [|done]. rewrite Hx. cbn. by rewrite E. Qed.

Lemma moved_id f y s : ftable s !! f = Some y -> moved f (f_off y) (fs s) s = s.
Proof. intros Hy. unfold moved, set_fs, upd_file. cbn [ftable ofile pipes fcg mntputs fs]. rewrite (alter_here _ f (ftable s) y Hy); [by destruct s|by destruct y]. Qed.
Lemma moved_moved f o o' x x' s : moved f o' x' (moved f o x s) = moved f o' x' s.
Proof.
  unfold moved at 1 3. change (upd_file f (with_f_off o') (moved f o x s)) with (set_fs x (upd_file f (with_f_off o') (upd_file f (with_f_off o) s))). rewrite upd_file_twice. done.
Qed.
Lemma moved_lookup f o x s y : ftable s !! f = Some y -> ftable (moved f o x s) !! f = Some (with_f_off o y).
Proof. intros H. cbn. by rewrite list_lookup_alter_eq, H. Qed.

Lemma loop_round fuel f src n i s y j r x1 x2 x3 x4 x5 (n1 := if max_write <? n - i then max_write else n - i) : i < n -> ftable s !! f = Some y -> f_ip y = Some j -> 0 < n1 ->
  i_begin_op (fs s) = inr (tt, x1) -> i_ilock j x1 = inr (tt, x2) -> i_writei j (take (Z.to_nat n1) (drop (Z.to_nat i) src)) (f_off y) n1 x2 = inr (r, x3) -> r = n1 ->
  i_iunlock j x3 = inr (tt, x4) -> i_end_op x4 = inr (tt, x5) ->
  filewrite_loop (S fuel) f src n i s = filewrite_loop fuel f src n (i + n1) (moved f (f_off y +u n1) x5 s).
Proof.
  intros Hi Hf Hj Hn1 E1 E2 E3 -> E4 E5. cbn [filewrite_loop]. rewrite (proj2 (Z.ltb_lt _ _) Hi). fold n1.
  rewrite (bind_run _ _ _ _ _ (onfs_run _ s _ _ E1)), (bind_run _ _ _ _ _ (get_file_run f y (set_fs x1 s) Hf)). rewrite Hj. cbn [deref]. rewrite (bind_run _ _ _ _ _ eq_refl).
  rewrite (bind_run _ _ _ _ _ (onfs_run _ (set_fs x1 s) _ _ E2)), (bind_run _ _ _ _ _ (onfs_run _ (set_fs x2 (set_fs x1 s)) _ _ E3)). rewrite (proj2 (Z.ltb_lt _ _) Hn1), modS_bind.
  set (s3 := upd_file f _ _). rewrite (bind_run _ _ _ _ _ (onfs_run _ s3 _ _ E4)), (bind_run _ _ _ _ _ (onfs_run _ (set_fs x4 s3) _ _ E5)).
  rewrite (proj2 (Z.ltb_ge _ _)), Z.eqb_refl by lia. cbn [negb]. f_equal. unfold moved, set_fs, s3, upd_file. cbn [ftable ofile pipes fcg mntputs fs]. f_equal.
  apply list_eq. intros q. rewrite !list_lookup_alter. destruct (decide (f = q)) as [<-|]; [|done]. change (ftable (set_fs _ _)) with (ftable s). by rewrite Hf.
Qed.

(** Rounds left for [r] bytes. *)
Definition rounds_for (r : Z) : nat := Z.to_nat ((r + (max_write - 1)) / max_write).

Lemma rounds_for_step r : 0 < r -> (S (rounds_for (r - Z.min r max_write)) = rounds_for r)%nat.
Proof.
  unfold rounds_for. change max_write with 1536. intros Hr. replace (r + (1536 - 1)) with (r - 1 + 1 * 1536) by lia. rewrite Z.div_add by lia.
  pose proof (Z.div_pos (r - 1) 1536 ltac:(lia) ltac:(lia)). destruct (Z.min_spec r 1536) as [[H1 ->]|[H1 ->]].
  - rewrite Z.sub_diag, (Z.div_small (r - 1)) by lia. done.
  - replace (r - 1536 + (1536 - 1)) with (r - 1) by lia. lia.
Qed.

Lemma filewrite_loop_run f src j (n := Z.of_nat (length src)) : Forall is_byte src -> forall fuel i s y D ip, (0 <= i <= n) -> n - i <= Z.of_nat fuel ->
  ftable s !! f = Some y -> f_ip y = Some j -> stored D (fs s) j ip -> itype ip <> T_DEV -> 0 <= f_off y <= isize ip -> f_off y + (n - i) <= MAXFILE * BSIZE ->
  (3 * rounds_for (n - i) + ind_need (addrs ip) < size (free sb0 D))%nat ->
  exists x' D' ip' t, filewrite_loop fuel f src n i s = inr (n, moved f (f_off y + (n - i)) x' s) /\ rounds D (fs s) j ip (f_off y) (drop (Z.to_nat i) src) x' D' ip' t.
Proof.
  intros Hby. induction fuel as [|fuel IH]; intros i s y D ip Hi Hfu Hy Hj Hst Ht Ho Hmax Hfree.
  - assert (i = n) as -> by lia. exists (fs s), D, ip, []. rewrite Z.sub_diag, Z.add_0_r. split.
    + cbn [filewrite_loop]. rewrite Z.ltb_irrefl, moved_id by done. done.
    + unfold n. rewrite Nat2Z.id, drop_all. by apply rounds_none.
  - destruct (decide (i = n)) as [->|Hne].
    { exists (fs s), D, ip, []. rewrite Z.sub_diag, Z.add_0_r. cbn [filewrite_loop]. rewrite Z.ltb_irrefl, moved_id by done. split; [done|]. unfold n. rewrite Nat2Z.id, drop_all. by apply rounds_none. }
    set (n1 := if max_write <? n - i then max_write else n - i). assert (n1 = Z.min (n - i) max_write) as En1 by (unfold n1; destruct (Z.ltb_spec max_write (n - i)); lia).
    set (bs := take (Z.to_nat n1) (drop (Z.to_nat i) src)). assert (Z.of_nat (length bs) = n1) as Hl by (unfold bs; rewrite length_take, length_drop; change max_write with 1536 in *; lia).
    pose proof (rounds_for_step (n - i) ltac:(lia)) as Hrf. rewrite <- En1 in Hrf. assert (0 < n1 <= max_write) as Hn1 by (change max_write with 1536 in *; lia).
    assert (MAXFILE * BSIZE = 274432) as EM by done. rewrite EM in *.
    destruct (round_run D (fs s) j ip (f_off y) bs Hst Ht) as (x1 & x2 & x3 & x4 & x5 & D1 & ip1 & t1 & E1 & E2 & E3 & E4 & E5 & R); [by apply Forall_take, Forall_drop|lia|done|lia|lia|].
    rewrite Hl in E3. rewrite (loop_round fuel f src n i s y j n1 x1 x2 x3 x4 x5) by (done || lia). fold n1. rewrite u32_id by (unfold is_u32; lia).
    pose proof (ro_stored _ _ _ _ _ _ _ _ _ _ R) as Hst1. pose proof (ro_size _ _ _ _ _ _ _ _ _ _ R) as Hz. pose proof (ro_free _ _ _ _ _ _ _ _ _ _ R) as Hfr. rewrite Hl in Hz, Hfr.
    pose proof (nblk_round (f_off y) n1 ltac:(lia) Hn1).
    destruct (IH (i + n1) (moved f (f_off y + n1) x5 s) (with_f_off (f_off y + n1) y) D1 ip1) as (x' & D' & ip' & t & E & R'); try done; try (cbn [f_off with_f_off]; lia).
    { by apply moved_lookup. }
    { by rewrite (ro_type _ _ _ _ _ _ _ _ _ _ R). }
    { replace (n - (i + n1)) with (n - i - n1) by lia. lia. }
    exists x', D', ip', (t1 ++ t). cbn [f_off with_f_off] in E, R'. split; [rewrite E; f_equal; f_equal; rewrite moved_moved; f_equal; lia|].
    rewrite <- (take_drop (Z.to_nat n1) (drop (Z.to_nat i) src)). fold bs. rewrite drop_drop. eapply rounds_cons; [done|lia|exact R| |].
    + destruct (Z.ltb_spec max_write (n - i)) as [H1|H1]; [left|right]; [lia|]. apply drop_ge. lia.
    + rewrite Hl. replace (Z.to_nat i + Z.to_nat n1)%nat with (Z.to_nat (i + n1)) by lia. exact R'.
Qed.

Lemma empty_geom D x i ip : stored D x i ip -> geom d (empty_log dev logstart nlog).
Proof. intros H. destruct (st_settled _ _ _ _ H) as [[[G1 G2 G3 G4 _] _ _ _ _] E1 E2 _ _ _ _ _ _ _ _]. rewrite E1, E2 in *. by split. Qed.

(** The machine stops after any of the writes, is rebooted, and recovers. *)
Lemma crash_recover D x i ip t P j D2 c2 g2 : stored D x i ip -> (forall V V', agree sb0 V V' -> P V -> P V') -> crashes_to dev logstart nlog D t P ->
  reboots cg is_loop d logstart nlog (replay D (take j t)) D2 -> booted d c2 D2 -> length (lh_block g2) = Z.to_nat LOGSIZE ->
  exists s', initlog cg is_loop logstart nlog d (Lsys g2 c2) = inr (tt, s') /\ P (store (bc s') d).
Proof.
  intros Hst HP HC Hrb Hb Hlen. destruct (HC j) as (V & Hr & HV). pose proof (empty_geom _ _ _ _ Hst) as Hg. pose proof (reboots_recovers cg is_loop d Hd Hloop _ _ D2 V Hg Hrb Hr) as Hr2.
  destruct (initlog_run cg is_loop d Hd Hloop g2 _ c2 D2 V Hg Hlen Hb Hr2) as (g' & c' & _ & E & _ & _ & _ & _ & _ & _ & _ & _ & _ & _ & (_ & _ & Hv)).
  exists (Lsys g' c'). split; [exact E|]. cbn [bc]. apply (HP V); [|done]. apply home_agree. intros b [_ Hb']. by rewrite Hv.
Qed.

End filewrite.

(** ** A file of three bytes on a small disk: the log in blocks 2 to 12, inodes in block 13, the bitmap in block 14 *)
Module WriteDemo.
Import FsDemo.

Definition sb1 : native_superblock := NativeSuperblock 40 25 11 2 13 14 15.
Definition file1 : native_inode := NativeInode (15 :: replicate 12 0) 0 1 1 false true T_FILE 0 0 1 3.
Definition disk1 (b : Z) : block :=
  if b =? 1 then put32s (zero_block) 0 [40; 25; 11; 2; 13; 14; 15]
  else if b =? 13 then put_dinode zero_block (dinode_off 1) file1
  else if b =? 14 then <[1%nat := 255]> (<[0%nat := 255]> zero_block)
  else if b =? 15 then splice zero_block 0 [97; 98; 99]
  else zero_block.

Definition with_disk (D : Z -> block) (c : bcache) : bcache :=
  Bcache (bufs c) (hprev c) (hnext c) (is_cache_enabled c) (havedisk1 c) (fun _ => D) (wtrace c) (cg_events c).
Definition cache1 : bcache := with_disk disk1 (buf_cache_init boot_cache).

(** A cache in which no buffer is valid. *)
Section idle.
Context (D : Z -> block) (c : bcache) (l : list nat) (Hc : forall i x, bufs c !! i = Some x -> flags x = 0 /\ refcnt x = 0 /\ locked x = false).
Lemma with_disk_ok : blk_ok 1 c l -> blk_ok 1 (with_disk D c) l.
Proof.
  intros [[] H2 H3 H4 H5 H6 _]. split; [by split|exact H2|exact H3|exact H4|exact H5|exact H6|].
  intros i x Hx _ _ Hf. destruct (Hc i x Hx) as (Hf' & _). rewrite Hf in Hf'. discriminate Hf'.
Qed.
Lemma with_disk_quiet : blk_ok 1 c l -> busy c = 0%nat -> quiet 1 (with_disk D c).
Proof.
  intros H Hb. exists l. split; [by apply with_disk_ok|]. split; [|change (busy (with_disk D c)) with (busy c); unfold NBUF; lia]. intros h b (x & (Hx & _) & Hl). destruct (Hc h x Hx) as (_ & _ & ?). congruence.
Qed.
Lemma with_disk_busy : busy (with_disk D c) = busy c.
Proof. done. Qed.
Lemma with_disk_unpinned b : ~ pinned 1 (with_disk D c) b.
Proof. apply clean_unpinned. intros i x Hx. exact (proj1 (Hc i x Hx)). Qed.
End idle.

Definition log1 : log := LogS 2 11 0 false 1 0 (replicate (Z.to_nat LOGSIZE) 0).
Definition x1 : fsys lsys := Fsys (Lsys log1 cache1) [VfsSuperblock (Some (Sbpriv sb1 1)) None] [file1] (DevHolder [] [] []).
Definition open1 : vfs_file := VfsF FD_INODE 1 true true 2 None (Some 0%nat) None None [] [].
Definition s1 : vst (fsys lsys) := Vst [open1] ∅ [] (CgroupTree.booted demo_heap) x1 [].

Lemma settled1 : settled 1 2 11 disk1 (blk x1).
Proof.
  split; cbn [blk x1 lg bc].
  - split; [split; cbn; unfold FSSIZE; try done; lia|cbn; lia|done|constructor|constructor].
  - done.
  - done.
  - done.
  - done.
  - done.
  - exact (with_disk_quiet disk1 _ _ boot_clean boot_blk_ok boot_busy).
  - unfold cache1. by rewrite with_disk_busy, boot_busy.
  - intros b. exact (with_disk_unpinned disk1 _ boot_clean b).
  - reflexivity.
  - split; [vm_compute; reflexivity|]. split; [vm_compute; reflexivity|]. intros b _. reflexivity.
Qed.

Lemma disk1_ok b : block_ok (disk1 b).
Proof. apply block_ok_dec. unfold disk1. repeat (case_match; [by vm_compute|]). by vm_compute. Qed.

Lemma used1 b : 0 <= b < 40 -> used sb1 disk1 b = (b <? 16).
Proof.
  intros Hb. assert (forallb (fun b => Bool.eqb (used sb1 disk1 b) (b <? 16)) (seqZ 0 40) = true) as HF by (vm_compute; reflexivity).
  rewrite forallb_forall in HF. apply Bool.eqb_prop, HF. apply list_elem_of_In, elem_of_seqZ. lia.
Qed.

Lemma slot1 p : slot disk1 (addrs file1) p <> 0 -> (p < NPOS)%nat -> p = 0%nat.
Proof. unfold slot. destruct (decide (p <= 12)%nat) as [H|]; [|by rewrite decide_True]. intros Hne _. do 13 (destruct p as [|p]; [done|]). lia. Qed.

Lemma on_disk1 : on_disk sb1 disk1 file1.
Proof.
  split.
  - intros b Hb. assert (0 <= b < 15) by exact Hb. rewrite used1 by lia. apply Z.ltb_lt. lia.
  - split; [done| |].
    + intros p Hp Hne. rewrite (slot1 p Hne Hp). by vm_compute.
    + intros p q Hp Hq Hne E. rewrite (slot1 p), (slot1 q) by (done || congruence). done.
  - intros o Ho. assert (0 <= o < 3) by exact Ho. unfold fblock. by rewrite Z.div_small by (unfold BSIZE; lia).
  - done.
  - split; [done|]. split; [by repeat constructor|]. split; [done|]. split; [|done]. by repeat constructor.
  - by vm_compute.
Qed.

Lemma stored1 : stored 1 2 11 0 sb1 disk1 x1 0 file1.
Proof. split; try done; [exact settled1|intros b _; apply disk1_ok|by eexists|exact on_disk1]. Qed.

Lemma one_dev : Z.of_nat 1 <> 0.
Proof. done. Qed.

Lemma geometry1 : geometry (BL := BL 7 no_loop no_loop 1 2 11 one_dev eq_refl eq_refl (fun _ => []) []) sb1.
Proof. split; cbn; try done. intros b Hb. unfold bl_ok, BL, log_laws, home_block, FSSIZE. lia. Qed.

Lemma free1 : (3 * rounds_for 2 + ind_need (addrs file1) < size (free sb1 disk1))%nat.
Proof. apply Nat.ltb_lt. vm_compute. reflexivity. Qed.

End WriteDemo.
