(* ===== verification/CpuAccount.v ===== *)
(** * CPU accounting of processes and control groups (kernel/cpu_account.c)

    The scheduler keeps one [cpu_account] per processor.  Before it runs a process
    it asks [cpu_account_schedule_process_decision], which walks from the process's
    control group to the root, opens a new accounting frame in every group whose
    period is over and refuses the process when one of the groups has used more
    time than its limit; after the run [cpu_account_after_process_schedule] charges
    the time to the process and to each of these groups.  The control groups are
    those of [Cgroup] ([cgs]), whose lock the two walks take.  [steady_clock_now]
    reads a hardware counter: the time it returns is an argument. *)
From S2P Require Import Prelude Kalloc Cgroup CgroupTree.
Local Open Scope Z_scope.

(** [struct cpu_account] *)
Record cpu_account := CpuAccount {
  now : Z;
  account_period : Z;
  account_frame : Z;
  process_cpu_time : Z;
  account_cgroup : option nat
}.

(** The accounting fields of [struct proc]. *)
Record pacct := Pacct {
  p_cpu_time : Z;
  p_cpu_period_time : Z;
  p_cpu_percent : Z;
  p_cpu_account_frame : Z
}.

Definition cpu_account_initialize : cpu_account := CpuAccount 0 (1 * 100 * 1000) 0 0 None.

Definition cpu_account_schedule_start (t : Z) (cpu : cpu_account) : cpu_account :=
  CpuAccount t (account_period cpu) (account_frame cpu) (process_cpu_time cpu) (account_cgroup cpu).

Definition cpu_account_schedule_proc_update (cpu : cpu_account) (p : pacct) : pacct :=
  if p_cpu_account_frame p <? account_frame cpu then
    let current_cpu_time := if account_period cpu <? p_cpu_period_time p then account_period cpu else p_cpu_period_time p in
    Pacct (p_cpu_time p) (p_cpu_period_time p -u current_cpu_time) (current_cpu_time *u 100 / account_period cpu) (account_frame cpu)
  else p.

(** The first half of the walk's body: a new frame in a group whose frame is over. *)
Definition new_frame (frame : Z) (c : cgroup) : cgroup :=
  let a := cpu_ c in
  if cpu_account_frame a <? frame then
    let current_cpu_time := if cpu_account_period a <? cpu_period_time a then cpu_account_period a else cpu_period_time a in
    with_cpu_ (CpuAcct (cpu_time a) (cpu_period_time a -u current_cpu_time)
      (current_cpu_time *u 100 / cpu_account_period a) (cpu_account_period a) (cpu_time_limit a) frame
      (if enabled Cpu c then cpu_nr_periods a +u 1 else cpu_nr_periods a) (cpu_nr_throttled a) (cpu_throttled_usec a) 0) c
  else c.

(** Its second half: the limit, and what is recorded the first time a frame exceeds it. *)
Definition over_limit (c : cgroup) : bool := enabled Cpu c && (cpu_time_limit (cpu_ c) <? cpu_period_time (cpu_ c)).

Definition throttle (c : cgroup) : cgroup :=
  let a := cpu_ c in
  if cpu_is_throttled_period a =? 0 then
    with_cpu_ (CpuAcct (cpu_time a) (cpu_period_time a) (cpu_percent a) (cpu_account_period a) (cpu_time_limit a)
      (cpu_account_frame a) (cpu_nr_periods a) (cpu_nr_throttled a +u 1)
      (cpu_throttled_usec a +u (cpu_account_period a -u cpu_period_time a)) 1) c
  else c.

Fixpoint decision_walk (fuel : nat) (t : Z) (schedule : bool) (i : option nat) : M cgs bool :=
  match fuel, i with
  | _, None => mret schedule
  | O, _ => nofuel
  | S fuel, Some i =>
      c ← get_cg i;
      if cpu_account_period (cpu_ c) =? 0 then fault else
      modS (upd_cg i (new_frame (t / cpu_account_period (cpu_ c)))) ;;
      c ← get_cg i;
      if over_limit c then
        modS (upd_cg i throttle) ;;
        decision_walk fuel t false (parent c)
      else decision_walk fuel t schedule (parent c)
  end.

Definition cpu_account_schedule_process_decision (cpu : cpu_account) (p : nat) : M cgs (bool * cpu_account) :=
  x ← get_proc p;
  r ← locked_call (decision_walk (S NPROC) (now cpu) true (p_cgroup x));
  mret (r, CpuAccount (now cpu) (account_period cpu) (account_frame cpu) (process_cpu_time cpu) (p_cgroup x)).

Definition cpu_account_before_process_schedule (t : Z) (cpu : cpu_account) : cpu_account :=
  CpuAccount (now cpu) (account_period cpu) (account_frame cpu) t (account_cgroup cpu).

Definition charge (d : Z) (c : cgroup) : cgroup :=
  let a := cpu_ c in
  with_cpu_ (CpuAcct (u64 (cpu_time a + d)) (cpu_period_time a +u d) (cpu_percent a) (cpu_account_period a) (cpu_time_limit a)
    (cpu_account_frame a) (cpu_nr_periods a) (cpu_nr_throttled a) (cpu_throttled_usec a) (cpu_is_throttled_period a)) c.

Definition cpu_account_after_process_schedule (t : Z) (cpu : cpu_account) (p : pacct) : M cgs (cpu_account * pacct) :=
  let d := t -u process_cpu_time cpu in
  let cpu' := CpuAccount t (account_period cpu) (account_frame cpu) d (account_cgroup cpu) in
  let p' := Pacct (p_cpu_time p +u d) (p_cpu_period_time p +u d) (p_cpu_percent p) (p_cpu_account_frame p) in
  locked_call (up (S NPROC) (charge d) (account_cgroup cpu)) ;;
  mret (cpu', p').

(** ** What the walks do to the groups

    [accounted t c] is the group [c] after the walk of time [t]. *)
Definition frame_at (t : Z) (c : cgroup) : cgroup := new_frame (t / cpu_account_period (cpu_ c)) c.
Definition accounted (t : Z) (c : cgroup) : cgroup := if over_limit (frame_at t c) then throttle (frame_at t c) else frame_at t c.

(** A test on the group at an index of the table. *)
Definition at_group (P : cgroup -> bool) (s : cgs) (j : nat) : bool := match cgroups s !! j with Some c => P c | None => false end.
Definition no_period (c : cgroup) : bool := cpu_account_period (cpu_ c) =? 0.
Definition on_path (f : cgroup -> cgroup) (l : list nat) (j : nat) (c : cgroup) : cgroup := if decide (j ∈ l) then f c else c.

Lemma new_frame_core n c : core_of (new_frame n c) = core_of c.
Proof. unfold new_frame. by case_match. Qed.

Lemma throttle_core c : core_of (throttle c) = core_of c.
Proof. unfold throttle. by case_match. Qed.

Lemma accounted_core t c : core_of (accounted t c) = core_of c.
Proof. unfold accounted. case_match; rewrite ?throttle_core; apply new_frame_core. Qed.

Lemma charge_core d c : core_of (charge d c) = core_of c.
Proof. done. Qed.

Lemma core_parent c c' : core_of c' = core_of c -> parent c' = parent c.
Proof. by intros ((_ & _ & ? & _)%frame_fields & _)%core_fields. Qed.


Lemma at_group_upd P i f s (l : list nat) : i ∉ l -> forall j, j ∈ l -> at_group P (upd_cg i f s) j = at_group P s j.
Proof. intros Hi j Hj. unfold at_group, upd_cg. simpl. rewrite list_lookup_alter_ne; [done|]. by intros ->. Qed.

Lemma on_path_cons f i l s : i ∉ l -> upd_all (on_path f l) (upd_cg i f s) = upd_all (on_path f (i :: l)) s.
Proof.
  intros Hi. rewrite upd_all_one, upd_all_twice. apply upd_all_ext. intros j c _. unfold on_path.
  destruct (decide (j = i)) as [->|Hne].
  - rewrite (decide_True (P := i ∈ [i])), (decide_False (P := i ∈ l)), (decide_True (P := i ∈ i :: l)); [done|by left|done|by left].
  - rewrite (decide_False (P := j ∈ [i])) by (by rewrite list_elem_of_singleton).
    by rewrite (decide_ext (j ∈ i :: l) (j ∈ l)) by (rewrite elem_of_cons; naive_solver).
Qed.

Lemma existsb_same {A} (P Q : A -> bool) l : (forall j, j ∈ l -> P j = Q j) -> existsb P l = existsb Q l.
Proof. induction l as [|x l IH]; [done|]. intros H. simpl. rewrite (H x), IH; [done| |by left]. intros j Hj. apply H. by right. Qed.

(** One group of the walk. *)
Lemma decision_walk_step fuel t b i c s : cgroups s !! i = Some c ->
  decision_walk (S fuel) t b (Some i) s =
    if no_period c then inl Fault
    else decision_walk fuel t (b && negb (over_limit (frame_at t c))) (parent c) (upd_cg i (accounted t) s).
Proof.
  intros Hc. cbn [decision_walk]. rewrite (bind_run _ _ _ _ _ (get_cg_run s i c Hc)). unfold no_period. destruct (_ =? 0); [done|].
  rewrite modS_bind, (bind_run _ _ _ (frame_at t c) (upd_cg i (new_frame (t / cpu_account_period (cpu_ c))) s)).
  2:{ apply get_cg_run. unfold upd_cg. simpl. by rewrite list_lookup_alter_eq, Hc. }
  rewrite (core_parent c (frame_at t c)) by apply new_frame_core. destruct (over_limit (frame_at t c)) eqn:Eo; simpl.
  - rewrite modS_bind, andb_false_r, upd_cg_twice. f_equal. apply (upd_cg_ext i c); [done|]. unfold accounted. fold (frame_at t c). by rewrite Eo.
  - rewrite andb_true_r. f_equal. apply (upd_cg_ext i c); [done|]. unfold accounted. fold (frame_at t c). by rewrite Eo.
Qed.

Lemma decision_walk_run t l : forall s i fuel b, chain (cgroups s) i l -> NoDup l -> (length l <= fuel)%nat ->
  decision_walk fuel t b (Some i) s =
    if existsb (at_group no_period s) l then inl Fault
    else inr (b && negb (existsb (at_group (fun c => over_limit (frame_at t c)) s) l), upd_all (on_path (accounted t) l) s).
Proof.
  induction l as [|k l IH]; intros s i fuel b Hch Hnd Hfu; [inversion Hch|].
  destruct (chain_first _ _ _ Hch) as [l' [= -> ->]]. apply NoDup_cons in Hnd as [Hni Hnd].
  destruct fuel as [|fuel]; simpl in Hfu; [lia|].
  assert (exists c, cgroups s !! i = Some c) as [c Hc] by (inversion Hch; eauto).
  assert (forall P, at_group P s i = P c) as Hat by (intros P; unfold at_group; by rewrite Hc).
  rewrite (decision_walk_step _ _ _ _ c) by done. cbn [existsb]. rewrite !Hat. destruct (no_period c); [done|]. simpl.
  inversion Hch as [? c' Hc' Hp|? c' p ? Hc' Hp Hch']; subst; assert (c' = c) as -> by congruence; rewrite Hp.
  - rewrite orb_false_r. destruct fuel; cbn [decision_walk]; mrun; by rewrite upd_all_one.
  - rewrite (IH (upd_cg i (accounted t) s)); [| |done|lia].
    + rewrite !(existsb_same _ _ _ (at_group_upd _ i (accounted t) s l' Hni)), on_path_cons by done.
      case_match; [done|]. by rewrite negb_orb, andb_assoc.
    + eapply chain_same; [|exact Hch']. intros j cj Hj. unfold upd_cg. simpl. rewrite list_lookup_alter.
      case_decide; subst; rewrite Hj; simpl; eauto. eexists. split; [done|]. apply core_parent, accounted_core.
Qed.

(** The groups a walk visits from [g]. *)
Definition group_path (s : cgs) (g : option nat) : list nat :=
  match g with Some i => ancestors (S NPROC) (cgroups s) i | None => [] end.

Lemma inert_upd_all f s : (forall j c, core_of (f j c) = core_of c) -> inert s (upd_all f s).
Proof.
  intros Hf. split; [apply length_imap|]. split; [done|]. split; [done|]. intros j c'. rewrite lookup_upd_all.
  destruct (cgroups s !! j) as [c|]; simpl; [|done]. intros [= <-]. eauto.
Qed.

Lemma on_path_inert f l s : (forall c, core_of (f c) = core_of c) -> inert s (upd_all (on_path f l) s).
Proof. intros Hf. apply inert_upd_all. intros j c. unfold on_path. by case_decide. Qed.

Lemma locked_run {A} (m : M cgs A) s : cg_locked s = false ->
  (forall a s1, m (set_locked true s) = inr (a, s1) -> cg_locked s1 = true) ->
  locked_call m s = match m (set_locked true s) with inl e => inl e | inr (a, s1) => inr (a, set_locked false s1) end.
Proof.
  intros Hl Hk. unfold locked_call. rewrite (bind_run _ _ _ _ _ (lock_run s Hl)).
  destruct (m _) as [e|[a s1]] eqn:E; [by rewrite (bind_stop _ _ _ e)|].
  rewrite (bind_run _ _ _ _ _ E), (bind_run _ _ _ _ _ (unlock_run s1 (Hk a s1 eq_refl))). done.
Qed.

Lemma upd_all_id f s : (forall j c, f j c = c) -> upd_all f s = s.
Proof.
  intros Hf. destruct s as [t b p k]. unfold upd_all. simpl. f_equal. apply list_eq. intros j. rewrite list_lookup_imap.
  destruct (t !! j); simpl; [|done]. by rewrite Hf.
Qed.

(** The walk under the lock, from the group of a process. *)
Lemma locked_decision t s g : cg_ok s -> cg_locked s = false -> (forall i, g = Some i -> is_live (cgroups s) i = true) ->
  let l := group_path s g in
  locked_call (decision_walk (S NPROC) t true g) s =
    if existsb (at_group no_period s) l then inl Fault
    else inr (negb (existsb (at_group (fun c => over_limit (frame_at t c)) s) l), upd_all (on_path (accounted t) l) s).
Proof.
  intros Hok Hl Hg l.
  assert (decision_walk (S NPROC) t true g (set_locked true s) = if existsb (at_group no_period s) l then inl Fault
    else inr (negb (existsb (at_group (fun c => over_limit (frame_at t c)) s) l), set_locked true (upd_all (on_path (accounted t) l) s))) as E.
  { subst l. destruct g as [i|]; cbn [group_path].
    - destruct (live_ancestors (cgroups s) i (ok_tree _ Hok) (Hg i eq_refl)) as (l & Hch & -> & Hnd & Hlen & _).
      by rewrite (decision_walk_run t l (set_locked true s)) by (done || lia).
    - cbn [decision_walk existsb]. mrun. by rewrite upd_all_id. }
  rewrite locked_run; [|done|].
  - rewrite E. case_match; [done|]. unfold set_locked. cbn [cgroups ptab kh]. unfold upd_all. by rewrite Hl.
  - rewrite E. case_match; [done|]. by intros ? ? [= _ <-].
Qed.

(** A group whose figures are in range: its period is positive and a hundred times it fits a word. *)
Record sane (c : cgroup) : Prop := {
  sane_period : 0 < cpu_account_period (cpu_ c) /\ cpu_account_period (cpu_ c) * 100 < 2 ^ 32;
  sane_used : is_u32 (cpu_period_time (cpu_ c));
  sane_percent : 0 <= cpu_percent (cpu_ c) <= 100
}.

(** What opening a frame records, over the integers. *)
Definition used_in_frame (c : cgroup) : Z := Z.min (cpu_period_time (cpu_ c)) (cpu_account_period (cpu_ c)).

Lemma new_frame_exact n c : sane c -> cpu_account_frame (cpu_ c) < n ->
  let a := cpu_ (new_frame n c) in
  cpu_percent a = used_in_frame c * 100 / cpu_account_period (cpu_ c) /\
  cpu_period_time a = cpu_period_time (cpu_ c) - used_in_frame c /\ cpu_account_frame a = n.
Proof.
  intros [Hp Hu _] Hn. unfold new_frame, used_in_frame. rewrite (proj2 (Z.ltb_lt _ _)) by done.
  cbn [cpu_ with_cpu_ cpu_percent cpu_period_time cpu_account_frame].
  set (u := cpu_period_time _) in *. set (a := cpu_account_period _) in *.
  assert ((if a <? u then a else u) = Z.min u a) as -> by (destruct (a <? u) eqn:E; lia).
  unfold is_u32 in Hu. rewrite !u32_id by (unfold is_u32; lia). done.
Qed.

Lemma throttle_keeps c : cpu_percent (cpu_ (throttle c)) = cpu_percent (cpu_ c) /\ cpu_period_time (cpu_ (throttle c)) = cpu_period_time (cpu_ c) /\
  cpu_account_frame (cpu_ (throttle c)) = cpu_account_frame (cpu_ c) /\ cpu_account_period (cpu_ (throttle c)) = cpu_account_period (cpu_ c).
Proof. unfold throttle. by case_match. Qed.

Lemma accounted_keeps t c : cpu_percent (cpu_ (accounted t c)) = cpu_percent (cpu_ (frame_at t c)) /\
  cpu_period_time (cpu_ (accounted t c)) = cpu_period_time (cpu_ (frame_at t c)) /\
  cpu_account_frame (cpu_ (accounted t c)) = cpu_account_frame (cpu_ (frame_at t c)) /\
  cpu_account_period (cpu_ (accounted t c)) = cpu_account_period (cpu_ (frame_at t c)).
Proof. unfold accounted. case_match; [apply throttle_keeps|done]. Qed.

Lemma percent_range c : sane c -> 0 <= used_in_frame c * 100 / cpu_account_period (cpu_ c) <= 100.
Proof.
  intros [[Hp _] Hu _]. unfold is_u32 in Hu. unfold used_in_frame. set (a := cpu_account_period _) in *.
  split; [apply Z.div_pos; lia|]. apply Z.div_le_upper_bound; lia.
Qed.

Lemma frame_at_sane t c : sane c -> sane (frame_at t c).
Proof.
  intros Hc. unfold frame_at. set (n := _ / _). destruct (Z_lt_dec (cpu_account_frame (cpu_ c)) n) as [Hn|Hn].
  - destruct (new_frame_exact n c Hc Hn) as (E1 & E2 & _). pose proof (percent_range c Hc). pose proof Hc as [Hp Hu _].
    assert (cpu_account_period (cpu_ (new_frame n c)) = cpu_account_period (cpu_ c)) as E3 by (unfold new_frame; by case_match).
    split; rewrite ?E1, ?E2, ?E3; try done. unfold used_in_frame, is_u32 in *. lia.
  - unfold new_frame. rewrite (proj2 (Z.ltb_ge _ _)) by lia. done.
Qed.

Lemma accounted_sane t c : sane c -> sane (accounted t c).
Proof.
  intros [H1 H2 H3]%(frame_at_sane t). destruct (accounted_keeps t c) as (E1 & E2 & _ & E4). split; by rewrite ?E1, ?E2, ?E4.
Qed.

Lemma charge_sane d c : sane c -> sane (charge d c).
Proof. intros [H1 H2 H3]. split; try done. apply u32_range. Qed.

Lemma existsb_false {A} (P : A -> bool) l : existsb P l = false <-> forall j, j ∈ l -> P j = false.
Proof.
  rewrite <- not_true_iff_false, existsb_exists. split.
  - intros H j Hj. apply not_true_iff_false. intros E. apply H. exists j. split; [by apply list_elem_of_In|done].
  - intros H (j & Hj & E). rewrite H in E by (by apply list_elem_of_In). done.
Qed.

Lemma decision_run cpu p x s : cg_ok s -> cg_locked s = false -> ptab s !! p = Some x ->
  let l := group_path s (p_cgroup x) in
  cpu_account_schedule_process_decision cpu p s =
    if existsb (at_group no_period s) l then inl Fault
    else inr (negb (existsb (at_group (fun c => over_limit (frame_at (now cpu) c)) s) l),
      CpuAccount (now cpu) (account_period cpu) (account_frame cpu) (process_cpu_time cpu) (p_cgroup x),
      upd_all (on_path (accounted (now cpu)) l) s).
Proof.
  intros Hok Hl Hx l. unfold cpu_account_schedule_process_decision. rewrite (bind_run _ _ _ _ _ (get_proc_run s p x Hx)).
  pose proof (locked_decision (now cpu) s (p_cgroup x) Hok Hl (fun i => p_cgroup_live s p x i Hok Hx)) as E. cbv zeta in E. subst l.
  destruct (existsb (at_group no_period s) _); [by rewrite (bind_stop _ _ _ _ E)|by rewrite (bind_run _ _ _ _ _ E)].
Qed.

Lemma limit_keeps t c : cpu_time_limit (cpu_ (frame_at t c)) = cpu_time_limit (cpu_ c).
Proof. unfold frame_at, new_frame. by case_match. Qed.

Lemma enabled_keeps t c : enabled Cpu (frame_at t c) = enabled Cpu c.
Proof. unfold frame_at, new_frame. by case_match. Qed.

Lemma path_lookup s p x : cg_ok s -> ptab s !! p = Some x -> forall j, j ∈ group_path s (p_cgroup x) -> is_Some (cgroups s !! j).
Proof.
  intros Hok Hx j. destruct (p_cgroup x) as [i|] eqn:Hi; cbn [group_path]; [|by intros ?%not_elem_of_nil].
  destruct (live_ancestors (cgroups s) i (ok_tree _ Hok) (p_cgroup_live s p x i Hok Hx Hi)) as (l & _ & -> & _ & _ & Hf).
  intros Hj. rewrite Forall_forall in Hf. specialize (Hf j Hj). unfold is_live in Hf. destruct (cgroups s !! j); [by eexists|done].
Qed.

(** C30: The scheduling decision.  In a well-formed control group tree the walk over
    the group of a process and its ancestors ends.  It faults exactly when one of
    these groups has period zero.  Otherwise it accepts the process if and only if no
    group on the path that has the CPU controller enabled used more than its limit in
    the frame of the current time, it records the group for the later charge, it
    accounts exactly the groups on the path, and the tree stays well-formed. *)
Theorem process_decision_outcome cpu p x s : cg_ok s -> cg_locked s = false -> ptab s !! p = Some x ->
  let l := group_path s (p_cgroup x) in
  match cpu_account_schedule_process_decision cpu p s with
  | inl e => e = Fault /\ exists j c, j ∈ l /\ cgroups s !! j = Some c /\ cpu_account_period (cpu_ c) = 0
  | inr (r, cpu', s') =>
      (r = true <-> forall j c, j ∈ l -> cgroups s !! j = Some c ->
        enabled Cpu c = true -> cpu_period_time (cpu_ (frame_at (now cpu) c)) <= cpu_time_limit (cpu_ c)) /\
      account_cgroup cpu' = p_cgroup x /\ now cpu' = now cpu /\
      s' = upd_all (on_path (accounted (now cpu)) l) s /\ cg_ok s' /\ cg_locked s' = false /\
      Forall (fun j => exists c, cgroups s !! j = Some c /\ cpu_account_period (cpu_ c) <> 0) l
  end.
Proof.
  intros Hok Hl Hx l. rewrite (decision_run cpu p x s Hok Hl Hx). cbv zeta. fold l.
  destruct (existsb (at_group no_period s) l) eqn:Ez.
  - split; [done|]. apply existsb_exists in Ez as (j & Hj & E). unfold at_group in E. destruct (cgroups s !! j) as [c|] eqn:Ec; [|done].
    exists j, c. split; [by apply list_elem_of_In|]. split; [done|]. by apply Z.eqb_eq.
  - rewrite negb_true_iff, existsb_false. split.
    { unfold at_group, over_limit. split.
      - intros H j c Hj Hc He. specialize (H j Hj). rewrite Hc, limit_keeps, enabled_keeps, He in H. simpl in H. lia.
      - intros H j Hj. destruct (cgroups s !! j) as [c|] eqn:Hc; [|done]. rewrite limit_keeps, enabled_keeps.
        destruct (enabled Cpu c) eqn:He; [|done]. specialize (H j c Hj Hc He). simpl. lia. }
    split; [done|]. split; [done|]. split; [done|]. pose proof (on_path_inert (accounted (now cpu)) l s (accounted_core _)) as Hi.
    split; [by apply (inert_ok s)|]. split; [by rewrite <- Hl|]. rewrite existsb_false in Ez. apply Forall_forall. intros j Hj.
    specialize (Ez j Hj). destruct (path_lookup s p x Hok Hx j Hj) as [c Hc]. exists c. split; [done|].
    unfold at_group in Ez. rewrite Hc in Ez. by apply Z.eqb_neq.
Qed.

(** ** The charge *)

Lemma group_path_inert s s' g : inert s s' -> group_path s' g = group_path s g.
Proof.
  intros Hi. destruct g as [i|]; [|done]. apply ancestors_same. intros j.
  apply parent_same, framed_shape, inert_framed, Hi.
Qed.

Lemma after_run t cpu pa s : cg_ok s -> cg_locked s = false ->
  (forall i, account_cgroup cpu = Some i -> is_live (cgroups s) i = true) ->
  let d := t -u process_cpu_time cpu in
  cpu_account_after_process_schedule t cpu pa s =
    inr (CpuAccount t (account_period cpu) (account_frame cpu) d (account_cgroup cpu),
      Pacct (p_cpu_time pa +u d) (p_cpu_period_time pa +u d) (p_cpu_percent pa) (p_cpu_account_frame pa),
      upd_all (on_path (charge d) (group_path s (account_cgroup cpu))) s).
Proof.
  intros Hok Hl Hg d. unfold cpu_account_after_process_schedule. fold d. cbv zeta.
  assert (up (S NPROC) (charge d) (account_cgroup cpu) (set_locked true s) =
    inr (tt, set_locked true (upd_all (on_path (charge d) (group_path s (account_cgroup cpu))) s))) as E.
  { destruct (account_cgroup cpu) as [i|]; cbn [group_path].
    - destruct (live_ancestors (cgroups s) i (ok_tree _ Hok) (Hg i eq_refl)) as (l & Hch & -> & Hnd & Hlen & _).
      by rewrite (up_run (charge d) l (fun c => core_parent _ _ (charge_core d c)) (set_locked true s)) by (done || lia).
    - cbn [up]. mrun. by rewrite upd_all_id. }
  rewrite (bind_run _ _ _ tt (upd_all (on_path (charge d) (group_path s (account_cgroup cpu))) s)); [done|].
  rewrite locked_run; [|done|]; rewrite E; [|by intros ? ? [= _ <-]].
  unfold set_locked, upd_all. cbn [cgroups ptab kh]. by rewrite Hl.
Qed.

Lemma lookup_on_path f l s j c : j ∈ l -> cgroups s !! j = Some c -> cgroups (upd_all (on_path f l) s) !! j = Some (f c).
Proof. intros Hj Hc. rewrite lookup_upd_all, Hc. unfold on_path. simpl. by rewrite decide_True. Qed.

(** C31: The figures of one turn of a process, over the integers.  When the groups of
    the process have a positive period whose hundredfold fits an [unsigned int], the
    decision returns, and in each of them whose frame is over it records as percentage
    exactly the time used of the period, at most 100, and carries exactly the excess over
    to the new frame.  The charge after the run then adds the elapsed time to the period
    time of exactly these groups and of the process, and the percentages stay at most 100. *)
Theorem cpu_percent_bounded cpu p x s t pa : cg_ok s -> cg_locked s = false -> ptab s !! p = Some x ->
  let l := group_path s (p_cgroup x) in
  (forall j c, j ∈ l -> cgroups s !! j = Some c -> sane c) ->
  exists r cpu1 s1, cpu_account_schedule_process_decision cpu p s = inr (r, cpu1, s1) /\
    exists cpu2 pa2 s2, cpu_account_after_process_schedule t cpu1 pa s1 = inr (cpu2, pa2, s2) /\
      p_cpu_period_time pa2 = p_cpu_period_time pa +u (t -u process_cpu_time cpu) /\ cg_ok s2 /\
      (forall j, j ∉ l -> cgroups s2 !! j = cgroups s !! j) /\
      forall j c, j ∈ l -> cgroups s !! j = Some c -> exists c1 c2, cgroups s1 !! j = Some c1 /\ cgroups s2 !! j = Some c2 /\
        (cpu_account_frame (cpu_ c) < now cpu / cpu_account_period (cpu_ c) ->
          cpu_percent (cpu_ c1) = used_in_frame c * 100 / cpu_account_period (cpu_ c) /\
          cpu_period_time (cpu_ c1) = cpu_period_time (cpu_ c) - used_in_frame c) /\
        cpu_percent (cpu_ c2) = cpu_percent (cpu_ c1) /\ cpu_percent (cpu_ c2) <= 100 /\ sane c2 /\
        cpu_period_time (cpu_ c2) = cpu_period_time (cpu_ c1) +u (t -u process_cpu_time cpu).
Proof.
  intros Hok Hl Hx l Hs. pose proof (decision_run cpu p x s Hok Hl Hx) as E. cbv zeta in E. fold l in E.
  rewrite (proj2 (existsb_false (at_group no_period s) l)) in E.
  2:{ intros j Hj. unfold at_group. destruct (cgroups s !! j) as [c|] eqn:Hc; [|done]. destruct (sane_period c (Hs j c Hj Hc)).
      unfold no_period. lia. }
  eexists _, _, _. split; [exact E|]. set (s1 := upd_all _ _).
  assert (inert s s1) as Hi by (apply on_path_inert; intros; apply accounted_core).
  pose proof (after_run t (CpuAccount (now cpu) (account_period cpu) (account_frame cpu) (process_cpu_time cpu) (p_cgroup x)) pa s1 (inert_ok s s1 Hok Hi)) as E2.
  cbn [process_cpu_time account_cgroup] in E2. rewrite (group_path_inert s s1) in E2 by done. fold l in E2.
  eexists _, _, _. split; [apply E2; [done|]|].
  { intros i Hi'. rewrite (is_live_inert s s1) by done. by apply (p_cgroup_live s p x). }
  split; [done|]. split; [eapply inert_ok; [by apply (inert_ok s)|]; by apply on_path_inert|]. split.
  { intros j Hj. subst s1. rewrite !lookup_upd_all. unfold on_path. destruct (cgroups s !! j); [|done]. simpl. by rewrite !decide_False. }
  intros j c Hj Hc. pose proof (Hs j c Hj Hc) as Hsc. pose proof (lookup_on_path (accounted (now cpu)) l s j c Hj Hc) as H1.
  eexists _, _. split; [exact H1|]. split; [by apply lookup_on_path|]. destruct (accounted_keeps (now cpu) c) as (K1 & K2 & _).
  split; [rewrite K1, K2; intros Hf; by destruct (new_frame_exact _ c Hsc Hf) as (? & ? & _)|].
  pose proof (charge_sane (t -u process_cpu_time cpu) _ (accounted_sane (now cpu) c Hsc)) as Hs2.
  split; [done|]. split; [apply Hs2|]. done.
Qed.

(** ** A group over its limit *)
Module CpuDemo.

(** Group [/c/a] has the controller enabled, a limit of 30 and 50 used, and holds process 5. *)
Definition enabled_group : cgs := after (enable_cpu_controller (Some 1%nat)) demo_created.
Definition joined : cgs := after (cgroup_insert 1 5) enabled_group.
Definition over : cgs := upd_cg 1 (with_cpu_ (CpuAcct 0 50 0 100 30 0 0 0 0 0)) joined.
Definition cpu_at (t : Z) : cpu_account := cpu_account_schedule_start t cpu_account_initialize.

Lemma over_ok : cg_ok over /\ cg_locked over = false.
Proof.
  assert (cg_step demo_created enabled_group) as S1 by (eapply (st_enable _ Cpu 1); [done|unfold NPROC; lia|vm_compute; reflexivity]).
  assert (cg_step enabled_group joined) as S2 by (apply (st_insert _ 1 5 RESULT_SUCCESS); vm_compute; reflexivity).
  destruct (reachable_inv demo_heap joined) as [Hok Hl].
  { eapply rtc_r; [eapply rtc_r; [exact (proj1 (proj2 demo_reachable))|exact S1]|exact S2]. }
  clear S1 S2. unfold over. revert Hok Hl. generalize joined. intros s Hok Hl. split; [|exact Hl].
  eapply inert_ok; [exact Hok|]. by apply inert_upd.
Qed.

Lemma over_proc : ptab over !! 5%nat = Some (Cproc 0 (Some 1%nat)).
Proof. vm_compute. reflexivity. Qed.

Lemma over_path : group_path over (Some 1%nat) = [1%nat; 0%nat].
Proof. vm_compute. reflexivity. Qed.

Lemma over_groups : exists c r, cgroups over !! 1%nat = Some c /\ cgroups over !! 0%nat = Some r /\ enabled Cpu c = true /\
  cpu_ c = CpuAcct 0 50 0 100 30 0 0 0 0 0 /\ cpu_ r = CpuAcct 0 0 0 100000 (2 ^ 32 - 1) 0 0 0 0 0.
Proof.
  destruct (cgroups over !! 1%nat) as [c|] eqn:E1; [|vm_compute in E1; discriminate E1].
  destruct (cgroups over !! 0%nat) as [r|] eqn:E0; [|vm_compute in E0; discriminate E0].
  exists c, r. vm_compute in E1, E0. injection E1 as <-. injection E0 as <-. repeat split.
Qed.

Lemma process_decision_outcome_witness :
  exists cpu' s', cpu_account_schedule_process_decision (cpu_at 60) 5 over = inr (false, cpu', s') /\ account_cgroup cpu' = Some 1%nat /\ cg_ok s'.
Proof.
  generalize over over_ok over_proc over_path over_groups. intros s [Hok Hl] Hx Hp (c & r & Hc & Hr & He & Ec & Er).
  pose proof (process_decision_outcome (cpu_at 60) 5 _ s Hok Hl Hx) as H.
  cbv zeta in H. cbn [p_cgroup] in H. rewrite Hp in H.
  destruct (cpu_account_schedule_process_decision _ _ _) as [e|[[b cpu'] s']].
  - destruct H as (_ & j & cj & Hj & Hcj & Hz). exfalso. apply elem_of_cons in Hj as [-> | ->%list_elem_of_singleton].
    + assert (cj = c) as -> by congruence. by rewrite Ec in Hz.
    + assert (cj = r) as -> by congruence. by rewrite Er in Hz.
  - destruct H as (Hb & Ha & _ & _ & Hok' & _). exists cpu', s'. split_and!; [|done|done]. destruct b; [|done]. exfalso.
    pose proof (proj1 Hb eq_refl 1%nat c (list_elem_of_here _ _) Hc He) as Hle. revert Hle. unfold frame_at, new_frame. rewrite Ec. change (_ <? _) with false. cbn iota. rewrite Ec. cbn. lia.
Defined.

Lemma cpu_percent_bounded_witness :
  exists r cpu1 s1, cpu_account_schedule_process_decision (cpu_at 160) 5 over = inr (r, cpu1, s1) /\
    exists c1, cgroups s1 !! 1%nat = Some c1 /\ cpu_percent (cpu_ c1) = 50 /\ cpu_period_time (cpu_ c1) = 0.
Proof.
  generalize over over_ok over_proc over_path over_groups. intros s [Hok Hl] Hx Hp (c & r & Hc & Hr & He & Ec & Er).
  destruct (cpu_percent_bounded (cpu_at 160) 5 _ s 200 (Pacct 0 0 0 0) Hok Hl Hx) as (b & cpu1 & s1 & E & cpu2 & pa2 & s2 & _ & _ & _ & _ & H).
  - cbn [p_cgroup]. rewrite Hp. intros j cj Hj Hcj. apply elem_of_cons in Hj as [-> | ->%list_elem_of_singleton].
    + assert (cj = c) as -> by congruence. split; rewrite Ec; vm_compute; repeat split; discriminate.
    + assert (cj = r) as -> by congruence. split; rewrite Er; vm_compute; repeat split; discriminate.
  - exists b, cpu1, s1. split; [exact E|]. cbn [p_cgroup] in H. rewrite Hp in H.
    destruct (H 1%nat c (list_elem_of_here _ _) Hc) as (c1 & _ & H1 & _ & Hf & _). exists c1. split; [exact H1|].
    rewrite Ec in Hf. unfold used_in_frame in Hf. rewrite Ec in Hf. exact (Hf eq_refl).
Defined.

End CpuDemo.
