(* ===== verification/Namespace.v ===== *)
(** * Namespaces (kernel/namespace.c, kernel/pid_ns.c, kernel/mount_ns.c)

    A process holds a reference to an [nsproxy], which holds one reference to a mount
    namespace and one to a pid namespace; a process that unshared its pid namespace
    also holds a reference to the namespace its children will get.  The three tables
    have [NNAMESPACE] slots each, a slot is free when its count is zero, and pointers
    are indices.  The spinlocks of the tables only order these operations and are left
    out; the mounts of a mount namespace belong to mount.c, so [umountall] and
    [copyactivemounts] are recorded in [ns_calls]. *)
From S2P Require Import Prelude.
Local Open Scope Z_scope.

Definition NNAMESPACE : nat := 20.
Definition MAX_PID_NS_DEPTH : nat := 4.

Record pid_ns := PidNs { n_ref : Z; n_parent : option nat; next_pid : Z; pid1_ns_killed : Z }.
Record nsproxy := Nsproxy { x_ref : Z; x_mount_ns : option nat; x_pid_ns : option nat }.
Inductive ns_call := Umountall (m : nat) | Copyactivemounts (m : nat).

Record nss := Nss {
  namespacetable : list nsproxy;
  pidnstable : list pid_ns;
  mountnstable : list Z;           (* the counts of the mount namespaces *)
  ns_calls : list ns_call
}.

Definition upd_proxy (x : nat) (f : nsproxy -> nsproxy) (s : nss) : nss :=
  Nss (alter f x (namespacetable s)) (pidnstable s) (mountnstable s) (ns_calls s).
Definition upd_pid_ns (n : nat) (f : pid_ns -> pid_ns) (s : nss) : nss :=
  Nss (namespacetable s) (alter f n (pidnstable s)) (mountnstable s) (ns_calls s).
Definition upd_mount_ns (m : nat) (f : Z -> Z) (s : nss) : nss :=
  Nss (namespacetable s) (pidnstable s) (alter f m (mountnstable s)) (ns_calls s).
Definition ns_event (e : ns_call) (s : nss) : nss :=
  Nss (namespacetable s) (pidnstable s) (mountnstable s) (ns_calls s ++ [e]).

Definition get_proxy (x : option nat) : M nss nsproxy := s ← getS; deref (x ≫= fun x => namespacetable s !! x).
Definition get_pid_ns (n : option nat) : M nss pid_ns := s ← getS; deref (n ≫= fun n => pidnstable s !! n).

Definition with_n_ref (v : Z) (n : pid_ns) : pid_ns := PidNs v (n_parent n) (next_pid n) (pid1_ns_killed n).
Definition with_x_ref (v : Z) (x : nsproxy) : nsproxy := Nsproxy v (x_mount_ns x) (x_pid_ns x).

(** ** pid_ns.c *)
Definition pid_ns_put (n : nat) : M nss unit :=
  ns ← get_pid_ns (Some n);
  if n_ref ns =? 0 then panic "pid_ns_put: ref == 0"
  else modS (upd_pid_ns n (fun ns => with_n_ref (n_ref ns -i 1) ns)).

Definition pid_ns_get (n : nat) : M nss unit := modS (upd_pid_ns n (fun ns => with_n_ref (n_ref ns +i 1) ns)).

Definition pid_ns_alloc : M nss nat :=
  s ← getS;
  match list_find (fun ns => n_ref ns = 0) (pidnstable s) with
  | Some (n, _) => modS (upd_pid_ns n (with_n_ref 1)) ;; mret n
  | None => panic "out of pid_ns objects"
  end.

Definition pid_ns_init_ns (n : nat) (parent : option nat) : M nss unit :=
  modS (upd_pid_ns n (fun ns => PidNs (n_ref ns) parent 1 0)).

Definition pid_ns_dup (n : nat) : M nss nat := pid_ns_get n ;; mret n.

Definition pid_ns_new (parent : option nat) : M nss nat :=
  n ← pid_ns_alloc;
  pid_ns_init_ns n parent ;;
  mret n.

Definition pid_ns_next_pid (n : nat) : M nss Z :=
  ns ← get_pid_ns (Some n);
  modS (upd_pid_ns n (fun ns => PidNs (n_ref ns) (n_parent ns) (next_pid ns +i 1) (pid1_ns_killed ns))) ;;
  mret (next_pid ns).

(** The [while] loop; the fuel is more than the number of namespaces. *)
Fixpoint pid_ns_depth (fuel : nat) (n : option nat) (depth : Z) : M nss Z :=
  match fuel, n with
  | _, None => mret depth
  | O, _ => nofuel
  | S fuel, Some n =>
      ns ← get_pid_ns (Some n);
      pid_ns_depth fuel (n_parent ns) (depth +i 1)
  end.

Definition pid_ns_is_max_depth (n : option nat) : M nss bool :=
  depth ← pid_ns_depth (S NNAMESPACE) n 0;
  mret (Z.of_nat MAX_PID_NS_DEPTH <=? depth).

(** ** mount_ns.c *)
Definition get_root_mount_ns : nat := 0%nat.

Definition allocmount_ns : M nss nat :=
  s ← getS;
  match list_find (fun r => r = 0) (mountnstable s) with
  | Some (m, _) => modS (upd_mount_ns m (fun _ => 1)) ;; mret m
  | None => panic "out of mount_ns objects"
  end.

Definition mount_nsdup (m : nat) : M nss nat := modS (upd_mount_ns m (fun r => r +i 1)) ;; mret m.

Definition mount_nsput (m : nat) : M nss unit :=
  s ← getS;
  r ← deref (mountnstable s !! m);
  (if r =? 1 then modS (ns_event (Umountall m)) else mret tt) ;;
  modS (upd_mount_ns m (fun r => r -i 1)).

Definition copymount_ns : M nss nat :=
  m ← allocmount_ns;
  modS (ns_event (Copyactivemounts m)) ;;
  mret m.

Definition mount_nsinit : M nss unit :=
  m ← allocmount_ns;
  if decide (m = get_root_mount_ns) then mret tt else panic "mount_nsinit double".

(** ** namespace.c *)
Definition namespaceput (x : nat) : M nss unit :=
  px ← get_proxy (Some x);
  (if x_ref px =? 1 then
     m ← deref (x_mount_ns px);
     mount_nsput m ;;
     n ← deref (x_pid_ns px);
     pid_ns_put n ;;
     modS (upd_proxy x (fun px => Nsproxy (x_ref px) None None))
   else mret tt) ;;
  modS (upd_proxy x (fun px => with_x_ref (x_ref px -i 1) px)).

Definition namespacedup (x : nat) : M nss nat := modS (upd_proxy x (fun px => with_x_ref (x_ref px +i 1) px)) ;; mret x.

Definition allocnsproxyinternal : M nss nat :=
  s ← getS;
  match list_find (fun px => x_ref px = 0) (namespacetable s) with
  | Some (x, _) => modS (upd_proxy x (fun px => with_x_ref (x_ref px +i 1) px)) ;; mret x
  | None => panic "out of nsproxy objects"
  end.

Definition emptynsproxy : M nss nat :=
  x ← allocnsproxyinternal;
  n ← pid_ns_new None;
  modS (upd_proxy x (fun px => Nsproxy (x_ref px) (Some get_root_mount_ns) (Some n))) ;;
  mret x.

Definition namespace_replace_pid_ns (oldns n : nat) : M nss nat :=
  x ← allocnsproxyinternal;
  old ← get_proxy (Some oldns);
  m ← deref (x_mount_ns old);
  m ← mount_nsdup m;
  n ← pid_ns_dup n;
  modS (upd_proxy x (fun px => Nsproxy (x_ref px) (Some m) (Some n))) ;;
  mret x.

Inductive ns_type := MOUNT_NS | PID_NS | OTHER_NS.

(** The first half of [unshare]: a proxy of the process's own. *)
Definition own_proxy (nsproxy : nat) : M nss nat :=
  oldns ← get_proxy (Some nsproxy);
  if 1 <? x_ref oldns then
    x ← allocnsproxyinternal;
    m ← deref (x_mount_ns oldns);
    m ← mount_nsdup m;
    n ← deref (x_pid_ns oldns);
    n ← pid_ns_dup n;
    modS (upd_proxy x (fun px => Nsproxy (x_ref px) (Some m) (Some n))) ;;
    modS (upd_proxy nsproxy (fun px => with_x_ref (x_ref px -i 1) px)) ;;
    mret x
  else mret nsproxy.

(** [unshare], on the [nsproxy] and the [child_pid_ns] of the current process: the result and both fields after it. *)
Definition unshare (nstype : ns_type) (nsproxy : nat) (child_pid_ns : option nat) : M nss (Z * nat * option nat) :=
  x ← own_proxy nsproxy;
  match nstype with
  | MOUNT_NS =>
      px ← get_proxy (Some x);
      m ← copymount_ns;
      modS (upd_proxy x (fun px => Nsproxy (x_ref px) (Some m) (x_pid_ns px))) ;;
      previous ← deref (x_mount_ns px);
      mount_nsput previous ;;
      mret (0, x, child_pid_ns)
  | PID_NS =>
      match child_pid_ns with
      | Some _ => mret (-1, x, child_pid_ns)
      | None =>
          px ← get_proxy (Some x);
          full ← pid_ns_is_max_depth (x_pid_ns px);
          if (full : bool) then mret (-1, x, child_pid_ns)
          else n ← pid_ns_new (x_pid_ns px); mret (0, x, Some n)
      end
  | OTHER_NS => mret (-1, x, child_pid_ns)
  end.

(** ** Exact reference counts

    [h x] processes hold proxy [x] and [c n] processes hold pid namespace [n] for
    their children; every other reference is that of a proxy in use. *)
Definition px_pid (n : nat) (px : nsproxy) : bool := bool_decide (x_ref px <> 0 /\ x_pid_ns px = Some n).
Definition px_mount (m : nat) (px : nsproxy) : bool := bool_decide (x_ref px <> 0 /\ x_mount_ns px = Some m).

Record ns_ok (h c : nat -> Z) (s : nss) : Prop := {
  nk_len : length (namespacetable s) = NNAMESPACE /\ length (pidnstable s) = NNAMESPACE /\ length (mountnstable s) = NNAMESPACE;
  nk_proxy : forall x px, namespacetable s !! x = Some px -> x_ref px = h x;
  nk_held : forall x px, namespacetable s !! x = Some px -> x_ref px <> 0 ->
    exists m n, x_mount_ns px = Some m /\ x_pid_ns px = Some n /\ (m < NNAMESPACE)%nat /\ (n < NNAMESPACE)%nat;
  nk_pid : forall n ns, pidnstable s !! n = Some ns -> n_ref ns = Z.of_nat (count (px_pid n) (namespacetable s)) + c n;
  nk_mount : forall m r, mountnstable s !! m = Some r -> r = Z.of_nat (count (px_mount m) (namespacetable s));
  nk_parent : forall n ns p, pidnstable s !! n = Some ns -> n_parent ns = Some p -> (p < NNAMESPACE)%nat
}.


(** The counts of holders are small: at most one per process. *)
Definition small (h : nat -> Z) : Prop := forall x, 0 <= h x <= 64.

Lemma count_small h c s P : ns_ok h c s -> (count P (namespacetable s) <= 20)%nat.
Proof. intros [(H & _) _ _ _ _ _]. pose proof (count_le_length P (namespacetable s)) as Hc. by rewrite H in Hc. Qed.

(** Changing the proxy [x] from [px] to [px']. *)
Lemma count_px (P : nsproxy -> bool) t x px px' : t !! x = Some px ->
  Z.of_nat (count P (<[x := px']> t)) = Z.of_nat (count P t) + (if P px' then 1 else 0) - (if P px then 1 else 0).
Proof. intros H. pose proof (count_insert P t x px px' H). repeat case_match; lia. Qed.

(** A change of one proxy, the pid namespace counts by [dn] and the mount counts by [dm]. *)
Lemma ns_change h c s x px px' (pn : list pid_ns) (mn : list Z) ev (h' c' : nat -> Z) :
  ns_ok h c s -> namespacetable s !! x = Some px ->
  length pn = NNAMESPACE -> length mn = NNAMESPACE ->
  x_ref px' = h' x -> (forall y, y <> x -> h' y = h y) ->
  (x_ref px' <> 0 -> exists m n, x_mount_ns px' = Some m /\ x_pid_ns px' = Some n /\ (m < NNAMESPACE)%nat /\ (n < NNAMESPACE)%nat) ->
  (forall n ns', pn !! n = Some ns' -> exists ns, pidnstable s !! n = Some ns /\ n_parent ns' = n_parent ns /\
    n_ref ns' = n_ref ns + (if px_pid n px' then 1 else 0) - (if px_pid n px then 1 else 0) + (c' n - c n)) ->
  (forall m r', mn !! m = Some r' -> exists r, mountnstable s !! m = Some r /\
    r' = r + (if px_mount m px' then 1 else 0) - (if px_mount m px then 1 else 0)) ->
  ns_ok h' c' (Nss (<[x := px']> (namespacetable s)) pn mn ev).
Proof.
  intros [L1 L2 L3 L4 L5 L6] Hx Hpn Hmn Hr Hh Hheld Hp Hm. split; cbn [namespacetable pidnstable mountnstable].
  - rewrite length_insert. split_and!; [apply L1|done|done].
  - intros y py. destruct (decide (y = x)) as [->|Hne].
    + rewrite list_lookup_insert_eq by (by eapply lookup_lt_Some). by intros [= <-].
    + rewrite list_lookup_insert_ne by done. intros Hy. rewrite (L2 y py Hy). by rewrite Hh.
  - intros y py. destruct (decide (y = x)) as [->|Hne].
    + rewrite list_lookup_insert_eq by (by eapply lookup_lt_Some). by intros [= <-].
    + rewrite list_lookup_insert_ne by done. apply L3.
  - intros n ns' Hn. destruct (Hp n ns' Hn) as (ns & E & _ & ->). rewrite (L4 n ns E), (count_px _ _ x px px' Hx). lia.
  - intros m r' Hr'. destruct (Hm m r' Hr') as (r & E & ->). rewrite (L5 m r E), (count_px _ _ x px px' Hx). lia.
  - intros n ns' p Hn. destruct (Hp n ns' Hn) as (ns & E & -> & _). by apply (L6 n ns).
Qed.

Lemma lookup_alter_inv {A} (f : A -> A) (l : list A) i k y : alter f i l !! k = Some y ->
  exists z, l !! k = Some z /\ y = if decide (k = i) then f z else z.
Proof.
  rewrite list_lookup_alter. destruct (decide (i = k)) as [->|Hne].
  - intros (z & Hz & ->)%fmap_Some. exists z. by rewrite decide_True.
  - intros Hy. exists y. by rewrite decide_False.
Qed.

(** A change of the pid namespaces only. *)
Lemma ns_pids h c s (pn : list pid_ns) ev (c' : nat -> Z) : ns_ok h c s -> length pn = NNAMESPACE ->
  (forall n ns', pn !! n = Some ns' -> exists ns, pidnstable s !! n = Some ns /\ n_ref ns' = n_ref ns + (c' n - c n) /\
    (n_parent ns' = n_parent ns \/ forall p, n_parent ns' = Some p -> (p < NNAMESPACE)%nat)) ->
  ns_ok h c' (Nss (namespacetable s) pn (mountnstable s) ev).
Proof.
  intros [L1 L2 L3 L4 L5 L6] Hl Hp. split; cbn [namespacetable pidnstable mountnstable]; try done.
  - split_and!; [apply L1|done|apply L1].
  - intros n ns' Hn. destruct (Hp n ns' Hn) as (ns & E & -> & _). rewrite (L4 n ns E). lia.
  - intros n ns' p Hn Hp'. destruct (Hp n ns' Hn) as (ns & E & _ & [E2|E2]); [|by apply E2]. apply (L6 n ns p E). congruence.
Qed.

(** The references of one proxy, one pid namespace and one mount namespace. *)
Section ops.
Context (h c : nat -> Z) (s : nss) (Hok : ns_ok h c s) (Hh : small h) (Hc : small c).

Lemma proxy_at x : h x <> 0 -> (x < NNAMESPACE)%nat -> exists px m n, namespacetable s !! x = Some px /\ x_ref px = h x /\
  x_mount_ns px = Some m /\ x_pid_ns px = Some n /\ (m < NNAMESPACE)%nat /\ (n < NNAMESPACE)%nat.
Proof.
  intros Hx Hlt. destruct (nk_len _ _ _ Hok) as (L & _). destruct (lookup_lt_is_Some_2 (namespacetable s) x) as [px Hpx]; [by rewrite L|].
  pose proof (nk_proxy _ _ _ Hok x px Hpx) as E. destruct (nk_held _ _ _ Hok x px Hpx) as (m & n & ? & ? & ? & ?); [congruence|].
  exists px, m, n. done.
Qed.

Lemma pid_ns_at n : (n < NNAMESPACE)%nat -> exists ns, pidnstable s !! n = Some ns /\ 0 <= n_ref ns <= 84.
Proof.
  intros Hn. destruct (nk_len _ _ _ Hok) as (_ & L & _). destruct (lookup_lt_is_Some_2 (pidnstable s) n) as [ns Hns]; [by rewrite L|].
  exists ns. split; [done|]. rewrite (nk_pid _ _ _ Hok n ns Hns). pose proof (count_small h c s (px_pid n) Hok). pose proof (Hc n). lia.
Qed.

Lemma mount_ns_at m : (m < NNAMESPACE)%nat -> exists r, mountnstable s !! m = Some r /\ 0 <= r <= 20.
Proof.
  intros Hm. destruct (nk_len _ _ _ Hok) as (_ & _ & L). destruct (lookup_lt_is_Some_2 (mountnstable s) m) as [r Hr]; [by rewrite L|].
  exists r. split; [done|]. rewrite (nk_mount _ _ _ Hok m r Hr). pose proof (count_small h c s (px_mount m) Hok). lia.
Qed.

Lemma proxy_counted x px m n : namespacetable s !! x = Some px -> x_ref px <> 0 -> x_mount_ns px = Some m -> x_pid_ns px = Some n ->
  (forall ns, pidnstable s !! n = Some ns -> 0 < n_ref ns) /\ (forall r, mountnstable s !! m = Some r -> 0 < r).
Proof.
  intros Hx Hr Hm Hn. split.
  - intros ns Hns. rewrite (nk_pid _ _ _ Hok n ns Hns). pose proof (Hc n).
    enough (0 < count (px_pid n) (namespacetable s))%nat by lia. apply (count_elem _ _ x px Hx). by apply bool_decide_eq_true_2.
  - intros r Hr'. rewrite (nk_mount _ _ _ Hok m r Hr').
    enough (0 < count (px_mount m) (namespacetable s))%nat by lia. apply (count_elem _ _ x px Hx). by apply bool_decide_eq_true_2.
Qed.

End ops.

(** The pid namespace of a proxy, and what the operations leave of the pid namespaces. *)
Definition pid_ns_of (s : nss) (x : nat) : option nat := namespacetable s !! x ≫= x_pid_ns.
Definition pid_view (ns : pid_ns) := (n_parent ns, next_pid ns, pid1_ns_killed ns).
Definition same_pids (s s' : nss) : Prop := forall n, pid_view <$> pidnstable s' !! n = pid_view <$> pidnstable s !! n.

Lemma same_pids_alter f n s : (forall ns, pid_view (f ns) = pid_view ns) -> same_pids s (upd_pid_ns n f s).
Proof.
  intros Hf k. simpl. rewrite list_lookup_alter. case_decide; [|done]. subst. destruct (pidnstable s !! k); simpl; [by rewrite Hf|done].
Qed.

Lemma pid_ns_of_insert s x px' pn mn ev y : (x < length (namespacetable s))%nat ->
  pid_ns_of (Nss (<[x := px']> (namespacetable s)) pn mn ev) y = if decide (y = x) then x_pid_ns px' else pid_ns_of s y.
Proof.
  intros Hx. unfold pid_ns_of. simpl. destruct (decide (y = x)) as [->|]; [by rewrite list_lookup_insert_eq|by rewrite list_lookup_insert_ne].
Qed.

(** A table is full. *)
Definition exhausted (e : stop) : Prop :=
  e = Panic "out of nsproxy objects" \/ e = Panic "out of pid_ns objects" \/ e = Panic "out of mount_ns objects".

(** A table is full, or the chain of parents of a pid namespace does not end. *)
Definition unshare_stops (e : stop) : Prop := exhausted e \/ e = NoFuel.

Section runs.
Context (h c : nat -> Z) (s : nss) (Hok : ns_ok h c s) (Hh : small h) (Hc : small c).

Lemma get_proxy_run x px : namespacetable s !! x = Some px -> get_proxy (Some x) s = inr (px, s).
Proof. intros H. unfold get_proxy. mrun. simpl. by rewrite H. Qed.

Lemma get_pid_ns_run n ns : pidnstable s !! n = Some ns -> get_pid_ns (Some n) s = inr (ns, s).
Proof. intros H. unfold get_pid_ns. mrun. simpl. by rewrite H. Qed.

(** A proxy in use gets or loses a holder, and keeps at least one. *)
Lemma proxy_ref x px d : namespacetable s !! x = Some px -> x_ref px <> 0 -> h x + d <> 0 ->
  ns_ok (plus_at x d h) c (Nss (<[x := with_x_ref (h x + d) px]> (namespacetable s)) (pidnstable s) (mountnstable s) (ns_calls s)).
Proof.
  intros Hx Hr Hd. pose proof (nk_len _ _ _ Hok) as (_ & L2 & L3).
  assert (forall n, px_pid n (with_x_ref (h x + d) px) = px_pid n px) as Ep by (intros n; apply bool_decide_ext; simpl; tauto).
  assert (forall n, px_mount n (with_x_ref (h x + d) px) = px_mount n px) as Em by (intros n; apply bool_decide_ext; simpl; tauto).
  eapply (ns_change h c s x px); try done.
  - unfold plus_at. simpl. by rewrite decide_True.
  - intros y Hy. unfold plus_at. by rewrite decide_False.
  - intros _. exact (nk_held _ _ _ Hok x px Hx Hr).
  - intros n ns E. exists ns. rewrite Ep. split; [done|split; [done|lia]].
  - intros m r E. exists r. rewrite Em. split; [done|lia].
Qed.

Lemma namespacedup_run x : h x <> 0 -> (x < NNAMESPACE)%nat ->
  exists s', namespacedup x s = inr (x, s') /\ ns_ok (plus_at x 1 h) c s' /\ same_pids s s' /\ forall y, pid_ns_of s' y = pid_ns_of s y.
Proof.
  intros Hx Hlt. destruct (proxy_at h c s Hok x Hx Hlt) as (px & m & n & Hpx & Er & _). pose proof (Hh x) as Hb.
  eexists. split; [reflexivity|]. unfold upd_proxy. rewrite (alter_insert _ _ _ px Hpx), Er.
  replace (h x +i 1) with (h x + 1) by (symmetry; apply s32_id; unfold is_s32; lia).
  split; [apply proxy_ref; [done|congruence|lia]|]. split; [done|].
  intros y. rewrite pid_ns_of_insert by (by eapply lookup_lt_Some). case_decide; [|done]. subst. unfold pid_ns_of. by rewrite Hpx.
Qed.

End runs.

Definition dec_ref (ns : pid_ns) : pid_ns := with_n_ref (n_ref ns -i 1) ns.
Definition inc_ref (ns : pid_ns) : pid_ns := with_n_ref (n_ref ns +i 1) ns.

Section proxies.
Context (h c : nat -> Z) (s : nss) (Hok : ns_ok h c s) (Hh : small h) (Hc : small c).

(** The last holder of a proxy leaves: it gives back its namespaces. *)
Lemma drop_proxy x px m n ev : namespacetable s !! x = Some px -> x_ref px = 1 -> x_mount_ns px = Some m -> x_pid_ns px = Some n ->
  ns_ok (plus_at x (-1) h) c (Nss (<[x := Nsproxy 0 None None]> (namespacetable s)) (alter dec_ref n (pidnstable s))
    (alter (fun r => r -i 1) m (mountnstable s)) ev).
Proof.
  intros Hx Hr Hm Hn. pose proof (nk_len _ _ _ Hok) as (_ & L2 & L3). pose proof (nk_proxy _ _ _ Hok x px Hx) as Eh.
  destruct (nk_held _ _ _ Hok x px Hx) as (m' & n' & E1 & E2 & Hm' & Hn'); [lia|]. assert (m' = m) as -> by congruence. assert (n' = n) as -> by congruence.
  destruct (proxy_counted h c s Hok Hc x px m n Hx ltac:(lia) Hm Hn) as [Cn Cm].
  eapply (ns_change h c s x px); [done|done|by rewrite length_alter|by rewrite length_alter| | |done| |].
  - unfold plus_at. rewrite decide_True by done. simpl. lia.
  - intros y Hy. unfold plus_at. by rewrite decide_False.
  - intros k ns' (ns & E & ->)%lookup_alter_inv. exists ns. split; [done|]. split; [by case_decide|]. unfold px_pid. cbn [x_ref].
    rewrite (bool_decide_eq_false_2 (0 <> 0 /\ _)) by (by intros []). destruct (decide (k = n)) as [->|Hne].
    + rewrite bool_decide_eq_true_2 by (split; [lia|done]). pose proof (Cn ns E). destruct (pid_ns_at h c s Hok Hc n Hn') as (ns0 & E0 & Hb).
      assert (ns0 = ns) as -> by congruence. simpl. rewrite s32_id by (unfold is_s32; lia). lia.
    + rewrite bool_decide_eq_false_2 by (intros []; congruence). lia.
  - intros k r' (r & E & ->)%lookup_alter_inv. exists r. split; [done|]. unfold px_mount. cbn [x_ref].
    rewrite (bool_decide_eq_false_2 (0 <> 0 /\ _)) by (by intros []). destruct (decide (k = m)) as [->|Hne].
    + rewrite bool_decide_eq_true_2 by (split; [lia|done]). pose proof (Cm r E). destruct (mount_ns_at h c s Hok m Hm') as (r0 & E0 & Hb).
      assert (r0 = r) as -> by congruence. rewrite s32_id by (unfold is_s32; lia). lia.
    + rewrite bool_decide_eq_false_2 by (intros []; congruence). lia.
Qed.

(** A free proxy is given a reference to the mount namespace [m] and to the pid namespace [n]. *)
Lemma fill_proxy x px m n ev : namespacetable s !! x = Some px -> x_ref px = 0 -> (m < NNAMESPACE)%nat -> (n < NNAMESPACE)%nat ->
  ns_ok (plus_at x 1 h) c (Nss (<[x := Nsproxy 1 (Some m) (Some n)]> (namespacetable s)) (alter inc_ref n (pidnstable s))
    (alter (fun r => r +i 1) m (mountnstable s)) ev).
Proof.
  intros Hx Hr Hm Hn. pose proof (nk_len _ _ _ Hok) as (_ & L2 & L3). pose proof (nk_proxy _ _ _ Hok x px Hx) as Eh.
  eapply (ns_change h c s x px); [done|done|by rewrite length_alter|by rewrite length_alter| | | | |].
  - unfold plus_at. rewrite decide_True by done. simpl. lia.
  - intros y Hy. unfold plus_at. by rewrite decide_False.
  - intros _. by exists m, n.
  - intros k ns' (ns & E & ->)%lookup_alter_inv. exists ns. split; [done|]. split; [by case_decide|]. unfold px_pid. cbn [x_ref x_pid_ns].
    rewrite (bool_decide_eq_false_2 (x_ref px <> 0 /\ _)) by (intros []; lia). destruct (decide (k = n)) as [->|Hne].
    + rewrite bool_decide_eq_true_2 by done. destruct (pid_ns_at h c s Hok Hc n Hn) as (ns0 & E0 & Hb).
      assert (ns0 = ns) as -> by congruence. simpl. rewrite s32_id by (unfold is_s32; lia). lia.
    + rewrite bool_decide_eq_false_2 by (intros []; congruence). lia.
  - intros k r' (r & E & ->)%lookup_alter_inv. exists r. split; [done|]. unfold px_mount. cbn [x_ref x_mount_ns].
    rewrite (bool_decide_eq_false_2 (x_ref px <> 0 /\ _)) by (intros []; lia). destruct (decide (k = m)) as [->|Hne].
    + rewrite bool_decide_eq_true_2 by done. destruct (mount_ns_at h c s Hok m Hm) as (r0 & E0 & Hb).
      assert (r0 = r) as -> by congruence. rewrite s32_id by (unfold is_s32; lia). lia.
    + rewrite bool_decide_eq_false_2 by (intros []; congruence). lia.
Qed.

(** A proxy in use moves from the mount namespace [m] to the free one [m']. *)
Lemma switch_mount x px m m' ev : namespacetable s !! x = Some px -> x_ref px <> 0 -> x_mount_ns px = Some m -> mountnstable s !! m' = Some 0 ->
  ns_ok h c (Nss (<[x := Nsproxy (x_ref px) (Some m') (x_pid_ns px)]> (namespacetable s)) (pidnstable s)
    (alter (fun r => r -i 1) m (alter (fun _ => 1) m' (mountnstable s))) ev).
Proof.
  intros Hx Hr Hm Hm'. pose proof (nk_len _ _ _ Hok) as (_ & L2 & L3).
  destruct (nk_held _ _ _ Hok x px Hx Hr) as (m0 & n & E1 & E2 & Hlt & Hn). assert (m0 = m) as -> by congruence.
  destruct (proxy_counted h c s Hok Hc x px m n Hx Hr Hm E2) as [_ Cm].
  assert (m <> m') as Hne by (intros ->; specialize (Cm 0 Hm'); lia).
  eapply (ns_change h c s x px); [done|done|done|by rewrite !length_alter|exact (nk_proxy _ _ _ Hok x px Hx)|done| | |].
  - intros _. exists m', n. split_and!; try done. rewrite <- L3. by eapply lookup_lt_Some.
  - intros k ns E. exists ns. split; [done|]. split; [done|]. unfold px_pid. cbn [x_ref x_pid_ns]. lia.
  - intros k r' (r1 & (r & E & ->)%lookup_alter_inv & ->)%lookup_alter_inv. exists r. split; [done|]. unfold px_mount. cbn [x_ref x_mount_ns].
    destruct (decide (k = m)) as [->|Hkm].
    + rewrite (decide_False (P := m = m')) by done. rewrite (bool_decide_eq_false_2 (_ /\ Some m' = _)) by (intros []; congruence).
      rewrite bool_decide_eq_true_2 by done. pose proof (Cm r E). destruct (mount_ns_at h c s Hok m Hlt) as (r0 & E0 & Hb).
      assert (r0 = r) as -> by congruence. rewrite s32_id by (unfold is_s32; lia). lia.
    + rewrite (bool_decide_eq_false_2 (_ /\ x_mount_ns px = _)) by (intros []; congruence). destruct (decide (k = m')) as [->|Hkm'].
      * rewrite bool_decide_eq_true_2 by done. assert (r = 0) as -> by congruence. lia.
      * rewrite bool_decide_eq_false_2 by (intros []; congruence). lia.
Qed.

End proxies.

Lemma bind_run' {S A B} (m : M S A) (k : A -> M S B) s a s1 r : m s = inr (a, s1) -> k a s1 = r -> (m ≫= k) s = r.
Proof. intros H <-. by apply bind_run. Qed.

(** The single steps, as equations. *)
Lemma mount_nsput_run s m r : mountnstable s !! m = Some r -> exists ev, mount_nsput m s =
  inr (tt, Nss (namespacetable s) (pidnstable s) (alter (fun r => r -i 1) m (mountnstable s)) ev).
Proof. intros Hr. unfold mount_nsput. mrun. rewrite Hr. destruct (r =? 1); eexists; reflexivity. Qed.

Lemma pid_ns_put_eq s n ns : pidnstable s !! n = Some ns -> n_ref ns <> 0 -> pid_ns_put n s = inr (tt, upd_pid_ns n dec_ref s).
Proof.
  intros Hn Hr. unfold pid_ns_put. rewrite (bind_run _ _ _ _ _ (get_pid_ns_run s n ns Hn)).
  by rewrite (proj2 (Z.eqb_neq _ _) Hr).
Qed.

Lemma alter_alter {A} (f g : A -> A) (l : list A) i x : l !! i = Some x -> alter g i (alter f i l) = <[i := g (f x)]> l.
Proof.
  intros Hx. rewrite (alter_insert f _ _ x Hx), (alter_insert g _ _ (f x)) by (by rewrite list_lookup_insert_eq by (by eapply lookup_lt_Some)).
  apply list_insert_insert_eq.
Qed.

Section operations.
Context (h c : nat -> Z) (s : nss) (Hok : ns_ok h c s) (Hh : small h) (Hc : small c).

Lemma namespaceput_run x : h x <> 0 -> (x < NNAMESPACE)%nat ->
  exists s', namespaceput x s = inr (tt, s') /\ ns_ok (plus_at x (-1) h) c s' /\ same_pids s s' /\
    forall y, y <> x \/ h x <> 1 -> pid_ns_of s' y = pid_ns_of s y.
Proof.
  intros Hx Hlt. destruct (proxy_at h c s Hok x Hx Hlt) as (px & m & n & Hpx & Er & Em & En & Hm & Hn). pose proof (Hh x) as Hb.
  unfold namespaceput. rewrite (bind_run _ _ _ _ _ (get_proxy_run s x px Hpx)). rewrite Er. destruct (h x =? 1) eqn:E1.
  - destruct (mount_ns_at h c s Hok m Hm) as (r & Hr & _). destruct (pid_ns_at h c s Hok Hc n Hn) as (ns & Hns & _).
    destruct (proxy_counted h c s Hok Hc x px m n Hpx ltac:(lia) Em En) as [Cn _]. pose proof (Cn ns Hns).
    destruct (mount_nsput_run s m r Hr) as [ev Ev]. rewrite Em, En.
    eexists. split.
    { eapply bind_run'; [|reflexivity]. eapply bind_run'; [reflexivity|]. eapply bind_run'; [exact Ev|]. eapply bind_run'; [reflexivity|].
      eapply bind_run'; [apply (pid_ns_put_eq _ n ns); [exact Hns|lia]|]. reflexivity. }
    unfold upd_proxy, upd_pid_ns. cbn [namespacetable pidnstable mountnstable ns_calls].
    rewrite (alter_alter _ _ _ _ px Hpx). unfold with_x_ref at 1. cbn [x_ref x_mount_ns x_pid_ns].
    replace (x_ref px -i 1) with 0 by (rewrite Er, s32_id by (unfold is_s32; lia); lia).
    split; [apply (drop_proxy h c s Hok Hc x px); done || lia|]. split; [by apply (same_pids_alter dec_ref)|].
    intros y [Hy|Hy]; [|lia]. rewrite pid_ns_of_insert by (by eapply lookup_lt_Some). by rewrite decide_False.
  - eexists. split; [reflexivity|]. unfold upd_proxy. rewrite (alter_insert _ _ _ px Hpx), Er.
    replace (h x -i 1) with (h x + -1) by (symmetry; apply s32_id; unfold is_s32; lia).
    split; [apply (proxy_ref h c s Hok); [done|congruence|lia]|]. split; [done|].
    intros y _. rewrite pid_ns_of_insert by (by eapply lookup_lt_Some). case_decide; [|done]. subst. unfold pid_ns_of. by rewrite Hpx.
Qed.

Lemma pid_ns_put_run n : c n <> 0 -> (n < NNAMESPACE)%nat ->
  exists s', pid_ns_put n s = inr (tt, s') /\ ns_ok h (plus_at n (-1) c) s' /\ same_pids s s' /\ forall y, pid_ns_of s' y = pid_ns_of s y.
Proof.
  intros Hn Hlt. destruct (pid_ns_at h c s Hok Hc n Hlt) as (ns & Hns & Hb). pose proof (Hc n) as Hcn.
  pose proof (nk_pid _ _ _ Hok n ns Hns) as Er. exists (upd_pid_ns n dec_ref s). split; [apply (pid_ns_put_eq s n ns Hns); lia|].
  split; [|split; [by apply same_pids_alter|done]]. apply (ns_pids h c s _ _ _ Hok); [rewrite length_alter; apply (nk_len _ _ _ Hok)|].
  intros k ns' (ns0 & E & ->)%lookup_alter_inv. exists ns0. split; [done|]. unfold plus_at. case_decide; [|split; [lia|by left]]. subst.
  assert (ns0 = ns) as -> by congruence. simpl. rewrite s32_id by (unfold is_s32; lia). split; [lia|by left].
Qed.

Lemma pid_ns_new_ok parent : (forall p, parent = Some p -> (p < NNAMESPACE)%nat) -> okp exhausted (pid_ns_new parent) s (fun n s' =>
  (n < NNAMESPACE)%nat /\ c n = 0 /\ (forall y px, namespacetable s !! y = Some px -> x_ref px <> 0 -> x_pid_ns px <> Some n) /\
  ns_ok h (plus_at n 1 c) s' /\ namespacetable s' = namespacetable s /\
  pid_view <$> pidnstable s' !! n = Some (parent, 1, 0) /\ forall k, k <> n -> pidnstable s' !! k = pidnstable s !! k).
Proof.
  intros Hpar. apply okp_bind. unfold pid_ns_alloc, okp. mrun. destruct (list_find _ (pidnstable s)) as [[n ns]|] eqn:Ef; [|by right; left].
  apply list_find_Some in Ef as (Hn & Hr & _). pose proof (nk_len _ _ _ Hok) as (L1 & L2 & L3).
  pose proof (nk_pid _ _ _ Hok n ns Hn) as Ec. pose proof (Hc n). split; [rewrite <- L2; by eapply lookup_lt_Some|]. split; [lia|]. split.
  { intros y px Hy Hpx E. enough (0 < count (px_pid n) (namespacetable s))%nat by lia. apply (count_elem _ _ y px Hy). by apply bool_decide_eq_true_2. }
  unfold upd_pid_ns. cbn [namespacetable pidnstable mountnstable ns_calls]. rewrite (alter_alter _ _ _ _ ns Hn). simpl.
  split; [|split; [done|split; [by rewrite list_lookup_insert_eq by (by eapply lookup_lt_Some)|intros k Hk; by rewrite list_lookup_insert_ne]]].
  apply (ns_pids h c s _ _ _ Hok); [by rewrite length_insert|]. intros k ns' Hk. unfold plus_at. destruct (decide (k = n)) as [->|Hne].
  - rewrite list_lookup_insert_eq in Hk by (by eapply lookup_lt_Some). injection Hk as <-. exists ns. split; [done|]. simpl. split; [lia|by right].
  - rewrite list_lookup_insert_ne in Hk by done. exists ns'. split; [done|]. split; [lia|by left].
Qed.

(** Taking a free proxy and giving it the namespaces [m] and [n]. *)
Lemma alloc_proxy_ok : okp exhausted allocnsproxyinternal s (fun x s' => exists px, namespacetable s !! x = Some px /\ x_ref px = 0 /\ h x = 0 /\
  (x < NNAMESPACE)%nat /\ s' = upd_proxy x (fun px => with_x_ref (x_ref px +i 1) px) s).
Proof.
  unfold allocnsproxyinternal, okp. mrun. destruct (list_find _ (namespacetable s)) as [[x px]|] eqn:Ef; [|by left].
  apply list_find_Some in Ef as (Hx & Hr & _). exists px. split; [done|]. split; [done|]. rewrite <- (nk_proxy _ _ _ Hok x px Hx).
  split; [done|]. split; [|done]. destruct (nk_len _ _ _ Hok) as [<- _]. by eapply lookup_lt_Some.
Qed.

Definition filled (x m n : nat) : nss :=
  Nss (<[x := Nsproxy 1 (Some m) (Some n)]> (namespacetable s)) (alter inc_ref n (pidnstable s)) (alter (fun r => r +i 1) m (mountnstable s)) (ns_calls s).

Lemma filled_eq x px m n : namespacetable s !! x = Some px -> x_ref px = 0 ->
  upd_proxy x (fun px => Nsproxy (x_ref px) (Some m) (Some n))
    (upd_pid_ns n inc_ref (upd_mount_ns m (fun r => r +i 1) (upd_proxy x (fun px => with_x_ref (x_ref px +i 1) px) s))) = filled x m n.
Proof. intros Hx Hr. unfold filled, upd_proxy, upd_pid_ns, upd_mount_ns. simpl. rewrite (alter_alter _ _ _ _ px Hx). simpl. by rewrite Hr. Qed.

Lemma filled_ok x px m n : namespacetable s !! x = Some px -> x_ref px = 0 -> (m < NNAMESPACE)%nat -> (n < NNAMESPACE)%nat ->
  ns_ok (plus_at x 1 h) c (filled x m n) /\ same_pids s (filled x m n) /\ pid_ns_of (filled x m n) x = Some n /\
  forall y, y <> x -> pid_ns_of (filled x m n) y = pid_ns_of s y.
Proof.
  intros Hx Hr Hm Hn. assert (x < length (namespacetable s))%nat by (by eapply lookup_lt_Some). unfold filled.
  split; [by apply (fill_proxy h c s Hok Hc x px)|]. split; [by apply (same_pids_alter inc_ref)|].
  split; [rewrite pid_ns_of_insert by done; by rewrite decide_True|]. intros y Hy. rewrite pid_ns_of_insert by done. by rewrite decide_False.
Qed.

Lemma replace_ok old n : h old <> 0 -> (old < NNAMESPACE)%nat -> (n < NNAMESPACE)%nat ->
  okp exhausted (namespace_replace_pid_ns old n) s (fun x s' => (x < NNAMESPACE)%nat /\ h x = 0 /\
    ns_ok (plus_at x 1 h) c s' /\ same_pids s s' /\ pid_ns_of s' x = Some n /\ forall y, y <> x -> pid_ns_of s' y = pid_ns_of s y).
Proof.
  intros Ho Hlt Hn. unfold namespace_replace_pid_ns. apply okp_bind. eapply okp_mono; [apply alloc_proxy_ok|done|].
  intros x s1 (px & Hx & Hr & Hhx & Hxl & ->). destruct (proxy_at h c s Hok old Ho Hlt) as (po & m & no & Hpo & _ & Em & _ & Hm & _).
  eapply okp_run; [|split; [exact Hxl|split; [exact Hhx|]]].
  { eapply bind_run'; [apply (get_proxy_run _ old po); simpl; rewrite list_lookup_alter_ne; [exact Hpo|by intros ->]|].
    rewrite Em. reflexivity. }
  fold inc_ref. erewrite (filled_eq x px) by done. by apply (filled_ok x px).
Qed.

End operations.

Lemma ns_ok_ext h h' c c' s : (forall x, h' x = h x) -> (forall n, c' n = c n) -> ns_ok h c s -> ns_ok h' c' s.
Proof.
  intros Eh Ec [L1 L2 L3 L4 L5 L6]. split; try done.
  - intros x px Hx. by rewrite Eh, (L2 x px Hx).
  - intros n ns Hn. by rewrite Ec, (L4 n ns Hn).
Qed.

Lemma plus_at_eq x d h : plus_at x d h x = h x + d.
Proof. unfold plus_at. by rewrite decide_True. Qed.

Lemma plus_at_ne x d h y : y <> x -> plus_at x d h y = h y.
Proof. intros H. unfold plus_at. by rewrite decide_False. Qed.

(** The holder of proxy [x] now holds [x']. *)
Definition moved_to (x x' : nat) (h : nat -> Z) : nat -> Z := plus_at x (-1) (plus_at x' 1 h).

Section unsharing.
Context (h c : nat -> Z) (s : nss) (Hok : ns_ok h c s) (Hh : small h) (Hc : small c).

Lemma own_proxy_ok x : h x <> 0 -> (x < NNAMESPACE)%nat -> okp exhausted (own_proxy x) s (fun x' s' =>
  (x' < NNAMESPACE)%nat /\ ns_ok (moved_to x x' h) c s' /\ moved_to x x' h x' = 1 /\ same_pids s s' /\
  pid_ns_of s' x' = pid_ns_of s x /\ (forall y, y <> x' -> pid_ns_of s' y = pid_ns_of s y) /\ (x' <> x -> h x' = 0)).
Proof.
  intros Hx Hlt. destruct (proxy_at h c s Hok x Hx Hlt) as (px & m & n & Hpx & Er & Em & En & Hm & Hn). pose proof (Hh x) as Hb.
  unfold own_proxy. apply okp_bind. eapply okp_run; [exact (get_proxy_run s x px Hpx)|]. rewrite Er. destruct (1 <? h x) eqn:E1.
  - apply okp_bind. eapply okp_mono; [apply (alloc_proxy_ok h c s Hok)|done|]. intros x' s1 (px' & Hx' & Hr' & Hhx' & Hxl' & ->).
    assert (x' <> x) as Hne by (intros ->; congruence). rewrite Em, En.
    eapply okp_run; [reflexivity|]. fold inc_ref. rewrite (filled_eq s x' px') by done.
    destruct (filled_ok h c s Hok Hc x' px' m n Hx' Hr' Hm Hn) as (K1 & K2 & K3 & K4).
    assert (namespacetable (filled s x' m n) !! x = Some px) as Hpx1 by (simpl; by rewrite list_lookup_insert_ne).
    unfold upd_proxy. rewrite (alter_insert _ _ _ px Hpx1), Er.
    replace (h x -i 1) with (plus_at x' 1 h x + -1) by (rewrite plus_at_ne by done; symmetry; apply s32_id; unfold is_s32; lia).
    assert (x < length (namespacetable (filled s x' m n)))%nat as Hl by (by eapply lookup_lt_Some).
    split; [done|]. split; [apply (proxy_ref _ c _ K1); [done|congruence|rewrite plus_at_ne by done; lia]|].
    split; [unfold moved_to; rewrite plus_at_ne, plus_at_eq by done; lia|]. split; [done|].
    split; [rewrite pid_ns_of_insert, decide_False, K3 by done; unfold pid_ns_of; by rewrite Hpx|]. split; [|done].
    intros y Hy. rewrite pid_ns_of_insert by done. case_decide; [|by apply K4]. subst. unfold pid_ns_of. by rewrite Hpx.
  - eapply okp_run; [reflexivity|]. assert (forall y, moved_to x x h y = h y) as Em' by (intros y; unfold moved_to, plus_at; case_decide; lia).
    split; [done|]. split; [by apply (ns_ok_ext h _ c c)|]. rewrite Em'. by split; [lia|].
Qed.

Lemma depth_total fuel n d : (forall k, n = Some k -> (k < NNAMESPACE)%nat) ->
  okp (fun e => e = NoFuel) (pid_ns_depth fuel n d) s (fun _ s' => s' = s).
Proof.
  revert n d. induction fuel as [|fuel IH]; intros [n|] d Hn; cbn [pid_ns_depth]; try done.
  destruct (pid_ns_at h c s Hok Hc n (Hn n eq_refl)) as (ns & Hns & _).
  apply okp_bind. eapply okp_run; [exact (get_pid_ns_run s n ns Hns)|]. apply IH. intros k. by apply (nk_parent _ _ _ Hok n ns).
Qed.

End unsharing.

Lemma moved_small x x' h : small h -> h x <> 0 -> (x' <> x -> h x' = 0) -> small (moved_to x x' h).
Proof.
  intros Hh Hx Hx' y. pose proof (Hh y) as Hy. pose proof (Hh x) as Hb. unfold moved_to, plus_at.
  destruct (decide (y = x)) as [->|], (decide (_ = x')) as [->|]; lia.
Qed.

(** What [unshare] leaves: the process keeps its pid namespace, and may have got a new one for its children. *)
Definition unshared (h c : nat -> Z) (s : nss) (x : nat) (child : option nat) (r : Z * nat * option nat) (s' : nss) : Prop :=
  let '(_, x', child') := r in
  (x' < NNAMESPACE)%nat /\ pid_ns_of s' x' = pid_ns_of s x /\ (forall y, y <> x' -> pid_ns_of s' y = pid_ns_of s y) /\ (x' <> x -> h x' = 0) /\
  (child' = child /\ ns_ok (moved_to x x' h) c s' /\ same_pids s s' \/
   child = None /\ exists n, child' = Some n /\ (n < NNAMESPACE)%nat /\ c n = 0 /\ ns_ok (moved_to x x' h) (plus_at n 1 c) s' /\
     (forall y, moved_to x x' h y <> 0 -> pid_ns_of s' y <> Some n) /\ (exists w, pidnstable s' !! n = Some w /\ 1 <= next_pid w) /\
     forall k, k <> n -> pid_view <$> pidnstable s' !! k = pid_view <$> pidnstable s !! k).

Lemma unshare_mount_ok h c s x px m : ns_ok h c s -> small c -> namespacetable s !! x = Some px -> x_ref px <> 0 -> x_mount_ns px = Some m ->
  okp exhausted (m' ← copymount_ns; modS (upd_proxy x (fun px => Nsproxy (x_ref px) (Some m') (x_pid_ns px))) ;; mount_nsput m) s
    (fun _ s' => ns_ok h c s' /\ same_pids s s' /\ forall y, pid_ns_of s' y = pid_ns_of s y).
Proof.
  intros Hok Hc Hx Hr Hm. destruct (nk_held _ _ _ Hok x px Hx Hr) as (m0 & n & E1 & E2 & Hlt & Hn). assert (m0 = m) as -> by congruence.
  apply okp_bind. unfold copymount_ns. apply okp_bind. unfold allocmount_ns, okp at 1. mrun.
  destruct (list_find _ (mountnstable s)) as [[m' r']|] eqn:Ef; [|by right; right]. apply list_find_Some in Ef as (Hm' & -> & _).
  destruct (mount_ns_at h c s Hok m Hlt) as (r & Hmr & _). unfold okp at 1. mrun.
  unfold okp. cbv beta.
  set (s1 := upd_proxy x _ _). assert (exists q, mountnstable s1 !! m = Some q) as [q Hq].
  { subst s1. simpl. rewrite list_lookup_alter. case_decide; [subst; rewrite Hmr; by eexists|by eexists]. }
  destruct (mount_nsput_run s1 m q Hq) as [ev Ev]. rewrite Ev. subst s1. simpl.
  rewrite (alter_insert _ _ _ px Hx). split; [by apply (switch_mount h c s Hok Hc x px)|]. split; [done|].
  intros y. rewrite pid_ns_of_insert by (by eapply lookup_lt_Some). case_decide; [|done]. subst. unfold pid_ns_of. by rewrite Hx.
Qed.

Lemma unshare_ok h c s t x child : ns_ok h c s -> small h -> small c -> h x <> 0 -> (x < NNAMESPACE)%nat ->
  okp unshare_stops (unshare t x child) s (unshared h c s x child).
Proof.
  intros Hok Hh Hc Hx Hlt. unfold unshare. apply okp_bind. eapply okp_mono; [by apply (own_proxy_ok h c s Hok Hh Hc x)|by left|].
  intros x' s1 (Hlt' & Hok1 & H1 & Hp & Hpx & Hpy & Hfresh). pose proof (moved_small x x' h Hh Hx Hfresh) as Hh1.
  assert (forall r, unshared h c s x child (r, x', child) s1) as Hsame by (intros r; split_and!; try done; by left).
  destruct (proxy_at _ _ _ Hok1 x' ltac:(lia) Hlt') as (px & m & n & Hpx' & Er & Em & En & Hm & Hn).
  destruct t.
  - apply okp_bind. eapply okp_run; [exact (get_proxy_run s1 x' px Hpx')|]. rewrite Em.
    pose proof (unshare_mount_ok _ c s1 x' px m Hok1 Hc Hpx' ltac:(congruence) Em) as H. revert H. unfold okp, mbind, M_bind.
    destruct (copymount_ns s1) as [e|[m' s2]]; [by left|]. mrun. destruct (mount_nsput m _) as [e|[[] s3]]; [by left|].
    intros (K1 & K2 & K3). split_and!; try done; [by rewrite K3|by intros y Hy; rewrite K3; apply Hpy|].
    left. split_and!; try done. intros k. by rewrite K2.
  - destruct child as [k|]; [by apply Hsame|]. apply okp_bind. eapply okp_run; [exact (get_proxy_run s1 x' px Hpx')|]. rewrite En.
    apply okp_bind. unfold pid_ns_is_max_depth. apply okp_bind. eapply okp_mono; [apply (depth_total _ c s1 Hok1 Hc); by intros k [= <-]|by right|].
    intros d s2 ->. apply (okp_run _ _ _ _ _ _ eq_refl). destruct (_ <=? d); [by apply Hsame|]. apply okp_bind.
    eapply okp_mono; [apply (pid_ns_new_ok _ c s1 Hok1 Hc (Some n)); by intros k [= <-]|by left|].
    intros k s2 (Hk & Hck & Hfr & Hok2 & Et & Hv & Hvk). assert (forall y, pid_ns_of s2 y = pid_ns_of s1 y) as Epid by (intros y; unfold pid_ns_of; by rewrite Et).
    apply (okp_run _ _ _ _ _ _ eq_refl). split_and!; try done; [by rewrite Epid|by intros y Hy; rewrite Epid; apply Hpy|].
    right. split; [done|]. exists k. split_and!; try done.
    + intros y Hy. rewrite Epid. unfold pid_ns_of. destruct (namespacetable s1 !! y) as [py|] eqn:Ey; [|done]. simpl.
      apply (Hfr y py Ey). by rewrite (nk_proxy _ _ _ Hok1 y py Ey).
    + apply fmap_Some in Hv as (w & Hw & Ew). exists w. split; [done|]. unfold pid_view in Ew.
      assert (next_pid w = 1) as -> by congruence. lia.
    + intros j Hj. rewrite Hvk by done. apply Hp.
  - by apply Hsame.
Qed.

(** Taking the next pid of a namespace. *)
Definition next_pid_taken (n : nat) (s : nss) : nss :=
  upd_pid_ns n (fun ns => PidNs (n_ref ns) (n_parent ns) (next_pid ns +i 1) (pid1_ns_killed ns)) s.

Lemma next_pid_run s n ns : pidnstable s !! n = Some ns -> pid_ns_next_pid n s = inr (next_pid ns, next_pid_taken n s).
Proof. intros Hn. unfold pid_ns_next_pid. by rewrite (bind_run _ _ _ _ _ (get_pid_ns_run s n ns Hn)). Qed.

Lemma upd_pid_ns_ok h c s n f : ns_ok h c s -> (forall ns, n_ref (f ns) = n_ref ns /\ n_parent (f ns) = n_parent ns) -> ns_ok h c (upd_pid_ns n f s).
Proof.
  intros Hok Hf. apply (ns_pids h c s _ _ _ Hok); [rewrite length_alter; apply (nk_len _ _ _ Hok)|].
  intros k ns' (ns & E & ->)%lookup_alter_inv. exists ns. split; [done|]. destruct (Hf ns). case_decide; split; try lia; by left.
Qed.
