(* ===== verification/Proc.v ===== *)
(** * Processes (kernel/proc.c)

    The process table: allocation, [fork], [exit], [wait], [kill], [sleep], [wakeup],
    the scheduler's choice and the moves between control groups.  A process is an
    index of the table.  The control groups are those of [Cgroup] (the size and the
    group of a process are its entry in [ptab]), the namespaces those of [Namespace],
    the accounting that of [CpuAccount].  Each call is one atomic step, also the parts of
    [fork] and [exit] that run without [ptable.lock].
    The open files, the current directory and its mount are pointers; what the code
    calls on them is recorded in [calls].  The page tables, the kernel stack and the
    trap frame are left out but for their presence; whether [kalloc] and [copyuvm]
    find memory is an argument. *)
From S2P Require Import Prelude Kalloc Cgroup CgroupTree CpuAccount Namespace.
Local Open Scope Z_scope.

Definition NOFILE : nat := 16.

Inductive procstate := UNUSED | EMBRYO | SLEEPING | RUNNABLE | RUNNING | ZOMBIE.
#[export] Instance procstate_eq_dec : EqDecision procstate.
Proof. solve_decision. Defined.

(** A channel is an address: that of a process or of something else. *)
Inductive channel := ChanProc (p : nat) | ChanAddr (a : Z).
#[export] Instance channel_eq_dec : EqDecision channel.
Proof. solve_decision. Defined.

Record pid_entry := PidEntry { e_pid_ns : option nat; e_pid : Z }.

Record proc := Proc {
  state : procstate;
  killed : Z;
  p_parent : option nat;
  chan : option channel;
  ns_pid : Z;
  pids : list pid_entry;
  p_nsproxy : option nat;
  child_pid_ns : option nat;
  status : Z;
  kstack : bool;
  pgdir : bool;
  ofile : list (option nat);
  cwd : option nat;
  cwdmount : option nat;
  acct : pacct
}.

Definition with_state (v : procstate) (p : proc) : proc :=
  Proc v (killed p) (p_parent p) (chan p) (ns_pid p) (pids p) (p_nsproxy p) (child_pid_ns p) (status p) (kstack p) (pgdir p) (ofile p) (cwd p) (cwdmount p) (acct p).
Definition with_killed (v : Z) (p : proc) : proc :=
  Proc (state p) v (p_parent p) (chan p) (ns_pid p) (pids p) (p_nsproxy p) (child_pid_ns p) (status p) (kstack p) (pgdir p) (ofile p) (cwd p) (cwdmount p) (acct p).
Definition with_p_parent (v : option nat) (p : proc) : proc :=
  Proc (state p) (killed p) v (chan p) (ns_pid p) (pids p) (p_nsproxy p) (child_pid_ns p) (status p) (kstack p) (pgdir p) (ofile p) (cwd p) (cwdmount p) (acct p).
Definition with_chan (v : option channel) (p : proc) : proc :=
  Proc (state p) (killed p) (p_parent p) v (ns_pid p) (pids p) (p_nsproxy p) (child_pid_ns p) (status p) (kstack p) (pgdir p) (ofile p) (cwd p) (cwdmount p) (acct p).
Definition with_pids (n : Z) (v : list pid_entry) (p : proc) : proc :=
  Proc (state p) (killed p) (p_parent p) (chan p) n v (p_nsproxy p) (child_pid_ns p) (status p) (kstack p) (pgdir p) (ofile p) (cwd p) (cwdmount p) (acct p).
Definition with_ns (x c : option nat) (p : proc) : proc :=
  Proc (state p) (killed p) (p_parent p) (chan p) (ns_pid p) (pids p) x c (status p) (kstack p) (pgdir p) (ofile p) (cwd p) (cwdmount p) (acct p).
Definition with_status (v : Z) (p : proc) : proc :=
  Proc (state p) (killed p) (p_parent p) (chan p) (ns_pid p) (pids p) (p_nsproxy p) (child_pid_ns p) v (kstack p) (pgdir p) (ofile p) (cwd p) (cwdmount p) (acct p).
Definition with_mem (k g : bool) (p : proc) : proc :=
  Proc (state p) (killed p) (p_parent p) (chan p) (ns_pid p) (pids p) (p_nsproxy p) (child_pid_ns p) (status p) k g (ofile p) (cwd p) (cwdmount p) (acct p).
Definition with_files (o : list (option nat)) (c m : option nat) (p : proc) : proc :=
  Proc (state p) (killed p) (p_parent p) (chan p) (ns_pid p) (pids p) (p_nsproxy p) (child_pid_ns p) (status p) (kstack p) (pgdir p) o c m (acct p).
Definition with_acct (v : pacct) (p : proc) : proc :=
  Proc (state p) (killed p) (p_parent p) (chan p) (ns_pid p) (pids p) (p_nsproxy p) (child_pid_ns p) (status p) (kstack p) (pgdir p) (ofile p) (cwd p) (cwdmount p) v.

(** Calls to the file system. *)
Inductive pcall :=
| Filedup (f : nat) | Fileclose (f : nat) | Idup (i : nat) | Iput (i : nat) | Mntdup (m : nat) | Mntput (m : nat) | BeginOp | EndOp.

Record kst := Kst {
  procs : list proc;         (* ptable.proc *)
  initproc : option nat;
  cgt : cgs;                 (* the control groups, and the size and group of each process *)
  nst : nss;                 (* the namespaces *)
  calls : list pcall
}.

Definition upd (p : nat) (f : proc -> proc) (k : kst) : kst := Kst (alter f p (procs k)) (initproc k) (cgt k) (nst k) (calls k).
Definition emit (es : list pcall) (k : kst) : kst := Kst (procs k) (initproc k) (cgt k) (nst k) (calls k ++ es).
Definition oncg {A} (m : M cgs A) : M kst A := fun k =>
  match m (cgt k) with inl e => inl e | inr (a, c) => inr (a, Kst (procs k) (initproc k) c (nst k) (calls k)) end.
Definition onns {A} (m : M nss A) : M kst A := fun k =>
  match m (nst k) with inl e => inl e | inr (a, n) => inr (a, Kst (procs k) (initproc k) (cgt k) n (calls k)) end.
Definition getp (p : nat) : M kst proc := k ← getS; deref (procs k !! p).

(** ** Pids *)
Definition get_pid_for_ns (p : proc) (ns : option nat) : Z :=
  match list_find (fun e => e_pid_ns e = ns) (pids p) with Some (_, e) => e_pid e | None => 0 end.

(** [p->nsproxy->pid_ns] *)
Definition pid_ns_of_proc (p : proc) : M kst (option nat) := px ← onns (get_proxy (p_nsproxy p)); mret (x_pid_ns px).

Definition proc_pid (cur : nat) (p : proc) : M kst Z :=
  q ← getp cur;
  ns ← pid_ns_of_proc q;
  mret (get_pid_for_ns p ns).

Definition get_pid1_for_ns (ps : list proc) (ns : option nat) : option nat :=
  fst <$> list_find (fun p => get_pid_for_ns p ns = 1) ps.

(** ** Allocation *)
Definition no_acct : pacct := Pacct 0 0 0 0.

Definition allocproc (kalloc_ok : bool) : M kst (option nat) :=
  k ← getS;
  match list_find (fun p => state p = UNUSED) (procs k) with
  | None => mret None
  | Some (p, _) =>
      modS (upd p (fun p => with_killed 0 (with_state EMBRYO p))) ;;
      if kalloc_ok then
        modS (upd p (fun q => with_mem true (pgdir q) q)) ;;
        oncg (modS (upd_proc p (fun x => Cproc (sz x) None))) ;;
        modS (upd p (with_acct no_acct)) ;;
        mret (Some p)
      else
        modS (upd p (fun q => with_state UNUSED (with_mem false (pgdir q) q))) ;;
        mret None
  end.

(** [userinit]; the root directory and its mount are those of [initprocessroot]. *)
Definition userinit (cd mt : nat) : M kst unit :=
  oncg (cgroup_initialize [] cgroup_root [] None) ;;
  r ← allocproc true;
  k ← getS;
  putS (Kst (procs k) r (cgt k) (nst k) (calls k)) ;;
  p ← deref r;
  modS (upd p (fun q => with_mem (kstack q) true q)) ;;
  oncg (modS (upd_proc p (fun x => Cproc PGSIZE (p_cgroup x)))) ;;
  modS (upd p (fun q => with_files (ofile q) (Some cd) (Some mt) q)) ;;
  x ← onns emptynsproxy;
  modS (upd p (fun q => with_ns (Some x) (child_pid_ns q) q)) ;;
  px ← onns (get_proxy (Some x));
  n ← deref (x_pid_ns px);
  pid ← onns (pid_ns_next_pid n);
  modS (upd p (fun q => with_pids pid (<[0%nat := PidEntry (Some n) pid]> (pids q)) q)) ;;
  oncg (cgroup_insert cgroup_root p) ;;
  modS (upd p (with_state RUNNABLE)).

(** ** Memory of the group *)
Definition update_protect_mem (i : nat) (oldsz newsz : Z) : M cgs unit :=
  if decide (i = cgroup_root) then mret tt else
  c ← get_cg i;
  if enabled Mem c then
    let proc_page := Z.quot (PGROUNDUP_int oldsz) PGSIZE -i Z.quot (PGROUNDUP_int newsz) PGSIZE in
    let page := current_page (mem_ c) -u proc_page in
    modS (upd_cg i (fun c => with_mem_ (with_current_page page (mem_ c)) c)) ;;
    let min := s32 (PGROUNDUP (min_mem (mem_ c)) / PGSIZE) in
    let protect := s32 (min - page) in
    if 0 <? protect then
      onkh (increse_protect_counter (s32 (protect - protected_mem (mem_ c)))) ;;
      modS (upd_cg i (with_protected (u32 protect)))
    else mret tt
  else mret tt.

(** [cgroup_erase(p->cgroup, p); update_protect_mem(p->cgroup, p->sz, 0);] *)
Definition leave_cgroup (p : nat) : M cgs unit :=
  x ← get_proc p;
  i ← deref (p_cgroup x);
  cgroup_erase i p ;;
  x ← get_proc p;
  i ← deref (p_cgroup x);
  update_protect_mem i (s32 (sz x)) 0.

(** ** fork *)

(** The loop that takes a pid in each namespace up to the root; [slots] entries of [pids] are left. *)
Fixpoint fork_pids (slots : nat) (cur : option nat) : M nss (list pid_entry) :=
  match cur, slots with
  | None, _ => mret []
  | Some _, O => panic "too many danif!"
  | Some n, S slots =>
      pid ← pid_ns_next_pid n;
      ns ← get_pid_ns (Some n);
      rest ← fork_pids slots (n_parent ns);
      mret (PidEntry (Some n) pid :: rest)
  end.

(** The files of the parent, of which the child holds its own references. *)
Definition dup_files (fs : list (option nat)) : list pcall := omap (fmap Filedup) fs.
Definition inherit (fs child : list (option nat)) : list (option nat) := zip_with (fun f g => match f with Some _ => f | None => g end) fs child.

(** The limits of the group that [fork] looks at first. *)
Definition group_refuses (c : cgroup) (size : Z) : bool :=
  (enabled Pid c && (max_num_of_procs c <? num_of_procs c +i 1)) || (enabled Mem c && (max_mem (mem_ c) <? current_mem (mem_ c) +u size)).

(** The second half of [fork], on the slot [np] that has a kernel stack and a page table. *)
Definition fork_child (cur : nat) (curproc : proc) (size : Z) (np : nat) : M kst Z :=
  oncg (modS (upd_proc np (fun y => Cproc size (p_cgroup y)))) ;;
  modS (upd np (with_p_parent (Some cur))) ;;
  cd ← deref (cwd curproc);
  mt ← deref (cwdmount curproc);
  modS (emit (dup_files (ofile curproc) ++ [Idup cd; Mntdup mt])) ;;
  modS (upd np (fun q => with_files (inherit (ofile curproc) (ofile q)) (Some cd) (Some mt) q)) ;;
  old ← deref (p_nsproxy curproc);
  px ← onns (match child_pid_ns curproc with
             | Some n => namespace_replace_pid_ns old n
             | None => namespacedup old
             end);
  modS (upd np (fun q => with_ns (Some px) (child_pid_ns q) q)) ;;
  first ← match child_pid_ns curproc with
          | Some n => mret (Some n)
          | None => q ← onns (get_proxy (Some px)); mret (x_pid_ns q)
          end;
  es ← onns (fork_pids MAX_PID_NS_DEPTH first);
  modS (upd np (fun q => let l := es ++ drop (length es) (pids q) in with_pids (match l with e :: _ => e_pid e | [] => 0 end) l q)) ;;
  q ← getp np;
  pid ← proc_pid cur q;
  x ← oncg (get_proc cur);
  i ← deref (p_cgroup x);
  r ← oncg (cgroup_insert i np);
  match r with
  | RESULT_SUCCESS | RESULT_SUCCESS_OPERATION =>
      modS (upd np (with_state RUNNABLE)) ;;
      mret pid
  | _ => panic "cant fail because checked earlier by allocproc"
  end.

Definition fork (kalloc_ok copyuvm_ok : bool) (cur : nat) : M kst Z :=
  curproc ← getp cur;
  dead ← match child_pid_ns curproc with
         | Some n => ns ← onns (get_pid_ns (Some n)); mret (negb (pid1_ns_killed ns =? 0))
         | None => mret false
         end;
  if (dead : bool) then mret (-1) else
  x ← oncg (get_proc cur);
  i ← deref (p_cgroup x);
  c ← oncg (get_cg i);
  if group_refuses c (sz x) then mret (-1) else
  r ← allocproc kalloc_ok;
  match r with
  | None => mret (-1)
  | Some np =>
      if copyuvm_ok : bool then
        modS (upd np (fun q => with_mem (kstack q) true q)) ;;
        fork_child cur curproc (sz x) np
      else
        modS (upd np (fun q => with_state UNUSED (with_mem false false q))) ;;
        mret (-1)
  end.

(** ** Sleeping and waking *)
Definition wakeup1 (c : option channel) (k : kst) : kst :=
  Kst ((fun p => if bool_decide (state p = SLEEPING) && bool_decide (chan p = c) then with_state RUNNABLE p else p) <$> procs k)
    (initproc k) (cgt k) (nst k) (calls k).

Definition wakeup (c : option channel) : M kst unit := modS (wakeup1 c).

(** [sleep] up to [sched], and what it does when the process runs again. *)
Definition sleep (c : option channel) (cur : nat) : M kst unit := modS (upd cur (fun p => with_state SLEEPING (with_chan c p))).
Definition sleep_return (cur : nat) : M kst unit := modS (upd cur (with_chan None)).

(** [sched] up to [swtch], called with [ptable.lock] held and interrupts off. *)
Definition sched (cur : nat) : M kst unit :=
  p ← getp cur;
  if decide (state p = RUNNING) then panic "sched running" else mret tt.

Definition yield (cur : nat) : M kst unit := modS (upd cur (with_state RUNNABLE)) ;; sched cur.

(** ** kill *)
Definition kill_proc (p : nat) (reaper : option nat) : M kst unit :=
  modS (upd p (fun q => with_p_parent reaper (let q := with_killed 1 q in if decide (state q = SLEEPING) then with_state RUNNABLE q else q))) ;;
  oncg (leave_cgroup p).

Definition kill (cur : nat) (pid : Z) : M kst Z :=
  q ← getp cur;
  ns ← pid_ns_of_proc q;
  k ← getS;
  match list_find (fun p => get_pid_for_ns p ns = pid) (procs k) with
  | Some (p, q) => kill_proc p (p_parent q) ;; mret 0
  | None => mret (-1)
  end.

Section exiting.
(** A slot of the table that was never used has a null [nsproxy]; [kill_all_pid_ns] reads the pointer at offset 8
    of address 0 then, which is memory of the exiting process. *)
Context (null_pid_ns : option nat).

Fixpoint kill_all_pid_ns (ps : list nat) (parent : nat) (reaper curpidns : option nat) : M kst unit :=
  match ps with
  | [] => mret tt
  | p :: ps =>
      q ← getp p;
      ns ← match p_nsproxy q with None => mret null_pid_ns | Some _ => pid_ns_of_proc q end;
      (if bool_decide (p <> parent) && bool_decide (ns = curpidns) then kill_proc p reaper else mret tt) ;;
      kill_all_pid_ns ps parent reaper curpidns
  end.

(** [for (...) if (p->parent == curproc) { p->parent = procpid1; if (p->state == ZOMBIE) wakeup1(initproc); }] *)
Fixpoint pass_children (ps : list nat) (cur : nat) (procpid1 : option nat) : M kst unit :=
  match ps with
  | [] => mret tt
  | p :: ps =>
      q ← getp p;
      (if decide (p_parent q = Some cur) then
         modS (upd p (with_p_parent procpid1)) ;;
         k ← getS;
         if decide (state q = ZOMBIE) then modS (wakeup1 (ChanProc <$> initproc k)) else mret tt
       else mret tt) ;;
      pass_children ps cur procpid1
  end.

Definition close_files (fs : list (option nat)) : list pcall := omap (fmap Fileclose) fs.

(** [exit], up to the call of [sched]. *)
Definition exit (st : Z) (cur : nat) : M kst unit :=
  modS (upd cur (with_status st)) ;;
  k ← getS;
  if decide (initproc k = Some cur) then panic "init exiting" else
  curproc ← getp cur;
  cd ← deref (cwd curproc);
  mt ← deref (cwdmount curproc);
  modS (emit (close_files (ofile curproc) ++ [BeginOp; Iput cd; EndOp; Mntput mt])) ;;
  modS (upd cur (with_files ((fun _ => None) <$> ofile curproc) None None)) ;;
  curpidns ← pid_ns_of_proc curproc;
  k ← getS;
  let procpid1 := get_pid1_for_ns (procs k) curpidns in
  lost ← match procpid1 with
         | Some _ => mret false
         | None => ns ← onns (get_pid_ns curpidns); mret (pid1_ns_killed ns =? 0)
         end;
  if (lost : bool) then panic "couldn't find pid 1" else
  x ← deref (p_nsproxy curproc);
  onns (namespaceput x) ;;
  modS (wakeup1 (ChanProc <$> p_parent curproc)) ;;
  (if ns_pid curproc =? 1 then
     n ← deref curpidns;
     onns (modS (upd_pid_ns n (fun ns => PidNs (n_ref ns) (n_parent ns) (next_pid ns) 1))) ;;
     kill_all_pid_ns (seq 0 NPROC) cur (p_parent curproc) curpidns
   else pass_children (seq 0 NPROC) cur procpid1) ;;
  (match child_pid_ns curproc with Some n => onns (pid_ns_put n) | None => mret tt end) ;;
  oncg (leave_cgroup cur) ;;
  modS (upd cur (with_state ZOMBIE)) ;;
  sched cur.

End exiting.

(** ** wait *)
Definition W_STOPCODE (sig : Z) : Z := s32 (Z.lor (Z.shiftl sig 8) 127).

Inductive wait_result := Reaped (pid : Z) (wstatus : Z) | NoChild | Sleeps.

Definition no_pids : list pid_entry := replicate MAX_PID_NS_DEPTH (PidEntry None 0).

(** What [wait] leaves in the slot of a zombie. *)
Definition reap (q : proc) : proc :=
  with_status 0 (with_state UNUSED (with_killed 0 (with_p_parent None (with_ns (p_nsproxy q) None (with_pids 0 no_pids (with_mem false (pgdir q) q)))))).

(** One round of the loop of [wait]: a child was reaped, there is none to wait for, or the process goes to sleep. *)
Definition wait (cur : nat) : M kst wait_result :=
  curproc ← getp cur;
  k ← getS;
  match list_find (fun p => p_parent p = Some cur /\ state p = ZOMBIE) (procs k) with
  | Some (p, q) =>
      ns ← pid_ns_of_proc curproc;
      modS (upd p reap) ;;
      mret (Reaped (get_pid_for_ns q ns) (W_STOPCODE (status q)))
  | None =>
      if bool_decide (Forall (fun p => p_parent p <> Some cur) (procs k)) || negb (killed curproc =? 0) then mret NoChild
      else sleep (Some (ChanProc cur)) cur ;; sched cur ;; mret Sleeps
  end.

(** ** Control groups and namespaces of processes *)
Fixpoint move_proc (ps : list nat) (cur i : nat) (pid : Z) : M kst Z :=
  match ps with
  | [] => mret (-1)
  | p :: ps =>
      q ← getp p;
      pid' ← proc_pid cur q;
      if (pid' =? pid) && bool_decide (state q = SLEEPING \/ state q = RUNNABLE \/ state q = RUNNING) then
        r ← oncg (unsafe_cgroup_insert i p);
        if decide (r = RESULT_SUCCESS) then mret 0 else move_proc ps cur i pid
      else move_proc ps cur i pid
  end.
Definition cgroup_move_proc (cur i : nat) (pid : Z) : M kst Z := move_proc (seq 0 NPROC) cur i pid.

Definition proc_get_cgroup (cur : option nat) : M kst (option nat) :=
  match cur with
  | Some p => x ← oncg (get_proc p); mret (p_cgroup x)
  | None => mret None
  end.

Definition sys_unshare (nstype : ns_type) (cur : nat) : M kst Z :=
  q ← getp cur;
  x ← deref (p_nsproxy q);
  r ← onns (unshare nstype x (child_pid_ns q));
  let '(r, x, child) := r in
  modS (upd cur (with_ns (Some x) child)) ;;
  mret r.

(** ** The scheduler

    [swtch p] stands for the run of process [p] until it gives the processor back, [clock] for the time the steady clock shows. *)
Section scheduling.
Context (apicid : Z) (clock : kst -> Z) (swtch : nat -> M kst unit).

(** The body of the loop over the process table: whether the process ran. *)
Definition sched_one (p : nat) (cpu : cpu_account) : M kst (bool * cpu_account) :=
  q ← getp p;
  modS (upd p (fun q => with_acct (cpu_account_schedule_proc_update cpu (acct q)) q)) ;;
  if decide (state q <> RUNNABLE) then mret (false, cpu) else
  skip ← (if killed q =? 0 then
            x ← oncg (get_proc p);
            i ← deref (p_cgroup x);
            c ← oncg (get_cg i);
            mret ((enabled CpuSet c && negb (cpu_to_use c =? apicid)) || (is_frozen c =? 1))
          else mret false);
  if (skip : bool) then mret (false, cpu) else
  d ← oncg (cpu_account_schedule_process_decision cpu p);
  if negb (fst d) then mret (false, snd d) else
  modS (upd p (with_state RUNNING)) ;;
  k ← getS;
  let cpu := cpu_account_before_process_schedule (clock k) (snd d) in
  swtch p ;;
  k ← getS;
  q ← getp p;
  r ← oncg (cpu_account_after_process_schedule (clock k) cpu (acct q));
  modS (upd p (with_acct (snd r))) ;;
  mret (true, fst r).

Fixpoint sched_loop (ps : list nat) (cpu : cpu_account) (scheduled : Z) : M kst (Z * cpu_account) :=
  match ps with
  | [] => mret (scheduled, cpu)
  | p :: ps =>
      r ← sched_one p cpu;
      sched_loop ps (snd r) (if (fst r : bool) then scheduled +u 1 else scheduled)
  end.

(** One turn of the endless loop of [scheduler]: how many processes ran (when none did, the processor halts until an interrupt). *)
Definition scheduler_turn (cpu : cpu_account) : M kst (Z * cpu_account) :=
  k ← getS;
  sched_loop (seq 0 NPROC) (cpu_account_schedule_start (clock k) cpu) 0.

End scheduling.
