(* ===== verification/ProcInv.v ===== *)
(** * Invariants of the process table

    [kst_ok] says that the references of the processes to proxies and to pid namespaces
    are counted exactly, that live processes of one pid namespace have different pids,
    and that exactly the live processes may be listed in a control group.  Every
    operation of [Proc] keeps it. *)
From S2P Require Import Prelude Kalloc Cgroup CgroupTree CpuAccount Namespace Proc.
Local Open Scope Z_scope.

(** ** Control groups: what an operation on process [p] leaves to the others *)
Definition others (p : nat) (s s' : cgs) : Prop :=
  length (ptab s') = length (ptab s) /\ forall q, q <> p -> ptab s' !! q = ptab s !! q /\ (absent q s -> absent q s').
Definition othersR {A} (p : nat) (m : M cgs A) : Prop := forall s a s', m s = inr (a, s') -> others p s s'.

Lemma others_refl p s : others p s s.
Proof. done. Qed.

Lemma others_trans p s1 s2 s3 : others p s1 s2 -> others p s2 s3 -> others p s1 s3.
Proof.
  intros [L1 H1] [L2 H2]. split; [congruence|]. intros q Hq. destruct (H1 q Hq) as [E1 A1], (H2 q Hq) as [E2 A2].
  split; [congruence|auto].
Qed.

Lemma othersR_bind {A B} p (m : M cgs A) (k : A -> M cgs B) : othersR p m -> (forall a, othersR p (k a)) -> othersR p (m ≫= k).
Proof. intros Hm Hk s b s2 (a & s1 & E1 & E2)%bind_inr. exact (others_trans p s s1 s2 (Hm s a s1 E1) (Hk a s1 b s2 E2)). Qed.

Lemma othersR_ret {A} p (a : A) : othersR p (mret a).
Proof. intros s b s' [= _ <-]. apply others_refl. Qed.

Lemma othersR_get p i : othersR p (get_cg i).
Proof. intros s a s' H. unfold get_cg in H. apply bind_inr in H as (? & ? & [= <- <-] & (_ & ->)%deref_inr). apply others_refl. Qed.

Lemma othersR_getp p q : othersR p (get_proc q).
Proof. intros s a s' H. unfold get_proc in H. apply bind_inr in H as (? & ? & [= <- <-] & (_ & ->)%deref_inr). apply others_refl. Qed.

Lemma othersR_upd_proc p f : othersR p (modS (upd_proc p f)).
Proof.
  intros s a s' [= _ <-]. split; [simpl; apply length_alter|]. intros q Hq. split; [|done]. simpl. by rewrite list_lookup_alter_ne.
Qed.

(** A change of a group that lists no process but [p] anew. *)
Lemma othersR_upd p i f : (forall c k q, q <> p -> Cgroup.proc (f c) !! k = Some (Some q) -> Cgroup.proc c !! k = Some (Some q)) ->
  othersR p (modS (upd_cg i f)).
Proof.
  intros Hf s a s' [= _ <-]. split; [done|]. intros q Hq. split; [done|]. intros Hab j c' k Hj Hk. simpl in Hj.
  apply lookup_alter_inv in Hj as (c & Hc & ->). case_decide; [|by apply (Hab j c k)]. apply (Hab j c k Hc). by apply Hf.
Qed.

Lemma othersR_inert {A} p (m : M cgs A) : inertR m -> othersR p m.
Proof.
  intros Hm s a s' E. destruct (Hm s a s' E) as (_ & _ & Hp & H). split; [by rewrite Hp|]. intros q Hq. rewrite Hp. split; [done|].
  intros Hab j c' k Hj Hk. destruct (H j c' Hj) as (c & Hc & (_ & Ep & _)%core_fields). apply (Hab j c k Hc). congruence.
Qed.

Lemma othersR_up p f : (forall c, Cgroup.proc (f c) = Cgroup.proc c) -> forall fuel i, othersR p (up fuel f i).
Proof.
  intros Hf fuel. induction fuel as [|fuel IH]; intros [i|]; cbn [up]; [intros s a s' H; discriminate H|apply othersR_ret| |apply othersR_ret].
  apply othersR_bind; [apply othersR_get|]. intros c. apply othersR_bind; [apply othersR_upd; intros c' k q _; by rewrite Hf|]. intros _. apply IH.
Qed.

Create HintDb others.
#[export] Hint Resolve othersR_ret othersR_get othersR_getp othersR_upd_proc othersR_up : others.

Lemma erase_others i p : othersR p (unsafe_cgroup_erase i p).
Proof.
  unfold unsafe_cgroup_erase. apply othersR_bind; [apply othersR_get|]. intros c. destruct (list_find _ _) as [[k y]|]; [|apply othersR_ret].
  apply othersR_bind; [apply othersR_getp|]. intros x. apply othersR_bind; [apply othersR_upd_proc|]. intros _.
  apply othersR_bind; [|intros _; apply othersR_up; intros d; apply leave_frame].
  apply othersR_upd. intros d j q Hq. simpl. rewrite list_lookup_insert_Some. by intros [(_ & ? & _)|[_ H]].
Qed.

Lemma protect_memory_inertR src dst n : inertR (protect_memory src dst n).
Proof. unfold protect_memory. inertr. Qed.

Lemma insert_others i p : othersR p (unsafe_cgroup_insert i p).
Proof.
  unfold unsafe_cgroup_insert. apply othersR_bind; [apply othersR_get|]. intros c. apply othersR_bind; [apply othersR_getp|]. intros x.
  destruct (enabled Pid c && _); [apply othersR_ret|]. destruct (enabled Mem c && _); [apply othersR_ret|].
  destruct (find_slot _ _ _ _) as [[] [k|]]; try apply othersR_ret. apply othersR_bind.
  - destruct (p_cgroup x) as [old|]; [|apply othersR_ret]. apply othersR_bind; [apply othersR_inert, protect_memory_inertR|].
    intros r. case_decide; [|apply othersR_ret]. apply othersR_bind; [apply erase_others|intros _; apply othersR_ret].
  - intros r. case_decide; [|apply othersR_ret]. apply othersR_bind; [|intros _].
    + apply othersR_upd. intros d j q Hq. simpl. rewrite list_lookup_insert_Some. intros [(_ & ? & _)|[_ Hk]]; [congruence|done].
    + apply othersR_bind; [apply othersR_upd_proc|intros _]. apply othersR_bind; [|intros _; apply othersR_ret].
      apply othersR_up. intros d. apply enter_frame.
Qed.

(** ** A process that is in no group finds room in every group *)
Lemma find_slot_full ps p : forall i, find_slot ps i None p = (false, None) -> Forall (fun x => x <> None) ps /\ forall k, ps !! k <> Some (Some p).
Proof.
  induction ps as [|x ps IH]; intros i; cbn [find_slot]; [done|]. destruct x as [q|]; simpl.
  - case_decide as E; [done|]. intros [Hf Hk]%IH. split; [by constructor|]. intros [|k] H; [simpl in H; congruence|by apply (Hk k)].
  - intros H. exfalso. clear IH. revert H. generalize i at 2. generalize (S i). induction ps as [|y ps IH]; intros a b; cbn [find_slot]; [done|].
    simpl. case_decide; [done|]. apply IH.
Qed.

Lemma group_has_room s i c p x : cg_ok s -> length (ptab s) = NPROC -> cgroups s !! i = Some c -> ptab s !! p = Some x ->
  Forall (fun y => y <> None) (Cgroup.proc c) -> (forall k, Cgroup.proc c !! k <> Some (Some p)) -> False.
Proof.
  intros Hok Hl Hc Hx Hf Hp. pose proof (to_plen _ (ok_tree _ Hok) i c Hc) as Hn.
  set (l := omap id (Cgroup.proc c)).
  assert (length l = NPROC /\ forall k q, l !! k = Some q -> Cgroup.proc c !! k = Some (Some q)) as [Hll Hlk].
  { rewrite <- Hn. subst l. clear -Hf. induction Hf as [|[y|] ps Hy _ [IH1 IH2]]; [done| |done]. simpl. split; [by f_equal|].
    intros [|k] q; simpl; [by intros [= ->]|apply IH2]. }
  assert (NoDup (p :: l)) as Hnd.
  { constructor.
    - intros (k & Hk)%list_elem_of_lookup. by apply (Hp k), Hlk.
    - apply NoDup_alt. intros k k' q Hk Hk'. exact (ok_unique _ Hok i c k k' q Hc (Hlk k q Hk) (Hlk k' q Hk')). }
  assert (length (p :: l) <= length (seq 0 NPROC))%nat as Hle; [|rewrite length_seq in Hle; simpl in Hle; lia].
  apply submseteq_length, NoDup_submseteq; [done|]. intros q Hq. apply elem_of_seq. split; [lia|]. simpl. rewrite <- Hl.
  apply elem_of_cons in Hq as [->|(k & Hk)%list_elem_of_lookup]; [by eapply lookup_lt_Some|].
  destruct (ok_member _ Hok i c k q Hc (Hlk k q Hk)) as (y & Hy & _). by eapply lookup_lt_Some.
Qed.

Lemma fresh_insert_success s i p c x r s' : cg_ok s -> length (ptab s) = NPROC -> cgroups s !! i = Some c -> ptab s !! p = Some x ->
  p_cgroup x = None -> admits c x = true -> unsafe_cgroup_insert i p s = inr (r, s') -> r = RESULT_SUCCESS.
Proof.
  intros Hok Hl Hc Hx Hn Ha. unfold unsafe_cgroup_insert.
  rewrite (bind_run _ _ _ _ _ (get_cg_run s i c Hc)), (bind_run _ _ _ _ _ (get_proc_run s p x Hx)).
  unfold admits in Ha. apply andb_true_iff in Ha as [H1%negb_true_iff H2%negb_true_iff]. rewrite H1, H2, Hn.
  destruct (find_slot _ _ _ _) as [[] [k|]] eqn:Ef; [by intros [= <- _]|by intros [= <- _]| |].
  - rewrite (bind_run _ _ _ RESULT_SUCCESS s) by done. rewrite decide_True by done.
    intros (? & ? & _ & H)%bind_inr. apply bind_inr in H as (? & ? & _ & H). apply bind_inr in H as (? & ? & _ & [= <- _]). done.
  - destruct (find_slot_full _ _ _ Ef) as [Hf Hk]. by destruct (group_has_room s i c p x Hok Hl Hc Hx Hf Hk).
Qed.

Lemma insert_fresh s i p c x : cg_ok s -> cg_locked s = false -> length (ptab s) = NPROC -> is_live (cgroups s) i = true ->
  cgroups s !! i = Some c -> ptab s !! p = Some x -> p_cgroup x = None -> admits c x = true ->
  exists s', cgroup_insert i p s = inr (RESULT_SUCCESS, s') /\ cg_ok s' /\ cg_locked s' = false /\ others p s s' /\
    exists x', ptab s' !! p = Some x' /\ p_cgroup x' = Some i.
Proof.
  intros Hok Hlk Hl Hli Hc Hx Hn Ha.
  destruct (insert_run (set_locked true s) i p c x (cg_ok_locked true s Hok) Hli Hc Hx) as (r & s1 & E & _ & Hok1 & Hlk1 & _ & _ & Hs).
  assert (r = RESULT_SUCCESS) as -> by (by apply (fresh_insert_success (set_locked true s) i p c x r s1 (cg_ok_locked true s Hok))).
  exists (set_locked false s1). split; [unfold cgroup_insert, locked_call; step (lock_run s Hlk); step E; by step (unlock_run s1 Hlk1)|].
  split; [by apply cg_ok_locked|]. split; [done|]. split; [exact (insert_others i p _ _ _ E)|].
  destruct (Hs eq_refl) as (x' & c' & k & Hx' & Hi & _). by exists x'.
Qed.

(** Leaving the group: the second call finds the process in the root group and does nothing. *)
Lemma leave_cgroup_run s p x i : cg_ok s -> cg_locked s = false -> ptab s !! p = Some x -> p_cgroup x = Some i ->
  exists s', leave_cgroup p s = inr (tt, s') /\ cg_ok s' /\ cg_locked s' = false /\ others p s s' /\ absent p s' /\
    exists x', ptab s' !! p = Some x' /\ p_cgroup x' = Some 0%nat.
Proof.
  intros Hok Hlk Hx Hi. unfold leave_cgroup. rewrite (bind_run _ _ _ _ _ (get_proc_run s p x Hx)), Hi.
  destruct (erase_run (set_locked true s) i p x (cg_ok_locked true s Hok) Hx Hi) as (s1 & E & Hok1 & Her).
  pose proof Her as (Hf & Hlk1 & _ & Hpr & (x' & Hx' & _ & Hi') & _).
  exists (set_locked false s1). split; [|split; [by apply cg_ok_locked|split; [done|split; [exact (erase_others i p _ _ _ E)|split]]]].
  - rewrite (bind_run _ _ _ i s) by done.
    rewrite (bind_run _ _ _ tt (set_locked false s1)) by (unfold cgroup_erase, locked_call; step (lock_run s Hlk); step E; by step (unlock_run s1 Hlk1)).
    rewrite (bind_run _ _ _ _ _ (get_proc_run (set_locked false s1) p x' Hx')), Hi'. done.
  - intros j c k Hc Hk. destruct (proj2 Hf j c Hc) as (c0 & Hc0 & _). rewrite (Hpr j c0 c Hc0 Hc), list_lookup_fmap in Hk.
    destruct (Cgroup.proc c0 !! k) as [y|]; simpl in Hk; [|done]. unfold drop_proc in Hk. case_decide; congruence.
  - by exists x'.
Qed.

(** ** The invariant *)
Definition alive (q : proc) : bool := negb (bool_decide (state q = UNUSED)) && negb (bool_decide (state q = ZOMBIE)).
Definition holds (x : nat) (q : proc) : bool := alive q && bool_decide (p_nsproxy q = Some x).
Definition feeds (n : nat) (q : proc) : bool := alive q && bool_decide (child_pid_ns q = Some n).
Definition holders (ps : list proc) (x : nat) : Z := Z.of_nat (count (holds x) ps).
Definition feeders (ps : list proc) (n : nat) : Z := Z.of_nat (count (feeds n) ps).

(** A live process: its own namespace, of which it has a pid that was given out, and the one for its children. *)
Definition live_ok (ns : nss) (q : proc) : Prop :=
  exists x n v, p_nsproxy q = Some x /\ (x < NNAMESPACE)%nat /\ pid_ns_of ns x = Some n /\ pidnstable ns !! n = Some v /\
    1 <= ns_pid q < next_pid v /\ head (pids q) = Some (PidEntry (Some n) (ns_pid q)) /\
    (forall m, child_pid_ns q = Some m -> (m < NNAMESPACE)%nat /\ exists w, pidnstable ns !! m = Some w /\ 1 <= next_pid w) /\
    is_Some (cwd q) /\ is_Some (cwdmount q).

Definition own_ns (ns : nss) (q : proc) : option nat := p_nsproxy q ≫= pid_ns_of ns.

(** The slots and the control groups. *)
Record groups_ok (ps : list proc) (c : cgs) : Prop := {
  go_cg : cg_ok c;
  go_unlocked : cg_locked c = false;
  go_len : length (ptab c) = NPROC;
  go_absent : forall p q, ps !! p = Some q -> alive q = false -> absent p c;
  go_group : forall p q, ps !! p = Some q -> state q <> UNUSED -> exists x i, ptab c !! p = Some x /\ p_cgroup x = Some i
}.

Record kst_ok (k : kst) : Prop := {
  ko_len : length (procs k) = NPROC;
  ko_ns : ns_ok (holders (procs k)) (feeders (procs k)) (nst k);
  ko_live : forall p q, procs k !! p = Some q -> alive q = true -> live_ok (nst k) q;
  ko_unique : forall p p' q q', procs k !! p = Some q -> procs k !! p' = Some q' -> alive q = true -> alive q' = true ->
    p <> p' -> own_ns (nst k) q = own_ns (nst k) q' -> ns_pid q <> ns_pid q';
  ko_unused : forall p q, procs k !! p = Some q -> state q = UNUSED -> pids q = no_pids /\ child_pid_ns q = None;
  ko_proxy : forall p q x, procs k !! p = Some q -> p_nsproxy q = Some x -> (x < NNAMESPACE)%nat;
  ko_groups : groups_ok (procs k) (cgt k)
}.

Lemma holders_small ps : (length ps <= 64)%nat -> small (holders ps) /\ small (feeders ps).
Proof. intros H. split; intros x; unfold holders, feeders; pose proof (count_le_length (holds x) ps); pose proof (count_le_length (feeds x) ps); lia. Qed.

(** ** Changes of a slot the invariant does not see *)
Record quiet (q q' : proc) : Prop := {
  qt_alive : alive q' = alive q;
  qt_proxy : p_nsproxy q' = p_nsproxy q;
  qt_fields : alive q = true -> child_pid_ns q' = child_pid_ns q /\ ns_pid q' = ns_pid q /\ pids q' = pids q /\
    cwd q' = cwd q /\ cwdmount q' = cwdmount q;
  qt_unused : state q' = UNUSED -> state q = UNUSED /\ pids q' = pids q /\ child_pid_ns q' = child_pid_ns q \/ pids q' = no_pids /\ child_pid_ns q' = None;
  qt_used : state q = UNUSED -> state q' = UNUSED
}.

Lemma quiet_refl q : quiet q q.
Proof. split; try done. by left. Qed.

Lemma quiet_trans q1 q2 q3 : quiet q1 q2 -> quiet q2 q3 -> quiet q1 q3.
Proof.
  intros [A1 P1 F1 U1 V1] [A2 P2 F2 U2 V2]. split; [congruence|congruence| | |auto].
  - intros H. destruct (F1 H) as (? & ? & ? & ? & ?), (F2 ltac:(congruence)) as (? & ? & ? & ? & ?). split_and!; congruence.
  - intros H. destruct (U2 H) as [(E & Ep & Ec)|?]; [|by right]. destruct (U1 E) as [(? & ? & ?)|[? ?]]; [left|right]; split_and!; congruence.
Qed.

Lemma quiet_alter f p ps : (forall q, ps !! p = Some q -> quiet q (f q)) -> Forall2 quiet ps (alter f p ps).
Proof.
  intros H. apply Forall2_same_length_lookup_2; [by rewrite length_alter|]. intros i q q' Hq Hq'.
  apply lookup_alter_inv in Hq' as (z & Hz & ->). assert (z = q) as -> by congruence. case_decide; [subst; by apply H|apply quiet_refl].
Qed.

Lemma quiet_fmap (f : proc -> proc) ps : (forall q, quiet q (f q)) -> Forall2 quiet ps (f <$> ps).
Proof. intros H. induction ps; constructor; auto. Qed.

Lemma quiet_forall_trans ps1 ps2 ps3 : Forall2 quiet ps1 ps2 -> Forall2 quiet ps2 ps3 -> Forall2 quiet ps1 ps3.
Proof.
  intros H1. revert ps3. induction H1 as [|q q' ps ps' Hq _ IH]; intros ps3 H2; inversion H2; subst; [done|].
  constructor; [by eapply quiet_trans|by apply IH].
Qed.

Lemma quiet_count (P : proc -> bool) ps ps' : Forall2 quiet ps ps' -> (forall q q', quiet q q' -> P q' = P q) -> count P ps' = count P ps.
Proof. intros H HP. induction H as [|q q' ps ps' Hq _ IH]; [done|]. by rewrite !count_cons, IH, (HP q q' Hq). Qed.

Lemma quiet_holds x q q' : quiet q q' -> holds x q' = holds x q.
Proof. intros [A P _ _ _]. unfold holds. by rewrite A, P. Qed.

Lemma quiet_feeds n q q' : quiet q q' -> feeds n q' = feeds n q.
Proof. intros [A _ F _ _]. unfold feeds. rewrite A. destruct (alive q); [|done]. by destruct (F eq_refl) as (-> & _). Qed.

Lemma groups_quiet ps ps' c : groups_ok ps c -> Forall2 quiet ps ps' -> groups_ok ps' c.
Proof.
  intros [G1 G2 G3 G4 G5] H. split; try done.
  - intros p q' Hq' Ha. destruct (Forall2_lookup_r _ _ _ _ _ H Hq') as (q & Hq & Hqt). apply (G4 p q Hq). by rewrite <- (qt_alive _ _ Hqt).
  - intros p q' Hq' Hs. destruct (Forall2_lookup_r _ _ _ _ _ H Hq') as (q & Hq & Hqt). apply (G5 p q Hq). intros E. by apply Hs, (qt_used _ _ Hqt).
Qed.

Lemma quiet_live ns q q' : quiet q q' -> alive q' = true -> live_ok ns q -> live_ok ns q'.
Proof.
  intros [A P F _ _] Ha. rewrite A in Ha. destruct (F Ha) as (E2 & E3 & E4 & E5 & E6). unfold live_ok. by rewrite P, E2, E3, E4, E5, E6.
Qed.

Lemma kst_quiet k k' : kst_ok k -> Forall2 quiet (procs k) (procs k') -> nst k' = nst k -> groups_ok (procs k') (cgt k') -> kst_ok k'.
Proof.
  intros [L N V U E P G] H En Hg. split; try done.
  - by rewrite <- (Forall2_length _ _ _ H).
  - rewrite En. eapply ns_ok_ext; [| |exact N].
    + intros x. unfold holders. by rewrite (quiet_count _ _ _ H (quiet_holds x)).
    + intros n. unfold feeders. by rewrite (quiet_count _ _ _ H (quiet_feeds n)).
  - intros p q' Hq' Ha. destruct (Forall2_lookup_r _ _ _ _ _ H Hq') as (q & Hq & Hqt). rewrite En.
    apply (quiet_live _ q); [done|done|]. apply (V p q Hq). by rewrite <- (qt_alive _ _ Hqt).
  - intros p1 p2 q1' q2' H1 H2 A1 A2 Hne. destruct (Forall2_lookup_r _ _ _ _ _ H H1) as (q1 & Hq1 & [B1 P1 F1 _ _]).
    destruct (Forall2_lookup_r _ _ _ _ _ H H2) as (q2 & Hq2 & [B2 P2 F2 _ _]). rewrite B1 in A1. rewrite B2 in A2.
    destruct (F1 A1) as (_ & -> & _), (F2 A2) as (_ & -> & _). unfold own_ns. rewrite En, P1, P2. by apply (U p1 p2).
  - intros p q' Hq' Hs. destruct (Forall2_lookup_r _ _ _ _ _ H Hq') as (q & Hq & [_ _ _ W _]).
    destruct (W Hs) as [(Hs' & -> & ->)|?]; [by apply (E p)|done].
  - intros p q' x Hq'. destruct (Forall2_lookup_r _ _ _ _ _ H Hq') as (q & Hq & [_ -> _ _ _]). by apply (P p).
Qed.

(** The common case: only the slots change. *)
Lemma kst_quiet_procs k ps ev i : kst_ok k -> Forall2 quiet (procs k) ps -> kst_ok (Kst ps i (cgt k) (nst k) ev).
Proof. intros Hok H. apply (kst_quiet k); [done|done|done|]. apply (groups_quiet (procs k)); [apply Hok|done]. Qed.

(** One process changes its group; the other slots change quietly. *)
Lemma groups_one ps ps' p c c' : groups_ok ps c ->
  (forall j q', j <> p -> ps' !! j = Some q' -> exists q, ps !! j = Some q /\ alive q' = alive q /\ (state q' <> UNUSED -> state q <> UNUSED)) ->
  cg_ok c' -> cg_locked c' = false -> others p c c' ->
  (forall q', ps' !! p = Some q' -> (alive q' = false -> absent p c') /\ (state q' <> UNUSED -> exists x i, ptab c' !! p = Some x /\ p_cgroup x = Some i)) ->
  groups_ok ps' c'.
Proof.
  intros [_ _ G3 G4 G5] Hps Hok Hlk [Hlen Hoth] Hp. split; try done; [congruence| |]; intros j q' Hq' Hs;
    destruct (decide (j = p)) as [->|Hne]; try (by apply (Hp q' Hq')); destruct (Hps j q' Hne Hq') as (q & Hq & Ha & Hu), (Hoth j Hne) as [Et Hab].
  - apply Hab, (G4 j q Hq). by rewrite <- Ha.
  - rewrite Et. by apply (G5 j q Hq), Hu.
Qed.

Lemma okp_onns {A} E (m : M nss A) k Q : okp E m (nst k) (fun a n => Q a (Kst (procs k) (initproc k) (cgt k) n (calls k))) -> okp E (onns m) k Q.
Proof. unfold okp, onns. by destruct (m (nst k)) as [|[]]. Qed.

Lemma okp_oncg {A} E (m : M cgs A) k Q : okp E m (cgt k) (fun a c => Q a (Kst (procs k) (initproc k) c (nst k) (calls k))) -> okp E (oncg m) k Q.
Proof. unfold okp, oncg. by destruct (m (cgt k)) as [|[]]. Qed.

Lemma okp_getp E p q k (Q : proc -> kst -> Prop) : procs k !! p = Some q -> Q q k -> okp E (getp p) k Q.
Proof. intros H HQ. unfold okp, getp. mrun. by rewrite H. Qed.

(** ** Sleeping, waking, killing *)
Lemma wakeup1_quiet c k : Forall2 quiet (procs k) (procs (wakeup1 c k)).
Proof.
  apply quiet_fmap. intros q. case_match eqn:E; [|apply quiet_refl]. apply andb_true_iff in E as [E%bool_decide_eq_true _].
  split; try done; simpl; [unfold alive; by rewrite E|congruence].
Qed.

Lemma wakeup1_ok c k : kst_ok k -> kst_ok (wakeup1 c k).
Proof. intros Hok. apply (kst_quiet_procs k); [done|apply wakeup1_quiet]. Qed.

Lemma upd_quiet_ok p f k : kst_ok k -> (forall q, procs k !! p = Some q -> quiet q (f q)) -> kst_ok (upd p f k).
Proof. intros Hok H. apply (kst_quiet_procs k); [done|by apply quiet_alter]. Qed.

Lemma alive_state q s : alive q = true -> s <> UNUSED -> s <> ZOMBIE -> quiet q (with_state s q).
Proof.
  intros Ha H1 H2. assert (alive (with_state s q) = true) as E by (unfold alive; simpl; by rewrite !bool_decide_eq_false_2).
  split; [congruence|done|done|by intros ?|]. intros Hs. unfold alive in Ha. rewrite Hs in Ha. done.
Qed.

Lemma quiet_chan q c : quiet q (with_chan c q).
Proof. split; try done. by left. Qed.

Definition slot_killed (r : option nat) (q : proc) : proc :=
  with_p_parent r (let q := with_killed 1 q in if decide (state q = SLEEPING) then with_state RUNNABLE q else q).

Lemma slot_killed_quiet r q : quiet q (slot_killed r q).
Proof.
  unfold slot_killed. cbn [with_killed state]. case_decide as E.
  - split; try done; simpl; [unfold alive; by rewrite E|congruence].
  - split; try done. by left.
Qed.

(** Steps that only make quiet changes to the slots and keep the groups in order. *)
Definition quiet_step (k k' : kst) : Prop :=
  Forall2 quiet (procs k) (procs k') /\ nst k' = nst k /\ initproc k' = initproc k /\ groups_ok (procs k') (cgt k').

Lemma quiet_step_refl k : groups_ok (procs k) (cgt k) -> quiet_step k k.
Proof. intros Hg. split; [|done]. clear Hg. induction (procs k) as [|q ps IH]; [constructor|]. constructor; [apply quiet_refl|done]. Qed.

Lemma quiet_step_trans k1 k2 k3 : quiet_step k1 k2 -> quiet_step k2 k3 -> quiet_step k1 k3.
Proof.
  intros (Q1 & N1 & I1 & _) (Q2 & N2 & I2 & G2). split; [by eapply quiet_forall_trans|]. split; [congruence|]. split; [congruence|done].
Qed.

Lemma quiet_step_ok k k' : kst_ok k -> quiet_step k k' -> kst_ok k'.
Proof. intros Hok (Q & N & _ & G). by apply (kst_quiet k). Qed.

Lemma quiet_step_upd p f k : groups_ok (procs k) (cgt k) -> (forall q, procs k !! p = Some q -> quiet q (f q)) -> quiet_step k (upd p f k).
Proof.
  intros Hg Hf. assert (Forall2 quiet (procs k) (alter f p (procs k))) as Hq by (by apply quiet_alter).
  split; [done|]. split; [done|]. split; [done|]. by apply (groups_quiet (procs k)).
Qed.

Lemma quiet_step_wakeup c k : groups_ok (procs k) (cgt k) -> quiet_step k (wakeup1 c k).
Proof. intros Hg. split; [apply wakeup1_quiet|]. split; [done|]. split; [done|]. apply (groups_quiet (procs k)); [done|apply wakeup1_quiet]. Qed.

(** A process with a group is killed. *)
Lemma kill_proc_run p r k x i : groups_ok (procs k) (cgt k) -> ptab (cgt k) !! p = Some x -> p_cgroup x = Some i ->
  exists k', kill_proc p r k = inr (tt, k') /\ quiet_step k k'.
Proof.
  intros Hg Hx Hi.
  destruct (leave_cgroup_run (cgt k) p x i (go_cg _ _ Hg) (go_unlocked _ _ Hg) Hx Hi) as (c' & E & Hok' & Hlk' & Hoth & Hab & x' & Hx' & Hi').
  assert (Forall2 quiet (procs k) (alter (slot_killed r) p (procs k))) as Hq by (apply quiet_alter; intros; apply slot_killed_quiet).
  exists (Kst (alter (slot_killed r) p (procs k)) (initproc k) c' (nst k) (calls k)). split.
  { unfold kill_proc. rewrite modS_bind. unfold oncg. simpl. by rewrite E. }
  split; [done|]. split; [done|]. split; [done|]. simpl. apply (groups_one (procs k) _ p (cgt k)); try done.
  - intros j q' Hne Hq'. destruct (Forall2_lookup_r _ _ _ _ _ Hq Hq') as (q & Hjq & [A _ _ _ U]). exists q. split; [done|]. split; [done|auto].
  - intros q' _. split; [done|]. intros _. by exists x', 0%nat.
Qed.

(** The pid namespace of a live process. *)
Lemma own_ns_live k p q : kst_ok k -> procs k !! p = Some q -> alive q = true ->
  exists x n, p_nsproxy q = Some x /\ (x < NNAMESPACE)%nat /\ own_ns (nst k) q = Some n /\ pid_ns_of (nst k) x = Some n /\ pid_ns_of_proc q k = inr (Some n, k).
Proof.
  intros Hok Hq Ha. destruct (ko_live _ Hok p q Hq Ha) as (x & n & v & Hx & Hlt & Hn & _). exists x, n. unfold own_ns. rewrite Hx. simpl.
  split_and!; try done. unfold pid_ns_of in Hn. destruct (namespacetable (nst k) !! x) as [px|] eqn:Ex; [|done]. simpl in Hn.
  unfold pid_ns_of_proc. rewrite (bind_run _ _ _ px k); [by rewrite Hn|]. unfold onns. rewrite Hx, (get_proxy_run _ x px Ex). by destruct k.
Qed.

Lemma unused_pid q ns : pids q = no_pids -> get_pid_for_ns q ns = 0.
Proof. intros E. unfold get_pid_for_ns. rewrite E. unfold no_pids, MAX_PID_NS_DEPTH. simpl. repeat (case_decide; [done|simpl]). done. Qed.

(** [kill] of a pid other than zero always returns. *)
Lemma kill_run k cur q pid : kst_ok k -> procs k !! cur = Some q -> alive q = true -> pid <> 0 ->
  exists r k', kill cur pid k = inr (r, k') /\ quiet_step k k'.
Proof.
  intros Hok Hq Ha Hpid. destruct (own_ns_live k cur q Hok Hq Ha) as (x & n & _ & _ & _ & _ & E).
  unfold kill. rewrite (bind_run _ _ _ q k) by (unfold getp; mrun; by rewrite Hq). rewrite (bind_run _ _ _ _ _ E), (bind_run _ _ _ _ _ (getS_run k)).
  destruct (list_find _ (procs k)) as [[p qp]|] eqn:Ef; [|eexists _, _; split; [reflexivity|apply quiet_step_refl, Hok]].
  apply list_find_Some in Ef as (Hp & Epid & _).
  destruct (go_group _ _ (ko_groups _ Hok) p qp Hp) as (y & i & Hy & Hi).
  { intros Hu. destruct (ko_unused _ Hok p qp Hp Hu) as [Ep _]. by rewrite (unused_pid qp _ Ep) in Epid. }
  destruct (kill_proc_run p (p_parent qp) k y i (ko_groups _ Hok) Hy Hi) as (k' & Ek & Hst).
  eexists _, k'. split; [by rewrite (bind_run _ _ _ _ _ Ek)|done].
Qed.

Lemma getp_run k p q : procs k !! p = Some q -> getp p k = inr (q, k).
Proof. intros H. unfold getp. mrun. by rewrite H. Qed.

Lemma sleeping_quiet q c : alive q = true -> quiet q (with_state SLEEPING (with_chan c q)).
Proof. intros Ha. eapply quiet_trans; [apply (quiet_chan q c)|]. by apply alive_state. Qed.

Lemma reap_quiet q : state q = ZOMBIE -> quiet q (reap q).
Proof. intros E. split; try done; simpl; [unfold alive; by rewrite E|unfold alive; by rewrite E|by right]. Qed.

Lemma quiet_step_length k k' : quiet_step k k' -> length (procs k') = length (procs k).
Proof. intros (Q & _). symmetry. by apply Forall2_length in Q. Qed.

Lemma wait_run k cur q : kst_ok k -> procs k !! cur = Some q -> alive q = true -> exists r k', wait cur k = inr (r, k') /\ quiet_step k k'.
Proof.
  intros Hok Hq Ha. destruct (own_ns_live k cur q Hok Hq Ha) as (x & n & _ & _ & _ & _ & E). pose proof (ko_groups _ Hok) as Hg.
  unfold wait. rewrite (bind_run _ _ _ _ _ (getp_run k cur q Hq)), (bind_run _ _ _ _ _ (getS_run k)).
  destruct (list_find _ (procs k)) as [[p qp]|] eqn:Ef.
  - apply list_find_Some in Ef as (Hp & [_ Hz] & _). rewrite (bind_run _ _ _ _ _ E). eexists _, _. split; [reflexivity|].
    apply quiet_step_upd; [done|]. intros q' Hq'. assert (q' = qp) as -> by congruence. by apply reap_quiet.
  - destruct (_ || _); [eexists _, _; split; [reflexivity|by apply quiet_step_refl]|].
    set (k1 := upd cur (fun p => with_state SLEEPING (with_chan (Some (ChanProc cur)) p)) k).
    assert (quiet_step k k1) as Hst by (apply quiet_step_upd; [done|]; intros q' Hq'; assert (q' = q) as -> by congruence; by apply sleeping_quiet).
    exists Sleeps, k1. split; [|done]. unfold sleep. rewrite modS_bind. fold k1. unfold sched.
    assert (procs k1 !! cur = Some (with_state SLEEPING (with_chan (Some (ChanProc cur)) q))) as H1 by (simpl; by rewrite list_lookup_alter_eq, Hq).
    rewrite (bind_run _ _ _ tt k1); [done|]. by rewrite (bind_run _ _ _ _ _ (getp_run k1 cur _ H1)).
Qed.

Lemma quiet_parent q r : quiet q (with_p_parent r q).
Proof. split; try done. by left. Qed.

Lemma pass_children_run cur r ps : forall k, groups_ok (procs k) (cgt k) -> (forall p, p ∈ ps -> (p < length (procs k))%nat) ->
  exists k', pass_children ps cur r k = inr (tt, k') /\ quiet_step k k'.
Proof.
  induction ps as [|p ps IH]; intros k Hg Hl; [exists k; split; [done|by apply quiet_step_refl]|].
  destruct (lookup_lt_is_Some_2 (procs k) p (Hl p (list_elem_of_here _ _))) as [q Hq].
  assert (exists k1, (if decide (p_parent q = Some cur) then modS (upd p (with_p_parent r)) ;; k ← getS;
    if decide (state q = ZOMBIE) then modS (wakeup1 (ChanProc <$> initproc k)) else mret tt else mret tt) k = inr (tt, k1) /\ quiet_step k k1) as (k1 & E1 & S1).
  { case_decide; [|exists k; split; [done|by apply quiet_step_refl]].
    assert (quiet_step k (upd p (with_p_parent r) k)) as S0 by (apply quiet_step_upd; [done|intros; apply quiet_parent]).
    rewrite modS_bind, (bind_run _ _ _ _ _ (getS_run _)). case_decide; eexists; (split; [reflexivity|]); [|done].
    eapply quiet_step_trans; [exact S0|]. apply quiet_step_wakeup. apply S0. }
  destruct (IH k1) as (k' & E' & S'); [apply S1| |].
  { intros j Hj. rewrite (quiet_step_length _ _ S1). apply Hl. by right. }
  exists k'. split; [|by eapply quiet_step_trans]. cbn [pass_children]. rewrite (bind_run _ _ _ _ _ (getp_run k p q Hq)). by rewrite (bind_run _ _ _ _ _ E1).
Qed.

Lemma kill_proc_okp p r k : groups_ok (procs k) (cgt k) -> okp (fun e => e = Fault) (kill_proc p r) k (fun _ k' => quiet_step k k').
Proof.
  intros Hg. destruct (ptab (cgt k) !! p) as [x|] eqn:Hx.
  - destruct (p_cgroup x) as [i|] eqn:Hi.
    + destruct (kill_proc_run p r k x i Hg Hx Hi) as (k' & E & S'). by eapply okp_run.
    + unfold okp, kill_proc. rewrite modS_bind. unfold oncg, leave_cgroup. simpl. rewrite (bind_run _ _ _ _ _ (get_proc_run (cgt k) p x Hx)), Hi. done.
  - unfold okp, kill_proc. rewrite modS_bind. unfold oncg, leave_cgroup, get_proc. simpl. mrun. by rewrite Hx.
Qed.

Lemma kill_all_okp nul cur r ns ps : forall k, groups_ok (procs k) (cgt k) -> (forall p, p ∈ ps -> (p < length (procs k))%nat) ->
  (forall p q x, procs k !! p = Some q -> p_nsproxy q = Some x -> (x < length (namespacetable (nst k)))%nat) ->
  okp (fun e => e = Fault) (kill_all_pid_ns nul ps cur r ns) k (fun _ k' => quiet_step k k').
Proof.
  induction ps as [|p ps IH]; intros k Hg Hl Hx; [by apply quiet_step_refl|].
  destruct (lookup_lt_is_Some_2 (procs k) p (Hl p (list_elem_of_here _ _))) as [q Hq].
  cbn [kill_all_pid_ns]. apply okp_bind. eapply okp_run; [exact (getp_run k p q Hq)|]. apply okp_bind.
  assert (exists n, (match p_nsproxy q with None => mret nul | Some _ => pid_ns_of_proc q end) k = inr (n, k)) as [n En].
  { destruct (p_nsproxy q) as [x|] eqn:Ex; [|by eexists]. destruct (lookup_lt_is_Some_2 _ x (Hx p q x Hq Ex)) as [px Hpx].
    exists (x_pid_ns px). unfold pid_ns_of_proc. rewrite (bind_run _ _ _ px k); [done|]. unfold onns. rewrite Ex, (get_proxy_run _ x px Hpx). by destruct k. }
  apply (okp_run _ _ _ _ _ _ En). apply okp_bind. apply (okp_mono (fun e => e = Fault) _ _ _ (fun _ k' => quiet_step k k')); [|done|].
  - destruct (_ && _); [by apply kill_proc_okp|]. by apply quiet_step_refl.
  - intros _ k1 S1. eapply okp_mono; [apply IH|done|].
    + apply S1.
    + intros j Hj. rewrite (quiet_step_length _ _ S1). apply Hl. by right.
    + intros j q' y Hq'. destruct S1 as (Q1 & -> & _). destruct (Forall2_lookup_r _ _ _ _ _ Q1 Hq') as (q0 & Hq0 & [_ -> _ _ _]). by apply (Hx j).
    + intros a k' S'. by eapply quiet_step_trans.
Qed.

(** ** Operations that change the references of one process *)
Lemma holders_insert ps cur q q0 x : ps !! cur = Some q ->
  holders (<[cur := q0]> ps) x = holders ps x + (if holds x q0 then 1 else 0) - (if holds x q then 1 else 0).
Proof. intros H. unfold holders. pose proof (count_insert (holds x) ps cur q q0 H). repeat case_match; lia. Qed.

Lemma feeders_insert ps cur q q0 n : ps !! cur = Some q ->
  feeders (<[cur := q0]> ps) n = feeders ps n + (if feeds n q0 then 1 else 0) - (if feeds n q then 1 else 0).
Proof. intros H. unfold feeders. pose proof (count_insert (feeds n) ps cur q q0 H). repeat case_match; lia. Qed.

(** The namespaces as the live processes other than [cur] see them. *)
Definition grows_at (ns ns' : nss) (n : nat) : Prop :=
  forall v, pidnstable ns !! n = Some v -> exists v', pidnstable ns' !! n = Some v' /\ next_pid v <= next_pid v'.
Definition seen (cur : nat) (ps : list proc) (ns ns' : nss) : Prop :=
  forall j q, j <> cur -> ps !! j = Some q -> alive q = true ->
    (forall x n, p_nsproxy q = Some x -> pid_ns_of ns x = Some n -> pid_ns_of ns' x = Some n /\ grows_at ns ns' n) /\
    forall m, child_pid_ns q = Some m -> grows_at ns ns' m.

Lemma live_seen cur ps ns ns' j q : seen cur ps ns ns' -> j <> cur -> ps !! j = Some q -> alive q = true -> live_ok ns q -> live_ok ns' q.
Proof.
  intros Hs Hj Hq Ha (x & n & v & Hx & Hlt & Hn & Hv & Hpid & Hhd & Hch & Hrest). destruct (Hs j q Hj Hq Ha) as [Hs1 Hs2].
  destruct (Hs1 x n Hx Hn) as [Hn' Hv']. destruct (Hv' v Hv) as (v' & E & Hle). exists x, n, v'.
  split; [done|]. split; [done|]. split; [done|]. split; [done|]. split; [lia|]. split; [done|]. split; [|done].
  intros m Hm. destruct (Hch m Hm) as (Hlm & w & Hw & Hw1). split; [done|]. destruct (Hs2 m Hm w Hw) as (w' & Ew & Hw'). exists w'. split; [done|lia].
Qed.

Lemma kst_change k k' cur q q0 : kst_ok k -> procs k !! cur = Some q -> Forall2 quiet (<[cur := q0]> (procs k)) (procs k') ->
  ns_ok (holders (<[cur := q0]> (procs k))) (feeders (<[cur := q0]> (procs k))) (nst k') ->
  seen cur (procs k) (nst k) (nst k') -> groups_ok (procs k') (cgt k') ->
  (forall x, p_nsproxy q0 = Some x -> (x < NNAMESPACE)%nat) -> (state q0 = UNUSED -> pids q0 = no_pids /\ child_pid_ns q0 = None) ->
  (alive q0 = true -> live_ok (nst k') q0 /\ forall j q' n, j <> cur -> procs k !! j = Some q' -> alive q' = true ->
    own_ns (nst k) q' = Some n -> own_ns (nst k') q0 = Some n -> ns_pid q' <> ns_pid q0) ->
  kst_ok k'.
Proof.
  intros Hok Hq HQ Hns Hseen Hg Hx0 Hu0 Ha0. pose proof Hok as [L N V U E P G].
  set (k1 := Kst (<[cur := q0]> (procs k)) (initproc k) (cgt k) (nst k') (calls k)).
  assert (forall j q', procs k1 !! j = Some q' -> j = cur /\ q' = q0 \/ j <> cur /\ procs k !! j = Some q') as Hsl.
  { intros j q'. simpl. rewrite list_lookup_insert_Some. intros [(-> & <- & _)|[Hne ?]]; [by left|by right]. }
  assert (forall j q' n, j <> cur -> procs k !! j = Some q' -> alive q' = true -> own_ns (nst k') q' = Some n -> own_ns (nst k) q' = Some n) as Hown.
  { intros j q' n Hne Hq' Ha Hn. destruct (V j q' Hq' Ha) as (x & m & v & Hx & _ & Hm & _). destruct (proj1 (Hseen j q' Hne Hq' Ha) x m Hx Hm) as [Hm' _].
    unfold own_ns in *. rewrite Hx in *. simpl in *. congruence. }
  assert (forall j q', procs k1 !! j = Some q' -> alive q' = true -> live_ok (nst k') q') as HV.
  { intros j q' Hq' Ha. destruct (Hsl j q' Hq') as [[-> ->]|[Hne Hq'']]; [by apply Ha0|]. by apply (live_seen cur (procs k) (nst k) _ j); try done; apply (V j). }
  assert (forall p p' a b, procs k1 !! p = Some a -> procs k1 !! p' = Some b -> alive a = true -> alive b = true -> p <> p' ->
    own_ns (nst k') a = own_ns (nst k') b -> ns_pid a <> ns_pid b) as HU.
  { intros p p' a b Hp Hp' Ha Hb Hne Eo. destruct (HV p a Hp Ha) as (x & n & _ & Hx & _ & Hn & _).
    assert (own_ns (nst k') a = Some n) as En by (unfold own_ns; by rewrite Hx).
    destruct (Hsl p a Hp) as [[-> ->]|[Hpc Hp0]], (Hsl p' b Hp') as [[-> ->]|[Hpc' Hp0']]; try done.
    - intros Eq. symmetry in Eq. revert Eq. apply (proj2 (Ha0 Ha) p' b n); try done. apply (Hown p'); congruence.
    - apply (proj2 (Ha0 Hb) p a n); try done; [by apply (Hown p)|congruence].
    - apply (U p p'); try done. rewrite (Hown p a n), (Hown p' b n); congruence. }
  split; try done.
  - rewrite <- (Forall2_length _ _ _ HQ), length_insert. done.
  - eapply ns_ok_ext; [| |exact Hns].
    + intros x. unfold holders. by rewrite (quiet_count _ _ _ HQ (quiet_holds x)).
    + intros n. unfold feeders. by rewrite (quiet_count _ _ _ HQ (quiet_feeds n)).
  - intros p q' Hq' Ha. destruct (Forall2_lookup_r _ _ _ _ _ HQ Hq') as (q1 & Hq1 & Hqt).
    apply (quiet_live _ q1); [done|done|]. apply (HV p q1 Hq1). by rewrite <- (qt_alive _ _ Hqt).
  - intros p1 p2 q1' q2' H1 H2 A1 A2 Hne. destruct (Forall2_lookup_r _ _ _ _ _ HQ H1) as (q1 & Hq1 & [B1 P1 F1 _ _]).
    destruct (Forall2_lookup_r _ _ _ _ _ HQ H2) as (q2 & Hq2 & [B2 P2 F2 _ _]). rewrite B1 in A1. rewrite B2 in A2.
    destruct (F1 A1) as (_ & -> & _), (F2 A2) as (_ & -> & _). unfold own_ns. rewrite P1, P2. by apply (HU p1 p2).
  - intros p q' Hq' Hs. destruct (Forall2_lookup_r _ _ _ _ _ HQ Hq') as (q1 & Hq1 & [_ _ _ W _]).
    destruct (W Hs) as [(Hs' & -> & ->)|?]; [|done]. destruct (Hsl p q1 Hq1) as [[-> ->]|[_ ?]]; [by apply Hu0|by apply (E p)].
  - intros p q' x Hq'. destruct (Forall2_lookup_r _ _ _ _ _ HQ Hq') as (q1 & Hq1 & [_ -> _ _ _]).
    destruct (Hsl p q1 Hq1) as [[-> ->]|[_ ?]]; [by apply Hx0|by apply (P p)].
Qed.

(** The pids of the namespaces only grow. *)
Definition pids_grow (ns ns' : nss) : Prop := forall n, grows_at ns ns' n.

Lemma pids_grow_refl ns : pids_grow ns ns.
Proof. intros n v Hv. exists v. split; [done|lia]. Qed.

Lemma pids_grow_trans n1 n2 n3 : pids_grow n1 n2 -> pids_grow n2 n3 -> pids_grow n1 n3.
Proof.
  intros H1 H2 n v Hv. destruct (H1 n v Hv) as (v1 & E1 & L1). destruct (H2 n v1 E1) as (v2 & E2 & L2). exists v2. split; [done|lia].
Qed.

Lemma same_pids_grow ns ns' : same_pids ns ns' -> pids_grow ns ns'.
Proof.
  intros H n v Hv. specialize (H n). rewrite Hv in H. simpl in H. apply fmap_Some in H as (v' & E & Ev). exists v'. split; [done|].
  unfold pid_view in Ev. injection Ev as _ -> _. lia.
Qed.

Lemma upd_pid_grow n f ns : (forall v, next_pid v <= next_pid (f v)) -> pids_grow ns (upd_pid_ns n f ns).
Proof.
  intros Hf m v Hv. simpl. rewrite list_lookup_alter. case_decide; [subst; rewrite Hv; exists (f v); auto|exists v; split; [done|lia]].
Qed.

Lemma two_holders ps cur j q q' x : ps !! cur = Some q -> ps !! j = Some q' -> j <> cur -> holds x q = true -> holds x q' = true -> holders ps x <> 1.
Proof.
  intros Hc Hj Hne H1 H2. pose proof (holders_insert ps cur q (with_state UNUSED q) x Hc) as E. rewrite H1 in E.
  change (holds x (with_state UNUSED q)) with false in E.
  cbv iota in E. assert (0 < holders (<[cur := with_state UNUSED q]> ps) x); [|lia]. unfold holders.
  enough (0 < count (holds x) (<[cur := with_state UNUSED q]> ps))%nat by lia. apply (count_elem _ _ j q'); [by rewrite list_lookup_insert_ne|done].
Qed.

Lemma pid_ns_of_proc_run k q x n : p_nsproxy q = Some x -> pid_ns_of (nst k) x = Some n -> pid_ns_of_proc q k = inr (Some n, k).
Proof.
  intros Hx Hn. unfold pid_ns_of in Hn. destruct (namespacetable (nst k) !! x) as [px|] eqn:Ex; [|done]. simpl in Hn.
  unfold pid_ns_of_proc. rewrite (bind_run _ _ _ px k); [by rewrite Hn|]. unfold onns. rewrite Hx, (get_proxy_run _ x px Ex). by destruct k.
Qed.

Lemma alter_twice {A} (f g : A -> A) (l : list A) i x : l !! i = Some x -> alter g i (alter f i l) = <[i := g (f x)]> l.
Proof. apply alter_alter. Qed.

Lemma zombie_quiet q q' : quiet q q' -> quiet (with_state ZOMBIE q) (with_state ZOMBIE q').
Proof. intros [_ P _ _ _]. by split. Qed.

(** The branch of [exit] on pid 1. *)
Definition after_exit (k k' : kst) : Prop :=
  Forall2 quiet (procs k) (procs k') /\ groups_ok (procs k') (cgt k') /\ initproc k' = initproc k /\ pids_grow (nst k) (nst k') /\
  (forall y, pid_ns_of (nst k') y = pid_ns_of (nst k) y) /\ forall h c, ns_ok h c (nst k) -> ns_ok h c (nst k').

Lemma quiet_after_exit k k' : quiet_step k k' -> after_exit k k'.
Proof. intros (Q & N & I & G). split_and!; try done; rewrite N; [apply pids_grow_refl|done|done]. Qed.

Lemma exit_branch_okp nul cur k q n r : groups_ok (procs k) (cgt k) -> length (procs k) = NPROC -> (n < length (pidnstable (nst k)))%nat ->
  (forall p q x, procs k !! p = Some q -> p_nsproxy q = Some x -> (x < length (namespacetable (nst k)))%nat) ->
  okp (fun e => e = Fault /\ ns_pid q = 1)
    (if ns_pid q =? 1 then
       m ← deref (Some n);
       onns (modS (upd_pid_ns m (fun ns => PidNs (n_ref ns) (n_parent ns) (next_pid ns) 1))) ;;
       kill_all_pid_ns nul (seq 0 NPROC) cur (p_parent q) (Some n)
     else pass_children (seq 0 NPROC) cur r) k (fun _ k' => after_exit k k').
Proof.
  intros Hg Hl Hn Hx. assert (forall p, p ∈ seq 0 NPROC -> (p < length (procs k))%nat) as Hs by (intros p [_ Hp]%elem_of_seq; rewrite Hl; lia).
  destruct (ns_pid q =? 1) eqn:E1.
  - apply okp_bind, (okp_deref _ _ n); [done|]. apply okp_bind. apply okp_onns, okp_modS.
    set (k1 := Kst (procs k) (initproc k) (cgt k) (upd_pid_ns n _ (nst k)) (calls k)).
    eapply okp_mono; [apply (kill_all_okp nul cur (p_parent q) (Some n) (seq 0 NPROC) k1); [done|done|exact Hx]|cbv beta; intros e ->; split; [done|lia]|].
    intros a k' (Q & N & I & G). split_and!; try done; rewrite N; subst k1; simpl.
    + apply upd_pid_grow. intros v. simpl. lia.
    + done.
    + intros h c Hok. by apply upd_pid_ns_ok.
  - destruct (pass_children_run cur r (seq 0 NPROC) k Hg Hs) as (k' & E & S'). apply (okp_run _ _ _ _ _ _ E). by apply quiet_after_exit.
Qed.

(** The ways [exit] can stop: those of its panics, and a null dereference when pid 1 of a namespace kills the others. *)
Definition exit_stops (pid : Z) (e : stop) : Prop :=
  e = Panic "init exiting" \/ e = Panic "couldn't find pid 1" \/ e = Fault /\ pid = 1.

Definition exit_slot (st : Z) (q : proc) : proc := with_files ((fun _ => None) <$> ofile q) None None (with_status st q).

(** The references of the process are given back. *)
Lemma exit_refs k cur q x ns1 ns2 ns3 (c' : nat -> Z) : kst_ok k -> procs k !! cur = Some q -> alive q = true -> p_nsproxy q = Some x ->
  ns_ok (plus_at x (-1) (holders (procs k))) c' ns3 -> (forall n, c' n = feeders (procs k) n - (if feeds n q then 1 else 0)) ->
  (forall y, y <> x \/ holders (procs k) x <> 1 -> pid_ns_of ns1 y = pid_ns_of (nst k) y) -> pids_grow (nst k) ns1 ->
  (forall y, pid_ns_of ns2 y = pid_ns_of ns1 y) -> pids_grow ns1 ns2 -> (forall y, pid_ns_of ns3 y = pid_ns_of ns2 y) -> pids_grow ns2 ns3 ->
  forall q0, state q0 = ZOMBIE ->
  ns_ok (holders (<[cur := q0]> (procs k))) (feeders (<[cur := q0]> (procs k))) ns3 /\ seen cur (procs k) (nst k) ns3.
Proof.
  intros Hok Hq Ha Hx Hns Hc H1 G1 H2 G2 H3 G3 q0 Hz. assert (alive q0 = false) as Hd by (unfold alive; by rewrite Hz).
  assert (forall y, holds y q = bool_decide (y = x)) as Hh by (intros y; unfold holds; rewrite Ha, Hx; apply bool_decide_ext; naive_solver).
  split.
  - eapply ns_ok_ext; [| |exact Hns].
    + intros y. rewrite (holders_insert _ _ q) by done. unfold holds at 1. rewrite Hd, Hh. unfold plus_at. cbn [andb].
      destruct (decide (y = x)) as [->|Hne]; [rewrite bool_decide_eq_true_2 by done|rewrite bool_decide_eq_false_2 by done]; cbv iota; lia.
    + intros n. rewrite (feeders_insert _ _ q) by done. rewrite Hc. unfold feeds at 1. rewrite Hd. simpl. lia.
  - pose proof (pids_grow_trans _ _ _ (pids_grow_trans _ _ _ G1 G2) G3) as Hgrow. intros j q' Hne Hj Ha'. split; [|intros m _; apply Hgrow].
    intros y n Hy Hn. split; [|apply Hgrow].
    + rewrite H3, H2, H1; [done|]. destruct (decide (y = x)) as [->|]; [right|by left].
      apply (two_holders _ cur j q q' x Hq Hj Hne); [rewrite Hh; by apply bool_decide_eq_true_2|unfold holds; rewrite Ha', Hy; by apply bool_decide_eq_true_2].
Qed.

Lemma sched_zombie k cur q : procs k !! cur = Some q -> state q <> RUNNING -> sched cur k = inr (tt, k).
Proof. intros Hq Hs. unfold sched. rewrite (bind_run _ _ _ _ _ (getp_run k cur q Hq)). by rewrite decide_False. Qed.

(** The last part of [exit]: the process leaves its group and becomes a zombie. *)
Lemma exit_leave k cur q : groups_ok (procs k) (cgt k) -> procs k !! cur = Some q -> state q <> UNUSED ->
  exists k', (oncg (leave_cgroup cur) ;; modS (upd cur (with_state ZOMBIE)) ;; sched cur) k = inr (tt, k') /\
    procs k' = alter (with_state ZOMBIE) cur (procs k) /\ nst k' = nst k /\ groups_ok (procs k') (cgt k').
Proof.
  intros Hg Hq Hs. destruct (go_group _ _ Hg cur q Hq Hs) as (x & i & Hx & Hi).
  destruct (leave_cgroup_run (cgt k) cur x i (go_cg _ _ Hg) (go_unlocked _ _ Hg) Hx Hi) as (c' & E & Hok' & Hlk' & Hoth & Hab & x' & Hx' & Hi').
  exists (Kst (alter (with_state ZOMBIE) cur (procs k)) (initproc k) c' (nst k) (calls k)). split.
  { rewrite (bind_run _ _ _ tt (Kst (procs k) (initproc k) c' (nst k) (calls k))) by (unfold oncg; by rewrite E). rewrite modS_bind.
    apply (sched_zombie _ cur (with_state ZOMBIE q)); [simpl; by rewrite list_lookup_alter_eq, Hq|done]. }
  split; [done|]. split; [done|]. simpl. apply (groups_one (procs k) _ cur (cgt k)); try done.
  - intros j q' Hne. rewrite list_lookup_alter_ne by done. eauto.
  - intros q' _. split; [done|]. intros _. by exists x', 0%nat.
Qed.

Lemma child_put_okp k q h : ns_ok h (feeders (procs k)) (nst k) -> small (feeders (procs k)) ->
  (forall n, child_pid_ns q = Some n -> (n < NNAMESPACE)%nat /\ feeders (procs k) n <> 0) -> alive q = true ->
  exists ns', (match child_pid_ns q with Some n => onns (pid_ns_put n) | None => mret tt end) k =
      inr (tt, Kst (procs k) (initproc k) (cgt k) ns' (calls k)) /\
    ns_ok h (fun n => feeders (procs k) n - (if feeds n q then 1 else 0)) ns' /\ pids_grow (nst k) ns' /\
    forall y, pid_ns_of ns' y = pid_ns_of (nst k) y.
Proof.
  intros Hns Hsm Hc Ha. destruct (child_pid_ns q) as [n|] eqn:En.
  - destruct (Hc n eq_refl) as [Hlt Hn0]. destruct (pid_ns_put_run h (feeders (procs k)) (nst k) Hns Hsm n Hn0 Hlt) as (ns' & E & Hok' & Hp & Hof).
    exists ns'. split; [unfold onns; by rewrite E|]. split; [|split; [by apply same_pids_grow|done]].
    eapply ns_ok_ext; [done| |exact Hok']. intros m. unfold feeds, plus_at. rewrite Ha, En. cbn [andb].
    destruct (decide (m = n)) as [->|Hne]; [rewrite bool_decide_eq_true_2 by done|rewrite bool_decide_eq_false_2 by congruence]; cbv iota; lia.
  - exists (nst k). split; [by destruct k|]. split; [|split; [apply pids_grow_refl|done]]. eapply ns_ok_ext; [done| |exact Hns].
    intros m. unfold feeds. rewrite En, andb_false_r. cbv iota. lia.
Qed.

(** The part of [exit] under the lock, after the proxy was given back. *)
Lemma exit_tail nul st cur k k3 q x n r : kst_ok k -> procs k !! cur = Some q -> alive q = true -> p_nsproxy q = Some x ->
  (n < NNAMESPACE)%nat -> (forall m, child_pid_ns q = Some m -> (m < NNAMESPACE)%nat) ->
  Forall2 quiet (<[cur := exit_slot st q]> (procs k)) (procs k3) -> groups_ok (procs k3) (cgt k3) ->
  ns_ok (plus_at x (-1) (holders (procs k))) (feeders (procs k)) (nst k3) -> pids_grow (nst k) (nst k3) ->
  (forall y, y <> x \/ holders (procs k) x <> 1 -> pid_ns_of (nst k3) y = pid_ns_of (nst k) y) ->
  okp (exit_stops (ns_pid q))
    ((if ns_pid q =? 1 then
        m ← deref (Some n);
        onns (modS (upd_pid_ns m (fun ns => PidNs (n_ref ns) (n_parent ns) (next_pid ns) 1))) ;;
        kill_all_pid_ns nul (seq 0 NPROC) cur (p_parent q) (Some n)
      else pass_children (seq 0 NPROC) cur r) ;;
     (match child_pid_ns q with Some n => onns (pid_ns_put n) | None => mret tt end) ;;
     oncg (leave_cgroup cur) ;; modS (upd cur (with_state ZOMBIE)) ;; sched cur) k3 (fun _ k' => kst_ok k').
Proof.
  intros Hok Hq Ha Hx Hn Hch HQ3 Hg3 Hns3 Gr3 Hof3. pose proof (nk_len _ _ _ Hns3) as (Lx & Ln & _).
  destruct (holders_small (procs k)) as [Sh Sf]; [rewrite (ko_len _ Hok); unfold NPROC; lia|].
  assert (cur < length (procs k))%nat as Hcl by (by eapply lookup_lt_Some).
  assert (forall m, feeders (procs k3) m = feeders (procs k) m) as Ef.
  { intros m. unfold feeders. rewrite (quiet_count _ _ _ HQ3 (quiet_feeds m)). fold (feeders (<[cur := exit_slot st q]> (procs k)) m).
    rewrite (feeders_insert _ _ q) by done. change (feeds m (exit_slot st q)) with (feeds m q). unfold feeders. lia. }
  apply okp_bind. eapply okp_mono; [apply (exit_branch_okp nul cur k3 q n r Hg3)| |].
  { rewrite <- (Forall2_length _ _ _ HQ3), length_insert. apply (ko_len _ Hok). }
  { by rewrite Ln. }
  { intros p q' y Hq'. rewrite Lx. destruct (Forall2_lookup_r _ _ _ _ _ HQ3 Hq') as (q1 & Hq1 & [_ -> _ _ _]).
    apply list_lookup_insert_Some in Hq1 as [(_ & <- & _)|[_ Hq1]]; [exact (ko_proxy _ Hok cur q y Hq)|exact (ko_proxy _ Hok p q1 y Hq1)]. }
  { intros e He. by right; right. }
  intros a k5 (Q5 & G5 & _ & Gr5 & Hof5 & Hns5). pose proof (quiet_forall_trans _ _ _ HQ3 Q5) as HQ5.
  assert (forall m, feeders (procs k5) m = feeders (procs k) m) as Ef5
    by (intros m; rewrite <- Ef; unfold feeders; by rewrite (quiet_count _ _ _ Q5 (quiet_feeds m))).
  destruct (child_put_okp k5 q (plus_at x (-1) (holders (procs k)))) as (ns6 & E6 & Hns6 & Gr6 & Hof6); [| | |done|].
  { eapply ns_ok_ext; [done|exact Ef5|by apply Hns5]. }
  { intros m. rewrite Ef5. apply Sf. }
  { intros m Hm. split; [by apply Hch|]. rewrite Ef5. unfold feeders. pose proof (count_elem (feeds m) _ cur q Hq) as Hc.
    enough (0 < count (feeds m) (procs k))%nat by lia. apply Hc. unfold feeds. rewrite Ha, Hm. by apply bool_decide_eq_true_2. }
  apply okp_bind, (okp_run _ _ _ _ _ _ E6). set (k6 := Kst _ _ _ _ _).
  destruct (Forall2_lookup_l _ _ _ cur (exit_slot st q) HQ5) as (q6 & Hq6 & Hqt6); [by apply list_lookup_insert_eq|].
  destruct (exit_leave k6 cur q6 G5 Hq6) as (k7 & E7 & P7 & N7 & G7).
  { intros E. pose proof (qt_alive _ _ Hqt6) as A. unfold alive at 1 in A. rewrite E in A. change (alive (exit_slot st q)) with (alive q) in A. by rewrite Ha in A. }
  apply (okp_run _ _ _ _ _ _ E7).
  assert (Forall2 quiet (<[cur := with_state ZOMBIE (exit_slot st q)]> (procs k)) (procs k7)) as HQ7.
  { rewrite P7. replace (<[cur := _]> (procs k)) with (alter (with_state ZOMBIE) cur (<[cur := exit_slot st q]> (procs k)))
      by (rewrite (alter_insert _ _ _ (exit_slot st q)) by (by apply list_lookup_insert_eq); apply list_insert_insert_eq).
    apply Forall2_alter; [exact HQ5|]. intros a1 a2 _ _. apply zombie_quiet. }
  destruct (exit_refs k cur q x (nst k3) (nst k5) ns6 _ Hok Hq Ha Hx Hns6 (fun n => f_equal (fun z => z - _) (Ef5 n)) Hof3 Gr3 Hof5 Gr5 Hof6 Gr6
    (with_state ZOMBIE (exit_slot st q)) eq_refl) as [Hns7 Hseen].
  apply (kst_change k k7 cur q (with_state ZOMBIE (exit_slot st q))); try done; rewrite ?N7; try done.
  intros y. exact (ko_proxy _ Hok cur q y Hq).
Qed.

Lemma exit_okp nul st cur k q : kst_ok k -> procs k !! cur = Some q -> alive q = true ->
  okp (exit_stops (ns_pid q)) (exit nul st cur) k (fun _ k' => kst_ok k').
Proof.
  intros Hok Hq Ha. destruct (ko_live _ Hok cur q Hq Ha) as (x & n & v & Hx & Hlt & Hn & Hv & _ & _ & Hch & [cd Hcd] & [mt Hmt]).
  destruct (holders_small (procs k)) as [Sh Sf]; [rewrite (ko_len _ Hok); unfold NPROC; lia|].
  assert (state q <> UNUSED) as Hu by (intros E; unfold alive in Ha; by rewrite E in Ha).
  unfold exit. apply okp_bind, okp_modS, okp_bind, okp_getS. case_decide; [by left|].
  apply okp_bind, (okp_getp _ cur (with_status st q)); [simpl; by rewrite list_lookup_alter_eq, Hq|].
  apply okp_bind, (okp_deref _ _ cd); [done|]. apply okp_bind, (okp_deref _ _ mt); [done|].
  apply okp_bind, okp_modS, okp_bind, okp_modS. set (k2 := upd cur _ _).
  assert (procs k2 = <[cur := exit_slot st q]> (procs k)) as E2 by (subst k2; simpl; by rewrite (alter_twice _ _ _ _ q)).
  assert (cur < length (procs k))%nat as Hcl by (by eapply lookup_lt_Some).
  assert (procs k2 !! cur = Some (exit_slot st q)) as Hq2 by (rewrite E2; by apply list_lookup_insert_eq).
  assert (groups_ok (procs k2) (cgt k2)) as Hg2.
  { apply (groups_one (procs k) _ cur (cgt k)); try (apply (ko_groups _ Hok)); [|apply others_refl|].
    - intros j q' Hne. rewrite E2, list_lookup_insert_ne by done. eauto.
    - intros q'. rewrite Hq2. intros [= <-]. split; [intros Hd; unfold alive in *; simpl in Hd; congruence|].
      intros _. exact (go_group _ _ (ko_groups _ Hok) cur q Hq Hu). }
  apply okp_bind. eapply okp_run; [apply (pid_ns_of_proc_run k2 _ x n); done|]. apply okp_bind, okp_getS. cbv zeta.
  apply okp_bind, (okp_mono (fun _ => False) _ _ _ (fun _ k' => k' = k2)); [|done|].
  { destruct (get_pid1_for_ns _ _); [done|]. apply okp_bind, okp_onns. eapply okp_run; [exact (get_pid_ns_run _ n v Hv)|]. apply okp_ret. reflexivity. }
  intros lost k' ->. destruct lost; [by right; left|]. apply okp_bind, (okp_deref _ _ x); [done|].
  destruct (namespaceput_run (holders (procs k)) (feeders (procs k)) (nst k) (ko_ns _ Hok) Sh Sf x) as (ns1 & E1 & Hns1 & Hp1 & Hof1);
    [|done|].
  { pose proof (count_elem (holds x) _ cur q Hq) as Hc. unfold holders. enough (0 < count (holds x) (procs k))%nat by lia.
    apply Hc. unfold holds. rewrite Ha, Hx. by apply bool_decide_eq_true_2. }
  apply okp_bind, okp_onns. eapply okp_run; [exact E1|]. apply okp_bind, okp_modS. set (k3 := wakeup1 _ _).
  assert (quiet_step (Kst (procs k2) (initproc k2) (cgt k2) ns1 (calls k2)) k3) as (Q3 & N3 & _ & G3) by (by apply quiet_step_wakeup).
  cbn [procs nst] in Q3, N3. rewrite E2 in Q3. clearbody k3.
  cbn [ns_pid p_parent child_pid_ns with_status].
  refine (exit_tail nul st cur k k3 q x n _ Hok Hq Ha Hx _ (fun m Hm => proj1 (Hch m Hm)) Q3 G3 _ _ _); rewrite ?N3.
  - rewrite <- (proj1 (proj2 (nk_len _ _ _ (ko_ns _ Hok)))). by eapply lookup_lt_Some.
  - exact Hns1.
  - by apply same_pids_grow.
  - exact Hof1.
Qed.

(** ** unshare *)
Lemma quiet_all_refl ps : Forall2 quiet ps ps.
Proof. induction ps as [|q ps IH]; constructor; [apply quiet_refl|done]. Qed.

(** The pids a namespace in use keeps over an [unshare]. *)
Lemma unshared_pids h c s x child r x' child' s' n v y : unshared h c s x child (r, x', child') s' -> moved_to x x' h y <> 0 ->
  pid_ns_of s' y = Some n -> pidnstable s !! n = Some v -> exists v', pidnstable s' !! n = Some v' /\ next_pid v = next_pid v'.
Proof.
  intros (_ & _ & _ & _ & Hc) Hy Hn Hv. assert (pid_view <$> pidnstable s' !! n = pid_view <$> pidnstable s !! n) as E.
  { destruct Hc as [(_ & _ & Hp)|(_ & m & _ & _ & _ & _ & Hfr & Hp)]; [apply Hp|]. apply Hp. intros ->. by apply (Hfr y). }
  rewrite Hv in E. simpl in E. apply fmap_Some in E as (v' & E' & Ev). exists v'. split; [done|]. unfold pid_view in Ev. congruence.
Qed.

Lemma unshared_child h c s x child r x' child' s' m : unshared h c s x child (r, x', child') s' -> c m <> 0 -> grows_at s s' m.
Proof.
  intros (_ & _ & _ & _ & Hc) Hm. assert (pid_view <$> pidnstable s' !! m = pid_view <$> pidnstable s !! m) as E.
  { destruct Hc as [(_ & _ & Hp)|(_ & n & _ & _ & Hn & _ & _ & Hp)]; [apply Hp|]. apply Hp. by intros ->. }
  intros v Hv. rewrite Hv in E. simpl in E. apply fmap_Some in E as (v' & E' & Ev). exists v'. split; [done|].
  assert (next_pid v = next_pid v') by (unfold pid_view in Ev; congruence). lia.
Qed.

Lemma holds_live q x y : alive q = true -> p_nsproxy q = Some x -> holds y q = bool_decide (y = x).
Proof. intros Ha Hx. unfold holds. rewrite Ha, Hx. apply bool_decide_ext. naive_solver. Qed.

Lemma holder_counted ps j q x : ps !! j = Some q -> alive q = true -> p_nsproxy q = Some x -> holders ps x <> 0.
Proof.
  intros Hj Ha Hx. unfold holders. enough (0 < count (holds x) ps)%nat by lia. apply (count_elem _ _ j q Hj).
  rewrite (holds_live q x) by done. by apply bool_decide_eq_true_2.
Qed.

Lemma feeder_counted ps j q m : ps !! j = Some q -> alive q = true -> child_pid_ns q = Some m -> feeders ps m <> 0.
Proof.
  intros Hj Ha Hm. unfold feeders. enough (0 < count (feeds m) ps)%nat by lia. apply (count_elem _ _ j q Hj).
  unfold feeds. rewrite Ha, Hm. by apply bool_decide_eq_true_2.
Qed.

Lemma if_bool_decide (P : Prop) `{Decision P} : (if bool_decide P then 1 else 0) = if decide P then 1 else 0.
Proof. case_bool_decide; case_decide; done. Qed.

(** The process changes its proxy to [x'] and its namespace for children. *)
Lemma moved_holders ps cur q x x' child y : ps !! cur = Some q -> alive q = true -> p_nsproxy q = Some x ->
  holders (<[cur := with_ns (Some x') child q]> ps) y = moved_to x x' (holders ps) y.
Proof.
  intros Hq Ha Hx. rewrite (holders_insert _ _ q) by done. rewrite (holds_live q x), (holds_live (with_ns (Some x') child q) x') by done.
  rewrite !if_bool_decide. unfold moved_to, plus_at. repeat case_decide; lia.
Qed.

Lemma sys_unshare_okp t cur k q : kst_ok k -> procs k !! cur = Some q -> alive q = true ->
  okp unshare_stops (sys_unshare t cur) k (fun _ k' => kst_ok k').
Proof.
  intros Hok Hq Ha. destruct (ko_live _ Hok cur q Hq Ha) as (x & n & v & Hx & Hlt & Hn & Hv & Hpid & Hhd & Hch & Hcw).
  destruct (holders_small (procs k)) as [Sh Sf]; [rewrite (ko_len _ Hok); unfold NPROC; lia|].
  unfold sys_unshare. apply okp_bind, (okp_getp _ cur q); [done|]. apply okp_bind, (okp_deref _ _ x); [done|].
  apply okp_bind, okp_onns. eapply okp_mono; [apply (unshare_ok _ _ _ t x (child_pid_ns q) (ko_ns _ Hok) Sh Sf); [by apply (holder_counted _ cur q)|done]|done|].
  intros [[r x'] child'] s' Hun. pose proof Hun as (Hx' & Hpx & Hpy & Hfresh & Hc). apply okp_bind, okp_modS, okp_ret. set (k' := upd _ _ _).
  set (q0 := with_ns (Some x') child' q). assert (procs k' = <[cur := q0]> (procs k)) as E by (subst k'; simpl; by apply alter_insert).
  assert (forall y, holders (<[cur := q0]> (procs k)) y = moved_to x x' (holders (procs k)) y) as Hm by (intros y; by apply moved_holders).
  assert (forall j q' y, procs k' !! j = Some q' -> alive q' = true -> p_nsproxy q' = Some y -> moved_to x x' (holders (procs k)) y <> 0) as Hheld.
  { intros j q' y Hj Ha' Hy. rewrite <- Hm, <- E. by apply (holder_counted _ j q'). }
  assert (procs k' !! cur = Some q0) as Hq0 by (rewrite E; apply list_lookup_insert_eq; by eapply lookup_lt_Some).
  apply (kst_change k k' cur q q0); try done.
  - rewrite E. apply quiet_all_refl.
  - subst k'. simpl. destruct Hc as [(-> & Hns & _)|(En & m & -> & _ & _ & Hns & _)]; (eapply ns_ok_ext; [exact Hm| |exact Hns]); intros a;
      rewrite (feeders_insert _ _ q) by done.
    + change (feeds a q0) with (feeds a q). lia.
    + unfold feeds, plus_at. change (alive q0) with (alive q). rewrite Ha, En. simpl. rewrite !if_bool_decide. repeat case_decide; try done; try congruence; lia.
  - intros j q' Hne Hj Ha'. assert (procs k' !! j = Some q') as Hj' by (rewrite E; by rewrite list_lookup_insert_ne).
    split; [|intros m Hm'; apply (unshared_child _ _ _ _ _ _ _ _ _ m Hun); by apply (feeder_counted _ j q')].
    intros y m Hy Hm'. assert (pid_ns_of (nst k') y = Some m) as Ey.
    { subst k'. simpl. destruct (decide (y = x')) as [->|Hyx]; [|by rewrite Hpy]. destruct (decide (x' = x)) as [->|Hne']; [congruence|].
      destruct (holder_counted _ j q' x' Hj Ha' Hy). by apply Hfresh. }
    split; [done|]. intros w Hw. destruct (unshared_pids _ _ _ _ _ _ _ _ _ m w y Hun (Hheld j q' y Hj' Ha' Hy) Ey Hw) as (w' & ? & ?). exists w'. split; [done|lia].
  - apply (groups_one (procs k) _ cur (cgt k)); try (apply (ko_groups _ Hok)); [|apply others_refl|].
    + intros j q' Hne. rewrite E, list_lookup_insert_ne by done. eauto.
    + intros q'. rewrite Hq0. intros [= <-]. split; [intros Hd; change (alive q0) with (alive q) in Hd; congruence|]. apply (go_group _ _ (ko_groups _ Hok) cur q Hq).
  - by intros y [= <-].
  - intros Hu. unfold alive in Ha. change (state q0) with (state q) in Hu. by rewrite Hu in Ha.
  - intros _. destruct (unshared_pids _ _ _ _ _ _ _ _ _ n v x' Hun (Hheld cur q0 x' Hq0 Ha eq_refl)) as (v' & Hv' & Ev); [congruence|done|]. split.
    + exists x', n, v'. split; [done|]. split; [done|]. split; [subst k'; simpl; congruence|]. split; [done|].
      split; [change (ns_pid q0) with (ns_pid q); lia|]. split; [done|]. split; [|done].
      intros m Hcm. change (child' = Some m) in Hcm. destruct Hc as [(Ec & _)|(_ & m' & Ec & ? & _ & _ & _ & Hnew & _)].
      * destruct (Hch m) as (Hlm & w & Hw & Hw1); [congruence|]. split; [done|].
        destruct (unshared_child _ _ _ _ _ _ _ _ _ m Hun) with w as (w' & Hw' & Hle); [|done|exists w'; split; [done|lia]].
        apply (feeder_counted _ cur q); congruence.
      * assert (m' = m) as -> by congruence. split; [done|]. exact Hnew.
    + intros j q' m Hne Hj Ha' Hm1 Hm2. change (ns_pid q0) with (ns_pid q). apply (ko_unique _ Hok j cur q' q); try done.
      rewrite Hm1. unfold own_ns in *. rewrite Hx. simpl in *. subst k'. simpl in Hm2. congruence.
Qed.

(** ** fork *)

(** No namespace is about to run out of pids. *)
Definition room_for_pids (ns : nss) : Prop := forall n v, pidnstable ns !! n = Some v -> next_pid v + 4 < 2 ^ 31 /\ - 2 ^ 31 <= next_pid v.

Definition fork_stops (e : stop) : Prop := exhausted e \/ e = Panic "too many danif!".

(** The loop over the namespaces: each one visited gives out a pid, and the first one its next pid. *)
Lemma fork_pids_okp h c slots : forall ns cur, ns_ok h c ns -> (forall n, cur = Some n -> (n < NNAMESPACE)%nat) ->
  (forall n v, pidnstable ns !! n = Some v -> next_pid v + Z.of_nat slots < 2 ^ 31 /\ - 2 ^ 31 <= next_pid v) ->
  okp (fun e => e = Panic "too many danif!") (fork_pids slots cur) ns (fun es ns' =>
    ns_ok h c ns' /\ namespacetable ns' = namespacetable ns /\ pids_grow ns ns' /\
    forall n v, cur = Some n -> pidnstable ns !! n = Some v -> head es = Some (PidEntry (Some n) (next_pid v)) /\
      exists v', pidnstable ns' !! n = Some v' /\ next_pid v < next_pid v').
Proof.
  induction slots as [|slots IH]; intros ns cur Hok Hlt Hroom; destruct cur as [n|]; cbn [fork_pids];
    [done|split_and!; try done; apply pids_grow_refl| |split_and!; try done; apply pids_grow_refl].
  destruct (nk_len _ _ _ Hok) as (_ & L & _). destruct (lookup_lt_is_Some_2 (pidnstable ns) n) as [v Hv]; [rewrite L; by apply Hlt|].
  apply okp_bind. eapply okp_run; [exact (next_pid_run ns n v Hv)|]. set (ns1 := next_pid_taken n ns).
  assert (ns_ok h c ns1) as Hok1 by (apply upd_pid_ns_ok; done).
  assert (pids_grow ns ns1) as G1.
  { intros m w Hw. unfold ns1, next_pid_taken, upd_pid_ns. simpl. rewrite list_lookup_alter. destruct (Hroom m w Hw).
    case_decide; [subst; rewrite Hw; simpl; eexists; split; [done|]; simpl; rewrite s32_id by (unfold is_s32; lia); lia|exists w; split; [done|lia]]. }
  assert (pidnstable ns1 !! n = Some (PidNs (n_ref v) (n_parent v) (next_pid v +i 1) (pid1_ns_killed v))) as Hv1
    by (unfold ns1, next_pid_taken; simpl; by rewrite list_lookup_alter_eq, Hv).
  apply okp_bind. eapply okp_run; [exact (get_pid_ns_run ns1 n _ Hv1)|]. cbn [n_parent].
  apply okp_bind. eapply okp_mono; [apply (IH ns1 (n_parent v) Hok1)|done|].
  - intros m. by apply (nk_parent _ _ _ Hok n v).
  - intros m w (w0 & Hw0 & ->)%lookup_alter_inv. destruct (Hroom m w0 Hw0). case_decide; simpl; [rewrite s32_id by (unfold is_s32; lia)|]; lia.
  - intros es ns' (Hok' & Et & G' & _). apply okp_ret. split; [done|]. split; [done|]. split; [by apply (pids_grow_trans _ ns1)|].
    intros m w [= ->] Hw. assert (w = v) as -> by congruence. split; [done|]. destruct (G' m _ Hv1) as (v' & E & Hle). exists v'. split; [done|].
    destruct (Hroom m v Hv). simpl in Hle. rewrite s32_id in Hle by (unfold is_s32; lia). lia.
Qed.

(** The slot [allocproc] returns. *)
Definition alloc_slot (q : proc) : proc := with_acct no_acct (with_mem true (pgdir q) (with_killed 0 (with_state EMBRYO q))).

Lemma allocproc_run b k : match list_find (fun p => state p = UNUSED) (procs k) with
  | None => allocproc b k = inr (None, k)
  | Some (np, q) => procs k !! np = Some q /\ state q = UNUSED /\
      allocproc b k = if b then inr (Some np, Kst (<[np := alloc_slot q]> (procs k)) (initproc k) (upd_proc np (fun x => Cproc (sz x) None) (cgt k)) (nst k) (calls k))
        else inr (None, upd np (fun q => with_state UNUSED (with_mem false (pgdir q) (with_killed 0 (with_state EMBRYO q)))) k)
  end.
Proof.
  unfold allocproc. mrun. destruct (list_find _ (procs k)) as [[np q]|] eqn:Ef; [|done]. apply list_find_Some in Ef as (Hq & Hs & _).
  split; [done|]. split; [done|]. destruct b; unfold oncg, upd; cbn [procs initproc cgt nst calls]; do 2 f_equal.
  - rewrite (alter_twice _ _ _ _ q Hq), (alter_insert _ _ _ (with_mem true (pgdir q) (with_killed 0 (with_state EMBRYO q))))
      by (apply list_lookup_insert_eq; by eapply lookup_lt_Some). by rewrite list_insert_insert_eq.
  - by rewrite (alter_twice _ _ _ _ q Hq), (alter_insert _ _ _ q Hq).
Qed.

(** The proxy of the child. *)
Definition first_ns (ns : nss) (q : proc) : option nat := match child_pid_ns q with Some n => Some n | None => own_ns ns q end.

Lemma fork_proxy_okp h c ns old q : ns_ok h c ns -> small h -> small c -> h old <> 0 -> (old < NNAMESPACE)%nat -> p_nsproxy q = Some old ->
  (forall n, child_pid_ns q = Some n -> (n < NNAMESPACE)%nat) ->
  okp exhausted (match child_pid_ns q with Some n => namespace_replace_pid_ns old n | None => namespacedup old end) ns (fun px ns1 =>
    (px < NNAMESPACE)%nat /\ ns_ok (plus_at px 1 h) c ns1 /\ same_pids ns ns1 /\ pid_ns_of ns1 px = first_ns ns q /\
    forall y, h y <> 0 -> pid_ns_of ns1 y = pid_ns_of ns y).
Proof.
  intros Hok Sh Sc Ho Hlt Hx Hch. unfold first_ns, own_ns. rewrite Hx. destruct (child_pid_ns q) as [n|].
  - eapply okp_mono; [apply (replace_ok h c ns Hok Sc old n Ho Hlt); by apply Hch|done|].
    intros px ns1 (? & Hpx & ? & ? & ? & Hy). split_and!; try done. intros y Hhy. apply Hy. by intros ->.
  - destruct (namespacedup_run h c ns Hok Sh old Ho Hlt) as (ns1 & E & ? & ? & Hy). apply (okp_run _ _ _ _ _ _ E). split_and!; try done.
Qed.

(** A state that differs from [k] in the slot [np] and in the other tables. *)
Definition at_slot (k : kst) (np : nat) (a : proc) (c : cgs) (ns : nss) (ev : list pcall) : kst := Kst (<[np := a]> (procs k)) (initproc k) c ns ev.

Lemma upd_at_slot k np a c ns ev f : (np < length (procs k))%nat -> upd np f (at_slot k np a c ns ev) = at_slot k np (f a) c ns ev.
Proof.
  intros H. unfold upd, at_slot. cbn [procs initproc cgt nst calls]. f_equal.
  rewrite (alter_insert _ _ _ a) by (by apply list_lookup_insert_eq). apply list_insert_insert_eq.
Qed.

Lemma okp_upd_slot E k np a c ns ev f Q : (np < length (procs k))%nat -> Q tt (at_slot k np (f a) c ns ev) -> okp E (modS (upd np f)) (at_slot k np a c ns ev) Q.
Proof. intros H HQ. apply okp_modS. by rewrite upd_at_slot. Qed.

Lemma slot_groups ps np q q0 c c' : groups_ok ps c -> ps !! np = Some q -> cg_ok c' -> cg_locked c' = false -> others np c c' ->
  (alive q0 = false -> absent np c') -> (state q0 <> UNUSED -> exists x i, ptab c' !! np = Some x /\ p_cgroup x = Some i) ->
  groups_ok (<[np := q0]> ps) c'.
Proof.
  intros Hg Hq Hok Hlk Hoth Hab Hgr. apply (groups_one ps _ np c); try done.
  - intros j q' Hne. rewrite list_lookup_insert_ne by done. eauto.
  - intros q'. rewrite list_lookup_insert_eq by (by eapply lookup_lt_Some). by intros [= <-].
Qed.

(** A slot that was unused becomes a live child. *)
Lemma child_ok k np q q0 c ns ev px n v v' pid : kst_ok k -> procs k !! np = Some q -> state q = UNUSED ->
  state q0 = RUNNABLE -> p_nsproxy q0 = Some px -> (px < NNAMESPACE)%nat -> child_pid_ns q0 = None -> is_Some (cwd q0) -> is_Some (cwdmount q0) ->
  ns_ok (plus_at px 1 (holders (procs k))) (feeders (procs k)) ns -> pids_grow (nst k) ns ->
  (forall y, holders (procs k) y <> 0 -> pid_ns_of ns y = pid_ns_of (nst k) y) -> pid_ns_of ns px = Some n ->
  pidnstable (nst k) !! n = Some v -> pid = next_pid v -> 1 <= pid -> pidnstable ns !! n = Some v' -> next_pid v < next_pid v' ->
  ns_pid q0 = pid -> head (pids q0) = Some (PidEntry (Some n) pid) -> groups_ok (<[np := q0]> (procs k)) c ->
  kst_ok (at_slot k np q0 c ns ev).
Proof.
  intros Hok Hq Hu Hr Hpx Hlt Hch Hcw Hcm Hns Hgr Hof Hn Hv -> H1 Hv' Hlt' Hpid Hhd Hg.
  assert (alive q = false) as Hd by (unfold alive; by rewrite Hu). assert (alive q0 = true) as Ha0 by (unfold alive; by rewrite Hr).
  apply (kst_change k _ np q q0); try done.
  - apply quiet_all_refl.
  - eapply ns_ok_ext; [| |exact Hns].
    + intros y. rewrite (holders_insert _ _ q) by done. rewrite (holds_live q0 px) by done. unfold holds. rewrite Hd, if_bool_decide. cbn [andb].
      unfold plus_at. case_decide; lia.
    + intros m. rewrite (feeders_insert _ _ q) by done. unfold feeds. rewrite Hd, Hch, andb_false_r. cbn [andb]. lia.
  - intros j q' Hne Hj Ha. split; [|intros m _; apply Hgr]. intros y m Hy Hm. split; [|apply Hgr]. simpl. rewrite Hof; [done|].
    by apply (holder_counted _ j q').
  - rewrite Hpx. by intros x [= <-].
  - by rewrite Hr.
  - intros _. split.
    + exists px, n, v'. split; [done|]. split; [done|]. split; [done|]. split; [done|]. split; [lia|]. split; [by rewrite Hpid|]. split; [by rewrite Hch|done].
    + intros j q' m Hne Hj Ha Hm1 Hm2. destruct (ko_live _ Hok j q' Hj Ha) as (x & m' & w & Hx & _ & Hm' & Hw & Hp' & _).
      unfold own_ns in Hm1, Hm2. rewrite Hx in Hm1. rewrite Hpx in Hm2. simpl in Hm1, Hm2. assert (m' = m) as -> by congruence.
      assert (m = n) as -> by congruence. assert (w = v) as -> by congruence. lia.
Qed.

(** What [fork] leaves: nothing the others can see, or a child in an unused slot. *)
Record forked_child (cur : nat) (q : proc) (k : kst) (r : Z) (k' : kst) (np : nat) (u q0 : proc) : Prop := {
  fc_slot : np <> cur /\ procs k !! np = Some u /\ state u = UNUSED /\ procs k' = <[np := q0]> (procs k);
  fc_child : state q0 = RUNNABLE /\ p_parent q0 = Some cur /\ killed q0 = 0 /\ child_pid_ns q0 = None;
  fc_files : ofile q0 = inherit (ofile q) (ofile u) /\ cwd q0 = cwd q /\ cwdmount q0 = cwdmount q;
  fc_ns : own_ns (nst k') q0 = first_ns (nst k) q;
  fc_pid : r = get_pid_for_ns q0 (own_ns (nst k) q);
  fc_group : (ptab (cgt k') !! np ≫= p_cgroup) = (ptab (cgt k) !! cur ≫= p_cgroup)
}.

Definition forked (cur : nat) (q : proc) (k : kst) (r : Z) (k' : kst) : Prop :=
  r = -1 /\ quiet_step k k' \/ exists np u q0, forked_child cur q k r k' np u q0.

Definition fork_slot (cur : nat) (q : proc) (cd mt px : nat) (es : list pid_entry) (u : proc) : proc :=
  let a := with_ns (Some px) (child_pid_ns u) (with_files (inherit (ofile q) (ofile u)) (Some cd) (Some mt) (with_p_parent (Some cur) (with_mem true true (alloc_slot u)))) in
  let l := es ++ drop (length es) (pids u) in
  with_pids (match l with e :: _ => e_pid e | [] => 0 end) l a.

Lemma okp_slot_oncg {A} E (m : M cgs A) k np a c ns ev Q : okp E m c (fun r c' => Q r (at_slot k np a c' ns ev)) -> okp E (oncg m) (at_slot k np a c ns ev) Q.
Proof. intros H. apply okp_oncg. exact H. Qed.

Lemma okp_slot_onns {A} E (m : M nss A) k np a c ns ev Q : okp E m ns (fun r ns' => Q r (at_slot k np a c ns' ev)) -> okp E (onns m) (at_slot k np a c ns ev) Q.
Proof. intros H. apply okp_onns. exact H. Qed.

(** The new process in the control group of its parent. *)
Lemma fork_group c0 cur np x i cg : cg_ok c0 -> cg_locked c0 = false -> length (ptab c0) = NPROC -> np <> cur -> absent np c0 -> (np < NPROC)%nat ->
  ptab c0 !! cur = Some x -> p_cgroup x = Some i -> cgroups c0 !! i = Some cg -> group_refuses cg (sz x) = false ->
  let c2 := upd_proc np (fun y => Cproc (sz x) (p_cgroup y)) (upd_proc np (fun y => Cproc (sz y) None) c0) in
  get_proc cur c2 = inr (x, c2) /\ exists c', cgroup_insert i np c2 = inr (RESULT_SUCCESS, c') /\ cg_ok c' /\ cg_locked c' = false /\ others np c0 c' /\
    exists y, ptab c' !! np = Some y /\ p_cgroup y = Some i.
Proof.
  intros Hok Hlk Hl Hne Hab Hnp Hx Hi Hc Hr c2. destruct (lookup_lt_is_Some_2 (ptab c0) np) as [y0 Hy0]; [by rewrite Hl|].
  assert (cg_ok (upd_proc np (fun y => Cproc (sz y) None) c0)) as Hok1 by (apply upd_proc_ok; [done|]; intros; by right).
  assert (cg_ok c2) as Hok2 by (apply upd_proc_ok; [done|]; intros; by left).
  assert (ptab c2 !! np = Some (Cproc (sz x) None)) as Hnp2 by (subst c2; simpl; by rewrite !list_lookup_alter_eq, Hy0).
  split; [apply get_proc_run; subst c2; simpl; by rewrite !list_lookup_alter_ne|].
  assert (is_live (cgroups c2) i = true) as Hli by (exact (p_cgroup_live c0 cur x i Hok Hx Hi)).
  destruct (insert_fresh c2 i np cg (Cproc (sz x) None) Hok2 Hlk) as (c' & E & Hok' & Hlk' & Hoth & Hg); try done.
  - subst c2. simpl. by rewrite !length_alter.
  - unfold admits, group_refuses in *. cbn [sz]. by rewrite <- negb_orb, Hr.
  - exists c'. split; [done|]. split; [done|]. split; [done|]. split; [|done]. apply (others_trans np _ c2); [|done].
    exact (othersR_bind np _ (fun _ => _) (othersR_upd_proc np _) (fun _ => othersR_upd_proc np _) c0 tt c2 eq_refl).
Qed.

(** The end of [fork]: the child gets its pid and its group, and can run. *)
Lemma fork_end cur k q np a c c' ns ev old n0 x i : procs k !! cur = Some q -> (np < length (procs k))%nat -> np <> cur ->
  p_nsproxy q = Some old -> pid_ns_of ns old = Some n0 -> get_proc cur c = inr (x, c) -> p_cgroup x = Some i ->
  cgroup_insert i np c = inr (RESULT_SUCCESS, c') ->
  (q ← getp np; pid ← proc_pid cur q; x ← oncg (get_proc cur); i ← deref (p_cgroup x); r ← oncg (cgroup_insert i np);
   match r with
   | RESULT_SUCCESS | RESULT_SUCCESS_OPERATION => modS (upd np (with_state RUNNABLE)) ;; mret pid
   | _ => panic "cant fail because checked earlier by allocproc"
   end) (at_slot k np a c ns ev) = inr (get_pid_for_ns a (Some n0), at_slot k np (with_state RUNNABLE a) c' ns ev).
Proof.
  intros Hq Hnp Hne Hold Hn0 Egp Hi Eins. set (k1 := at_slot k np a c ns ev).
  assert (procs k1 !! np = Some a) as H1 by (by apply list_lookup_insert_eq).
  assert (procs k1 !! cur = Some q) as H2 by (simpl; by rewrite list_lookup_insert_ne).
  rewrite (bind_run _ _ _ _ _ (getp_run k1 np a H1)). unfold proc_pid.
  rewrite (bind_run _ _ _ (get_pid_for_ns a (Some n0)) k1)
    by (rewrite (bind_run _ _ _ _ _ (getp_run k1 cur q H2)); by rewrite (bind_run _ _ _ _ _ (pid_ns_of_proc_run k1 q old n0 Hold Hn0))).
  rewrite (bind_run _ _ _ x k1) by (unfold oncg; simpl; by rewrite Egp). rewrite Hi, (bind_run _ _ _ i k1) by done.
  rewrite (bind_run _ _ _ RESULT_SUCCESS (at_slot k np a c' ns ev)) by (unfold oncg; simpl; by rewrite Eins).
  rewrite modS_bind. by rewrite upd_at_slot.
Qed.

(** The namespace the child gets its first pid in. *)
Lemma fork_first ns px q n k1 : pid_ns_of ns px = Some n -> nst k1 = ns -> match child_pid_ns q with Some m => m = n | None => True end ->
  (match child_pid_ns q with Some m => mret (Some m) | None => p ← onns (get_proxy (Some px)); mret (x_pid_ns p) end) k1 = inr (Some n, k1).
Proof.
  intros Hpx <- Hm. destruct (child_pid_ns q) as [m|]; [by subst|]. unfold pid_ns_of in Hpx.
  destruct (namespacetable (nst k1) !! px) as [p|] eqn:Ep; [|done]. simpl in Hpx.
  rewrite (bind_run _ _ _ p k1); [by rewrite Hpx|]. unfold onns. rewrite (get_proxy_run _ px p Ep). by destruct k1.
Qed.

Lemma fork_child_okp cur k q np u x i cg : kst_ok k -> procs k !! cur = Some q -> alive q = true -> room_for_pids (nst k) ->
  procs k !! np = Some u -> state u = UNUSED -> ptab (cgt k) !! cur = Some x -> p_cgroup x = Some i ->
  cgroups (cgt k) !! i = Some cg -> group_refuses cg (sz x) = false ->
  okp fork_stops (fork_child cur q (sz x) np)
    (at_slot k np (with_mem true true (alloc_slot u)) (upd_proc np (fun y => Cproc (sz y) None) (cgt k)) (nst k) (calls k))
    (fun r k' => kst_ok k' /\ forked cur q k r k').
Proof.
  intros Hok Hq Ha Hroom Hu Hun Hx Hi Hcg Href.
  destruct (ko_live _ Hok cur q Hq Ha) as (old & n0 & v0 & Hold & Hlt & Hn0 & Hv0 & Hpid0 & _ & Hch & [cd Hcd] & [mt Hmt]).
  destruct (holders_small (procs k)) as [Sh Sf]; [rewrite (ko_len _ Hok); unfold NPROC; lia|]. pose proof (ko_groups _ Hok) as Hg.
  assert (np < length (procs k))%nat as Hnl by (by eapply lookup_lt_Some). destruct (ko_unused _ Hok np u Hu Hun) as [Eu Ecu].
  assert (np <> cur) as Hne by (intros ->; assert (u = q) as -> by congruence; unfold alive in Ha; by rewrite Hun in Ha).
  assert (own_ns (nst k) q = Some n0) as Eown by (unfold own_ns; by rewrite Hold).
  assert (exists n v, first_ns (nst k) q = Some n /\ (n < NNAMESPACE)%nat /\ pidnstable (nst k) !! n = Some v /\ 1 <= next_pid v) as (n & v & Hfirst & Hnn & Hv & Hv1).
  { unfold first_ns. destruct (child_pid_ns q) as [m|]; [destruct (Hch m eq_refl) as (? & w & ? & ?); by exists m, w|].
    exists n0, v0. split_and!; try done; [|lia]. rewrite <- (proj1 (proj2 (nk_len _ _ _ (ko_ns _ Hok)))). by eapply lookup_lt_Some. }
  destruct (fork_group (cgt k) cur np x i cg (go_cg _ _ Hg) (go_unlocked _ _ Hg) (go_len _ _ Hg) Hne) as (Egp & c' & Eins & Hok' & Hlk' & Hoth & y & Hy & Hyi);
    try done; [apply (go_absent _ _ Hg np u Hu); unfold alive; by rewrite Hun|by rewrite <- (ko_len _ Hok)|].
  unfold fork_child. apply okp_bind, okp_slot_oncg, okp_modS, okp_bind, okp_upd_slot; [done|].
  apply okp_bind, (okp_deref _ _ cd); [done|]. apply okp_bind, (okp_deref _ _ mt); [done|]. apply okp_bind, okp_modS.
  apply okp_bind. apply (okp_upd_slot _ k np _ _ _ (calls k ++ dup_files (ofile q) ++ [Idup cd; Mntdup mt])); [done|].
  apply okp_bind, (okp_deref _ _ old); [done|]. apply okp_bind, okp_slot_onns.
  eapply okp_mono; [apply (fork_proxy_okp _ _ _ old q (ko_ns _ Hok) Sh Sf); [by apply (holder_counted _ cur q)|done|done|intros m Hm; by apply Hch]|by left|].
  intros px ns1 (Hpx & Hns1 & Hsp & Hpid1 & Hof). rewrite Hfirst in Hpid1. apply okp_bind, okp_upd_slot; [done|].
  apply okp_bind. eapply okp_run; [apply (fork_first ns1 px q n); [done|done|]; unfold first_ns in Hfirst; destruct (child_pid_ns q); [congruence|done]|].
  apply okp_bind, okp_slot_onns. eapply okp_mono; [apply (fork_pids_okp _ _ MAX_PID_NS_DEPTH ns1 (Some n) Hns1)|by intros e ->; right|].
  { by intros m [= <-]. }
  { intros m w Hw. specialize (Hsp m). rewrite Hw in Hsp. simpl in Hsp. symmetry in Hsp. apply fmap_Some in Hsp as (w0 & Hw0 & Ew).
    unfold pid_view in Ew. destruct (Hroom m w0 Hw0). assert (next_pid w = next_pid w0) as -> by congruence. unfold MAX_PID_NS_DEPTH. lia. }
  intros es ns2 (Hns2 & Et & Hgr2 & Hes). pose proof (pids_grow_trans _ _ _ (same_pids_grow _ _ Hsp) Hgr2) as Hgr.
  destruct (same_pids_grow _ _ Hsp n v Hv) as (w1 & Hw1 & _). assert (next_pid w1 = next_pid v) as Ew1
    by (specialize (Hsp n); rewrite Hw1, Hv in Hsp; unfold pid_view in Hsp; simpl in Hsp; congruence).
  destruct (Hes n w1 eq_refl Hw1) as (Hhd & v' & Hv' & Hlt'). rewrite Ew1 in Hhd, Hlt'.
  assert (forall z, pid_ns_of ns2 z = pid_ns_of ns1 z) as E21 by (intros z; unfold pid_ns_of; by rewrite Et).
  apply okp_bind, okp_upd_slot; [done|]. destruct es as [|e es]; [done|]. injection Hhd as ->.
  eapply okp_run; [apply (fork_end cur k q np _ _ c' ns2 _ old n0 x i); try done; rewrite E21, Hof; [done|by apply (holder_counted _ cur q)]|].
  match goal with |- kst_ok (at_slot _ _ ?a _ _ _) /\ _ => set (q0 := a) end. split.
  - refine (child_ok k np u q0 c' ns2 _ px n v v' (next_pid v) Hok Hu Hun eq_refl eq_refl Hpx Ecu (ex_intro _ cd eq_refl) (ex_intro _ mt eq_refl)
      Hns2 Hgr _ _ Hv eq_refl Hv1 Hv' Hlt' eq_refl eq_refl _).
    + intros z Hz. by rewrite E21, Hof.
    + by rewrite E21.
    + apply (slot_groups (procs k) np u _ (cgt k)); try done. intros _. by exists y, i.
  - right. exists np, u, q0. split.
    + done.
    + done.
    + subst q0. simpl. by rewrite Hcd, Hmt.
    + unfold own_ns. subst q0. simpl. by rewrite E21, Hfirst.
    + by rewrite Eown.
    + simpl. rewrite Hy, Hx. simpl. congruence.
Qed.

(** An unused slot stays unused. *)
Lemma unused_quiet q m : state q = UNUSED -> quiet q (with_state UNUSED (with_mem false m (with_killed 0 (with_state EMBRYO q)))).
Proof. intros E. split; try done; simpl; [unfold alive; simpl; by rewrite E|by left]. Qed.

Lemma fork_fails k np u : kst_ok k -> procs k !! np = Some u -> state u = UNUSED ->
  let k' := at_slot k np (with_state UNUSED (with_mem false false (alloc_slot u))) (upd_proc np (fun y => Cproc (sz y) None) (cgt k)) (nst k) (calls k) in
  kst_ok k' /\ quiet_step k k'.
Proof.
  intros Hok Hu Hun k'. pose proof (ko_groups _ Hok) as Hg. assert (absent np (cgt k)) as Hab by (apply (go_absent _ _ Hg np u Hu); unfold alive; by rewrite Hun).
  assert (quiet_step k k') as Hst; [|split; [by apply (quiet_step_ok k)|done]].
  assert (Forall2 quiet (procs k) (procs k')) as HQ.
  { subst k'. simpl. rewrite <- (alter_insert (fun _ => with_state UNUSED (with_mem false false (alloc_slot u))) _ _ u Hu). apply quiet_alter.
    intros q' Hq'. assert (q' = u) as -> by congruence. split; try done; simpl; [unfold alive; simpl; by rewrite Hun|by left]. }
  split; [done|]. split; [done|]. split; [done|]. subst k'. simpl. apply (slot_groups (procs k) np u _ (cgt k)); try done; [|apply Hg|].
  - apply upd_proc_ok; [apply Hg|]. intros y _. by right.
  - exact (othersR_upd_proc np _ (cgt k) tt _ eq_refl).
Qed.

Lemma fork_okp ka cu cur k q : kst_ok k -> procs k !! cur = Some q -> alive q = true -> room_for_pids (nst k) ->
  okp fork_stops (fork ka cu cur) k (fun r k' => kst_ok k' /\ forked cur q k r k').
Proof.
  intros Hok Hq Ha Hroom. pose proof (ko_groups _ Hok) as Hg.
  destruct (ko_live _ Hok cur q Hq Ha) as (old & n0 & v0 & Hold & Hlt & Hn0 & Hv0 & Hpid0 & _ & Hch & _).
  assert (kst_ok k /\ forked cur q k (-1) k) as Hsame by (split; [done|left; split; [done|by apply quiet_step_refl]]).
  destruct (go_group _ _ Hg cur q Hq) as (x & i & Hx & Hi); [intros E; unfold alive in Ha; by rewrite E in Ha|].
  destruct (live_in (cgt k) i (go_cg _ _ Hg) (p_cgroup_live _ cur x i (go_cg _ _ Hg) Hx Hi)) as (cg & Hcg & _).
  unfold fork. apply okp_bind, (okp_getp _ cur q); [done|]. apply okp_bind.
  apply (okp_mono (fun _ => False) _ _ _ (fun _ k' => k' = k)); [|done|].
  { destruct (child_pid_ns q) as [m|]; [|done]. destruct (Hch m eq_refl) as (_ & w & Hw & _). apply okp_bind, okp_onns.
    eapply okp_run; [exact (get_pid_ns_run _ m w Hw)|]. apply okp_ret. by destruct k. }
  intros dead k' ->. destruct dead; [done|]. apply okp_bind. eapply (okp_run _ _ _ x k); [unfold oncg; rewrite (get_proc_run _ _ _ Hx); by destruct k|].
  apply okp_bind, (okp_deref _ _ i); [done|]. apply okp_bind. eapply (okp_run _ _ _ cg k); [unfold oncg; rewrite (get_cg_run _ _ _ Hcg); by destruct k|].
  destruct (group_refuses cg (sz x)) eqn:Er; [done|]. pose proof (allocproc_run ka k) as Hal.
  destruct (list_find _ (procs k)) as [[np u]|]; [|apply okp_bind, (okp_run _ _ _ _ _ _ Hal); done].
  destruct Hal as (Hu & Hun & Hal). assert (np < length (procs k))%nat as Hnl by (by eapply lookup_lt_Some). destruct ka.
  - apply okp_bind, (okp_run _ _ _ _ _ _ Hal). destruct cu; apply okp_bind.
    + apply (okp_upd_slot _ k np (alloc_slot u)); [done|]. by apply (fork_child_okp cur k q np u x i cg).
    + apply (okp_upd_slot _ k np (alloc_slot u)); [done|]. destruct (fork_fails k np u Hok Hu Hun) as [H1 H2]. split; [done|by left].
  - apply okp_bind, (okp_run _ _ _ _ _ _ Hal). set (k' := upd np _ k).
    assert (quiet_step k k') as Hst by (apply quiet_step_upd; [done|]; intros q' Hq'; assert (q' = u) as -> by congruence; by apply unused_quiet).
    split; [by apply (quiet_step_ok k)|by left].
Qed.

(** ** Moves between groups *)
Lemma insert_okp k p q i : groups_ok (procs k) (cgt k) -> is_live (cgroups (cgt k)) i = true -> procs k !! p = Some q -> alive q = true ->
  okp (fun _ => False) (oncg (unsafe_cgroup_insert i p)) k (fun r k' =>
    quiet_step k k' /\ procs k' = procs k /\ (r <> RESULT_SUCCESS -> is_live (cgroups (cgt k')) i = true)).
Proof.
  intros Hg Hli Hp Ha. assert (state q <> UNUSED) as Hs by (intros E; unfold alive in Ha; by rewrite E in Ha).
  destruct (go_group _ _ Hg p q Hp Hs) as (x & j & Hx & Hj). destruct (live_in (cgt k) i (go_cg _ _ Hg) Hli) as (c & Hc & _).
  destruct (insert_run (cgt k) i p c x (go_cg _ _ Hg) Hli Hc Hx) as (r & c' & E & _ & Hok' & Hlk' & Hr & Herr & Hsuc).
  eapply (okp_run _ _ _ r); [unfold oncg; rewrite E; reflexivity|]. split; [|split; [done|]].
  2:{ destruct Hr as [-> | ->]; [done|]. intros _. simpl. by rewrite (is_live_inert (cgt k) c' i (Herr eq_refl)). }
  split; [apply quiet_all_refl|]. split; [done|]. split; [done|]. simpl.
  apply (groups_one (procs k) _ p (cgt k)); try done; [eauto|by rewrite Hlk'; apply Hg|exact (insert_others i p _ _ _ E)|].
  intros q' Hq'. assert (q' = q) as -> by congruence. split; [congruence|]. intros _. destruct Hr as [-> | ->].
  - destruct (Hsuc eq_refl) as (x' & _ & _ & ? & ? & _). by exists x', i.
  - destruct (Herr eq_refl) as (_ & _ & -> & _). by exists x, j.
Qed.

Lemma move_proc_okp cur i pid q ps : forall k, kst_ok k -> procs k !! cur = Some q -> alive q = true -> is_live (cgroups (cgt k)) i = true ->
  (forall p, p ∈ ps -> (p < length (procs k))%nat) -> okp (fun _ => False) (move_proc ps cur i pid) k (fun _ k' => kst_ok k').
Proof.
  induction ps as [|p ps IH]; intros k Hok Hq Ha Hli Hl; [done|].
  destruct (lookup_lt_is_Some_2 (procs k) p (Hl p (list_elem_of_here _ _))) as [qp Hp]. cbn [move_proc].
  apply okp_bind, (okp_getp _ p qp); [done|]. destruct (own_ns_live k cur q Hok Hq Ha) as (x & n & _ & _ & _ & _ & E).
  apply okp_bind. eapply (okp_run _ _ _ (get_pid_for_ns qp (Some n)) k).
  { unfold proc_pid. rewrite (bind_run _ _ _ _ _ (getp_run k cur q Hq)). by rewrite (bind_run _ _ _ _ _ E). }
  assert (okp (fun _ => False) (move_proc ps cur i pid) k (fun _ k' => kst_ok k')) as Hrest by (apply IH; try done; intros j Hj; apply Hl; by right).
  destruct (_ && _) eqn:Eb; [|done]. apply andb_true_iff in Eb as [_ Hs%bool_decide_eq_true]. apply okp_bind.
  eapply okp_mono; [apply (insert_okp k p qp i (ko_groups _ Hok) Hli Hp)|done|].
  { unfold alive. destruct Hs as [-> |[-> | ->]]; done. }
  intros r k' (Hst & Ep & Hr). case_decide as Er; [by apply (quiet_step_ok k)|]. apply IH; [by apply (quiet_step_ok k)|congruence|done|by apply Hr|].
  intros j Hj. rewrite Ep. apply Hl. by right.
Qed.

(** ** Starting up *)
Definition unused_proc : proc := Proc UNUSED 0 None None 0 no_pids None None 0 false false (replicate NOFILE None) None None no_acct.

(** The tables before [userinit]: nothing is used but the root mount namespace. *)
Definition boot_ns : nss := Nss (replicate NNAMESPACE (Nsproxy 0 None None)) (replicate NNAMESPACE (PidNs 0 None 0 0)) (1 :: replicate (pred NNAMESPACE) 0) [].
Definition boot (h : kheap) : kst := Kst (replicate NPROC unused_proc) None (boot_table h) boot_ns [].

Lemma boot_ns_init : mount_nsinit (Nss (replicate NNAMESPACE (Nsproxy 0 None None)) (replicate NNAMESPACE (PidNs 0 None 0 0)) (replicate NNAMESPACE 0) []) = inr (tt, boot_ns).
Proof. vm_compute. reflexivity. Qed.

(** The tables after [userinit]. *)
Definition init_ns : nss :=
  Nss (Nsproxy 1 (Some 0%nat) (Some 0%nat) :: replicate (pred NNAMESPACE) (Nsproxy 0 None None))
    (PidNs 1 None 2 0 :: replicate (pred NNAMESPACE) (PidNs 0 None 0 0)) (1 :: replicate (pred NNAMESPACE) 0) [].
Definition init_slot (cd mt : nat) : proc :=
  Proc RUNNABLE 0 None None 1 (PidEntry (Some 0%nat) 1 :: replicate 3 (PidEntry None 0)) (Some 0%nat) None 0 true true (replicate NOFILE None) (Some cd) (Some mt) no_acct.
Definition init_cg (h : kheap) : cgs := upd_proc 0 (fun x => Cproc PGSIZE (p_cgroup x)) (upd_proc 0 (fun x => Cproc (sz x) None) (booted h)).

Lemma booted_init h : cgroup_initialize [] cgroup_root [] None (boot_table h) = inr (tt, booted h).
Proof. vm_compute. reflexivity. Qed.

Lemma init_insert h : exists c', cgroup_insert cgroup_root 0 (init_cg h) = inr (RESULT_SUCCESS, c') /\ cg_ok c' /\ cg_locked c' = false /\
  length (ptab c') = NPROC /\ (forall p, p <> 0%nat -> absent p c') /\ exists x, ptab c' !! 0%nat = Some x /\ p_cgroup x = Some 0%nat.
Proof.
  assert (forall p, absent p (booted h)) as Hab.
  { intros p j c k Hc. rewrite (boot_procs (booted h) (boot_slot h) j c Hc). by intros [? _]%lookup_replicate_1. }
  assert (cg_ok (init_cg h)) as Hok.
  { apply upd_proc_ok; [|intros; by left]. apply upd_proc_ok; [exact (booted_ok h)|]. intros x _. by right. }
  assert (others 0 (booted h) (init_cg h)) as Ho.
  { exact (othersR_bind 0 _ (fun _ => _) (othersR_upd_proc 0 _) (fun _ => othersR_upd_proc 0 _) (booted h) tt _ eq_refl). }
  assert (cg_locked (init_cg h) = false /\ length (ptab (init_cg h)) = NPROC /\ is_live (cgroups (init_cg h)) cgroup_root = true /\
    cgroups (init_cg h) !! cgroup_root = Some boot_root /\ ptab (init_cg h) !! 0%nat = Some (Cproc PGSIZE None) /\
    admits boot_root (Cproc PGSIZE None) = true) as (F1 & F2 & F3 & F4 & F5 & F6).
  { unfold init_cg. rewrite booted_table. vm_compute. repeat split. }
  destruct (insert_fresh (init_cg h) cgroup_root 0 boot_root (Cproc PGSIZE None) Hok F1 F2 F3 F4 F5 eq_refl F6) as (c' & E & Hok' & Hlk' & [Hl Hoth] & Hg).
  exists c'. split; [done|]. split; [done|]. split; [done|]. split; [by rewrite Hl|]. split; [|done].
  intros p Hp. apply (Hoth p Hp), (proj2 Ho p Hp), Hab.
Qed.

Definition init_procs (cd mt : nat) : list proc := init_slot cd mt :: replicate (pred NPROC) unused_proc.

Lemma userinit_run cd mt h c' : cgroup_insert cgroup_root 0 (init_cg h) = inr (RESULT_SUCCESS, c') ->
  userinit cd mt (boot h) = inr (tt, Kst (init_procs cd mt) (Some 0%nat) c' init_ns []).
Proof.
  intros E. unfold userinit. eapply bind_run'.
  { unfold oncg. change (cgt (boot h)) with (boot_table h). rewrite booted_init. reflexivity. }
  set (b := booted h). change (init_cg h) with (upd_proc 0 (fun x => Cproc PGSIZE (p_cgroup x)) (upd_proc 0 (fun x => Cproc (sz x) None) b)) in E.
  clearbody b. unfold oncg. mrun. simpl. rewrite E. reflexivity.
Qed.

Lemma cons_replicate {A} (a b x : A) n i : (a :: replicate n b) !! i = Some x -> i = 0%nat /\ x = a \/ i <> 0%nat /\ x = b.
Proof. destruct i as [|i]; simpl; [intros [= ->]; by left|]. intros [-> _]%lookup_replicate_1. by right. Qed.

Lemma count_replicate {A} (P : A -> bool) n b : P b = false -> count P (replicate n b) = 0%nat.
Proof. intros H. apply count_none. intros x [-> _]%elem_of_replicate. done. Qed.

Lemma init_ns_ok : ns_ok (plus_at 0 1 (fun _ => 0)) (fun _ => 0) init_ns.
Proof.
  assert (forall m, count (px_mount m) (namespacetable init_ns) = if decide (m = 0%nat) then 1%nat else 0%nat) as Cm.
  { intros m. unfold init_ns. cbn [namespacetable]. rewrite count_cons, count_replicate by done. unfold px_mount. simpl.
    case_bool_decide as E; case_decide; try done; [destruct E; congruence|subst; by destruct E]. }
  assert (forall n, count (px_pid n) (namespacetable init_ns) = if decide (n = 0%nat) then 1%nat else 0%nat) as Cn.
  { intros m. unfold init_ns. cbn [namespacetable]. rewrite count_cons, count_replicate by done. unfold px_pid. simpl.
    case_bool_decide as E; case_decide; try done; [destruct E; congruence|subst; by destruct E]. }
  split.
  - done.
  - intros x px [[-> ->]|[Hx ->]]%cons_replicate; unfold plus_at; [done|by rewrite decide_False].
  - intros x px [[-> ->]|[Hx ->]]%cons_replicate Hr; [|done]. exists 0%nat, 0%nat. unfold NNAMESPACE. split_and!; done || lia.
  - intros n ns [[-> ->]|[Hx ->]]%cons_replicate; rewrite Cn; [done|by rewrite decide_False].
  - intros m r [[-> ->]|[Hx ->]]%cons_replicate; rewrite Cm; [done|by rewrite decide_False].
  - by intros n ns p [[-> ->]|[Hx ->]]%cons_replicate.
Qed.

Lemma init_ok cd mt h : exists k, userinit cd mt (boot h) = inr (tt, k) /\ kst_ok k /\ initproc k = Some 0%nat.
Proof.
  destruct (init_insert h) as (c' & E & Hok & Hlk & Hlen & Hab & x & Hx & Hi). eexists. split; [exact (userinit_run cd mt h c' E)|]. split; [|done].
  split; cbn [procs nst cgt].
  - done.
  - eapply ns_ok_ext; [| |exact init_ns_ok]; intros y; unfold holders, feeders, init_procs; rewrite count_cons, count_replicate by done.
    + unfold plus_at, holds. simpl. case_bool_decide as Ey; case_decide; try done; congruence.
    + done.
  - intros p q [[-> ->]|[Hp ->]]%cons_replicate Ha; [|done]. exists 0%nat, 0%nat, (PidNs 1 None 2 0). unfold NNAMESPACE. simpl.
    split_and!; try done; try lia; by eexists.
  - intros p p' q q' [[-> ->]|[Hp ->]]%cons_replicate [[-> ->]|[Hp' ->]]%cons_replicate; done.
  - by intros p q [[-> ->]|[Hp ->]]%cons_replicate.
  - intros p q y [[-> ->]|[Hp ->]]%cons_replicate; [|done]. intros [= <-]. unfold NNAMESPACE. lia.
  - split; try done.
    + intros p q [[-> ->]|[Hp ->]]%cons_replicate Ha; [done|by apply Hab].
    + intros p q [[-> ->]|[Hp ->]]%cons_replicate Hs; [by exists x, 0%nat|done].
Qed.

(** ** Reachable states *)
Definition running (k : kst) (cur : nat) (q : proc) : Prop := procs k !! cur = Some q /\ state q = RUNNING.

Section reach.
Context (null_pid_ns : option nat).

(** One operation that returns: of a running process, of a processor that takes a runnable one, or of the groups. *)
Inductive pstep (k : kst) : kst -> Prop :=
| ps_fork ka cu cur q r k' : running k cur q -> room_for_pids (nst k) -> fork ka cu cur k = inr (r, k') -> pstep k k'
| ps_exit st cur q k' : running k cur q -> exit null_pid_ns st cur k = inr (tt, k') -> pstep k k'
| ps_wait cur q r k' : running k cur q -> wait cur k = inr (r, k') -> pstep k k'
| ps_kill cur q pid r k' : running k cur q -> pid <> 0 -> kill cur pid k = inr (r, k') -> pstep k k'
| ps_sleep cur q c k' : running k cur q -> sleep c cur k = inr (tt, k') -> pstep k k'
| ps_wakeup c k' : wakeup c k = inr (tt, k') -> pstep k k'
| ps_yield cur q k' : running k cur q -> yield cur k = inr (tt, k') -> pstep k k'
| ps_unshare t cur q r k' : running k cur q -> sys_unshare t cur k = inr (r, k') -> pstep k k'
| ps_move cur q i pid r k' : running k cur q -> is_live (cgroups (cgt k)) i = true -> cgroup_move_proc cur i pid k = inr (r, k') -> pstep k k'
| ps_run p q : procs k !! p = Some q -> state q = RUNNABLE -> pstep k (upd p (with_state RUNNING) k)
| ps_wakes cur q k' : running k cur q -> sleep_return cur k = inr (tt, k') -> pstep k k'
| ps_groups c : inert (cgt k) c -> pstep k (Kst (procs k) (initproc k) c (nst k) (calls k)).

Definition reachable (h : kheap) (cd mt : nat) (k : kst) : Prop := exists k0, userinit cd mt (boot h) = inr (tt, k0) /\ rtc pstep k0 k.

Lemma running_alive k cur q : running k cur q -> procs k !! cur = Some q /\ alive q = true.
Proof. intros [Hq Hs]. split; [done|]. unfold alive. by rewrite Hs. Qed.

Lemma okp_ok {A} E (m : M kst A) k r k' (Q : A -> kst -> Prop) : okp E m k Q -> m k = inr (r, k') -> Q r k'.
Proof. unfold okp. intros H Em. by rewrite Em in H. Qed.

Lemma inert_groups ps c c' : groups_ok ps c -> inert c c' -> groups_ok ps c'.
Proof.
  intros [G1 G2 G3 G4 G5] Hi. pose proof Hi as (_ & El & Ep & H). split; [by apply (inert_ok c)|congruence|congruence| |].
  - intros p q Hq Ha j d k Hd Hk. destruct (H j d Hd) as (d0 & Hd0 & (_ & E & _)%core_fields). apply (G4 p q Hq Ha j d0 k Hd0). congruence.
  - intros p q Hq Hs. rewrite Ep. by apply (G5 p q).
Qed.

Lemma upd_alive_ok k cur q f : kst_ok k -> procs k !! cur = Some q -> quiet q (f q) -> kst_ok (upd cur f k).
Proof. intros Hok Hq Hf. apply upd_quiet_ok; [done|]. intros q' Hq'. by assert (q' = q) as -> by congruence. Qed.

Lemma seq_slots k : kst_ok k -> forall p, p ∈ seq 0 NPROC -> (p < length (procs k))%nat.
Proof. intros Hok p [_ Hp]%elem_of_seq. rewrite (ko_len _ Hok). lia. Qed.

Lemma cgroup_move_eq : cgroup_move_proc = move_proc (seq 0 NPROC).
Proof. reflexivity. Qed.

Lemma pstep_ok k k' : kst_ok k -> pstep k k' -> kst_ok k'.
Proof.
  intros Hok [ka cu cur q r k1 Hr Hroom E|st cur q k1 Hr E|cur q r k1 Hr E|cur q pid r k1 Hr Hp E|cur q c k1 Hr E|c k1 E|cur q k1 Hr E|t cur q r k1 Hr E
    |cur q i pid r k1 Hr Hl E|p q Hq Hs|cur q k1 Hr E|c Hi]; try destruct (running_alive _ _ _ Hr) as [Hq Ha].
  - apply (okp_ok _ _ _ _ _ _ (fork_okp ka cu cur k q Hok Hq Ha Hroom) E).
  - exact (okp_ok _ _ _ _ _ _ (exit_okp null_pid_ns st cur k q Hok Hq Ha) E).
  - destruct (wait_run k cur q Hok Hq Ha) as (r' & k2 & E' & Hst). assert (k2 = k1) as -> by congruence. by apply (quiet_step_ok k).
  - destruct (kill_run k cur q pid Hok Hq Ha Hp) as (r' & k2 & E' & Hst). assert (k2 = k1) as -> by congruence. by apply (quiet_step_ok k).
  - injection E as <-. apply (upd_alive_ok k cur q); [done|done|]. by apply sleeping_quiet.
  - injection E as <-. by apply wakeup1_ok.
  - unfold yield in E. rewrite modS_bind in E.
    rewrite (sched_zombie _ cur (with_state RUNNABLE q)) in E by (done || simpl; by rewrite list_lookup_alter_eq, Hq). injection E as <-.
    apply (upd_alive_ok k cur q); [done|done|]. by apply alive_state.
  - exact (okp_ok _ _ _ _ _ _ (sys_unshare_okp t cur k q Hok Hq Ha) E).
  - rewrite cgroup_move_eq in E. exact (okp_ok _ _ _ _ _ _ (move_proc_okp cur i pid q (seq 0 NPROC) k Hok Hq Ha Hl (seq_slots k Hok)) E).
  - apply (upd_alive_ok k p q); [done|done|]. apply alive_state; [unfold alive; by rewrite Hs|done|done].
  - injection E as <-. apply (upd_alive_ok k cur q); [done|done|]. apply quiet_chan.
  - apply (kst_quiet k); [done|apply quiet_all_refl|done|]. apply (inert_groups _ (cgt k)); [apply Hok|done].
Qed.

Lemma reachable_ok h cd mt k : reachable h cd mt k -> kst_ok k.
Proof.
  intros (k0 & E & Hst). destruct (init_ok cd mt h) as (k1 & E1 & Hok & _). assert (k1 = k0) as -> by congruence. clear E E1.
  induction Hst as [k|k1 k2 k3 Hs _ IH]; [done|]. apply IH. by apply (pstep_ok k1).
Qed.

Lemma reachable_step h cd mt k k' : reachable h cd mt k -> pstep k k' -> reachable h cd mt k'.
Proof. intros (k0 & E & Hst) Hs. exists k0. split; [done|]. by eapply rtc_r. Qed.

End reach.

(** ** Properties *)


Lemma first_pid q n pid : head (pids q) = Some (PidEntry (Some n) pid) -> get_pid_for_ns q (Some n) = pid.
Proof. unfold get_pid_for_ns. destruct (pids q) as [|e es]; [done|]. intros [= ->]. simpl. by rewrite decide_True. Qed.


(** What [wait] and [kill] return. *)
Definition is_child (cur : nat) (z : proc) : Prop := p_parent z = Some cur.
Definition no_zombie (cur : nat) (k : kst) : Prop := forall p z, procs k !! p = Some z -> is_child cur z -> state z <> ZOMBIE.
Definition wait_outcome (cur : nat) (q : proc) (k : kst) (r : wait_result) (k' : kst) : Prop :=
  match r with
  | Reaped pid st => exists p z, procs k !! p = Some z /\ is_child cur z /\ state z = ZOMBIE /\ pid = get_pid_for_ns z (own_ns (nst k) q) /\
      st = W_STOPCODE (status z) /\ k' = upd p reap k
  | NoChild => k' = k /\ no_zombie cur k /\ (killed q <> 0 \/ forall p z, procs k !! p = Some z -> ~ is_child cur z)
  | Sleeps => k' = upd cur (fun p => with_state SLEEPING (with_chan (Some (ChanProc cur)) p)) k /\ no_zombie cur k /\ killed q = 0 /\
      exists p z, procs k !! p = Some z /\ is_child cur z
  end.

Lemma wait_spec k cur q : kst_ok k -> procs k !! cur = Some q -> alive q = true -> exists r k', wait cur k = inr (r, k') /\ wait_outcome cur q k r k'.
Proof.
  intros Hok Hq Ha. destruct (own_ns_live k cur q Hok Hq Ha) as (x & n & _ & _ & Eo & _ & E).
  unfold wait. rewrite (bind_run _ _ _ _ _ (getp_run k cur q Hq)), (bind_run _ _ _ _ _ (getS_run k)).
  destruct (list_find _ (procs k)) as [[p z]|] eqn:Ef.
  { apply list_find_Some in Ef as (Hp & [Hc Hz] & _). rewrite (bind_run _ _ _ _ _ E). eexists _, _. split; [reflexivity|]. exists p, z. rewrite Eo. done. }
  assert (no_zombie cur k) as Hnz.
  { intros p z Hp Hc Hz. apply list_find_None in Ef. rewrite Forall_lookup in Ef. by apply (Ef p z Hp). }
  destruct (_ || _) eqn:Eb.
  - exists NoChild, k. split; [done|]. split; [done|]. split; [done|]. apply orb_true_iff in Eb as [Hn%bool_decide_eq_true|Hk].
    + right. rewrite Forall_lookup in Hn. exact Hn.
    + left. apply negb_true_iff in Hk. lia.
  - apply orb_false_iff in Eb as [Hn%bool_decide_eq_false Hk%negb_false_iff]. set (k1 := upd cur (fun p => with_state SLEEPING (with_chan (Some (ChanProc cur)) p)) k). exists Sleeps, k1. split.
    { unfold sleep. rewrite modS_bind. rewrite (bind_run _ _ _ tt k1); [done|].
      apply (sched_zombie _ cur (with_state SLEEPING (with_chan (Some (ChanProc cur)) q))); [simpl; by rewrite list_lookup_alter_eq, Hq|done]. }
    split; [done|]. split; [done|]. split; [lia|]. apply not_Forall_Exists in Hn; [|apply _]. apply Exists_exists in Hn as (z & (p & Hp)%list_elem_of_lookup & Hz).
    exists p, z. split; [done|]. unfold is_child. destruct (decide (p_parent z = Some cur)); [done|]. by destruct Hz.
Qed.

Definition kill_outcome (cur : nat) (q : proc) (pid : Z) (k : kst) (r : Z) (k' : kst) : Prop :=
  r = -1 /\ k' = k /\ (forall p z, procs k !! p = Some z -> get_pid_for_ns z (own_ns (nst k) q) <> pid) \/
  r = 0 /\ exists p z, procs k !! p = Some z /\ get_pid_for_ns z (own_ns (nst k) q) = pid /\ procs k' = alter (slot_killed (p_parent z)) p (procs k) /\ absent p (cgt k').

Lemma kill_spec k cur q pid : kst_ok k -> procs k !! cur = Some q -> alive q = true -> pid <> 0 ->
  exists r k', kill cur pid k = inr (r, k') /\ kill_outcome cur q pid k r k'.
Proof.
  intros Hok Hq Ha Hpid. destruct (own_ns_live k cur q Hok Hq Ha) as (x & n & _ & _ & Eo & _ & E). pose proof (ko_groups _ Hok) as Hg.
  unfold kill. rewrite (bind_run _ _ _ _ _ (getp_run k cur q Hq)), (bind_run _ _ _ _ _ E), (bind_run _ _ _ _ _ (getS_run k)).
  destruct (list_find _ (procs k)) as [[p z]|] eqn:Ef.
  - apply list_find_Some in Ef as (Hp & Epid & _). destruct (go_group _ _ Hg p z Hp) as (y & i & Hy & Hi).
    { intros Hu. destruct (ko_unused _ Hok p z Hp Hu) as [Ep _]. by rewrite (unused_pid z _ Ep) in Epid. }
    destruct (leave_cgroup_run (cgt k) p y i (go_cg _ _ Hg) (go_unlocked _ _ Hg) Hy Hi) as (c' & Ec & _ & _ & _ & Hab & _).
    exists 0, (Kst (alter (slot_killed (p_parent z)) p (procs k)) (initproc k) c' (nst k) (calls k)). split.
    { rewrite (bind_run _ _ _ tt (Kst (alter (slot_killed (p_parent z)) p (procs k)) (initproc k) c' (nst k) (calls k))); [done|].
      unfold kill_proc. rewrite modS_bind. unfold oncg. simpl. by rewrite Ec. }
    right. split; [done|]. exists p, z. rewrite Eo. done.
  - exists (-1), k. split; [done|]. left. split; [done|]. split; [done|]. rewrite Eo. apply list_find_None in Ef. rewrite Forall_lookup in Ef. exact Ef.
Qed.

Lemma okp_reach {A} nul h cd mt E (m : M kst A) k (Q : A -> kst -> Prop) : reachable nul h cd mt k -> okp E m k Q ->
  (forall r k', m k = inr (r, k') -> pstep nul k k') -> okp E m k (fun r k' => Q r k' /\ reachable nul h cd mt k').
Proof. intros Hr H Hs. unfold okp in *. destruct (m k) as [e|[r k']] eqn:Em; [done|]. split; [done|]. by apply (reachable_step _ _ _ _ k), (Hs r). Qed.


(** ** Runs *)
Module ProcDemo.

Definition next {A} (m : M kst A) (k : kst) : kst := match m k with inr (_, k') => k' | inl _ => k end.
Definition run (p : nat) : M kst unit := modS (upd p (with_state RUNNING)).

(** [init] runs, forks, and its child in slot 1 runs. *)
Definition d0 : kst := next (userinit 7 8) (boot demo_heap).
Definition d1 : kst := next (run 0) d0.
Definition d2 : kst := next (fork true true 0) d1.
Definition d3 : kst := next (run 1) d2.

Lemma d3_reachable nul : reachable nul demo_heap 7 8 d3.
Proof.
  exists d0. split; [vm_compute; reflexivity|].
  apply (rtc_l _ _ d1); [apply (ps_run nul d0 0 (init_slot 7 8)); vm_compute; reflexivity|].
  apply (rtc_l _ _ d2); [|apply rtc_once].
  - eapply (ps_fork nul d1 true true 0); [split; [vm_compute; reflexivity|reflexivity]| |vm_compute; reflexivity].
    assert (nst d1 = init_ns) as E by (vm_compute; reflexivity). rewrite E. intros n v [[_ ->]|[_ ->]]%cons_replicate; cbn [next_pid]; lia.
  - eapply (ps_run nul d2 1); vm_compute; reflexivity.
Qed.


Definition child : proc := default unused_proc (procs d3 !! 1%nat).



(** Process 1 makes a pid namespace and process 2 in it; process 2 makes a nested one and process 3 in that, and exits; process 1
    reaps it and exits.  The first namespace has no reference left, but it is the parent of the second one. *)
Definition e1 : kst := next (sys_unshare PID_NS 1) d3.
Definition e2 : kst := next (fork true true 1) e1.
Definition e3 : kst := next (run 2) e2.
Definition e4 : kst := next (sys_unshare PID_NS 2) e3.
Definition e5 : kst := next (fork true true 2) e4.
Definition e6 : kst := next (exit None 0 2) e5.
Definition e7 : kst := next (wait 1) e6.
Definition e8 : kst := next (exit None 0 1) e7.
Definition e9 : kst := next (run 3) e8.
Definition e10 : kst := next (sys_unshare PID_NS 3) e9.

Definition pids_below (b : Z) (ns : nss) : bool := forallb (fun v => (next_pid v + 4 <? b) && (- b <=? next_pid v)) (pidnstable ns).

Lemma pids_below_room ns : pids_below (2 ^ 31) ns = true -> room_for_pids ns.
Proof.
  unfold pids_below. rewrite forallb_forall. intros H n v Hv. specialize (H v (proj1 (list_elem_of_In _ _) (list_elem_of_lookup_2 _ _ _ Hv))).
  apply andb_true_iff in H as [H1 H2]. lia.
Qed.

Lemma e10_reachable : reachable None demo_heap 7 8 e10.
Proof.
  pose proof (d3_reachable None) as H.
  apply (fun H => reachable_step None demo_heap 7 8 _ e1 H) in H; [|eapply (ps_unshare None d3 PID_NS 1); [split|]; vm_compute; reflexivity].
  apply (fun H => reachable_step None demo_heap 7 8 _ e2 H) in H;
    [|eapply (ps_fork None e1 true true 1); [split; vm_compute; reflexivity|apply pids_below_room; vm_compute; reflexivity|vm_compute; reflexivity]].
  apply (fun H => reachable_step None demo_heap 7 8 _ e3 H) in H; [|eapply (ps_run None e2 2); vm_compute; reflexivity].
  apply (fun H => reachable_step None demo_heap 7 8 _ e4 H) in H; [|eapply (ps_unshare None e3 PID_NS 2); [split|]; vm_compute; reflexivity].
  apply (fun H => reachable_step None demo_heap 7 8 _ e5 H) in H;
    [|eapply (ps_fork None e4 true true 2); [split; vm_compute; reflexivity|apply pids_below_room; vm_compute; reflexivity|vm_compute; reflexivity]].
  apply (fun H => reachable_step None demo_heap 7 8 _ e6 H) in H; [|eapply (ps_exit None e5 0 2); [split|]; vm_compute; reflexivity].
  apply (fun H => reachable_step None demo_heap 7 8 _ e7 H) in H; [|eapply (ps_wait None e6 1); [split|]; vm_compute; reflexivity].
  apply (fun H => reachable_step None demo_heap 7 8 _ e8 H) in H; [|eapply (ps_exit None e7 0 1); [split|]; vm_compute; reflexivity].
  apply (fun H => reachable_step None demo_heap 7 8 _ e9 H) in H; [|eapply (ps_run None e8 3); vm_compute; reflexivity].
  apply (fun H => reachable_step None demo_heap 7 8 _ e10 H) in H; [|eapply (ps_unshare None e9 PID_NS 3); [split|]; vm_compute; reflexivity].
  exact H.
Qed.

(** C32: A pid namespace does not hold a reference to its parent.  There is a reachable state, with four processes in all, in which
    a namespace was freed and given out again as the child of its own child: the two are parents of each other, and the [fork] of
    the process that holds them panics with "too many danif!" although only two namespaces besides the root's are in use. *)
Theorem pid_ns_parent_reused : exists k q v1 v2, reachable None demo_heap 7 8 k /\ running k 3 q /\
  pidnstable (nst k) !! 1%nat = Some v1 /\ n_parent v1 = Some 2%nat /\ pidnstable (nst k) !! 2%nat = Some v2 /\ n_parent v2 = Some 1%nat /\
  fork true true 3 k = inl (Panic "too many danif!").
Proof.
  exists e10. eexists _, _, _. split; [exact e10_reachable|]. split; [split|]; [vm_compute; reflexivity|vm_compute; reflexivity|].
  split; [vm_compute; reflexivity|]. split; [reflexivity|]. split; [vm_compute; reflexivity|]. split; [reflexivity|]. vm_compute. reflexivity.
Qed.

(** Process 2 is pid 1 of a namespace; it reaps its child 3 and exits while its child 4 is alive.  The unused slot 3 still has the
    proxy of the namespace, so [kill_all_pid_ns] makes process 1 its parent.  Process 1 then reaps 2 and 4. *)
Definition g3 : kst := next (run 4) (next (run 3) (next (fork true true 2) (next (fork true true 2) e3))).
Definition g4 : kst := next (exit None 0 2) (next (wait 2) (next (exit None 0 3) g3)).
Definition g5 : kst := next (wait 1) (next (exit None 0 4) (next (wait 1) g4)).

(** Then [wait] of process 1 goes to sleep although every slot with process 1 as parent is unused: nothing will wake it up. *)
Lemma wait_sleeps_without_children : wait 1 g5 = inr (Sleeps, next (wait 1) g5) /\
  Forall (fun z => p_parent z = Some 1%nat -> state z = UNUSED) (procs g5).
Proof.
  split; [vm_compute; reflexivity|].
  assert (forallb (fun z => bool_decide (p_parent z <> Some 1%nat) || bool_decide (state z = UNUSED)) (procs g5) = true) as H by (vm_compute; reflexivity).
  apply Forall_forall. intros z Hz Hp. rewrite forallb_forall in H. specialize (H z (proj1 (list_elem_of_In _ _) Hz)).
  apply orb_true_iff in H as [H|H]; apply bool_decide_eq_true in H; done.
Qed.

End ProcDemo.
