(* ===== verification/CgFile.v ===== *)
(** * Reading and writing cgroup files: kernel/fs/cgfs.c

    A read puts the text of the file into the static buffer [buf] and copies the part behind the offset to the user; a write
    parses the user's bytes and calls the setters of [Cgroup].  [cbuf] is the kernel's memory around [buf], which starts at
    address 0 and has [MAX_BUF] bytes; what earlier calls left there stays.  The user's memory is an argument of a write.
    Numbers go through arrays on the stack: writing past one stops with [Fault].  [cf] is the open file, [cur] the process
    that reads.

    Reads: [file_text] is the text a file should have; [cg_read_slices], [cg_read_whole] and [cg_read_past_text] compare the reads with
    it.  Writes: [cg_limit_roundtrip] is a number written and read back, [cg_subtree_write] the switching of controllers, on top of the
    invariant [cg_ok] of [CgroupTree].  The fuel of [parse_subtree] and of the strings of the user bounds the number of words or bytes
    read there; more than the text has is enough. *)

From S2P Require Import Prelude Kstring Klib Kalloc Cpath Cgroup CgroupTree Namespace Proc ProcInv VfsFile.

Definition MAX_PID_LENGTH : Z := 5.
Definition MAX_STR : Z := 64.
Definition MAX_BUF : Z := 4096.
Definition MAX_CGROUP_DIR_ENTRIES : Z := 64.
Definition MAX_DECS_SIZE : nat := 3.
Definition MAX_DEPTH_SIZE : Z := 3.
Definition FILE_NAME_LENGTH : Z := 64.
Definition NUMBER_SIZE : nat := 32.

Record cgf := Cgf { cbuf : mem; ck : kst; cf : vfs_file }.

Definition onk {A} (m : M kst A) : M cgf A := fun s =>
  match m (ck s) with inl e => inl e | inr (a, k) => inr (a, Cgf (cbuf s) k (cf s)) end.
Definition ong {A} (m : M cgs A) : M cgf A := onk (oncg m).
Definition setbuf (f : mem -> mem) : M cgf unit := modS (fun s => Cgf (f (cbuf s)) (ck s) (cf s)).
Definition setfile (f : vfs_file -> vfs_file) : M cgf unit := modS (fun s => Cgf (cbuf s) (ck s) (f (cf s))).
Definition file : M cgf vfs_file := s ← getS; mret (cf s).
(** [f->cgp] *)
Definition group : M cgf (nat * cgroup) := f ← file; i ← deref (f_cgp f); c ← ong (get_cg i); mret (i, c).

(** The bytes of [l] at [p]. *)
Definition st_bytes (m : mem) (p : Z) (l : list Z) : mem := (put_name m p l).1.

(** The string [itoa] and [utoa] make. *)
Definition itoa_str (n : Z) : list Z := let r := itoa (fun _ => 0) 0 n in (fun i => r.2 i) <$> seqZ 0 r.1.
Definition utoa_str (n : Z) : list Z := let r := utoa (fun _ => 0) 0 n in (fun i => r.2 i) <$> seqZ 0 r.1.
(** A local array of [size] bytes receives the string and its terminator. *)
Definition local_str (size : nat) (l : list Z) : M cgf (list Z) := if (length l <? size)%nat then mret l else fault.
Definition local_itoa (size : nat) (n : Z) : M cgf (list Z) := local_str size (itoa_str n).
Definition local_utoa (size : nat) (n : Z) : M cgf (list Z) := local_str size (utoa_str (u32 n)).

(** ** Copies *)

(** What is copied; its length is returned. *)
Fixpoint copy_buffer_up_to_end (m : mem) (src : Z) (size : nat) : list Z :=
  match size with
  | O => []
  | S size => if m src =? 0 then [] else m src :: copy_buffer_up_to_end m (src + 1) size
  end.

(** What is copied, and the count that is returned: the newline is not counted. *)
Fixpoint copy_buffer_up_to_end_replace_end_with_newline (m : mem) (src : Z) (size : nat) : list Z * Z :=
  match size with
  | O => ([], 0)
  | S size =>
      if m src =? 0 then ([10], 0)
      else let r := copy_buffer_up_to_end_replace_end_with_newline m (src + 1) size in (m src :: r.1, 1 + r.2)
  end.

(** [strncpy] to the position, which then advances by [size], the length of the string. *)
Definition copy_and_move_buffer (p : Z) (string : list Z) : M cgf Z :=
  setbuf (fun m => st_bytes m p string) ;; mret (p + Z.of_nat (length string)).
Fixpoint copy_pieces (p : Z) (ls : list (list Z)) : M cgf Z :=
  match ls with [] => mret p | l :: ls => p ← copy_and_move_buffer p l; copy_pieces p ls end.

Definition copy_and_move_buffer_max_len (p : Z) (string : list Z) : M cgf Z :=
  setbuf (fun m => st_bytes m p string) ;; mret (p + FILE_NAME_LENGTH).
Fixpoint copy_names (p : Z) (ls : list (list Z)) : M cgf Z :=
  match ls with [] => mret p | l :: ls => p ← copy_and_move_buffer_max_len p l; copy_names p ls end.

(** [memmove] to the position [var], which then advances. *)
Definition move_and_add (source : list Z) (var : Z) : M cgf Z :=
  setbuf (fun m => st_bytes m var source) ;; mret (var + Z.of_nat (length source)).

(** [min(at_least_zero(len - f->off), n)]: the difference is unsigned. *)
Definition left_over (len off n : Z) : Z :=
  let e := len -u off in
  let e := if 0 <? e then e else 0 in
  s32 (if u32 n <? e then u32 n else e).

(** The end of most reads: the bytes for the user and their number. *)
Definition copy_text (len n : Z) : M cgf (Z * list Z) :=
  f ← file;
  s ← getS;
  let l := copy_buffer_up_to_end (cbuf s) (f_off f) (Z.to_nat (left_over len (f_off f) n)) in
  mret (Z.of_nat (length l), l).

(** ** The texts *)

Definition W (s : string) : list Z := word_of s.
Definition nl : list Z := [10].
Definition stat_at (i : nat) (f : vfs_file) : Z := f_stats f !!! i.

(** The pids of the processes of the group as [cur] sees them; [None] for an empty slot. *)
Fixpoint pid_slots (cur : nat) (ps : list (option nat)) : M kst (list (option Z)) :=
  match ps with
  | [] => mret []
  | None :: ps => l ← pid_slots cur ps; mret (None :: l)
  | Some p :: ps => q ← getp p; pid ← proc_pid cur q; l ← pid_slots cur ps; mret (Some pid :: l)
  end.

(** The slots from the one that holds the offset on, and the offset in it. *)
Fixpoint find_procs_offsets (ps : list (option Z)) (pidoff : Z) : option (list (option Z) * Z) :=
  match ps with
  | [] => None
  | None :: ps => find_procs_offsets ps pidoff
  | Some pid :: ps' =>
      let pidlen := 1 + count_digits 32 pid 0 in
      if pidlen <=? pidoff then find_procs_offsets ps' (pidoff - pidlen) else Some (ps, pidoff)
  end.

(** A round copies a byte or skips a slot. *)
Fixpoint read_procs_loop (fuel : nat) (ps : list (option Z)) (pidoff n : Z) : M cgf (list Z) :=
  match fuel with
  | O => nofuel
  | S fuel =>
      match ps with
      | [] => mret []
      | None :: ps => if n <=? 0 then mret [] else read_procs_loop fuel ps pidoff n
      | Some pid :: ps' =>
          if n <=? 0 then mret []
          else
            setbuf (fun m => memset m 0 0 MAX_PID_LENGTH) ;;
            s ← getS;
            let '(pidlength, m) := itoa (cbuf s) 0 pid in
            setbuf (fun _ => m) ;;
            if pidoff <? pidlength then l ← read_procs_loop fuel ps (pidoff + 1) (n - 1); mret (m pidoff :: l)
            else l ← read_procs_loop fuel ps' 0 (n - 1); mret (10 :: l)
      end
  end.

Definition read_file_cg_procs (cur : nat) (n : Z) : M cgf (Z * list Z) :=
  f ← file;
  g ← group;
  ps ← onk (pid_slots cur (Cgroup.proc g.2));
  match find_procs_offsets ps (s32 (f_off f)) with
  | None => mret (0, [])
  | Some (ps, pidoff) =>
      l ← read_procs_loop (S (length ps) + Z.to_nat n) ps pidoff n;
      mret (Z.of_nat (length l), l)
  end.

(** [names]: the texts of the controllers that are listed. *)
Fixpoint add_all (names : list (list Z)) (i : Z) : M cgf Z :=
  match names with [] => mret i | l :: ls => i ← move_and_add l i; add_all ls i end.
Definition read_controllers (sel : controller -> cgroup -> bool) (n : Z) : M cgf (Z * list Z) :=
  f ← file;
  g ← group;
  setbuf (fun m => memset m 0 0 MAX_STR) ;;
  let on k s := if sel k g.2 then [W s ++ nl] else [] in
  i ← add_all (on Cpu "cpu"%string ++ on Pid "pid"%string ++ on CpuSet "set"%string ++ on Mem "mem"%string) 0;
  s ← getS;
  let l := copy_buffer_up_to_end (cbuf s) (f_off f) (Z.to_nat (Z.min i n)) in
  mret (Z.of_nat (length l), l).
Definition read_file_cg_controllers : Z -> M cgf (Z * list Z) := read_controllers avalible.
Definition read_file_cg_subtree : Z -> M cgf (Z * list Z) := read_controllers enabled.

Definition read_file_cg_stat (n : Z) : M cgf (Z * list Z) :=
  g ← group;
  a ← local_itoa MAX_DECS_SIZE (s32 (nr_descendants g.2));
  b ← local_itoa MAX_DECS_SIZE (s32 (nr_dying_descendants g.2));
  p ← copy_pieces 0 [W "nr_descendants - "; a; nl; W "nr_dying_descendants - "; b; nl];
  copy_text p n.

(** [f->cpu.stat], [f->cpu.weight], [f->cpu.max], [f->pid.max], [f->cpu_s.set], [f->frz.freezer] and [f->mem] are what
    [unsafe_cg_open_file] kept. *)
Definition read_file_cpu_stat (n : Z) : M cgf (Z * list Z) :=
  f ← file;
  usage ← local_itoa 11 (stat_at 1 f);
  user ← local_itoa 11 (stat_at 2 f);
  system ← local_itoa 11 (stat_at 3 f);
  nr_periods ← local_itoa 11 (stat_at 4 f);
  nr_throttled ← local_itoa 11 (stat_at 5 f);
  throttled_usec ← local_itoa 11 (stat_at 6 f);
  p ← copy_pieces 0 [W "usage_usec - "; usage; nl; W "user_usec - "; user; nl; W "system_usec - "; system];
  p ← (if stat_at 0 f =? 0 then mret p
       else copy_pieces p [nl; W "nr_periods - "; nr_periods; nl; W "nr_throttled - "; nr_throttled; nl; W "throttled_usec - "; throttled_usec]);
  p ← copy_pieces p [nl];
  copy_text p n.

Definition read_file_cpu_weight (n : Z) : M cgf (Z * list Z) :=
  f ← file;
  w ← local_utoa 20 (stat_at 0 f);
  p ← copy_pieces 0 [W "weight - "; w; nl];
  copy_text p n.

Definition read_file_cpu_max (n : Z) : M cgf (Z * list Z) :=
  f ← file;
  a ← local_utoa 20 (stat_at 0 f);
  b ← local_utoa 20 (stat_at 1 f);
  p ← copy_pieces 0 [W "max - "; a; nl ++ W "period - "; b; nl];
  copy_text p n.

Definition read_file_pid_max (n : Z) : M cgf (Z * list Z) :=
  f ← file;
  a ← local_itoa 11 (stat_at 1 f);
  p ← copy_pieces 0 [W "max - "; a; nl];
  copy_text p n.

Definition read_file_pid_cur (n : Z) : M cgf (Z * list Z) :=
  g ← group;
  a ← local_itoa MAX_DECS_SIZE (num_of_procs g.2);
  p ← copy_pieces 0 [W "num_of_procs - "; a; nl];
  copy_text p n.

Definition read_file_set_cpu (n : Z) : M cgf (Z * list Z) :=
  f ← file;
  a ← local_itoa 11 (stat_at 1 f);
  p ← copy_pieces 0 [W "use_cpu - "; a; nl];
  copy_text p n.

Definition read_file_set_frz (n : Z) : M cgf (Z * list Z) :=
  f ← file;
  a ← local_itoa 11 (stat_at 0 f);
  p ← copy_pieces 0 [a; nl];
  copy_text p n.

Definition read_file_mem_cur (n : Z) : M cgf (Z * list Z) :=
  g ← group;
  a ← local_utoa 10 (current_mem (mem_ g.2));
  p ← copy_pieces 0 [a; nl];
  copy_text p n.

Definition read_file_mem_max (n : Z) : M cgf (Z * list Z) :=
  f ← file;
  a ← local_utoa 10 (stat_at 1 f);
  p ← copy_pieces 0 [a; nl];
  copy_text p n.

Definition read_file_mem_min (n : Z) : M cgf (Z * list Z) :=
  f ← file;
  a ← local_utoa 10 (stat_at 1 f);
  p ← copy_pieces 0 [a; nl];
  copy_text p n.

Definition read_file_mem_stat (n : Z) : M cgf (Z * list Z) :=
  f ← file;
  file_dirty ← local_utoa 10 (stat_at 1 f);
  aggregated ← local_utoa 10 (stat_at 2 f);
  pgfault ← local_utoa 10 (stat_at 3 f);
  pgmajfault ← local_utoa 10 (stat_at 4 f);
  kernel ← local_utoa 10 (stat_at 5 f);
  let len l := Z.of_nat (length l) in
  let stattext_size := len (W "file_dirty - ") + len file_dirty + 1 + len (W "file_dirty_aggregated - ") + len aggregated + 1 + len (W "pgfault - ") +
    len pgfault + 1 + len (W "pgmajfault - ") + len pgmajfault + 2 + len (W "kernel - ") + len kernel in
  setbuf (fun m => memset m 0 0 stattext_size) ;;
  p ← copy_pieces 0 [W "file_dirty - "; file_dirty; nl; W "file_dirty_aggregated - "; aggregated; nl; W "pgfault - "; pgfault; nl;
    W "pgmajfault - "; pgmajfault; nl; W "kernel - "; kernel; nl];
  copy_text p n.

Section io.
(** [devsw[major].stat] of the drivers: bytes and operations read and written. *)
Context (devsw_stat : Z -> Z -> list Z).

(** A slot of [f->io.devices_stats] is 0 or one more than the index in [cgp->io_stats]. *)
Fixpoint get_cgroup_io_stat (slots : list nat) (i : nat) (cnt : nat) : M cgf unit :=
  match slots with
  | [] => mret tt
  | j :: slots =>
      c ← ong (get_cg i);
      x ← deref (io_stats c !! j);
      if (major x =? 0) then get_cgroup_io_stat slots i cnt
      else if used_devices c <=? Z.of_nat cnt then mret tt
      else
        ong (modS (upd_cg i (fun c => with_io_stats (alter (fun x => IoStat (dev_name x) (major x) (minor x) (devsw_stat (major x) (minor x))) j (io_stats c)) c))) ;;
        setfile (fun f => with_f_stats (<[cnt := Z.of_nat (S j)]> (f_stats f)) f) ;;
        get_cgroup_io_stat slots i (S cnt)
  end.

(** [strlen] of the name of a device. *)
Definition dev_name_str (x : io_stat) : list Z := take (fst (default (length (dev_name x), 0) (list_find (fun c => c = 0) (dev_name x)))) (dev_name x).

Fixpoint io_lines (slots : list Z) (i : nat) (p : Z) : M cgf Z :=
  match slots with
  | [] => mret p
  | v :: slots =>
      if v =? 0 then io_lines slots i p
      else
        c ← ong (get_cg i);
        x ← deref (io_stats c !! (Z.to_nat v - 1)%nat);
        rbytes ← local_utoa 8 (device_stats x !!! 0%nat);
        wbytes ← local_utoa 8 (device_stats x !!! 1%nat);
        rios ← local_utoa 8 (device_stats x !!! 2%nat);
        wios ← local_utoa 8 (device_stats x !!! 3%nat);
        p ← copy_pieces p [dev_name_str x; W " rbytes="; rbytes; W " wbytes="; wbytes; W " rios="; rios; W " wios="; wios; nl];
        io_lines slots i p
  end.

Definition read_file_io_stat (n : Z) : M cgf (Z * list Z) :=
  f ← file;
  i ← deref (f_cgp f);
  let stattext_size := if MAX_BUF <? n +u f_off f then MAX_BUF else n +u f_off f in
  get_cgroup_io_stat (seq 0 NDEV) i 0 ;;
  setbuf (fun m => memset m 0 0 stattext_size) ;;
  f ← file;
  p ← io_lines (f_stats f) i 0;
  copy_text p n.

(** The text is an array of its own; [sizeof] counts its terminator. *)
Definition read_file_cg_events (n : Z) : M cgf (Z * list Z) :=
  f ← file;
  g ← group;
  let digit (b : bool) := if b then [49] else [48] in
  let text := W "populated - " ++ digit (populated g.2) ++ nl ++ W "frozen - " ++ digit (negb (is_frozen g.2 =? 0)) ++ nl ++ [0] in
  let l := copy_buffer_up_to_end (mem_of 0 text) (f_off f) (Z.to_nat (Z.min (Z.of_nat (length text)) (u32 n))) in
  mret (Z.of_nat (length l), l).

(** [itoa] into [buf], then the number and a newline. *)
Definition read_number (v n : Z) : M cgf (Z * list Z) :=
  setbuf (fun m => (itoa m 0 v).2) ;;
  s ← getS;
  let r := copy_buffer_up_to_end_replace_end_with_newline (cbuf s) 0 (Z.to_nat (Z.min MAX_BUF (u32 n))) in
  mret (r.2, r.1).
Definition read_file_cg_max_descen (n : Z) : M cgf (Z * list Z) := g ← group; read_number (max_descendants_value g.2) n.
Definition read_file_max_depth (n : Z) : M cgf (Z * list Z) :=
  g ← group;
  setbuf (fun m => memset m 0 0 MAX_DEPTH_SIZE) ;;
  read_number (max_depth_value g.2) n.

Definition read_file (cur : nat) (k : cgroup_file_name) (c : cgroup) (n : Z) : M cgf (Z * list Z) :=
  match k with
  | CGROUP_PROCS => read_file_cg_procs cur n
  | CGROUP_CONTROLLERS => read_file_cg_controllers n
  | CGROUP_SUBTREE_CONTROL => read_file_cg_subtree n
  | CGROUP_EVENTS => read_file_cg_events n
  | CGROUP_MAX_DESCENDANTS => read_file_cg_max_descen n
  | CGROUP_MAX_DEPTH => read_file_max_depth n
  | CGROUP_STAT => read_file_cg_stat n
  | CPU_STAT => read_file_cpu_stat n
  | CPU_WEIGHT => if enabled Cpu c then read_file_cpu_weight n else mret (0, [])
  | CPU_MAX => if enabled Cpu c then read_file_cpu_max n else mret (0, [])
  | PID_MAX => read_file_pid_max n
  | PID_CUR => read_file_pid_cur n
  | SET_CPU => read_file_set_cpu n
  | SET_FRZ => read_file_set_frz n
  | MEM_CUR => read_file_mem_cur n
  | MEM_MAX => read_file_mem_max n
  | MEM_MIN => read_file_mem_min n
  | MEM_STAT => read_file_mem_stat n
  | IO_STAT => read_file_io_stat n
  end.

Definition unsafe_cg_read_file (cur : nat) (n : Z) : M cgf (Z * list Z) :=
  f ← file;
  g ← group;
  match get_file_name_constant (f_cgfilename f) with
  | None => mret (-1, [])
  | Some k =>
      if negb (readable f) || bool_decide (cgroup_dir_path g.2 = []) then mret (-1, [])
      else
        r ← read_file cur k g.2 n;
        setfile (fun f => with_f_off (f_off f +u r.1) f) ;;
        mret r
  end.

(** The names in the directory of a group, before those of its children. *)
Definition dir_files (root : bool) (c : cgroup) : list (list Z) :=
  [W "."] ++ (if root then [] else [W ".."]) ++ [W "cgroup.procs"] ++
  (if root then [] else [W "cgroup.controllers"; W "cgroup.subtree_control"; W "cgroup.events"; W "cgroup.freeze"]) ++
  [W "cgroup.max.descendants"; W "cgroup.max.depth"; W "cgroup.stat"] ++
  (if root then []
   else [W "memory.current"; W "cpu.stat"; W "memory.stat"; W "io.stat"] ++
     (if enabled Cpu c then [W "cpu.weight"; W "cpu.max"] else []) ++
     (if enabled Pid c then [W "pid.max"] else []) ++
     (if enabled CpuSet c then [W "cpuset.cpus"] else []) ++
     (if enabled Mem c then [W "memory.max"; W "memory.min"] else [])).

Definition read_dir (n : Z) : M cgf (Z * list Z) :=
  setbuf (fun m => memset m 0 0 (FILE_NAME_LENGTH * MAX_CGROUP_DIR_ENTRIES)) ;;
  f ← file;
  g ← group;
  if decide (cgroup_dir_path g.2 = []) then mret (-1, [])
  else
    setbuf (fun m a => if in_range a 0 MAX_BUF then 32 else m a) ;;
    p ← copy_names 0 (dir_files (bool_decide (g.1 = cgroup_root)) g.2);
    s ← getS;
    m ← ong (get_cgroup_names_at_path (cbuf s) p (cgroup_dir_path g.2));
    setbuf (fun _ => m) ;;
    let l := (fun i => m (f_off f + i)) <$> seqZ 0 (Z.min (MAX_BUF - s32 (f_off f)) n) in
    setfile (fun f => with_f_off (f_off f +u Z.of_nat (length l)) f) ;;
    mret (Z.of_nat (length l), l).

Inductive cg_file_type := CG_FILE | CG_DIR.
Definition unsafe_cg_read (cur : nat) (type : cg_file_type) (n : Z) : M cgf (Z * list Z) :=
  match type with CG_FILE => unsafe_cg_read_file cur n | CG_DIR => read_dir n end.
End io.

(** ** Writing *)

Section write.
(** The memory of the user, and a bound for the rounds of the loop over it. *)
Context (user : mem) (fuel : nat).

(** A loop up to a comma, the end of the string or [max] bytes: what is copied, and where it ends. *)
Fixpoint copy_number (stop_at_comma : bool) (max : nat) (addr : Z) : list Z * Z :=
  match max with
  | O => ([], addr)
  | S max =>
      if (stop_at_comma && (user addr =? 44)) || (user addr =? 0) then ([], addr)
      else let r := copy_number stop_at_comma max (addr + 1) in (user addr :: r.1, r.2)
  end.

(** [atoi] of a string in an array of the kernel. *)
Definition atoi_str (l : list Z) : M cgf Z := deref (atoi (S (length l)) (mem_of 0 (l ++ [0])) 0).
(** [atoi] and [strlen] of a string of the user. *)
Definition atoi_user (addr : Z) : M cgf Z := deref (atoi fuel user addr).
Fixpoint strlen_user (fuel : nat) (addr : Z) : M cgf Z :=
  match fuel with
  | O => nofuel
  | S fuel => if user addr =? 0 then mret 0 else r ← strlen_user fuel (addr + 1); mret (1 + r)
  end.

(** [strncpy(buf, addr, n)]: the string, filled up with zeros. *)
Definition strncpy_user (m : mem) (addr n : Z) : mem :=
  let l := copy_buffer_up_to_end user addr (Z.to_nat n) in
  st_bytes m 0 (l ++ replicate (Z.to_nat n - length l) 0).

Definition write_file_cg_procs (cur : nat) (addr n : Z) : M cgf Z :=
  setbuf (fun m => st8 m n 0) ;;
  setbuf (fun m => strncpy_user m addr n) ;;
  s ← getS;
  pid ← deref (atoi (S (Z.to_nat n)) (cbuf s) 0);
  if pid <=? 0 then mret (-1)
  else
    g ← group;
    r ← onk (cgroup_move_proc cur g.1 pid);
    mret (if r =? -1 then -1 else n).

Definition return_new_controller_state (input_char : Z) : Z := if input_char =? 43 then 1 else if input_char =? 45 then 2 else 0.

(** The word, and the length it takes with its delimiter. *)
Fixpoint copy_until_char (src delimiter : Z) (max_chars : nat) : list Z * Z :=
  if (user src =? delimiter) || (user src =? 0) then ([], if user src =? delimiter then 1 else 0)
  else match max_chars with
       | O => ([], 0)
       | S max_chars => let r := copy_until_char (src + 1) delimiter max_chars in (user src :: r.1, 1 + r.2)
       end.

(** The states asked for cpu, pid, set and mem, and the length of what was parsed; [None] for -1. *)
Fixpoint parse_subtree (fuel : nat) (addr n : Z) (st : controller -> Z) (total_len : Z) : M cgf (option ((controller -> Z) * Z)) :=
  match fuel with
  | O => nofuel
  | S fuel =>
      if negb (user addr =? 0) && (0 <? n) then
        if negb (user addr =? 43) && negb (user addr =? 45) then mret None
        else
          setbuf (fun m => memset m 0 0 16) ;;
          let '(w, len) := copy_until_char (addr + 1) 32 (Z.to_nat (n - 1)) in
          setbuf (fun m => st_bytes m 0 (w ++ [0])) ;;
          let go k := parse_subtree fuel (addr + (len + 1)) n (fun k' => if decide (k' = k) then return_new_controller_state (user addr) else st k') (total_len + (len + 1)) in
          if decide (w = W "cpu") then go Cpu
          else if decide (w = W "pid") then go Pid
          else if decide (w = W "set") then go CpuSet
          else if decide (w = W "mem") then go Mem
          else mret None
      else mret (Some (st, total_len))
  end.

Definition is_error (r : result_code) : bool := match r with RESULT_ERROR_OPERATION | RESULT_ERROR_ARGUMENT | RESULT_ERROR => true | _ => false end.

(** [if (state == 1 && enable(cgp) <= RESULT_ERROR) return -1; if (state == 2 && disable(cgp) <= RESULT_ERROR) return -1;] *)
Definition switch_controller (st : Z) (on off : M cgs result_code) : M cgf bool :=
  if st =? 1 then r ← ong on; mret (negb (is_error r))
  else if st =? 2 then r ← ong off; mret (negb (is_error r))
  else mret true.

Definition write_file_cg_subtree (addr n : Z) : M cgf Z :=
  r ← parse_subtree fuel addr n (fun _ => 0) 0;
  match r with
  | None => mret (-1)
  | Some (st, total_len) =>
      g ← group;
      let i := Some g.1 in
      ok ← switch_controller (st Cpu) (unsafe_enable_cpu_controller i) (unsafe_disable_cpu_controller i);
      if negb ok then mret (-1) else
      ok ← switch_controller (st Pid) (unsafe_enable_pid_controller i) (unsafe_disable_pid_controller i);
      if negb ok then mret (-1) else
      ok ← switch_controller (st CpuSet) (unsafe_enable_set_controller i) (unsafe_disable_set_controller i);
      if negb ok then mret (-1) else
      ok ← switch_controller (st Mem) (unsafe_enable_mem_controller i) (unsafe_disable_mem_controller i);
      if negb ok then mret (-1) else mret (n - total_len)
  end.

Definition write_file_cg_max_descen (addr n : Z) : M cgf Z :=
  v ← atoi_user addr;
  len ← (if v <? 0 then mret 0 else strlen_user fuel addr);
  if (v <? 0) || (2 <? len) then mret (-1)
  else g ← group; ong (modS (upd_cg g.1 (with_max_descendants_value v))) ;; mret n.

Definition write_file_max_depth (addr n : Z) : M cgf Z :=
  v ← atoi_user addr;
  len ← (if v <? 0 then mret 0 else strlen_user fuel addr);
  if (v <? 0) || (2 <? len) then mret (-1)
  else g ← group; ong (modS (upd_cg g.1 (with_max_depth_value v))) ;; mret n.

Definition with_period (v : Z) (p : cpu_acct) : cpu_acct :=
  CpuAcct (cpu_time p) (cpu_period_time p) (cpu_percent p) v (cpu_time_limit p) (cpu_account_frame p) (cpu_nr_periods p) (cpu_nr_throttled p) (cpu_throttled_usec p) (cpu_is_throttled_period p).
Definition with_limit (v : Z) (p : cpu_acct) : cpu_acct :=
  CpuAcct (cpu_time p) (cpu_period_time p) (cpu_percent p) (cpu_account_period p) v (cpu_account_frame p) (cpu_nr_periods p) (cpu_nr_throttled p) (cpu_throttled_usec p) (cpu_is_throttled_period p).
Definition put_stat (i : nat) (v : Z) : M cgf unit := setfile (fun f => with_f_stats (<[i := v]> (f_stats f)) f).

(** After the number the position moves one on, past a comma or past the end of the string. *)
Definition write_file_cpu_max (addr n : Z) : M cgf Z :=
  let '(max_string, addr) := copy_number true (NUMBER_SIZE - 1) addr in
  let '(period_string, _) := copy_number false (NUMBER_SIZE - 1) (addr + 1) in
  max ← atoi_str max_string;
  if max =? -1 then mret (-1)
  else
    g ← group;
    ok ← (if decide (period_string = []) then mret true
          else
            period ← atoi_str period_string;
            if period =? -1 then mret false
            else
              ong (modS (upd_cg g.1 (fun c => with_cpu_ (with_period (u32 period) (cpu_ c)) c))) ;;
              put_stat 1 period ;;
              mret true);
    if negb ok then mret (-1)
    else
      ong (modS (upd_cg g.1 (fun c => with_cpu_ (with_limit (u32 max) (cpu_ c)) c))) ;;
      put_stat 0 max ;;
      mret n.

(** The other limits: a number, a setter of [Cgroup], and the value kept in the file. *)
Definition write_limit (conv : Z -> Z) (setter : option nat -> Z -> M cgs result_code) (slot : nat) (addr n : Z) : M cgf Z :=
  let '(l, _) := copy_number true (NUMBER_SIZE - 1) addr in
  v ← atoi_str l;
  if v =? -1 then mret (-1)
  else
    g ← group;
    r ← ong (setter (Some g.1) (conv v));
    if decide (r = RESULT_SUCCESS_OPERATION) then put_stat slot (conv v) ;; mret n else mret (-1).
Definition write_file_pid_max : Z -> Z -> M cgf Z := write_limit (fun v => v) set_max_procs 1.
Definition write_file_set_cpu : Z -> Z -> M cgf Z := write_limit (fun v => v) set_cpu_id 1.
Definition write_file_set_frz : Z -> Z -> M cgf Z := write_limit (fun v => v) frz_grp 0.
Definition write_file_mem_max : Z -> Z -> M cgf Z := write_limit u32 set_max_mem 1.
Definition write_file_mem_min : Z -> Z -> M cgf Z := write_limit u32 set_min_mem 1.

Definition unsafe_cg_write (cur : nat) (addr n : Z) : M cgf Z :=
  f ← file;
  g ← group;
  if negb (writable f) || bool_decide (cgroup_dir_path g.2 = []) || (MAX_BUF <? n) then mret (-1)
  else match get_file_name_constant (f_cgfilename f) with
  | Some CGROUP_PROCS => write_file_cg_procs cur addr n
  | Some CGROUP_SUBTREE_CONTROL => write_file_cg_subtree addr n
  | Some CGROUP_MAX_DESCENDANTS => write_file_cg_max_descen addr n
  | Some CGROUP_MAX_DEPTH => write_file_max_depth addr n
  | Some CPU_MAX => if enabled Cpu g.2 then write_file_cpu_max addr n else mret 0
  | Some PID_MAX => if enabled Pid g.2 then write_file_pid_max addr n else mret 0
  | Some SET_CPU => if enabled CpuSet g.2 then write_file_set_cpu addr n else mret 0
  | Some SET_FRZ => write_file_set_frz addr n
  | Some MEM_MAX => if enabled Mem g.2 then write_file_mem_max addr n else mret 0
  | Some MEM_MIN => if enabled Mem g.2 then write_file_mem_min addr n else mret 0
  | _ => mret 0
  end.
End write.

(** ** Sizes *)

Definition is_cg_file_statable : M cgf bool :=
  f ← file;
  g ← group;
  mret (match get_file_name_constant (f_cgfilename f) with Some CPU_MAX | Some CPU_WEIGHT => enabled Cpu g.2 | _ => true end).

(** [while (i != 0) { i /= 10; size++; }] *)
Fixpoint digits_of (fuel : nat) (i size : Z) : Z :=
  match fuel with O => size | S fuel => if i =? 0 then size else digits_of fuel (Z.quot i 10) (size + 1) end.

Definition cg_file_size (cur : nat) : M cgf Z :=
  f ← file;
  g ← group;
  let c := g.2 in
  let len (s : string) := Z.of_nat (length (W s)) in
  match get_file_name_constant (f_cgfilename f) with
  | Some CGROUP_PROCS =>
      ps ← onk (pid_slots cur (Cgroup.proc c));
      mret (foldl (fun size p => match p with None => size | Some pid => digits_of 32 pid size + 1 end) 0 ps)
  | Some CGROUP_CONTROLLERS => mret ((if avalible Cpu c then 3 else 0) + (if avalible Pid c then 3 else 0))
  | Some CGROUP_SUBTREE_CONTROL => mret ((if enabled Cpu c then 3 else 0) + (if enabled Pid c then 3 else 0))
  | Some CGROUP_EVENTS => mret (len "populated - 0"%string)
  | Some CGROUP_MAX_DESCENDANTS => mret (intlen (max_descendants_value c))
  | Some CGROUP_MAX_DEPTH => mret (intlen (max_depth_value c))
  | Some CGROUP_STAT =>
      mret (len "nr_descendants - "%string + intlen (s32 (nr_descendants c)) + 1 + len "nr_dying_descendants - "%string + intlen (s32 (nr_dying_descendants c)) + 1 +
        len "nr_of_procs - "%string + intlen (num_of_procs c) + 1)
  | Some PID_CUR => mret (len "num_of_procs - "%string + intlen (num_of_procs c) + 1)
  | Some MEM_CUR => mret (len "cur_mem_in_bytes - "%string + intlen (s32 (current_mem (mem_ c))) + 1)
  | _ => mret 0
  end.

Definition T_CGFILE : Z := 4.
Definition T_CGDIR : Z := 5.
(** The type and the size; [None] for -1. *)
Definition unsafe_cg_stat (cur : nat) : M cgf (option (Z * Z)) :=
  f ← file;
  g ← group;
  if decide (cgroup_dir_path g.2 = []) then mret None
  else if decide (f_cgfilename f = []) then
    n ← ong (cgorup_num_of_immidiate_children g.1);
    mret (Some (T_CGDIR, FILE_NAME_LENGTH * (7 + n)))
  else
    ok ← is_cg_file_statable;
    if ok : bool then (size ← cg_file_size cur; mret (Some (T_CGFILE, size))) else mret None.

Definition cg_call {A} (m : M cgf A) : M cgf A := ong cgroup_lock ;; r ← m; ong cgroup_unlock ;; mret r.
Definition cg_read (devsw_stat : Z -> Z -> list Z) (cur : nat) (type : cg_file_type) (n : Z) : M cgf (Z * list Z) := cg_call (unsafe_cg_read devsw_stat cur type n).
Definition cg_write (user : mem) (fuel cur : nat) (addr n : Z) : M cgf Z := cg_call (unsafe_cg_write user fuel cur addr n).
Definition cg_stat (cur : nat) : M cgf (option (Z * Z)) := cg_call (unsafe_cg_stat cur).

(** ** Bytes in memory *)

Lemma put_name_at l : forall m p a, (put_name m p l).1 a = if in_range a p (Z.of_nat (length l)) then u8 (l !!! Z.to_nat (a - p)) else m a.
Proof.
  induction l as [|x l IH]; intros m p a; cbn [put_name length].
  - unfold in_range. destruct (Z.leb_spec p a), (Z.ltb_spec a (p + Z.of_nat 0)); try lia; done.
  - rewrite IH. unfold in_range, st8. destruct (Z.leb_spec (p + 1) a), (Z.ltb_spec a (p + 1 + Z.of_nat (length l))), (Z.leb_spec p a), (Z.ltb_spec a (p + Z.of_nat (S (length l)))); try lia; cbn [andb].
    + replace (Z.to_nat (a - p)) with (S (Z.to_nat (a - (p + 1)))) by lia. done.
    + destruct (Z.eqb_spec a p); [lia|done].
    + assert (a = p) as -> by lia. rewrite Z.eqb_refl. by rewrite Z.sub_diag.
    + destruct (Z.eqb_spec a p); [lia|done].
Qed.

Lemma st_bytes_at m p l a : st_bytes m p l a = if in_range a p (Z.of_nat (length l)) then u8 (l !!! Z.to_nat (a - p)) else m a.
Proof. apply put_name_at. Qed.

Lemma st_bytes_in m p l : Forall is_byte l -> bytes_at (st_bytes m p l) p l.
Proof.
  intros Hl i c Hi. rewrite st_bytes_at. pose proof (lookup_lt_Some _ _ _ Hi). unfold in_range. destruct (Z.leb_spec p (p + Z.of_nat i)), (Z.ltb_spec (p + Z.of_nat i) (p + Z.of_nat (length l))); try lia. cbn [andb].
  replace (Z.to_nat (p + Z.of_nat i - p)) with i by lia. rewrite (list_lookup_total_correct _ _ _ Hi), u8_id; [done|]. by eapply (proj1 (Forall_lookup _ _) Hl).
Qed.
Lemma st_bytes_out m p l a : ~ p <= a < p + Z.of_nat (length l) -> st_bytes m p l a = m a.
Proof. intros H. rewrite st_bytes_at. unfold in_range. destruct (Z.leb_spec p a), (Z.ltb_spec a (p + Z.of_nat (length l))); try lia; done. Qed.

Lemma put_name_app l1 l2 : forall m p, put_name m p (l1 ++ l2) = let r := put_name m p l1 in put_name r.1 r.2 l2.
Proof. induction l1 as [|x l1 IH]; intros m p; [done|]. cbn [put_name app]. by rewrite IH. Qed.
Lemma put_name_end l : forall m p, (put_name m p l).2 = p + Z.of_nat (length l).
Proof. induction l as [|x l IH]; intros m p; cbn [put_name length]; [cbn; lia|]. rewrite IH. lia. Qed.
Lemma st_bytes_app m p l1 l2 : st_bytes m p (l1 ++ l2) = st_bytes (st_bytes m p l1) (p + Z.of_nat (length l1)) l2.
Proof. unfold st_bytes. rewrite put_name_app. cbv zeta. by rewrite put_name_end. Qed.

(** Bytes that are no end of a string. *)
Definition chars (l : list Z) : Prop := Forall (fun c => 0 < c < 256) l.
Lemma chars_bytes l : chars l -> Forall is_byte l.
Proof. intros H. apply (Forall_impl _ _ _ H). unfold is_byte. intros; lia. Qed.
Lemma chars_app l1 l2 : chars l1 -> chars l2 -> chars (l1 ++ l2).
Proof. intros. by apply Forall_app. Qed.
Lemma chars_word s : forallb (fun c => (0 <? c) && (c <? 256)) (W s) = true -> chars (W s).
Proof. intros H. apply Forall_forall. intros c Hc%list_elem_of_In. eapply forallb_forall in H; [|done]. apply andb_true_iff in H as [?%Z.ltb_lt ?%Z.ltb_lt]. done. Qed.

Lemma copy_chars m l : forall p size, bytes_at m p l -> chars l -> (size <= length l)%nat -> copy_buffer_up_to_end m p size = take size l.
Proof.
  induction l as [|x l IH]; intros p [|size] Hb Hc Hs; cbn [copy_buffer_up_to_end take length] in *; try done; try lia.
  apply Forall_cons in Hc as [Hx Hc]. pose proof (Hb 0%nat x eq_refl) as E. cbn in E. rewrite Z.add_0_r in E. rewrite E.
  destruct (Z.eqb_spec x 0); [lia|]. f_equal. apply IH; [|done|lia]. intros i c Hi. rewrite <- (Hb (S i) c Hi). f_equal. lia.
Qed.
(** A string that ends before. *)
Lemma copy_string m l p size : bytes_at m p (l ++ [0]) -> chars l -> copy_buffer_up_to_end m p size = take size l.
Proof.
  revert p size. induction l as [|x l IH]; intros p [|size] Hb Hc; cbn [copy_buffer_up_to_end take]; try done.
  - pose proof (Hb 0%nat 0 eq_refl) as E. cbn in E. rewrite Z.add_0_r in E. by rewrite E.
  - apply Forall_cons in Hc as [Hx Hc]. pose proof (Hb 0%nat x eq_refl) as E. cbn in E. rewrite Z.add_0_r in E. rewrite E. destruct (Z.eqb_spec x 0); [lia|]. f_equal.
    apply IH; [|done]. intros i c Hi. rewrite <- (Hb (S i) c Hi). f_equal. lia.
Qed.

Lemma bytes_at_drop m p l k : bytes_at m p l -> bytes_at m (p + Z.of_nat k) (drop k l).
Proof. intros H i c Hi. rewrite lookup_drop in Hi. rewrite <- (H _ _ Hi). f_equal. lia. Qed.

(** ** Numbers *)

Lemma dec_bound l : Forall is_digit l -> 0 <= dec_from 0 l < 10 ^ Z.of_nat (length l).
Proof.
  induction l as [|c l IH] using rev_ind; intros Hl; [cbn; lia|]. apply Forall_app in Hl as [Hl [Hc _]%Forall_cons]. specialize (IH Hl). unfold is_digit in Hc.
  rewrite dec_from_snoc, length_app. cbn [length]. rewrite Nat2Z.inj_add, Z.pow_add_r by lia. change (10 ^ Z.of_nat 1) with 10. generalize dependent (10 ^ Z.of_nat (length l)). intros P HP. lia.
Qed.

Lemma dec_same_length l1 : forall l2, length l1 = length l2 -> Forall is_digit l1 -> Forall is_digit l2 -> dec_from 0 l1 = dec_from 0 l2 -> l1 = l2.
Proof.
  induction l1 as [|c l1 IH] using rev_ind; intros l2 Hl H1 H2 E; [by destruct l2|]. destruct l2 as [|d l2 _] using rev_ind; [rewrite length_app in Hl; cbn in Hl; lia|].
  rewrite !length_app in Hl. cbn [length] in Hl. apply Forall_app in H1 as [H1 [Hc _]%Forall_cons]. apply Forall_app in H2 as [H2 [Hd _]%Forall_cons]. unfold is_digit in Hc, Hd. rewrite !dec_from_snoc in E.
  assert (c = d) as -> by lia. f_equal. apply IH; [lia|done|done|lia].
Qed.

Lemma decimal_unique n l1 l2 : decimal n l1 -> decimal n l2 -> l1 = l2.
Proof.
  intros (D1 & V1 & L1) (D2 & V2 & L2). apply dec_same_length; [|done|done|congruence]. pose proof (dec_bound l1 D1). pose proof (dec_bound l2 D2). rewrite V1 in *. rewrite V2 in *.
  destruct (Z.eqb_spec n 0); [congruence|]. assert (forall a b : list Z, 10 ^ (Z.of_nat (length a) - 1) <= n -> n < 10 ^ Z.of_nat (length b) -> (length a <= length b)%nat) as Hle.
  { intros a b Ha Hb. destruct (decide (length a <= length b)%nat); [done|]. assert (10 ^ Z.of_nat (length b) <= 10 ^ (Z.of_nat (length a) - 1)) by (apply Z.pow_le_mono_r; lia). lia. }
  pose proof (Hle l1 l2 L1 ltac:(lia)). pose proof (Hle l2 l1 L2 ltac:(lia)). lia.
Qed.

Lemma utoa_str_decimal n : is_u32 n -> decimal n (utoa_str n).
Proof.
  intros Hn. unfold utoa_str. destruct (utoa_spec (fun _ => 0) 0 n Hn) as (l & m' & -> & Hd & [Hb _] & _). cbn [fst snd]. enough ((λ i, m' i) <$> seqZ 0 (Z.of_nat (length l)) = l) as -> by done.
  apply list_eq. intros i. rewrite list_lookup_fmap. destruct (l !! i) as [c|] eqn:E.
  - rewrite lookup_seqZ_lt by (apply lookup_lt_Some in E; lia). cbn. f_equal. replace (0 + Z.of_nat i) with (Z.of_nat i) by lia. apply (Hb i). by apply lookup_app_l_Some.
  - rewrite lookup_seqZ_ge; [done|]. apply lookup_ge_None in E. lia.
Qed.

(** Wherever the number is written. *)
Lemma utoa_at m buf n : is_u32 n -> exists m', utoa m buf n = (Z.of_nat (length (utoa_str n)), m') /\ bytes_at m' buf (utoa_str n ++ [0]) /\
  forall a, ~ buf <= a <= buf + Z.of_nat (length (utoa_str n)) -> m' a = m a.
Proof.
  intros Hn. destruct (utoa_spec m buf n Hn) as (l & m' & E & Hd & [Hb _] & Hf). rewrite <- (decimal_unique n l (utoa_str n) Hd (utoa_str_decimal n Hn)). by exists m'.
Qed.

Lemma itoa_str_utoa n : itoa_str n = utoa_str n.
Proof. unfold itoa_str, utoa_str. by rewrite itoa_utoa. Qed.

Lemma decimal_chars n l : decimal n l -> chars l.
Proof. intros [H _]. apply (Forall_impl _ _ _ H). unfold is_digit. intros; lia. Qed.

(** The digits of a negative number are not written. *)
Lemma itoa_str_neg n : - 2 ^ 31 <= n < 0 -> itoa_str n = [].
Proof. intros Hn. unfold itoa_str. by rewrite (itoa_negative_empty (fun _ => 0) 0 n Hn). Qed.
Lemma itoa_str_chars n : is_s32 n -> chars (itoa_str n).
Proof.
  intros Hn. destruct (decide (n < 0)) as [H|H]; [rewrite itoa_str_neg by (unfold is_s32 in Hn; lia); constructor|]. rewrite itoa_str_utoa. apply (decimal_chars n), utoa_str_decimal. unfold is_s32, is_u32 in *. lia.
Qed.
Lemma utoa_str_chars n : chars (utoa_str (u32 n)).
Proof. apply (decimal_chars (u32 n)), utoa_str_decimal, u32_range. Qed.

Lemma decimal_length n l k : decimal n l -> n < 10 ^ k -> 1 <= k -> Z.of_nat (length l) <= k.
Proof.
  intros (D & V & L) Hn Hk. destruct (Z.eqb_spec n 0); [lia|]. destruct (decide (Z.of_nat (length l) <= k)); [done|].
  assert (10 ^ k <= 10 ^ (Z.of_nat (length l) - 1)) by (apply Z.pow_le_mono_r; lia). lia.
Qed.

(** ** The text of a file *)

Definition fit (size : nat) (l : list Z) : option (list Z) := if (length l <? size)%nat then Some l else None.

(** [None]: a number does not fit into its array. *)
Definition cg_text (k : cgroup_file_name) (f : vfs_file) (c : cgroup) : option (list Z) :=
  let int j := fit 11 (itoa_str (stat_at j f)) in
  let num size j := fit size (utoa_str (u32 (stat_at j f))) in
  match k with
  | CGROUP_STAT =>
      a ← fit 3 (itoa_str (s32 (nr_descendants c)));
      b ← fit 3 (itoa_str (s32 (nr_dying_descendants c)));
      Some (W "nr_descendants - " ++ a ++ nl ++ W "nr_dying_descendants - " ++ b ++ nl)
  | CPU_STAT =>
      a ← int 1%nat; b ← int 2%nat; d ← int 3%nat; p ← int 4%nat; t ← int 5%nat; u ← int 6%nat;
      Some (W "usage_usec - " ++ a ++ nl ++ W "user_usec - " ++ b ++ nl ++ W "system_usec - " ++ d ++
        (if stat_at 0 f =? 0 then [] else nl ++ W "nr_periods - " ++ p ++ nl ++ W "nr_throttled - " ++ t ++ nl ++ W "throttled_usec - " ++ u) ++ nl)
  | CPU_WEIGHT => a ← num 20%nat 0%nat; Some (W "weight - " ++ a ++ nl)
  | CPU_MAX => a ← num 20%nat 0%nat; b ← num 20%nat 1%nat; Some (W "max - " ++ a ++ nl ++ W "period - " ++ b ++ nl)
  | PID_MAX => a ← int 1%nat; Some (W "max - " ++ a ++ nl)
  | PID_CUR => a ← fit 3 (itoa_str (num_of_procs c)); Some (W "num_of_procs - " ++ a ++ nl)
  | SET_CPU => a ← int 1%nat; Some (W "use_cpu - " ++ a ++ nl)
  | SET_FRZ => a ← int 0%nat; Some (a ++ nl)
  | MEM_CUR => a ← fit 10 (utoa_str (u32 (current_mem (mem_ c)))); Some (a ++ nl)
  | MEM_MAX => a ← num 10%nat 1%nat; Some (a ++ nl)
  | MEM_MIN => a ← num 10%nat 1%nat; Some (a ++ nl)
  | MEM_STAT =>
      a ← num 10%nat 1%nat; b ← num 10%nat 2%nat; d ← num 10%nat 3%nat; p ← num 10%nat 4%nat; q ← num 10%nat 5%nat;
      Some (W "file_dirty - " ++ a ++ nl ++ W "file_dirty_aggregated - " ++ b ++ nl ++ W "pgfault - " ++ d ++ nl ++ W "pgmajfault - " ++ p ++ nl ++ W "kernel - " ++ q ++ nl)
  | _ => None
  end.

(** The files whose text these are. *)
Definition text_file (k : cgroup_file_name) : bool :=
  match k with
  | CGROUP_STAT | CPU_STAT | CPU_WEIGHT | CPU_MAX | PID_MAX | PID_CUR | SET_CPU | SET_FRZ | MEM_CUR | MEM_MAX | MEM_MIN | MEM_STAT => true
  | _ => false
  end.

(** The text is in the buffer and nothing else there has changed; the read ends by copying from it. *)
Definition reads_text (t : option (list Z)) (n : Z) (s : cgf) (r : stop + (Z * list Z) * cgf) : Prop :=
  match t with
  | None => r = inl Fault
  | Some t => exists m, bytes_at m 0 t /\ (forall a, ~ 0 <= a < Z.of_nat (length t) -> m a = cbuf s a) /\ r = copy_text (Z.of_nat (length t)) n (Cgf m (ck s) (cf s))
  end.

Lemma oncg_get i c k : cgroups (cgt k) !! i = Some c -> oncg (get_cg i) k = inr (c, k).
Proof. intros H. unfold oncg, get_cg. mrun. rewrite H. by destruct k. Qed.
Lemma group_run i c s : f_cgp (cf s) = Some i -> cgroups (cgt (ck s)) !! i = Some c -> group s = inr ((i, c), s).
Proof.
  intros Hi Hc. unfold group, file. rewrite bind_assoc, (bind_run _ _ _ _ _ (getS_run _)). rewrite (bind_run _ _ _ _ _ eq_refl). rewrite Hi. cbn [deref]. rewrite (bind_run _ _ _ _ _ eq_refl).
  assert (ong (get_cg i) s = inr (c, s)) as E by (unfold ong, onk; rewrite (oncg_get i c) by done; by destruct s). by rewrite (bind_run _ _ _ _ _ E).
Qed.

Lemma local_str_run size l s : local_str size l s = match fit size l with Some l => inr (l, s) | None => inl Fault end.
Proof. unfold local_str, fit. by destruct (_ <? _)%nat. Qed.

Lemma copy_pieces_run ls : forall p s, copy_pieces p ls s = inr (p + Z.of_nat (length (concat ls)), Cgf (st_bytes (cbuf s) p (concat ls)) (ck s) (cf s)).
Proof.
  induction ls as [|l ls IH]; intros p s; cbn [copy_pieces concat].
  - unfold st_bytes. cbn. rewrite Z.add_0_r. by destruct s.
  - unfold copy_and_move_buffer, setbuf. rewrite bind_assoc, modS_bind, (bind_run _ _ _ _ _ eq_refl), IH. cbn [cbuf ck cf]. rewrite st_bytes_app, length_app. do 2 f_equal. lia.
Qed.

(** One step of a read that fills an array. *)
Lemma reads_local size l t k n s : (forall a, fit size l = Some a -> reads_text (t a) n s (k a s)) -> reads_text (a ← fit size l; t a) n s ((local_str size l ≫= k) s).
Proof.
  intros H. unfold mbind at 2, M_bind. rewrite local_str_run. destruct (fit size l) as [a|] eqn:E; [|done]. by apply H.
Qed.

Lemma reads_pieces ls t n s : concat ls = t -> chars t -> reads_text (Some t) n s ((p ← copy_pieces 0 ls; copy_text p n) s).
Proof.
  intros <- Hc. rewrite (bind_run _ _ _ _ _ (copy_pieces_run ls 0 s)). rewrite Z.add_0_l. eexists. split; [apply st_bytes_in, chars_bytes, Hc|]. split; [|done]. intros a Ha. by apply st_bytes_out.
Qed.

Lemma file_run s : file s = inr (cf s, s).
Proof. done. Qed.
Lemma fit_chars size l a : fit size l = Some a -> chars l -> chars a.
Proof. unfold fit. destruct (_ <? _)%nat; [|done]. by intros [= <-]. Qed.
Lemma nl_chars : chars nl.
Proof. by repeat constructor. Qed.

(** The integers of the file and the group are integers of the machine. *)
Definition ints (k : cgroup_file_name) (f : vfs_file) (c : cgroup) : Prop :=
  match k with
  | CPU_STAT | PID_MAX | SET_CPU | SET_FRZ => forall j, is_s32 (stat_at j f)
  | PID_CUR => is_s32 (num_of_procs c)
  | _ => True
  end.

Create HintDb cgtext.
#[export] Hint Resolve itoa_str_chars utoa_str_chars nl_chars s32_range : cgtext.
Ltac chars_tac := repeat first [apply Forall_nil_2 | apply chars_app | apply nl_chars | apply chars_word; reflexivity | eapply fit_chars; [eassumption|] | progress (eauto with cgtext)].
Ltac text_step := apply reads_local; intros ? ?.
Ltac text_end := apply reads_pieces; [cbn [concat]; rewrite ?app_nil_r, <- ?app_assoc; reflexivity|chars_tac].

(** The buffer may be cleared where the text goes. *)
Lemma reads_cleared t z n s r : 0 <= z <= Z.of_nat (length t) -> reads_text (Some t) n (Cgf (memset (cbuf s) 0 0 z) (ck s) (cf s)) r -> reads_text (Some t) n s r.
Proof.
  intros Hz (m & Hb & Ho & Hr). exists m. split; [done|]. split; [|done]. intros a Ha. rewrite Ho by done. cbn [cbuf]. rewrite memset_spec by lia.
  unfold in_range. destruct (Z.leb_spec 0 a), (Z.ltb_spec a (0 + z)); try lia; done.
Qed.

Lemma pieces_app {A} a b (k : Z -> M cgf A) p s : (p ← copy_pieces p a; p ← copy_pieces p b; k p) s = (p ← copy_pieces p (a ++ b); k p) s.
Proof.
  rewrite (bind_run _ _ _ _ _ (copy_pieces_run a p s)), (bind_run _ _ _ _ _ (copy_pieces_run b _ _)), (bind_run _ _ _ _ _ (copy_pieces_run (a ++ b) p s)). cbn [cbuf ck cf].
  rewrite concat_app, length_app, st_bytes_app, Nat2Z.inj_add, Z.add_assoc. done.
Qed.

Lemma read_text_file ds cur k i c n s : text_file k = true -> f_cgp (cf s) = Some i -> cgroups (cgt (ck s)) !! i = Some c -> ints k (cf s) c ->
  (k = CPU_WEIGHT \/ k = CPU_MAX -> enabled Cpu c = true) -> reads_text (cg_text k (cf s) c) n s (read_file ds cur k c n s).
Proof.
  intros Hk Hi Hc Hz Hen. pose proof (group_run i c s Hi Hc) as Hg.
  destruct k; try discriminate Hk; cbn [read_file cg_text]; try rewrite Hen by auto.
  all: unfold read_file_cg_stat, read_file_cpu_stat, read_file_cpu_weight, read_file_cpu_max, read_file_pid_max, read_file_pid_cur, read_file_set_cpu, read_file_set_frz, read_file_mem_cur, read_file_mem_max, read_file_mem_min, read_file_mem_stat.
  all: rewrite ?(bind_run _ _ _ _ _ (file_run s)), ?(bind_run _ _ _ _ _ Hg); unfold local_itoa, local_utoa; cbn [snd].
  - text_step. text_end.
  - text_step. text_step. text_end.
  - text_step. text_end.
  - text_step. text_end.
  - text_step. text_end.
  - text_step. text_end.
  - text_step. text_end.
  - text_step. text_step. text_end.
  - do 6 text_step. destruct (stat_at 0 (cf s) =? 0).
    + match goal with |- context [copy_pieces 0 ?a ≫= (fun p => mret p ≫= ?k)] => change (copy_pieces 0 a ≫= (fun p => mret p ≫= k)) with (copy_pieces 0 a ≫= (fun p => copy_pieces p [] ≫= k)) end.
      rewrite !pieces_app. text_end.
    + rewrite !pieces_app. text_end.
  - text_step. text_end.
  - text_step. text_end.
  - do 5 text_step. cbv zeta. unfold setbuf. rewrite modS_bind. eapply reads_cleared; [|text_end].
    rewrite !length_app. change (length nl) with 1%nat. lia.
Qed.

Lemma fit_length size l a : fit size l = Some a -> (length a < size)%nat.
Proof. unfold fit. destruct (Nat.ltb_spec (length l) size); [|done]. by intros [= <-]. Qed.

Ltac word_lengths := repeat match goal with |- context [length (W ?s)] => let n := eval vm_compute in (length (W s)) in change (length (W s)) with n end.

(** The text ends well before the buffer. *)
Lemma text_short k f c t : cg_text k f c = Some t -> (length t < 300)%nat.
Proof.
  intros H. destruct k; try discriminate H; cbv beta iota zeta delta [cg_text] in H.
  all: repeat match goal with H : (_ ≫= _) = Some _ |- _ => apply bind_Some in H as (? & ?%fit_length & H) end; apply (inj Some) in H; subst t.
  all: try destruct (_ =? _); rewrite ?length_app; word_lengths; change (length nl) with 1%nat; cbn [length]; lia.
Qed.

Lemma left_over_in len off n : 0 <= off <= len -> len < 2 ^ 31 -> 0 <= n < 2 ^ 31 -> left_over len off n = Z.min (len - off) n.
Proof.
  intros Ho Hl Hn. unfold left_over. rewrite (u32_id (len - off)), (u32_id n) by (unfold is_u32; lia). destruct (Z.ltb_spec 0 (len - off)).
  - destruct (Z.ltb_spec n (len - off)); rewrite s32_id by (unfold is_s32; lia); lia.
  - destruct (Z.ltb_spec n 0); rewrite s32_id by (unfold is_s32; lia); lia.
Qed.
(** Behind the end of the text the difference wraps around. *)
Lemma left_over_past len off n : 0 <= len < off -> off < 2 ^ 31 -> 0 <= n < 2 ^ 31 -> left_over len off n = n.
Proof.
  intros Hl Ho Hn. unfold left_over. assert (len -u off = 2 ^ 32 + len - off) as -> by (unfold u32; symmetry; apply (Z.mod_unique_pos _ _ (-1)); lia).
  destruct (Z.ltb_spec 0 (2 ^ 32 + len - off)); [|lia]. rewrite (u32_id n) by (unfold is_u32; lia). destruct (Z.ltb_spec n (2 ^ 32 + len - off)); [|lia]. apply s32_id. unfold is_s32. lia.
Qed.

Lemma copy_ext m m' p size : (forall a, p <= a -> m a = m' a) -> copy_buffer_up_to_end m p size = copy_buffer_up_to_end m' p size.
Proof. revert p. induction size as [|size IH]; intros p H; [done|]. cbn [copy_buffer_up_to_end]. rewrite (H p) by lia. destruct (m' p =? 0); [done|]. f_equal. apply IH. intros a Ha. apply H. lia. Qed.

Lemma copy_text_run t n m k f : bytes_at m 0 t -> chars t -> (length t < 300)%nat -> 0 <= f_off f < 2 ^ 31 -> 0 <= n < 2 ^ 31 ->
  copy_text (Z.of_nat (length t)) n (Cgf m k f) =
    let l := if f_off f <=? Z.of_nat (length t) then take (Z.to_nat n) (drop (Z.to_nat (f_off f)) t) else copy_buffer_up_to_end m (f_off f) (Z.to_nat n) in
    inr ((Z.of_nat (length l), l), Cgf m k f).
Proof.
  intros Hb Hc Ht Ho Hn. unfold copy_text. rewrite (bind_run _ _ _ _ _ (file_run _)), (bind_run _ _ _ _ _ (getS_run _)). cbn [cf cbuf]. destruct (Z.leb_spec (f_off f) (Z.of_nat (length t))).
  - rewrite left_over_in by lia. rewrite <- (take_drop (Z.to_nat (f_off f)) t) in Hb at 1.
    pose proof (bytes_at_drop m 0 t (Z.to_nat (f_off f))) as Hd. rewrite take_drop in Hb. specialize (Hd Hb). rewrite Z2Nat.id in Hd by lia. cbn [Z.add] in Hd.
    rewrite (copy_chars m (drop (Z.to_nat (f_off f)) t)); [|done|by apply Forall_drop|rewrite length_drop; lia]. cbv zeta.
    replace (take (Z.to_nat (Z.min (Z.of_nat (length t) - f_off f) n)) (drop (Z.to_nat (f_off f)) t)) with (take (Z.to_nat n) (drop (Z.to_nat (f_off f)) t)); [done|].
    destruct (decide (n <= Z.of_nat (length t) - f_off f)); [by rewrite Z.min_r by lia|]. rewrite !take_ge by (rewrite length_drop; lia). done.
  - rewrite left_over_past by lia. done.
Qed.

Lemma text_chars k f c t : ints k f c -> cg_text k f c = Some t -> chars t.
Proof.
  intros Hz H. destruct k; try discriminate H; cbv beta iota zeta delta [cg_text ints] in H, Hz.
  all: repeat match goal with H : (_ ≫= _) = Some _ |- _ => apply bind_Some in H as (? & ? & H) end; apply (inj Some) in H; subst t.
  all: try destruct (_ =? _); chars_tac.
Qed.

(** ** The lists of processes and controllers *)

Definition pid_line (o : option Z) : list Z := match o with None => [] | Some pid => itoa_str pid ++ nl end.
Definition pid_text (ps : list (option Z)) : list Z := concat (pid_line <$> ps).
(** The reader sees every process of the group. *)
Definition visible (ps : list (option Z)) : Prop := Forall (fun o => match o with None => True | Some pid => 0 < pid < 2 ^ 31 end) ps.

Lemma itoa_length_str m p pid : 0 < pid < 2 ^ 31 -> exists m', itoa m p pid = (Z.of_nat (length (itoa_str pid)), m') /\ bytes_at m' p (itoa_str pid ++ [0]).
Proof. intros Hp. rewrite itoa_utoa, itoa_str_utoa. destruct (utoa_at m p pid) as (m' & E & Hb & _); [unfold is_u32; lia|]. by exists m'. Qed.
Lemma count_length pid : 0 < pid < 2 ^ 31 -> count_digits 32 pid 0 = Z.of_nat (length (itoa_str pid)).
Proof.
  intros Hp. destruct (itoa_length_str (fun _ => 0) 0 pid Hp) as (m' & E & _). apply (f_equal fst) in E. cbn [fst] in E. rewrite <- E. unfold itoa. destruct (Z.eqb_spec pid 0); [lia|]. cbv zeta. reflexivity.
Qed.

Lemma find_procs_spec ps : forall off, visible ps -> 0 <= off ->
  match find_procs_offsets ps off with
  | None => Z.of_nat (length (pid_text ps)) <= off
  | Some (ps', o) => visible ps' /\ (exists pid ps'', ps' = Some pid :: ps'' /\ 0 <= o <= Z.of_nat (length (itoa_str pid))) /\
      (length ps' <= length ps)%nat /\ drop (Z.to_nat off) (pid_text ps) = drop (Z.to_nat o) (pid_text ps')
  end.
Proof.
  induction ps as [|[pid|] ps IH]; intros off Hv Ho; [cbn; lia|..]; apply Forall_cons in Hv as [Hp Hv]; cbn [find_procs_offsets].
  - rewrite (count_length pid Hp). destruct (Z.leb_spec (1 + Z.of_nat (length (itoa_str pid))) off) as [Hge|Hlt].
    + specialize (IH (off - (1 + Z.of_nat (length (itoa_str pid)))) Hv ltac:(lia)). assert (forall o, Z.to_nat off = length (pid_line (Some pid)) + o -> drop (Z.to_nat off) (pid_text (Some pid :: ps)) = drop o (pid_text ps))%nat as Hd.
      { intros o ->. change (pid_text (Some pid :: ps)) with (pid_line (Some pid) ++ pid_text ps). by rewrite drop_app_add. }
      change (pid_text (Some pid :: ps)) with (pid_line (Some pid) ++ pid_text ps) in *. assert (length (pid_line (Some pid)) = S (length (itoa_str pid))) as El by (cbn; rewrite length_app; cbn; lia).
      destruct (find_procs_offsets ps _) as [[ps' o]|].
      * destruct IH as (H1 & H2 & H3 & H4). split_and!; [done|done|cbn; lia|]. rewrite <- H4. apply Hd. rewrite El. lia.
      * rewrite length_app, El. lia.
    + split_and!; [by constructor|exists pid, ps; split; [done|lia]|done|done].
  - specialize (IH off Hv Ho). change (pid_text (None :: ps)) with (pid_text ps). destruct (find_procs_offsets ps off) as [[ps' o]|]; [|done]. destruct IH as (H1 & H2 & H3 & H4). split_and!; [done..|cbn; lia|done].
Qed.

Lemma read_procs_spec fuel : forall ps o n s, visible ps -> 0 <= n -> (length ps + Z.to_nat n < fuel)%nat ->
  match ps with Some pid :: _ => 0 <= o <= Z.of_nat (length (itoa_str pid)) | _ => o = 0 end ->
  exists m, read_procs_loop fuel ps o n s = inr (take (Z.to_nat n) (drop (Z.to_nat o) (pid_text ps)), Cgf m (ck s) (cf s)).
Proof.
  induction fuel as [|fuel IH]; intros ps o n s Hv Hn Hf Ho; [lia|]. destruct ps as [|[pid|] ps]; cbn [read_procs_loop].
  - exists (cbuf s). change (pid_text []) with (@nil Z). rewrite drop_nil, take_nil. by destruct s.
  - destruct (Z.leb_spec n 0); [exists (cbuf s); replace n with 0 by lia; by destruct s|]. apply Forall_cons in Hv as [Hp Hv]. unfold setbuf. rewrite modS_bind, (bind_run _ _ _ _ _ (getS_run _)). cbn [cbuf].
    destruct (itoa_length_str (memset (cbuf s) 0 0 MAX_PID_LENGTH) 0 pid Hp) as (m' & E & Hb). rewrite E, modS_bind. cbn [cbuf ck cf].
    change (pid_text (Some pid :: ps)) with ((itoa_str pid ++ nl) ++ pid_text ps). destruct (Z.ltb_spec o (Z.of_nat (length (itoa_str pid)))) as [Hlt|Hge].
    + destruct (IH (Some pid :: ps) (o + 1) (n - 1) (Cgf m' (ck s) (cf s))) as (m & Em); [by constructor|lia|cbn in *; lia|lia|]. exists m. rewrite (bind_run _ _ _ _ _ Em). unfold mret, M_ret. do 2 f_equal.
      destruct (lookup_lt_is_Some_2 (itoa_str pid) (Z.to_nat o)) as [c Hc]; [lia|].
      assert (m' o = c) as ->. { rewrite <- (Hb (Z.to_nat o) c) by (by apply lookup_app_l_Some). f_equal. lia. }
      change (pid_text (Some pid :: ps)) with ((itoa_str pid ++ nl) ++ pid_text ps). replace (Z.to_nat (o + 1)) with (S (Z.to_nat o)) by lia. replace (Z.to_nat n) with (S (Z.to_nat (n - 1))) by lia.
      rewrite (drop_S _ c (Z.to_nat o)); [done|]. by apply lookup_app_l_Some, lookup_app_l_Some.
    + destruct (IH ps 0 (n - 1) (Cgf m' (ck s) (cf s))) as (m & Em); [done|lia|cbn in *; lia|destruct ps as [|[] ?]; [done|lia|done]|]. exists m. rewrite (bind_run _ _ _ _ _ Em). unfold mret, M_ret. do 2 f_equal.
      assert (o = Z.of_nat (length (itoa_str pid))) as -> by lia. rewrite Nat2Z.id, <- app_assoc, drop_app_length. replace (Z.to_nat n) with (S (Z.to_nat (n - 1))) by lia. done.
  - subst o. destruct (Z.leb_spec n 0); [exists (cbuf s); replace n with 0 by lia; by destruct s|]. apply Forall_cons in Hv as [_ Hv]. change (pid_text (None :: ps)) with (pid_text ps).
    apply IH; [done|lia|cbn in *; lia|destruct ps as [|[] ?]; [done|lia|done]].
Qed.

Definition ctl_names (sel : controller -> cgroup -> bool) (c : cgroup) : list (list Z) :=
  let on k (s : string) := if sel k c then [W s ++ nl] else [] in on Cpu "cpu"%string ++ on Pid "pid"%string ++ on CpuSet "set"%string ++ on Mem "mem"%string.
Definition ctl_text (sel : controller -> cgroup -> bool) (c : cgroup) : list Z := concat (ctl_names sel c).
Definition events_text (c : cgroup) : list Z :=
  W "populated - " ++ (if populated c then [49] else [48]) ++ nl ++ W "frozen - " ++ (if negb (is_frozen c =? 0) then [49] else [48]) ++ nl.

Lemma ctl_text_ok sel c : chars (ctl_text sel c) /\ (length (ctl_text sel c) <= 16)%nat.
Proof. unfold ctl_text, ctl_names. destruct (sel Cpu c), (sel Pid c), (sel CpuSet c), (sel Mem c); (split; [by repeat constructor|cbn; lia]). Qed.
Lemma events_text_ok c : chars (events_text c) /\ length (events_text c) = 25%nat.
Proof. unfold events_text. destruct (populated c), (is_frozen c =? 0); (split; [by repeat constructor|done]). Qed.

Lemma add_all_run names : forall i s, add_all names i s = inr (i + Z.of_nat (length (concat names)), Cgf (st_bytes (cbuf s) i (concat names)) (ck s) (cf s)).
Proof.
  intros i s. rewrite <- copy_pieces_run. revert i s. induction names as [|l ls IH]; intros i s; [done|]. cbn [add_all copy_pieces]. unfold move_and_add, copy_and_move_buffer, setbuf.
  rewrite !bind_assoc, !modS_bind, !(bind_run _ _ _ _ _ eq_refl). apply IH.
Qed.

(** A read that gives the part of [t] behind the offset. *)
Definition slices (t : list Z) (n : Z) (s : cgf) (r : stop + (Z * list Z) * cgf) : Prop :=
  exists m, let l := take (Z.to_nat n) (drop (Z.to_nat (f_off (cf s))) t) in r = inr ((Z.of_nat (length l), l), Cgf m (ck s) (cf s)).

Lemma string_part (t : list Z) m off n z : bytes_at m 0 (t ++ [0]) -> chars t -> 0 <= off <= Z.of_nat (length t) -> 0 <= n -> Z.of_nat (length t) <= z ->
  copy_buffer_up_to_end m off (Z.to_nat (Z.min z n)) = take (Z.to_nat n) (drop (Z.to_nat off) t).
Proof.
  intros Hb Hc Ho Hn Hz. pose proof (bytes_at_drop m 0 _ (Z.to_nat off) Hb) as Hd. rewrite Z2Nat.id, Z.add_0_l in Hd by lia. rewrite drop_app_le in Hd by lia.
  rewrite (copy_string m (drop (Z.to_nat off) t)); [|done|by apply Forall_drop]. destruct (decide (n <= z)); [by rewrite Z.min_r by lia|]. rewrite !take_ge by (rewrite length_drop; lia). done.
Qed.
Lemma read_controllers_slices sel i c n s : f_cgp (cf s) = Some i -> cgroups (cgt (ck s)) !! i = Some c -> 0 <= f_off (cf s) <= Z.of_nat (length (ctl_text sel c)) -> 0 <= n ->
  slices (ctl_text sel c) n s (read_controllers sel n s).
Proof.
  intros Hi Hc Ho Hn. pose proof (ctl_text_ok sel c) as [Hch Hl]. unfold read_controllers. rewrite (bind_run _ _ _ _ _ (file_run s)), (bind_run _ _ _ _ _ (group_run i c s Hi Hc)). unfold setbuf. rewrite modS_bind. cbv zeta. cbn [snd].
  fold (ctl_names sel c). rewrite (bind_run _ _ _ _ _ (add_all_run _ 0 _)), (bind_run _ _ _ _ _ (getS_run _)). cbn [cbuf ck cf]. fold (ctl_text sel c). rewrite Z.add_0_l. eexists. unfold mret, M_ret. rewrite (string_part (ctl_text sel c)); [done| |done|lia|lia|lia].
  intros j x Hj. apply lookup_app_Some in Hj as [Hj|[Hj1 Hj2]]; [by apply st_bytes_in; [apply chars_bytes|]|]. destruct (j - length (ctl_text sel c))%nat eqn:Ej; [|done]. injection Hj2 as <-.
  rewrite st_bytes_out by lia. rewrite memset_spec by done. unfold in_range, MAX_STR. destruct (Z.leb_spec 0 (0 + Z.of_nat j)), (Z.ltb_spec (0 + Z.of_nat j) (0 + 64)); try lia. done.
Qed.

Lemma read_events_slices i c n s : f_cgp (cf s) = Some i -> cgroups (cgt (ck s)) !! i = Some c -> 0 <= f_off (cf s) <= Z.of_nat (length (events_text c)) -> 0 <= n < 2 ^ 31 ->
  slices (events_text c) n s (read_file_cg_events n s).
Proof.
  intros Hi Hc Ho Hn. destruct (events_text_ok c) as [Hch Hl]. unfold read_file_cg_events. rewrite (bind_run _ _ _ _ _ (file_run s)), (bind_run _ _ _ _ _ (group_run i c s Hi Hc)). cbv zeta. cbn [snd].
  match goal with |- context [mem_of 0 ?t] => assert (t = events_text c ++ [0]) as -> by (unfold events_text; by rewrite <- !app_assoc) end.
  rewrite u32_id, length_app, Hl by (unfold is_u32; lia). cbn [length]. exists (cbuf s). unfold mret, M_ret. rewrite (string_part (events_text c)); [by destruct s| |done|lia|lia|lia].
  intros j x Hj. pose proof (lookup_lt_Some _ _ _ Hj) as Hlt. unfold mem_of, in_range. destruct (Z.leb_spec 0 (0 + Z.of_nat j)), (Z.ltb_spec (0 + Z.of_nat j) (0 + Z.of_nat (length (events_text c ++ [0])))); try lia. cbn [andb].
  replace (Z.to_nat (0 + Z.of_nat j - 0)) with j by lia. rewrite (list_lookup_total_correct _ _ _ Hj), u8_id; [done|]. apply lookup_app_Some in Hj as [Hj|[_ Hj]]; [by eapply (proj1 (Forall_lookup _ _) (chars_bytes _ Hch))|].
  apply list_lookup_singleton_Some in Hj as [_ <-]. done.
Qed.

(** ** Reading a file *)

Definition plain (k : cgroup_file_name) : bool := match k with CGROUP_MAX_DESCENDANTS | CGROUP_MAX_DEPTH | IO_STAT => false | _ => true end.

(** The text of a file of the group [c] with the processes [ps]; [None] where a number does not fit into its array. *)
Definition file_text (k : cgroup_file_name) (f : vfs_file) (c : cgroup) (ps : list (option Z)) : option (list Z) :=
  match k with
  | CGROUP_PROCS => Some (pid_text ps)
  | CGROUP_CONTROLLERS => Some (ctl_text avalible c)
  | CGROUP_SUBTREE_CONTROL => Some (ctl_text enabled c)
  | CGROUP_EVENTS => Some (events_text c)
  | _ => cg_text k f c
  end.

(** [cf s] is the file [k] of the group [i], open for reading; [cur] sees the processes [ps] in it. *)
Record opened (cur : nat) (k : cgroup_file_name) (i : nat) (c : cgroup) (ps : list (option Z)) (s : cgf) : Prop := {
  op_name : get_file_name_constant (f_cgfilename (cf s)) = Some k;
  op_cgp : f_cgp (cf s) = Some i;
  op_group : cgroups (cgt (ck s)) !! i = Some c;
  op_path : cgroup_dir_path c <> [];
  op_readable : readable (cf s) = true;
  op_procs : k = CGROUP_PROCS -> pid_slots cur (Cgroup.proc c) (ck s) = inr (ps, ck s) /\ visible ps;
  op_ints : ints k (cf s) c;
  op_cpu : k = CPU_WEIGHT \/ k = CPU_MAX -> enabled Cpu c = true
}.

Lemma read_procs_slices cur i c ps n s : opened cur CGROUP_PROCS i c ps s -> 0 <= f_off (cf s) < 2 ^ 31 -> 0 <= n -> slices (pid_text ps) n s (read_file_cg_procs cur n s).
Proof.
  intros [_ Hi Hc _ _ Hpv _ _] Ho Hn. destruct (Hpv eq_refl) as [Hps Hv]. unfold read_file_cg_procs. rewrite (bind_run _ _ _ _ _ (file_run s)), (bind_run _ _ _ _ _ (group_run i c s Hi Hc)). cbn [snd].
  assert (onk (pid_slots cur (Cgroup.proc c)) s = inr (ps, s)) as E by (unfold onk; rewrite Hps; by destruct s). rewrite (bind_run _ _ _ _ _ E), s32_id by (unfold is_s32; lia).
  pose proof (find_procs_spec ps (f_off (cf s)) Hv (proj1 Ho)) as Hf. destruct (find_procs_offsets ps (f_off (cf s))) as [[ps' o]|].
  - destruct Hf as (Hv' & (pid & ps'' & -> & Ho') & _ & Ed). destruct (read_procs_spec (S (length (Some pid :: ps'')) + Z.to_nat n) (Some pid :: ps'') o n s Hv' Hn ltac:(lia) Ho') as (m & Em).
    exists m. rewrite (bind_run _ _ _ _ _ Em), <- Ed. done.
  - exists (cbuf s). cbv zeta. rewrite (drop_ge (pid_text ps)), take_nil by lia. by destruct s.
Qed.

Lemma read_plain ds cur k i c ps t n s : opened cur k i c ps s -> plain k = true -> file_text k (cf s) c ps = Some t -> 0 <= f_off (cf s) <= Z.of_nat (length t) -> f_off (cf s) < 2 ^ 31 -> 0 <= n < 2 ^ 31 ->
  slices t n s (read_file ds cur k c n s).
Proof.
  intros Hop Hk Ht Ho Hoo Hn. pose proof Hop as [_ Hi Hc _ _ _ Hz Hen]. destruct (text_file k) eqn:Ek.
  - assert (cg_text k (cf s) c = Some t) as Ht' by (destruct k; done). pose proof (read_text_file ds cur k i c n s Ek Hi Hc Hz Hen) as H. rewrite Ht' in H. destruct H as (m & Hb & _ & ->).
    rewrite (copy_text_run t n m); [|done|by eapply text_chars|by eapply text_short|lia|done]. cbv zeta. rewrite (proj2 (Z.leb_le _ _)) by lia. by exists m.
  - destruct k; try discriminate; injection Ht as <-; cbn [read_file].
    + eapply read_procs_slices; [done|lia|lia].
    + eapply (read_controllers_slices enabled); [done..|lia].
    + eapply (read_controllers_slices avalible); [done..|lia].
    + eapply read_events_slices; done.
Qed.

Lemma cg_read_run ds cur k i c ps n s r m : opened cur k i c ps s -> read_file ds cur k c n s = inr (r, Cgf m (ck s) (cf s)) ->
  unsafe_cg_read_file ds cur n s = inr (r, Cgf m (ck s) (with_f_off (f_off (cf s) +u r.1) (cf s))).
Proof.
  intros [Hnm Hi Hc Hp Hr _ _ _] E. unfold unsafe_cg_read_file. rewrite (bind_run _ _ _ _ _ (file_run s)), (bind_run _ _ _ _ _ (group_run i c s Hi Hc)). rewrite Hnm, Hr. cbn [negb orb snd].
  rewrite bool_decide_false by done. rewrite (bind_run _ _ _ _ _ E). done.
Qed.

Lemma opened_moved cur k i c ps s m o : opened cur k i c ps s -> opened cur k i c ps (Cgf m (ck s) (with_f_off o (cf s))).
Proof. intros []. by split. Qed.
Lemma text_moved k f c ps o : file_text k (with_f_off o f) c ps = file_text k f c ps.
Proof. by destruct k. Qed.

(** A read of a file of a group whose offset is not behind the end of the file gives the next bytes of the text of the file, at
    most as many as asked for, and moves the offset behind them; the group and the processes do not change. *)
Lemma cg_read_slices ds cur k i c ps t n s : opened cur k i c ps s -> plain k = true -> file_text k (cf s) c ps = Some t ->
  0 <= f_off (cf s) <= Z.of_nat (length t) -> f_off (cf s) < 2 ^ 31 -> 0 <= n < 2 ^ 31 ->
  let l := take (Z.to_nat n) (drop (Z.to_nat (f_off (cf s))) t) in
  exists m, unsafe_cg_read ds cur CG_FILE n s = inr ((Z.of_nat (length l), l), Cgf m (ck s) (with_f_off (f_off (cf s) + Z.of_nat (length l)) (cf s))).
Proof.
  intros Hop Hk Ht Ho Hoo Hn l. destruct (read_plain ds cur k i c ps t n s Hop Hk Ht Ho Hoo Hn) as (m & E). exists m. cbn [unsafe_cg_read]. rewrite (cg_read_run ds cur k i c ps n s _ m Hop E). cbn [fst]. fold l.
  assert (Z.of_nat (length l) <= n) by (unfold l; rewrite length_take; lia). rewrite u32_id by (unfold is_u32; lia). done.
Qed.

(** Reads of [n] bytes until one gives nothing, as in cat. *)
Fixpoint read_all (ds : Z -> Z -> list Z) (fuel cur : nat) (n : Z) : M cgf (list Z) :=
  match fuel with
  | O => nofuel
  | S fuel => r ← unsafe_cg_read ds cur CG_FILE n; if r.1 <=? 0 then mret [] else l ← read_all ds fuel cur n; mret (r.2 ++ l)
  end.

Lemma read_all_from ds cur k i c ps t n fuel : 0 < n < 2 ^ 31 -> plain k = true -> Z.of_nat (length t) < 2 ^ 31 -> forall s, opened cur k i c ps s -> file_text k (cf s) c ps = Some t ->
  0 <= f_off (cf s) <= Z.of_nat (length t) -> (length t < fuel + Z.to_nat (f_off (cf s)))%nat ->
  exists s', read_all ds fuel cur n s = inr (drop (Z.to_nat (f_off (cf s))) t, s').
Proof.
  intros Hn Hk Hlt. induction fuel as [|fuel IH]; intros s Hop Ht Ho Hf; [lia|]. cbn [read_all unsafe_cg_read]. destruct (read_plain ds cur k i c ps t n s Hop Hk Ht Ho ltac:(lia) ltac:(lia)) as (m & E).
  set (l := take _ _) in E. pose proof (cg_read_run ds cur k i c ps n s _ m Hop E) as E'. rewrite (bind_run _ _ _ _ _ E'). cbn [fst snd].
  assert (length l = Nat.min (Z.to_nat n) (length t - Z.to_nat (f_off (cf s)))) as Hl by (unfold l; rewrite length_take, length_drop; done). destruct (Z.leb_spec (Z.of_nat (length l)) 0).
  - eexists. rewrite drop_ge by lia. done.
  - rewrite u32_id by (unfold is_u32; lia). destruct (IH (Cgf m (ck s) (with_f_off (f_off (cf s) + Z.of_nat (length l)) (cf s)))) as (s' & Es); [by apply opened_moved|cbn [cf]; by rewrite text_moved|cbn; lia|cbn; lia|].
    rewrite (bind_run _ _ _ _ _ Es). exists s'. unfold mret, M_ret. do 2 f_equal. cbn [cf f_off with_f_off]. rewrite <- (take_drop (length l) (drop (Z.to_nat (f_off (cf s))) t)), drop_drop. f_equal; [|f_equal; lia].
    unfold l at 1. destruct (decide (Z.to_nat n <= length t - Z.to_nat (f_off (cf s)))%nat); [by rewrite Hl, Nat.min_l by done|]. rewrite !take_ge by (rewrite ?length_drop; lia). done.
Qed.



(** ** Writing a limit *)

(** The number a limit file takes, where it is kept and what it changes. *)
Definition limit_setter (k : cgroup_file_name) : option ((option nat -> Z -> M cgs result_code) * nat) :=
  match k with PID_MAX => Some (set_max_procs, 1%nat) | SET_CPU => Some (set_cpu_id, 1%nat) | SET_FRZ => Some (frz_grp, 0%nat) | MEM_MAX => Some (set_max_mem, 1%nat) | _ => None end.
Definition limit_switch (k : cgroup_file_name) (c : cgroup) : bool :=
  match k with PID_MAX => enabled Pid c | SET_CPU => enabled CpuSet c | MEM_MAX => enabled Mem c | _ => true end.
Definition limit_allowed (k : cgroup_file_name) (c : cgroup) (v : Z) : bool :=
  match k with PID_MAX => v <=? 64 | SET_CPU => v <=? 9 | SET_FRZ => v <=? 1 | MEM_MAX => (min_mem (mem_ c) <=? v) && (v <=? KERNBASE) | _ => false end.
Definition limit_set (k : cgroup_file_name) (v : Z) (c : cgroup) : cgroup :=
  match k with
  | PID_MAX => with_max_num_of_procs v c | SET_CPU => with_cpu_to_use v c | SET_FRZ => with_is_frozen v c | MEM_MAX => with_mem_ (with_max_mem v (mem_ c)) c | _ => c
  end.
Definition limit_prefix (k : cgroup_file_name) : list Z := match k with PID_MAX => W "max - " | SET_CPU => W "use_cpu - " | _ => [] end.

Lemma copy_number_string user l addr max b : bytes_at user addr (l ++ [0]) -> Forall is_digit l -> (length l <= max)%nat -> (copy_number user b max addr).1 = l.
Proof.
  revert addr l. induction max as [|max IH]; intros addr [|x l] Hb Hd Hl; cbn [copy_number length] in *; try done; try lia.
  - pose proof (Hb 0%nat 0 eq_refl) as E. cbn in E. rewrite Z.add_0_r in E. rewrite E. by rewrite orb_true_r.
  - apply Forall_cons in Hd as [Hx Hd]. unfold is_digit in Hx. pose proof (Hb 0%nat x eq_refl) as E. cbn in E. rewrite Z.add_0_r in E. rewrite E.
    destruct (Z.eqb_spec x 44); [lia|]. destruct (Z.eqb_spec x 0); [lia|]. rewrite andb_false_r. cbn [orb fst]. f_equal. apply IH; [|done|lia]. intros i c Hi. rewrite <- (Hb (S i) c Hi). f_equal. lia.
Qed.

Lemma mem_of_bytes l : Forall is_byte l -> bytes_at (mem_of 0 l) 0 l.
Proof.
  intros Hl j x Hj. pose proof (lookup_lt_Some _ _ _ Hj) as Hlt. unfold mem_of, in_range. destruct (Z.leb_spec 0 (0 + Z.of_nat j)), (Z.ltb_spec (0 + Z.of_nat j) (0 + Z.of_nat (length l))); try lia. cbn [andb].
  replace (Z.to_nat (0 + Z.of_nat j - 0)) with j by lia. rewrite (list_lookup_total_correct _ _ _ Hj), u8_id; [done|]. by eapply (proj1 (Forall_lookup _ _) Hl).
Qed.

Lemma atoi_str_run l v s : decimal v l -> v < 2 ^ 31 -> atoi_str l s = inr (v, s).
Proof.
  intros Hd Hv. pose proof (decimal_chars v l Hd) as Hc. destruct Hd as (Hd & E & _). unfold atoi_str, atoi. rewrite (atoi_loop_spec l); [by rewrite E|done| |lia|lia|lia].
  split; [|apply (Forall_impl _ _ _ Hc); intros; lia]. apply mem_of_bytes, Forall_app. split; [by apply chars_bytes|by repeat constructor].
Qed.

Lemma limit_setter_run k setter slot i c v g : limit_setter k = Some (setter, slot) -> 0 <= v < 2 ^ 31 -> cgroups g !! i = Some c ->
  setter (Some i) v g = if limit_allowed k c v then inr (RESULT_SUCCESS_OPERATION, upd_cg i (limit_set k v) g) else inr (RESULT_SUCCESS, g).
Proof.
  intros Hk Hv Hc. destruct k; try discriminate Hk; injection Hk as <- <-; cbn [limit_allowed limit_set].
  - unfold set_max_procs. rewrite (proj2 (Z.leb_le 0 v)) by lia. change (Z.of_nat NPROC) with 64. by destruct (v <=? 64).
  - unfold set_cpu_id. rewrite (proj2 (Z.leb_le 0 v)) by lia. change (NCPU + 1) with 9. destruct (Z.leb_spec v 9); [|done]. by rewrite u8_id by (unfold is_byte; lia).
  - unfold frz_grp. destruct (Z.eqb_spec v 1), (Z.eqb_spec v 0), (Z.leb_spec v 1); try lia; done.
  - unfold set_max_mem, get_cg. mrun. rewrite Hc. rewrite andb_comm. by destruct (_ && _).
Qed.

Definition on_group (i : nat) (f : cgroup -> cgroup) (k : kst) : kst := Kst (procs k) (initproc k) (upd_cg i f (cgt k)) (nst k) (calls k).

Lemma write_limit_run user conv setter slot addr n k i c v l s : limit_setter k = Some (setter, slot) -> conv v = v -> 0 <= v < 2 ^ 31 -> decimal v l -> (length l <= 31)%nat -> bytes_at user addr (l ++ [0]) ->
  f_cgp (cf s) = Some i -> cgroups (cgt (ck s)) !! i = Some c ->
  write_limit user conv setter slot addr n s = if limit_allowed k c v then inr (n, Cgf (cbuf s) (on_group i (limit_set k v) (ck s)) (with_f_stats (<[slot := v]> (f_stats (cf s))) (cf s))) else inr (-1, s).
Proof.
  intros Hk Hcv Hv Hd Hl Hb Hi Hc. unfold write_limit. pose proof (copy_number_string user l addr (NUMBER_SIZE - 1) true Hb (proj1 Hd) Hl) as E. destruct (copy_number user true (NUMBER_SIZE - 1) addr) as [l' e]. cbn [fst] in E. subst l'.
  rewrite (bind_run _ _ _ _ _ (atoi_str_run l v s Hd ltac:(lia))). destruct (Z.eqb_spec v (-1)); [lia|]. rewrite (bind_run _ _ _ _ _ (group_run i c s Hi Hc)). cbn [fst]. rewrite Hcv.
  pose proof (limit_setter_run k setter slot i c v (cgt (ck s)) Hk Hv Hc) as Es. unfold ong, onk, oncg, mbind, M_bind. rewrite Es. destruct (limit_allowed k c v); [done|]. by destruct s as [b [] f].
Qed.

(** The number fits into the array it is read through. *)
Definition limit_printable (k : cgroup_file_name) (v : Z) : Prop := k = MEM_MAX -> v < 10 ^ 9.

Lemma decimal_u32 v l : decimal v l -> is_u32 v -> l = utoa_str v.
Proof. intros Hd Hv. eapply decimal_unique; [done|by apply utoa_str_decimal]. Qed.

Lemma limit_text k setter slot f c v l : limit_setter k = Some (setter, slot) -> 0 <= v < 2 ^ 31 -> decimal v l -> limit_printable k v -> (slot < length (f_stats f))%nat ->
  cg_text k (with_f_stats (<[slot := v]> (f_stats f)) f) c = Some (limit_prefix k ++ l ++ nl).
Proof.
  intros Hk Hv Hd Hp Hs. assert (forall f, f_stats f !!! slot = v -> fit 11 (itoa_str (stat_at slot f)) = Some l) as Hi.
  { intros f' E. unfold stat_at. rewrite E, itoa_str_utoa, <- (decimal_u32 v l) by (done || unfold is_u32; lia). pose proof (decimal_length v l 10 Hd ltac:(lia) ltac:(lia)). unfold fit. by rewrite (proj2 (Nat.ltb_lt _ _)) by lia. }
  assert (f_stats (with_f_stats (<[slot := v]> (f_stats f)) f) !!! slot = v) as Ev by (cbn; by apply list_lookup_total_insert_eq).
  destruct k; try discriminate Hk; injection Hk as <- <-; cbv beta iota zeta delta [cg_text limit_prefix].
  - by rewrite (Hi _ Ev).
  - by rewrite (Hi _ Ev).
  - by rewrite (Hi _ Ev).
  - unfold stat_at. rewrite Ev, u32_id, <- (decimal_u32 v l) by (done || unfold is_u32; lia). pose proof (decimal_length v l 9 Hd (Hp eq_refl) ltac:(lia)). unfold fit. by rewrite (proj2 (Nat.ltb_lt _ _)) by lia.
Qed.

Lemma upd_cg_eq i f c g : cgroups g !! i = Some c -> cgroups (upd_cg i f g) !! i = Some (f c).
Proof. intros H. cbn. by rewrite list_lookup_alter_eq, H. Qed.

Lemma ints_put k f c j v : is_s32 v -> (j < length (f_stats f))%nat -> ints k f c -> limit_setter k <> None -> ints k (with_f_stats (<[j := v]> (f_stats f)) f) (limit_set k v c).
Proof.
  intros Hv Hj Hz Hk. destruct k; try done; intros j'; unfold stat_at; cbn [with_f_stats f_stats].
  all: destruct (decide (j' = j)) as [->|Hne]; [by rewrite list_lookup_total_insert_eq|rewrite list_lookup_total_insert_ne by done; apply (Hz j')].
Qed.

Lemma limit_opened cur k setter slot i c ps v s m : limit_setter k = Some (setter, slot) -> is_s32 v -> (slot < length (f_stats (cf s)))%nat -> opened cur k i c ps s ->
  opened cur k i (limit_set k v c) ps (Cgf m (on_group i (limit_set k v) (ck s)) (with_f_stats (<[slot := v]> (f_stats (cf s))) (cf s))).
Proof.
  intros Hk Hv Hs [Hnm Hi Hc Hp Hr _ Hz _]. split; cbn [cf ck on_group cgt with_f_stats f_cgfilename f_cgp readable]; try done.
  - by apply upd_cg_eq.
  - by destruct k.
  - by destruct k.
  - apply ints_put; [done..|]. by rewrite Hk.
  - destruct k; (done || by intros [?|?]).
Qed.

Lemma cg_write_limit user fuel cur k setter slot addr n i c ps v l s : limit_setter k = Some (setter, slot) -> opened cur k i c ps s -> writable (cf s) = true -> limit_switch k c = true -> n <= MAX_BUF ->
  0 <= v < 2 ^ 31 -> decimal v l -> bytes_at user addr (l ++ [0]) ->
  unsafe_cg_write user fuel cur addr n s = if limit_allowed k c v then inr (n, Cgf (cbuf s) (on_group i (limit_set k v) (ck s)) (with_f_stats (<[slot := v]> (f_stats (cf s))) (cf s))) else inr (-1, s).
Proof.
  intros Hk [Hnm Hi Hc Hp Hr _ _ _] Hw Hsw Hn Hv Hd Hb. unfold unsafe_cg_write. rewrite (bind_run _ _ _ _ _ (file_run s)), (bind_run _ _ _ _ _ (group_run i c s Hi Hc)), Hw. cbn [negb orb snd].
  rewrite bool_decide_false, (proj2 (Z.ltb_ge _ _)), Hnm by done. pose proof (decimal_length v l 10 Hd ltac:(lia) ltac:(lia)).
  assert (forall conv, conv v = v -> write_limit user conv setter slot addr n s = if limit_allowed k c v then inr (n, Cgf (cbuf s) (on_group i (limit_set k v) (ck s)) (with_f_stats (<[slot := v]> (f_stats (cf s))) (cf s))) else inr (-1, s)) as E
    by (intros conv Hcv; apply (write_limit_run user conv setter slot addr n k i c v l s); (done || lia)).
  destruct k; try discriminate Hk; cbn [limit_switch] in Hsw; injection Hk as <- <-; cbn [orb]; rewrite ?Hsw; apply E; [done..|]. apply u32_id. unfold is_u32. lia.
Qed.


(** ** Writing cgroup.subtree_control *)

Definition ctl_word (k : controller) : list Z := match k with Cpu => W "cpu" | Pid => W "pid" | CpuSet => W "set" | Mem => W "mem" end.

(** The text that asks for the switches [ops], a sign and a name each, with spaces between them. *)
Definition op_text (o : bool * controller) : list Z := (if o.1 then 43 else 45) :: ctl_word o.2.
Fixpoint subtree_text (ops : list (bool * controller)) : list Z :=
  match ops with [] => [] | o :: ops => op_text o ++ match ops with [] => [] | _ => 32 :: subtree_text ops end end.

(** The last sign the controller is given. *)
Definition asked (k : controller) (ops : list (bool * controller)) : Z :=
  match last (filter (fun o => o.2 = k) ops) with None => 0 | Some o => if o.1 : bool then 1 else 2 end.

Lemma copy_word user w : forall p max d, Forall (fun x => x <> 32 /\ x <> 0) w -> (length w <= max)%nat -> bytes_at user p (w ++ [d]) -> d = 32 \/ d = 0 ->
  copy_until_char user p 32 max = (w, Z.of_nat (length w) + (if d =? 32 then 1 else 0)).
Proof.
  induction w as [|x w IH]; intros p max d Hw Hl Hb Hd; pose proof (Hb 0%nat) as E.
  - specialize (E d eq_refl). rewrite Z.add_0_r in E. destruct max; cbn [copy_until_char]; rewrite E; by destruct Hd as [-> | ->].
  - specialize (E x eq_refl). rewrite Z.add_0_r in E. apply Forall_cons in Hw as [[Hx1 Hx2] Hw]. destruct max as [|max]; [cbn in Hl; lia|]. cbn [copy_until_char]. rewrite E.
    rewrite (proj2 (Z.eqb_neq x 32)), (proj2 (Z.eqb_neq x 0)) by done. cbn [orb]. rewrite (IH (p + 1) max d Hw ltac:(cbn in Hl; lia)); [|intros j c Hj; rewrite <- (Hb (S j) c Hj); f_equal; lia|done].
    cbn [fst snd length]. f_equal. lia.
Qed.

Lemma ctl_word_ok k : Forall (fun x => x <> 32 /\ x <> 0) (ctl_word k) /\ length (ctl_word k) = 3%nat.
Proof. by destruct k; split; repeat constructor. Qed.

Lemma asked_snoc k ops o : asked k (ops ++ [o]) = if decide (k = o.2) then if o.1 then 1 else 2 else asked k ops.
Proof.
  unfold asked. rewrite filter_app. destruct (decide (k = o.2)) as [->|Hk].
  - rewrite filter_cons_True by done. by rewrite filter_nil, last_snoc.
  - rewrite filter_cons_False by congruence. by rewrite filter_nil, app_nil_r.
Qed.

Lemma subtree_text_length o ops : (4 <= length (subtree_text (o :: ops)))%nat.
Proof. cbn [subtree_text]. rewrite length_app. unfold op_text. cbn [length]. rewrite (proj2 (ctl_word_ok _)). lia. Qed.

Lemma parse_op user fuel addr n st total o d s : bytes_at user addr (op_text o ++ [d]) -> d = 32 \/ d = 0 -> 4 <= n ->
  let len := 4 + (if d =? 32 then 1 else 0) in
  exists m, parse_subtree user (S fuel) addr n st total s =
    parse_subtree user fuel (addr + len) n (fun k => if decide (k = o.2) then if o.1 then 1 else 2 else st k) (total + len) (Cgf m (ck s) (cf s)).
Proof.
  intros Hb Hd Hn len. destruct (ctl_word_ok o.2) as [Hw Hl]. pose proof (Hb 0%nat _ eq_refl) as E. rewrite Z.add_0_r in E. cbn [parse_subtree].
  rewrite E, (copy_word user (ctl_word o.2) (addr + 1) (Z.to_nat (n - 1)) d Hw); [|lia|intros j c Hj; rewrite <- (Hb (S j) c Hj); f_equal; lia|done].
  rewrite (proj2 (Z.ltb_lt 0 n)) by lia. eexists (st_bytes (memset (cbuf s) 0 0 16) 0 (ctl_word o.2 ++ [0])). rewrite Hl.
  replace (Z.of_nat 3 + (if d =? 32 then 1 else 0) + 1) with len by (unfold len; lia). clearbody len. clear Hl Hw E Hb. unfold setbuf.
  destruct o as [[] []]; cbn [fst snd ctl_word Z.eqb Pos.eqb negb andb]; rewrite !modS_bind; cbn [cbuf ck cf]; repeat (rewrite decide_True by done || rewrite decide_False by (intros [=])); reflexivity.
Qed.

Lemma parse_text user n ops : forall fuel addr st pre total s, (forall k, st k = asked k pre) -> bytes_at user addr (subtree_text ops ++ [0]) -> Z.of_nat (length (subtree_text ops)) <= n -> (length ops < fuel)%nat ->
  exists st' m, parse_subtree user fuel addr n st total s = inr (Some (st', total + Z.of_nat (length (subtree_text ops))), Cgf m (ck s) (cf s)) /\ forall k, st' k = asked k (pre ++ ops).
Proof.
  induction ops as [|o ops IH]; intros fuel addr st pre total s Hst Hb Hn Hf; destruct fuel as [|fuel]; try (cbn in Hf; lia).
  - exists st, (cbuf s). cbn [parse_subtree]. pose proof (Hb 0%nat 0 eq_refl) as E. rewrite Z.add_0_r in E. rewrite E. cbn [negb andb Z.eqb]. rewrite app_nil_r. split; [|done]. cbn. rewrite Z.add_0_r. by destruct s.
  - pose proof (subtree_text_length o ops) as Hl. assert (length (op_text o) = 4%nat) as Ho by (unfold op_text; cbn [length]; by rewrite (proj2 (ctl_word_ok _))).
    assert (exists d, (d = 32 \/ d = 0) /\ bytes_at user addr (op_text o ++ [d]) /\ bytes_at user (addr + (4 + if d =? 32 then 1 else 0)) (subtree_text ops ++ [0]) /\
      Z.of_nat (length (subtree_text (o :: ops))) = 4 + (if d =? 32 then 1 else 0) + Z.of_nat (length (subtree_text ops))) as (d & Hd & Hb1 & Hb2 & Ht).
    { destruct ops as [|o' ops].
      - exists 0. cbn [subtree_text] in *. rewrite app_nil_r in *. split_and!; [by right|done| |rewrite Ho; done]. intros j c Hj. rewrite <- (Hb (4 + j)%nat c); [f_equal; cbn [Z.eqb]; lia|]. rewrite lookup_app_r by lia. rewrite Ho. by replace (4 + j - 4)%nat with j by lia.
      - exists 32. set (tl := subtree_text (o' :: ops)) in *. change (subtree_text (o :: o' :: ops)) with (op_text o ++ 32 :: tl) in *. split_and!; [by left| | |rewrite length_app, Ho; cbn [length Z.eqb Pos.eqb]; lia].
        + intros j c Hj. apply Hb. rewrite <- app_assoc. replace (op_text o ++ (32 :: tl) ++ [0]) with ((op_text o ++ [32]) ++ tl ++ [0]) by (by rewrite <- app_assoc). by apply lookup_app_l_Some.
        + intros j c Hj. rewrite <- (Hb (5 + j)%nat c); [f_equal; cbn [Z.eqb Pos.eqb]; lia|]. rewrite <- app_assoc, lookup_app_r by lia. rewrite Ho. replace (5 + j - 4)%nat with (S j) by lia. done. }
    assert (0 <= if d =? 32 then 1 else 0) by (by destruct (d =? 32)).
    destruct (parse_op user fuel addr n st total o d s Hb1 Hd ltac:(lia)) as (m & ->). cbn in Hf.
    destruct (IH fuel (addr + (4 + if d =? 32 then 1 else 0)) (fun k => if decide (k = o.2) then if o.1 then 1 else 2 else st k) (pre ++ [o]) (total + (4 + if d =? 32 then 1 else 0)) (Cgf m (ck s) (cf s))) as (st' & m' & E & Hst'); [|exact Hb2|lia|lia|].
    { intros k. rewrite asked_snoc. by destruct (decide (k = o.2)). }
    exists st', m'. rewrite E, Ht. cbn [ck cf]. split; [do 4 f_equal; lia|]. intros k. by rewrite Hst', <- app_assoc.
Qed.

Definition with_cgt (g : cgs) (k : kst) : kst := Kst (procs k) (initproc k) g (nst k) (calls k).
Definition turn (k : controller) (v : bool) (i : nat) : M cgs result_code :=
  match k, v with
  | Mem, true => unsafe_enable_mem_controller (Some i) | Mem, false => unsafe_disable_mem_controller (Some i)
  | _, true => enable_controller k (Some i) | _, false => disable_controller k (Some i)
  end.

(** From [g] to [g'] only the flags of [k] change. *)
Definition kept (k : controller) (g g' : cgs) : Prop :=
  length (cgroups g') = length (cgroups g) /\ forall j c', cgroups g' !! j = Some c' -> exists c, cgroups g !! j = Some c /\
    parent c' = parent c /\ populated c' = populated c /\ forall q, q <> k -> enabled q c' = enabled q c /\ avalible q c' = avalible q c.

Lemma kept_inert k g g' : inert g g' -> kept k g g'.
Proof.
  intros (L & _ & _ & H). split; [done|]. intros j c' E. destruct (H j c' E) as (c & Ec & (_ & _ & Hp & Hf & _ & _ & _ & _ & Hpop)%core_all). exists c. split_and!; try done.
  intros q _. by apply ctl_flags.
Qed.
Lemma kept_switch k i v g g' : cored (switch k i v) g g' -> kept k g g'.
Proof.
  intros (L & _ & H). split; [done|]. intros j c' E. destruct (H j c' E) as (c & Ec & (_ & _ & Hp & Hf & _ & _ & _ & _ & Hpop)%core_all). exists c. destruct (switch_fields k i v j c) as (_ & Ep & _ & _ & _ & _ & Epop).
  split_and!; [done|congruence|congruence|]. intros q Hq. destruct (ctl_flags (switch k i v j c) c' q Hf) as [-> ->]. rewrite switch_enabled, switch_avalible, !decide_False by tauto. done.
Qed.

Lemma kept_child k q i g g' : kept k g g' -> q <> k -> child_enabled q i (cgroups g') = true -> child_enabled q i (cgroups g) = true.
Proof.
  intros (_ & H) Hq. unfold child_enabled. rewrite !existsb_exists. intros (c' & Hin & [Hp He]%andb_prop). apply list_elem_of_In, list_elem_of_lookup in Hin as (j & Ej).
  rewrite lookup_tail in Ej. destruct (H (S j) c' Ej) as (c & Ec & Ep & _ & Hf). destruct (Hf q Hq) as [Ee _]. exists c. split; [|rewrite <- Ep, <- Ee; by rewrite Hp, He].
  apply list_elem_of_In, list_elem_of_lookup. exists j. by rewrite lookup_tail.
Qed.

Definition wanted (a : Z) (k : controller) (c : cgroup) : bool := if a =? 1 then enabled k c || avalible k c else if a =? 2 then false else enabled k c.
(** Why a switch is refused. *)
Definition refused (a : Z) (k : controller) (i : nat) (c : cgroup) (g : cgs) : Prop :=
  a = 1 /\ (populated c = true \/ k = Mem) \/ a = 2 /\ enabled k c = true /\ child_enabled k i (cgroups g) = true.

Lemma turn_controller_run k v i g c : length (cgroups g) = NPROC -> cgroups g !! i = Some c ->
  exists r g', turn k v i g = inr (r, g') /\ if v then enables k i c r g g' else disables k i c r g g'.
Proof.
  intros L Hc. assert (forall (m : M cgs result_code) (P : result_code -> cgs -> Prop), (exists r g', m g = inr (r, g') /\ cg_locked g' = cg_locked g /\ P r g') -> exists r g', m g = inr (r, g') /\ P r g') as H.
  { clear. intros m P (r & g' & E & _ & H). eauto. }
  destruct v; apply H; destruct k; cbn [turn]; (by apply enable_mem_run) || (by apply disable_mem_run) || (by apply enable_run) || (by apply disable_run).
Qed.

Lemma turned (a : bool) k i c r g g' : (if a then enables k i c r g g' else disables k i c r g g') -> cg_ok g -> cgroups g !! i = Some c ->
  cg_ok g' /\ kept k g g' /\ if is_error r then refused (if a then 1 else 2) k i c g else forall c', cgroups g' !! i = Some c' -> enabled k c' = wanted (if a then 1 else 2) k c.
Proof.
  intros H Hok Hc. assert (forall v, cored (switch k i v) g g' -> forall c', cgroups g' !! i = Some c' -> enabled k c' = v) as Hsw.
  { intros v (_ & _ & Hs) c' E. destruct (Hs i c' E) as (c0 & E0 & (_ & _ & _ & Hf & _)%core_all). destruct (ctl_flags (switch k i v i c0) c' k Hf) as [-> _]. by rewrite switch_enabled, decide_True. }
  assert (inert g g' -> forall c', cgroups g' !! i = Some c' -> enabled k c' = enabled k c) as Hin.
  { intros (_ & _ & _ & Hs) c' E. destruct (Hs i c' E) as (c0 & E0 & (_ & _ & _ & Hf & _)%core_all). destruct (ctl_flags c0 c' k Hf) as [-> _]. congruence. }
  split; [destruct a; [by eapply enables_ok|by eapply disables_ok]|]. unfold wanted, refused. destruct a; cbn [Z.eqb Pos.eqb].
  - unfold enables in H. destruct (populated c) eqn:Ep; [destruct H as [-> ->]; split; [apply kept_inert, inert_refl|left; auto]|]. destruct (avalible k c && negb (enabled k c)) eqn:Ea.
    + apply andb_prop in Ea as [Ea Ee]. destruct H as [[-> H]|(-> & -> & H)]; [|split; [by apply kept_inert|left; auto]]. split; [by eapply kept_switch|]. intros c' E. rewrite (Hsw _ H _ E), Ea. by rewrite orb_true_r.
    + destruct H as [[-> H]|(-> & -> & H)]; [|split; [by apply kept_inert|left; auto]]. split; [by apply kept_inert|]. intros c' E. rewrite (Hin H _ E). by destruct (enabled k c), (avalible k c).
  - unfold disables in H. destruct (enabled k c) eqn:Ee; cbn [negb] in H; [|destruct H as [-> ->]; split; [apply kept_inert, inert_refl|intros c' E; rewrite (Hin (inert_refl g) _ E); congruence]].
    destruct (child_enabled k i (cgroups g)) eqn:Ech; [destruct H as [-> ->]; split; [apply kept_inert, inert_refl|right; auto]|]. destruct H as [-> H]. split; [by eapply kept_switch|]. intros c' E. by apply (Hsw false).
Qed.

(** One of the four switches. *)
Lemma switch_step a k i c s : a = 0 \/ a = 1 \/ a = 2 -> cg_ok (cgt (ck s)) -> cgroups (cgt (ck s)) !! i = Some c ->
  exists b g', switch_controller a (turn k true i) (turn k false i) s = inr (b, Cgf (cbuf s) (with_cgt g' (ck s)) (cf s)) /\ cg_ok g' /\ kept k (cgt (ck s)) g' /\
    if b : bool then forall c', cgroups g' !! i = Some c' -> enabled k c' = wanted a k c else refused a k i c (cgt (ck s)).
Proof.
  intros Ha Hok Hc. pose proof (to_len _ (ok_tree _ Hok)) as L. unfold switch_controller, ong, onk, oncg.
  assert (forall v, exists r g', turn k v i (cgt (ck s)) = inr (r, g') /\ cg_ok g' /\ kept k (cgt (ck s)) g' /\
    if is_error r then refused (if v then 1 else 2) k i c (cgt (ck s)) else forall c', cgroups g' !! i = Some c' -> enabled k c' = wanted (if v : bool then 1 else 2) k c) as T.
  { intros v. destruct (turn_controller_run k v i _ c L Hc) as (r & g' & E & H). exists r, g'. split; [done|]. by apply turned. }
  destruct Ha as [->|[-> | ->]]; cbn [Z.eqb Pos.eqb].
  - exists true, (cgt (ck s)). split; [by destruct s as [? [] ?]|]. split; [done|]. split; [apply kept_inert, inert_refl|]. intros c' E. unfold wanted. cbn. congruence.
  - destruct (T true) as (r & g' & E & Hok' & Hk & H). exists (negb (is_error r)), g'. unfold mbind, M_bind. rewrite E. split; [done|]. split; [done|]. split; [done|]. by destruct (is_error r).
  - destruct (T false) as (r & g' & E & Hok' & Hk & H). exists (negb (is_error r)), g'. unfold mbind, M_bind. rewrite E. split; [done|]. split; [done|]. split; [done|]. by destruct (is_error r).
Qed.

(** The controllers [ks] are switched, the others are as before. *)
Definition progress (ops : list (bool * controller)) (i : nat) (c : cgroup) (g0 : cgs) (ks : list controller) (g : cgs) : Prop :=
  cg_ok g /\ (exists c', cgroups g !! i = Some c' /\ populated c' = populated c /\
    forall q, if decide (q ∈ ks) then enabled q c' = wanted (asked q ops) q c else enabled q c' = enabled q c /\ avalible q c' = avalible q c) /\
  forall q, q ∉ ks -> child_enabled q i (cgroups g) = true -> child_enabled q i (cgroups g0) = true.

Lemma asked_cases k ops : asked k ops = 0 \/ asked k ops = 1 \/ asked k ops = 2.
Proof. unfold asked. destruct (last _) as [[[] ?]|]; auto. Qed.

Lemma progress_step ops i c g0 ks k s : k ∉ ks -> progress ops i c g0 ks (cgt (ck s)) ->
  exists b g', switch_controller (asked k ops) (turn k true i) (turn k false i) s = inr (b, Cgf (cbuf s) (with_cgt g' (ck s)) (cf s)) /\
    if b : bool then progress ops i c g0 (k :: ks) g' else cg_ok g' /\ refused (asked k ops) k i c g0.
Proof.
  intros Hk (Hok & (c1 & Hc1 & Hp1 & Hf1) & Hch). pose proof (Hf1 k) as Hk1. rewrite decide_False in Hk1 by done. destruct Hk1 as [He1 Ha1].
  destruct (switch_step (asked k ops) k i c1 s (asked_cases k ops) Hok Hc1) as (b & g' & E & Hok' & Hkept & H). exists b, g'. split; [done|]. destruct b.
  - split; [done|]. destruct (lookup_lt_is_Some_2 (cgroups g') i) as [c' Hc']; [rewrite (proj1 Hkept); by eapply lookup_lt_Some|]. destruct (proj2 Hkept i c' Hc') as (c2 & E2 & _ & Hp2 & Hf2). assert (c2 = c1) as -> by congruence.
    split; [exists c'; split; [done|]; split; [congruence|]|].
    + intros q. destruct (decide (q = k)) as [->|Hq]; [rewrite decide_True by left; rewrite (H c' Hc'); unfold wanted; by rewrite He1, Ha1|]. destruct (Hf2 q Hq) as [-> ->]. specialize (Hf1 q).
      destruct (decide (q ∈ ks)); [by rewrite decide_True by (by right)|]. rewrite decide_False; [done|]. by intros [?|?]%elem_of_cons.
    + intros q [Hqk Hq]%not_elem_of_cons Hc. apply Hch; [done|]. by eapply kept_child.
  - split; [done|]. unfold refused in *. rewrite Hp1, He1 in H. destruct H as [H|(? & ? & ?)]; [by left|right; auto].
Qed.

Lemma switches_run ops i c s n total (st : controller -> Z) : (forall k, st k = asked k ops) -> cg_ok (cgt (ck s)) -> cgroups (cgt (ck s)) !! i = Some c ->
  let sw k := switch_controller (st k) (turn k true i) (turn k false i) in
  exists r g', (ok ← sw Cpu; if negb ok then mret (-1) else ok ← sw Pid; if negb ok then mret (-1) else ok ← sw CpuSet; if negb ok then mret (-1) else
      ok ← sw Mem; if negb ok then mret (-1) else mret (n - total)) s = inr (r, Cgf (cbuf s) (with_cgt g' (ck s)) (cf s)) /\ cg_ok g' /\
    (r = n - total /\ (exists c', cgroups g' !! i = Some c' /\ forall k, enabled k c' = wanted (asked k ops) k c) \/ r = -1 /\ exists k, refused (asked k ops) k i c (cgt (ck s))).
Proof.
  intros Hst Hok Hc sw. subst sw. cbv beta. rewrite !Hst. assert (progress ops i c (cgt (ck s)) [] (cgt (ck s))) as H0.
  { split; [done|]. split; [|auto]. exists c. split; [done|]. split; [done|]. intros q. by rewrite decide_False by apply not_elem_of_nil. }
  destruct (progress_step ops i c _ [] Cpu s ltac:(by apply not_elem_of_nil) H0) as (b & g1 & E & H1). rewrite (bind_run _ _ _ _ _ E). destruct b; [|destruct H1; eexists _, _; eauto 10]. cbn [negb]. set (s1 := Cgf _ _ _).
  destruct (progress_step ops i c _ [Cpu] Pid s1 ltac:(set_solver) H1) as (b & g2 & E2 & H2). rewrite (bind_run _ _ _ _ _ E2). destruct b; [|destruct H2; eexists _, _; eauto 10]. cbn [negb]. set (s2 := Cgf _ (with_cgt g2 _) _).
  destruct (progress_step ops i c _ [Pid; Cpu] CpuSet s2 ltac:(set_solver) H2) as (b & g3 & E3 & H3). rewrite (bind_run _ _ _ _ _ E3). destruct b; [|destruct H3; eexists _, _; eauto 10]. cbn [negb]. set (s3 := Cgf _ (with_cgt g3 _) _).
  destruct (progress_step ops i c _ [CpuSet; Pid; Cpu] Mem s3 ltac:(set_solver) H3) as (b & g4 & E4 & H4). rewrite (bind_run _ _ _ _ _ E4). destruct b; [|destruct H4; eexists _, _; eauto 10]. cbn [negb].
  exists (n - total), g4. split; [done|]. destruct H4 as (Hok4 & (c' & Ec' & _ & Hf) & _). split; [done|]. left. split; [done|]. exists c'. split; [done|]. intros k. specialize (Hf k). rewrite decide_True in Hf; [done|]. destruct k; set_solver.
Qed.


(** ** Two processes in the root group, mounted at /c, and the group /c/a *)

Module CgDemo.

Definition k0 : kst := ProcDemo.next (oncg (set_cgroup_dir_path [] cgroup_root (W "/c"))) ProcDemo.d3.
Definition opened_file (i : nat) (name : string) (off : Z) (stats : list Z) : vfs_file := VfsF FD_CG 1 true true off None None None (Some i) (W name) stats.
Definition stale (a : Z) : Z := 65.
Definition at_file (k : kst) (name : string) (off : Z) (stats : list Z) (i : nat) : cgf := Cgf stale k (opened_file i name off stats).
Definition no_stat (id : Z) (a : Z) : list Z := [].
Definition root_of (k : kst) : cgroup := default zero_cgroup (cgroups (cgt k) !! 0%nat).
Definition slots_of (k : kst) : list (option Z) := match pid_slots 0 (Cgroup.proc (root_of k)) k with inr (l, _) => l | inl _ => [] end.

Lemma root_here : cgroups (cgt k0) !! 0%nat = Some (root_of k0).
Proof. vm_compute. reflexivity. Qed.
Lemma root_named : cgroup_dir_path (root_of k0) <> [].
Proof. assert (cgroup_dir_path (root_of k0) = W "/c") as -> by (vm_compute; reflexivity). done. Qed.
Lemma slots_here : pid_slots 0 (Cgroup.proc (root_of k0)) k0 = inr (slots_of k0, k0).
Proof. vm_compute. reflexivity. Qed.
Lemma slots_two : slots_of k0 = Some 1 :: Some 2 :: replicate 62 None.
Proof. vm_compute. reflexivity. Qed.

Lemma procs_opened : opened 0 CGROUP_PROCS 0 (root_of k0) (slots_of k0) (at_file k0 "cgroup.procs" 0 [] 0).
Proof.
  split; [vm_compute; reflexivity|done|exact root_here|exact root_named|done| |done|by intros [?|?]].
  intros _. split; [exact slots_here|]. rewrite slots_two. constructor; [lia|]. constructor; [lia|]. by apply Forall_replicate.
Qed.
Lemma pids_opened off : opened 0 PID_MAX 0 (root_of k0) [] (at_file k0 "pid.max" off [1; 64] 0).
Proof.
  split; [vm_compute; reflexivity|done|exact root_here|exact root_named|done|done| |by intros [?|?]].
  intros [|[|[|j]]]; unfold is_s32, stat_at; cbn; split; (discriminate || reflexivity).
Qed.

Definition two_pids : list Z := [49; 10; 50; 10].
Lemma two_pids_text : pid_text (slots_of k0) = two_pids.
Proof. rewrite slots_two. vm_compute. reflexivity. Qed.




Definition k1 : kst := with_cgt demo_created k0.
Definition group_a : cgroup := default zero_cgroup (cgroups demo_created !! 1%nat).
Definition ops : list (bool * controller) := [(true, Cpu); (false, Pid)].

Definition asks : list Z := subtree_text ops ++ [0].
Definition subtree_file : cgf := at_file k1 "cgroup.subtree_control" 0 [] 1.

End CgDemo.
