(* ===== verification/Sched.v ===== *)
(** * The scheduler

    A turn of the scheduler runs only processes it may run, and charges the time to their
    control groups.  What a process does while it runs is the argument [swtch]; the
    scheduler relies on it to keep the invariant of [ProcInv] when it was allowed to run. *)
From S2P Require Import Prelude Kalloc Cgroup CgroupTree CpuAccount Namespace Proc ProcInv.
Local Open Scope Z_scope.

(** The invariant of the tables, with no accounting period of zero. *)
Definition sched_inv (k : kst) : Prop :=
  kst_ok k /\ forall j c, cgroups (cgt k) !! j = Some c -> is_live (cgroups (cgt k)) j = true -> cpu_account_period (cpu_ c) <> 0.

(** The process is marked running; if it was not killed its group admits it on this processor and is not frozen; no group
    on the path to the root is over its limit. *)
Definition may_run (apicid : Z) (k : kst) (p : nat) : Prop :=
  exists q x, running k p q /\ ptab (cgt k) !! p = Some x /\
    (killed q = 0 -> exists i c, p_cgroup x = Some i /\ cgroups (cgt k) !! i = Some c /\
      (enabled CpuSet c = true -> cpu_to_use c = apicid) /\ is_frozen c <> 1) /\
    forall j c, j ∈ group_path (cgt k) (p_cgroup x) -> cgroups (cgt k) !! j = Some c -> enabled Cpu c = true ->
      cpu_period_time (cpu_ c) <= cpu_time_limit (cpu_ c).

Lemma accounted_group t c : enabled Cpu (accounted t c) = enabled Cpu c /\ enabled CpuSet (accounted t c) = enabled CpuSet c /\
  cpu_to_use (accounted t c) = cpu_to_use c /\ is_frozen (accounted t c) = is_frozen c /\
  cpu_time_limit (cpu_ (accounted t c)) = cpu_time_limit (cpu_ c) /\ cpu_account_period (cpu_ (accounted t c)) = cpu_account_period (cpu_ c).
Proof. unfold accounted, frame_at, throttle, new_frame. repeat case_match; done. Qed.

Lemma upd_groups_inv k f l : (forall c, core_of (f c) = core_of c /\ cpu_account_period (cpu_ (f c)) = cpu_account_period (cpu_ c)) -> sched_inv k ->
  sched_inv (Kst (procs k) (initproc k) (upd_all (on_path f l) (cgt k)) (nst k) (calls k)).
Proof.
  intros Hf [Hok Hp]. assert (inert (cgt k) (upd_all (on_path f l) (cgt k))) as Hi by (apply on_path_inert; intros; apply Hf). split.
  - apply (kst_quiet k); [done|apply quiet_all_refl|done|]. apply (inert_groups _ (cgt k)); [apply Hok|done].
  - intros j c Hc Hl. cbn [cgt] in Hc, Hl. rewrite (is_live_inert (cgt k) _ j Hi) in Hl. rewrite lookup_upd_all in Hc.
    apply fmap_Some in Hc as (c0 & Hc0 & ->). unfold on_path. case_decide; [|by apply (Hp j)]. rewrite (proj2 (Hf c0)). by apply (Hp j).
Qed.

Lemma quiet_inv k ps ev i : sched_inv k -> Forall2 quiet (procs k) ps -> sched_inv (Kst ps i (cgt k) (nst k) ev).
Proof. intros [Hok Hp] HQ. split; [by apply (kst_quiet_procs k)|done]. Qed.

Lemma quiet_acct q a : quiet q (with_acct a q).
Proof. split; try done. by left. Qed.

Lemma acct_inv k p f : sched_inv k -> sched_inv (upd p (fun q => with_acct (f q) q) k).
Proof. intros H. apply (quiet_inv k); [done|]. apply quiet_alter. intros; apply quiet_acct. Qed.

Section scheduling.
Context (apicid : Z) (clock : kst -> Z) (swtch : nat -> M kst unit).

(** What the scheduler relies on when it switches to a process it may run: the process returns, the invariant holds, and the
    group the scheduler recorded for the charge was not deleted meanwhile. *)
Definition swtch_returns : Prop := forall k p, sched_inv k -> may_run apicid k p ->
  okp (fun _ => False) (swtch p) k (fun _ k' => sched_inv k' /\
    forall i, ptab (cgt k) !! p ≫= p_cgroup = Some i -> is_live (cgroups (cgt k')) i = true).

Hypothesis Hswtch : swtch_returns.

(** The charge after the run. *)
Lemma charge_okp k p cpu : sched_inv k -> (p < NPROC)%nat -> (forall i, account_cgroup cpu = Some i -> is_live (cgroups (cgt k)) i = true) ->
  okp (fun _ => False) (k ← getS; q ← getp p; r ← oncg (cpu_account_after_process_schedule (clock k) cpu (acct q));
    modS (upd p (with_acct (snd r))) ;; mret (true, fst r)) k (fun _ k' => sched_inv k').
Proof.
  intros Hinv Hp Hg. pose proof (ko_groups _ (proj1 Hinv)) as Hgo. destruct (lookup_lt_is_Some_2 (procs k) p) as [q Hq]; [by rewrite (ko_len _ (proj1 Hinv))|].
  apply okp_bind, okp_getS, okp_bind, (okp_getp _ p q); [done|]. apply okp_bind, okp_oncg.
  eapply okp_run; [exact (after_run (clock k) cpu (acct q) (cgt k) (go_cg _ _ Hgo) (go_unlocked _ _ Hgo) Hg)|].
  apply okp_bind, okp_modS, okp_ret. set (k1 := Kst _ _ _ _ _). apply (acct_inv k1 p (fun _ => _)). by apply upd_groups_inv.
Qed.

(** After the decision the process may run. *)
Lemma decided_may_run k p q x cpu l : sched_inv k -> procs k !! p = Some q -> state q = RUNNABLE -> ptab (cgt k) !! p = Some x -> l = group_path (cgt k) (p_cgroup x) ->
  (killed q = 0 -> exists i c, p_cgroup x = Some i /\ cgroups (cgt k) !! i = Some c /\ (enabled CpuSet c = true -> cpu_to_use c = apicid) /\ is_frozen c <> 1) ->
  existsb (at_group (fun c => over_limit (frame_at (now cpu) c)) (cgt k)) l = false ->
  let k1 := Kst (procs k) (initproc k) (upd_all (on_path (accounted (now cpu)) l) (cgt k)) (nst k) (calls k) in
  may_run apicid (upd p (with_state RUNNING) k1) p.
Proof.
  intros Hinv Hq Hs Hx -> Hkill Hover k1. exists (with_state RUNNING q), x.
  split; [split; [simpl; by rewrite list_lookup_alter_eq, Hq|done]|]. split; [done|]. split.
  - intros Hk. destruct (Hkill Hk) as (i & c & Hi & Hc & Hset & Hfr). exists i, (on_path (accounted (now cpu)) (group_path (cgt k) (p_cgroup x)) i c).
    split; [done|]. split; [cbn [upd cgt k1]; by rewrite lookup_upd_all, Hc|].
    unfold on_path. destruct (accounted_group (now cpu) c) as (_ & E1 & E2 & E3 & _). case_decide; rewrite ?E1, ?E2, ?E3; done.
  - intros j c' Hj Hc' He. cbn [upd cgt k1] in Hj, Hc'.
    rewrite (group_path_inert (cgt k)) in Hj by (apply on_path_inert; intros; apply accounted_core).
    rewrite lookup_upd_all in Hc'. apply fmap_Some in Hc' as (c & Hc & ->). unfold on_path in *. rewrite decide_True in * by done.
    destruct (accounted_group (now cpu) c) as (E1 & _ & _ & _ & E2 & _). rewrite E1 in He. rewrite E2. destruct (accounted_keeps (now cpu) c) as (_ & -> & _).
    rewrite existsb_false in Hover. specialize (Hover j Hj). unfold at_group, over_limit in Hover. rewrite Hc, limit_keeps, enabled_keeps, He in Hover. simpl in Hover. lia.
Qed.

(** No group on the path of a process has period zero. *)
Lemma path_periods k p x : sched_inv k -> ptab (cgt k) !! p = Some x -> existsb (at_group no_period (cgt k)) (group_path (cgt k) (p_cgroup x)) = false.
Proof.
  intros [Hok Hp] Hx. apply existsb_false. intros j Hj. pose proof (go_cg _ _ (ko_groups _ Hok)) as Hcg.
  destruct (p_cgroup x) as [i|] eqn:Hi; cbn [group_path] in Hj; [|by apply not_elem_of_nil in Hj].
  destruct (live_ancestors (cgroups (cgt k)) i (ok_tree _ Hcg) (p_cgroup_live _ p x i Hcg Hx Hi)) as (l & _ & E & _ & _ & Hf).
  rewrite E in Hj. rewrite Forall_forall in Hf. unfold at_group. destruct (cgroups (cgt k) !! j) as [c|] eqn:Hc; [|done].
  apply Z.eqb_neq, (Hp j c Hc). by apply Hf.
Qed.

(** The tests on the group of a process that was not killed. *)
Lemma skip_okp k p q x i c : ptab (cgt k) !! p = Some x -> p_cgroup x = Some i -> cgroups (cgt k) !! i = Some c ->
  exists b, (if killed q =? 0 then
     x ← oncg (get_proc p); i ← deref (p_cgroup x); c ← oncg (get_cg i);
     mret ((enabled CpuSet c && negb (cpu_to_use c =? apicid)) || (is_frozen c =? 1))
   else mret false) k = inr (b, k) /\
  (b = false -> killed q = 0 -> exists i c, p_cgroup x = Some i /\ cgroups (cgt k) !! i = Some c /\ (enabled CpuSet c = true -> cpu_to_use c = apicid) /\ is_frozen c <> 1).
Proof.
  intros Hx Hi Hc. destruct (killed q =? 0) eqn:Ek; [|exists false; split; [done|lia]]. eexists. split.
  - rewrite (bind_run _ _ _ x k) by (unfold oncg; rewrite (get_proc_run _ _ _ Hx); by destruct k). rewrite Hi, (bind_run _ _ _ i k) by done.
    rewrite (bind_run _ _ _ c k) by (unfold oncg; rewrite (get_cg_run _ _ _ Hc); by destruct k). reflexivity.
  - intros [Hb Hf]%orb_false_iff _. exists i, c. split; [done|]. split; [done|]. split; [|lia]. intros He. rewrite He in Hb. simpl in Hb. lia.
Qed.

Lemma sched_one_okp k p cpu : sched_inv k -> (p < NPROC)%nat -> okp (fun _ => False) (sched_one apicid clock swtch p cpu) k (fun _ k' => sched_inv k').
Proof.
  intros Hinv0 Hp. destruct (lookup_lt_is_Some_2 (procs k) p) as [q0 Hq0]; [by rewrite (ko_len _ (proj1 Hinv0))|].
  unfold sched_one. apply okp_bind, (okp_getp _ p q0); [done|]. apply okp_bind, okp_modS.
  pose proof (acct_inv k p (fun q => cpu_account_schedule_proc_update cpu (acct q)) Hinv0) as Hinv. set (k1 := upd p _ k) in *.
  set (q1 := with_acct (cpu_account_schedule_proc_update cpu (acct q0)) q0).
  assert (procs k1 !! p = Some q1) as Hq1 by (subst k1; simpl; by rewrite list_lookup_alter_eq, Hq0).
  change (state q0) with (state q1). change (killed q0) with (killed q1). clearbody k1 q1.
  case_decide as Hs; [done|]. destruct (decide (state q1 = RUNNABLE)) as [Hr|]; [|done]. pose proof (ko_groups _ (proj1 Hinv)) as Hg.
  destruct (go_group _ _ Hg p q1 Hq1) as (x & i & Hx & Hi); [congruence|].
  destruct (live_in (cgt k1) i (go_cg _ _ Hg) (p_cgroup_live _ p x i (go_cg _ _ Hg) Hx Hi)) as (c & Hc & _).
  destruct (skip_okp k1 p q1 x i c Hx Hi Hc) as (b & Eb & Hb). apply okp_bind, (okp_run _ _ _ _ _ _ Eb). destruct b; [done|].
  pose proof (decision_run cpu p x (cgt k1) (go_cg _ _ Hg) (go_unlocked _ _ Hg) Hx) as Ed. cbv zeta in Ed. rewrite (path_periods k1 p x Hinv Hx) in Ed.
  apply okp_bind, okp_oncg, (okp_run _ _ _ _ _ _ Ed). cbn [fst snd].
  assert (sched_inv (Kst (procs k1) (initproc k1) (upd_all (on_path (accounted (now cpu)) (group_path (cgt k1) (p_cgroup x))) (cgt k1)) (nst k1) (calls k1))) as Hinv2
    by (apply upd_groups_inv; [|done]; intros d; split; [apply accounted_core|apply accounted_group]).
  destruct (existsb _ _) eqn:Eo; [done|]. pose proof (decided_may_run k1 p q1 x cpu _ Hinv Hq1 Hr Hx eq_refl (Hb eq_refl) Eo) as Hmay. cbv zeta in Hmay.
  apply okp_bind, okp_modS, okp_bind, okp_getS. set (k2 := upd p (with_state RUNNING) _) in *.
  assert (sched_inv k2) as Hinv3.
  { apply (quiet_inv (Kst _ _ _ _ _) _ _ _ Hinv2), quiet_alter. intros q' Hq'. assert (q' = q1) as -> by (simpl in Hq'; congruence).
    apply alive_state; [unfold alive; by rewrite Hr|done|done]. }
  apply okp_bind. eapply okp_mono; [exact (Hswtch k2 p Hinv3 Hmay)|done|]. intros [] k3 [Hinv4 Hlive].
  apply (charge_okp k3 p); [done|done|]. intros j Hj. apply Hlive. change (ptab (cgt k2) !! p) with (ptab (cgt k1) !! p). by rewrite Hx.
Qed.

Lemma sched_loop_okp ps : (forall p, p ∈ ps -> (p < NPROC)%nat) -> forall k cpu n, sched_inv k ->
  okp (fun _ => False) (sched_loop apicid clock swtch ps cpu n) k (fun _ k' => sched_inv k').
Proof.
  intros Hps. induction ps as [|p ps IH]; intros k cpu n Hinv; [done|]. cbn [sched_loop]. apply okp_bind.
  eapply okp_mono; [apply (sched_one_okp k p cpu Hinv), Hps; by left|done|]. intros r k' Hinv'. apply IH; [|done]. intros j Hj. apply Hps. by right.
Qed.

End scheduling.

Lemma scheduler_turn_eq apicid clock swtch cpu :
  scheduler_turn apicid clock swtch cpu = (k ← getS; sched_loop apicid clock swtch (seq 0 NPROC) (cpu_account_schedule_start (clock k) cpu) 0).
Proof. reflexivity. Qed.

Lemma turn_run apicid clock swtch ps k cpu : swtch_returns apicid swtch -> sched_inv k -> (forall p, p ∈ ps -> (p < NPROC)%nat) ->
  exists n cpu' k', (k ← getS; sched_loop apicid clock swtch ps (cpu_account_schedule_start (clock k) cpu) 0) k = inr (n, cpu', k') /\ sched_inv k'.
Proof.
  intros Hsw Hinv Hps. rewrite (bind_run _ _ _ _ _ (getS_run k)).
  pose proof (sched_loop_okp apicid clock swtch Hsw ps Hps k (cpu_account_schedule_start (clock k) cpu) 0 Hinv) as H.
  unfold okp in H. destruct (sched_loop _ _ _ _ _ _ _) as [e|[[n cpu'] k']]; [done|]. by exists n, cpu', k'.
Qed.


Module SchedDemo.

(** Processes that yield at once. *)
Definition yields (p : nat) : M kst unit := modS (upd p (with_state RUNNABLE)).

Lemma yields_returns apicid : swtch_returns apicid yields.
Proof.
  intros k p Hinv (q & x & Hrun & Hx & _). destruct (running_alive k p q Hrun) as [Hq Ha]. split.
  - apply (quiet_inv k _ _ _ Hinv), quiet_alter. intros q' Hq'. assert (q' = q) as -> by congruence. by apply alive_state.
  - rewrite Hx. intros i Hi. exact (p_cgroup_live _ p x i (go_cg _ _ (ko_groups _ (proj1 Hinv))) Hx Hi).
Qed.

(** Both processes of the run [d3] are ready. *)
Definition ready : kst := upd 1 (with_state RUNNABLE) (upd 0 (with_state RUNNABLE) ProcDemo.d3).

Definition periods_ok (k : kst) : bool := forallb (fun c => negb (cpu_account_period (cpu_ c) =? 0) || bool_decide (cgroup_dir_path c = [])) (cgroups (cgt k)).

Lemma ready_ok : kst_ok ready.
Proof.
  assert (procs ProcDemo.d3 !! 0%nat = Some (with_state RUNNING (init_slot 7 8))) as H0 by (vm_compute; reflexivity).
  assert (procs ProcDemo.d3 !! 1%nat = Some ProcDemo.child /\ alive ProcDemo.child = true) as [H1 Ha] by (vm_compute; split; reflexivity).
  unfold ready. pose proof (reachable_ok None demo_heap 7 8 _ (ProcDemo.d3_reachable None)) as Hok. revert H0 H1 Ha Hok.
  generalize ProcDemo.d3 ProcDemo.child. intros k q H0 H1 Ha Hok.
  apply (upd_alive_ok _ 1 q); [|by simpl; rewrite list_lookup_alter_ne|by apply alive_state].
  apply (upd_alive_ok _ 0 (with_state RUNNING (init_slot 7 8))); [done|done|by apply alive_state].
Qed.

Lemma ready_inv : sched_inv ready.
Proof.
  assert (at_group no_period (cgt ready) 0 = false /\ periods_ok ready = true) as [H0 H] by (vm_compute; split; reflexivity).
  pose proof ready_ok as Hok. revert H0 H Hok. generalize ready. intros k H0 H Hok. split; [done|].
  intros j c Hc Hl. unfold is_live in Hl. rewrite Hc in Hl. destruct (decide (j = 0%nat)) as [->|Hne].
  - unfold at_group in H0. rewrite Hc in H0. by apply Z.eqb_neq.
  - rewrite bool_decide_eq_false_2 in Hl by done. simpl in Hl. apply negb_true_iff, bool_decide_eq_false in Hl. unfold periods_ok in H.
    rewrite forallb_forall in H. specialize (H c (proj1 (list_elem_of_In _ _) (list_elem_of_lookup_2 _ _ _ Hc))).
    rewrite bool_decide_eq_false_2, orb_false_r in H by done. lia.
Qed.


(** Both ran. *)
Lemma ready_turn : match scheduler_turn 0 (fun _ => 1000) yields cpu_account_initialize ready with inr (n, _, _) => n = 2 | inl _ => False end.
Proof. vm_compute. reflexivity. Qed.

End SchedDemo.
