(* ===== verification/Shell.v ===== *)
(** * The shell's parser: user/sh.c

    A command line is its bytes, without the zero that ends it; positions in it
    stand for pointers.  A command that is executed is a node of the parser's
    store, so that the arguments found after a redirection reach the node the
    redirection already points to.  [malloc] is taken to succeed; [panic] ends
    the shell. *)

From S2P Require Import Prelude.

Definition MAXARGS : nat := 10.
Definition O_RDONLY : Z := 0.
Definition O_WRONLY : Z := 1.
Definition O_CREATE : Z := 256.

Definition LT : Z := 60.
Definition GT : Z := 62.
Definition BAR : Z := 124.
Definition AMP : Z := 38.
Definition SEMI : Z := 59.
Definition LPAR : Z := 40.
Definition RPAR : Z := 41.
Definition PLUS : Z := 43.
Definition WORD : Z := 97.   (* 'a' *)

Definition whitespace : list Z := [32; 9; 13; 10; 11].
Definition symbols : list Z := [LT; BAR; GT; AMP; SEMI; LPAR; RPAR].

(** The node of an EXEC command is an index of [execs]; its [argv] and [eargv] are one list of pairs. *)
Inductive cmd :=
  | EXEC (e : nat)
  | REDIR (c : cmd) (file efile : nat) (mode fd : Z)
  | PIPE (left right : cmd)
  | LIST (left right : cmd)
  | BACK (c : cmd).

Record parser := Parser { ps : nat; execs : list (list (nat * nat)) }.
Definition set_ps (v : nat) (st : parser) : parser := Parser v (execs st).

Definition strchr (l : list Z) (c : Z) : bool := existsb (Z.eqb c) l.
Definition is_word (c : Z) : bool := negb (strchr whitespace c) && negb (strchr symbols c).

Definition execcmd : M parser nat :=
  st ← getS; modS (fun st => Parser (ps st) (execs st ++ [[]])) ;; mret (length (execs st)).
Definition redircmd (subcmd : cmd) (file efile : nat) (mode fd : Z) : cmd := REDIR subcmd file efile mode fd.
Definition pipecmd (left right : cmd) : cmd := PIPE left right.
Definition listcmd (left right : cmd) : cmd := LIST left right.
Definition backcmd (subcmd : cmd) : cmd := BACK subcmd.
(** [argv[argc] = q; eargv[argc] = eq]: the arguments so far are the [argc] first ones. *)
Definition add_arg (e : nat) (q eq : nat) : M parser unit :=
  modS (fun st => Parser (ps st) (alter (fun l => l ++ [(q, eq)]) e (execs st))).

Section parse.
Context (s : list Z).

Definition es : nat := length s.
Definition char_at (i : nat) : Z := default 0 (s !! i).

(** [while (s < es && p( *s)) s++], with [n] characters before [es]. *)
Fixpoint skip (p : Z -> bool) (n i : nat) : nat :=
  match n with O => i | S n => if p (char_at i) then skip p n (S i) else i end.
Definition skip_space (i : nat) : nat := skip (strchr whitespace) (es - i) i.

Definition gettoken : M parser (Z * nat * nat) :=
  st ← getS;
  let q := skip_space (ps st) in
  let c := char_at q in
  let '(ret, eq) :=
    if c =? 0 then (0, q)
    else if strchr [BAR; LPAR; RPAR; SEMI; AMP; LT] c then (c, S q)
    else if c =? GT then (if char_at (S q) =? GT then (PLUS, S (S q)) else (c, S q))
    else (WORD, skip is_word (es - q) q) in
  modS (set_ps (skip_space eq)) ;;
  mret (ret, q, eq).

Definition peek (toks : list Z) : M parser bool :=
  st ← getS;
  let i := skip_space (ps st) in
  modS (set_ps i) ;;
  mret (negb (char_at i =? 0) && strchr toks (char_at i)).

Fixpoint parseredirs (fuel : nat) (c : cmd) : M parser cmd :=
  match fuel with
  | O => nofuel
  | S fuel =>
      b ← peek [LT; GT];
      if b : bool then
        '(tok, _, _) ← gettoken;
        '(tok2, q, eq) ← gettoken;
        if negb (tok2 =? WORD) then panic "missing file for redirection"
        else
          parseredirs fuel
            (if tok =? LT then redircmd c q eq O_RDONLY 0
             else if tok =? GT then redircmd c q eq (Z.lor O_WRONLY O_CREATE) 1
             else if tok =? PLUS then redircmd c q eq (Z.lor O_WRONLY O_CREATE) 1
             else c)
      else mret c
  end.

(** The loop of [parseexec] over the arguments; [argc] of them are there. *)
Fixpoint parseargs (fuel : nat) (e argc : nat) (ret : cmd) : M parser cmd :=
  match fuel with
  | O => nofuel
  | S fuel =>
      b ← peek [BAR; RPAR; AMP; SEMI];
      if b : bool then mret ret
      else
        '(tok, q, eq) ← gettoken;
        if tok =? 0 then mret ret
        else if negb (tok =? WORD) then panic "syntax"
        else
          add_arg e q eq ;;
          if (MAXARGS <=? argc + 1)%nat then panic "too many args"
          else ret ← parseredirs (S es) ret; parseargs fuel e (argc + 1) ret
  end.

(** [while (peek(ps, es, "&"))] of [parseline]. *)
Fixpoint parseamps (fuel : nat) (c : cmd) : M parser cmd :=
  match fuel with
  | O => nofuel
  | S fuel => b ← peek [AMP]; if b : bool then gettoken ;; parseamps fuel (backcmd c) else mret c
  end.

Fixpoint parseline (fuel : nat) : M parser cmd :=
  match fuel with
  | O => nofuel
  | S fuel =>
      c ← parsepipe fuel;
      c ← parseamps (S es) c;
      b ← peek [SEMI];
      if b : bool then gettoken ;; r ← parseline fuel; mret (listcmd c r) else mret c
  end
with parsepipe (fuel : nat) : M parser cmd :=
  match fuel with
  | O => nofuel
  | S fuel =>
      c ← parseexec fuel;
      b ← peek [BAR];
      if b : bool then gettoken ;; r ← parsepipe fuel; mret (pipecmd c r) else mret c
  end
with parseexec (fuel : nat) : M parser cmd :=
  match fuel with
  | O => nofuel
  | S fuel =>
      b ← peek [LPAR];
      if b : bool then parseblock fuel
      else
        e ← execcmd;
        ret ← parseredirs (S es) (EXEC e);
        parseargs (S es) e 0 ret
  end
with parseblock (fuel : nat) : M parser cmd :=
  match fuel with
  | O => nofuel
  | S fuel =>
      b ← peek [LPAR];
      if negb b then panic "parseblock"
      else
        gettoken ;;
        c ← parseline fuel;
        b ← peek [RPAR];
        if negb b then panic "syntax - missing )"
        else gettoken ;; parseredirs (S es) c
  end.
End parse.

(** Zeroes stored behind the words of a command; the buffer is the line and its final zero. *)
Fixpoint nulterminate (h : list (list (nat * nat))) (c : cmd) (buf : list Z) : list Z :=
  match c with
  | EXEC e => foldl (fun b r => <[r.2 := 0]> b) buf (h !!! e)
  | REDIR c _ efile _ _ => <[efile := 0]> (nulterminate h c buf)
  | PIPE l r => nulterminate h r (nulterminate h l buf)
  | LIST l r => nulterminate h r (nulterminate h l buf)
  | BACK c => nulterminate h c buf
  end.

(** Four calls for every character are enough. *)
Definition parse_fuel (s : list Z) : nat := (4 * length s + 4)%nat.

(** The command, the nodes and the buffer. *)
Definition parsecmd (s : list Z) : stop + (cmd * list (list (nat * nat)) * list Z) :=
  match (c ← parseline s (parse_fuel s);
         peek s [] ;;
         st ← getS;
         if negb (ps st =? es s)%nat then panic "syntax" else mret c) (Parser 0 []) with
  | inl e => inl e
  | inr (c, st) => inr (c, execs st, nulterminate (execs st) c (s ++ [0]))
  end.

(** ** What a parsed command says *)

(** The C string at a position. *)
Fixpoint until0 (l : list Z) : list Z :=
  match l with [] => [] | c :: l => if c =? 0 then [] else c :: until0 l end.
Definition cstr (buf : list Z) (q : nat) : list Z := until0 (drop q buf).

Inductive tree :=
  | TExec (argv : list (list Z))
  | TRedir (t : tree) (file : list Z) (mode fd : Z)
  | TPipe (l r : tree)
  | TList (l r : tree)
  | TBack (t : tree).

(** The command as [runcmd] sees it in the buffer. *)
Fixpoint tree_of (h : list (list (nat * nat))) (buf : list Z) (c : cmd) : tree :=
  match c with
  | EXEC e => TExec ((fun r => cstr buf r.1) <$> h !!! e)
  | REDIR c f _ mode fd => TRedir (tree_of h buf c) (cstr buf f) mode fd
  | PIPE l r => TPipe (tree_of h buf l) (tree_of h buf r)
  | LIST l r => TList (tree_of h buf l) (tree_of h buf r)
  | BACK c => TBack (tree_of h buf c)
  end.

(** The words of a command. *)
Fixpoint words (h : list (list (nat * nat))) (c : cmd) : list (nat * nat) :=
  match c with
  | EXEC e => h !!! e
  | REDIR c f ef _ _ => words h c ++ [(f, ef)]
  | PIPE l r | LIST l r => words h l ++ words h r
  | BACK c => words h c
  end.

(** ** Positions of words *)

(** [m] returns with [Q] or stops with a message. *)
Definition runs {A} (m : M parser A) (st : parser) (Q : A -> parser -> Prop) : Prop :=
  match m st with inr (a, st') => Q a st' | inl (Panic _) => True | inl _ => False end.

Lemma runs_bind {A B} (m : M parser A) (k : A -> M parser B) st Q : runs m st (fun a st' => runs (k a) st' Q) -> runs (m ≫= k) st Q.
Proof. unfold runs, mbind, M_bind. by destruct (m st) as [[]|[a st']]. Qed.
Lemma runs_mono {A} (m : M parser A) st (P Q : A -> parser -> Prop) : runs m st P -> (forall a st', P a st' -> Q a st') -> runs m st Q.
Proof. unfold runs. destruct (m st) as [[]|[a st']]; auto. Qed.

Section words.
Context (s : list Z).

(** A maximal run of characters of words. *)
Definition word_ok (r : nat * nat) : Prop :=
  (r.1 < r.2 <= es s)%nat /\ (forall i, (r.1 <= i < r.2)%nat -> is_word (char_at s i) = true) /\ ((r.2 < es s)%nat -> is_word (char_at s r.2) = false).

Fixpoint cmd_ok (h : list (list (nat * nat))) (c : cmd) : Prop :=
  match c with
  | EXEC e => (e < length h)%nat
  | REDIR c f ef _ _ => cmd_ok h c /\ word_ok (f, ef)
  | PIPE l r | LIST l r => cmd_ok h l /\ cmd_ok h r
  | BACK c => cmd_ok h c
  end.

Lemma skip_spec p n i : (i <= skip s p n i <= i + n)%nat /\ (forall j, (i <= j < skip s p n i)%nat -> p (char_at s j) = true) /\
  ((skip s p n i < i + n)%nat -> p (char_at s (skip s p n i)) = false).
Proof.
  revert i. induction n as [|n IH]; intros i; cbn [skip]; [split_and!; lia|]. destruct (p (char_at s i)) eqn:E; [|split_and!; (lia || done)].
  destruct (IH (S i)) as (H1 & H2 & H3). split_and!; [lia|lia| |intros; apply H3; lia]. intros j Hj. destruct (decide (j = i)) as [->|]; [done|]. apply H2. lia.
Qed.

Lemma skip_space_spec i : (i <= es s)%nat -> (i <= skip_space s i <= es s)%nat /\ ((skip_space s i < es s)%nat -> strchr whitespace (char_at s (skip_space s i)) = false).
Proof. intros Hi. destruct (skip_spec (strchr whitespace) (es s - i) i) as (H1 & _ & H3). unfold skip_space. split; [lia|]. intros H. apply H3. lia. Qed.

Lemma char_at_end i : (es s <= i)%nat -> char_at s i = 0.
Proof. intros H. unfold char_at. by rewrite lookup_ge_None_2. Qed.
Lemma char_at_lt i : char_at s i <> 0 -> (i < es s)%nat.
Proof. intros H. destruct (decide (i < es s)%nat); [done|]. exfalso. apply H, char_at_end. lia. Qed.

Lemma strchr_elem l c : strchr l c = true <-> c ∈ l.
Proof.
  unfold strchr. rewrite existsb_exists. setoid_rewrite Z.eqb_eq. split; [intros (x & Hx & ->); by apply list_elem_of_In|intros Hc; exists c; split; [by apply list_elem_of_In|done]].
Qed.
Lemma strchr_false l c : strchr l c = false <-> c ∉ l.
Proof. rewrite <- strchr_elem. by destruct (strchr l c). Qed.

(** A character that [gettoken] takes for the start of a word. *)
Lemma word_start c : c <> 0 -> strchr whitespace c = false -> strchr [BAR; LPAR; RPAR; SEMI; AMP; LT] c = false -> (c =? GT) = false -> is_word c = true.
Proof.
  intros H0 Hw Hs Hg. unfold is_word. rewrite Hw. cbn [negb andb]. rewrite negb_true_iff. rewrite strchr_false in *. apply Z.eqb_neq in Hg.
  intros Hin. apply Hs. unfold symbols in Hin. set_solver.
Qed.

Lemma gettoken_runs st : (ps st <= es s)%nat -> runs (gettoken s) st (fun '(tok, q, eq) st' =>
  execs st' = execs st /\ (ps st <= ps st' <= es s)%nat /\ (char_at s (skip_space s (ps st)) <> 0 \/ tok <> 0 -> (ps st < ps st')%nat) /\ (tok = WORD -> word_ok (q, eq))).
Proof.
  intros Hp. destruct (skip_space_spec (ps st) Hp) as [Hq Hnw]. unfold runs, gettoken. mrun. set (q := skip_space s (ps st)) in *. set (c := char_at s q) in *.
  assert (forall eq, (q <= eq <= es s)%nat -> (ps st <= skip_space s eq <= es s)%nat /\ ((q < eq)%nat -> (ps st < skip_space s eq)%nat)) as Hend.
  { intros eq He. destruct (skip_space_spec eq) as [H1 _]; [lia|]. lia. }
  destruct (Z.eqb_spec c 0) as [E0|E0]; cbn [set_ps ps execs].
  { destruct (Hend q) as [H1 _]; [lia|]. split_and!; try done; [lia..|]. by intros []. }
  pose proof (char_at_lt q E0) as Hlt. destruct (strchr [BAR; LPAR; RPAR; SEMI; AMP; LT] c) eqn:Es; cbn [set_ps ps execs].
  { destruct (Hend (S q)) as [H1 H2]; [lia|]. split_and!; try done; [lia..|]. intros ->. done. }
  destruct (c =? GT) eqn:Eg.
  { destruct (Z.eqb_spec (char_at s (S q)) GT) as [E2|]; cbn [set_ps ps execs].
    - pose proof (char_at_lt (S q) ltac:(by rewrite E2)). destruct (Hend (S (S q))) as [H1 H2]; [lia|]. split_and!; try done; lia.
    - destruct (Hend (S q)) as [H1 H2]; [lia|]. split_and!; try done; [lia..|]. apply Z.eqb_eq in Eg as ->. done. }
  pose proof (word_start c E0 (Hnw Hlt) Es Eg) as Hw. destruct (skip_spec is_word (es s - q) q) as (H1 & H2 & H3). cbn [set_ps ps execs].
  set (eq := skip s is_word (es s - q) q) in *. assert (q < eq)%nat as Hne.
  { unfold eq. destruct (es s - q)%nat as [|n] eqn:En; [lia|]. cbn [skip]. fold c. rewrite Hw. pose proof (skip_spec is_word n (S q)). lia. }
  destruct (Hend eq) as [H4 H5]; [lia|]. split_and!; try done; [lia..|]. intros _. split; [cbn; lia|]. split; [done|]. cbn. intros. apply H3. lia.
Qed.

Lemma peek_runs toks st : (ps st <= es s)%nat -> runs (peek s toks) st (fun b st' =>
  execs st' = execs st /\ (ps st <= ps st' <= es s)%nat /\ ps st' = skip_space s (ps st) /\ (b = true -> char_at s (skip_space s (ps st')) <> 0)).
Proof.
  intros Hp. destruct (skip_space_spec (ps st) Hp) as [Hq Hnw]. unfold runs, peek. mrun. cbn [set_ps ps execs]. split_and!; try done; [lia..|].
  intros [H0 _]%andb_true_iff. apply negb_true_iff, Z.eqb_neq in H0. pose proof (char_at_lt _ H0) as Hlt.
  replace (skip_space s (skip_space s (ps st))) with (skip_space s (ps st)); [done|]. unfold skip_space at 2.
  destruct (es s - skip_space s (ps st))%nat eqn:E; [lia|]. cbn [skip]. by rewrite Hnw by lia.
Qed.

(** ** Every parse ends, and stays inside the line *)

Record st_ok (st : parser) : Prop := StOk {
  so_pos : (ps st <= es s)%nat;
  so_words : Forall (Forall word_ok) (execs st);
  so_args : Forall (fun l => length l < MAXARGS)%nat (execs st)
}.

(** [c] has been parsed from [st] on: the nodes there were are as before. *)
Record parsed (st : parser) (c : cmd) (st' : parser) : Prop := Parsed {
  pa_ok : st_ok st';
  pa_pos : (ps st <= ps st')%nat;
  pa_cmd : cmd_ok (execs st') c;
  pa_old : execs st `prefix_of` execs st'
}.

Lemma cmd_ok_length h h' c : (length h <= length h')%nat -> cmd_ok h c -> cmd_ok h' c.
Proof. intros Hl. induction c; cbn; naive_solver lia. Qed.
Lemma cmd_ok_prefix h h' c : h `prefix_of` h' -> cmd_ok h c -> cmd_ok h' c.
Proof. intros [k ->]. apply cmd_ok_length. rewrite length_app. lia. Qed.
Lemma st_ok_same st st' : st_ok st -> execs st' = execs st -> (ps st' <= es s)%nat -> st_ok st'.
Proof. intros [H1 H2 H3] E Hp. split; [done|by rewrite E..]. Qed.

(** Fuel for a loop that moves forward in every round. *)
Lemma parseredirs_runs fuel c st : st_ok st -> cmd_ok (execs st) c -> (es s - ps st < fuel)%nat ->
  runs (parseredirs s fuel c) st (fun c' st' => parsed st c' st' /\ execs st' = execs st).
Proof.
  revert c st. induction fuel as [|fuel IH]; intros c st Hs Hc Hf; [lia|]. cbn [parseredirs]. pose proof (so_pos _ Hs) as Hp.
  apply runs_bind. eapply runs_mono; [by apply peek_runs|]. cbn beta. intros b st1 (E1 & H1 & _ & Hb). destruct b.
  2:{ unfold runs. cbn. split; [|done]. split; [eapply st_ok_same; [done|done|lia]|lia|by rewrite E1|by rewrite E1]. }
  apply runs_bind. eapply runs_mono; [apply gettoken_runs; lia|]. intros [[tok q0] eq0] st2 (E2 & H2 & Hp2 & _). specialize (Hp2 (or_introl (Hb eq_refl))).
  apply runs_bind. eapply runs_mono; [apply gettoken_runs; lia|]. intros [[tok2 q] eq] st3 (E3 & H3 & _ & Hw). destruct (Z.eqb_spec tok2 WORD) as [Et|]; cbn [negb]; [|done].
  set (c' := if tok =? LT then _ else _). assert (execs st3 = execs st) as E by congruence.
  eapply runs_mono; [apply IH; [eapply st_ok_same; [exact Hs|done|lia]| |lia]|].
  - rewrite E. unfold c'. repeat case_match; cbn; auto.
  - intros c2 st4 [[A B C D] E4]. split; [|congruence]. split; [done|lia|done|by rewrite <- E].
Qed.

Lemma add_arg_ok st e q eq l : st_ok st -> execs st !! e = Some l -> word_ok (q, eq) -> (length l + 1 < MAXARGS)%nat ->
  st_ok (Parser (ps st) (alter (fun l => l ++ [(q, eq)]) e (execs st))).
Proof.
  intros [H1 H2 H3] Hl Hw Hn. split; [done| |]; cbn [execs]; rewrite (alter_insert _ _ _ _ Hl); apply Forall_insert; try done.
  - apply Forall_app. split; [|by apply Forall_singleton]. by eapply Forall_lookup_1 in H2.
  - rewrite length_app. cbn. lia.
Qed.

Lemma parseargs_runs fuel h e l ret st : st_ok st -> execs st = h ++ [l] -> e = length h -> cmd_ok (execs st) ret -> (es s - ps st < fuel)%nat ->
  runs (parseargs s fuel e (length l) ret) st (fun c' st' => st_ok st' /\ (ps st <= ps st')%nat /\ cmd_ok (execs st') c' /\ h `prefix_of` execs st').
Proof.
  intros Hs Eh ->. revert l ret st Hs Eh. induction fuel as [|fuel IH]; intros l ret st Hs Eh Hc Hf; [lia|]. cbn [parseargs]. pose proof (so_pos _ Hs) as Hp.
  apply runs_bind. eapply runs_mono; [by apply peek_runs|]. cbn beta. intros b st1 (E1 & H1 & Hsp & _).
  assert (st_ok st1) as Hs1 by (eapply st_ok_same; [done|done|lia]). destruct b.
  { unfold runs. cbn. split_and!; [done|lia|by rewrite E1|]. rewrite E1, Eh. by eexists. }
  apply runs_bind. eapply runs_mono; [apply gettoken_runs; lia|]. intros [[tok q] eq] st2 (E2 & H2 & Hp2 & Hw).
  assert (st_ok st2) as Hs2 by (eapply st_ok_same; [exact Hs1|done|lia]). assert (execs st2 = h ++ [l]) as Eh2 by congruence.
  destruct (Z.eqb_spec tok 0) as [|Hn0]. { unfold runs. cbn. split_and!; [done|lia|by rewrite Eh2, <- Eh|]. rewrite Eh2. by eexists. }
  destruct (Z.eqb_spec tok WORD) as [Et|]; cbn [negb]; [|done]. specialize (Hw Et). apply runs_bind. unfold runs at 1, add_arg. mrun.
  destruct (Nat.leb_spec MAXARGS (length l + 1)) as [|Hlt]; [done|].
  assert (execs st2 !! length h = Some l) as Hl by (rewrite Eh2; by apply list_lookup_middle).
  pose proof (add_arg_ok st2 (length h) q eq l Hs2 Hl Hw Hlt) as Hs3. rewrite (alter_insert _ _ _ _ Hl), Eh2 in Hs3 |- *.
  rewrite insert_app_r_alt in Hs3 |- * by done. rewrite Nat.sub_diag in Hs3 |- *. cbn [insert list_insert] in Hs3 |- *.
  specialize (Hp2 (or_intror Hn0)).
  apply runs_bind. eapply runs_mono; [apply parseredirs_runs; [exact Hs3| |lia]|].
  { cbn [execs]. eapply (cmd_ok_length (h ++ [l])); [by rewrite !length_app|by rewrite <- Eh]. }
  cbn beta. intros c' st4 [[Hs4 Hp4 Hc4 _] E4]. cbn [execs ps] in *. replace (length l + 1)%nat with (length (l ++ [(q, eq)])) by (rewrite length_app; cbn; lia).
  eapply runs_mono; [apply (IH (l ++ [(q, eq)])); [done|done|done|lia]|]. cbn beta. intros c5 st5 (A & B & C & D). split_and!; [done|lia|done|done].
Qed.

Lemma parsed_trans st c st1 c' st' : parsed st c st1 -> parsed st1 c' st' -> parsed st c' st'.
Proof. intros [A B C D] [A' B' C' D']. split; [done|lia|done|by etrans]. Qed.
Lemma parsed_keep st c st1 c' st' : parsed st c st1 -> parsed st1 c' st' -> cmd_ok (execs st') c.
Proof. intros [A B C D] [A' B' C' D']. by eapply cmd_ok_prefix. Qed.
Lemma parsed_move st c st1 st' : parsed st c st1 -> execs st' = execs st1 -> (ps st1 <= ps st' <= es s)%nat -> parsed st c st'.
Proof. intros [A B C D] E Hp. split; [eapply st_ok_same; [done|done|lia]|lia|by rewrite E|by rewrite E]. Qed.

Lemma parseamps_runs fuel c st0 st : parsed st0 c st -> (es s - ps st < fuel)%nat -> runs (parseamps s fuel c) st (fun c' st' => parsed st0 c' st').
Proof.
  revert c st. induction fuel as [|fuel IH]; intros c st P Hf; [lia|]. cbn [parseamps]. pose proof (so_pos _ (pa_ok _ _ _ P)) as Hp.
  apply runs_bind. eapply runs_mono; [by apply peek_runs|]. cbn beta. intros b st1 (E1 & H1 & _ & Hb). destruct b; [|unfold runs; cbn; by eapply parsed_move].
  apply runs_bind. eapply runs_mono; [apply gettoken_runs; lia|]. intros [[tok q] eq] st2 (E2 & H2 & Hp2 & _). specialize (Hp2 (or_introl (Hb eq_refl))).
  apply IH; [|lia]. destruct (parsed_move _ _ _ st2 P) as [A B C D]; [congruence|lia|]. by split.
Qed.

(** A symbol [peek] has seen is taken. *)
Lemma take_symbol {B} toks (K1 K2 : M parser B) st0 c st Q : parsed st0 c st ->
  (forall st', parsed st0 c st' -> (ps st < ps st')%nat -> runs K1 st' Q) -> (forall st', parsed st0 c st' -> (ps st <= ps st')%nat -> runs K2 st' Q) ->
  runs (b ← peek s toks; if b : bool then gettoken s ;; K1 else K2) st Q.
Proof.
  intros P HK1 HK2. pose proof (so_pos _ (pa_ok _ _ _ P)) as Hp. apply runs_bind. eapply runs_mono; [by apply peek_runs|]. cbn beta. intros b st1 (E1 & H1 & _ & Hb).
  destruct b; [|apply HK2; [by eapply parsed_move|lia]]. apply runs_bind. eapply runs_mono; [apply gettoken_runs; lia|].
  intros [[tok q] eq] st2 (E2 & H2 & Hp2 & _). specialize (Hp2 (or_introl (Hb eq_refl))). apply HK1; [eapply parsed_move; [done|congruence|lia]|lia].
Qed.

Lemma st_parsed st c : st_ok st -> cmd_ok (execs st) c -> parsed st c st.
Proof. intros. by split. Qed.

Lemma parse_runs n : forall st, st_ok st ->
  ((4 * (es s - ps st) + 4 <= n)%nat -> runs (parseline s n) st (parsed st)) /\ ((4 * (es s - ps st) + 3 <= n)%nat -> runs (parsepipe s n) st (parsed st)) /\
  ((4 * (es s - ps st) + 2 <= n)%nat -> runs (parseexec s n) st (parsed st)) /\ ((4 * (es s - ps st) + 1 <= n)%nat -> runs (parseblock s n) st (parsed st)).
Proof.
  induction n as [|n IH]; intros st Hs; [split_and!; lia|]. pose proof (so_pos _ Hs) as Hp. split_and!; intros Hn; cbn [parseline parsepipe parseexec parseblock].
  - apply runs_bind. eapply runs_mono; [apply IH; [done|lia]|]. cbn beta. intros c st1 P1. apply runs_bind. eapply runs_mono; [apply (parseamps_runs _ _ st); [exact P1|lia]|].
    cbn beta. intros c1 st2 P2. eapply take_symbol; [done| |intros st' P _; done]. intros st3 P3 Hadv. apply runs_bind.
    eapply runs_mono; [apply IH; [apply P3|pose proof (pa_pos _ _ _ P2); pose proof (so_pos _ (pa_ok _ _ _ P3)); lia]|]. cbn beta. intros r st4 P4. pose proof (parsed_trans _ _ _ _ _ P3 P4) as [A B C D].
    split; [done..| |done]. split; [by eapply parsed_keep|done].
  - apply runs_bind. eapply runs_mono; [apply IH; [done|lia]|]. cbn beta. intros c st1 P1. eapply take_symbol; [done| |intros st' P _; done]. intros st3 P3 Hadv. apply runs_bind.
    eapply runs_mono; [apply IH; [apply P3|pose proof (pa_pos _ _ _ P1); pose proof (so_pos _ (pa_ok _ _ _ P3)); lia]|]. cbn beta. intros r st4 P4. pose proof (parsed_trans _ _ _ _ _ P3 P4) as [A B C D].
    split; [done..| |done]. split; [by eapply parsed_keep|done].
  - apply runs_bind. eapply runs_mono; [by apply peek_runs|]. cbn beta. intros b st1 (E1 & H1 & _ & _). assert (st_ok st1) as Hs1 by (eapply st_ok_same; [done|done|lia]). destruct b.
    { eapply runs_mono; [apply IH; [done|lia]|]. cbn beta. intros c st2 [A B C D]. split; [done|lia|done|by rewrite <- E1]. }
    apply runs_bind. unfold runs at 1, execcmd. mrun. set (st2 := Parser (ps st1) (execs st1 ++ [[]])).
    assert (st_ok st2) as Hs2. { destruct Hs1 as [A B C]. split; [done|apply Forall_app; split; [done|by repeat constructor]..]. }
    apply runs_bind. eapply runs_mono; [apply parseredirs_runs; [exact Hs2|cbn; rewrite length_app; cbn; lia|cbn; lia]|]. cbn beta. intros c st3 [[A B C D] E3].
    eapply runs_mono; [apply (parseargs_runs _ (execs st1) _ []); [done|by rewrite E3|done|done|lia]|]. cbn beta. intros c' st4 (A' & B' & C' & D'). cbn in B. split; [done|lia|done|by rewrite <- E1].
  - apply runs_bind. eapply runs_mono; [by apply peek_runs|]. cbn beta. intros b st1 (E1 & H1 & _ & Hb). destruct b; cbn [negb]; [|done].
    apply runs_bind. eapply runs_mono; [apply gettoken_runs; lia|]. intros [[tok q] eq] st2 (E2 & H2 & Hp2 & _). specialize (Hp2 (or_introl (Hb eq_refl))).
    assert (st_ok st2) as Hs2 by (eapply st_ok_same; [done|congruence|lia]). apply runs_bind. eapply runs_mono; [apply IH; [done|lia]|]. cbn beta. intros c st3 P3.
    apply runs_bind. eapply runs_mono; [apply peek_runs, P3|]. cbn beta. intros b st4 (E4 & H4 & _ & Hb4). destruct b; cbn [negb]; [|done].
    apply runs_bind. eapply runs_mono; [apply gettoken_runs; lia|]. intros [[tok5 q5] eq5] st5 (E5 & H5 & _). pose proof (parsed_move _ _ _ st5 P3 ltac:(congruence) ltac:(lia)) as [A B C D].
    eapply runs_mono; [apply parseredirs_runs; [done|done|lia]|]. cbn beta. intros c' st6 [[A6 B6 C6 D6] E6]. split; [done|lia|done|]. rewrite E6, <- E1, <- E2. done.
Qed.

(** ** The zeroes *)

Lemma nulterminate_words h c buf : nulterminate h c buf = foldl (fun b r => <[r.2 := 0]> b) buf (words h c).
Proof. revert buf. induction c as [e|c IH f ef m fd|l IHl r IHr|l IHl r IHr|c IH]; intros buf; cbn; rewrite ?foldl_app; cbn; congruence. Qed.

Lemma zeroes_lookup (ws : list (nat * nat)) buf i : foldl (fun b r => <[r.2 := 0]> b) buf ws !! i =
  if decide (i ∈ ws.*2) then (if decide (i < length buf)%nat then Some 0 else None) else buf !! i.
Proof.
  revert buf. induction ws as [|r ws IH]; intros buf; cbn [foldl fmap list_fmap]; [by rewrite decide_False by set_solver|]. rewrite IH, length_insert.
  destruct (decide (i ∈ ws.*2)) as [Hi|Hi]; [by rewrite (decide_True (P := i ∈ r.2 :: ws.*2)) by set_solver|]. destruct (decide (i = r.2)) as [->|Hn].
  - rewrite (decide_True (P := r.2 ∈ r.2 :: _)) by set_solver. case_decide; [by apply list_lookup_insert_eq|]. by rewrite list_insert_ge, lookup_ge_None_2 by lia.
  - rewrite list_lookup_insert_ne, decide_False by set_solver. done.
Qed.
Lemma zeroes_length (ws : list (nat * nat)) buf : length (foldl (fun b r => <[r.2 := 0]> b) buf ws) = length buf.
Proof. revert buf. induction ws as [|r ws IH]; intros buf; cbn [foldl]; [done|]. by rewrite IH, length_insert. Qed.

Lemma until0_app (w l : list Z) : Forall (fun c => c <> 0) w -> until0 (w ++ 0 :: l) = w.
Proof. induction 1 as [|c w Hc _ IH]; cbn; [done|]. rewrite (proj2 (Z.eqb_neq _ _) Hc). by rewrite IH. Qed.

Definition word_text (r : nat * nat) : list Z := take (r.2 - r.1) (drop r.1 s).

Lemma char_word i : is_word (char_at s i) = true -> (i < es s)%nat -> Forall (fun c => c <> 0) s -> exists c, s !! i = Some c /\ c <> 0.
Proof.
  intros _ Hi Hs. destruct (lookup_lt_is_Some_2 s i Hi) as [c Hc]. exists c. split; [done|]. by eapply Forall_lookup_1 in Hs.
Qed.

(** A word reads as its text once every word is followed by a zero. *)
Lemma word_cstr ws r : Forall (fun c => c <> 0) s -> Forall word_ok ws -> r ∈ ws -> cstr (foldl (fun b r => <[r.2 := 0]> b) (s ++ [0]) ws) r.1 = word_text r.
Proof.
  intros Hs Hw Hr. rewrite Forall_forall in Hw. pose proof (Hw r Hr) as ((Hlt & Hle) & Hin & _). set (buf := foldl _ _ _). assert (length buf = S (es s)) as Hlen by (unfold buf; rewrite zeroes_length, length_app; cbn; unfold es; lia).
  unfold cstr. rewrite <- (take_drop (r.2 - r.1) (drop r.1 buf)), drop_drop. replace (r.1 + (r.2 - r.1))%nat with r.2 by lia.
  assert (buf !! r.2 = Some 0) as E0. { unfold buf. rewrite zeroes_lookup, decide_True by (apply list_elem_of_fmap; eauto). rewrite length_app. cbn. rewrite decide_True; [done|]. unfold es in Hle. lia. }
  rewrite (drop_S buf 0 r.2 E0). assert (take (r.2 - r.1) (drop r.1 buf) = word_text r) as ->.
  - apply list_eq. intros j. unfold word_text. destruct (decide (j < r.2 - r.1)%nat) as [Hj|]; [|rewrite !lookup_take_ge by lia; done]. rewrite !lookup_take_lt, !lookup_drop by lia.
    unfold buf. rewrite zeroes_lookup, decide_False.
    + apply lookup_app_l. unfold es in Hle. lia.
    + intros (r' & E & Hr')%list_elem_of_fmap. pose proof (Hw r' Hr') as ((_ & Hle') & _ & Hend). specialize (Hin (r.1 + j)%nat ltac:(lia)). rewrite E in Hin.
      rewrite Hend in Hin; [done|]. lia.
  - apply until0_app. unfold word_text. by apply Forall_take, Forall_drop.
Qed.

Lemma words_ok h c : Forall (Forall word_ok) h -> cmd_ok h c -> Forall word_ok (words h c).
Proof.
  intros Hh. induction c as [e|c IH f ef m fd|l IHl r IHr|l IHl r IHr|c IH]; cbn; intros Hc; auto.
  - destruct (lookup_lt_is_Some_2 h e Hc) as [l Hl]. rewrite (list_lookup_total_correct _ _ _ Hl). by eapply Forall_lookup_1 in Hh.
  - apply Forall_app. split; [apply IH, Hc|]. apply Forall_singleton, Hc.
  - apply Forall_app. naive_solver.
  - apply Forall_app. naive_solver.
Qed.
End words.

Lemma parsecmd_result s : Forall (fun c => c <> 0) s ->
  match parsecmd s with
  | inr (c, h, buf) => cmd_ok s h c /\ Forall (fun argv => length argv < MAXARGS)%nat h /\ length buf = S (length s) /\
      Forall (fun r => word_ok s r /\ cstr buf r.1 = word_text s r) (words h c)
  | inl (Panic _) => True
  | inl _ => False
  end.
Proof.
  intros Hs. unfold parsecmd. assert (st_ok s (Parser 0 [])) as H0 by (split; cbn; [lia|constructor..]).
  set (m := parseline s (parse_fuel s) ≫= _). assert (runs m (Parser 0 []) (fun c st => parsed s (Parser 0 []) c st)) as HR.
  { apply runs_bind. eapply runs_mono; [apply parse_runs; [done|cbn; unfold parse_fuel, es; lia]|]. cbn beta. intros c st P. apply runs_bind.
    eapply runs_mono; [apply peek_runs, P|]. cbn beta. intros b st1 (E1 & H1 & _). unfold runs. mrun. destruct (negb _); [done|]. by eapply parsed_move. }
  unfold runs in HR. destruct (m _) as [[]|[c st]]; try done. destruct HR as [[_ Hw Ha] _ Hc _]. split_and!; [done..| |].
  - rewrite nulterminate_words, zeroes_length, length_app. cbn. lia.
  - rewrite nulterminate_words. pose proof (words_ok s _ _ Hw Hc) as HW. apply Forall_forall. intros r Hr. split; [by eapply Forall_forall in HW|]. by apply word_cstr.
Qed.

(** ** Printing and parsing *)

Inductive tok := TW (w : list Z) | TS (c : Z).
Definition text (t : tok) : list Z := match t with TW w => w | TS c => [c] end.
Definition show_toks (ts : list tok) : list Z := t ← ts; text t ++ [32].
Definition paren (bare : bool) (ts : list tok) : list tok := if bare then ts else TS LPAR :: ts ++ [TS RPAR].

(** The tokens of a tree in the place of a line (0), of the command before [&] (1), of a pipeline (2), of a simple command (3). *)
Fixpoint toks (lvl : nat) (t : tree) : list tok :=
  match t with
  | TExec argv => TW <$> argv
  | TRedir t file mode fd => toks 3 t ++ [TS (if fd =? 0 then LT else GT); TW file]
  | TPipe l r => paren (lvl <=? 2)%nat (toks 3 l ++ TS BAR :: toks 2 r)
  | TList l r => paren (lvl <=? 0)%nat (toks 1 l ++ TS SEMI :: toks 0 r)
  | TBack t => paren (lvl <=? 1)%nat (toks 1 t ++ [TS AMP])
  end.
Definition show (t : tree) : list Z := show_toks (toks 0 t).

Definition word_chars (w : list Z) : Prop := w <> [] /\ Forall (fun c => c <> 0 /\ is_word c = true) w.
Fixpoint tree_wf (t : tree) : Prop :=
  match t with
  | TExec argv => Forall word_chars argv /\ (length argv < MAXARGS)%nat
  | TRedir t file mode fd => tree_wf t /\ word_chars file /\ (mode = O_RDONLY /\ fd = 0 \/ mode = Z.lor O_WRONLY O_CREATE /\ fd = 1)
  | TPipe l r | TList l r => tree_wf l /\ tree_wf r
  | TBack t => tree_wf t
  end.

Definition tok_ok (t : tok) : Prop := match t with TW w => word_chars w | TS c => c ∈ symbols end.

Lemma Forall_paren P bare ts : P (TS LPAR) -> P (TS RPAR) -> Forall P ts -> Forall P (paren bare ts).
Proof. intros H1 H2 H. unfold paren. destruct bare; [done|]. constructor; [done|]. apply Forall_app. split; [done|by repeat constructor]. Qed.

Lemma toks_ok t lvl : tree_wf t -> Forall tok_ok (toks lvl t).
Proof.
  assert (forall c, strchr symbols c = true -> tok_ok (TS c)) as HS by (intros c; apply strchr_elem). assert (tok_ok (TS LPAR) /\ tok_ok (TS RPAR)) as [HL HR] by (split; by apply HS).
  revert lvl. induction t as [argv|t IH f m fd|l IHl r IHr|l IHl r IHr|t IH]; intros lvl Hw; cbn [toks tree_wf] in *.
  - apply Forall_fmap. by eapply Forall_impl; [apply Hw|].
  - apply Forall_app. split; [apply IH, Hw|]. constructor; [destruct (fd =? 0); by apply HS|]. constructor; [apply Hw|constructor].
  - apply Forall_paren; [done..|]. apply Forall_app. split; [apply IHl, Hw|]. constructor; [by apply HS|apply IHr, Hw].
  - apply Forall_paren; [done..|]. apply Forall_app. split; [apply IHl, Hw|]. constructor; [by apply HS|apply IHr, Hw].
  - apply Forall_paren; [done..|]. apply Forall_app. split; [apply IH, Hw|]. constructor; [by apply HS|constructor].
Qed.

Section print.
Context (s : list Z).

(** The rest of the line from [p] on is [ts]. *)
Definition at_toks (p : nat) (ts : list tok) : Prop := drop p s = show_toks ts /\ (p <= es s)%nat /\ Forall tok_ok ts.

Lemma char_drop p i : char_at s (p + i) = default 0 (drop p s !! i).
Proof. unfold char_at. by rewrite lookup_drop. Qed.

Lemma is_word_facts c : is_word c = true -> strchr whitespace c = false /\ strchr symbols c = false.
Proof. unfold is_word. rewrite andb_true_iff, !negb_true_iff. done. Qed.
Lemma symbol_facts c : c ∈ symbols -> strchr whitespace c = false /\ c <> 0 /\ is_word c = false.
Proof. unfold symbols. rewrite !elem_of_cons, elem_of_nil. intros Hc. destruct_or! Hc; subst; by vm_compute. Qed.

Lemma at_char p ts : at_toks p ts -> char_at s p = match ts with [] => 0 | t :: _ => hd 0 (text t) end.
Proof.
  intros (Hd & _ & Ht). pose proof (char_drop p 0) as Hc. rewrite Nat.add_0_r, Hd in Hc. rewrite Hc. destruct ts as [|[w|c] ts]; [done| |done].
  inversion Ht as [|? ? Hw _]; subst. destruct Hw as [Hn _]. by destruct w.
Qed.

(** No token starts with a space. *)
Lemma at_skip p ts : at_toks p ts -> skip_space s p = p.
Proof.
  intros Ha. unfold skip_space. destruct (es s - p)%nat eqn:E; [done|]. cbn [skip]. rewrite (at_char _ _ Ha). destruct Ha as (Hd & Hp & Ht).
  destruct ts as [|[w|c] ts]; [by vm_compute| |]; inversion Ht as [|? ? H1 H2]; subst; cbn [text hd tok_ok] in *.
  - destruct H1 as [Hn Hw]. destruct w as [|c w]; [done|]. inversion Hw as [|? ? [_ Hc'] _]; subst. cbn [hd]. by rewrite (proj1 (is_word_facts c Hc')).
  - by rewrite (proj1 (symbol_facts c H1)).
Qed.

Definition first_is (l : list Z) (ts : list tok) : bool := match ts with TS c :: _ => strchr l c | _ => false end.

Lemma peek_at l p h ts : at_toks p ts -> Forall (fun c => c ∈ symbols) l -> peek s l (Parser p h) = inr (first_is l ts, Parser p h).
Proof.
  intros Ha Hl. unfold peek. mrun. unfold set_ps. cbn [ps execs]. rewrite (at_skip _ _ Ha), (at_char _ _ Ha). do 3 f_equal.
  destruct Ha as (_ & _ & Ht). destruct ts as [|[w|c] ts]; [done| |]; inversion Ht as [|? ? H1 _]; subst; cbn [text hd first_is].
  - destruct H1 as [Hn Hw]. destruct w as [|c w]; [done|]. inversion Hw as [|? ? [Hc0 Hc] _]; subst. cbn [hd]. apply andb_false_iff. right. apply strchr_false. intros Hin.
    rewrite Forall_forall in Hl. apply Hl in Hin. apply symbol_facts in Hin as (_ & _ & ?). congruence.
  - destruct (symbol_facts c H1) as (_ & H0 & _). by rewrite (proj2 (Z.eqb_neq _ _) H0).
Qed.

Lemma at_tail p t ts : at_toks p (t :: ts) -> at_toks (p + length (text t) + 1) ts /\ char_at s (p + length (text t)) = 32 /\
  (forall i, (i < length (text t))%nat -> char_at s (p + i) = text t !!! i).
Proof.
  intros (Hd & Hp & Ht). inversion Ht as [|? ? H1 H2]; subst. change (show_toks (t :: ts)) with ((text t ++ [32]) ++ show_toks ts) in Hd.
  pose proof (f_equal length Hd) as Hl. rewrite length_drop, !length_app in Hl. cbn [length] in Hl. split_and!.
  - split; [|split; [unfold es; lia|done]]. rewrite <- Nat.add_assoc, <- drop_drop, Hd. apply drop_app_length'. rewrite length_app. done.
  - rewrite char_drop, Hd, <- app_assoc, lookup_app_r, Nat.sub_diag by lia. done.
  - intros i Hi. rewrite char_drop, Hd, <- app_assoc, lookup_app_l by lia. by rewrite (list_lookup_lookup_total_lt _ _ Hi).
Qed.

Lemma skip_run q m j n : (n <= m)%nat -> (forall i, (i < n)%nat -> q (char_at s (j + i)) = true) -> q (char_at s (j + n)) = false -> skip s q m j = (j + n)%nat.
Proof.
  revert j n. induction m as [|m IH]; intros j n Hn Hall Hstop; cbn [skip]; [lia|]. destruct n as [|n].
  - rewrite Nat.add_0_r in *. by rewrite Hstop.
  - pose proof (Hall 0%nat ltac:(lia)) as H0. rewrite Nat.add_0_r in H0. rewrite H0, (IH (S j) n); [lia|lia| |].
    + intros i Hi. specialize (Hall (S i) ltac:(lia)). by rewrite Nat.add_succ_r in Hall.
    + by rewrite Nat.add_succ_r in Hstop.
Qed.

Lemma space_after p t ts : at_toks p (t :: ts) -> skip_space s (p + length (text t)) = (p + length (text t) + 1)%nat.
Proof.
  intros Ha. destruct (at_tail _ _ _ Ha) as (Hn & Hc & _). pose proof (at_skip _ _ Hn) as Hk. pose proof (char_at_lt s (p + length (text t)) ltac:(by rewrite Hc)) as Hlt.
  unfold skip_space in *. destruct (es s - (p + length (text t)))%nat as [|n] eqn:E; [lia|]. cbn [skip]. rewrite Hc. cbn [strchr existsb whitespace Z.eqb].
  replace (es s - (p + length (text t) + 1))%nat with n in Hk by lia. by rewrite Nat.add_1_r in Hk |- *.
Qed.

Definition code (t : tok) : Z := match t with TW _ => WORD | TS c => c end.

Lemma gettoken_at p h t ts : at_toks p (t :: ts) ->
  gettoken s (Parser p h) = inr (code t, p, (p + length (text t))%nat, Parser (p + length (text t) + 1) h).
Proof.
  intros Ha. pose proof (space_after _ _ _ Ha) as Hs. destruct (at_tail _ _ _ Ha) as (Hn & Hc & Hch). unfold gettoken. mrun. unfold set_ps. cbn [ps execs].
  rewrite (at_skip _ _ Ha), (at_char _ _ Ha). pose proof Ha as (_ & Hp & Ht). inversion Ht as [|? ? H1 _]; subst. destruct t as [w|c]; cbn [text hd code length tok_ok] in *.
  - destruct H1 as [Hne Hw]. destruct w as [|c w]; [done|]. cbn [hd]. pose proof Hw as Hw'. inversion Hw as [|? ? [Hc0 Hcw] _]; subst.
    destruct (is_word_facts c Hcw) as [_ Hsy]. rewrite (proj2 (Z.eqb_neq _ _) Hc0). rewrite strchr_false in Hsy.
    rewrite (proj2 (strchr_false _ _)) by (unfold symbols in Hsy; set_solver). rewrite (proj2 (Z.eqb_neq c GT)) by (intros ->; apply Hsy; unfold symbols; set_solver).
    assert (skip s is_word (es s - p) p = p + length (c :: w))%nat as ->; [|by rewrite Hs].
    apply skip_run; [pose proof (char_at_lt s (p + length (c :: w)) ltac:(by rewrite Hc)); lia| |by rewrite Hc].
    intros i Hi. rewrite Hch by done. rewrite Forall_forall in Hw'. apply Hw'. by apply list_elem_of_lookup_total_2.
  - destruct (symbol_facts c H1) as (_ & H0 & _). rewrite (proj2 (Z.eqb_neq _ _) H0). rewrite Nat.add_1_r in Hs, Hc |- *.
    unfold symbols in H1. rewrite !elem_of_cons, elem_of_nil in H1. destruct_or! H1; subst; cbn [strchr existsb Z.eqb BAR LPAR RPAR SEMI AMP LT GT Pos.eqb orb]; try by rewrite Hs.
    rewrite Hc. cbn [Z.eqb Pos.eqb GT]. by rewrite Hs.
Qed.

Lemma gettoken_end p h : at_toks p [] -> gettoken s (Parser p h) = inr (0, p, p, Parser p h).
Proof. intros Ha. unfold gettoken. mrun. unfold set_ps. cbn [ps execs]. rewrite (at_skip _ _ Ha), (at_char _ _ Ha). cbn [Z.eqb]. by rewrite (at_skip _ _ Ha). Qed.

(** [m] returns with [Q], unless its fuel is too small. *)
Definition gives {A} (m : M parser A) (st : parser) (Q : A -> parser -> Prop) : Prop :=
  match m st with inr (a, st') => Q a st' | inl NoFuel => True | inl _ => False end.

Lemma gives_bind {A B} (m : M parser A) (k : A -> M parser B) st Q : gives m st (fun a st' => gives (k a) st' Q) -> gives (m ≫= k) st Q.
Proof. unfold gives, mbind, M_bind. by destruct (m st) as [[]|[a st']]. Qed.
Lemma gives_mono {A} (m : M parser A) st (P Q : A -> parser -> Prop) : gives m st P -> (forall a st', P a st' -> Q a st') -> gives m st Q.
Proof. unfold gives. destruct (m st) as [[]|[a st']]; auto. Qed.
Lemma gives_eq {A} (m : M parser A) st a st' (Q : A -> parser -> Prop) : m st = inr (a, st') -> Q a st' -> gives m st Q.
Proof. unfold gives. by intros ->. Qed.
Lemma gives_ret {A} (a : A) st (Q : A -> parser -> Prop) : Q a st -> gives (mret a) st Q.
Proof. done. Qed.

Definition word_at (r : nat * nat) (w : list Z) : Prop := r.2 = (r.1 + length w)%nat /\ word_text s r = w.
Fixpoint rep (h : list (list (nat * nat))) (c : cmd) (t : tree) : Prop :=
  match c, t with
  | EXEC e, TExec ws => exists rs, h !! e = Some rs /\ Forall2 word_at rs ws
  | REDIR c f ef m fd, TRedir t w m' fd' => rep h c t /\ word_at (f, ef) w /\ m = m' /\ fd = fd'
  | PIPE l r, TPipe l' r' | LIST l r, TList l' r' => rep h l l' /\ rep h r r'
  | BACK c, TBack t => rep h c t
  | _, _ => False
  end.

Lemma rep_prefix h h' c t : h `prefix_of` h' -> rep h c t -> rep h' c t.
Proof.
  intros Hh. revert t. induction c as [e|c IH f ef m fd|l IHl r IHr|l IHl r IHr|c IH]; intros []; cbn; try done; try naive_solver.
  intros (rs & Hl & HF). exists rs. split; [|done]. by eapply prefix_lookup_Some.
Qed.

Lemma word_at_tok p w ts : at_toks p (TW w :: ts) -> word_at (p, (p + length w)%nat) w.
Proof.
  intros (Hd & _ & _). split; [done|]. unfold word_text. cbn [fst snd]. rewrite Hd. replace (p + length w - p)%nat with (length w) by lia. cbn [show_toks mbind list_bind text].
  rewrite <- app_assoc. by apply take_app_length.
Qed.

(** Redirections, outermost last. *)
Definition wrap (t : tree) (rs : list (list Z * Z * Z)) : tree := foldl (fun t '(w, m, fd) => TRedir t w m fd) t rs.
Definition redir_toks (rs : list (list Z * Z * Z)) : list tok := '(w, _, fd) ← rs; [TS (if fd =? 0 then LT else GT); TW w].
Definition redir_ok (r : list Z * Z * Z) : Prop :=
  let '(w, m, fd) := r in word_chars w /\ (m = O_RDONLY /\ fd = 0 \/ m = Z.lor O_WRONLY O_CREATE /\ fd = 1).

Definition not_redir (t : tree) : Prop := match t with TRedir _ _ _ _ => False | _ => True end.

Lemma strip_redirs t : tree_wf t -> exists b rs, t = wrap b rs /\ not_redir b /\ tree_wf b /\ Forall redir_ok rs /\ toks 3 t = toks 3 b ++ redir_toks rs.
Proof.
  induction t as [argv|t IH f m fd|l _ r _|l _ r _|t _]; intros Hw.
  2:{ destruct Hw as (Hw & Hf & Hm). destruct (IH Hw) as (b & rs & -> & Hb & Hwb & Hr & Ht). exists b, (rs ++ [(f, m, fd)]). unfold wrap. rewrite foldl_app. split_and!; try done.
    - apply Forall_app. split; [done|]. by apply Forall_singleton.
    - cbn [toks]. fold (wrap b rs). rewrite Ht. unfold redir_toks. rewrite bind_app, <- app_assoc. done. }
  all: eexists _, []; split_and!; try done; cbn; by rewrite app_nil_r.
Qed.

Lemma parseredirs_at fuel rs rest c p h : at_toks p (redir_toks rs ++ rest) -> Forall redir_ok rs -> first_is [LT; GT] rest = false ->
  gives (parseredirs s fuel c) (Parser p h) (fun c' st' => at_toks (ps st') rest /\ execs st' = h /\ forall h' t, rep h' c t -> rep h' c' (wrap t rs)).
Proof.
  revert rs c p. induction fuel as [|fuel IH]; intros rs c p Ha Hr Hn; [done|]. cbn [parseredirs]. assert (Forall (fun c => c ∈ symbols) [LT; GT]) as Hsy by by repeat (constructor; [by apply strchr_elem|]).
  apply gives_bind. eapply gives_eq; [by apply peek_at|]. destruct rs as [|[[w m] fd] rs].
  - cbn [redir_toks mbind list_bind app] in *. rewrite Hn. by apply gives_ret.
  - inversion Hr as [|? ? Hwm Hr']; subst. destruct Hwm as [Hw Hm]. cbn [redir_toks mbind list_bind app] in Ha. assert (first_is [LT; GT] (TS (if fd =? 0 then LT else GT) :: TW w :: redir_toks rs ++ rest) = true) as E by by destruct (fd =? 0).
    change (first_is _ _) with (first_is [LT; GT] (TS (if fd =? 0 then LT else GT) :: TW w :: redir_toks rs ++ rest)). rewrite E.
    apply gives_bind. eapply gives_eq; [eapply gettoken_at; exact Ha|]. destruct (at_tail _ _ _ Ha) as [Ha1 _]. apply gives_bind. eapply gives_eq; [eapply gettoken_at; exact Ha1|]. destruct (at_tail _ _ _ Ha1) as [Ha2 _].
    cbn [code negb Z.eqb]. cbn [Pos.eqb WORD]. eapply gives_mono; [apply (IH rs); done|]. cbn beta. intros c' st' (A & B & C). split_and!; [done..|].
    intros h' t Ht. apply C. destruct Hm as [[-> ->]|[-> ->]]; cbn; (split; [done|]); (split; [by eapply word_at_tok|done]).
Qed.

(** What may follow a simple command. *)
Definition follow (l : list Z) (rest : list tok) : Prop := rest = [] \/ first_is l rest = true.
Definition after_exec : list Z := [BAR; RPAR; AMP; SEMI].

Lemma follow_not l l' rest : follow l rest -> Forall (fun c => c ∉ l') l -> first_is l' rest = false.
Proof.
  intros [->|H] Hl; [done|]. destruct rest as [|[w|c] rest]; try done. cbn [first_is] in *. apply strchr_false. rewrite strchr_elem in H. rewrite Forall_forall in Hl. by apply Hl.
Qed.
Ltac notin := repeat (constructor; [apply strchr_false; reflexivity|]); constructor.
Ltac syms := repeat (constructor; [apply strchr_elem; reflexivity|]); constructor.

Lemma parseargs_at fuel ws rs rest hh l ret p : at_toks p ((TW <$> ws) ++ redir_toks rs ++ rest) -> (ws = [] -> rs = []) -> Forall redir_ok rs -> follow after_exec rest ->
  (length l + length ws < MAXARGS)%nat ->
  gives (parseargs s fuel (length hh) (length l) ret) (Parser p (hh ++ [l])) (fun c' st' => at_toks (ps st') rest /\
    exists k, execs st' = hh ++ [l ++ k] /\ Forall2 word_at k ws /\ forall h' t, rep h' ret t -> rep h' c' (wrap t rs)).
Proof.
  revert ws rs l ret p. induction fuel as [|fuel IH]; intros ws rs l ret p Ha He Hr Hfo Hlen; [done|]. cbn [parseargs]. apply gives_bind. eapply gives_eq; [apply peek_at; [exact Ha|syms]|].
  destruct ws as [|w ws].
  - rewrite He in * by done. cbn [fmap list_fmap redir_toks mbind list_bind app] in *.
    assert (at_toks p rest /\ exists k, hh ++ [l] = hh ++ [l ++ k] /\ Forall2 word_at k [] /\ forall h' t, rep h' ret t -> rep h' ret (wrap t [])) as Hdone.
    { split; [done|]. exists []. rewrite app_nil_r. done. }
    destruct Hfo as [->|Hfo]; [|change [BAR; RPAR; AMP; SEMI] with after_exec; rewrite Hfo; by apply gives_ret].
    cbn [first_is]. apply gives_bind. eapply gives_eq; [by apply gettoken_end|]. cbn [Z.eqb]. by apply gives_ret.
  - cbn [fmap list_fmap app first_is] in *. apply gives_bind. eapply gives_eq; [eapply gettoken_at; exact Ha|]. destruct (at_tail _ _ _ Ha) as [Ha1 _]. cbn [code text] in *.
    change (WORD =? 0) with false. change (WORD =? WORD) with true. cbn [negb]. apply gives_bind. eapply gives_eq; [reflexivity|].
    destruct (Nat.leb_spec MAXARGS (length l + 1)) as [|_]; [cbn [length] in Hlen; lia|]. unfold ps, execs. rewrite (alter_insert _ _ _ l) by by apply list_lookup_middle.
    rewrite insert_app_r_alt by done. rewrite Nat.sub_diag. cbn [insert list_insert]. apply gives_bind. pose proof (word_at_tok _ _ _ Ha) as Hw.
    set (rs1 := match ws with [] => rs | _ => [] end). set (rs2 := match ws with [] => [] | _ => rs end).
    eapply gives_mono; [apply (parseredirs_at _ rs1 ((TW <$> ws) ++ redir_toks rs2 ++ rest))|].
    + unfold rs1, rs2. by destruct ws.
    + unfold rs1. by destruct ws.
    + unfold rs2. destruct ws; [|done]. cbn. apply (follow_not _ _ _ Hfo). notin.
    + cbn beta. intros c1 [p1 h1] (A & B & C). cbn [ps execs] in A, B. subst h1. replace (length l + 1)%nat with (length (l ++ [(p, (p + length w)%nat)])) by (rewrite length_app; cbn; lia).
      eapply gives_mono; [apply (IH ws rs2); [done|by intros ->|unfold rs2; by destruct ws|done|rewrite length_app; cbn in *; lia]|].
      cbn beta. intros c2 st2 (A2 & k & B2 & C2 & D2). split; [done|]. exists ((p, (p + length w)%nat) :: k). rewrite <- app_assoc in B2. split_and!; [done|by constructor|].
      intros h' t Ht. replace (wrap t rs) with (wrap (wrap t rs1) rs2) by (unfold rs1, rs2; by destruct ws). by apply D2, C.
Qed.

Definition parses (m : M parser cmd) (ts : list tok) (t : tree) (fo : list Z) : Prop := forall p h rest, at_toks p (ts ++ rest) -> follow fo rest ->
  gives m (Parser p h) (fun c st' => at_toks (ps st') rest /\ h `prefix_of` execs st' /\ rep (execs st') c t).

Lemma first_redirs rs rest l : rs <> [] -> LT ∉ l -> GT ∉ l -> first_is l (redir_toks rs ++ rest) = false.
Proof. intros Hn H1 H2. destruct rs as [|[[w m] fd] rs]; [done|]. cbn. apply strchr_false. by destruct (fd =? 0). Qed.

Lemma parseexec_words n ws rs : Forall word_chars ws -> (length ws < MAXARGS)%nat -> Forall redir_ok rs ->
  parses (parseexec s n) ((TW <$> ws) ++ redir_toks rs) (wrap (TExec ws) rs) after_exec.
Proof.
  intros Hws Hlen Hr p h rest Ha Hfo. destruct n as [|n]; [done|]. cbn [parseexec]. rewrite <- app_assoc in Ha. apply gives_bind. eapply gives_eq; [apply peek_at; [exact Ha|syms]|].
  assert (first_is [LPAR] ((TW <$> ws) ++ redir_toks rs ++ rest) = false) as ->.
  { destruct ws; [|done]. cbn. destruct rs; [apply (follow_not _ _ _ Hfo); notin|]. apply first_redirs; [done|by apply strchr_false..]. }
  apply gives_bind. eapply gives_eq; [reflexivity|]. cbn [ps execs]. apply gives_bind.
  set (rs1 := match ws with [] => rs | _ => [] end). set (rs2 := match ws with [] => [] | _ => rs end).
  eapply gives_mono; [apply (parseredirs_at _ rs1 ((TW <$> ws) ++ redir_toks rs2 ++ rest))|].
  - unfold rs1, rs2. by destruct ws.
  - unfold rs1. by destruct ws.
  - unfold rs2. destruct ws; [|done]. cbn. apply (follow_not _ _ _ Hfo). notin.
  - cbn beta. intros c1 [p1 h1] (A & B & C). cbn [ps execs] in A, B. subst h1.
    eapply gives_mono; [apply (parseargs_at _ ws rs2 rest h []); [done|unfold rs2; by intros ->|unfold rs2; by destruct ws|done|done]|].
    cbn beta. intros c2 [p2 h2] (A2 & k & B2 & C2 & D2). cbn [ps execs app] in *. subst h2. split; [done|]. split; [by eexists|].
    replace (wrap (TExec ws) rs) with (wrap (wrap (TExec ws) rs1) rs2) by (unfold rs1, rs2; by destruct ws). apply D2, C. cbn. exists k. split; [by apply list_lookup_middle|done].
Qed.

Definition after_pipe : list Z := [RPAR; AMP; SEMI].
Definition after_line : list Z := [RPAR].

Lemma follow_cons l c rest : strchr l c = true -> follow l (TS c :: rest).
Proof. by right. Qed.
Lemma follow_weaken l l' rest : follow l rest -> Forall (fun c => c ∈ l') l -> follow l' rest.
Proof.
  intros [->|H] Hl; [by left|right]. destruct rest as [|[w|c] rest]; try done. cbn [first_is] in *. rewrite strchr_elem in *. rewrite Forall_forall in Hl. by apply Hl.
Qed.

(** A token that was peeked at is taken. *)
Lemma peek_take {B} l c ts p h (K1 K2 : M parser B) Q : at_toks p (TS c :: ts) -> Forall (fun c => c ∈ symbols) l -> strchr l c = true ->
  (forall p', at_toks p' ts -> gives K1 (Parser p' h) Q) -> gives (b ← peek s l; if b : bool then gettoken s ;; K1 else K2) (Parser p h) Q.
Proof.
  intros Ha Hl Hc HK. apply gives_bind. eapply gives_eq; [apply peek_at; [exact Ha|done]|]. cbn [first_is]. rewrite Hc. apply gives_bind. eapply gives_eq; [eapply gettoken_at; exact Ha|].
  apply HK. by apply (at_tail _ _ _ Ha).
Qed.
Lemma peek_leave {B} l ts p h (K1 K2 : M parser B) Q : at_toks p ts -> Forall (fun c => c ∈ symbols) l -> first_is l ts = false ->
  gives K2 (Parser p h) Q -> gives (b ← peek s l; if b : bool then K1 else K2) (Parser p h) Q.
Proof. intros Ha Hl Hc HK. apply gives_bind. eapply gives_eq; [apply peek_at; [exact Ha|done]|]. by rewrite Hc. Qed.

Lemma parseexec_block n ts b rs : (forall n, parses (parseline s n) ts b after_line) -> Forall redir_ok rs ->
  parses (parseexec s n) (TS LPAR :: (ts ++ [TS RPAR]) ++ redir_toks rs) (wrap b rs) after_exec.
Proof.
  intros HL Hr p h rest Ha Hfo. destruct n as [|[|n]]; [done| |]; cbn [parseexec parseblock].
  { apply gives_bind. eapply gives_eq; [apply peek_at; [exact Ha|syms]|]. done. }
  cbn [app] in Ha. rewrite <- !app_assoc in Ha. cbn [app] in Ha.
  apply gives_bind. eapply gives_eq; [apply peek_at; [exact Ha|syms]|]. change (first_is [LPAR] (TS LPAR :: _)) with true. cbv iota.
  apply gives_bind. eapply gives_eq; [apply peek_at; [exact Ha|syms]|]. change (negb (first_is [LPAR] (TS LPAR :: _))) with false. cbv iota.
  apply gives_bind. eapply gives_eq; [eapply gettoken_at; exact Ha|]. destruct (at_tail _ _ _ Ha) as [Ha1 _]. apply gives_bind.
  eapply gives_mono; [apply (HL n _ _ _ Ha1); by apply follow_cons|]. cbn beta. intros c [p2 h2] (A & B & C). cbn [ps execs] in *.
  apply gives_bind. eapply gives_eq; [apply peek_at; [exact A|syms]|]. change (negb (first_is [RPAR] (TS RPAR :: _))) with false. cbv iota.
  apply gives_bind. eapply gives_eq; [eapply gettoken_at; exact A|]. destruct (at_tail _ _ _ A) as [A1 _].
  eapply gives_mono; [apply (parseredirs_at _ rs rest); [exact A1|done|apply (follow_not _ _ _ Hfo); notin]|]. cbn beta. intros c' [p3 h3] (A3 & B3 & C3). cbn [ps execs] in *. subst h3. auto.
Qed.

Lemma parsepipe_one n ts t : (forall n, parses (parseexec s n) ts t after_exec) -> parses (parsepipe s n) ts t after_pipe.
Proof.
  intros HE p h rest Ha Hfo. destruct n as [|n]; [done|]. cbn [parsepipe]. apply gives_bind. eapply gives_mono; [apply (HE n _ _ _ Ha); apply (follow_weaken _ _ _ Hfo); syms|].
  cbn beta. intros c [p1 h1] (A & B & C). cbn [ps execs] in *. eapply peek_leave; [exact A|syms|apply (follow_not _ _ _ Hfo); notin|]. by apply gives_ret.
Qed.

Lemma parsepipe_bar n ts1 ts2 l r : (forall n, parses (parseexec s n) ts1 l after_exec) -> (forall n, parses (parsepipe s n) ts2 r after_pipe) ->
  parses (parsepipe s n) (ts1 ++ TS BAR :: ts2) (TPipe l r) after_pipe.
Proof.
  intros HE HP p h rest Ha Hfo. destruct n as [|n]; [done|]. cbn [parsepipe]. rewrite <- app_assoc in Ha. cbn [app] in Ha. apply gives_bind.
  eapply gives_mono; [apply (HE n _ _ _ Ha); by apply follow_cons|]. cbn beta. intros c [p1 h1] (A & B & C). cbn [ps execs] in *.
  eapply peek_take; [exact A|syms|done|]. intros p2 A2. apply gives_bind. eapply gives_mono; [apply (HP n _ _ _ A2 Hfo)|]. cbn beta. intros c2 [p3 h3] (A3 & B3 & C3). cbn [ps execs] in *.
  apply gives_ret. split; [done|]. split; [by etrans|]. split; [by eapply rep_prefix|done].
Qed.

Definition tbacks (k : nat) (t : tree) : tree := Nat.iter k TBack t.

Lemma parseamps_at fuel k rest c p h : at_toks p (replicate k (TS AMP) ++ rest) -> first_is [AMP] rest = false ->
  gives (parseamps s fuel c) (Parser p h) (fun c' st' => at_toks (ps st') rest /\ execs st' = h /\ forall t, rep h c t -> rep h c' (tbacks k t)).
Proof.
  revert k c p. induction fuel as [|fuel IH]; intros k c p Ha Hn; [done|]. cbn [parseamps]. destruct k as [|k]; cbn [replicate app] in Ha.
  - eapply peek_leave; [exact Ha|syms|done|]. by apply gives_ret.
  - eapply peek_take; [exact Ha|syms|done|]. intros p' A. eapply gives_mono; [by apply (IH k)|]. cbn beta. intros c' st' (A1 & B1 & C1). split; [done|]. split; [done|].
    intros t Ht. unfold tbacks. rewrite Nat.iter_succ_r. by apply C1.
Qed.

(** A line: a pipeline, its [&]s, and what follows a [;]. *)
Lemma parseline_at n ts u k more t : (forall n, parses (parsepipe s n) ts u after_pipe) ->
  (more = [] /\ t = tbacks k u \/ exists ts2 r, more = TS SEMI :: ts2 /\ t = TList (tbacks k u) r /\ forall n, parses (parseline s n) ts2 r after_line) ->
  parses (parseline s n) (ts ++ replicate k (TS AMP) ++ more) t after_line.
Proof.
  intros HP Hmore p h rest Ha Hfo. destruct n as [|n]; [done|]. cbn [parseline]. rewrite <- !app_assoc in Ha. apply gives_bind.
  assert (follow [RPAR; SEMI] (more ++ rest)) as Hfm. { destruct Hmore as [[-> _]|(ts2 & r & -> & _)]; [apply (follow_weaken _ _ _ Hfo); syms|by apply follow_cons]. }
  eapply gives_mono; [apply (HP n _ _ _ Ha)|].
  { destruct k; cbn [replicate app]; [apply (follow_weaken _ _ _ Hfm); syms|by apply follow_cons]. }
  cbn beta. intros c [p1 h1] (A & B & C). cbn [ps execs] in *. apply gives_bind. eapply gives_mono; [apply (parseamps_at _ k _ _ _ _ A); apply (follow_not _ _ _ Hfm); notin|].
  cbn beta. intros c1 [p2 h2] (A2 & B2 & C2). cbn [ps execs] in *. subst h2. destruct Hmore as [[-> ->]|(ts2 & r & -> & -> & HL)]; cbn [app] in *.
  - eapply peek_leave; [exact A2|syms|apply (follow_not _ _ _ Hfo); notin|]. apply gives_ret. auto.
  - eapply peek_take; [exact A2|syms|done|]. intros p3 A3. apply gives_bind. eapply gives_mono; [apply (HL n _ _ _ A3 Hfo)|]. cbn beta. intros c4 [p4 h4] (A4 & B4 & C4). cbn [ps execs] in *.
    apply gives_ret. split; [done|]. split; [by etrans|]. split; [eapply rep_prefix; [done|by apply C2]|done].
Qed.

Fixpoint tree_size (t : tree) : nat :=
  match t with TExec _ => 1 | TRedir t _ _ _ | TBack t => S (tree_size t) | TPipe l r | TList l r => S (tree_size l + tree_size r) end.

Lemma wrap_size b rs : tree_size (wrap b rs) = (tree_size b + length rs)%nat.
Proof. revert b. induction rs as [|[[w m] fd] rs IH]; intros b; cbn; [lia|]. fold (wrap (TRedir b w m fd) rs). rewrite IH. cbn. lia. Qed.

Definition not_back (t : tree) : Prop := match t with TBack _ => False | _ => True end.

Lemma strip_backs t : tree_wf t -> exists u k, t = tbacks k u /\ tree_wf u /\ not_back u /\ (tree_size u + k = tree_size t)%nat /\ toks 1 t = toks 2 u ++ replicate k (TS AMP).
Proof.
  induction t as [argv|t IH f m fd|l _ r _|l _ r _|t IH]; intros Hw.
  5:{ destruct (IH Hw) as (u & k & -> & Hu & Hb & Hs & Ht). exists u, (S k). split_and!; [done|done|done|cbn in *; lia|]. change (toks 1 (TBack (tbacks k u))) with (toks 1 (tbacks k u) ++ [TS AMP]).
    rewrite Ht, <- app_assoc, replicate_S_end. done. }
  all: eexists _, 0%nat; split_and!; try done; cbn [replicate]; rewrite app_nil_r; done || lia.
Qed.

Definition tree_parses (t : tree) : Prop := (forall n, parses (parseexec s n) (toks 3 t) t after_exec) /\ (forall n, parses (parsepipe s n) (toks 2 t) t after_pipe) /\
  (forall n, parses (parseline s n) (toks 0 t) t after_line).

Lemma line_of_pipe t : toks 0 t = toks 2 t -> (forall n, parses (parsepipe s n) (toks 2 t) t after_pipe) -> forall n, parses (parseline s n) (toks 0 t) t after_line.
Proof. intros E HP n. rewrite E. rewrite <- (app_nil_r (toks 2 t)). apply (parseline_at n _ t 0 []); auto. Qed.
Lemma exec_of_line t : toks 3 t = TS LPAR :: toks 0 t ++ [TS RPAR] -> (forall n, parses (parseline s n) (toks 0 t) t after_line) -> forall n, parses (parseexec s n) (toks 3 t) t after_exec.
Proof. intros E HL n. rewrite E. pose proof (parseexec_block n _ t [] HL) as H. cbn [redir_toks mbind list_bind] in H. rewrite app_nil_r in H. by apply H. Qed.

Lemma parse_tree m t : (tree_size t <= m)%nat -> tree_wf t -> tree_parses t.
Proof.
  revert t. induction m as [|m IH]; intros t Hm Hw; [destruct t; cbn in Hm; lia|].
  assert (toks 2 t = toks 3 t -> toks 0 t = toks 2 t -> (forall n, parses (parseexec s n) (toks 3 t) t after_exec) -> tree_parses t) as Hsimple.
  { intros E2 E0 HA. assert (forall n, parses (parsepipe s n) (toks 2 t) t after_pipe) as HB by (intros n; rewrite E2; by apply parsepipe_one). split_and!; [done..|]. by apply line_of_pipe. }
  assert (toks 2 t = toks 3 t -> toks 3 t = TS LPAR :: toks 0 t ++ [TS RPAR] -> (forall n, parses (parseline s n) (toks 0 t) t after_line) -> tree_parses t) as Hgroup.
  { intros E2 E3 HC. pose proof (exec_of_line t E3 HC) as HA. split_and!; [done| |done]. intros n. rewrite E2. by apply parsepipe_one. }
  destruct t as [argv|t f mo fd|l r|l r|t]; cbn [tree_size] in Hm.
  - apply Hsimple; [done..|]. intros n. destruct Hw as [H1 H2]. pose proof (parseexec_words n argv [] H1 H2) as H. cbn [redir_toks mbind list_bind] in H. rewrite app_nil_r in H. by apply H.
  - apply Hsimple; [done..|]. intros n. destruct (strip_redirs _ Hw) as (b & rs & E & Hb & Hwb & Hr & Ht). rewrite Ht. pose proof (wrap_size b rs) as Hsz. rewrite <- E in Hsz. rewrite E.
    destruct b as [ws|? ? ? ?|l r|l r|u]; [apply parseexec_words; (done || apply Hwb)|done|..].
    all: cbn [tree_size] in Hsz; assert (length rs <> 0)%nat as Hrs by (intros H0%nil_length_inv; by subst rs).
    all: match goal with |- context [toks 3 ?b] => destruct (IH b) as (_ & _ & HC); [cbn [tree_size]; lia|done|]; apply (parseexec_block n (toks 0 b) b rs HC Hr) end.
  - destruct Hw as [Hwl Hwr]. destruct (IH l) as (HAl & _ & _); [lia|done|]. destruct (IH r) as (_ & HBr & _); [lia|done|].
    assert (forall n, parses (parsepipe s n) (toks 2 (TPipe l r)) (TPipe l r) after_pipe) as HB by (intros n; by apply parsepipe_bar).
    assert (forall n, parses (parseline s n) (toks 0 (TPipe l r)) (TPipe l r) after_line) as HC by by apply line_of_pipe. split_and!; [|done|done]. by apply exec_of_line.
  - destruct Hw as [Hwl Hwr]. apply Hgroup; [done..|]. intros n. destruct (strip_backs l Hwl) as (u & k & -> & Hu & _ & Hs & Ht). destruct (IH u) as (_ & HBu & _); [lia|done|].
    destruct (IH r) as (_ & _ & HCr); [lia|done|]. change (toks 0 (TList (tbacks k u) r)) with (toks 1 (tbacks k u) ++ TS SEMI :: toks 0 r). rewrite Ht, <- app_assoc.
    apply (parseline_at n _ u k); [done|]. right. by exists (toks 0 r), r.
  - apply Hgroup; [done..|]. intros n. destruct (strip_backs (TBack t) Hw) as (u & k & E & Hu & Hb & Hs & Ht). cbn [tree_size] in Hs.
    assert (k <> 0)%nat as Hk by (intros ->; cbn in E; by subst u).
    destruct (IH u) as (_ & HBu & _); [lia|done|]. change (toks 0 (TBack t)) with (toks 1 (TBack t)). rewrite Ht, E, <- (app_nil_r (replicate k _)). apply (parseline_at n _ u k []); auto.
Qed.
End print.

Lemma rep_tree s h c t buf : rep s h c t -> cmd_ok s h c -> Forall (fun r => cstr buf r.1 = word_text s r) (words h c) -> tree_of h buf c = t.
Proof.
  revert t. induction c as [e|c IH f ef m fd|l IHl r IHr|l IHl r IHr|c IH]; intros [argv|t f' m' fd'|l' r'|l' r'|t]; cbn; try done.
  - intros (rs & Hl & HF) _ Hw. rewrite (list_lookup_total_correct _ _ _ Hl) in Hw |- *. f_equal. clear Hl. induction HF as [|r w rs ws [_ Hr] _ IH]; [done|].
    inversion Hw as [|? ? H1 H2]; subst. cbn. rewrite H1. f_equal. by apply IH.
  - intros (Hr & [_ Hw] & -> & ->) [Hc _] [H1 H2]%Forall_app. rewrite Forall_singleton in H2. cbn [fst] in H2. rewrite H2, Hw. f_equal. by apply IH.
  - intros [Hl Hr] [Cl Cr] [Wl Wr]%Forall_app. f_equal; [by apply IHl|by apply IHr].
  - intros [Hl Hr] [Cl Cr] [Wl Wr]%Forall_app. f_equal; [by apply IHl|by apply IHr].
  - intros Hr Hc Hw. f_equal. by apply IH.
Qed.

Lemma show_nonzero ts : Forall tok_ok ts -> Forall (fun c => c <> 0) (show_toks ts).
Proof.
  induction 1 as [|t ts Ht _ IH]; [constructor|]. change (show_toks (t :: ts)) with ((text t ++ [32]) ++ show_toks ts). apply Forall_app. split; [|done]. apply Forall_app. split; [|by repeat constructor].
  destruct t as [w|c]; cbn in *; [by eapply Forall_impl; [apply Ht|]; intros c []|]. apply Forall_singleton. by apply symbol_facts.
Qed.

Lemma parsecmd_show t : tree_wf t -> exists c h buf, parsecmd (show t) = inr (c, h, buf) /\ tree_of h buf c = t.
Proof.
  intros Hw. set (s := show t). pose proof (toks_ok t 0 Hw) as Hok. pose proof (show_nonzero _ Hok) as Hnz. fold (show t) in Hnz. fold s in Hnz.
  pose proof (parsecmd_result s Hnz) as HR. destruct (parse_tree s _ t (le_n _) Hw) as (_ & _ & HC).
  assert (at_toks s 0 (toks 0 t ++ [])) as Ha by (rewrite app_nil_r; split; [done|]; split; [lia|done]). specialize (HC (parse_fuel s) 0%nat [] [] Ha (or_introl eq_refl)).
  unfold parsecmd in *. set (m := parseline s (parse_fuel s) ≫= _) in *. assert (gives m (Parser 0 []) (fun c st => rep s (execs st) c t)) as HG.
  { apply gives_bind. eapply gives_mono; [exact HC|]. cbn beta. intros c [p h] (A & _ & C). cbn [ps execs] in *. apply gives_bind. eapply gives_eq; [apply peek_at; [exact A|constructor]|].
    unfold gives. mrun. destruct A as (Hd & Hp & _). apply (f_equal length) in Hd. rewrite length_drop in Hd. cbn in Hd.
    assert (p = es s) as -> by (unfold es in *; lia). cbn [ps]. by rewrite Nat.eqb_refl. }
  unfold gives in HG. destruct (m _) as [[]|[c st]]; try done. eexists _, _, _. split; [done|]. destruct HR as (Hc & _ & _ & HF). eapply rep_tree; [done|done|].
  eapply Forall_impl; [exact HF|]. by intros r [_ ?].
Qed.

(** C34: On every line the parser ends: it returns a command or stops with a message.  A command it returns lies inside the line and
    has at most [MAXARGS - 1] arguments in every node; each of its words is a maximal run of word characters, and the zeroes
    stored behind the words make each of them the C string of its text, inside the buffer. *)
Theorem parsecmd_total s : Forall (fun c => c <> 0) s ->
  match parsecmd s with
  | inr (c, h, buf) => cmd_ok s h c /\ Forall (fun argv => length argv < MAXARGS)%nat h /\ length buf = S (length s) /\
      Forall (fun r => word_ok s r /\ cstr buf r.1 = word_text s r) (words h c)
  | inl (Panic _) => True
  | inl _ => False
  end.
Proof. apply parsecmd_result. Qed.

Lemma parsecmd_total_witness : match parsecmd [97; 62; 62; 98; 38] with inr (c, h, buf) => tree_of h buf c = TBack (TRedir (TExec [[97]]) [98] 257 1) | inl _ => False end /\
  match parsecmd [97; 62; 62; 98; 38] with inr (c, h, _) => cmd_ok [97; 62; 62; 98; 38] h c | inl (Panic _) => True | inl _ => False end.
Proof.
  split; [by vm_compute|]. pose proof (parsecmd_total [97; 62; 62; 98; 38] ltac:(by repeat constructor)) as H. destruct (parsecmd _) as [[]|[[c h] buf]]; try done. apply H.
Defined.

(** C33: A command written out, with parentheses where its place asks for them, parses to itself: pipelines, lists, background
    commands, redirections and arguments come back as they were, and no line of this form is refused. *)
Theorem parsecmd_print_roundtrip t : tree_wf t -> exists c h buf, parsecmd (show t) = inr (c, h, buf) /\ tree_of h buf c = t.
Proof. apply parsecmd_show. Qed.

(** (a b ; c) < d | e &, for the letters. *)
Definition demo_tree : tree := TBack (TPipe (TRedir (TList (TExec [[97]; [98]]) (TExec [[99]])) [100] O_RDONLY 0) (TExec [[101]])).

Lemma parsecmd_print_roundtrip_witness : exists c h buf, parsecmd (show demo_tree) = inr (c, h, buf) /\ tree_of h buf c = demo_tree.
Proof. apply (parsecmd_print_roundtrip demo_tree). cbn. unfold word_chars. split_and!; try (left; done); by repeat constructor. Defined.
